(* ===== verification/_CoqProject ===== *)
-Q . S2P
Prelude.v
Utf8.v
Rank.v
Uuid.v
Ltree.v
DateTime.v
Float.v
Json.v
Base64.v
SxqLexer.v
SxqParser.v
SxqCompile.v
SxqRoundtrip.v
SxqProps.v
Db.v
Events.v
Mutate.v
Demo.v
StoreTree.v
Store.v
StoreRollup.v
StoreRank.v
Journal.v
JournalProps.v
JournalDemo.v
Guard.v
Projection.v
ProjectionProps.v
Paging.v
Cursor.v
CursorProps.v
Auth.v
AuthProps.v
Throttle.v
Problem.v
Site.v
Input.v
Patch.v
Items.v
Workflow.v
WorkflowProps.v
SiteDemo.v
PatchProps.v
Evolve.v
EditProps.v
TransitionProps.v
TypedFields.v
MoveProps.v
EditDemo.v
Listing.v
ListingProps.v
Http.v
HttpProps.v
Projects.v
ProjectsProps.v
ProjectReady.v
Operator.v
OperatorProps.v
Recovery.v
OperatorDemo.v
Lock.v
Reads.v
ReadsProps.v
Accounts.v
AccountsProps.v
Scope.v
ScopeProps.v
Env.v
EnvProps.v
Bootstrap.v
BootstrapProps.v
Documents.v
DocumentsProps.v
Seed.v
SeedProps.v
Tools.v
ToolsProps.v
Exports.v
ExportsProps.v
Redaction.v
