(* ===== verification/Prelude.v ===== *)
(** * Verification of the sierx work tracker

    sierx is a Go server and an operator tool on PostgreSQL. The server keeps
    workspaces of projects, and in a project a tree of items with ranks, rollups,
    custom fields and a change log; it answers a JSON API with a query language. The
    operator's tool keeps decisions about content (holds, redactions, retention) in an
    encrypted journal outside the database. This library models the Go code under
    [src/internal] and [src/cmd] that decides something, with the SQL it relies on,
    and proves what it is for. The model is shallow: a Go function is a Rocq function
    of the same name on explicit state, [(T, error)] is [result E T], a statement is a
    function on the tables, and an integer of a width wraps or is checked at it.

    ** Files, bottom up

    Shared: this file (results and their notation, lists, maps, tactics, hint
    databases); [Utf8], [DateTime], [Float], [Base64], [Json], [Uuid] (the parts of
    Go's library the program computes with: runes, dates and timestamps, binary64,
    unpadded base64, JSON values, canonical identifiers); [Paging] (keyset pages over
    any sorted table).

    Ordering: [Rank] is [store/rank.go].

    The store: [Ltree] and [Db] are the item paths, tables, statements, constraints
    and triggers ([store/gen], [migrations]); [Events] is the mutation builder
    ([store/events.go]); [Mutate] is the single write path ([store/mutate.go],
    [comments.go], [rollup.go], [pgtypes.go]). [StoreTree], [Store], [StoreRollup],
    [StoreRank] hold its theorems, [Demo] a small database.

    The query language: [SxqLexer], [SxqParser], [SxqCompile] are [internal/sxq];
    [SxqRoundtrip] (tokens, then the printer in its Module [Print]) and [SxqProps]
    the theorems.

    The operator's side: [Journal] is [lifecycle/journal.go] on an explicit file
    system, [Lock] its lock with the processes that contend for it, [Guard] the
    serving process's check ([lifecycle/database.go]), [Operator] the commands
    [sierxctl lifecycle] with the database functions they call
    ([cmd/sierxctl/lifecycle.go], [retention.go], [migrations/0014]), [Redaction] what
    a decision does to the rows it covers. [JournalProps], [OperatorProps], [Recovery]
    and the Module [RedactionProps] hold the theorems, [JournalDemo], [OperatorDemo]
    runs.
    The other commands of [sierxctl]: [Exports] ([exports.go] with the functions of
    [migrations/0014]), [Tools] ([rollup.go], [partitions.go], [restoretest.go],
    [main.go]), [Bootstrap] ([bootstrap.go] and [internal/bootstrap]), [Seed]
    ([seed.go] and [store/seed]), and in [Accounts] the suspension of accounts.

    The API: [Problem] (problem documents, shared checks), [Projection] (field
    selection), [Cursor] (signed cursors, pages, the change feed), [Auth] and
    [Throttle] (sign-in, second factor, sessions, the attempt throttle), [Site] (the
    tables the handlers read and the document of an item), [Input] (item bodies and
    their validation), [Patch] and [Items] (the handlers that change items, links and
    comments), [Workflow] (the workflow editor), [Listing] (the item list), [Projects]
    (projects, their default workflow, workspace settings), [Reads] (history, the tree
    around an item, lists of projects and members, the resolved configuration),
    [Accounts] (members, own settings, saved views), [Http] (compression, conditional answers, the outer middleware),
    [Scope] (who a request acts for, its transaction, the routes), [Documents] (the
    pages the server renders), [Env] ([internal/config] and the start of
    [cmd/sierx]). Theorems: [ProjectionProps], [CursorProps], [AuthProps],
    [WorkflowProps], [PatchProps], [Evolve], [EditProps], [TransitionProps],
    [TypedFields], [MoveProps], [ListingProps], [ProjectsProps], [ProjectReady] (with a
    Module [ProjectEdits]), [HttpProps], [ReadsProps], [AccountsProps], [ScopeProps],
    [EnvProps], [BootstrapProps], [DocumentsProps], [SeedProps], [ToolsProps],
    [ExportsProps]. Concrete runs are in [SiteDemo] and [EditDemo] and in the Modules
    [ListingDemo], [ReadsDemo], [ToolsDemo], [ExportsDemo] of the files of theorems.

    ** What the theorems show

    - Rank: [RankBetween] is strictly between its bounds and terminates except on one
      kind of bounds ([RankBetween_diverges_iff]); the store never produces that kind.
    - Store: every mutation keeps the tree, the ranks, the gap-free log and the
      rollups, and no two writers that expect one version both succeed; the simulation
      between the stored rollups and fresh aggregates is [Mutate_rollups].
    - Query language: literals never reach the SQL text, printing is inverted by
      parsing, the project narrowing loses no row.
    - Items: an accepted edit, transition or move does exactly what the request says,
      against tables other writers may have changed since they were read; custom
      fields keep their declared types. A handler is split where it stops reading
      ([update_plan]/[commit] and so on); [Evolve.evolves] is what may happen between
      the two, as a step relation closed under mutations, respreads and editors.
    - Workflow and projects: each version of a configuration is closed under its
      references, an accepted draft is read back, a new project has the default one.
    - Lists: following cursors yields every row once; a cursor is bound to its request;
      the rows found by paths are those the parent references lead to.
    - Sign-in: sessions need password and second factor; accepted codes are of ever later
      time steps or use up their recovery code ([second_factor_once]); the throttle
      bounds attempts and recovers; a suspended account stays out; a provisioned
      member can sign in.
    - Requests and pages: a guarded route acts for an active account in a role it has
      ([serve_api_authentic]); nothing a workspace holds becomes markup
      ([renderDocument_inert]), and pages are made for the identity of the request.
    - Start-up and installation: an accepted environment is what was asked for, what is
      served has been verified, the installation happens once and leaves an
      administrator who can sign in.
    - Operator: under commands, crashes, lost COMMITs, restored backups and ordinary
      writes, every database is an exact prefix of the journal ([lifecycle_prefix]);
      where the rest of the program writes only while no decision is pending and
      restored backups are no older than its last write, replaying always succeeds,
      brings it to the end, and the guard lets requests in again ([lifecycle_recovers];
      from other states it succeeds or changes nothing, [recovery_outcome]); a hold protects its workspace ([hold_protects]); commands
      that interleave at every step exclude each other ([lock_serializes]).
    - Redaction: redacting an item leaves nothing of it or of what is below it, in the
      tables or the log, and hides it after every later decision ([redaction_erases]),
      no decision lifts a permanent restriction
      ([permanent_kept]), restoring undoes a takedown ([takedown_restored]), and the
      items of another workspace are not touched ([other_workspaces_kept]).
    - Exports: an export holds what belongs to its account or workspace
      ([account_export_own], [account_export_unrelated], [workspace_export_own]) and is
      bound to its case, an hour and no revocation ([export_bound],
      [revoked_stays_revoked]); a download touches one new file ([download_file]).
    - Tools: a restore test changes its scratch database only, for connection strings
      without the parameters its checks overlook ([plain_urls]; [escaping_ex] has one),
      and comes to every driver ([restore_test_safe], [drivers_rotate]); the audit passes exactly on
      sound rollups; a seed run keeps the store correct and its planning never fails.
    - HTTP: compression is transparent, the encoding chosen is acceptable.

    ** Interfaces

    Code that is not in the repository is a class whose fields are what the program
    calls and the laws it relies on: [Uuid.UuidParse] (the identifier parser),
    [Input.UrlParse], [Journal.Crypto] and [Auth.AuthCrypto] (digests, AES-GCM,
    Argon2id), [Journal.Codec] (JSON of the journal's structures), [Http.Encoders]
    (brotli and gzip), [Listing.Postgres] (evaluation and order of SQL values),
    [Reads.ReadSql] and [Seed.SeedSql] (operators and functions of PostgreSQL),
    [Exports.PgText] and [Redaction.PgTime] (its text of JSON and times), [Env.EnvLib], [Documents.DocLib]
    and [Tools.Dsn] (parsers of URLs, addresses and connection strings), [Seed.Rng] (a
    source of draws). Each has an instance a witness runs with. [Operator.Content] is
    the part of the database a lifecycle decision covers, which the commands and the
    theorems on the journal do not look into; [Redaction.sql_content] is its instance.
    [OperatorProps.Applies] is what recovery needs of it, that a planned decision applies
    to the state it was planned on; [Redaction.sql_applies] proves it of the tables, up
    to the address an anonymised account gets ([erased_free], [taken_email_ex]).
    [Tools.Dsn] says which server and database a client connects to, parameters of the
    query that override the path and the host included.

    ** Bounds and fuel

    Loops that Go runs to an exit take fuel: [RankBetweenFuel] with
    [RankBetween_diverges_iff] for exactly the calls that never return; the parser's
    fuel is the number of tokens, which it consumes. int32 and int64 arithmetic wraps
    or is refused where the code or a column does; lengths of strings and lists in
    memory are not bounded.

    ** Not modelled

    Listening, draining and shutdown ([Server.Serve]); log lines and
    printed progress; the generated statements that only tests use and the interface
    and constructor generated with them; code generators and benchmark limits; the web
    client and the scripts. The timestamps of rows are kept only where something is
    decided by them (sessions, the journal, exports, redactions). [Exports] and
    [Redaction] keep the columns their functions read and write, in tables of their own
    beside those of [Db] and [Site]. Row-level
    security and grants are taken to hide nothing from the statements modelled.
    Concurrency inside PostgreSQL is serial: a transaction is one step, as the locks of
    the write path make it; a request the guard has let in is taken to write before a
    decision is recorded, not after a crash of the command that recorded it. A text with
    U+0000, which PostgreSQL refuses, is refused by the statements whose success is
    claimed (members, projects, settings, installation) and stored by the others. Of
    net/http's writer the limit a Content-Length sets and the status 101 are left out,
    which no handler sets. A file is written or it is not, except where a torn write
    is an argument. *)
From stdpp Require Export base decidable gmap list strings numbers sorting.
From Stdlib Require Export ZArith Lia Bool.
From Stdlib Require Ascii String.
Export Stdlib.Strings.Ascii (ascii(..)).
Export (notations) Stdlib.Strings.Ascii.

(* ------------------------------------------------------------------ *)
(** * Results: Go's [(value, error)] pairs *)

(** A Go function that returns [(T, error)] returns [Ok v] or [Err e]. *)
Inductive result (E A : Type) : Type :=
  | Ok (a : A)
  | Err (e : E).
Arguments Ok {E A} a.
Arguments Err {E A} e.

Declare Scope go_scope.
Delimit Scope go_scope with go.

(** [let* p := m in k] is Go's [p, err := m; if err != nil { return err }; k]. *)
Notation "'let*' p ':=' m 'in' k" :=
  (match m with Ok p => k | Err e => Err e end)
  (at level 10, p pattern, m at level 100, k at level 200,
   format "'[v' 'let*'  p  ':='  m  'in'  '//' k ']'") : go_scope.
Open Scope go_scope.

(** [if cond { return err }; k] *)
Notation "'guard*' c 'else' e 'in' k" :=
  (if (c : bool) then k else Err e)
  (at level 10, c at level 100, e at level 100, k at level 200,
   format "'[v' 'guard*'  c  'else'  e  'in'  '//' k ']'") : go_scope.

Lemma Ok_inj {E A} (x y : A) : Ok (E := E) x = Ok y -> x = y.
Proof. by intros [= ->]. Qed.

Definition is_ok {E A} (r : result E A) : bool :=
  match r with Ok _ => true | Err _ => false end.

(** A [for _, x := range xs] loop that updates a state and stops at the first
    error. *)
Fixpoint foldM {E A S} (f : S -> A -> result E S) (xs : list A) (s : S) : result E S :=
  match xs with
  | [] => Ok s
  | x :: xs => let* s' := f s x in foldM f xs s'
  end.

(** The same loop collecting one value per element. *)
Fixpoint mapM' {E A B} (f : A -> result E B) (xs : list A) : result E (list B) :=
  match xs with
  | [] => Ok []
  | x :: xs => let* y := f x in let* ys := mapM' f xs in Ok (y :: ys)
  end.

Lemma NoDup_omap {A B} (f : A -> option B) l :
  (forall x y z, f x = Some z -> f y = Some z -> x = y) -> NoDup l -> NoDup (omap f l).
Proof.
  intros Hf. induction l as [|x l IH]; intros Hl; [constructor|]. apply NoDup_cons in Hl as [Hx Hl].
  simpl. destruct (f x) as [z|] eqn:E; [|auto]. apply NoDup_cons. split; [|auto].
  rewrite list_elem_of_omap. intros (y & Hy & Ey). by rewrite <- (Hf _ _ _ E Ey) in Hy.
Qed.

(* ------------------------------------------------------------------ *)
(** * Automation *)

Create HintDb sierx.
Create Rewrite HintDb str_db.

(** Case split on the scrutinee of a [match] in a hypothesis or the goal. *)
Ltac split_match :=
  match goal with
  | H : context [ match ?x with _ => _ end ] |- _ =>
      lazymatch x with context [ match _ with _ => _ end ] => fail | _ => idtac end;
      destruct x eqn:?; try discriminate H
  | |- context [ match ?x with _ => _ end ] =>
      lazymatch x with context [ match _ with _ => _ end ] => fail | _ => idtac end;
      destruct x eqn:?
  end.

(** Invert a successful computation: every [let*] and [guard*] of [H] succeeded. *)
Ltac inv_ok H :=
  repeat lazymatch type of H with
  | match ?x with Ok _ => _ | Err _ => _ end = Ok _ =>
      let E := fresh "E" in destruct x eqn:E; [|discriminate H]
  | (if ?x then _ else Err _) = Ok _ =>
      let E := fresh "G" in destruct x eqn:E; [|discriminate H]
  | (if ?x then Err _ else _) = Ok _ =>
      let E := fresh "G" in destruct x eqn:E; [discriminate H|]
  | match ?x with Some _ => _ | None => Err _ end = Ok _ =>
      let E := fresh "E" in destruct x eqn:E; [|discriminate H]
  | match ?x with None => Err _ | Some _ => _ end = Ok _ =>
      let E := fresh "E" in destruct x eqn:E; [|discriminate H]
  | (let (_, _) := ?x in _) = Ok _ => let E := fresh "E" in destruct x eqn:E
  | Ok _ = Ok _ => injection H as H
  end.

(* ------------------------------------------------------------------ *)
(** * Loops *)

Section loops.
Context {E A S : Type} (f : S -> A -> result E S).

Lemma foldM_app xs ys s :
  foldM f (xs ++ ys) s = (let* s' := foldM f xs s in foldM f ys s').
Proof. revert s; induction xs as [|x xs IH]; intros s; simpl; [done|]. destruct (f s x); auto. Qed.

(** An invariant of the loop body is an invariant of the loop. *)
Lemma foldM_inv (P : S -> Prop) xs s s' :
  (forall s x s', x ∈ xs -> P s -> f s x = Ok s' -> P s') ->
  P s -> foldM f xs s = Ok s' -> P s'.
Proof.
  revert s; induction xs as [|x xs IH]; intros s Hf Hs Hfold; simpl in *; [congruence|].
  inv_ok Hfold. eapply IH; [| |exact Hfold].
  - intros; eapply Hf; eauto. by apply elem_of_cons; right.
  - eapply Hf; eauto. by apply elem_of_cons; left.
Qed.

(** The same with the processed prefix in the invariant. *)
Lemma foldM_inv_prefix (P : list A -> S -> Prop) xs s s' :
  (forall pre s x s', P pre s -> x ∈ xs -> f s x = Ok s' -> P (pre ++ [x]) s') ->
  P [] s -> foldM f xs s = Ok s' -> P xs s'.
Proof.
  intros Hf Hs Hfold.
  cut (forall zs pre s, (forall x, x ∈ zs -> x ∈ xs) -> P pre s ->
         foldM f zs s = Ok s' -> P (pre ++ zs) s').
  { intros H. apply (H xs [] s); auto. }
  clear s Hs Hfold. induction zs as [|z zs IH]; intros pre s Hin Hs Hfold; simpl in *.
  - rewrite app_nil_r. congruence.
  - inv_ok Hfold. rewrite (cons_middle z pre zs), app_assoc. eapply IH; [| |exact Hfold].
    + intros; apply Hin. by apply elem_of_cons; right.
    + eapply Hf; eauto. apply Hin. by apply elem_of_cons; left.
Qed.
End loops.

(* ------------------------------------------------------------------ *)
(** * Machine integers *)

(** Two's complement wrap-around of a 64-bit (Go [int], [int64]) result. *)
Definition wrap64 (z : Z) : Z := (z + 2 ^ 63) `mod` 2 ^ 64 - 2 ^ 63.
Definition in_int64 (z : Z) : bool := (- 2 ^ 63 <=? z)%Z && (z <? 2 ^ 63)%Z.
Definition in_int32 (z : Z) : bool := (- 2 ^ 31 <=? z)%Z && (z <? 2 ^ 31)%Z.

Lemma wrap64_id z : (- 2 ^ 63 <= z < 2 ^ 63)%Z -> wrap64 z = z.
Proof. intros. unfold wrap64. rewrite Z.mod_small; lia. Qed.

(* ------------------------------------------------------------------ *)
(** * Strings as Go byte strings *)

Definition byte_of (c : ascii) : nat := Ascii.nat_of_ascii c.

Lemma byte_of_inj (a b : ascii) : byte_of a = byte_of b -> a = b.
Proof. intros H. rewrite <- (Ascii.ascii_nat_embedding a), <- (Ascii.ascii_nat_embedding b). by f_equal. Qed.

Lemma byte_of_lt c : byte_of c < 256.
Proof. apply Ascii.nat_ascii_bounded. Qed.

Fixpoint chars (s : string) : list ascii :=
  match s with "" => [] | String c s => c :: chars s end.

Fixpoint of_chars (l : list ascii) : string :=
  match l with [] => "" | c :: l => String c (of_chars l) end.

Lemma of_chars_chars s : of_chars (chars s) = s.
Proof. induction s; simpl; congruence. Qed.
Lemma chars_of_chars l : chars (of_chars l) = l.
Proof. induction l; simpl; congruence. Qed.
Lemma chars_app a b : chars (a +:+ b) = chars a ++ chars b.
Proof. induction a; simpl; [done|]. by rewrite IHa. Qed.
Lemma length_chars s : length (chars s) = String.length s.
Proof. induction s; simpl; congruence. Qed.
Lemma chars_inj a b : chars a = chars b -> a = b.
Proof. intros H. rewrite <- (of_chars_chars a), <- (of_chars_chars b). congruence. Qed.
Lemma of_chars_app a b : of_chars (a ++ b) = of_chars a +:+ of_chars b.
Proof. apply chars_inj. by rewrite chars_app, !chars_of_chars. Qed.

Lemma str_app_assoc a b c : a +:+ (b +:+ c) = (a +:+ b) +:+ c.
Proof. apply chars_inj. rewrite !chars_app. apply app_assoc. Qed.
Lemma str_app_nil_r a : a +:+ "" = a.
Proof. apply chars_inj. rewrite chars_app. apply app_nil_r. Qed.
Lemma str_length_app a b : String.length (a +:+ b) = String.length a + String.length b.
Proof. by rewrite <- !length_chars, chars_app, length_app. Qed.

#[export] Hint Rewrite chars_app chars_of_chars length_chars str_app_nil_r str_length_app : str_db.

(** Byte-wise lexicographic order: Go's [<] on strings. *)
Fixpoint chars_lt (a b : list ascii) : bool :=
  match a, b with
  | _, [] => false
  | [], _ :: _ => true
  | x :: a, y :: b =>
      if byte_of x <? byte_of y then true
      else if byte_of y <? byte_of x then false else chars_lt a b
  end.
Definition str_lt (a b : string) : bool := chars_lt (chars a) (chars b).

Lemma chars_lt_trans a b c : chars_lt a b = true -> chars_lt b c = true -> chars_lt a c = true.
Proof.
  revert b c; induction a as [|x a IH]; intros [|y b] [|z c]; simpl; try done.
  destruct (Nat.ltb_spec (byte_of x) (byte_of y)), (Nat.ltb_spec (byte_of y) (byte_of z)),
    (Nat.ltb_spec (byte_of x) (byte_of z)), (Nat.ltb_spec (byte_of y) (byte_of x)),
    (Nat.ltb_spec (byte_of z) (byte_of y)), (Nat.ltb_spec (byte_of z) (byte_of x)); try done; try lia. apply IH.
Qed.

Lemma chars_lt_total a b : chars_lt a b = false -> chars_lt b a = false -> a = b.
Proof.
  revert b; induction a as [|x a IH]; intros [|y b]; simpl; try done.
  destruct (Nat.ltb_spec (byte_of x) (byte_of y)), (Nat.ltb_spec (byte_of y) (byte_of x)); try done; try lia.
  intros H1 H2. f_equal; [apply byte_of_inj; lia|by apply IH].
Qed.

Lemma str_lt_asym a b : str_lt a b = true -> str_lt b a = false.
Proof.
  unfold str_lt. generalize (chars a) (chars b). clear a b.
  intros a; induction a as [|x a IH]; intros [|y b]; simpl; try done.
  destruct (Nat.ltb_spec (byte_of x) (byte_of y)), (Nat.ltb_spec (byte_of y) (byte_of x));
    try done; try lia. apply IH.
Qed.

Lemma str_lt_irrefl a : str_lt a a = false.
Proof. destruct (str_lt a a) eqn:E; [|done]. by rewrite (str_lt_asym _ _ E) in E. Qed.
Lemma str_lt_trans a b c : str_lt a b = true -> str_lt b c = true -> str_lt a c = true.
Proof. apply chars_lt_trans. Qed.
Lemma str_lt_total a b : str_lt a b = false -> str_lt b a = false -> a = b.
Proof. intros H1 H2. apply chars_inj. by apply chars_lt_total. Qed.
(** [a <= b < c] and [a < b <= c] *)
Lemma str_le_lt_trans a b c : str_lt b a = false -> str_lt b c = true -> str_lt a c = true.
Proof.
  intros H1 H2. destruct (str_lt a b) eqn:E; [by apply (str_lt_trans a b c)|]. by rewrite (str_lt_total a b E H1).
Qed.
Lemma str_le_trans a b c : str_lt b a = false -> str_lt c b = false -> str_lt c a = false.
Proof.
  intros H1 H2. destruct (str_lt c a) eqn:E; [|done]. by rewrite (str_le_lt_trans b c a H2 E) in H1.
Qed.

(** [strings.Join] *)
Fixpoint str_join (sep : string) (l : list string) : string :=
  match l with
  | [] => ""
  | [x] => x
  | x :: l => x +:+ sep +:+ str_join sep l
  end.

(** [strings.Split] on a one-byte separator, never empty. *)
Fixpoint split_chars (sep : ascii) (l : list ascii) : list (list ascii) :=
  match l with
  | [] => [[]]
  | c :: l =>
      match split_chars sep l with
      | [] => [[c]]
      | w :: ws => if Ascii.eqb c sep then [] :: w :: ws else (c :: w) :: ws
      end
  end.
Definition str_split (sep : ascii) (s : string) : list string :=
  of_chars <$> split_chars sep (chars s).

(** [strings.HasPrefix], [strings.HasSuffix], [strings.Count] of one byte. *)
Fixpoint has_prefix (s p : string) {struct p} : bool :=
  match p, s with
  | "", _ => true
  | String _ _, "" => false
  | String b p, String a s => if Ascii.eqb a b then has_prefix s p else false
  end.
Definition has_suffix (s p : string) : bool :=
  has_prefix (of_chars (rev (chars s))) (of_chars (rev (chars p))).
Definition count_byte (c : ascii) (s : string) : nat :=
  length (List.filter (Ascii.eqb c) (chars s)).
(** A text without U+0000, which no column of PostgreSQL holds. *)
Definition storable (s : string) : bool := forallb (fun c => negb (Ascii.eqb c Ascii.zero)) (chars s).
Definition contains_byte (c : ascii) (s : string) : bool :=
  existsb (Ascii.eqb c) (chars s).

(** [s[n:]] and [s[:n]] *)
Definition str_drop (n : nat) (s : string) : string := of_chars (drop n (chars s)).
Definition str_take (n : nat) (s : string) : string := of_chars (take n (chars s)).

Lemma has_prefix_spec s p : has_prefix s p = true <-> exists t, s = p +:+ t.
Proof.
  revert s; induction p as [|b p IH]; intros s; simpl.
  - split; [intros _; by exists s|reflexivity].
  - destruct s as [|a s]; [split; [discriminate|intros [? H]; discriminate H]|].
    destruct (Ascii.eqb_spec a b) as [->|Hne].
    + rewrite IH. split; intros [t Ht]; exists t; simpl in *; [by rewrite Ht|by injection Ht].
    + split; [discriminate|]. intros [t Ht]. simpl in Ht. injection Ht as Ha _. done.
Qed.

(** Decimal rendering of a natural number: [strconv.Itoa], [%d]. *)
Definition digit_char (n : nat) : ascii := Ascii.ascii_of_nat (48 + n).
Fixpoint itoa_aux (fuel n : nat) (acc : string) : string :=
  match fuel with
  | O => acc
  | S fuel =>
      let acc := String (digit_char (n mod 10)) acc in
      if n <? 10 then acc else itoa_aux fuel (n / 10) acc
  end.
Definition itoa (n : nat) : string := itoa_aux (S n) n "".

Example itoa_ex : (itoa 0, itoa 7, itoa 120, itoa 4096) = ("0", "7", "120", "4096").
Proof. reflexivity. Qed.

(** [sort.Strings] *)
Definition sort_strings (l : list string) : list string := merge_sort String.le l.

(** [slices.Contains] / membership of a string list as a boolean. *)
Definition mem_str (s : string) (l : list string) : bool := existsb (String.eqb s) l.

Lemma mem_str_spec s l : mem_str s l = true <-> s ∈ l.
Proof.
  unfold mem_str. rewrite existsb_exists. split.
  - intros (x & Hx & He). apply String.eqb_eq in He as ->. by apply list_elem_of_In.
  - intros H. exists s. split; [by apply list_elem_of_In|apply String.eqb_refl].
Qed.

(** * Split and join *)

Section split.
Context (sep : ascii).
Implicit Types (l : list ascii) (s : string).

Lemma split_chars_cons l : exists w ws, split_chars sep l = w :: ws.
Proof.
  induction l as [|c l (w & ws & IH)]; simpl; [by eexists _, _|].
  rewrite IH. destruct (Ascii.eqb c sep); by eexists _, _.
Qed.

Lemma split_chars_app a b :
  split_chars sep (a ++ sep :: b) = split_chars sep a ++ split_chars sep b.
Proof.
  induction a as [|c a IH]; simpl.
  - destruct (split_chars_cons b) as (w & ws & ->). by rewrite Ascii.eqb_refl.
  - rewrite IH. destruct (split_chars_cons a) as (w & ws & ->). simpl.
    by destruct (Ascii.eqb c sep).
Qed.

Lemma split_chars_none l : Forall (fun c => c <> sep) l -> split_chars sep l = [l].
Proof.
  induction 1 as [|c l Hc _ IH]; simpl; [done|]. rewrite IH.
  by rewrite (proj2 (Ascii.eqb_neq _ _) Hc).
Qed.

Lemma str_split_app a b :
  str_split sep (a +:+ String sep b) = str_split sep a ++ str_split sep b.
Proof. unfold str_split. rewrite chars_app. simpl. by rewrite split_chars_app, fmap_app. Qed.

Lemma str_split_none s : Forall (fun c => c <> sep) (chars s) -> str_split sep s = [s].
Proof. intros H. unfold str_split. rewrite split_chars_none by done. simpl. by rewrite of_chars_chars. Qed.

Lemma str_split_nonempty s : str_split sep s <> [].
Proof. unfold str_split. destruct (split_chars_cons (chars s)) as (w & ws & ->). done. Qed.

Lemma str_join_cons x xs :
  xs <> [] -> str_join (String sep "") (x :: xs) = x +:+ String sep (str_join (String sep "") xs).
Proof. destruct xs; [done|]. intros _. simpl. done. Qed.

Lemma str_join_snoc xs x :
  xs <> [] -> str_join (String sep "") (xs ++ [x]) = str_join (String sep "") xs +:+ String sep x.
Proof.
  induction xs as [|y xs IH]; [done|]. intros _.
  destruct xs as [|z xs]; [done|].
  change ((y :: z :: xs) ++ [x]) with (y :: ((z :: xs) ++ [x])).
  rewrite str_join_cons by done. rewrite IH by done. rewrite (str_join_cons y) by done.
  by rewrite <- str_app_assoc.
Qed.

Lemma str_join_app xs ys :
  xs <> [] -> ys <> [] ->
  str_join (String sep "") (xs ++ ys) =
  str_join (String sep "") xs +:+ String sep (str_join (String sep "") ys).
Proof.
  intros Hx Hy. induction xs as [|x xs IH]; [done|]. destruct xs as [|z xs].
  - simpl app. by rewrite str_join_cons.
  - simpl app. rewrite str_join_cons by done. simpl app in IH. rewrite IH by done.
    rewrite (str_join_cons x) by done. by rewrite <- str_app_assoc.
Qed.

Lemma str_split_join xs :
  xs <> [] -> Forall (fun x => Forall (fun c => c <> sep) (chars x)) xs ->
  str_split sep (str_join (String sep "") xs) = xs.
Proof.
  induction xs as [|x xs IH]; [done|]. intros _ H. apply Forall_cons in H as [Hx Hxs].
  destruct xs as [|y xs]; [simpl; by apply str_split_none|].
  rewrite str_join_cons by done. rewrite str_split_app, (str_split_none x), IH by done. done.
Qed.

Lemma str_join_split s : str_join (String sep "") (str_split sep s) = s.
Proof.
  rewrite <- (of_chars_chars s) at 2. unfold str_split.
  induction (chars s) as [|c l IH]; simpl; [done|].
  destruct (split_chars_cons l) as (w & ws & E). rewrite E in *. simpl in *.
  destruct (Ascii.eqb_spec c sep) as [->|]; simpl.
  - by rewrite <- IH.
  - destruct ws; simpl in *; by rewrite <- IH.
Qed.

(** [strings.Count(s, sep) + 1] is the number of labels. *)
Lemma str_split_length s : length (str_split sep s) = S (count_byte sep s).
Proof.
  unfold str_split, count_byte. rewrite length_fmap.
  induction (chars s) as [|c l IH]; simpl; [done|].
  destruct (split_chars_cons l) as (w & ws & E). rewrite E in *. simpl in *.
  rewrite Ascii.eqb_sym. destruct (Ascii.eqb sep c); simpl; lia.
Qed.

(** Being below in the label order is being equal or extending past a separator. *)
Lemma split_prefix c a :
  str_split sep a `prefix_of` str_split sep c <-> c = a \/ exists t, c = a +:+ String sep t.
Proof.
  split.
  - intros [k Hk]. rewrite <- (str_join_split c), <- (str_join_split a), Hk.
    destruct k as [|x k]; [left; by rewrite app_nil_r|right].
    exists (str_join (String sep "") (x :: k)).
    apply str_join_app; [apply str_split_nonempty|done].
  - intros [->|[t ->]]; [done|]. rewrite str_split_app. by eexists.
Qed.
End split.
