(* ===== verification/Utf8.v ===== *)
(** The parts of Go's [unicode/utf8], [strings] and [strconv] the program uses on
    byte strings: validity and rune counts, case folding of ASCII, [TrimSpace],
    [ParseInt] in base ten. *)
From S2P Require Import Prelude.

(** * UTF-8 *)

Definition byte_in (lo hi : nat) (c : ascii) : bool := (lo <=? byte_of c) && (byte_of c <=? hi).
Definition cont (c : ascii) : bool := byte_in 128 191 c.

(** The length of the valid encoding at the front of [l], 0 if there is none. *)
Definition rune_len (l : list ascii) : nat :=
  match l with
  | [] => 0
  | a :: l =>
      if byte_of a <? 128 then 1
      else match l with
      | b :: l2 =>
          if byte_in 194 223 a && cont b then 2
          else match l2 with
          | c :: l3 =>
              if ((byte_in 224 224 a && byte_in 160 191 b) || (byte_in 225 236 a && cont b) ||
                  (byte_in 237 237 a && byte_in 128 159 b) || (byte_in 238 239 a && cont b)) && cont c then 3
              else match l3 with
              | d :: _ =>
                  if ((byte_in 240 240 a && byte_in 144 191 b) || (byte_in 241 243 a && cont b) ||
                      (byte_in 244 244 a && byte_in 128 143 b)) && cont c && cont d then 4 else 0
              | [] => 0
              end
          | [] => 0
          end
      | [] => 0
      end
  end.

Fixpoint valid_runes (fuel : nat) (l : list ascii) : bool :=
  match l with
  | [] => true
  | _ =>
      match fuel, rune_len l with
      | O, _ | _, O => false
      | S fuel, n => valid_runes fuel (drop n l)
      end
  end.

(** [utf8.ValidString] *)
Definition valid_utf8 (s : string) : bool := valid_runes (String.length s) (chars s).

(** [utf8.RuneCountInString]: an invalid byte counts as one rune. *)
Fixpoint count_runes (fuel : nat) (l : list ascii) : nat :=
  match fuel, l with
  | _, [] => 0
  | O, _ => 0
  | S fuel, _ => S (count_runes fuel (drop (Nat.max 1 (rune_len l)) l))
  end.
Definition rune_count (s : string) : nat := count_runes (String.length s) (chars s).

(** * Case and space *)

(** [strings.ToLower] and [strings.ToUpper] on ASCII letters. *)
Definition lower_char (c : ascii) : ascii :=
  if byte_in 65 90 c then Ascii.ascii_of_nat (byte_of c + 32) else c.
Definition upper_char (c : ascii) : ascii :=
  if byte_in 97 122 c then Ascii.ascii_of_nat (byte_of c - 32) else c.
Definition to_lower (s : string) : string := of_chars (lower_char <$> chars s).
Definition to_upper (s : string) : string := of_chars (upper_char <$> chars s).

(** [unicode.IsSpace] at the front of a byte list: the length of the space. *)
Definition space_len (l : list ascii) : nat :=
  match l with
  | [] => 0
  | a :: l =>
      if byte_in 9 13 a || byte_in 32 32 a then 1
      else match l with
      | b :: l2 =>
          if byte_in 194 194 a && (byte_in 133 133 b || byte_in 160 160 b) then 2
          else match l2 with
          | c :: _ =>
              if (byte_in 225 225 a && byte_in 154 154 b && byte_in 128 128 c) ||
                 (byte_in 226 226 a && byte_in 128 128 b &&
                  (byte_in 128 138 c || byte_in 168 169 c || byte_in 175 175 c)) ||
                 (byte_in 226 226 a && byte_in 129 129 b && byte_in 159 159 c) ||
                 (byte_in 227 227 a && byte_in 128 128 b && byte_in 128 128 c) then 3 else 0
          | [] => 0
          end
      | [] => 0
      end
  end.

Fixpoint trim_left (fuel : nat) (l : list ascii) : list ascii :=
  match fuel, space_len l with
  | O, _ | _, O => l
  | S fuel, n => trim_left fuel (drop n l)
  end.

(** The longest suffix made of spaces: drop the shortest prefix after which only
    spaces are left. *)
Fixpoint all_space (fuel : nat) (l : list ascii) : bool :=
  match l with
  | [] => true
  | _ => match fuel, space_len l with O, _ | _, O => false | S fuel, n => all_space fuel (drop n l) end
  end.
Fixpoint trim_right (l : list ascii) : list ascii :=
  if all_space (length l) l then [] else match l with [] => [] | c :: l => c :: trim_right l end.

(** [strings.TrimSpace] *)
Definition trim_space (s : string) : string :=
  let l := chars s in of_chars (trim_right (trim_left (length l) l)).

(** * Integers *)

Open Scope Z_scope.

Definition is_digit_char (c : ascii) : bool := byte_in 48 57 c.

Fixpoint digits_value (l : list ascii) (acc : Z) : option Z :=
  match l with
  | [] => Some acc
  | c :: l => if is_digit_char c then digits_value l (acc * 10 + Z.of_nat (byte_of c) - 48) else None
  end.

(** [strconv.ParseInt(s, 10, 64)] *)
Definition parse_int64 (s : string) : option Z :=
  let '(neg, l) := match chars s with
    | c :: l => if Ascii.eqb c "-"%char then (true, l)
                else if Ascii.eqb c "+"%char then (false, l) else (false, c :: l)
    | [] => (false, []) end in
  match l with
  | [] => None
  | _ =>
      match digits_value l 0 with
      | Some n => let n := if neg then - n else n in if in_int64 n then Some n else None
      | None => None
      end
  end.

Example utf8_ex :
  (valid_utf8 "é", valid_utf8 (of_chars [Ascii.ascii_of_nat 195]), rune_count "aé", to_lower "AbZ",
   trim_space "  a b ", parse_int64 "-12", parse_int64 "9223372036854775808")
  = (true, false, 2%nat, "abz", "a b", Some (-12), None).
Proof. vm_compute. reflexivity. Qed.
