(* ===== verification/Rank.v ===== *)
(** LexoRank ordering, [internal/store/rank.go]: definitions as written, the
    fractional order the generated ranks live in, termination and correctness of
    [RankBetween], spread and bounds of [RankSequence]. *)
From S2P Require Import Prelude.
Open Scope Z_scope.

Module Rank.

(** * Definitions *)

Definition rankAlphabet : string := "0123456789abcdefghijklmnopqrstuvwxyz".
Definition RankRebalanceThreshold : Z := 40.
Definition RankFirst : string := "n".
Definition RankLast : string := "u".

(** [strings.IndexByte], -1 when the byte is absent. *)
Fixpoint index_byte (l : list ascii) (b : ascii) (i : Z) : Z :=
  match l with
  | [] => -1
  | c :: l => if Ascii.eqb c b then i else index_byte l b (i + 1)
  end.
Definition rankIndex (b : ascii) : Z := index_byte (chars rankAlphabet) b 0.

(** The digit at position [i], or 0 past the end of [s]. *)
Definition rankAt (s : string) (i : nat) : Z :=
  match chars s !! i with Some c => rankIndex c | None => 0 end.

(** [rankAlphabet[d]]: [None] is Go's index-out-of-range panic. *)
Definition alphabetAt (d : Z) : option ascii :=
  if 0 <=? d then chars rankAlphabet !! Z.to_nat d else None.

(** What a call of [RankBetween] does: return a rank, return [ErrRankOrder],
    panic on a byte outside the alphabet, or (out of fuel) still be looping. *)
Inductive outcome :=
  | RankOk (r : string)
  | RankOrder
  | RankPanic
  | RankLoop.

Definition write (b : string) (d : Z) (k : string -> outcome) : outcome :=
  match alphabetAt d with
  | Some c => k (b +:+ String c "")
  | None => RankPanic
  end.

(** The inner loop [for j := i + 1; ; j++]. *)
Fixpoint extend (fuel : nat) (lo : string) (j : nat) (b : string) : outcome :=
  match fuel with
  | O => RankLoop
  | S fuel =>
      let dl := rankAt lo j in
      if dl <? Z.of_nat (String.length rankAlphabet) - 1
      then write b (Z.quot (dl + Z.of_nat (String.length rankAlphabet)) 2) RankOk
      else write b dl (fun b => extend fuel lo (S j) b)
  end.

(** The outer loop [for i := 0; ; i++]. *)
Fixpoint between_loop (fuel : nat) (lo hi : string) (i : nat) (b : string) : outcome :=
  match fuel with
  | O => RankLoop
  | S fuel =>
      let dlo := rankAt lo i in
      let dhi := rankAt hi i in
      if dlo =? dhi then write b dlo (fun b => between_loop fuel lo hi (S i) b)
      else if 1 <? dhi - dlo then write b (Z.quot (dlo + dhi) 2) RankOk
      else write b dlo (fun b => extend fuel lo (S i) b)
  end.

(** After everything: bump the last digit if there is room, else append. *)
Definition between_top (lo : string) : outcome :=
  if String.eqb lo "" then RankOk RankFirst
  else
    let last := (String.length lo - 1)%nat in
    let d := rankAt lo last in
    if d <? Z.of_nat (String.length rankAlphabet) - 1
    then write (str_take last lo) (d + 1) RankOk
    else RankOk (lo +:+ RankFirst).

Definition between_fuel (lo hi : string) : nat :=
  (String.length lo + String.length hi + 2)%nat.

Definition RankBetweenFuel (fuel : nat) (lo hi : string) : outcome :=
  if negb (String.eqb lo "") && negb (String.eqb hi "") && negb (str_lt lo hi)
  then RankOrder
  else if String.eqb hi "" then between_top lo
  else between_loop fuel lo hi 0 "".

Definition RankBetween (lo hi : string) : outcome :=
  RankBetweenFuel (between_fuel lo hi) lo hi.

Fixpoint rankEncode (v : Z) (width : nat) : string :=
  match width with
  | O => ""
  | S w =>
      rankEncode (Z.quot v 36) w +:+
      match alphabetAt (Z.rem v 36) with Some c => String c "" | None => "" end
  end.

Fixpoint intPow (base : Z) (exp : nat) : Z :=
  match exp with O => 1 | S e => wrap64 (intPow base e * base) end.

(** [for pow := base; pow < n+2; pow *= base { width++ }] on 64-bit ints; [None]
    when the loop has not left after [fuel] rounds. *)
Fixpoint rank_width (fuel : nat) (n pow : Z) (width : nat) : option nat :=
  match fuel with
  | O => None
  | S fuel =>
      if pow <? wrap64 (n + 2) then rank_width fuel n (wrap64 (pow * 36)) (S width)
      else Some width
  end.

Definition rank_step (n : Z) (width : nat) : Z :=
  let capacity := intPow 36 width in
  if wrap64 (n + 2) <? capacity
  then let step := Z.quot (capacity - 2) (n + 1) in if step <? 1 then 1 else step
  else 1.

Definition RankSequence (n : Z) : option (list string) :=
  if n <=? 0 then Some []
  else
    match rank_width 64 n 36 1 with
    | None => None
    | Some width =>
        let step := rank_step n width in
        Some ((fun i => rankEncode (wrap64 ((Z.of_nat i + 1) * step)) width)
                <$> seq 0 (Z.to_nat n))
    end.

Definition RankNeedsRebalance (rank : string) : bool :=
  RankRebalanceThreshold <? Z.of_nat (String.length rank).

(** Concrete runs. *)
Example between_mid : RankBetween "a" "c" = RankOk "b".
Proof. reflexivity. Qed.
Example between_adjacent : RankBetween "1" "2" = RankOk "1i".
Proof. reflexivity. Qed.
Example between_append : RankBetween "z" "" = RankOk "zn".
Proof. reflexivity. Qed.
Example between_order : RankBetween "b" "a" = RankOrder.
Proof. reflexivity. Qed.
Example between_zero_tail : RankBetween "a" "a0" = RankLoop.
Proof. reflexivity. Qed.
Example sequence_3 : RankSequence 3 = Some ["8"; "g"; "o"].
Proof. reflexivity. Qed.

(** * Valid ranks and the fractional order *)

(** A digit of the alphabet. *)
Definition is_digit (c : ascii) : bool := 0 <=? rankIndex c.
Definition valid (s : string) : bool := forallb is_digit (chars s).

(** [s] read as the base-36 fraction 0.s: trailing zeros do not count. *)
Definition frac_lt (a b : string) : Prop :=
  exists i, (forall j, (j < i)%nat -> rankAt a j = rankAt b j) /\ rankAt a i < rankAt b i.

(** * Digits *)

Lemma rankIndex_inv (c : ascii) :
  is_digit c = true -> alphabetAt (rankIndex c) = Some c /\ 0 <= rankIndex c < 36.
Proof.
  destruct c as [[] [] [] [] [] [] [] []]; vm_compute; intros H; try discriminate H;
    split; try reflexivity; split; congruence.
Qed.

Lemma alphabetAt_digit d :
  0 <= d < 36 -> exists c, alphabetAt d = Some c /\ rankIndex c = d /\ is_digit c = true.
Proof.
  intros Hd.
  assert (Hall : forallb (fun n => match alphabetAt (Z.of_nat n) with
            | Some c => (rankIndex c =? Z.of_nat n) && is_digit c | None => false end)
          (seq 0 36) = true) by (vm_compute; reflexivity).
  rewrite forallb_forall in Hall. specialize (Hall (Z.to_nat d)).
  rewrite Z2Nat.id in Hall by lia.
  destruct (alphabetAt d) as [c|]; [|discriminate Hall; apply in_seq; lia].
  exists c. rewrite in_seq, andb_true_iff, Z.eqb_eq in Hall. destruct Hall; [lia|auto].
Qed.

Lemma digit_byte_lt (x y : ascii) :
  is_digit x = true -> is_digit y = true -> rankIndex x < rankIndex y ->
  (byte_of x < byte_of y)%nat.
Proof.
  intros Hx Hy Hlt.
  destruct (rankIndex_inv x Hx) as [Hax Hrx], (rankIndex_inv y Hy) as [Hay Hry].
  assert (Hall : forallb (fun i => forallb (fun j =>
            match alphabetAt (Z.of_nat i), alphabetAt (Z.of_nat j) with
            | Some a, Some b => implb (i <? j)%nat (byte_of a <? byte_of b)%nat
            | _, _ => true end) (seq 0 36)) (seq 0 36) = true) by (vm_compute; reflexivity).
  rewrite forallb_forall in Hall. specialize (Hall (Z.to_nat (rankIndex x))).
  rewrite forallb_forall in Hall. specialize (fun H => Hall H (Z.to_nat (rankIndex y))).
  rewrite !in_seq, !Z2Nat.id, Hax, Hay in Hall by lia.
  specialize (Hall ltac:(lia) ltac:(lia)).
  destruct (Nat.ltb_spec (Z.to_nat (rankIndex x)) (Z.to_nat (rankIndex y))); [|lia].
  by apply Nat.ltb_lt.
Qed.

Lemma digit_inj (x y : ascii) :
  is_digit x = true -> is_digit y = true -> rankIndex x = rankIndex y -> x = y.
Proof.
  intros Hx Hy He. destruct (rankIndex_inv x Hx), (rankIndex_inv y Hy). congruence.
Qed.

Lemma valid_app a b : valid (a +:+ b) = valid a && valid b.
Proof. unfold valid. rewrite chars_app. apply forallb_app. Qed.

Lemma valid_at s i c : valid s = true -> chars s !! i = Some c -> is_digit c = true.
Proof.
  unfold valid. rewrite forallb_forall. intros H Hi. apply H, list_elem_of_In.
  by eapply list_elem_of_lookup_2.
Qed.

Lemma rankAt_range s i : valid s = true -> 0 <= rankAt s i < 36.
Proof.
  intros Hv. unfold rankAt. destruct (chars s !! i) eqn:E; [|lia].
  by apply rankIndex_inv, (valid_at s i).
Qed.

Lemma rankAt_end s i : (String.length s <= i)%nat -> rankAt s i = 0.
Proof.
  intros H. unfold rankAt. rewrite lookup_ge_None_2; [done|]. by rewrite length_chars.
Qed.

Lemma rankAt_app_l a b i : (i < String.length a)%nat -> rankAt (a +:+ b) i = rankAt a i.
Proof.
  intros H. unfold rankAt. rewrite chars_app, lookup_app_l; [done|]. by rewrite length_chars.
Qed.

Lemma rankAt_app_r a b i : rankAt (a +:+ b) (String.length a + i) = rankAt b i.
Proof.
  unfold rankAt. rewrite chars_app, lookup_app_r by (rewrite length_chars; lia).
  rewrite length_chars. by replace (_ + i - _)%nat with i by lia.
Qed.

(** * The fractional order *)

Lemma frac_lt_irrefl a : ~ frac_lt a a.
Proof. intros (i & _ & H). lia. Qed.

Lemma frac_lt_trans a b c : frac_lt a b -> frac_lt b c -> frac_lt a c.
Proof.
  intros (i & Hi & Hlt) (j & Hj & Hlt').
  destruct (lt_eq_lt_dec i j) as [[H| ->]|H].
  - exists i. split; [intros k Hk; rewrite Hi, Hj by lia; done|]. by rewrite <- (Hj i).
  - exists j. split; [intros k Hk; rewrite Hi, Hj by lia; done|lia].
  - exists j. split; [intros k Hk; rewrite Hi, Hj by lia; done|]. by rewrite (Hi j).
Qed.

Lemma chars_lt_of_frac a b i :
  forallb is_digit (chars a) = true -> forallb is_digit (chars b) = true ->
  (forall j, (j < i)%nat -> rankAt a j = rankAt b j) -> rankAt a i < rankAt b i ->
  chars_lt (chars a) (chars b) = true.
Proof.
  unfold rankAt. generalize (chars a) (chars b). clear a b. intros a b. revert b i.
  induction a as [|x a IH]; intros [|y b] i Ha Hb Hpre Hlt.
  - rewrite lookup_nil in Hlt. lia.
  - done.
  - rewrite lookup_nil in Hlt. destruct ((x :: a) !! i) as [c|] eqn:E; [|lia].
    rewrite forallb_forall in Ha. specialize (Ha c).
    enough (is_digit c = true) as Hd by (apply rankIndex_inv in Hd; lia).
    apply Ha, list_elem_of_In. by eapply list_elem_of_lookup_2.
  - simpl in *. apply andb_true_iff in Ha as [Hx Ha], Hb as [Hy Hb]. destruct i as [|i].
    + simpl in Hlt. apply digit_byte_lt in Hlt; [|done..].
      by rewrite (proj2 (Nat.ltb_lt _ _) Hlt).
    + assert (x = y) as -> by (apply digit_inj; [done..|]; apply (Hpre 0%nat); lia).
      rewrite Nat.ltb_irrefl. apply (IH b i); [done..| |done].
      intros j Hj. apply (Hpre (S j)). lia.
Qed.

(** The byte order Go and the C collation use refines the fractional order. *)
Lemma frac_lt_str_lt a b :
  valid a = true -> valid b = true -> frac_lt a b -> str_lt a b = true.
Proof. intros Ha Hb (i & Hpre & Hlt). by apply (chars_lt_of_frac a b i). Qed.

Lemma write_ok b d k :
  0 <= d < 36 ->
  exists c, write b d k = k (b +:+ String c "") /\ rankIndex c = d /\ is_digit c = true.
Proof.
  intros Hd. destruct (alphabetAt_digit d Hd) as (c & Ha & Hi & Hc).
  exists c. unfold write. by rewrite Ha.
Qed.

Lemma frac_lt_dec_bound a b i :
  valid a = true -> valid b = true ->
  (forall j, (j < i)%nat -> rankAt a j = rankAt b j) ->
  (Nat.max (String.length a) (String.length b) <= i)%nat -> ~ frac_lt a b.
Proof.
  intros Ha Hb Hpre Hi (k & _ & Hk).
  destruct (decide (k < i)%nat); [rewrite (Hpre k) in Hk by done; lia|].
  rewrite !rankAt_end in Hk by lia. lia.
Qed.

(** * The loops of [RankBetween] *)

Lemma valid_snoc b c : valid b = true -> is_digit c = true -> valid (b +:+ String c "") = true.
Proof. intros Hb Hc. rewrite valid_app, Hb. unfold valid; simpl. by rewrite Hc. Qed.

Lemma rankAt_snoc b c j : String.length b = j -> rankAt (b +:+ String c "") j = rankIndex c.
Proof.
  intros <-. transitivity (rankAt (String c "") 0); [|done].
  rewrite <- (Nat.add_0_r (String.length b)) at 1. apply rankAt_app_r.
Qed.

Lemma length_snoc b c : String.length (b +:+ String c "") = S (String.length b).
Proof. rewrite str_length_app; simpl. lia. Qed.

(** [r] continues the digits [b] written so far along [lo] and ends above it. *)
Record continues (lo b r : string) : Prop := {
  cont_valid : valid r = true;
  cont_prefix : forall m, (m < String.length b)%nat -> rankAt r m = rankAt b m;
  cont_above : exists k, (String.length b <= k)%nat /\
    (forall m, (String.length b <= m < k)%nat -> rankAt r m = rankAt lo m) /\
    rankAt lo k < rankAt r k;
  cont_last : rankAt r (String.length r - 1) <> 0;
  cont_length : (String.length r <= S (Nat.max (String.length b) (String.length lo)))%nat
}.

Lemma continues_write lo b d c :
  valid b = true -> is_digit c = true -> rankIndex c = d -> d <> 0 ->
  rankAt lo (String.length b) < d -> continues lo b (b +:+ String c "").
Proof.
  intros Hb Hc Hi Hd Hlt. split.
  - by apply valid_snoc.
  - intros m Hm. by apply rankAt_app_l.
  - exists (String.length b). split; [lia|]. split; [lia|]. rewrite rankAt_snoc by done. lia.
  - rewrite length_snoc. replace (S _ - 1)%nat with (String.length b) by lia.
    rewrite rankAt_snoc by done. lia.
  - rewrite length_snoc. lia.
Qed.

Lemma continues_step lo b c r :
  rankIndex c = rankAt lo (String.length b) -> (String.length b < String.length lo)%nat ->
  continues lo (b +:+ String c "") r -> continues lo b r.
Proof.
  intros Hc Hlen [Hv Hp (k & Hk & Hkeq & Hklt) Hl Hlen']. rewrite length_snoc in *.
  split; [done| | |done|lia].
  - intros m Hm. rewrite Hp by lia. apply rankAt_app_l. lia.
  - exists k. split; [lia|]. split; [|done]. intros m Hm.
    destruct (decide (m = String.length b)) as [->|]; [|apply Hkeq; lia].
    rewrite Hp, rankAt_snoc by lia. done.
Qed.

Lemma extend_continues fuel lo b :
  valid lo = true -> valid b = true -> (0 < fuel)%nat ->
  (String.length lo < fuel + String.length b)%nat ->
  exists r, extend fuel lo (String.length b) b = RankOk r /\ continues lo b r.
Proof.
  intros Hlo. revert b. induction fuel as [|fuel IH]; intros b Hb Hpos Hf; [lia|].
  cbn [extend]. pose proof (rankAt_range lo (String.length b) Hlo) as Hr.
  change (Z.of_nat (String.length rankAlphabet)) with 36.
  destruct (Z.ltb_spec (rankAt lo (String.length b)) (36 - 1)).
  - rewrite Z.quot_div_nonneg by lia.
    edestruct (write_ok b ((rankAt lo (String.length b) + 36) / 2)) as (c & -> & Hi & Hc).
    { split; [apply Z.div_pos; lia|apply Z.div_lt_upper_bound; lia]. }
    eexists; split; [done|]. apply (continues_write lo b ((rankAt lo (String.length b) + 36) / 2) c); [done..| |];
      pose proof (Z.div_mod (rankAt lo (String.length b) + 36) 2 ltac:(lia));
      pose proof (Z.mod_pos_bound (rankAt lo (String.length b) + 36) 2 ltac:(lia)); lia.
  - destruct (decide (String.length b < String.length lo)%nat) as [Hlt|];
      [|rewrite rankAt_end in * by lia; lia].
    edestruct (write_ok b (rankAt lo (String.length b))) as (c & -> & Hi & Hc); [done|].
    rewrite <- (length_snoc b c). destruct (IH (b +:+ String c "")) as (r & -> & Hr');
      rewrite ?length_snoc; [by apply valid_snoc|lia|lia|].
    exists r. split; [done|]. by apply (continues_step lo b c); [|lia|].
Qed.

(** A strict position between two ranks, with the shape of a generated rank. *)
Record strictly_between (lo hi r : string) : Prop := {
  sb_valid : valid r = true;
  sb_lo : frac_lt lo r;
  sb_hi : frac_lt r hi;
  sb_last : rankAt r (String.length r - 1) <> 0;
  sb_length : (String.length r <= S (Nat.max (String.length lo) (String.length hi)))%nat
}.

Lemma continues_between lo hi i r b :
  (forall j, (j < i)%nat -> rankAt lo j = rankAt hi j) -> rankAt lo i < rankAt hi i ->
  valid hi = true -> rankAt lo i >= 0 ->
  String.length b = S i -> (forall j, (j < S i)%nat -> rankAt b j = rankAt lo j) ->
  continues lo b r -> strictly_between lo hi r.
Proof.
  intros Hpre Hlt Hhi Hge Hlen Hb [Hv Hp (k & Hk & Hkeq & Hklt) Hl Hlen'].
  assert (i < String.length hi)%nat as Hi.
  { destruct (decide (i < String.length hi)%nat); [done|]. rewrite (rankAt_end hi) in Hlt by lia. lia. }
  split; [done| | |done|lia].
  - exists k. split; [|done]. intros j Hj.
    destruct (decide (j < S i)%nat); [rewrite Hp, Hb by lia; done|symmetry; apply Hkeq; lia].
  - exists i. split; [intros j Hj|]; rewrite Hp, Hb by lia; auto with lia.
Qed.

Lemma between_loop_spec fuel lo hi i b d :
  valid lo = true -> valid hi = true -> valid b = true -> String.length b = i ->
  (forall j, (j < i)%nat -> rankAt b j = rankAt lo j) ->
  (i <= d)%nat -> (forall j, (j < d)%nat -> rankAt lo j = rankAt hi j) ->
  rankAt lo d < rankAt hi d -> (d - i + String.length lo + 2 <= fuel)%nat ->
  exists r, between_loop fuel lo hi i b = RankOk r /\ strictly_between lo hi r.
Proof.
  intros Hlo Hhi. revert i b.
  induction fuel as [|fuel IH]; intros i b Hb Hlen Hpre Hid Heq Hlt Hf; [lia|].
  cbn [between_loop]. pose proof (rankAt_range lo i Hlo). pose proof (rankAt_range hi i Hhi).
  destruct (Z.eqb_spec (rankAt lo i) (rankAt hi i)) as [E|E].
  - assert (i < d)%nat as Hid' by (destruct (decide (i = d)); subst; lia).
    edestruct (write_ok b (rankAt lo i)) as (c & -> & Hi & Hc); [done|].
    apply IH; try done; try lia; [by apply valid_snoc|rewrite length_snoc; lia|].
    intros j Hj. destruct (decide (j = i)) as [->|]; [by rewrite rankAt_snoc|].
    rewrite rankAt_app_l by lia. apply Hpre. lia.
  - assert (i = d) as -> by (destruct (decide (i < d)%nat); [by rewrite Heq in E by lia|lia]).
    destruct (Z.ltb_spec 1 (rankAt hi d - rankAt lo d)).
    + rewrite Z.quot_div_nonneg by lia.
      pose proof (Z.div_mod (rankAt lo d + rankAt hi d) 2 ltac:(lia)).
      pose proof (Z.mod_pos_bound (rankAt lo d + rankAt hi d) 2 ltac:(lia)).
      edestruct (write_ok b ((rankAt lo d + rankAt hi d) / 2)) as (c & -> & Hi & Hc); [lia|].
      eexists; split; [done|].
      assert (d < String.length hi)%nat.
      { destruct (decide (d < String.length hi)%nat); [done|]. rewrite (rankAt_end hi) in * by lia. lia. }
      split.
      * by apply valid_snoc.
      * exists d. rewrite rankAt_snoc by done. split; [|lia].
        intros j Hj. rewrite rankAt_app_l by lia. symmetry. auto.
      * exists d. rewrite rankAt_snoc by done. split; [|lia].
        intros j Hj. rewrite rankAt_app_l by lia. rewrite Hpre by lia. auto.
      * rewrite length_snoc, Hlen, Nat.sub_succ, Nat.sub_0_r, rankAt_snoc by done. lia.
      * rewrite length_snoc. lia.
    + edestruct (write_ok b (rankAt lo d)) as (c & -> & Hi & Hc); [done|].
      replace (S d) with (String.length (b +:+ String c "")) by (rewrite length_snoc; lia).
      destruct (extend_continues fuel lo (b +:+ String c "")) as (r & -> & Hr);
        rewrite ?length_snoc; [done|by apply valid_snoc|lia|lia|].
      exists r. split; [done|].
      apply (continues_between lo hi d r (b +:+ String c "")); try done; rewrite ?length_snoc; try lia.
      intros j Hj. destruct (decide (j = d)) as [->|]; [by rewrite rankAt_snoc|].
      rewrite rankAt_app_l by lia. apply Hpre. lia.
Qed.

Lemma between_loop_diverges fuel lo hi i b :
  valid lo = true -> (forall j, rankAt lo j = rankAt hi j) ->
  between_loop fuel lo hi i b = RankLoop.
Proof.
  intros Hlo Heq. revert i b. induction fuel as [|fuel IH]; intros i b; [done|].
  cbn [between_loop]. rewrite (proj2 (Z.eqb_eq _ _) (Heq i)).
  edestruct (write_ok b (rankAt lo i)) as (c & -> & _); [by apply rankAt_range|]. apply IH.
Qed.

(** * [RankSequence] *)

Lemma rankEncode_spec w v :
  0 <= v -> valid (rankEncode v w) = true /\ String.length (rankEncode v w) = w.
Proof.
  revert v; induction w as [|w IH]; intros v Hv; simpl; [done|].
  rewrite Z.quot_div_nonneg, Z.rem_mod_nonneg by lia.
  destruct (IH (v / 36)) as [Hva Hle]; [apply Z.div_pos; lia|].
  destruct (alphabetAt_digit (v `mod` 36)) as (c & -> & _ & Hc); [apply Z.mod_pos_bound; lia|].
  split; [by apply valid_snoc|rewrite length_snoc; lia].
Qed.

Lemma rankEncode_snoc w v :
  0 <= v -> exists c, rankEncode v (S w) = rankEncode (v / 36) w +:+ String c "" /\
                     rankIndex c = v `mod` 36.
Proof.
  intros Hv. simpl. rewrite Z.quot_div_nonneg, Z.rem_mod_nonneg by lia.
  destruct (alphabetAt_digit (v `mod` 36)) as (c & -> & ? & _); [apply Z.mod_pos_bound; lia|].
  by exists c.
Qed.

(** Encoding at a fixed width is order preserving. *)
Lemma rankEncode_lt w v1 v2 :
  0 <= v1 < v2 -> v2 < 36 ^ Z.of_nat w -> frac_lt (rankEncode v1 w) (rankEncode v2 w).
Proof.
  revert v1 v2; induction w as [|w IH]; intros v1 v2 Hv Hb; [change (36 ^ Z.of_nat 0) with 1 in Hb; lia|].
  destruct (rankEncode_snoc w v1) as (c1 & -> & Hc1); [lia|].
  destruct (rankEncode_snoc w v2) as (c2 & -> & Hc2); [lia|].
  destruct (rankEncode_spec w (v1 / 36)) as [_ Hl1]; [apply Z.div_pos; lia|].
  destruct (rankEncode_spec w (v2 / 36)) as [_ Hl2]; [apply Z.div_pos; lia|].
  rewrite Nat2Z.inj_succ, Z.pow_succ_r in Hb by lia.
  destruct (decide (v1 / 36 < v2 / 36)) as [Hlt|Hge].
  - destruct (IH (v1 / 36) (v2 / 36)) as (i & Hi & Hlti).
    { split; [apply Z.div_pos|]; lia. }
    { apply Z.div_lt_upper_bound; lia. }
    assert (i < w)%nat as Hiw.
    { destruct (decide (i < w)%nat); [done|]. rewrite !rankAt_end in Hlti by lia. lia. }
    exists i. rewrite !rankAt_app_l by lia. split; [|done].
    intros j Hj. rewrite !rankAt_app_l by lia. auto.
  - assert (v1 / 36 = v2 / 36) as He.
    { apply Z.le_antisymm; [apply Z.div_le_mono; lia|lia]. }
    exists w. rewrite !rankAt_snoc, Hc1, Hc2 by done. split.
    + intros j Hj. by rewrite !rankAt_app_l, He by lia.
    + pose proof (Z.div_mod v1 36 ltac:(lia)). pose proof (Z.div_mod v2 36 ltac:(lia)). lia.
Qed.

(** Largest count for which the int64 arithmetic of [RankSequence] is exact. *)
Definition max_sequence : Z := 36 ^ 12 - 2.

Lemma intPow_exact w : (w <= 12)%nat -> intPow 36 w = 36 ^ Z.of_nat w.
Proof.
  induction w as [|w IH]; intros Hw; [done|]. simpl intPow. rewrite IH by lia.
  rewrite Nat2Z.inj_succ, Z.pow_succ_r by lia.
  assert (36 ^ Z.of_nat w <= 36 ^ 11) by (apply Z.pow_le_mono_r; lia).
  assert (0 <= 36 ^ Z.of_nat w) by (apply Z.pow_nonneg; lia).
  rewrite wrap64_id; [lia|]. change (36 ^ 11) with 131621703842267136 in *. lia.
Qed.

Lemma rank_width_spec fuel n w :
  0 < n <= max_sequence -> (1 <= w <= 12)%nat -> (12 < fuel + w)%nat ->
  exists w', rank_width fuel n (36 ^ Z.of_nat w) w = Some w' /\ (w <= w' <= 12)%nat /\
             n + 2 <= 36 ^ Z.of_nat w'.
Proof.
  intros Hn. unfold max_sequence in Hn. change (36 ^ 12) with 4738381338321616896 in Hn.
  revert w; induction fuel as [|fuel IH]; intros w Hw Hf; [lia|].
  cbn [rank_width]. rewrite wrap64_id by lia.
  destruct (Z.ltb_spec (36 ^ Z.of_nat w) (n + 2)) as [Hlt|]; [|exists w; split; [done|lia]].
  assert (w <> 12)%nat.
  { intros ->. change (36 ^ Z.of_nat 12) with 4738381338321616896 in Hlt. lia. }
  destruct (IH (S w)) as (w' & Hw' & ? & ?); [lia|lia|].
  exists w'. rewrite <- Hw'. split; [|auto with lia]. f_equal.
  rewrite <- (intPow_exact w), <- (intPow_exact (S w)) by lia. done.
Qed.

Lemma rank_step_bound n w :
  0 < n <= max_sequence -> (1 <= w <= 12)%nat -> n + 2 <= 36 ^ Z.of_nat w ->
  0 < rank_step n w /\ n * rank_step n w < 36 ^ Z.of_nat w.
Proof.
  intros Hn Hw Hb. unfold rank_step. rewrite intPow_exact by lia.
  unfold max_sequence in Hn. change (36 ^ 12) with 4738381338321616896 in Hn.
  rewrite wrap64_id by lia.
  destruct (Z.ltb_spec (n + 2) (36 ^ Z.of_nat w)) as [Hlt|]; [|lia].
  rewrite Z.quot_div_nonneg by lia.
  pose proof (Z.mul_div_le (36 ^ Z.of_nat w - 2) (n + 1) ltac:(lia)).
  pose proof (Z.div_pos (36 ^ Z.of_nat w - 2) (n + 1) ltac:(lia) ltac:(lia)).
  destruct (Z.ltb_spec ((36 ^ Z.of_nat w - 2) / (n + 1)) 1); [lia|].
  split; [lia|]. nia.
Qed.

Definition sequence_ranks (n : Z) (width : nat) : list string :=
  (fun i => rankEncode ((Z.of_nat i + 1) * rank_step n width) width) <$> seq 0 (Z.to_nat n).

Lemma RankSequence_ranks n :
  0 < n <= max_sequence ->
  exists w, (1 <= w <= 12)%nat /\ n + 2 <= 36 ^ Z.of_nat w /\
            RankSequence n = Some (sequence_ranks n w).
Proof.
  intros Hn. destruct (rank_width_spec 64 n 1 Hn) as (w & Hrw & Hw & Hb); [lia..|].
  exists w. split; [done|]. split; [done|]. unfold RankSequence.
  destruct (Z.leb_spec n 0); [lia|]. change (36 ^ Z.of_nat 1) with 36 in Hrw. rewrite Hrw.
  f_equal. apply list_fmap_ext. intros i x Hx%lookup_seq. f_equal. apply wrap64_id.
  destruct (rank_step_bound n w Hn Hw Hb).
  assert (36 ^ Z.of_nat w <= 36 ^ 12) by (apply Z.pow_le_mono_r; lia).
  change (36 ^ 12) with 4738381338321616896 in *. nia.
Qed.

Lemma sequence_ranks_lookup n w i r :
  sequence_ranks n w !! i = Some r ->
  r = rankEncode ((Z.of_nat i + 1) * rank_step n w) w /\ (i < Z.to_nat n)%nat.
Proof.
  unfold sequence_ranks. rewrite list_lookup_fmap. intros H.
  destruct (seq 0 (Z.to_nat n) !! i) as [j|] eqn:E; [|done].
  apply lookup_seq in E as [-> ?]. simpl in H. by injection H as <-.
Qed.

(** * Properties *)

Lemma frac_trichotomy a b :
  valid a = true -> valid b = true ->
  (forall i, rankAt a i = rankAt b i) \/ frac_lt a b \/ frac_lt b a.
Proof.
  intros Ha Hb.
  assert (forall n, (forall i, (i < n)%nat -> rankAt a i = rankAt b i) \/ frac_lt a b \/ frac_lt b a) as H.
  { induction n as [|n [IH|IH]]; [left; lia| |by right].
    destruct (Z.lt_trichotomy (rankAt a n) (rankAt b n)) as [H|[H|H]].
    - right; left; by exists n.
    - left. intros i Hi. destruct (decide (i = n)) as [->|]; [done|]. apply IH. lia.
    - right; right. exists n. split; [intros; symmetry; auto|done]. }
  destruct (H (String.length a + String.length b)%nat) as [Heq|]; [left|by right].
  intros i. destruct (decide (i < String.length a + String.length b)%nat); [auto|].
  rewrite !rankAt_end by lia. done.
Qed.

Lemma order_guard lo hi :
  hi <> "" -> (lo = "" \/ str_lt lo hi = true) ->
  negb (String.eqb lo "") && negb (String.eqb hi "") && negb (str_lt lo hi) = false.
Proof. intros Hhi [->| ->]; [done|]. by rewrite andb_false_r. Qed.

Lemma frac_lt_below lo hi :
  valid lo = true -> valid hi = true -> frac_lt lo hi ->
  hi <> "" /\ (lo = "" \/ str_lt lo hi = true).
Proof.
  intros Hlo Hhi Hf. split; [|right; by apply frac_lt_str_lt].
  intros ->. destruct Hf as (i & _ & Hlt). rewrite (rankAt_end "") in Hlt by (simpl; lia).
  pose proof (rankAt_range lo i Hlo). lia.
Qed.

(** Enough fuel and the full specification of the result between two ranks. *)
Lemma RankBetween_ok lo hi :
  valid lo = true -> valid hi = true -> frac_lt lo hi ->
  exists r, RankBetween lo hi = RankOk r /\ strictly_between lo hi r /\
            str_lt lo r = true /\ str_lt r hi = true.
Proof.
  intros Hlo Hhi Hf. destruct (frac_lt_below lo hi) as [Hne Hord]; [done..|].
  destruct Hf as (d & Hpre & Hlt). unfold RankBetween, RankBetweenFuel.
  rewrite order_guard by done. destruct (String.eqb_spec hi ""); [done|].
  assert (d < String.length hi)%nat.
  { destruct (decide (d < String.length hi)%nat); [done|].
    rewrite (rankAt_end hi) in Hlt by lia. pose proof (rankAt_range lo d Hlo). lia. }
  destruct (between_loop_spec (between_fuel lo hi) lo hi 0 "" d) as (r & -> & Hr);
    unfold between_fuel; try done; try lia.
  exists r. split; [done|]. split; [done|].
  split; apply frac_lt_str_lt; try done; apply Hr.
Qed.

(** C15. For two valid ranks that differ as base-36 fractions, [RankBetween]
    terminates (the fuel [len lo + len hi + 2] always suffices) and returns a
    valid rank strictly between its neighbours, both as a fraction and in the
    byte order Go and PostgreSQL's C collation use; it is at most one character
    longer than the longer neighbour and never ends in the zero digit. *)
Theorem RankBetween_between lo hi :
  valid lo = true -> valid hi = true -> frac_lt lo hi ->
  exists r, RankBetween lo hi = RankOk r /\ strictly_between lo hi r /\
            str_lt lo r = true /\ str_lt r hi = true.
Proof. apply RankBetween_ok. Qed.

Lemma RankBetween_between_witness :
  exists r, RankBetween "i" "i1" = RankOk r /\ strictly_between "i" "i1" r /\
            str_lt "i" r = true /\ str_lt r "i1" = true.
Proof.
  apply (RankBetween_between "i" "i1"); [reflexivity..|].
  exists 1%nat. split; [|reflexivity]. intros [|j] Hj; [reflexivity|lia].
Defined.

(** C16. [RankBetween] never returns, whatever the number of iterations allowed,
    exactly when the two bounds are in ascending byte order but denote the same
    fraction (the upper bound is the lower one followed by zero digits, such as
    "a" and "a0"). *)
Theorem RankBetween_diverges_iff lo hi :
  valid lo = true -> valid hi = true -> hi <> "" -> (lo = "" \/ str_lt lo hi = true) ->
  (forall fuel, RankBetweenFuel fuel lo hi = RankLoop) <-> (forall i, rankAt lo i = rankAt hi i).
Proof.
  intros Hlo Hhi Hne Hord. split.
  - intros Hloop. destruct (frac_trichotomy lo hi) as [H|[H|H]]; [done..|done| |].
    + destruct (RankBetween_ok lo hi) as (r & Hr & _); [done..|].
      unfold RankBetween in Hr. congruence.
    + exfalso. destruct Hord as [->|Hs].
      * destruct H as (i & _ & Hlt). rewrite (rankAt_end "") in Hlt by (simpl; lia).
        pose proof (rankAt_range hi i Hhi). lia.
      * apply frac_lt_str_lt in H; [|done..]. apply str_lt_asym in Hs. congruence.
  - intros Heq fuel. unfold RankBetweenFuel. rewrite order_guard by done.
    destruct (String.eqb_spec hi ""); [done|]. by apply between_loop_diverges.
Qed.

Lemma RankBetween_diverges_iff_witness :
  (forall fuel, RankBetweenFuel fuel "a" "a0" = RankLoop) <->
  (forall i, rankAt "a" i = rankAt "a0" i).
Proof.
  apply (RankBetween_diverges_iff "a" "a0"); [reflexivity..|discriminate|right; reflexivity].
Defined.

Lemma between_top_spec lo :
  valid lo = true ->
  exists r, between_top lo = RankOk r /\ valid r = true /\ frac_lt lo r /\
            (String.length r <= S (String.length lo))%nat.
Proof.
  intros Hlo. unfold between_top. destruct (String.eqb_spec lo "") as [->|Hne].
  { exists RankFirst. repeat split; [|simpl; lia]. exists 0%nat. split; [lia|done]. }
  change (Z.of_nat (String.length rankAlphabet)) with 36.
  pose proof (rankAt_range lo (String.length lo - 1) Hlo).
  assert (0 < String.length lo)%nat by (destruct lo; [done|simpl; lia]).
  destruct (Z.ltb_spec (rankAt lo (String.length lo - 1)) (36 - 1)).
  - edestruct (write_ok (str_take (String.length lo - 1) lo)) as (c & -> & Hi & Hc); [lia|].
    eexists; split; [done|]. rewrite length_snoc.
    assert (String.length (str_take (String.length lo - 1) lo) = (String.length lo - 1)%nat) as Hlen.
    { unfold str_take. rewrite <- length_chars, chars_of_chars, length_take, length_chars. lia. }
    assert (forall j, (j < String.length lo - 1)%nat ->
              rankAt (str_take (String.length lo - 1) lo) j = rankAt lo j) as Hpre.
    { intros j Hj. unfold rankAt, str_take. rewrite chars_of_chars. by rewrite lookup_take_lt. }
    split; [|split; [exists (String.length lo - 1)%nat|lia]].
    + apply valid_snoc; [|done]. unfold valid, str_take in *. rewrite chars_of_chars.
      rewrite forallb_forall in *. intros x Hx. apply Hlo.
      rewrite <- (take_drop (String.length lo - 1) (chars lo)). apply in_or_app. by left.
    + rewrite rankAt_snoc by done. split; [|lia].
      intros j Hj. rewrite rankAt_app_l by lia. symmetry. auto.
  - eexists; split; [done|]. rewrite valid_app, Hlo, str_length_app.
    split; [done|]. split; [|simpl; lia].
    exists (String.length lo). rewrite (rankAt_end lo) by lia. split.
    + intros j Hj. symmetry. by apply rankAt_app_l.
    + rewrite <- (Nat.add_0_r (String.length lo)), rankAt_app_r. vm_compute. done.
Qed.

(** The same for an open upper bound. *)
Lemma RankBetween_top_ok lo :
  valid lo = true ->
  exists r, RankBetween lo "" = RankOk r /\ valid r = true /\ frac_lt lo r /\
            str_lt lo r = true /\ (String.length r <= S (String.length lo))%nat.
Proof.
  intros Hlo. destruct (between_top_spec lo Hlo) as (r & Hr & Hv & Hf & Hlen).
  exists r. unfold RankBetween, RankBetweenFuel.
  rewrite andb_false_r. simpl. split; [done|]. repeat split; try done.
  by apply frac_lt_str_lt.
Qed.

(** Appending after the last rank always returns: the result is valid, sorts
    after it as a fraction and in byte order, and grows by at most one
    character. *)
Theorem RankBetween_append lo :
  valid lo = true ->
  exists r, RankBetween lo "" = RankOk r /\ valid r = true /\ frac_lt lo r /\
            str_lt lo r = true /\ (String.length r <= S (String.length lo))%nat.
Proof. apply RankBetween_top_ok. Qed.

Lemma RankBetween_append_witness :
  exists r, RankBetween "az" "" = RankOk r /\ valid r = true /\ frac_lt "az" r /\
            str_lt "az" r = true /\ (String.length r <= 3)%nat.
Proof. apply (RankBetween_append "az"). reflexivity. Defined.

(** The doc comment of [RankBetween] says its result is the shortest string of
    the interval; "b" is shorter than what is returned after "az". *)
Example RankBetween_not_shortest :
  RankBetween "az" "" = RankOk "azn" /\ str_lt "az" "b" = true.
Proof. split; reflexivity. Qed.

(** The ranks of a respread. *)
Lemma RankSequence_ok n :
  0 < n <= max_sequence ->
  exists l w, RankSequence n = Some l /\ length l = Z.to_nat n /\ (1 <= w <= 12)%nat /\
    (forall r, r ∈ l -> valid r = true /\ String.length r = w /\ frac_lt "" r) /\
    (forall i j a b, l !! i = Some a -> l !! j = Some b -> (i < j)%nat ->
       frac_lt a b /\ str_lt a b = true).
Proof.
  intros Hn. destruct (RankSequence_ranks n Hn) as (w & Hw & Hb & Hseq).
  exists (sequence_ranks n w), w. split; [done|].
  split; [unfold sequence_ranks; by rewrite length_fmap, length_seq|]. split; [done|].
  destruct (rank_step_bound n w Hn Hw Hb) as [Hs Hns]. split.
  - intros r [i Hi]%list_elem_of_lookup. apply sequence_ranks_lookup in Hi as [-> Hi].
    destruct (rankEncode_spec w ((Z.of_nat i + 1) * rank_step n w)) as [Hv Hl]; [nia|].
    split; [done|]. split; [done|].
    destruct (rankEncode_lt w 0 ((Z.of_nat i + 1) * rank_step n w)) as (k & Hk & Hlt); [nia..|].
    assert (forall j, rankAt (rankEncode 0 w) j = rankAt "" j) as Hz.
    { clear. intros j. rewrite (rankAt_end "") by (simpl; lia).
      revert j; induction w as [|w IH]; intros j; [by rewrite rankAt_end by (simpl; lia)|].
      destruct (rankEncode_snoc w 0) as (c & -> & Hc); [lia|].
      change (0 / 36) with 0. destruct (rankEncode_spec w 0) as [_ Hl]; [lia|].
      destruct (lt_eq_lt_dec j w) as [[H| ->]|H].
      - rewrite rankAt_app_l by lia. apply IH.
      - by rewrite rankAt_snoc.
      - apply rankAt_end. rewrite length_snoc. lia. }
    exists k. rewrite <- Hz. split; [|done]. intros j Hj. rewrite <- Hz. auto.
  - intros i j a b Ha Hb' Hij.
    apply sequence_ranks_lookup in Ha as [-> Hi], Hb' as [-> Hj].
    assert (frac_lt (rankEncode ((Z.of_nat i + 1) * rank_step n w) w)
                    (rankEncode ((Z.of_nat j + 1) * rank_step n w) w)) as Hf.
    { apply rankEncode_lt; nia. }
    split; [done|]. apply frac_lt_str_lt; [apply rankEncode_spec; nia..|done].
Qed.

(** For every count up to 36^12 - 2, [RankSequence] returns exactly that many
    valid ranks of one common width of at most twelve characters, strictly
    ascending as fractions and in byte order, the first one leaving room below
    for a prepend; no 64-bit overflow occurs on the way. *)
Theorem RankSequence_spread n :
  0 < n <= max_sequence ->
  exists l w, RankSequence n = Some l /\ length l = Z.to_nat n /\ (1 <= w <= 12)%nat /\
    (forall r, r ∈ l -> valid r = true /\ String.length r = w /\ frac_lt "" r) /\
    (forall i j a b, l !! i = Some a -> l !! j = Some b -> (i < j)%nat ->
       frac_lt a b /\ str_lt a b = true).
Proof. apply RankSequence_ok. Qed.

Lemma RankSequence_spread_witness :
  exists l w, RankSequence 40 = Some l /\ length l = Z.to_nat 40 /\ (1 <= w <= 12)%nat /\
    (forall r, r ∈ l -> valid r = true /\ String.length r = w /\ frac_lt "" r) /\
    (forall i j a b, l !! i = Some a -> l !! j = Some b -> (i < j)%nat ->
       frac_lt a b /\ str_lt a b = true).
Proof. apply (RankSequence_spread 40). vm_compute. split; congruence. Defined.

End Rank.
