(* ===== verification/Uuid.v ===== *)
(** 128-bit identifiers and their canonical text, the Go [uuid] package as the
    store and the API use it. *)
From S2P Require Import Prelude.
From Stdlib Require Import Eqdep_dec.
Open Scope N_scope.

(** [uuid.UUID] is [[16]byte]: a number below 2^128. *)
Record uuid := Uuid { uuid_n : N; uuid_ok : (uuid_n <? 2 ^ 128) = true }.

Lemma uuid_eq (a b : uuid) : uuid_n a = uuid_n b -> a = b.
Proof.
  destruct a as [n Hn], b as [m Hm]; simpl; intros ->. f_equal.
  apply UIP_dec, bool_dec.
Qed.

Lemma U_ok n : (n mod 2 ^ 128 <? 2 ^ 128) = true.
Proof. apply N.ltb_lt, N.mod_lt. discriminate. Qed.

(** The identifier with number [n]. *)
Definition U (n : N) : uuid := Uuid (n mod 2 ^ 128) (U_ok n).

Lemma U_n u : U (uuid_n u) = u.
Proof.
  apply uuid_eq; simpl. apply N.mod_small, N.ltb_lt, uuid_ok.
Qed.

#[export] Instance uuid_eq_dec : EqDecision uuid.
Proof.
  refine (fun a b => cast_if (decide (uuid_n a = uuid_n b))); [by apply uuid_eq|congruence].
Defined.
#[export] Instance uuid_countable : Countable uuid := inj_countable' uuid_n U U_n.
#[export] Instance uuid_inhabited : Inhabited uuid := populate (U 0).

(** [uuid.UUID{}] *)
Definition uuid_nil : uuid := U 0.

(** * Canonical text *)

Definition hex_digits : string := "0123456789abcdef".
Definition hex_char (d : N) : ascii :=
  match chars hex_digits !! N.to_nat d with Some c => c | None => "0"%char end.

Fixpoint hex_fixed (w : nat) (n : N) : list ascii :=
  match w with
  | O => []
  | S w => hex_fixed w (n / 16) ++ [hex_char (n mod 16)]
  end.

(** [8-4-4-4-12] lower-case hexadecimal digits. *)
Definition dashed (l : list ascii) : list ascii :=
  take 8 l ++ ["-"%char] ++ take 4 (drop 8 l) ++ ["-"%char] ++ take 4 (drop 12 l) ++
  ["-"%char] ++ take 4 (drop 16 l) ++ ["-"%char] ++ drop 20 l.

Definition uuid_string (u : uuid) : string := of_chars (dashed (hex_fixed 32 (uuid_n u))).

Definition hex_value (c : ascii) : option N :=
  let b := N.of_nat (byte_of c) in
  if (48 <=? b) && (b <=? 57) then Some (b - 48)
  else if (97 <=? b) && (b <=? 102) then Some (b - 87)
  else if (65 <=? b) && (b <=? 70) then Some (b - 55)
  else None.

Fixpoint unhex (l : list ascii) (acc : N) : option N :=
  match l with
  | [] => Some acc
  | c :: l => match hex_value c with Some d => unhex l (acc * 16 + d) | None => None end
  end.

Definition undashed (l : list ascii) : list ascii :=
  take 8 l ++ take 4 (drop 9 l) ++ take 4 (drop 14 l) ++ take 4 (drop 19 l) ++ drop 24 l.

Definition dashes_at (l : list ascii) : bool :=
  forallb (fun i => match l !! i with Some c => Ascii.eqb c "-"%char | None => false end)
    [8; 13; 18; 23]%nat.

(** The canonical form of [uuid.Parse]: 36 characters, either case. *)
Definition canonical_parse (s : string) : option uuid :=
  let l := chars s in
  if (length l =? 36)%nat && dashes_at l
  then match unhex (undashed l) 0 with Some n => Some (U n) | None => None end
  else None.

(** What the program relies on of [uuid.Parse]: it inverts [UUID.String]. The
    package may accept further spellings. *)
Class UuidParse := {
  uuid_parse : string -> option uuid;
  uuid_parse_string u : uuid_parse (uuid_string u) = Some u;
  uuid_parse_empty : uuid_parse "" = None
}.

Example uuid_string_ex :
  uuid_string (U 0x01994ed4000070008000000000000002) = "01994ed4-0000-7000-8000-000000000002".
Proof. vm_compute. reflexivity. Qed.

(** * Facts *)

Lemma hex_fixed_length w n : length (hex_fixed w n) = w.
Proof. revert n; induction w as [|w IH]; intros n; simpl; [done|]. rewrite length_app, IH. simpl. lia. Qed.

Lemma hex_char_facts d :
  d < 16 -> hex_value (hex_char d) = Some d /\ hex_char d <> "."%char.
Proof.
  intros Hd.
  assert (Hall : forallb (fun n => match hex_value (hex_char (N.of_nat n)) with
            | Some m => (m =? N.of_nat n) && negb (Ascii.eqb (hex_char (N.of_nat n)) "."%char)
            | None => false end) (seq 0 16) = true) by (vm_compute; reflexivity).
  rewrite forallb_forall in Hall. specialize (Hall (N.to_nat d)).
  rewrite N2Nat.id in Hall. destruct (hex_value (hex_char d)) as [m|].
  - rewrite in_seq, andb_true_iff, N.eqb_eq, negb_true_iff in Hall.
    destruct Hall as [-> Hne]; [lia|]. split; [done|]. intros E. rewrite E in Hne. discriminate.
  - exfalso. discriminate Hall. apply in_seq. lia.
Qed.

Lemma hex_mod n : n mod 16 < 16.
Proof. by apply N.mod_lt. Qed.

Lemma unhex_app l1 l2 acc :
  unhex (l1 ++ l2) acc = match unhex l1 acc with Some a => unhex l2 a | None => None end.
Proof.
  revert acc; induction l1 as [|c l1 IH]; intros acc; simpl; [done|].
  destruct (hex_value c); [apply IH|done].
Qed.

Lemma unhex_fixed w n : n < 16 ^ N.of_nat w -> unhex (hex_fixed w n) 0 = Some n.
Proof.
  revert n; induction w as [|w IH]; intros n Hn; simpl; [change (16 ^ N.of_nat 0) with 1 in Hn; f_equal; lia|].
  rewrite unhex_app, IH.
  - cbn [unhex]. rewrite (proj1 (hex_char_facts _ (hex_mod n))).
    f_equal. rewrite N.mul_comm. symmetry. by apply N.div_mod.
  - rewrite Nat2N.inj_succ, N.pow_succ_r' in Hn. by apply N.Div0.div_lt_upper_bound.
Qed.

Lemma undashed_dashed l : length l = 32%nat -> undashed (dashed l) = l.
Proof. intros H. do 32 (destruct l as [|? l]; [discriminate H|]). destruct l; [done|discriminate H]. Qed.

Lemma dashed_shape l :
  length l = 32%nat -> length (dashed l) = 36%nat /\ dashes_at (dashed l) = true.
Proof. intros H. do 32 (destruct l as [|? l]; [discriminate H|]). destruct l; [done|discriminate H]. Qed.

Lemma canonical_parse_string u : canonical_parse (uuid_string u) = Some u.
Proof.
  unfold canonical_parse, uuid_string. rewrite chars_of_chars.
  destruct (dashed_shape (hex_fixed 32 (uuid_n u))) as [-> ->]; [apply hex_fixed_length|].
  rewrite undashed_dashed by apply hex_fixed_length. rewrite unhex_fixed.
  - cbn. by rewrite U_n.
  - apply N.ltb_lt. exact (uuid_ok u).
Qed.

#[export] Instance canonical_uuid_parse : UuidParse :=
  {| uuid_parse := canonical_parse; uuid_parse_string := canonical_parse_string; uuid_parse_empty := eq_refl |}.

Lemma uuid_string_inj a b : uuid_string a = uuid_string b -> a = b.
Proof. intros H. pose proof (canonical_parse_string a). pose proof (canonical_parse_string b). congruence. Qed.

#[export] Instance uuid_string_Inj : Inj (=) (=) uuid_string := uuid_string_inj.

Lemma hex_fixed_no_dot w n : Forall (fun c => c <> "."%char) (hex_fixed w n).
Proof.
  revert n; induction w as [|w IH]; intros n; simpl; [done|].
  apply Forall_app_2; [apply IH|]. constructor; [|done]. apply hex_char_facts, hex_mod.
Qed.

(** The canonical text holds no label separator and is not empty. *)
Lemma uuid_string_no_dot u : Forall (fun c => c <> "."%char) (chars (uuid_string u)).
Proof.
  unfold uuid_string. rewrite chars_of_chars. unfold dashed.
  pose proof (hex_fixed_no_dot 32 (uuid_n u)) as H.
  repeat apply Forall_app_2;
    try (constructor; [discriminate|constructor]);
    repeat first [apply Forall_take | apply Forall_drop]; exact H.
Qed.

Lemma uuid_string_length u : String.length (uuid_string u) = 36%nat.
Proof.
  unfold uuid_string. rewrite <- length_chars, chars_of_chars.
  apply dashed_shape, hex_fixed_length.
Qed.

#[global] Arguments uuid_string : simpl never.
#[global] Arguments U : simpl never.
#[global] Arguments canonical_parse : simpl never.
