(* ===== verification/Ltree.v ===== *)
(** Item paths: the ltree text form the store computes with, and the label-list
    view the proofs use. Go side: [isDescendantOrSelf] of [store/mutate.go]. *)
From S2P Require Import Prelude Uuid.

Module Ltree.

Definition dot : ascii := "."%char.

(** * The ltree operators of the SQL statements *)

Definition labels (p : string) : list string :=
  if String.eqb p "" then [] else str_split dot p.

(** [nlevel(p)] *)
Definition nlevel (p : string) : nat := length (labels p).

(** [c <@ a]: [c] is [a] or a descendant of [a]. *)
Definition contained (c a : string) : bool := bool_decide (labels a `prefix_of` labels c).

(** [subpath(p, n)] *)
Definition subpath (p : string) (n : nat) : string := str_join "." (drop n (labels p)).

(** [a || b] *)
Definition concat_path (a b : string) : string :=
  if String.eqb a "" then b else if String.eqb b "" then a else a +:+ "." +:+ b.

(** * [isDescendantOrSelf] *)

Definition isDescendantOrSelf (candidate ancestor : string) : bool :=
  if String.eqb candidate ancestor then true else has_prefix candidate (ancestor +:+ ".").

(** * Paths built from identifiers *)

Definition path_of (ids : list uuid) : string := str_join "." (uuid_string <$> ids).

Lemma no_dot_ids (ids : list uuid) :
  Forall (fun x => Forall (fun c => c <> dot) (chars x)) (uuid_string <$> ids).
Proof. apply Forall_fmap, Forall_forall. intros u _. apply uuid_string_no_dot. Qed.

Lemma path_of_nonempty ids : ids <> [] -> path_of ids <> "".
Proof.
  intros Hne H. apply (f_equal String.length) in H. destruct ids as [|u [|v ids]]; [done| |];
    unfold path_of in H; cbn in H; rewrite ?str_length_app, uuid_string_length in H; cbn in H; lia.
Qed.

Lemma split_path_of ids : ids <> [] -> str_split dot (path_of ids) = uuid_string <$> ids.
Proof.
  intros Hne. unfold path_of. apply str_split_join; [by destruct ids|apply no_dot_ids].
Qed.

Lemma labels_path_of ids : ids <> [] -> labels (path_of ids) = uuid_string <$> ids.
Proof.
  intros Hne. unfold labels.
  destruct (String.eqb_spec (path_of ids) ""); [by apply path_of_nonempty in Hne|].
  by apply split_path_of.
Qed.

Lemma nlevel_path_of ids : ids <> [] -> nlevel (path_of ids) = length ids.
Proof. intros. unfold nlevel. by rewrite labels_path_of, length_fmap. Qed.

Lemma path_of_one u : path_of [u] = uuid_string u.
Proof. done. Qed.

Lemma path_of_snoc ids u :
  ids <> [] -> path_of (ids ++ [u]) = path_of ids +:+ "." +:+ uuid_string u.
Proof.
  intros Hne. unfold path_of. rewrite fmap_app. simpl.
  rewrite (str_join_snoc dot); [done|by destruct ids].
Qed.

Lemma path_of_inj a b : a <> [] -> b <> [] -> path_of a = path_of b -> a = b.
Proof.
  intros Ha Hb H. apply (f_equal (str_split dot)) in H.
  rewrite !split_path_of in H by done. by apply (inj (fmap uuid_string)) in H.
Qed.

Lemma prefix_fmap_inj {A B} (f : A -> B) `{!Inj (=) (=) f} (a c : list A) :
  (f <$> a) `prefix_of` (f <$> c) <-> a `prefix_of` c.
Proof.
  split; intros [k Hk].
  - apply fmap_app_inv in Hk as (a' & k' & Ha & -> & ->).
    apply (inj (fmap f)) in Ha as ->. by exists k'.
  - exists (f <$> k). rewrite Hk. by rewrite fmap_app.
Qed.

Lemma contained_path_of c a :
  c <> [] -> a <> [] -> contained (path_of c) (path_of a) = bool_decide (a `prefix_of` c).
Proof.
  intros Hc Ha. unfold contained. rewrite !labels_path_of by done.
  apply bool_decide_ext, prefix_fmap_inj, _.
Qed.

(** [strings.Count(p, ".") + 1], the depth the handlers compute. *)
Lemma count_path_of ids : ids <> [] -> S (count_byte dot (path_of ids)) = length ids.
Proof. intros. by rewrite <- str_split_length, split_path_of, length_fmap. Qed.

Lemma isDescendantOrSelf_prefix candidate ancestor :
  isDescendantOrSelf candidate ancestor = true <->
  str_split dot ancestor `prefix_of` str_split dot candidate.
Proof.
  rewrite split_prefix. unfold isDescendantOrSelf.
  destruct (String.eqb_spec candidate ancestor) as [->|Hne]; [split; auto|].
  rewrite has_prefix_spec. split.
  - intros [t ->]. right. exists t. rewrite <- str_app_assoc. done.
  - intros [->|[t ->]]; [done|]. exists t. rewrite <- str_app_assoc. done.
Qed.

(** [isDescendantOrSelf] compares whole labels: for all strings it holds
    exactly when the labels of the ancestor are a prefix of the labels of the
    candidate, so a shared prefix inside a label is never mistaken for ancestry;
    on non-empty paths it agrees with the database's [<@]. *)
Theorem isDescendantOrSelf_labels candidate ancestor :
  (isDescendantOrSelf candidate ancestor = true <->
     str_split dot ancestor `prefix_of` str_split dot candidate) /\
  (candidate <> "" -> ancestor <> "" ->
     isDescendantOrSelf candidate ancestor = contained candidate ancestor).
Proof.
  pose proof (isDescendantOrSelf_prefix candidate ancestor) as H. split; [exact H|].
  intros Hc Ha. unfold contained, labels.
  destruct (String.eqb_spec candidate ""), (String.eqb_spec ancestor ""); try done.
  apply eq_true_iff_eq. by rewrite bool_decide_eq_true.
Qed.

Lemma isDescendantOrSelf_labels_witness :
  isDescendantOrSelf "a.b.c" "a.b" = contained "a.b.c" "a.b".
Proof. apply (isDescendantOrSelf_labels "a.b.c" "a.b"); discriminate. Defined.

Lemma isDescendantOrSelf_path_of c a :
  c <> [] -> a <> [] ->
  isDescendantOrSelf (path_of c) (path_of a) = bool_decide (a `prefix_of` c).
Proof.
  intros Hc Ha. apply eq_true_iff_eq. rewrite isDescendantOrSelf_prefix, bool_decide_eq_true.
  rewrite !split_path_of by done. apply prefix_fmap_inj, _.
Qed.

Lemma subpath_path_of ids n :
  ids <> [] -> subpath (path_of ids) n = path_of (drop n ids).
Proof. intros H. unfold subpath. rewrite labels_path_of by done. unfold path_of. by rewrite fmap_drop. Qed.

Lemma concat_path_of a b :
  a <> [] -> b <> [] -> concat_path (path_of a) (path_of b) = path_of (a ++ b).
Proof.
  intros Ha Hb. unfold concat_path.
  destruct (String.eqb_spec (path_of a) ""); [by apply path_of_nonempty in Ha|].
  destruct (String.eqb_spec (path_of b) ""); [by apply path_of_nonempty in Hb|].
  unfold path_of. rewrite fmap_app. symmetry.
  apply (str_join_app dot); [by destruct a|by destruct b].
Qed.

End Ltree.
