(* ===== verification/DateTime.v ===== *)
(** The parts of Go's [time] package the program uses: parsing and formatting of
    dates ([time.DateOnly]) and timestamps ([time.RFC3339Nano]) in UTC. A date is
    its number of days since 1970-01-01, an instant its nanoseconds since then. *)
From S2P Require Import Prelude.
Open Scope Z_scope.

(** * Calendar *)

Definition is_leap (y : Z) : bool :=
  (y mod 4 =? 0) && (negb (y mod 100 =? 0) || (y mod 400 =? 0)).

Definition days_in (m y : Z) : Z :=
  if m =? 2 then (if is_leap y then 29 else 28)
  else if (m =? 4) || (m =? 6) || (m =? 9) || (m =? 11) then 30 else 31.

(** Days since 1970-01-01 of a proleptic Gregorian date, and back; eras of 400
    years that start on the first of March. *)
Definition days_of_civil (y m d : Z) : Z :=
  let y := if m <=? 2 then y - 1 else y in
  let era := y / 400 in
  let yoe := y - era * 400 in
  let mp := (m + 9) mod 12 in
  let doy := (153 * mp + 2) / 5 + d - 1 in
  let doe := yoe * 365 + yoe / 4 - yoe / 100 + doy in
  era * 146097 + doe - 719468.

Definition civil_of_days (z : Z) : Z * Z * Z :=
  let z := z + 719468 in
  let era := z / 146097 in
  let doe := z - era * 146097 in
  let yoe := (doe - doe / 1460 + doe / 36524 - doe / 146096) / 365 in
  let doy := doe - (365 * yoe + yoe / 4 - yoe / 100) in
  let mp := (5 * doy + 2) / 153 in
  let d := doy - (153 * mp + 2) / 5 + 1 in
  let m := if mp <? 10 then mp + 3 else mp - 9 in
  (yoe + era * 400 + (if m <=? 2 then 1 else 0), m, d).

(** * Parsing *)

Definition is_dig (c : ascii) : bool := (48 <=? byte_of c)%nat && (byte_of c <=? 57)%nat.
Definition dig (c : ascii) : Z := Z.of_nat (byte_of c) - 48.

(** [getnum(value, fixed)]: two digits, or one when [fixed] is false. *)
Definition getnum (fixed : bool) (l : list ascii) : option (Z * list ascii) :=
  match l with
  | a :: b :: l' =>
      if is_dig a then
        if is_dig b then Some (dig a * 10 + dig b, l')
        else if fixed then None else Some (dig a, b :: l')
      else None
  | [a] => if is_dig a then if fixed then None else Some (dig a, []) else None
  | [] => None
  end.

Definition expect (c : ascii) (l : list ascii) : option (list ascii) :=
  match l with a :: l => if Ascii.eqb a c then Some l else None | [] => None end.

Notation "'let?' p ':=' m 'in' k" :=
  (match m with Some p => k | None => None end)
  (at level 10, p pattern, m at level 100, k at level 200).

(** The leading [2006-01-02] of a layout: year, month (checked) and day. *)
Definition parse_ymd (l : list ascii) : option (Z * Z * Z * list ascii) :=
  match l with
  | a :: b :: c :: d :: l =>
      if is_dig a && is_dig b && is_dig c && is_dig d then
        let y := dig a * 1000 + dig b * 100 + dig c * 10 + dig d in
        let? l := expect "-"%char l in
        let? (m, l) := getnum true l in
        if (m <=? 0) || (12 <? m) then None else
        let? l := expect "-"%char l in
        let? (d, l) := getnum true l in
        Some (y, m, d, l)
      else None
  | _ => None
  end.

Definition day_ok (y m d : Z) : bool := (1 <=? d) && (d <=? days_in m y).

(** [time.Parse(time.DateOnly, s)] *)
Definition parse_date (s : string) : option Z :=
  let? (y, m, d, rest) := parse_ymd (chars s) in
  match rest with
  | [] => if day_ok y m d then Some (days_of_civil y m d) else None
  | _ => None
  end.
Definition date_ok (s : string) : bool :=
  match parse_date s with Some _ => true | None => false end.

Fixpoint take_digits (l : list ascii) : list ascii * list ascii :=
  match l with
  | c :: l' => if is_dig c then let '(ds, rest) := take_digits l' in (c :: ds, rest) else ([], l)
  | [] => ([], [])
  end.
Definition digits_val (l : list ascii) : Z := fold_left (fun v c => v * 10 + dig c) l 0.

(** [parseNanoseconds]: digits after the ninth are ignored. *)
Definition nanoseconds (digits : list ascii) : Z :=
  let digits := take 9 digits in
  digits_val digits * 10 ^ Z.of_nat (9 - length digits).

(** An optional fraction: a period or comma and at least one digit. *)
Definition parse_fraction (l : list ascii) : Z * list ascii :=
  match l with
  | p :: ((c :: _) as l') =>
      if (Ascii.eqb p "."%char || Ascii.eqb p ","%char) && is_dig c
      then let '(ds, rest) := take_digits l' in (nanoseconds ds, rest) else (0, l)
  | _ => (0, l)
  end.

(** [Z07:00]: the offset in seconds. *)
Definition parse_zone (l : list ascii) : option Z :=
  match l with
  | [c] => if Ascii.eqb c "Z"%char then Some 0 else None
  | [s; h1; h2; c; m1; m2] =>
      if (Ascii.eqb s "+"%char || Ascii.eqb s "-"%char) && Ascii.eqb c ":"%char &&
         is_dig h1 && is_dig h2 && is_dig m1 && is_dig m2 &&
         (dig h1 * 10 + dig h2 <=? 24) && (dig m1 * 10 + dig m2 <=? 60)
      then let offset := ((dig h1 * 10 + dig h2) * 60 + (dig m1 * 10 + dig m2)) * 60 in
           Some (if Ascii.eqb s "-"%char then - offset else offset)
      else None
  | _ => None
  end.

Definition ns_per_s : Z := 1000000000.
Definition ns_per_day : Z := 86400 * ns_per_s.

(** [time.Parse(time.RFC3339Nano, s)] *)
Definition parse_timestamp (s : string) : option Z :=
  let? (y, m, d, l) := parse_ymd (chars s) in
  let? l := expect "T"%char l in
  let? (h, l) := getnum false l in
  if 24 <=? h then None else
  let? l := expect ":"%char l in
  let? (mi, l) := getnum true l in
  if 60 <=? mi then None else
  let? l := expect ":"%char l in
  let? (se, l) := getnum true l in
  if 60 <=? se then None else
  let '(ns, l) := parse_fraction l in
  let? offset := parse_zone l in
  if day_ok y m d
  then Some (days_of_civil y m d * ns_per_day + (h * 3600 + mi * 60 + se - offset) * ns_per_s + ns)
  else None.
Definition timestamp_ok (s : string) : bool :=
  match parse_timestamp s with Some _ => true | None => false end.

(** * Formatting *)

(** Zero-padded decimal of at least [w] digits. *)
Fixpoint zpad (w : nat) (n : Z) : string :=
  match w with
  | O => ""
  | S w => zpad w (n / 10) +:+ String (digit_char (Z.to_nat (n mod 10))) ""
  end.

(** [t.Format(time.DateOnly)] for years 0 to 9999. *)
Definition format_date (days : Z) : string :=
  let '(y, m, d) := civil_of_days days in
  zpad 4 y +:+ "-" +:+ zpad 2 m +:+ "-" +:+ zpad 2 d.

Fixpoint trim_zeros_rev (l : list ascii) : list ascii :=
  match l with c :: l' => if Ascii.eqb c "0"%char then trim_zeros_rev l' else l | [] => [] end.

(** [t.UTC().Format(time.RFC3339Nano)] *)
Definition format_timestamp (ns : Z) : string :=
  let days := ns / ns_per_day in
  let rest := ns mod ns_per_day in
  let secs := rest / ns_per_s in
  let frac := rev (trim_zeros_rev (rev (chars (zpad 9 (rest mod ns_per_s))))) in
  format_date days +:+ "T" +:+ zpad 2 (secs / 3600) +:+ ":" +:+
  zpad 2 (secs / 60 mod 60) +:+ ":" +:+ zpad 2 (secs mod 60) +:+
  (match frac with [] => "" | _ => "." +:+ of_chars frac end) +:+ "Z".

Definition format_date_of_ns (ns : Z) : string := format_date (ns / ns_per_day).

Example date_ex1 : parse_date "1970-01-01" = Some 0 /\ parse_date "2026-09-18" = Some 20714.
Proof. vm_compute. split; reflexivity. Qed.
Example date_ex2 :
  date_ok "2024-02-29" = true /\ date_ok "2023-02-29" = false /\ date_ok "2024-13-01" = false /\
  date_ok "2024-1-01" = false /\ date_ok "2024-01-011" = false.
Proof. vm_compute. repeat split. Qed.
Example date_ex3 : format_date 20714 = "2026-09-18".
Proof. vm_compute. reflexivity. Qed.
Example stamp_ex1 :
  timestamp_ok "2026-09-18T12:00:00Z" = true /\ timestamp_ok "2026-09-18T12:00:00.5+02:00" = true /\
  timestamp_ok "2026-09-18 12:00:00Z" = false /\ timestamp_ok "2026-09-18T24:00:00Z" = false.
Proof. vm_compute. repeat split. Qed.
Example stamp_ex2 : format_timestamp (20714 * ns_per_day + 43200 * ns_per_s + 500000000)
  = "2026-09-18T12:00:00.5Z".
Proof. vm_compute. reflexivity. Qed.
Example stamp_ex3 :
  parse_timestamp "2026-09-18T12:00:00.5+02:00" = Some (20714 * ns_per_day + 36000 * ns_per_s + 500000000) /\
  parse_timestamp "1970-01-01T00:00:00.0000000019Z" = Some 1.
Proof. vm_compute. split; reflexivity. Qed.
(** * Round trips *)

(** The year of an era and the day of that year, from the day of the era. *)
Definition year_of_era (doe : Z) : Z := (doe - doe / 1460 + doe / 36524 - doe / 146096) / 365.
Definition day_of_year (doe : Z) : Z := doe - (365 * year_of_era doe + year_of_era doe / 4 - year_of_era doe / 100).

(** Centuries, leap cycles and years: [doe = 36524 * c + 1461 * q + s]. *)
Lemma year_of_era_split c q s (j := if s =? 1460 then 3 else s / 365) (doe := 36524 * c + 1461 * q + s) :
  0 <= c < 4 -> 0 <= q -> 1461 * q + s < 36524 -> 0 <= s < 1461 ->
  year_of_era doe = 100 * c + 4 * q + j /\ day_of_year doe = s - 365 * j /\ 0 <= j <= 3.
Proof.
  intros Hc Hq Hr Hs. set (t := if 1460 <=? 24 * c + q + s then 1 else 0).
  assert (Ej : 0 <= j <= 3 /\ 365 * j <= s <= 365 * j + 365 /\ (s = 365 * j + 365 -> s = 1460)).
  { unfold j. destruct (Z.eqb_spec s 1460); [lia|]. pose proof (Z.div_mod s 365). pose proof (Z.mod_pos_bound s 365). lia. }
  assert (E1 : doe / 1460 = 25 * c + q + t).
  { symmetry. apply (Z.div_unique_pos _ _ _ (24 * c + q + s - 1460 * t)); unfold t, doe; destruct (Z.leb_spec 1460 (24 * c + q + s)); lia. }
  assert (E2 : doe / 36524 = c) by (symmetry; apply (Z.div_unique_pos _ _ _ (1461 * q + s)); unfold doe; lia).
  assert (E3 : doe / 146096 = 0) by (apply Z.div_small; unfold doe; lia).
  assert (Ey : year_of_era doe = 100 * c + 4 * q + j).
  { unfold year_of_era. rewrite E1, E2, E3. symmetry. apply (Z.div_unique_pos _ _ _ (s - t - 365 * j)); unfold t, doe;
      destruct (Z.leb_spec 1460 (24 * c + q + s)); lia. }
  split; [done|]. split; [|lia]. unfold day_of_year. rewrite Ey.
  replace ((100 * c + 4 * q + j) / 4) with (25 * c + q) by (apply (Z.div_unique_pos _ _ _ j); lia).
  replace ((100 * c + 4 * q + j) / 100) with c by (apply (Z.div_unique_pos _ _ _ (4 * q + j)); lia).
  unfold doe. lia.
Qed.

Lemma era_bounds doe : 0 <= doe < 146097 ->
  0 <= year_of_era doe < 400 /\ 0 <= day_of_year doe <= 365 /\
  (day_of_year doe = 365 -> is_leap (year_of_era doe + 1) = true).
Proof.
  intros H. destruct (decide (doe = 146096)) as [->|]; [vm_compute; repeat split; by try intros|].
  set (c := doe / 36524). set (r := doe mod 36524). set (q := r / 1461). set (s := r mod 1461).
  pose proof (Z.div_mod doe 36524 ltac:(lia)) as E1. pose proof (Z.mod_pos_bound doe 36524 ltac:(lia)) as B1.
  pose proof (Z.div_mod r 1461 ltac:(lia)) as E2. pose proof (Z.mod_pos_bound r 1461 ltac:(lia)) as B2. fold c r in E1, B1. fold q s in E2, B2.
  assert (Hc : 0 <= c < 4) by lia. assert (Hq : 0 <= q <= 24) by lia.
  destruct (year_of_era_split c q s) as (Ey & Ed & Ej); [lia..|]. replace (36524 * c + 1461 * q + s) with doe in Ey, Ed by lia.
  set (j := if s =? 1460 then 3 else s / 365) in *.
  assert (Hj : 365 * j <= s <= 365 * j + 365 /\ (s = 365 * j + 365 -> s = 1460)).
  { unfold j. destruct (Z.eqb_spec s 1460); [lia|]. pose proof (Z.div_mod s 365). pose proof (Z.mod_pos_bound s 365). lia. }
  rewrite Ey, Ed. split; [lia|]. split; [lia|]. intros Hl. assert (s = 1460) by lia. assert (j = 3) by lia. assert (q <> 24) by lia.
  unfold is_leap. replace (100 * c + 4 * q + j + 1) with (0 + (25 * c + q + 1) * 4) at 1 by lia. rewrite Z.mod_add by lia.
  replace (100 * c + 4 * q + j + 1) with (4 * q + 4 + c * 100) at 1 by lia. rewrite Z.mod_add, (Z.mod_small (4 * q + 4)) by lia.
  destruct (Z.eqb_spec (4 * q + 4) 0); [lia|done].
Qed.

(** Month and day of the month from the day of a year that starts in March. *)
Definition month_day_ok (doy : Z) : bool :=
  let mp := (5 * doy + 2) / 153 in
  let d := doy - (153 * mp + 2) / 5 + 1 in
  let m := if mp <? 10 then mp + 3 else mp - 9 in
  (1 <=? m) && (m <=? 12) && ((m + 9) mod 12 =? mp) && (1 <=? d) && (if m =? 2 then d <=? (if doy =? 365 then 29 else 28) else d <=? days_in m 0).
Lemma month_day doy : 0 <= doy <= 365 -> month_day_ok doy = true.
Proof.
  intros H. assert (Hall : forallb month_day_ok (Z.of_nat <$> seq 0 366) = true) by (vm_compute; reflexivity).
  rewrite forallb_forall in Hall. apply Hall. apply in_map_iff. exists (Z.to_nat doy). split; [lia|]. apply in_seq. lia.
Qed.

Lemma leap_shift n y : is_leap (y + n * 400) = is_leap y.
Proof.
  unfold is_leap. replace (y + n * 400) with (y + (n * 100) * 4) at 1 by lia. rewrite Z.mod_add by lia.
  replace (y + n * 400) with (y + (n * 4) * 100) at 1 by lia. rewrite Z.mod_add by lia. by rewrite Z.mod_add by lia.
Qed.

(** Every day has a civil date, which names it. *)
Lemma civil_roundtrip z y m d :
  civil_of_days z = (y, m, d) -> days_of_civil y m d = z /\ day_ok y m d = true /\ 1 <= m <= 12.
Proof.
  unfold civil_of_days. cbv zeta. set (era := (z + 719468) / 146097). set (doe := z + 719468 - era * 146097).
  assert (Hdoe : 0 <= doe < 146097).
  { unfold doe, era. pose proof (Z.div_mod (z + 719468) 146097). pose proof (Z.mod_pos_bound (z + 719468) 146097). lia. }
  destruct (era_bounds doe Hdoe) as (By & Bd & Hleap). fold (year_of_era doe) (day_of_year doe).
  set (yoe := year_of_era doe) in *. fold (day_of_year doe). set (doy := day_of_year doe) in *.
  pose proof (month_day doy Bd) as Hmd. unfold month_day_ok in Hmd. cbv zeta in Hmd.
  set (mp := (5 * doy + 2) / 153) in *. set (m0 := if mp <? 10 then mp + 3 else mp - 9) in *. set (d0 := doy - (153 * mp + 2) / 5 + 1) in *.
  repeat rewrite andb_true_iff in Hmd. destruct Hmd as [[[[H1 H2] H3] H4] H5]. intros E. injection E as <- <- <-.
  split; [|split; [|lia]].
  - unfold days_of_civil. cbv zeta. apply Z.eqb_eq in H3. rewrite H3.
    replace (if m0 <=? 2 then _ else _) with (yoe + era * 400) by (destruct (m0 <=? 2); lia).
    rewrite Z.div_add, (Z.div_small yoe 400), Z.add_0_l by lia. replace (yoe + era * 400 - era * 400) with yoe by lia.
    replace ((153 * mp + 2) / 5 + d0 - 1) with doy by (unfold d0; lia). unfold doy, day_of_year, doe. fold doe yoe. unfold doe. lia.
  - unfold day_ok, days_in in *. revert H5. destruct (Z.eqb_spec m0 2) as [Em|]; intros H5; [|lia].
    replace (m0 <=? 2) with true by lia. rewrite (Z.add_comm (yoe + _)), Z.add_assoc, (Z.add_comm 1), leap_shift.
    destruct (Z.eqb_spec doy 365) as [E|]; [rewrite (Hleap E); lia|destruct (is_leap _); lia].
Qed.

Lemma dig_digit n : 0 <= n < 10 -> is_dig (digit_char (Z.to_nat n)) = true /\ dig (digit_char (Z.to_nat n)) = n.
Proof.
  intros H. unfold is_dig, dig, digit_char, byte_of. rewrite Ascii.nat_ascii_embedding by lia. split; [|lia].
  apply andb_true_iff. split; apply Nat.leb_le; lia.
Qed.

Lemma zpad_S w n : chars (zpad (S w) n) = chars (zpad w (n / 10)) ++ [digit_char (Z.to_nat (n mod 10))].
Proof. cbn [zpad]. by rewrite chars_app. Qed.

Lemma digits_val_snoc l c : digits_val (l ++ [c]) = digits_val l * 10 + dig c.
Proof. unfold digits_val. by rewrite fold_left_app. Qed.

(** [w] digits that make the number. *)
Lemma zpad_digits w : forall n, 0 <= n < 10 ^ Z.of_nat w ->
  length (chars (zpad w n)) = w /\ forallb is_dig (chars (zpad w n)) = true /\ digits_val (chars (zpad w n)) = n.
Proof.
  induction w as [|w IH]; intros n Hn; [by cbn; replace n with 0 by lia|].
  rewrite Nat2Z.inj_succ, Z.pow_succ_r in Hn by lia. destruct (IH (n / 10)) as (Hl & Hd & Hv).
  { split; [apply Z.div_pos|apply Z.div_lt_upper_bound]; lia. }
  destruct (dig_digit (n mod 10)) as [D1 D2]; [apply Z.mod_pos_bound; lia|].
  rewrite zpad_S, length_app, forallb_app, digits_val_snoc, Hl, Hd, Hv, D2. cbn [forallb length]. rewrite D1.
  split; [lia|]. split; [done|]. pose proof (Z.div_mod n 10). lia.
Qed.

Lemma zpad2 n : 0 <= n < 100 -> exists a b, chars (zpad 2 n) = [a; b] /\ is_dig a = true /\ is_dig b = true /\ dig a * 10 + dig b = n.
Proof.
  intros H. destruct (zpad_digits 2 n) as (Hl & Hd & Hv); [lia|]. destruct (chars (zpad 2 n)) as [|a [|b []]]; try done.
  exists a, b. cbn [forallb] in Hd. unfold digits_val in Hv. cbn [fold_left] in Hv. destruct (is_dig a), (is_dig b); done || lia.
Qed.

Lemma getnum_zpad2 fixed n rest : 0 <= n < 100 -> getnum fixed (chars (zpad 2 n) ++ rest) = Some (n, rest).
Proof. intros H. destruct (zpad2 n H) as (a & b & -> & Ha & Hb & E). cbn [app getnum]. by rewrite Ha, Hb, E. Qed.

Lemma parse_ymd_format days y m d rest :
  civil_of_days days = (y, m, d) -> 0 <= y < 10000 -> 1 <= d < 100 -> 1 <= m <= 12 ->
  parse_ymd (chars (format_date days) ++ rest) = Some (y, m, d, rest).
Proof.
  intros E Hy Hd Hm. unfold format_date. rewrite E. destruct (zpad_digits 4 y) as (Hl & Hg & Hv); [lia|].
  destruct (chars (zpad 4 y)) as [|a1 [|a2 [|a3 [|a4 []]]]] eqn:Ey; try done.
  rewrite !chars_app, Ey. cbn [forallb] in Hg. unfold digits_val in Hv. cbn [fold_left] in Hv.
  rewrite <- !app_assoc. cbn [app parse_ymd]. destruct (is_dig a1), (is_dig a2), (is_dig a3), (is_dig a4); try done. cbn [andb].
  cbn [chars app expect]. rewrite Ascii.eqb_refl, getnum_zpad2 by lia.
  destruct (Z.leb_spec m 0); [lia|]. destruct (Z.ltb_spec 12 m); [lia|]. cbn [orb expect]. rewrite Ascii.eqb_refl, getnum_zpad2 by lia.
  do 4 f_equal. lia.
Qed.

Lemma trim_zeros_split l : exists k, l = rev (trim_zeros_rev (rev l)) ++ repeat "0"%char k.
Proof.
  induction l as [|c l IH] using rev_ind; [by exists 0%nat|]. rewrite rev_app_distr. cbn [rev app trim_zeros_rev].
  destruct (Ascii.eqb_spec c "0"%char) as [->|]; [|exists 0%nat; cbn [rev repeat]; by rewrite rev_involutive, app_nil_r].
  destruct IH as [k E]. exists (S k). cbn [repeat]. rewrite repeat_cons, app_assoc. by rewrite <- E.
Qed.

Lemma digits_val_zeros l k : digits_val (l ++ repeat "0"%char k) = digits_val l * 10 ^ Z.of_nat k.
Proof.
  induction k as [|k IH]; [cbn [repeat]; rewrite app_nil_r; lia|]. cbn [repeat]. rewrite repeat_cons, app_assoc, digits_val_snoc, IH.
  rewrite Nat2Z.inj_succ, Z.pow_succ_r by lia. change (dig "0") with 0. lia.
Qed.

Lemma take_digits_stop l c rest : forallb is_dig l = true -> is_dig c = false -> take_digits (l ++ c :: rest) = (l, c :: rest).
Proof.
  intros Hl Hc. induction l as [|a l IH]; cbn [app take_digits]; [by rewrite Hc|].
  cbn [forallb] in Hl. apply andb_prop in Hl as [-> Hl]. by rewrite IH.
Qed.

Lemma fraction_format n frac :
  0 <= n < ns_per_s -> frac = rev (trim_zeros_rev (rev (chars (zpad 9 n)))) ->
  parse_fraction (match frac with [] => [] | _ => "."%char :: frac end ++ ["Z"%char]) = (n, ["Z"%char]).
Proof.
  intros Hn Hfrac. destruct (zpad_digits 9 n) as (Hl & Hd & Hv); [exact Hn|].
  destruct (trim_zeros_split (chars (zpad 9 n))) as [k E]. rewrite <- Hfrac in E. rewrite E in Hl, Hd, Hv.
  rewrite length_app, repeat_length in Hl. rewrite forallb_app in Hd. apply andb_prop in Hd as [Hd _]. rewrite digits_val_zeros in Hv.
  destruct frac as [|c frac]; [cbn in Hv; by replace n with 0 by lia|]. cbn [app parse_fraction].
  pose proof Hd as Hd'. cbn [forallb] in Hd. apply andb_prop in Hd as [Hc Hd]. rewrite Hc. cbn [Ascii.eqb Bool.eqb orb andb].
  change (c :: frac ++ ["Z"%char]) with ((c :: frac) ++ "Z"%char :: []). rewrite take_digits_stop by done.
  unfold nanoseconds. rewrite take_ge by lia. replace (9 - length (c :: frac))%nat with k by lia. by rewrite Hv.
Qed.

(** Instants of the years 0 to 9999. *)
Definition in_years (ns : Z) : bool :=
  let '(y, _, _) := civil_of_days (ns / ns_per_day) in (0 <=? y) && (y <? 10000).

(** What is formatted is read back. *)
Lemma parse_format_timestamp ns : in_years ns = true -> parse_timestamp (format_timestamp ns) = Some ns.
Proof.
  unfold in_years. destruct (civil_of_days (ns / ns_per_day)) as [[y m] d] eqn:E. intros Hy.
  destruct (civil_roundtrip _ _ _ _ E) as (Hback & Hok & Hm).
  assert (Hd : 1 <= d <= 31) by (unfold day_ok, days_in in Hok; repeat case_match; lia).
  pose proof (Z.mod_pos_bound ns ns_per_day ltac:(done)) as B. set (rest := ns mod ns_per_day) in *. set (secs := rest / ns_per_s).
  assert (Hs : 0 <= secs < 86400).
  { unfold secs. split; [apply Z.div_pos; [lia|done]|apply Z.div_lt_upper_bound; [done|]]. unfold ns_per_day in B. lia. }
  assert (Hh : 0 <= secs / 3600 < 24) by (split; [apply Z.div_pos|apply Z.div_lt_upper_bound]; lia).
  pose proof (Z.mod_pos_bound (secs / 60) 60 ltac:(done)) as Hmi. pose proof (Z.mod_pos_bound secs 60 ltac:(done)) as Hse.
  unfold parse_timestamp, format_timestamp. cbv zeta. fold rest secs. rewrite !chars_app.
  rewrite (parse_ymd_format _ y m d) by (done || lia). cbn [chars app expect]. rewrite Ascii.eqb_refl.
  rewrite getnum_zpad2 by lia. destruct (Z.leb_spec 24 (secs / 3600)); [lia|].
  cbn [app expect]. rewrite Ascii.eqb_refl, getnum_zpad2 by lia. destruct (Z.leb_spec 60 (secs / 60 mod 60)); [lia|].
  cbn [app expect]. rewrite Ascii.eqb_refl, getnum_zpad2 by lia. destruct (Z.leb_spec 60 (secs mod 60)); [lia|].
  assert (Hf : 0 <= rest mod ns_per_s < ns_per_s) by (by apply Z.mod_pos_bound).
  pose proof (fraction_format (rest mod ns_per_s) _ Hf eq_refl) as Hfr. set (frac := rev _) in *.
  replace (chars (match frac with [] => "" | _ => "." +:+ of_chars frac end)) with (match frac with [] => [] | _ => "."%char :: frac end).
  2:{ destruct frac; [done|]. by rewrite chars_app, chars_of_chars. }
  rewrite Hfr. cbn [parse_zone]. rewrite Ascii.eqb_refl, Hok, Hback. f_equal.
  pose proof (Z.div_mod ns ns_per_day ltac:(done)). pose proof (Z.div_mod rest ns_per_s ltac:(done)). fold rest in H2. fold secs in H3.
  pose proof (Z.div_mod secs 60 ltac:(done)). pose proof (Z.div_mod (secs / 60) 60 ltac:(done)). rewrite Z.div_div in H5 by lia.
  change (60 * 60) with 3600 in H5. lia.
Qed.
