(* ===== verification/Float.v ===== *)
(** IEEE 754 binary64 numbers (Go [float64]) on the Standard Library's
    [spec_float]: decimal text to nearest float, and the two-decimal rendering
    the store uses for [numeric(6,2)]. *)
From S2P Require Import Prelude.
From Stdlib Require Import Floats.SpecFloat.
Open Scope Z_scope.

Definition float64 := spec_float.

(** The nearest binary64 of [m * 10^e], ties to even. *)
Definition of_decimal (neg : bool) (m e : Z) : float64 :=
  match m with
  | Z.pos p =>
      if 400 <? e + Z.log2 m / 4 then S754_infinity neg
      else if e + Z.log2 m / 3 + 2 <? -400 then S754_zero neg
      else
        let n := if 0 <=? e then m * 10 ^ e else m in
        let d := if 0 <=? e then 1 else 10 ^ (- e) in
        match n, d with
        | Z.pos n, Z.pos d => SFdiv 53 1024 (S754_finite neg n 0) (S754_finite false d 0)
        | _, _ => S754_zero neg
        end
  | _ => S754_zero neg
  end.

Definition is_finite (f : float64) : bool :=
  match f with S754_zero _ | S754_finite _ _ _ => true | _ => false end.

Definition num_digit (c : ascii) : bool := (48 <=? byte_of c)%nat && (byte_of c <=? 57)%nat.

(** * [strconv.ParseFloat] *)

Definition hex_digit (c : ascii) : option Z :=
  let b := Z.of_nat (byte_of c) in
  if (48 <=? b) && (b <=? 57) then Some (b - 48)
  else if (97 <=? b) && (b <=? 102) then Some (b - 87)
  else if (65 <=? b) && (b <=? 70) then Some (b - 55) else None.
Definition base_digit (hex : bool) (c : ascii) : option Z :=
  if hex then hex_digit c else if num_digit c then Some (Z.of_nat (byte_of c) - 48) else None.
Definition is_char (a : string) (c : ascii) : bool := existsb (Ascii.eqb c) (chars a).

(** The mantissa: value, digits after the point, whether a point, a digit and an
    underscore were seen, and the rest. *)
Record mantissa := mkMantissa {
  mt_value : Z; mt_frac : Z; mt_dot : bool; mt_digits : bool; mt_under : bool; mt_rest : list ascii }.
Fixpoint read_mantissa (hex : bool) (l : list ascii) (v frac : Z) (dot digits under : bool) : mantissa :=
  match l with
  | [] => mkMantissa v frac dot digits under []
  | c :: l' =>
      if is_char "_" c then read_mantissa hex l' v frac dot digits true
      else if is_char "." c then
        if dot then mkMantissa v frac dot digits under l else read_mantissa hex l' v frac true digits under
      else match base_digit hex c with
           | Some d => read_mantissa hex l' (v * (if hex then 16 else 10) + d) (if dot then frac + 1 else frac) dot true under
           | None => mkMantissa v frac dot digits under l
           end
  end.

Fixpoint read_expo (l : list ascii) (e : Z) (under : bool) : Z * bool * list ascii :=
  match l with
  | c :: l' =>
      if is_char "_" c then read_expo l' e true
      else if num_digit c then read_expo l' (if e <? 10000 then e * 10 + Z.of_nat (byte_of c) - 48 else e) under
      else (e, under, l)
  | [] => (e, under, [])
  end.

Definition strip_sign (l : list ascii) : bool * list ascii :=
  match l with
  | c :: l' => if is_char "-" c then (true, l') else if is_char "+" c then (false, l') else (false, l)
  | [] => (false, [])
  end.

(** [underscoreOK]: an underscore only between digits, or after a base prefix. *)
Inductive saw := SawStart | SawDigit | SawUnder | SawOther.
Fixpoint underscore_scan (hex : bool) (l : list ascii) (s : saw) : bool :=
  match l with
  | [] => match s with SawUnder => false | _ => true end
  | c :: l =>
      match base_digit hex c with
      | Some _ => underscore_scan hex l SawDigit
      | None =>
          if is_char "_" c then match s with SawDigit => underscore_scan hex l SawUnder | _ => false end
          else match s with SawUnder => false | _ => underscore_scan hex l SawOther end
      end
  end.
Definition underscore_ok (l : list ascii) : bool :=
  let l := (strip_sign l).2 in
  match l with
  | z :: p :: l' =>
      if is_char "0" z && is_char "bBoOxX" p then underscore_scan (is_char "xX" p) l' SawDigit
      else underscore_scan false l SawStart
  | _ => underscore_scan false l SawStart
  end.

Definition is_special (l : list ascii) : option float64 :=
  let '(neg, l) := strip_sign l in
  let low := of_chars ((fun c => if (65 <=? byte_of c)%nat && (byte_of c <=? 90)%nat
                                 then Ascii.ascii_of_nat (byte_of c + 32) else c) <$> l) in
  if String.eqb low "inf" || String.eqb low "infinity" then Some (S754_infinity neg)
  else None.

(** The value of a literal, [None] for a syntax or a range error. Infinities and
    NaN by name are values. *)
Definition parse_float (s : string) : option float64 :=
  let l := chars s in
  match is_special l with
  | Some f => Some f
  | None =>
      if String.eqb (of_chars ((fun c => Ascii.ascii_of_nat (if (65 <=? byte_of c)%nat && (byte_of c <=? 90)%nat
                                         then byte_of c + 32 else byte_of c)) <$> l)) "nan" then Some S754_nan
      else
      let '(neg, l1) := strip_sign l in
      let '(hex, l2) := match l1 with
        | z :: x :: c :: l' => if is_char "0" z && is_char "xX" x then (true, c :: l') else (false, l1)
        | _ => (false, l1) end in
      let m := read_mantissa hex l2 0 0 false false false in
      if negb (mt_digits m) then None else
      let expo := match mt_rest m with
        | c :: l3 =>
            if is_char (if hex then "pP" else "eE") c then
              let '(eneg, l4) := strip_sign l3 in
              match l4 with
              | d :: _ => if num_digit d then
                            let '(e, u, rest) := read_expo l4 0 (mt_under m) in
                            Some (if eneg : bool then - e else e, u, rest)
                          else None
              | [] => None
              end
            else if hex then None else Some (0, mt_under m, mt_rest m)
        | [] => if hex then None else Some (0, mt_under m, [])
        end in
      match expo with
      | Some (e, under, []) =>
          if under && negb (underscore_ok l) then None
          else
            let f := if hex then match mt_value m with
                        | Z.pos p => binary_normalize 53 1024 (if neg then Z.neg p else Z.pos p) (e - 4 * mt_frac m) neg
                        | _ => S754_zero neg end
                     else of_decimal neg (mt_value m) (e - mt_frac m) in
            if is_finite f then Some f else None
      | _ => None
      end
  end.

(** A finite literal: what the callers accept as a number. *)
Definition finite_literal (s : string) : bool :=
  match parse_float s with Some f => is_finite f | None => false end.

(** Go's [<] and [==] on [float64]; both are false on NaN. *)
Definition f_lt (a b : float64) : bool := match SFcompare a b with Some Lt => true | _ => false end.
Definition f_eq (a b : float64) : bool := match SFcompare a b with Some Eq => true | _ => false end.

(** Zero and the positive finite numbers. *)
Definition nonneg (f : float64) : bool :=
  match f with S754_zero _ => true | S754_finite s _ _ => negb s | _ => false end.

Lemma f_lt_trans a b c : nonneg a = true -> nonneg b = true -> nonneg c = true -> f_lt a b = true -> f_lt b c = true -> f_lt a c = true.
Proof.
  unfold f_lt, SFcompare. destruct a as [| | |[] ma ea], b as [| | |[] mb eb], c as [| | |[] mc ec]; try done. intros _ _ _.
  destruct (Z.compare_spec ea eb), (Z.compare_spec eb ec); try done; destruct (Z.compare_spec ea ec); try lia; try done.
  all: repeat match goal with |- context[Pos.compare_cont Eq ?x ?y] => change (Pos.compare_cont Eq x y) with (Pos.compare x y) end.
  all: destruct (Pos.compare_spec ma mb), (Pos.compare_spec mb mc); try done; destruct (Pos.compare_spec ma mc); try done; lia.
Qed.
Lemma f_lt_le_trans a b c : nonneg a = true -> nonneg b = true -> nonneg c = true -> f_lt a b = false -> f_lt b c = false -> f_lt a c = false.
Proof.
  unfold f_lt, SFcompare. destruct a as [| | |[] ma ea], b as [| | |[] mb eb], c as [| | |[] mc ec]; try done. intros _ _ _.
  destruct (Z.compare_spec ea eb), (Z.compare_spec eb ec); try done; destruct (Z.compare_spec ea ec); try lia; try done.
  all: repeat match goal with |- context[Pos.compare_cont Eq ?x ?y] => change (Pos.compare_cont Eq x y) with (Pos.compare x y) end.
  all: destruct (Pos.compare_spec ma mb), (Pos.compare_spec mb mc); try done; destruct (Pos.compare_spec ma mc); try done; lia.
Qed.
Lemma f_lt_irrefl a : f_lt a a = false.
Proof.
  unfold f_lt, SFcompare. destruct a as [[]|[]| |[] m e]; try done; rewrite Z.compare_refl;
    change (Pos.compare_cont Eq m m) with (Pos.compare m m); by rewrite Pos.compare_refl.
Qed.

(** Round half to even of [n / d]. *)
Definition round_div (n d : Z) : Z :=
  let q := n / d in
  let r := n mod d in
  if 2 * r <? d then q else if d <? 2 * r then q + 1 else if Z.even q then q else q + 1.

(** [fmt.Sprintf("%.2f", f)] read back as a number of hundredths. *)
Definition hundredths (f : float64) : option Z :=
  match f with
  | S754_zero _ => Some 0
  | S754_finite s m e =>
      let v := if 0 <=? e then Z.pos m * 2 ^ e * 100 else round_div (Z.pos m * 100) (2 ^ (- e)) in
      Some (if s then - v else v)
  | _ => None
  end.

Lemma round_div_close n d : 0 < d -> 2 * Z.abs (round_div n d * d - n) <= d.
Proof.
  intros Hd. unfold round_div.
  pose proof (Z.div_mod n d ltac:(lia)). pose proof (Z.mod_pos_bound n d Hd).
  set (q := n / d) in *. set (r := n mod d) in *.
  destruct (Z.ltb_spec (2 * r) d); [nia|]. destruct (Z.ltb_spec d (2 * r)); [nia|].
  destruct (Z.even q); nia.
Qed.

Definition pt (s : string) : option Z :=
  match parse_float s with Some f => hundredths f | None => None end.

Example hundredths_ex :
  map pt ["0"; "3"; "2.5"; "0.1"; "2.675"; "-1.005"; "1e2"; "9999.99"; "0.125"; "1e400"; "1."; ".5"; "x"; ""]
  = [Some 0; Some 300; Some 250; Some 10; Some 267; Some (-100); Some 10000; Some 999999; Some 12;
     None; Some 100; Some 50; None; None].
Proof. vm_compute. reflexivity. Qed.
Example finite_literal_ex :
  map finite_literal ["1_000"; "1__0"; "_1"; "0x1p4"; "0x1"; "inf"; "NaN"; "1e"; "1.2.3"; "1-2"; "-7"; "0x1p2000"]
  = [true; false; false; true; false; false; false; false; false; false; true; false].
Proof. vm_compute. reflexivity. Qed.
