(* ===== verification/Json.v ===== *)
(** JSON values as Go's [encoding/json] decodes and encodes them ([any]). *)
From S2P Require Import Prelude Float.

#[local] Set Warnings "-register-all".
Inductive json :=
  | JNull
  | JBool (b : bool)
  | JNum (f : float64)
  | JInt (z : Z)
  | JStr (s : string)
  | JArr (l : list json)
  | JObj (m : list (string * json)).

(** The value of a key: the last one written wins, as in a Go map. *)
Fixpoint obj_get {A} (k : string) (m : list (string * A)) : option A :=
  match m with
  | [] => None
  | (k', v) :: m =>
      match obj_get k m with
      | Some w => Some w
      | None => if String.eqb k k' then Some v else None
      end
  end.

Definition obj_keys {A} (m : list (string * A)) : list string := m.*1.

Definition obj_del {A} (k : string) (m : list (string * A)) : list (string * A) :=
  List.filter (fun kv => negb (String.eqb k kv.1)) m.

(** [m[k] = v] *)
Fixpoint obj_set {A} (k : string) (v : A) (m : list (string * A)) : list (string * A) :=
  match m with
  | [] => [(k, v)]
  | (k', v') :: m => if String.eqb k k' then (k, v) :: obj_del k m else (k', v') :: obj_set k v m
  end.

Lemma obj_get_del {A} k k' (m : list (string * A)) : obj_get k (obj_del k' m) = if String.eqb k k' then None else obj_get k m.
Proof.
  induction m as [|[k2 v] m IH]; cbn [obj_del List.filter obj_get fst]; [by destruct (String.eqb k k')|].
  fold (obj_del k' m). destruct (String.eqb_spec k' k2) as [->|Hne]; cbn [negb obj_get].
  - rewrite IH. destruct (String.eqb_spec k k2); [done|]. by destruct (obj_get k m).
  - rewrite IH. destruct (String.eqb_spec k k') as [->|]; [|done].
    by rewrite (proj2 (String.eqb_neq _ _) Hne).
Qed.

Lemma obj_get_set {A} k k' (v : A) m : obj_get k (obj_set k' v m) = if String.eqb k k' then Some v else obj_get k m.
Proof.
  induction m as [|[k2 v2] m IH]; cbn [obj_set obj_get]; [done|].
  destruct (String.eqb_spec k' k2) as [->|Hne]; cbn [obj_get].
  - rewrite obj_get_del. destruct (String.eqb k k2); [done|]. by destruct (obj_get k m).
  - rewrite IH. destruct (String.eqb_spec k k') as [->|]; [|done]. done.
Qed.
