(* ===== verification/Base64.v ===== *)
(** Go's unpadded base64, [encoding/base64] with [RawStdEncoding] and
    [RawURLEncoding]: line breaks in the input are skipped, the unused bits of
    the last digit are ignored. *)
From Stdlib Require Import ZifyNat.
From S2P Require Import Prelude.
Open Scope nat_scope.

Module Base64.

Definition letters : string := "ABCDEFGHIJKLMNOPQRSTUVWXYZabcdefghijklmnopqrstuvwxyz0123456789".
Definition std : list ascii := chars (letters +:+ "+/").
Definition url : list ascii := chars (letters +:+ "-_").

Section base64.
Context (alphabet : list ascii).

Definition enc6 (n : nat) : ascii := nth n alphabet "A"%char.

Fixpoint index (c : ascii) (l : list ascii) (i : nat) : option nat :=
  match l with [] => None | d :: l => if Ascii.eqb c d then Some i else index c l (S i) end.
Definition dec6 (c : ascii) : option nat := index c alphabet 0.

Fixpoint encode_groups (l : list nat) : list nat :=
  match l with
  | a :: b :: c :: l => a / 4 :: a mod 4 * 16 + b / 16 :: b mod 16 * 4 + c / 64 :: c mod 64 :: encode_groups l
  | [a; b] => [a / 4; a mod 4 * 16 + b / 16; b mod 16 * 4]
  | [a] => [a / 4; a mod 4 * 16]
  | [] => []
  end.

Definition encode (b : list ascii) : string := of_chars (map enc6 (encode_groups (map byte_of b))).

Fixpoint decode_groups (l : list nat) : option (list nat) :=
  match l with
  | x :: y :: z :: w :: l =>
      match decode_groups l with
      | Some r => Some (x * 4 + y / 16 :: y mod 16 * 16 + z / 4 :: z mod 4 * 64 + w :: r)
      | None => None
      end
  | [x; y; z] => Some [x * 4 + y / 16; y mod 16 * 16 + z / 4]
  | [x; y] => Some [x * 4 + y / 16]
  | [x] => None
  | [] => Some []
  end.

Definition is_break (c : ascii) : bool := Ascii.eqb c (Ascii.ascii_of_nat 10) || Ascii.eqb c (Ascii.ascii_of_nat 13).

Definition decode (s : string) : option (list ascii) :=
  match mapM dec6 (List.filter (fun c => negb (is_break c)) (chars s)) with
  | Some l => map Ascii.ascii_of_nat <$> decode_groups l
  | None => None
  end.

(** * Round trip *)

Hypothesis (alphabet_ok : forallb (fun n => match dec6 (enc6 n) with Some m => m =? n | None => false end &&
                                            negb (is_break (enc6 n))) (seq 0 64) = true).

Lemma enc6_ok n : n < 64 -> dec6 (enc6 n) = Some n /\ is_break (enc6 n) = false.
Proof.
  intros Hn. pose proof alphabet_ok as H. rewrite forallb_forall in H. specialize (H n ltac:(apply in_seq; lia)).
  destruct (dec6 (enc6 n)) as [m|]; [|done]. apply andb_prop in H as [->%Nat.eqb_eq H]. split; [done|]. by apply negb_true_iff.
Qed.

Lemma digits_decode l : Forall (fun n => n < 64) l ->
  mapM dec6 (List.filter (fun c => negb (is_break c)) (map enc6 l)) = Some l.
Proof.
  induction 1 as [|n l Hn _ IH]; [done|]. destruct (enc6_ok n Hn) as [Hd Hb].
  cbn [map List.filter]. rewrite Hb. cbn [negb mapM]. rewrite Hd. cbn. rewrite IH. done.
Qed.

Lemma three_ind (P : list nat -> Prop) :
  P [] -> (forall a, P [a]) -> (forall a b, P [a; b]) -> (forall a b c l, P l -> P (a :: b :: c :: l)) -> forall l, P l.
Proof.
  intros H0 H1 H2 H3 l. assert (H : forall n l, length l <= n -> P l); [|by apply (H (length l))].
  induction n as [|n IH]; intros [|a [|b [|c k]]] Hl; auto; simpl in Hl; try lia. apply H3, IH. lia.
Qed.

Ltac bytes_lia := lia.
Ltac all_small := repeat (apply (Forall_cons_2 (fun n => n < 64)); [bytes_lia|]); try done; apply Forall_nil_2.

Lemma groups_ok l : Forall (fun n => n < 256) l ->
  Forall (fun n => n < 64) (encode_groups l) /\ decode_groups (encode_groups l) = Some l.
Proof.
  induction l as [|a|a b|a b c l IH] using three_ind; intros Hl; cbn [encode_groups decode_groups].
  - done.
  - apply Forall_cons in Hl as [Ha _]. split; [all_small|]. do 2 f_equal. bytes_lia.
  - apply Forall_cons in Hl as [Ha [Hb _]%Forall_cons]. split; [all_small|]. do 2 f_equal; [bytes_lia|f_equal; bytes_lia].
  - apply Forall_cons in Hl as [Ha [Hb [Hc Hl]%Forall_cons]%Forall_cons]. destruct (IH Hl) as [H1 ->].
    split; [all_small|].
    do 2 f_equal; [bytes_lia|f_equal; [bytes_lia|f_equal; bytes_lia]].
Qed.

Lemma decode_encode_with b : decode (encode b) = Some b.
Proof.
  unfold decode, encode. rewrite chars_of_chars. destruct (groups_ok (map byte_of b)) as [H1 H2].
  { apply Forall_forall. intros x (c & -> & _)%list_elem_of_fmap. apply byte_of_lt. }
  rewrite digits_decode, H2 by done. cbn. f_equal. rewrite map_map. transitivity (map id b); [|apply map_id].
  apply map_ext. intros c. apply Ascii.ascii_nat_embedding.
Qed.
End base64.

Lemma decode_encode_std b : decode std (encode std b) = Some b.
Proof. apply decode_encode_with. vm_compute. reflexivity. Qed.
Lemma decode_encode_url b : decode url (encode url b) = Some b.
Proof. apply decode_encode_with. vm_compute. reflexivity. Qed.

Example base64_ex : (encode std (chars "sierx!"), encode url (chars "a?>"), decode std "c2llcng") = ("c2llcngh", "YT8-", Some (chars "sierx")).
Proof. vm_compute. reflexivity. Qed.

End Base64.
