(* ===== verification/SxqLexer.v ===== *)
(** The query language's lexer and keyword aliases, [internal/sxq/lexer.go] and
    [aliases.go]. *)
From S2P Require Import Prelude Utf8.
Open Scope nat_scope.

Module Lexer.

Record token := mkToken { text : string; quoted : bool; pos : nat }.

Definition in_set (set : string) (c : ascii) : bool := existsb (Ascii.eqb c) (chars set).

(** * Quoted text *)

Definition newline : ascii := Ascii.ascii_of_nat 10.
Definition carriage : ascii := Ascii.ascii_of_nat 13.
Definition tab : ascii := Ascii.ascii_of_nat 9.
Definition single : ascii := Ascii.ascii_of_nat 39.
Definition double : ascii := Ascii.ascii_of_nat 34.
Definition backslash : ascii := Ascii.ascii_of_nat 92.

(** The character an escape stands for. *)
Definition unescape (c : ascii) : option ascii :=
  if Ascii.eqb c "n"%char then Some newline
  else if Ascii.eqb c "r"%char then Some carriage
  else if Ascii.eqb c "t"%char then Some tab
  else if Ascii.eqb c backslash || Ascii.eqb c single || Ascii.eqb c double then Some c
  else None.

(** The loop inside a quoted token, from the character at byte [i]; [None] when
    the input ends before the closing quote. *)
Fixpoint lex_quoted (quote : ascii) (l : list ascii) (i : nat) (value : list ascii) :
    result string (option (list ascii * list ascii * nat)) :=
  match l with
  | [] => Ok None
  | c :: l =>
      if Ascii.eqb c quote then Ok (Some (value, l, S i))
      else if Ascii.eqb c backslash then
        match l with
        | [] => Ok None
        | c2 :: l =>
            match unescape c2 with
            | Some c' => lex_quoted quote l (i + 2) (value ++ [c'])
            | None => Err ("invalid escape at byte " +:+ itoa (i + 2) +:+ "; escape quotes or backslashes")
            end
        end
      else lex_quoted quote l (S i) (value ++ [c])
  end.

(** * Words *)

Definition word_char (c : ascii) : bool :=
  byte_in 97 122 c || byte_in 65 90 c || byte_in 48 57 c || in_set "_.-" c.

Fixpoint span_word (l : list ascii) : list ascii * list ascii :=
  match l with
  | c :: l' => if word_char c then let '(w, rest) := span_word l' in (c :: w, rest) else ([], l)
  | [] => ([], [])
  end.

(** * The loop *)

Definition blank (c : ascii) : bool :=
  Ascii.eqb c " "%char || Ascii.eqb c tab || Ascii.eqb c carriage || Ascii.eqb c newline.
Definition operator (c : ascii) : bool := in_set "()~,+:=<>!-" c.

(** [None] for out of fuel: every round consumes at least one byte, so the length
    of the input is enough. *)
Fixpoint lex_loop (fuel : nat) (l : list ascii) (i : nat) (out : list token) : option (result string (list token)) :=
  match l with
  | [] => Some (Ok out)
  | ch :: l' =>
      match fuel with
      | O => None
      | S fuel =>
          if blank ch then lex_loop fuel l' (S i) out
          else if Ascii.eqb ch single || Ascii.eqb ch double then
            match lex_quoted ch l' (S i) [] with
            | Err e => Some (Err e)
            | Ok None => Some (Err ("unterminated string at byte " +:+ itoa i +:+ "; add the closing quote"))
            | Ok (Some (value, rest, j)) => lex_loop fuel rest j (out ++ [mkToken (of_chars value) true i])
            end
          else if operator ch then
            match l' with
            | e :: l2 =>
                if Ascii.eqb e "="%char && in_set "<>!" ch
                then lex_loop fuel l2 (i + 2) (out ++ [mkToken (of_chars [ch; e]) false i])
                else if Ascii.eqb ch "!"%char then Some (Err ("use != for inequality at byte " +:+ itoa i))
                else lex_loop fuel l' (S i) (out ++ [mkToken (of_chars [ch]) false i])
            | [] =>
                if Ascii.eqb ch "!"%char then Some (Err ("use != for inequality at byte " +:+ itoa i))
                else lex_loop fuel l' (S i) (out ++ [mkToken (of_chars [ch]) false i])
            end
          else
            match span_word (ch :: l') with
            | ([], _) => Some (Err ("unexpected character at byte " +:+ itoa i +:+ "; quote text values"))
            | (w, rest) =>
                let out := out ++ [mkToken (of_chars w) false i] in
                if 1024 <? length out then Some (Err "query has too many terms; simplify the expression")
                else lex_loop fuel rest (i + length w) out
            end
      end
  end.

Definition lex_fuel (fuel : nat) (input : string) : option (result string (list token)) :=
  if 4096 <? String.length input then Some (Err "query is too long; use at most 4096 bytes")
  else if negb (valid_utf8 input) then Some (Err "query must be valid UTF-8")
  else match lex_loop fuel (chars input) 0 [] with
       | Some (Ok out) => Some (Ok (out ++ [mkToken "" false (String.length input)]))
       | r => r
       end.

Definition lex (input : string) : result string (list token) :=
  match lex_fuel (String.length input) input with Some r => r | None => Err "out of fuel" end.

(** * aliases.go *)

Definition aliases : list (string * string) := [("currentuser", "me"); ("empty", "null")].
Definition canonical (value : string) : string :=
  let value := to_lower value in
  match List.find (fun kv => String.eqb kv.1 value) aliases with Some kv => kv.2 | None => value end.

Example lex_ex :
  lex "status != 'a\'b' (x)" =
  Ok [mkToken "status" false 0; mkToken "!=" false 7; mkToken "a'b" true 10; mkToken "(" false 17;
      mkToken "x" false 18; mkToken ")" false 19; mkToken "" false 20].
Proof. vm_compute. reflexivity. Qed.
Example lex_errors :
  map lex ["a ! b"; "'abc"; "a $ b"; "'\q'"] =
  [Err "use != for inequality at byte 2"; Err "unterminated string at byte 0; add the closing quote";
   Err "unexpected character at byte 2; quote text values"; Err "invalid escape at byte 3; escape quotes or backslashes"].
Proof. vm_compute. reflexivity. Qed.

(** * Termination *)

Lemma lex_quoted_shrinks q l i v v' rest j :
  lex_quoted q l i v = Ok (Some (v', rest, j)) -> length rest < length l.
Proof.
  remember (length l) as n eqn:Hn. revert l i v Hn.
  induction n as [n IH] using lt_wf_ind. intros [|c l] i v Hn H; [done|]. simpl in *.
  destruct (Ascii.eqb c q); [injection H as <- <- <-; lia|].
  destruct (Ascii.eqb c backslash).
  - destruct l as [|c2 l]; [done|]. destruct (unescape c2); [|done].
    simpl in Hn. specialize (IH (length l) ltac:(lia) l _ _ eq_refl H). lia.
  - specialize (IH (length l) ltac:(lia) l _ _ eq_refl H). lia.
Qed.

Lemma span_word_app l w rest : span_word l = (w, rest) -> l = w ++ rest /\ Forall (fun c => word_char c = true) w.
Proof.
  revert w rest; induction l as [|c l IH]; intros w rest H; simpl in H; [by injection H as <- <-|].
  destruct (word_char c) eqn:Hc; [|by injection H as <- <-].
  destruct (span_word l) as [w' r'] eqn:E. injection H as <- <-. destruct (IH _ _ eq_refl) as [-> HF].
  split; [done|by constructor].
Qed.

Lemma lex_loop_total fuel l i out : length l <= fuel -> exists r, lex_loop fuel l i out = Some r.
Proof.
  revert l i out; induction fuel as [|fuel IH]; intros [|ch l'] i out Hf; simpl in *; try (by eexists); [lia|].
  destruct (blank ch); [apply IH; lia|].
  destruct (_ || _).
  { destruct (lex_quoted ch l' (S i) []) as [[[[v rest] j]|]|e] eqn:E; try (by eexists).
    apply lex_quoted_shrinks in E. apply IH. lia. }
  destruct (operator ch).
  { destruct l' as [|e l2].
    - destruct (Ascii.eqb ch "!"%char); [by eexists|]. apply IH. simpl. lia.
    - destruct (_ && _); [apply IH; simpl in Hf; lia|]. destruct (Ascii.eqb ch "!"%char); [by eexists|]. apply IH. lia. }
  pose proof (span_word_app (ch :: l')) as Hspan. simpl span_word in *.
  destruct (if word_char ch then _ else _) as [w rest] eqn:E.
  destruct (Hspan _ _ eq_refl) as [Hl _]. destruct w as [|c w]; [by eexists|].
  destruct (1024 <? _); [by eexists|]. apply IH. apply (f_equal length) in Hl. rewrite length_app in Hl. simpl in *. lia.
Qed.

End Lexer.
