(* ===== verification/SxqParser.v ===== *)
(** The query language's parser, [internal/sxq/parser.go]: recursive descent over
    the token list with the nesting bound, literals, and the project narrowing. *)
From S2P Require Import Prelude Utf8 Float SxqLexer.
Open Scope nat_scope.

Module Parser.
Import Lexer.

(** * Data *)

(** [Value.Literal]: nil, a string, a bool, or a [json.Number]. *)
Inductive literal :=
  | LNil
  | LStr (s : string)
  | LBool (b : bool)
  | LNum (s : string).

(** [Offset] is a duration in nanoseconds. *)
Record Value := mkValue { Literal : literal; Function_ : string; Offset : Z }.

Definition lit (l : literal) : Value := mkValue l "" 0.

(** [Expr]: the boolean operators and the comparisons. *)
Inductive Expr :=
  | EAnd (l r : Expr)
  | EOr (l r : Expr)
  | ENot (e : Expr)
  | ECmp (field op : string) (values : list Value).

Record Query := mkQuery { q_Expr : option Expr; q_Order : string; q_Desc : bool }.

(** * The parser state: the token list and a position *)

Section parser.
Context (tokens : list token).

Definition eof : token := match last tokens with Some t => t | None => mkToken "" false 0 end.
Definition peek (at_ : nat) : token := match tokens !! at_ with Some t => t | None => eof end.
Definition is_ (s : string) (at_ : nat) : bool := negb (quoted (peek at_)) && String.eqb (canonical (text (peek at_))) s.
Definition expected {A} (s : string) (at_ : nat) : result string A :=
  Err ("expected " +:+ s +:+ " at byte " +:+ itoa (pos (peek at_)) +:+ "; check the query syntax").

(** * Values *)

Open Scope Z_scope.

Definition hour : Z := 3600000000000.
Definition minute : Z := 60000000000.

(** The unit of a duration by its last byte, in nanoseconds. *)
Definition duration_unit (c : ascii) : option Z :=
  if Ascii.eqb c "d"%char then Some (24 * hour)
  else if Ascii.eqb c "w"%char then Some (7 * 24 * hour)
  else if Ascii.eqb c "h"%char then Some hour
  else if Ascii.eqb c "m"%char then Some minute
  else None.

Definition parse_duration (s : string) : option Z :=
  let l := chars s in
  match last l, parse_int64 (of_chars (removelast l)) with
  | Some c, Some n =>
      match duration_unit c with
      | Some unit => if (n <? 0) || (1000000 <? n) || ((2 ^ 63 - 1) / unit <? n) then None else Some (n * unit)
      | None => None
      end
  | _, _ => None
  end.

Definition contains_any (set : string) (s : string) : bool := existsb (fun c => in_set set c) (chars s).

Definition value (at_ : nat) : result string (Value * nat) :=
  let t := peek at_ in
  if String.eqb (text t) "" then expected "a value" at_
  else if quoted t then Ok (lit (LStr (text t)), S at_)
  else
    let name := canonical (text t) in
    if String.eqb name "startofsprint" || String.eqb name "endofsprint"
    then Err (text t +:+ " is not available until phase 4")
    else if String.eqb name "me" || String.eqb name "now" then
      let at1 := S at_ in
      if negb (is_ "(" at1) then expected "empty function parentheses" at1
      else if negb (is_ ")" (S at1)) then expected "empty function parentheses" (S at1)
      else
        let at3 := S (S at1) in
        if String.eqb name "now" && (is_ "+" at3 || is_ "-" at3) then
          let negative := is_ "-" at3 in
          let d := peek (S at3) in
          let at5 := S (S at3) in
          if quoted d || (String.length (text d) <? 2)%nat then expected "a duration such as 7d" at5
          else match parse_duration (text d) with
               | Some off => Ok (mkValue LNil name (if negative then - off else off), at5)
               | None => Err "invalid duration; use bounded Nd, Nw, Nh or Nm"
               end
        else Ok (mkValue LNil name 0, at3)
    else if String.eqb name "null" then Ok (lit LNil, S at_)
    else if String.eqb name "true" || String.eqb name "false" then Ok (lit (LBool (String.eqb name "true")), S at_)
    else
      let minus := is_ "-" at_ in
      let at1 := if minus then S at_ else at_ in
      let sign := if minus then "-" else "" in
      let t := peek at1 in
      if finite_literal (sign +:+ text t) then Ok (lit (LNum (sign +:+ text t)), S at1)
      else if minus then expected "a number after -" at1
      else if contains_any "()~,+:=<>!" (text t) || String.eqb name "and" || String.eqb name "or" || String.eqb name "order"
      then expected "a literal value" at1
      else Ok (lit (LStr (text t)), S at1).

Open Scope nat_scope.

(** The list of [in]: a value, then a comma and the rest, at most 200 values.
    The fuel counts values: the 201st is refused. *)
Fixpoint value_list (fuel : nat) (values : list Value) (at_ : nat) : result string (list Value * nat) :=
  match fuel with
  | O => Err "lists may contain at most 200 values"
  | S fuel =>
      let* (v, at1) := value at_ in
      let values := values ++ [v] in
      if 200 <? length values then Err "lists may contain at most 200 values"
      else if is_ "," at1 then value_list fuel values (S at1)
      else Ok (values, at1)
  end.

Definition comparison_ops : list string := ["="; "!="; ">"; ">="; "<"; "<="; "in"; "~"; ":"].

(** A comparison, after [unary] has ruled out [not] and parentheses. *)
Definition comparison (at_ : nat) : result string (Expr * nat) :=
  let field := canonical (text (peek at_)) in
  if String.eqb field "descendants" || String.eqb field "ancestors"
  then Err (field +:+ " is not available until phase 5")
  else if quoted (peek at_) || String.eqb field "" then expected "a field name" at_
  else
    let at1 := S at_ in
    let op := canonical (text (peek at1)) in
    if quoted (peek at1) then expected "a comparison operator" at1
    else
      let at2 := S at1 in
      let* (op, at3) :=
        if String.eqb op "not" then if is_ "in" at2 then Ok ("not in", S at2) else expected "in after not" at2
        else if String.eqb op "is" then if is_ "not" at2 then Ok ("is not", S at2) else Ok ("is", at2)
        else if mem_str op comparison_ops then Ok (op, at2)
        else Err ("unknown operator " +:+ String double (op +:+ String double "; use =, !=, in, is null or ~")) in
      if String.eqb op "in" || String.eqb op "not in" then
        if negb (is_ "(" at3) then expected "a parenthesized list" at3
        else
          let* (vs, at4) := value_list 201 [] (S at3) in
          if negb (is_ ")" at4) then expected "a closing list parenthesis" at4
          else Ok (ECmp field op vs, S at4)
      else
        let* (v, at4) := value at3 in
        Ok (ECmp field op [v], at4).

(** * Boolean structure *)

(** [for p.take(kw) { right := next(); left = mk(left, right) }]: every round takes
    a token, so as many rounds as there are tokens are enough. *)
Fixpoint chain (fuel : nat) (kw : string) (mk : Expr -> Expr -> Expr)
    (next : nat -> result string (Expr * nat)) (lhs : Expr) (at_ : nat) : result string (Expr * nat) :=
  match fuel with
  | O => Ok (lhs, at_)
  | S fuel =>
      if is_ kw at_ then
        let* (rhs, at1) := next (S at_) in
        chain fuel kw mk next (mk lhs rhs) at1
      else Ok (lhs, at_)
  end.

Definition and_ (unary : nat -> result string (Expr * nat)) (at_ : nat) : result string (Expr * nat) :=
  let* (lhs, at1) := unary at_ in
  chain (length tokens) "and" EAnd unary lhs at1.

Definition or_ (unary : nat -> result string (Expr * nat)) (at_ : nat) : result string (Expr * nat) :=
  let* (lhs, at1) := and_ unary at_ in
  chain (length tokens) "or" EOr (and_ unary) lhs at1.

(** [unary]; [lvl] levels of nesting are left of the 64 allowed. *)
Fixpoint unary (lvl : nat) (at_ : nat) : result string (Expr * nat) :=
  match lvl with
  | O => expected "less than 64 levels of nesting" at_
  | S lvl =>
      if is_ "not" at_ then
        let* (e, at1) := unary lvl (S at_) in Ok (ENot e, at1)
      else if is_ "(" at_ then
        let* (e, at1) := or_ (unary lvl) (S at_) in
        if negb (is_ ")" at1) then expected "a closing parenthesis" at1 else Ok (e, S at1)
      else comparison at_
  end.

Definition max_depth : nat := 64.

Definition parse_tokens : result string Query :=
  let* (expr, at1) :=
    if negb (String.eqb (text (peek 0)) "") && negb (is_ "order" 0)
    then let* (e, at1) := or_ (unary max_depth) 0 in Ok (Some e, at1)
    else Ok (None, 0) in
  let* (order, desc, at5) :=
    if is_ "order" at1 then
      let at2 := S at1 in
      if negb (is_ "by" at2) then expected "by after order" at2
      else
        let at3 := S at2 in
        let order := canonical (text (peek at3)) in
        if quoted (peek at3) || String.eqb order "" then expected "an order field" at3
        else
          let at4 := S at3 in
          if is_ "desc" at4 then Ok (order, true, S at4)
          else Ok (order, false, if is_ "asc" at4 then S at4 else at4)
    else Ok ("id", false, at1) in
  if negb (String.eqb (text (peek at5)) "") then expected "and, or, or order by" at5
  else Ok (mkQuery expr order desc).

End parser.

Definition Parse (input : string) : result string Query :=
  let* tokens := lex input in parse_tokens tokens.

(** * Project narrowing *)

(** The string literals of a list of values; nil if some value is not one. *)
Fixpoint string_literals (vs : list Value) : option (list string) :=
  match vs with
  | [] => Some []
  | v :: vs =>
      match Literal v, string_literals vs with
      | LStr k, Some ks => Some (k :: ks)
      | _, _ => None
      end
  end.

Fixpoint projectKeys (e : Expr) : list string :=
  match e with
  | EAnd l r => match projectKeys l with [] => projectKeys r | a => a end
  | EOr l r =>
      match projectKeys l, projectKeys r with
      | [], _ | _, [] => []
      | a, b => a ++ b
      end
  | ENot _ => []
  | ECmp field op vs =>
      if String.eqb field "project" && (String.eqb op "=" || String.eqb op "in")
      then match string_literals vs with Some ks => ks | None => [] end
      else []
  end.

Definition ProjectKeys (q : Query) : list string :=
  match q_Expr q with Some e => projectKeys e | None => [] end.

(** * Runs *)

Example parse_ex :
  Parse "project = SRX and (status in (todo, 'done') or not points >= -2.5) order by rank desc" =
  Ok (mkQuery (Some (EAnd (ECmp "project" "=" [lit (LStr "SRX")])
        (EOr (ECmp "status" "in" [lit (LStr "todo"); lit (LStr "done")])
             (ENot (ECmp "points" ">=" [lit (LNum "-2.5")]))))) "rank" true).
Proof. vm_compute. reflexivity. Qed.
Example parse_duration_ex :
  Parse "due_date < now() + 7d" =
  Ok (mkQuery (Some (ECmp "due_date" "<" [mkValue LNil "now" 604800000000000])) "id" false).
Proof. vm_compute. reflexivity. Qed.
Example parse_errors :
  map Parse ["status todo"; "a = "; "a in (1"; "a = 1 b"; "order rank"; "(a = 1"] =
  [Err (String.append "unknown operator " (String double (String.append "todo" (String double "; use =, !=, in, is null or ~"))));
   Err "expected a value at byte 4; check the query syntax";
   Err "expected a closing list parenthesis at byte 7; check the query syntax";
   Err "expected and, or, or order by at byte 6; check the query syntax";
   Err "expected by after order at byte 6; check the query syntax";
   Err "expected a closing parenthesis at byte 6; check the query syntax"].
Proof. vm_compute. reflexivity. Qed.

End Parser.
