(* ===== verification/SxqCompile.v ===== *)
(** The query language's compiler to SQL, [internal/sxq/compile.go]: field table,
    parameters, comparisons, suggestions and completion. *)
From S2P Require Import Prelude Uuid DateTime Utf8 Float SxqLexer SxqParser.
Open Scope nat_scope.

Module Compile.
Import Lexer Parser.

(** * Fields *)

Record Field := mkField { SQL : string; Kind : string }.

Definition Fields : list (string * Field) :=
  [("id", mkField "i.id" "uuid"); ("key", mkField "i.key" "text"); ("title", mkField "i.title" "text");
   ("body", mkField "i.body" "text"); ("rank", mkField "i.rank" "text");
   ("project", mkField "p.key_prefix" "text"); ("type", mkField "t.key" "text");
   ("type.level", mkField "t.level" "number"); ("status", mkField "s.key" "text");
   ("status.category", mkField "s.category" "text"); ("assignee", mkField "i.assignee_id" "uuid");
   ("parent", mkField "par.key" "text");
   ("points", mkField "i.points" "number"); ("version", mkField "i.version" "number");
   ("change_seq", mkField "i.change_seq" "number"); ("config_version", mkField "i.config_version" "number");
   ("start_date", mkField "i.start_date" "date"); ("due_date", mkField "i.due_date" "date");
   ("created_at", mkField "i.created_at" "timestamp"); ("updated_at", mkField "i.updated_at" "timestamp");
   ("deleted_at", mkField "i.deleted_at" "timestamp");
   ("rollup.descendant_count", mkField "r.descendant_count" "number");
   ("rollup.done_count", mkField "r.done_count" "number");
   ("rollup.points_total", mkField "r.points_total" "number");
   ("rollup.points_done", mkField "r.points_done" "number");
   ("rollup.earliest_start", mkField "r.earliest_start" "date");
   ("rollup.latest_due", mkField "r.latest_due" "date");
   ("text", mkField "i.search_tsv" "search")].

Definition assoc {A} (k : string) (l : list (string * A)) : option A :=
  snd <$> List.find (fun kv => String.eqb kv.1 k) l.

Record CustomField := mkCustom { cf_ProjectID : string; cf_Kind : string }.

(** [Now = None] is the zero time: the clock is read instead. *)
Record Options := mkOptions {
  UserID : string;
  Now : option Z;
  Start : Z;
  Custom : gmap string (list CustomField)
}.

(** A bound parameter: strings and booleans. *)
Inductive arg := AStr (s : string) | ABool (b : bool).

Record Plan := mkPlan {
  Where : string; OrderExpr : string; OrderKind : string; Desc : bool; Args : list arg }.

(** [%q] of text without characters that need escaping. *)
Definition quote_text (s : string) : string := String double (s +:+ String double "").

(** * Suggestions *)

Definition custom_names (custom : gmap string (list CustomField)) : list string :=
  (fun kv => "fields." +:+ kv.1) <$> map_to_list custom.
Definition FieldNames (custom : gmap string (list CustomField)) : list string :=
  sort_strings (Fields.*1 ++ custom_names custom).

(** One row of the edit distance table: [prev] is the row above, [left] the entry
    just computed. *)
Fixpoint distance_row (c : ascii) (b : list ascii) (prev : list nat) (lhs : nat) : list nat :=
  match b, prev with
  | y :: b, diag :: ((up :: _) as prev') =>
      let cost := if Ascii.eqb c y then 0 else 1 in
      let v := Nat.min (Nat.min (lhs + 1) (up + 1)) (diag + cost) in
      v :: distance_row c b prev' v
  | _, _ => []
  end.

Fixpoint distance_rows (a b : list ascii) (i : nat) (prev : list nat) : list nat :=
  match a with
  | [] => prev
  | c :: a => distance_rows a b (S i) (S i :: distance_row c b prev (S i))
  end.

Definition distance (a b : string) : nat :=
  match last (distance_rows (chars a) (chars b) 0 (seq 0 (S (String.length b)))) with
  | Some d => d
  | None => 0
  end.

Definition nearest (input : string) (custom : gmap string (list CustomField)) : string :=
  (fold_left (fun (best : string * nat) name =>
     let d := distance input name in if d <? best.2 then (name, d) else best)
     (FieldNames custom) ("key", 100 * 100)).1.

(** * The compiler *)

Definition custom_cast (kind : string) : option (string * string) :=
  assoc kind [("text", ("text", "text")); ("number", ("numeric", "number")); ("bool", ("boolean", "bool"));
              ("date", ("date", "date")); ("url", ("text", "text")); ("user", ("uuid", "uuid"));
              ("select", ("text", "text")); ("multiselect", ("jsonb", "array"))].

Section compile.
Context `{UuidParse} (clock : Z) (options : Options).

(** [if options.Start < 1 { options.Start = 1 }] *)
Definition start : Z := if (Start options <? 1)%Z then 1%Z else Start options.
Definition now : Z := match Now options with Some t => t | None => clock end.

(** [param]: the argument list grows, the placeholder names its new last entry. *)
Definition param (v : arg) (args : list arg) : string * list arg :=
  ("$" +:+ itoa (Z.to_nat (start + Z.of_nat (length args))), args ++ [v]).

(** Placeholders with a cast for a list of identifiers. *)
Fixpoint uuid_params (ids : list string) (args : list arg) : list string * list arg :=
  match ids with
  | [] => ([], args)
  | id :: ids =>
      let '(p, args) := param (AStr id) args in
      let '(ps, args) := uuid_params ids args in
      ((p +:+ "::uuid") :: ps, args)
  end.

Definition unknown_field {A} (name : string) : result string A :=
  Err ("unknown field " +:+ quote_text name +:+ "; try " +:+ quote_text (nearest name (Custom options))).

Definition field (name : string) (args : list arg) : result string (Field * list arg) :=
  match assoc name Fields with
  | Some f => Ok (f, args)
  | None =>
      if has_prefix name "fields." then
        let key := str_drop 7 name in
        match Custom options !! key with
        | Some (d :: defs) =>
            let kind := cf_Kind d in
            if negb (forallb (fun def => String.eqb (cf_Kind def) kind) (d :: defs))
            then Err ("custom field " +:+ quote_text key +:+
                      " has different types across projects; constrain project before using it")
            else
              let ids := sort_strings (cf_ProjectID <$> d :: defs) in
              let '(params, args) := uuid_params ids args in
              let '(k, args) := param (AStr key) args in
              match custom_cast kind with
              | None => Err "unsupported configured field type"
              | Some (cast, typ) =>
                  let extract := if String.eqb kind "multiselect" then "(i.fields -> " +:+ k +:+ "::text)"
                                 else "(i.fields ->> " +:+ k +:+ "::text)::" +:+ cast in
                  Ok (mkField ("CASE WHEN i.project_id IN (" +:+ str_join "," params +:+ ") THEN " +:+ extract +:+
                               " ELSE NULL END") typ, args)
              end
        | _ => unknown_field name
        end
      else unknown_field name
  end.

Definition type_error {A} (kind : string) : result string A :=
  Err ("expected a " +:+ kind +:+ " value; quote text and dates").

Definition value (v : Value) (kind : string) : result string arg :=
  if String.eqb (Function_ v) "me" then
    if negb (String.eqb kind "uuid") then Err "me() requires a user field"
    else match uuid_parse (UserID options) with
         | None => Err "me() requires an authenticated user"
         | Some _ => Ok (AStr (UserID options))
         end
  else if String.eqb (Function_ v) "now" then
    if negb (String.eqb kind "date") && negb (String.eqb kind "timestamp")
    then Err "now() requires a date or timestamp field"
    else if String.eqb kind "date" then Ok (AStr (format_date_of_ns (now + Offset v)))
    else Ok (AStr (format_timestamp (now + Offset v)))
  else if String.eqb kind "number" then match Literal v with LNum n => Ok (AStr n) | _ => type_error kind end
  else if String.eqb kind "bool" then match Literal v with LBool b => Ok (ABool b) | _ => type_error kind end
  else if String.eqb kind "uuid" then
    match Literal v with
    | LStr s => match uuid_parse s with Some _ => Ok (AStr s) | None => type_error kind end
    | _ => type_error kind
    end
  else if String.eqb kind "text" then match Literal v with LStr s => Ok (AStr s) | _ => type_error kind end
  else if String.eqb kind "date" then
    match Literal v with LStr s => if date_ok s then Ok (AStr s) else type_error kind | _ => type_error kind end
  else if String.eqb kind "timestamp" then
    match Literal v with LStr s => if timestamp_ok s then Ok (AStr s) else type_error kind | _ => type_error kind end
  else type_error kind.

Definition cast_of (kind : string) : string :=
  if String.eqb kind "number" then "::text::numeric"
  else if String.eqb kind "date" then "::text::date"
  else if String.eqb kind "timestamp" then "::text::timestamptz"
  else if String.eqb kind "uuid" then "::text::uuid" else "".

Fixpoint params_of (fname kind : string) (vs : list Value) (args : list arg) : result string (list string * list arg) :=
  match vs with
  | [] => Ok ([], args)
  | v :: vs =>
      match value v kind with
      | Err e => Err (fname +:+ ": " +:+ e)
      | Ok a =>
          let '(p, args) := param a args in
          let* (ps, args) := params_of fname kind vs args in
          Ok ((p +:+ cast_of kind) :: ps, args)
      end
  end.

Definition sql_op (op : string) : option string :=
  assoc op [("=", "="); ("!=", "<>"); (">", ">"); (">=", ">="); ("<", "<"); ("<=", "<="); ("in", "IN"); ("not in", "NOT IN")].

Definition is_null (v : Value) : bool :=
  match Literal v with LNil => String.eqb (Function_ v) "" | _ => false end.

Definition comparison (fname op : string) (values : list Value) (args : list arg) : result string (string * list arg) :=
  let* (f, args) := field fname args in
  match values with
  | [] => Err "comparison requires a value"
  | v :: _ =>
      if String.eqb op "~" || String.eqb op ":" then
        if negb (mem_str fname ["text"; "title"; "body"]) then Err "full-text matching requires text, title or body"
        else match Literal v with
             | LStr s =>
                 let sql := if String.eqb fname "text" then SQL f
                            else "to_tsvector('english',coalesce(" +:+ SQL f +:+ ",''))" in
                 let '(p, args) := param (AStr s) args in
                 Ok ("(" +:+ sql +:+ " @@ plainto_tsquery('english'," +:+ p +:+ "))", args)
             | _ => Err "full-text matching requires a quoted text value"
             end
      else if String.eqb (Kind f) "search" then Err "text requires ~ or : for full-text matching"
      else
        let null := is_null v in
        if String.eqb op "is" || String.eqb op "is not" || ((String.eqb op "=" || String.eqb op "!=") && null) then
          if negb null then Err "is and is not require null; use = for a value"
          else if String.eqb op "is not" || String.eqb op "!=" then Ok ("(" +:+ SQL f +:+ " IS NOT NULL)", args)
          else Ok ("(" +:+ SQL f +:+ " IS NULL)", args)
        else if null then Err "null requires is null or is not null"
        else if String.eqb (Kind f) "array"
        then Err "multiselect comparisons are not supported; use is null or is not null"
        else match sql_op op with
             | None => Err "unsupported comparison operator"
             | Some sop =>
                 let* (ps, args) := params_of fname (Kind f) values args in
                 if String.eqb sop "IN" || String.eqb sop "NOT IN"
                 then Ok ("(" +:+ SQL f +:+ " " +:+ sop +:+ " (" +:+ str_join "," ps +:+ "))", args)
                 else Ok ("(" +:+ SQL f +:+ " " +:+ sop +:+ " " +:+
                          match ps with p :: _ => p | [] => "" end +:+ ")", args)
             end
  end.

Fixpoint expr (e : Expr) (args : list arg) : result string (string * list arg) :=
  match e with
  | EAnd l r =>
      let* (a, args) := expr l args in
      let* (b, args) := expr r args in
      Ok ("(" +:+ a +:+ " AND " +:+ b +:+ ")", args)
  | EOr l r =>
      let* (a, args) := expr l args in
      let* (b, args) := expr r args in
      Ok ("(" +:+ a +:+ " OR " +:+ b +:+ ")", args)
  | ENot e =>
      let* (a, args) := expr e args in
      Ok ("(NOT " +:+ a +:+ ")", args)
  | ECmp fname op values => comparison fname op values args
  end.

Definition Compile (q : Query) : result string Plan :=
  let* (where_, args) := match q_Expr q with None => Ok ("TRUE", []) | Some e => expr e [] end in
  let* (order, args) := field (q_Order q) args in
  if String.eqb (Kind order) "search" || String.eqb (Kind order) "array"
  then Err ("cannot order by " +:+ q_Order q +:+ "; try rank or key")
  else Ok (mkPlan where_ (SQL order) (Kind order) (q_Desc q) args).

End compile.

(** * Completion *)

Definition keywords : list string :=
  ["and"; "or"; "not"; "in"; "is null"; "is not null"; "order by"; "asc"; "desc"; "me()"; "now()"].

(** The token before the end marker. *)
Definition last_word (tokens : list token) : string :=
  match rev tokens with _ :: t :: _ => canonical (text t) | _ => "" end.

Definition Complete (partial : string) (custom : gmap string (list CustomField)) : result string (list string) :=
  if 4096 <? String.length partial then Err "partial query is too long"
  else
    let* tokens := lex partial in
    let prefix := if (1 <? length tokens) && negb (has_suffix partial " ") then last_word tokens else "" in
    Ok (sort_strings (List.filter (fun c => has_prefix c prefix) (FieldNames custom ++ keywords))).

(** * The golden queries of test/golden/sxq *)

Definition golden_options : Options :=
  mkOptions "01994ed4-0000-7000-8000-000000000001" (Some (20714 * ns_per_day)%Z) 1
    {["impact" := [mkCustom "01994ed4-0000-7000-8000-000000000002" "number"]]}.

Definition run (q : string) : result string Plan :=
  let* q := Parse q in Compile 0 golden_options q.
Definition golden (q : string) : result string (string * string * bool * list arg) :=
  let* p := run q in Ok (Where p, OrderExpr p, Desc p, Args p).

Example golden_project :
  golden "project = SRX and status.category != done and assignee = me() order by rank" =
  Ok ("(((p.key_prefix = $1) AND (s.category <> $2)) AND (i.assignee_id = $3::text::uuid))", "i.rank", false,
      [AStr "SRX"; AStr "done"; AStr "01994ed4-0000-7000-8000-000000000001"]).
Proof. vm_compute. reflexivity. Qed.
Example golden_duration :
  golden "due_date < now() + 7d and status.category in (open, active)" =
  Ok ("((i.due_date < $1::text::date) AND (s.category IN ($2,$3)))", "i.id", false,
      [AStr "2026-09-25"; AStr "open"; AStr "active"]).
Proof. vm_compute. reflexivity. Qed.
Example golden_custom :
  golden "fields.impact >= 4 and type = idea order by fields.impact desc" =
  Ok ("((CASE WHEN i.project_id IN ($1::uuid) THEN (i.fields ->> $2::text)::numeric ELSE NULL END >= $3::text::numeric) AND (t.key = $4))",
      "CASE WHEN i.project_id IN ($5::uuid) THEN (i.fields ->> $6::text)::numeric ELSE NULL END", true,
      [AStr "01994ed4-0000-7000-8000-000000000002"; AStr "impact"; AStr "4"; AStr "idea";
       AStr "01994ed4-0000-7000-8000-000000000002"; AStr "impact"]).
Proof. vm_compute. reflexivity. Qed.
Example golden_alias :
  golden "assignee = currentUser() OR (assignee = EMPTY AND NOT status IN (done, dropped))" =
  Ok ("((i.assignee_id = $1::text::uuid) OR ((i.assignee_id IS NULL) AND (NOT (s.key IN ($2,$3)))))", "i.id", false,
      [AStr "01994ed4-0000-7000-8000-000000000001"; AStr "done"; AStr "dropped"]).
Proof. vm_compute. reflexivity. Qed.
Example golden_hierarchy :
  golden "type = epic and descendants(status.category = open) > 0" = Err "descendants is not available until phase 5".
Proof. vm_compute. reflexivity. Qed.
Example golden_unknown :
  golden "stats = todo" = Err ("unknown field " +:+ quote_text "stats" +:+ "; try " +:+ quote_text "status").
Proof. vm_compute. reflexivity. Qed.
Example golden_injection :
  golden ("title = " +:+ quote_text "x' OR 1=1 --") = Ok ("(i.title = $1)", "i.id", false, [AStr "x' OR 1=1 --"]).
Proof. vm_compute. reflexivity. Qed.
Example complete_ex : Complete "sta" ∅ = Ok ["start_date"; "status"; "status.category"].
Proof. vm_compute. reflexivity. Qed.

End Compile.
