(* ===== verification/SxqRoundtrip.v ===== *)
(** Printing and reading back query text: the lexer inverts the rendering of a
    token list, the parser inverts the minimal-parentheses printer, and a quoted
    literal always ends up as one bound parameter. *)
From S2P Require Import Prelude Utf8 Float SxqLexer SxqParser.
Open Scope nat_scope.

Module Roundtrip.
Import Lexer Parser.

(** * Rendering tokens *)

Inductive atom := AWord (w : string) | AQuoted (s : string) | AOp (s : string).

Definition escape_char (c : ascii) : list ascii :=
  if Ascii.eqb c double || Ascii.eqb c backslash then [backslash; c] else [c].
Definition escape (s : string) : list ascii := concat (map escape_char (chars s)).

(** The text of a quoted literal. *)
Definition quote (s : string) : string := of_chars (double :: escape s ++ [double]).

Definition render_atom (a : atom) : list ascii :=
  match a with AWord w => chars w | AQuoted s => double :: escape s ++ [double] | AOp s => chars s end.
Definition render_chars (l : list atom) : list ascii := concat (map (fun a => render_atom a ++ [" "%char]) l).
Definition render (l : list atom) : string := of_chars (render_chars l).

Definition ops : list string := ["("; ")"; "~"; ","; "+"; ":"; "="; "<"; ">"; "-"; "<="; ">="; "!="].

Definition atom_ok (a : atom) : Prop :=
  match a with
  | AWord w => w <> "" /\ Forall (fun c => word_char c = true) (chars w) /\ has_prefix w "-" = false
  | AQuoted s => True
  | AOp s => s ∈ ops
  end.

Definition strip (t : token) : string * bool := (text t, quoted t).
Definition atom_token (a : atom) : string * bool :=
  match a with AWord w => (w, false) | AQuoted s => (s, true) | AOp s => (s, false) end.

(** * Lexing a rendering *)

Lemma lex_quoted_escape l rest i v :
  exists j, lex_quoted double (concat (map escape_char l) ++ double :: rest) i v = Ok (Some (v ++ l, rest, j)).
Proof.
  revert i v; induction l as [|c l IH]; intros i v; simpl.
  - rewrite app_nil_r. by eexists.
  - unfold escape_char at 1. destruct (Ascii.eqb_spec c double) as [->|Hd].
    + simpl. destruct (IH (i + 2) (v ++ [double])) as [j ->]. exists j. by rewrite <- app_assoc.
    + destruct (Ascii.eqb_spec c backslash) as [->|Hb].
      * simpl. destruct (IH (i + 2) (v ++ [backslash])) as [j ->]. exists j. by rewrite <- app_assoc.
      * simpl. rewrite (proj2 (Ascii.eqb_neq _ _) Hd), (proj2 (Ascii.eqb_neq _ _) Hb).
        destruct (IH (S i) (v ++ [c])) as [j ->]. exists j. by rewrite <- app_assoc.
Qed.

Lemma span_word_stop w c rest :
  Forall (fun c => word_char c = true) w -> word_char c = false -> span_word (w ++ c :: rest) = (w, c :: rest).
Proof.
  induction 1 as [|d w Hd _ IH]; intros Hc; simpl; [by rewrite Hc|]. rewrite Hd, IH by done. done.
Qed.

(** The first character of a word starts neither a blank, a literal nor an
    operator. *)
Lemma word_start c :
  word_char c = true -> Ascii.eqb c "-"%char = false ->
  blank c = false /\ Ascii.eqb c single = false /\ Ascii.eqb c double = false /\ operator c = false.
Proof.
  destruct c as [[] [] [] [] [] [] [] []]; vm_compute; intros H1 H2; try discriminate H1; try discriminate H2; auto.
Qed.

Definition out_ok (out : list token) (n : nat) : Prop := length out + n <= 1024.

(** One atom and the blank after it: two rounds of the loop. *)
Lemma lex_atom a fuel rest i out :
  atom_ok a -> length (render_atom a) < fuel -> length out < 1024 ->
  exists j p fuel', fuel - S (length (render_atom a)) <= fuel' /\
    lex_loop fuel (render_atom a ++ " "%char :: rest) i out =
    lex_loop fuel' rest j (out ++ [mkToken (atom_token a).1 (atom_token a).2 p]).
Proof.
  intros Hok Hf Hout. destruct fuel as [|fuel]; [lia|].
  assert (Hblank : forall f l k o, lex_loop (S f) (" "%char :: l) k o = lex_loop f l (S k) o) by done.
  destruct a as [w|s|s]; simpl in Hok, Hf.
  - destruct Hok as (Hne & Hw & Hdash). destruct w as [|c w]; [done|]. simpl in Hw, Hdash, Hf.
    apply Forall_cons in Hw as [Hc Hw]. assert (Hcd : Ascii.eqb c "-"%char = false).
    { by destruct (Ascii.eqb c "-"%char). }
    destruct (word_start c Hc Hcd) as (H1 & H2 & H3 & H4).
    cbn [render_atom chars app lex_loop]. rewrite H1, H2, H3, H4. cbn [orb].
    change (span_word (c :: chars w ++ " "%char :: rest)) with (span_word ((c :: chars w) ++ " "%char :: rest)).
    rewrite span_word_stop by (by constructor).
    rewrite length_app. cbn [length]. destruct (Nat.ltb_spec 1024 (length out + 1)); [lia|].
    destruct fuel as [|fuel]; [lia|]. rewrite Hblank. eexists _, _, fuel. split; [simpl; lia|].
    cbn [of_chars atom_token fst snd]. by rewrite of_chars_chars.
  - cbn [render_atom app lex_loop]. change (blank double) with false.
    change (Ascii.eqb double single || Ascii.eqb double double) with true. cbn iota.
    rewrite <- app_assoc. cbn [app]. unfold escape.
    destruct (lex_quoted_escape (chars s) (" "%char :: rest) (S i) []) as [j ->]. rewrite length_app in Hf. cbn [length] in Hf.
    destruct fuel as [|fuel]; [lia|]. rewrite Hblank. eexists _, _, fuel.
    split; [simpl; rewrite length_app; simpl; lia|]. cbn [app atom_token fst snd]. by rewrite of_chars_chars.
  - destruct fuel as [|fuel]; [destruct s; simpl in Hf; [by repeat (apply elem_of_cons in Hok as [Hok|Hok]; [discriminate Hok|]); apply elem_of_nil in Hok|lia]|].
    unfold ops in Hok.
    repeat (apply elem_of_cons in Hok as [->|Hok]; [eexists _, _, fuel; split; [simpl; lia|reflexivity]|]).
    by apply elem_of_nil in Hok.
Qed.

Lemma lex_render_loop l fuel i out :
  Forall atom_ok l -> length (render_chars l) <= fuel -> length out + length l <= 1024 ->
  exists toks, lex_loop fuel (render_chars l) i out = Some (Ok (out ++ toks)) /\ strip <$> toks = atom_token <$> l.
Proof.
  intros Hl. revert fuel i out. induction Hl as [|a l Ha _ IH]; intros fuel i out Hf Hout.
  - exists []. rewrite app_nil_r. by destruct fuel.
  - unfold render_chars in *. simpl in *. rewrite <- !app_assoc in *. simpl in *. rewrite length_app in Hf. simpl in Hf.
    destruct (lex_atom a fuel (concat (map (fun a => render_atom a ++ [" "%char]) l)) i out Ha) as (j & p & f' & Hf' & ->);
      [lia|lia|].
    destruct (IH f' j (out ++ [mkToken (atom_token a).1 (atom_token a).2 p])) as (toks & Hlex & Hs);
      [lia|rewrite length_app; simpl; lia|].
    exists (mkToken (atom_token a).1 (atom_token a).2 p :: toks). rewrite Hlex, <- app_assoc. split; [done|].
    rewrite !fmap_cons, Hs. unfold strip at 1. simpl. by destruct (atom_token a).
Qed.

(** Lexing a rendering gives its tokens and the end marker. *)
Lemma lex_render l :
  Forall atom_ok l -> String.length (render l) <= 4096 -> valid_utf8 (render l) = true -> length l <= 1024 ->
  exists toks, lex (render l) = Ok toks /\ strip <$> toks = (atom_token <$> l) ++ [("", false)].
Proof.
  intros Hl Hlen Hv Hn. unfold lex, lex_fuel. rewrite Hv. simpl.
  destruct (Nat.ltb_spec 4096 (String.length (render l))); [lia|].
  destruct (lex_render_loop l (String.length (render l)) 0 [] Hl) as (toks & Ht & Hs); [|simpl; lia|].
  { unfold render. by rewrite <- length_chars, chars_of_chars. }
  unfold render at 2. rewrite chars_of_chars, Ht. eexists. split; [done|]. by rewrite app_nil_l, fmap_app, Hs.
Qed.

End Roundtrip.

(** Printing a parsed query back to text with as few parentheses as its
    precedence allows, and the proof that the parser inverts the printer. *)
Open Scope nat_scope.

Module Print.
Import Lexer Parser Roundtrip.

(** * The printer *)

Definition print_number (s : string) : list atom :=
  match s with
  | String c w => if Ascii.eqb c "-"%char then [AOp "-"; AWord w] else [AWord s]
  | "" => [AWord s]
  end.

Definition print_value (v : Value) : list atom :=
  if String.eqb (Function_ v) "" then
    match Literal v with
    | LNil => [AWord "null"]
    | LStr s => [AQuoted s]
    | LBool b => [AWord (if b then "true" else "false")]
    | LNum s => print_number s
    end
  else [AWord (Function_ v); AOp "("; AOp ")"].

Definition print_values (vs : list Value) : list atom := 
  match vs with
  | [] => []
  | v :: vs => print_value v ++ concat (map (fun v => AOp "," :: print_value v) vs)
  end.

Definition word_ops : list string := ["in"; "not in"; "is"; "is not"].

Definition print_op (op : string) : list atom :=
  if String.eqb op "not in" then [AWord "not"; AWord "in"]
  else if String.eqb op "is not" then [AWord "is"; AWord "not"]
  else if mem_str op word_ops then [AWord op] else [AOp op].

Definition is_list_op (op : string) : bool := String.eqb op "in" || String.eqb op "not in".

Definition paren (b : bool) (l : list atom) : list atom := if b then AOp "(" :: l ++ [AOp ")"] else l.

(** [p] is the context: 0 for an operand of [or], 1 of [and], 2 of [not]. *)
Fixpoint print (p : nat) (e : Expr) : list atom :=
  match e with
  | EOr l r => paren (0 <? p) (print 0 l ++ AWord "or" :: print 1 r)
  | EAnd l r => paren (1 <? p) (print 1 l ++ AWord "and" :: print 2 r)
  | ENot e => AWord "not" :: print 2 e
  | ECmp f op vs =>
      AWord f :: print_op op ++ (if is_list_op op then AOp "(" :: print_values vs ++ [AOp ")"] else print_values vs)
  end.

(** The levels of nesting the parser goes through on that text. *)
Fixpoint depth (p : nat) (e : Expr) : nat :=
  match e with
  | EOr l r => (if 0 <? p then 1 else 0) + Nat.max (depth 0 l) (depth 1 r)
  | EAnd l r => (if 1 <? p then 1 else 0) + Nat.max (depth 1 l) (depth 2 r)
  | ENot e => 1 + depth 2 e
  | ECmp _ _ _ => 1
  end.

Definition print_query (q : Query) : list atom :=
  match q_Expr q with Some e => print 0 e | None => [] end ++
  [AWord "order"; AWord "by"; AWord (q_Order q)] ++ (if q_Desc q then [AWord "desc"] else []).

(** * Printable queries *)

Definition is_word (w : string) : bool :=
  negb (String.eqb w "") && forallb word_char (chars w) && negb (has_prefix w "-").

Definition value_names : list string :=
  ["startofsprint"; "endofsprint"; "me"; "now"; "null"; "true"; "false"; "-"; "not"].

Definition number_ok (s : string) : bool :=
  finite_literal s &&
  match s with
  | String c w => if Ascii.eqb c "-"%char then is_word w else is_word s && negb (mem_str (canonical s) value_names)
  | "" => false
  end.

Definition value_okb (v : Value) : bool :=
  if String.eqb (Function_ v) "" then
    (Offset v =? 0)%Z && match Literal v with LStr s => negb (String.eqb s "") | LNum s => number_ok s | _ => true end
  else mem_str (Function_ v) ["me"; "now"] && (Offset v =? 0)%Z &&
       match Literal v with LNil => true | _ => false end.

Definition name_ok (f : string) : bool := is_word f && String.eqb (canonical f) f.

Fixpoint expr_ok (e : Expr) : bool :=
  match e with
  | EAnd l r | EOr l r => expr_ok l && expr_ok r
  | ENot e => expr_ok e
  | ECmp f op vs =>
      name_ok f && negb (mem_str f ["not"; "order"; "descendants"; "ancestors"]) &&
      mem_str op (word_ops ++ comparison_ops) && forallb value_okb vs &&
      (if is_list_op op then (1 <=? length vs) && (length vs <=? 200) else length vs =? 1)
  end.

Definition query_ok (q : Query) : bool :=
  match q_Expr q with Some e => expr_ok e && (depth 0 e <=? max_depth) | None => true end && name_ok (q_Order q).

Example print_ex :
  render (print 0 (EAnd (EOr (ECmp "a" "=" [lit (LBool true)]) (ECmp "b" "not in" [lit (LNum "-2"); lit (LStr "x")]))
                        (ENot (ECmp "c" "is" [lit LNil])))) =
  of_chars (chars "( a = true or b not in ( - 2 , " ++ (double :: "x"%char :: double :: chars " ) ) and not c is null ")).
Proof. reflexivity. Qed.

(** * Tokens against atoms *)

Section tokens.
Context (tokens : list token).

Definition tok (at_ : nat) (a : atom) : Prop := strip <$> tokens !! at_ = Some (atom_token a).
Fixpoint matches (at_ : nat) (l : list atom) : Prop :=
  match l with [] => True | a :: l => tok at_ a /\ matches (S at_) l end.

Lemma matches_app at_ l l' : matches at_ (l ++ l') <-> matches at_ l /\ matches (at_ + length l) l'.
Proof.
  revert at_; induction l as [|a l IH]; intros at_; simpl; [rewrite Nat.add_0_r; tauto|].
  rewrite IH, Nat.add_succ_r. simpl. tauto.
Qed.

Lemma peek_tok at_ a : tok at_ a -> text (peek tokens at_) = (atom_token a).1 /\ quoted (peek tokens at_) = (atom_token a).2.
Proof. unfold tok, peek. destruct (tokens !! at_); [|done]. simpl. intros [= <-]. done. Qed.

Lemma is_tok at_ a s :
  tok at_ a -> is_ tokens s at_ = negb (atom_token a).2 && String.eqb (canonical (atom_token a).1) s.
Proof. intros [H1 H2]%peek_tok. unfold is_. by rewrite H1, H2. Qed.

Lemma tok_lt at_ a : tok at_ a -> at_ < length tokens.
Proof. unfold tok. intros H. apply lookup_lt_is_Some. destruct (tokens !! at_); [by eexists|done]. Qed.

Lemma matches_length at_ l : matches at_ l -> l <> [] -> at_ + length l <= length tokens.
Proof.
  revert at_; induction l as [|a l IH]; intros at_ H; [done|]. intros _. destruct H as [H1 H2]. simpl.
  destruct l as [|b l]; [apply tok_lt in H1; simpl; lia|]. specialize (IH _ H2 ltac:(done)). simpl in *. lia.
Qed.

(** A fact about a position, for the same position written otherwise. *)
Ltac at_eq H :=
  lazymatch type of H with ?P ?m =>
    lazymatch goal with |- _ ?n => replace n with m by (simpl; rewrite ?length_app; simpl; lia); exact H end
  end.

(** What follows a printed operand: no sign, which [now()] would take. *)
Definition no_sign (at_ : nat) : Prop := is_ tokens "+" at_ = false /\ is_ tokens "-" at_ = false.

Lemma no_sign_tok at_ a : tok at_ a -> (canonical (atom_token a).1 <> "+" /\ canonical (atom_token a).1 <> "-") -> no_sign at_.
Proof.
  intros H [H1 H2]. split; rewrite (is_tok _ _ _ H).
  - rewrite (proj2 (String.eqb_neq _ _) H1). apply andb_false_r.
  - rewrite (proj2 (String.eqb_neq _ _) H2). apply andb_false_r.
Qed.

(** * Values *)

Lemma value_quoted at_ s : tok at_ (AQuoted s) -> s <> "" -> value tokens at_ = Ok (lit (LStr s), S at_).
Proof.
  intros [Ht Hq]%peek_tok Hs. simpl in *. unfold value. rewrite Ht, Hq, (proj2 (String.eqb_neq _ _) Hs). done.
Qed.

Lemma value_number at_ s :
  matches at_ (print_number s) -> number_ok s = true ->
  value tokens at_ = Ok (lit (LNum s), at_ + length (print_number s)).
Proof.
  unfold number_ok. intros H [Hfin Hs]%andb_prop. destruct s as [|c w]; [done|].
  unfold print_number in *. destruct (Ascii.eqb_spec c "-"%char) as [->|Hc].
  - destruct H as (H0 & H1 & _). unfold value. rewrite (is_tok _ _ "-" H0).
    apply peek_tok in H0 as [Ht Hq], H1 as [Ht1 Hq1]. rewrite Ht, Hq. cbn [atom_token fst snd].
    change (canonical "-") with "-". cbn -[finite_literal peek]. rewrite Ht1. cbn -[finite_literal].
    change (String "-" w) with ("-" +:+ w) in *. rewrite Hfin. repeat f_equal. lia.
  - destruct H as (H0 & _). apply andb_prop in Hs as [Hw Hn]. unfold value_names, mem_str in Hn. simpl existsb in Hn.
    rewrite !negb_orb in Hn. rewrite !andb_true_iff, !negb_true_iff in Hn.
    destruct Hn as (N1 & N2 & N3 & N4 & N5 & N6 & N7 & N8 & _).
    unfold value. rewrite (is_tok _ _ "-" H0). apply peek_tok in H0 as [Ht Hq]. rewrite Ht, Hq.
    cbn -[finite_literal canonical String.eqb]. rewrite N1, N2, N3, N4, N5, N6, N7, N8.
    cbn -[finite_literal String.append peek]. rewrite Ht. cbn [atom_token fst]. change ("" +:+ String c w) with (String c w).
    rewrite Hfin. repeat f_equal. lia.
Qed.

Lemma value_print at_ v :
  matches at_ (print_value v) -> value_okb v = true -> no_sign (at_ + length (print_value v)) ->
  value tokens at_ = Ok (v, at_ + length (print_value v)).
Proof.
  destruct v as [l f off]. unfold value_okb, print_value, no_sign. simpl.
  destruct (String.eqb_spec f "") as [->|Hf].
  - intros H [Hoff%Z.eqb_eq Hok]%andb_prop _. subst off. destruct l as [|s|b|s].
    + destruct H as [H _]. unfold value. rewrite !(is_tok _ _ _ H). apply peek_tok in H as [Ht Hq].
      rewrite Ht, Hq. simpl. repeat f_equal. lia.
    + destruct H as [H _]. apply negb_true_iff, String.eqb_neq in Hok. rewrite (value_quoted _ s) by done.
      unfold lit. repeat f_equal. simpl; lia.
    + destruct H as [H _]. unfold value. apply peek_tok in H as [Ht Hq].
      rewrite Ht, Hq. destruct b; simpl; repeat f_equal; lia.
    + by apply value_number.
  - intros (H0 & H1 & H2 & _) [[Hm Hoff%Z.eqb_eq]%andb_prop Hl]%andb_prop [Hp Hn]. destruct l; try done. subst off.
    unfold value. rewrite !(is_tok _ _ _ H1), !(is_tok _ _ _ H2). apply peek_tok in H0 as [Ht Hq]. rewrite Ht, Hq.
    replace (S (S (S at_))) with (at_ + 3) by lia. simpl length in *. rewrite Hp, Hn.
    unfold mem_str in Hm. simpl existsb in Hm. rewrite orb_false_r in Hm.
    apply orb_true_iff in Hm as [->%String.eqb_eq| ->%String.eqb_eq]; reflexivity.
Qed.

Lemma value_list_print vs : forall fuel acc at_,
  vs <> [] -> matches at_ (print_values vs) -> forallb value_okb vs = true ->
  no_sign (at_ + length (print_values vs)) -> is_ tokens "," (at_ + length (print_values vs)) = false ->
  length vs <= fuel -> length acc + length vs <= 200 ->
  value_list tokens fuel acc at_ = Ok (acc ++ vs, at_ + length (print_values vs)).
Proof.
  induction vs as [|v vs IH]; [done|]. intros fuel acc at_ _ Hm Hok Hns Hc Hf Hacc.
  simpl in Hok, Hf, Hacc. apply andb_prop in Hok as [Hv Hok]. destruct fuel as [|fuel]; [lia|].
  destruct vs as [|w vs].
  - simpl in *. rewrite app_nil_r in *. cbn [value_list]. rewrite (value_print _ v) by done.
    rewrite length_app. simpl. destruct (Nat.ltb_spec 200 (length acc + 1)); [lia|]. by rewrite Hc.
  - change (print_values (v :: w :: vs)) with (print_value v ++ AOp "," :: print_values (w :: vs)) in *.
    apply matches_app in Hm as [Hm1 [Hcomma Hm2]]. rewrite length_app in *. cbn [length] in *.
    cbn [value_list]. rewrite (value_print _ v); [|done|done|by apply (no_sign_tok _ _ Hcomma)].
    rewrite length_app. cbn [length]. destruct (Nat.ltb_spec 200 (length acc + 1)); [lia|].
    rewrite (is_tok _ _ _ Hcomma). cbn [atom_token fst snd negb andb].
    change (String.eqb (canonical ",") ",") with true. cbn iota.
    replace (at_ + (length (print_value v) + S (length (print_values (w :: vs)))))
      with (S (at_ + length (print_value v)) + length (print_values (w :: vs))) in * by lia.
    rewrite IH; [by rewrite <- app_assoc|done|done|done|done|done|simpl; lia|rewrite length_app; simpl; lia].
Qed.

(** * Comparisons *)

Lemma name_ok_inv f : name_ok f = true -> canonical f = f /\ f <> "" /\ atom_ok (AWord f).
Proof.
  unfold name_ok, is_word. intros [[[Hne Hw]%andb_prop Hd]%andb_prop Hc%String.eqb_eq]%andb_prop.
  apply negb_true_iff, String.eqb_neq in Hne. apply negb_true_iff in Hd.
  split_and!; [done|done|]. simpl. split_and!; [done| |done]. rewrite forallb_forall in Hw. apply Forall_forall. intros x Hx. by apply Hw, list_elem_of_In.
Qed.

Lemma print_op_parse op at_ :
  mem_str op (word_ops ++ comparison_ops) = true -> matches at_ (print_op op) ->
  (mem_str op ["is"] = true -> is_ tokens "not" (S at_) = false) ->
  quoted (peek tokens at_) = false /\
  (if String.eqb (canonical (text (peek tokens at_))) "not"
   then if is_ tokens "in" (S at_) then Ok ("not in", S (S at_)) else expected tokens "in after not" (S at_)
   else if String.eqb (canonical (text (peek tokens at_))) "is"
   then if is_ tokens "not" (S at_) then Ok ("is not", S (S at_)) else Ok ("is", S at_)
   else if mem_str (canonical (text (peek tokens at_))) comparison_ops then Ok (canonical (text (peek tokens at_)), S at_)
   else Err ("unknown operator " +:+ String double (canonical (text (peek tokens at_)) +:+ String double "; use =, !=, in, is null or ~")))
  = Ok (op, at_ + length (print_op op)).
Proof.
  intros Hop%mem_str_spec Hm His. unfold word_ops, comparison_ops in Hop. cbn [app] in Hop.
  rewrite !elem_of_cons, elem_of_nil in Hop.
  destruct_or! Hop; try done; subst op; cbn -[canonical peek is_ expected Nat.add] in *; destruct_and? Hm;
    repeat match goal with
    | H : tok (S _) _ |- _ => rewrite ?(is_tok _ _ _ H); clear H
    | H : tok _ _ |- _ => apply peek_tok in H as [-> ->]
    end; cbn -[is_ Nat.add]; (split; [done|]); try (repeat f_equal; lia).
  rewrite His by done. repeat f_equal; lia.
Qed.

Lemma print_values_not vs at_ :
  vs <> [] -> matches at_ (print_values vs) -> forallb value_okb vs = true -> is_ tokens "not" at_ = false.
Proof.
  destruct vs as [|[l f off] vs]; [done|]. intros _ Hm [Hv _]%andb_prop.
  unfold print_values in Hm. apply matches_app in Hm as [Hm _]. unfold print_value, value_okb in *. simpl in *.
  destruct (String.eqb_spec f "") as [->|Hf].
  - apply andb_prop in Hv as [_ Hv].
    destruct l as [|s|b|s]; try (destruct Hm as [Hm _]; rewrite (is_tok _ _ _ Hm); by try destruct b).
    unfold number_ok, print_number in *. apply andb_prop in Hv as [_ Hv]. destruct s as [|c w]; [done|].
    destruct (Ascii.eqb c "-"%char); destruct Hm as [Hm _]; rewrite (is_tok _ _ _ Hm); [done|].
    apply andb_prop in Hv as [_ Hv]. unfold value_names, mem_str in Hv. simpl existsb in Hv.
    rewrite !negb_orb in Hv. rewrite !andb_true_iff, !negb_true_iff in Hv. cbn [atom_token fst snd negb andb]. tauto.
  - destruct Hm as [Hm _]. rewrite (is_tok _ _ _ Hm). apply andb_prop in Hv as [[Hv _]%andb_prop _].
    unfold mem_str in Hv. simpl existsb in Hv. rewrite orb_false_r in Hv.
    apply orb_true_iff in Hv as [->%String.eqb_eq| ->%String.eqb_eq]; reflexivity.
Qed.

Lemma comparison_print f op vs at_ :
  expr_ok (ECmp f op vs) = true -> matches at_ (print 2 (ECmp f op vs)) ->
  no_sign (at_ + length (print 2 (ECmp f op vs))) ->
  comparison tokens at_ = Ok (ECmp f op vs, at_ + length (print 2 (ECmp f op vs))).
Proof.
  cbn [expr_ok print]. rewrite !andb_true_iff. intros ((((Hf & Hnf) & Hop) & Hvs) & Hlen) [H0 Hm] Hns.
  apply name_ok_inv in Hf as (Hcan & Hne & _).
  apply matches_app in Hm as [Hmop Hmv]. cbn [length] in *. rewrite length_app in *.
  assert (Hne' : vs <> []).
  { intros ->. by destruct (is_list_op op). }
  destruct (print_op_parse op (S at_) Hop Hmop) as [Hq Hparse].
  { intros His. unfold mem_str in His. simpl existsb in His. rewrite orb_false_r in His. apply String.eqb_eq in His as ->.
    apply (print_values_not vs); try done. by replace (S (S at_)) with (S at_ + length (print_op "is")) by (simpl; lia). }
  unfold mem_str in Hnf. simpl existsb in Hnf. rewrite !negb_orb in Hnf. rewrite !andb_true_iff, !negb_true_iff in Hnf.
  destruct Hnf as (N1 & N2 & N3 & N4 & _).
  apply peek_tok in H0 as [Ht Hq0]. cbn [atom_token fst snd] in *.
  unfold comparison. rewrite Ht, Hq0, Hcan, N3, N4, (proj2 (String.eqb_neq _ _) Hne), Hq. cbn [orb].
  rewrite Hparse. clear Hparse. unfold is_list_op in *.
  destruct (String.eqb op "in" || String.eqb op "not in").
  - apply andb_prop in Hlen as [_ Hlen%Nat.leb_le].
    destruct Hmv as [Hopen Hmv]. apply matches_app in Hmv as [Hmv [Hclose _]].
    rewrite (is_tok _ _ _ Hopen). cbn [atom_token fst snd negb andb]. change (String.eqb (canonical "(") "(") with true.
    cbn [negb]. rewrite (value_list_print vs); [|done|done|done| | |lia|simpl; lia].
    + rewrite (is_tok _ _ _ Hclose). cbn [atom_token fst snd negb andb app].
      change (String.eqb (canonical ")") ")") with true. cbn [negb]. repeat f_equal. cbn [length]. rewrite length_app. simpl. lia.
    + by apply (no_sign_tok _ _ Hclose).
    + by rewrite (is_tok _ _ _ Hclose).
  - destruct vs as [|v [|w vs]]; [done| |done]. simpl in Hvs. rewrite andb_true_r in Hvs.
    unfold print_values in *. simpl concat in *. rewrite app_nil_r in *.
    rewrite (value_print _ v); [|done|done|].
    + do 2 f_equal. lia.
    + at_eq Hns.
Qed.

(** * Boolean structure *)

Lemma chain_stop fuel kw mk next e at_ : is_ tokens kw at_ = false -> chain tokens fuel kw mk next e at_ = Ok (e, at_).
Proof. destruct fuel; simpl; [done|]. by intros ->. Qed.

Lemma chain_step fuel kw mk next lhs at_ rhs at1 :
  0 < fuel -> is_ tokens kw at_ = true -> next (S at_) = Ok (rhs, at1) ->
  chain tokens fuel kw mk next lhs at_ = chain tokens (pred fuel) kw mk next (mk lhs rhs) at1.
Proof. destruct fuel; [lia|]. simpl. by intros _ -> ->. Qed.

(** What an operand of [and] leaves behind: the chain of [and] with that operand
    on its left and fuel for the tokens after it. *)
Definition and_at (lvl at_ : nat) (e : Expr) (n : nat) : Prop :=
  exists fuel, length tokens <= fuel + n /\
    and_ tokens (unary tokens lvl) at_ = chain tokens fuel "and" EAnd (unary tokens lvl) e (at_ + n).
Definition or_at (lvl at_ : nat) (e : Expr) (n : nat) : Prop :=
  exists fuel, length tokens <= fuel + n /\
    or_ tokens (unary tokens lvl) at_ = chain tokens fuel "or" EOr (and_ tokens (unary tokens lvl)) e (at_ + n).

Definition parses (e : Expr) : Prop :=
  (forall lvl at_, depth 2 e <= lvl -> matches at_ (print 2 e) -> no_sign (at_ + length (print 2 e)) ->
     unary tokens lvl at_ = Ok (e, at_ + length (print 2 e))) /\
  (forall lvl at_, depth 1 e <= lvl -> matches at_ (print 1 e) -> no_sign (at_ + length (print 1 e)) ->
     and_at lvl at_ e (length (print 1 e))) /\
  (forall lvl at_, depth 0 e <= lvl -> matches at_ (print 0 e) -> no_sign (at_ + length (print 0 e)) ->
     is_ tokens "and" (at_ + length (print 0 e)) = false -> or_at lvl at_ e (length (print 0 e))).

(** An expression printed alike as an operand of [not] and of [and] is one [unary]. *)
Lemma and_of_unary lvl at_ e n : unary tokens lvl at_ = Ok (e, at_ + n) -> and_at lvl at_ e n.
Proof. intros H. exists (length tokens). split; [lia|]. unfold and_. by rewrite H. Qed.

Lemma or_of_and lvl at_ e n : and_at lvl at_ e n -> is_ tokens "and" (at_ + n) = false -> or_at lvl at_ e n.
Proof.
  intros (fuel & _ & H) Hk. exists (length tokens). split; [lia|]. unfold or_. rewrite H, chain_stop by done. done.
Qed.

Lemma unary_paren lvl at_ e l :
  matches at_ (AOp "(" :: l ++ [AOp ")"]) -> or_at lvl (S at_) e (length l) ->
  unary tokens (S lvl) at_ = Ok (e, at_ + length (AOp "(" :: l ++ [AOp ")"])).
Proof.
  intros [Hopen Hm] (fuel & _ & H). apply matches_app in Hm as [Hm [Hclose _]].
  cbn [unary]. rewrite !(is_tok _ _ _ Hopen). cbn [atom_token fst snd negb andb].
  change (String.eqb (canonical "(") "not") with false. change (String.eqb (canonical "(") "(") with true. cbn iota.
  rewrite H, chain_stop by by rewrite (is_tok _ _ _ Hclose).
  rewrite (is_tok _ _ _ Hclose). cbn [atom_token fst snd negb andb]. change (String.eqb (canonical ")") ")") with true.
  cbn [negb]. repeat f_equal. cbn [length]. rewrite length_app. simpl. lia.
Qed.

(** [l kw r] as an operand of its own connective. *)
Lemma and_chain lvl at_ l r nl nr :
  and_at lvl at_ l nl -> tok (at_ + nl) (AWord "and") -> unary tokens lvl (S (at_ + nl)) = Ok (r, S (at_ + nl) + nr) ->
  and_at lvl at_ (EAnd l r) (nl + S nr).
Proof.
  intros (fuel & Hf & H) Hkw Hr. pose proof (tok_lt _ _ Hkw). exists (pred fuel). split; [lia|].
  rewrite H, (chain_step _ _ _ _ _ _ r (S (at_ + nl) + nr)); [f_equal; lia|lia| |done].
  by rewrite (is_tok _ _ _ Hkw).
Qed.

Lemma or_chain lvl at_ l r nl nr :
  or_at lvl at_ l nl -> tok (at_ + nl) (AWord "or") -> and_at lvl (S (at_ + nl)) r nr ->
  is_ tokens "and" (S (at_ + nl) + nr) = false -> or_at lvl at_ (EOr l r) (nl + S nr).
Proof.
  intros (fuel & Hf & H) Hkw (fuel' & _ & Hr) Hk. pose proof (tok_lt _ _ Hkw). exists (pred fuel). split; [lia|].
  rewrite H, (chain_step _ _ _ _ _ _ r (S (at_ + nl) + nr)); [f_equal; lia|lia| |].
  - by rewrite (is_tok _ _ _ Hkw).
  - by rewrite Hr, chain_stop.
Qed.

(** An operand that is one [unary] in every context. *)
Lemma parses_unary e :
  print 1 e = print 2 e -> print 0 e = print 2 e -> depth 1 e = depth 2 e -> depth 0 e = depth 2 e ->
  (forall lvl at_, depth 2 e <= lvl -> matches at_ (print 2 e) -> no_sign (at_ + length (print 2 e)) ->
     unary tokens lvl at_ = Ok (e, at_ + length (print 2 e))) -> parses e.
Proof.
  intros P1 P0 D1 D0 H. unfold parses. rewrite P1, P0, D1, D0. split_and!; [done| |].
  - intros. by apply and_of_unary, H.
  - intros. apply or_of_and; [|done]. by apply and_of_unary, H.
Qed.

Lemma parses_cmp f op vs : expr_ok (ECmp f op vs) = true -> parses (ECmp f op vs).
Proof.
  intros Hok. apply parses_unary; try done. intros [|lvl] at_ Hd Hm Hns; [simpl in Hd; lia|].
  cbn [unary]. rewrite (comparison_print f op vs) by done. destruct Hm as [H0 _].
  cbn [expr_ok] in Hok. rewrite !andb_true_iff in Hok. destruct Hok as ((((Hf & Hnf) & _) & _) & _).
  apply name_ok_inv in Hf as (Hcan & Hne & Hw). rewrite !(is_tok _ _ _ H0). cbn [atom_token fst snd negb andb].
  rewrite Hcan. unfold mem_str in Hnf. simpl existsb in Hnf. rewrite negb_orb, andb_true_iff, negb_true_iff in Hnf.
  destruct Hnf as [-> _]. destruct (String.eqb_spec f "(") as [->|]; [|done].
  destruct Hw as (_ & Hw & _). by apply Forall_cons in Hw as [Hw _].
Qed.

Lemma parses_not e : parses e -> parses (ENot e).
Proof.
  intros (Hu & _ & _). apply parses_unary; try done. intros [|lvl] at_ Hd Hm Hns; [simpl in Hd; lia|].
  destruct Hm as [H0 Hm]. cbn [print length] in *. cbn [depth] in Hd. cbn [unary]. rewrite (is_tok _ _ _ H0).
  cbn [atom_token fst snd negb andb]. change (String.eqb (canonical "not") "not") with true. cbn iota.
  rewrite Hu; [do 2 f_equal; lia|lia|done|at_eq Hns].
Qed.

Lemma parses_and l r : parses l -> parses r -> parses (EAnd l r).
Proof.
  intros (_ & Hl & _) (Hr & _ & _).
  assert (Ha : forall lvl at_, depth 1 (EAnd l r) <= lvl -> matches at_ (print 1 (EAnd l r)) ->
      no_sign (at_ + length (print 1 (EAnd l r))) -> and_at lvl at_ (EAnd l r) (length (print 1 (EAnd l r)))).
  { intros lvl at_ Hd Hm Hns. simpl in Hd. cbn [print Nat.ltb Nat.leb paren] in *.
    apply matches_app in Hm as [Hm [Hkw Hm2]]. rewrite length_app in *. cbn [length] in *.
    apply and_chain; [apply Hl; [lia|done|by apply (no_sign_tok _ _ Hkw)]|done|].
    apply Hr; [lia|done|at_eq Hns]. }
  split_and!; [|exact Ha|].
  - intros [|lvl] at_ Hd Hm Hns; [simpl in Hd; lia|]. apply unary_paren; [done|].
    destruct Hm as [_ Hm]. apply matches_app in Hm as [Hm [Hclose _]].
    apply or_of_and; [|by rewrite (is_tok _ _ _ Hclose)].
    apply Ha; [simpl in *; lia|exact Hm|by apply (no_sign_tok _ _ Hclose)].
  - intros lvl at_ Hd Hm Hns Hk. apply or_of_and; [|exact Hk]. by apply Ha.
Qed.

Lemma parses_or l r : parses l -> parses r -> parses (EOr l r).
Proof.
  intros (_ & _ & Hl) (_ & Hr & _).
  assert (Ho : forall lvl at_, depth 0 (EOr l r) <= lvl -> matches at_ (print 0 (EOr l r)) ->
      no_sign (at_ + length (print 0 (EOr l r))) -> is_ tokens "and" (at_ + length (print 0 (EOr l r))) = false ->
      or_at lvl at_ (EOr l r) (length (print 0 (EOr l r)))).
  { intros lvl at_ Hd Hm Hns Hk. simpl in Hd. cbn [print Nat.ltb Nat.leb paren] in *.
    apply matches_app in Hm as [Hm [Hkw Hm2]]. rewrite length_app in *. cbn [length] in *.
    apply or_chain; [apply Hl; [lia|done|by apply (no_sign_tok _ _ Hkw)|by rewrite (is_tok _ _ _ Hkw)]|done| |].
    - apply Hr; [lia|done|at_eq Hns].
    - match type of Hk with is_ _ _ ?n = _ => by replace (S (at_ + length (print 0 l)) + length (print 1 r)) with n by lia end. }
  assert (Hu : forall lvl at_, depth 2 (EOr l r) <= lvl -> matches at_ (print 2 (EOr l r)) ->
      no_sign (at_ + length (print 2 (EOr l r))) -> unary tokens lvl at_ = Ok (EOr l r, at_ + length (print 2 (EOr l r)))).
  { intros [|lvl] at_ Hd Hm Hns; [simpl in Hd; lia|]. apply unary_paren; [done|].
    destruct Hm as [_ Hm]. apply matches_app in Hm as [Hm [Hclose _]].
    apply Ho; [simpl in *; lia|exact Hm|by apply (no_sign_tok _ _ Hclose)|by rewrite (is_tok _ _ _ Hclose)]. }
  split_and!; [exact Hu| |exact Ho]. intros. by apply and_of_unary, Hu.
Qed.

(** Every printable expression parses back in every context. *)
Lemma parses_all e : expr_ok e = true -> parses e.
Proof.
  induction e as [l IHl r IHr|l IHl r IHr|e IH|f op vs]; intros Hok.
  - apply andb_prop in Hok as [Hl Hr]. apply parses_and; auto.
  - apply andb_prop in Hok as [Hl Hr]. apply parses_or; auto.
  - apply parses_not; auto.
  - by apply parses_cmp.
Qed.

(** A printed expression starts with a word or a parenthesis other than [order]. *)
Lemma print_head e p :
  expr_ok e = true -> exists a l, print p e = a :: l /\ (atom_token a).1 <> "" /\ canonical (atom_token a).1 <> "order".
Proof.
  revert p; induction e as [l IHl r IHr|l IHl r IHr|e IH|f op vs]; intros p Hok.
  - apply andb_prop in Hok as [Hl _]. cbn [print]. destruct (1 <? p); cbn [paren].
    + eexists _, _. split; [done|]. done.
    + destruct (IHl 1 Hl) as (a & t & -> & H). by eexists _, _.
  - apply andb_prop in Hok as [Hl _]. cbn [print]. destruct (0 <? p); cbn [paren].
    + eexists _, _. split; [done|]. done.
    + destruct (IHl 0 Hl) as (a & t & -> & H). by eexists _, _.
  - cbn [print]. by eexists _, _.
  - cbn [print]. eexists _, _. split; [done|]. cbn [expr_ok] in Hok. rewrite !andb_true_iff in Hok.
    destruct Hok as ((((Hf & Hnf) & _) & _) & _). apply name_ok_inv in Hf as (Hcan & Hne & _).
    cbn [atom_token fst]. rewrite Hcan. split; [done|]. intros ->. done.
Qed.

Lemma print_first e :
  expr_ok e = true -> matches 0 (print 0 e) ->
  negb (String.eqb (text (peek tokens 0)) "") && negb (is_ tokens "order" 0) = true.
Proof.
  intros He Hm. destruct (print_head e 0 He) as (a & l & E & Hne & Hc). rewrite E in Hm. destruct Hm as [H0 _].
  rewrite (is_tok _ _ _ H0), (proj2 (String.eqb_neq _ _) Hc), andb_false_r. apply peek_tok in H0 as [-> _].
  by rewrite (proj2 (String.eqb_neq _ _) Hne).
Qed.

(** * Queries *)

Lemma peek_strip at_ t q : strip <$> tokens !! at_ = Some (t, q) -> text (peek tokens at_) = t /\ quoted (peek tokens at_) = q.
Proof. unfold peek. destruct (tokens !! at_); [|done]. simpl. by intros [= <- <-]. Qed.

Lemma parse_order q n b :
  matches n ([AWord "order"; AWord "by"; AWord (q_Order q)] ++ (if q_Desc q then [AWord "desc"] else [])) ->
  strip <$> tokens !! (n + length ([AWord "order"; AWord "by"; AWord (q_Order q)] ++ (if q_Desc q then [AWord "desc"] else [])))
    = Some ("", b) ->
  name_ok (q_Order q) = true ->
  (let* (order, desc, at5) :=
    if is_ tokens "order" n then
      if negb (is_ tokens "by" (S n)) then expected tokens "by after order" (S n)
      else
        let order := canonical (text (peek tokens (S (S n)))) in
        if quoted (peek tokens (S (S n))) || String.eqb order "" then expected tokens "an order field" (S (S n))
        else
          if is_ tokens "desc" (S (S (S n))) then Ok (order, true, S (S (S (S n))))
          else Ok (order, false, if is_ tokens "asc" (S (S (S n))) then S (S (S (S n))) else S (S (S n)))
    else Ok ("id", false, n) in
  if negb (String.eqb (text (peek tokens at5)) "") then expected tokens "and, or, or order by" at5
  else Ok (mkQuery (q_Expr q) order desc)) = Ok q.
Proof.
  intros (H0 & H1 & H2 & Hd) He (Hcan & Hne & _)%name_ok_inv. destruct q as [e order desc]. cbn [q_Expr q_Order q_Desc] in *.
  rewrite (is_tok _ _ _ H0), (is_tok _ _ _ H1). apply peek_tok in H2 as [-> ->].
  cbn [atom_token fst snd negb andb]. change (String.eqb (canonical "order") "order") with true.
  change (String.eqb (canonical "by") "by") with true. cbn [negb]. cbn zeta. rewrite Hcan, (proj2 (String.eqb_neq _ _) Hne).
  destruct desc; cbn [app length] in *.
  - destruct Hd as [H3 _]. rewrite (is_tok _ _ _ H3). cbn [orb atom_token fst snd negb andb].
    change (String.eqb (canonical "desc") "desc") with true. cbn iota.
    replace (n + 4) with (S (S (S (S n)))) in He by lia. apply peek_strip in He as [-> _]. done.
  - replace (n + 3) with (S (S (S n))) in He by lia. apply peek_strip in He as [Ht Hq]. unfold is_. rewrite Ht, Hq.
    change (String.eqb (canonical "") "desc") with false. change (String.eqb (canonical "") "asc") with false.
    rewrite !andb_false_r. cbn [orb]. by rewrite Ht.
Qed.

(** The text is read up to the first empty token, quoted or not. *)
Lemma parse_tokens_print q b :
  query_ok q = true -> matches 0 (print_query q) -> strip <$> tokens !! length (print_query q) = Some ("", b) ->
  parse_tokens tokens = Ok q.
Proof.
  unfold query_ok. intros [He Ho]%andb_prop Hm Hend. pose proof (fun n => parse_order q n b) as Horder.
  unfold print_query in *. unfold parse_tokens. destruct (q_Expr q) as [e|] eqn:Eq.
  - apply andb_prop in He as [He Hd%Nat.leb_le]. apply matches_app in Hm as [Hm Hmo]. pose proof Hmo as [H0 _].
    destruct (parses_all e He) as (_ & _ & Hor).
    destruct (Hor max_depth 0 Hd Hm) as (fuel & _ & Hp);
      [by apply (no_sign_tok _ _ H0)|by rewrite (is_tok _ _ _ H0)|].
    rewrite chain_stop in Hp by by rewrite (is_tok _ _ _ H0).
    assert (Hfirst : negb (String.eqb (text (peek tokens 0)) "") && negb (is_ tokens "order" 0) = true).
    { by apply (print_first e). }
    rewrite Hfirst, Hp. cbn [Nat.add]. apply Horder; [done| |done]. by rewrite length_app in Hend.
  - pose proof Hm as [H0 _]. rewrite (is_tok _ _ _ H0). cbn [app Nat.add] in *. rewrite andb_false_r.
    by apply Horder.
Qed.

End tokens.

(** * From text *)

Definition unparse (q : Query) : string := render (print_query q).

Lemma matches_strip toks l tail :
  strip <$> toks = (atom_token <$> l) ++ tail -> matches toks 0 l /\ strip <$> toks !! length l = tail !! 0.
Proof.
  intros E. split.
  - assert (H : forall i a, l !! i = Some a -> tok toks (0 + i) a).
    { intros i a Hi. unfold tok. simpl. rewrite <- list_lookup_fmap, E, lookup_app_l, list_lookup_fmap, Hi; [done|].
      rewrite length_fmap. by eapply lookup_lt_Some. }
    clear E. revert H. generalize 0. induction l as [|a l IH]; intros n H; simpl; [done|]. split.
    + specialize (H 0 a eq_refl). by rewrite Nat.add_0_r in H.
    + apply IH. intros i b Hi. specialize (H (S i) b Hi). by rewrite Nat.add_succ_r in H.
  - rewrite <- list_lookup_fmap, E, lookup_app_r; rewrite length_fmap; [by rewrite Nat.sub_diag|done].
Qed.

Lemma is_word_atom w : is_word w = true -> atom_ok (AWord w).
Proof.
  intros H. destruct (decide (canonical w = w)) as [E|_].
  - apply name_ok_inv. unfold name_ok. by rewrite H, E, String.eqb_refl.
  - unfold is_word in H. rewrite !andb_true_iff, !negb_true_iff in H. destruct H as ((H1 & H2) & H3).
    apply String.eqb_neq in H1. simpl. split_and!; [done| |done].
    rewrite forallb_forall in H2. apply Forall_forall. intros x Hx. by apply H2, list_elem_of_In.
Qed.

Lemma op_atom s : mem_str s ops = true -> atom_ok (AOp s).
Proof. by intros H%mem_str_spec. Qed.

Lemma print_value_ok v : value_okb v = true -> Forall atom_ok (print_value v).
Proof.
  destruct v as [l f off]. unfold value_okb, print_value. simpl. destruct (String.eqb_spec f "") as [->|Hf].
  - intros [_ H]%andb_prop. destruct l as [|s|b|s].
    + by apply Forall_singleton, is_word_atom.
    + by apply Forall_singleton.
    + by destruct b; apply Forall_singleton, is_word_atom.
    + unfold number_ok, print_number in *. apply andb_prop in H as [_ H]. destruct s as [|c w]; [done|].
      destruct (Ascii.eqb c "-"%char); [apply (Forall_cons_2 atom_ok); [by apply op_atom|by apply Forall_singleton, is_word_atom]|].
      apply andb_prop in H as [H _]. by apply Forall_singleton, is_word_atom.
  - intros [[H _]%andb_prop _]%andb_prop. unfold mem_str in H. simpl existsb in H. rewrite orb_false_r in H.
    apply orb_true_iff in H as [->%String.eqb_eq| ->%String.eqb_eq];
      repeat apply (Forall_cons_2 atom_ok); try done; try (by apply is_word_atom); by apply op_atom.
Qed.

Lemma print_values_ok vs : forallb value_okb vs = true -> Forall atom_ok (print_values vs).
Proof.
  destruct vs as [|v vs]; [done|]. simpl. intros [Hv Hvs]%andb_prop. apply Forall_app. split; [by apply print_value_ok|].
  induction vs as [|w vs IH]; [constructor|]. apply andb_prop in Hvs as [Hw Hvs]. cbn [map concat].
  apply (Forall_cons_2 atom_ok); [by apply op_atom|]. apply Forall_app. split; [by apply print_value_ok|by apply IH].
Qed.

Lemma print_op_ok op : mem_str op (word_ops ++ comparison_ops) = true -> Forall atom_ok (print_op op).
Proof.
  intros H%mem_str_spec. unfold word_ops, comparison_ops in H. cbn [app] in H. rewrite !elem_of_cons, elem_of_nil in H.
  destruct_or! H; try done; subst op; unfold print_op; cbn -[atom_ok];
    repeat apply (Forall_cons_2 atom_ok); try done; try (by apply is_word_atom); by apply op_atom.
Qed.

Lemma paren_ok b l : Forall atom_ok l -> Forall atom_ok (paren b l).
Proof.
  intros H. destruct b; [|done]. apply (Forall_cons_2 atom_ok); [by apply op_atom|]. apply Forall_app. split; [done|].
  by apply Forall_singleton, op_atom.
Qed.

Lemma print_ok e p : expr_ok e = true -> Forall atom_ok (print p e).
Proof.
  revert p; induction e as [l IHl r IHr|l IHl r IHr|e IH|f op vs]; intros p Hok; cbn [print].
  - apply andb_prop in Hok as [Hl Hr]. apply paren_ok, Forall_app. split; [auto|].
    apply (Forall_cons_2 atom_ok); [by apply is_word_atom|auto].
  - apply andb_prop in Hok as [Hl Hr]. apply paren_ok, Forall_app. split; [auto|].
    apply (Forall_cons_2 atom_ok); [by apply is_word_atom|auto].
  - apply (Forall_cons_2 atom_ok); [by apply is_word_atom|auto].
  - cbn [expr_ok] in Hok. rewrite !andb_true_iff in Hok. destruct Hok as ((((Hf & _) & Hop) & Hvs) & _).
    apply (Forall_cons_2 atom_ok); [by apply name_ok_inv|]. apply Forall_app. split; [by apply print_op_ok|].
    apply print_values_ok in Hvs. destruct (is_list_op op); [|done]. by apply (paren_ok true).
Qed.

Lemma print_query_ok q : query_ok q = true -> Forall atom_ok (print_query q).
Proof.
  unfold query_ok, print_query. intros [He Ho]%andb_prop. apply Forall_app. split.
  - destruct (q_Expr q); [|done]. apply andb_prop in He as [He _]. by apply print_ok.
  - repeat apply (Forall_cons_2 atom_ok); try (by apply is_word_atom); [by apply name_ok_inv|].
    destruct (q_Desc q); [|done]. by apply Forall_singleton, is_word_atom.
Qed.

(** The query's text, with [extra] after it, is within the limits of the lexer. *)
Definition fits (extra : list atom) (q : Query) : bool :=
  query_ok q && (String.length (render (print_query q ++ extra)) <=? 4096) &&
  valid_utf8 (render (print_query q ++ extra)) && (length (print_query q ++ extra) <=? 1024).

Lemma parse_text q extra b :
  fits extra q = true -> Forall atom_ok extra ->
  ((atom_token <$> extra) ++ [("", false)]) !! 0 = Some ("", b) ->
  Parse (render (print_query q ++ extra)) = Ok q.
Proof.
  unfold fits. rewrite !andb_true_iff, !Nat.leb_le. intros (((Hok & Hlen) & Hv) & Hn) Hx H0.
  destruct (lex_render (print_query q ++ extra)) as (toks & Hlex & Hs); [|done..|].
  { apply Forall_app. split; [by apply print_query_ok|done]. }
  unfold Parse. rewrite Hlex. rewrite fmap_app, <- app_assoc in Hs. apply matches_strip in Hs as [Hm He].
  apply (parse_tokens_print _ _ b); [done|done|]. by rewrite He.
Qed.

(** C21. Parsing inverts printing: every printable query, printed with only the
    parentheses its precedences need (not over and over or, all left
    associative), parses back to itself, quoting and escapes included. *)
Theorem Parse_unparse q : fits [] q = true -> Parse (unparse q) = Ok q.
Proof. intros H. unfold unparse. rewrite <- (app_nil_r (print_query q)). by apply (parse_text _ _ false). Qed.

Definition sample_query : Query :=
  mkQuery (Some (EAnd (EOr (ECmp "title" "=" [lit (LStr (of_chars ["a"%char; double; backslash]))])
                           (EAnd (ECmp "status" "not in" [lit (LStr "or"); lit (LNum "-2.5")]) (ECmp "due_date" "<" [mkValue LNil "now" 0])))
                      (ENot (ENot (ECmp "parent" "is not" [lit LNil]))))) "rank" true.

Lemma Parse_unparse_witness : Parse (unparse sample_query) = Ok sample_query.
Proof. pose proof (Parse_unparse sample_query) as H. apply H. vm_compute. reflexivity. Defined.

(** An empty quoted literal ends the query: whatever follows it is lexed and
    then ignored, so a query with anything after an empty literal is accepted
    as the query before it. *)
Theorem Parse_empty_literal q tail :
  fits (AQuoted "" :: tail) q = true -> Forall atom_ok tail ->
  Parse (render (print_query q ++ AQuoted "" :: tail)) = Ok q.
Proof. intros H Ht. apply (parse_text _ _ true); [done|by constructor|done]. Qed.

Lemma Parse_empty_literal_witness :
  Parse (render (print_query sample_query ++ [AQuoted ""; AWord "and"; AOp ")"; AWord "status"])) = Ok sample_query.
Proof.
  pose proof (Parse_empty_literal sample_query [AWord "and"; AOp ")"; AWord "status"]) as H. apply H.
  - vm_compute. reflexivity.
  - repeat constructor; set_solver.
Defined.


End Print.
