(* ===== verification/SxqProps.v ===== *)
(** What the query language promises: literals never reach the SQL text, project
    narrowing loses no row, the suggestion distance is the edit distance, the
    lexer always answers. *)
From S2P Require Import Prelude Uuid DateTime Utf8 Float SxqLexer SxqParser SxqCompile.
Open Scope nat_scope.

Module SxqProps.
Import Lexer Parser Compile.

(** * The lexer answers *)

(** The lexer ends on every input, with fuel for one round per byte. *)
Theorem lex_total input : exists r, lex_fuel (String.length input) input = Some r.
Proof.
  unfold lex_fuel. destruct (_ <? _); [by eexists|]. destruct (negb _); [by eexists|].
  destruct (lex_loop_total (String.length input) (chars input) 0 []) as [r ->]; [by rewrite length_chars|].
  by destruct r; eexists.
Qed.

(** * Project narrowing *)

(** SQL's three-valued logic, [None] for NULL. *)
Definition and3 (a b : option bool) : option bool :=
  match a, b with
  | Some false, _ | _, Some false => Some false
  | Some true, Some true => Some true
  | _, _ => None
  end.
Definition or3 (a b : option bool) : option bool :=
  match a, b with
  | Some true, _ | _, Some true => Some true
  | Some false, Some false => Some false
  | _, _ => None
  end.

(** The truth of an expression for one row, given that of its comparisons. *)
Fixpoint truth (cmp : string -> string -> list Value -> option bool) (e : Expr) : option bool :=
  match e with
  | EAnd l r => and3 (truth cmp l) (truth cmp r)
  | EOr l r => or3 (truth cmp l) (truth cmp r)
  | ENot e => negb <$> truth cmp e
  | ECmp f op vs => cmp f op vs
  end.

(** The row's project is [key]: a comparison with project keys holds only if one
    of them is [key]. *)
Definition project_row (key : string) (cmp : string -> string -> list Value -> option bool) : Prop :=
  forall op vs ks, op = "=" \/ op = "in" -> string_literals vs = Some ks -> cmp "project" op vs = Some true -> key ∈ ks.

(** Narrowing is sound: a row for which the filter holds, under SQL's
    three-valued logic, is in one of the projects [ProjectKeys] names, whenever
    it names any. *)
Theorem ProjectKeys_sound q e key cmp :
  q_Expr q = Some e -> project_row key cmp -> truth cmp e = Some true -> ProjectKeys q <> [] -> key ∈ ProjectKeys q.
Proof.
  intros Hq Hrow Ht. unfold ProjectKeys. rewrite Hq. clear Hq. revert Ht.
  induction e as [l IHl r IHr|l IHl r IHr|e IH|f op vs]; cbn [truth projectKeys]; intros Ht Hne.
  - unfold and3 in Ht. destruct (truth cmp l) as [[]|], (truth cmp r) as [[]|]; try done.
    destruct (projectKeys l) as [|k ks]; [by apply IHr|by apply IHl].
  - destruct (projectKeys l) as [|k ks]; [done|]. destruct (projectKeys r) as [|k' ks']; [done|].
    apply elem_of_app. unfold or3 in Ht.
    destruct (truth cmp l) as [[]|]; [by left; apply IHl| |];
      destruct (truth cmp r) as [[]|]; try done; by right; apply IHr.
  - done.
  - destruct (String.eqb_spec f "project") as [->|]; [|done]. cbn [andb] in *.
    destruct (String.eqb op "=" || String.eqb op "in") eqn:Hop; [|done].
    destruct (string_literals vs) as [ks|] eqn:Hks; [|done].
    apply (Hrow op vs); [|done|done]. apply orb_true_iff in Hop as [->%String.eqb_eq| ->%String.eqb_eq]; auto.
Qed.

Definition key_cmp (key f op : string) (vs : list Value) : option bool :=
  if String.eqb f "project" then (fun ks => mem_str key ks) <$> string_literals vs else None.

Lemma ProjectKeys_sound_witness :
  "B" ∈ ProjectKeys (mkQuery (Some (EAnd (EOr (ECmp "project" "=" [lit (LStr "A")]) (ECmp "project" "in" [lit (LStr "B")]))
     (ENot (EAnd (ECmp "project" "=" [lit (LStr "C")]) (ECmp "title" "=" [lit (LStr "t")]))))) "id" false).
Proof.
  eapply ProjectKeys_sound with (cmp := key_cmp "B").
  - reflexivity.
  - intros op vs ks _ Hks H. unfold key_cmp in H. cbn [String.eqb Ascii.eqb Bool.eqb] in H. rewrite Hks in H. simpl in H.
    injection H as H. by apply mem_str_spec.
  - reflexivity.
  - discriminate.
Defined.

(** * The edit distance *)

(** [edits a b n]: [n] insertions, deletions and replacements turn [a] into [b]. *)
Inductive edits : list ascii -> list ascii -> nat -> Prop :=
  | edits_nil : edits [] [] 0
  | edits_keep c a b n : edits a b n -> edits (c :: a) (c :: b) n
  | edits_replace c d a b n : edits a b n -> edits (c :: a) (d :: b) (S n)
  | edits_delete c a b n : edits a b n -> edits (c :: a) b (S n)
  | edits_insert d a b n : edits a b n -> edits a (d :: b) (S n).

Lemma edits_app a b n a' b' n' : edits a b n -> edits a' b' n' -> edits (a ++ a') (b ++ b') (n + n').
Proof. intros H H'. induction H; simpl; [done|constructor; done..]. Qed.

Lemma edits_one n a b : edits a b n -> edits (rev a) (rev b) n.
Proof.
  induction 1 as [|c a b n _ IH|c d a b n _ IH|c a b n _ IH|d a b n _ IH]; simpl; [constructor| | | |].
  - replace n with (n + 0) by lia. apply edits_app; [done|]. repeat constructor.
  - replace (S n) with (n + 1) by lia. apply edits_app; [done|]. repeat constructor.
  - replace (S n) with (n + 1) by lia. rewrite <- (app_nil_r (rev b)). apply edits_app; [done|]. repeat constructor.
  - replace (S n) with (n + 1) by lia. rewrite <- (app_nil_r (rev a)). apply edits_app; [done|]. repeat constructor.
Qed.

Definition cost (c d : ascii) : nat := if Ascii.eqb c d then 0 else 1.

(** The recursive definition of the distance. *)
Fixpoint lev (a : list ascii) : list ascii -> nat :=
  fix inner (b : list ascii) : nat :=
    match a, b with
    | [], _ => length b
    | _, [] => length a
    | c :: a', d :: b' => Nat.min (Nat.min (inner b' + 1) (lev a' b + 1)) (lev a' b' + cost c d)
    end.

Lemma lev_cons c a d b :
  lev (c :: a) (d :: b) = Nat.min (Nat.min (lev (c :: a) b + 1) (lev a (d :: b) + 1)) (lev a b + cost c d).
Proof. reflexivity. Qed.
Lemma lev_nil_r a : lev a [] = length a.
Proof. by destruct a. Qed.
Lemma lev_nil_l b : lev [] b = length b.
Proof. by destruct b. Qed.

Lemma edits_delete_all a : edits a [] (length a).
Proof. induction a; simpl; constructor; done. Qed.
Lemma edits_insert_all b : edits [] b (length b).
Proof. induction b; simpl; constructor; done. Qed.

Lemma lev_edits a b : edits a b (lev a b).
Proof.
  revert b; induction a as [|c a IHa]; intros b; [rewrite lev_nil_l; apply edits_insert_all|].
  induction b as [|d b IHb]; [rewrite lev_nil_r; apply edits_delete_all|]. rewrite lev_cons.
  destruct (Nat.min_spec (Nat.min (lev (c :: a) b + 1) (lev a (d :: b) + 1)) (lev a b + cost c d)) as [[_ ->]|[_ ->]].
  - destruct (Nat.min_spec (lev (c :: a) b + 1) (lev a (d :: b) + 1)) as [[_ ->]|[_ ->]]; rewrite Nat.add_1_r.
    + by apply edits_insert.
    + by apply edits_delete.
  - unfold cost. destruct (Ascii.eqb_spec c d) as [->|].
    + rewrite Nat.add_0_r. by apply edits_keep.
    + rewrite Nat.add_1_r. by apply edits_replace.
Qed.

Lemma lev_least a b n : edits a b n -> lev a b <= n.
Proof.
  induction 1 as [|c a b n _ IH|c d a b n _ IH|c a b n _ IH|d a b n _ IH]; [done| | | |].
  - rewrite lev_cons. unfold cost. rewrite Ascii.eqb_refl. lia.
  - rewrite lev_cons. unfold cost. destruct (Ascii.eqb c d); lia.
  - destruct b as [|d b]; [rewrite lev_nil_r in *; simpl; lia|]. rewrite lev_cons. lia.
  - destruct a as [|c a]; [rewrite lev_nil_l in *; simpl; lia|]. rewrite lev_cons. lia.
Qed.

(** The table's row for the prefix [a], reversed, against the prefixes of [b] that
    extend [pre]. *)
Definition row (a pre b : list ascii) : list nat := (fun j => lev a (rev (take j b) ++ pre)) <$> seq 0 (S (length b)).

Lemma row_cons a pre d b : row a pre (d :: b) = lev a pre :: row a (d :: pre) b.
Proof.
  unfold row. cbn [length]. rewrite <- (cons_seq (S (length b)) 0), fmap_cons. f_equal.
  rewrite <- fmap_S_seq, <- list_fmap_compose. apply list_fmap_ext. intros j x _. simpl. by rewrite <- app_assoc.
Qed.

Lemma row_head a pre b : exists l, row a pre b = lev a pre :: l.
Proof. by eexists. Qed.

Lemma distance_row_spec c a b pre :
  lev (c :: a) pre :: distance_row c b (row a pre b) (lev (c :: a) pre) = row (c :: a) pre b.
Proof.
  revert pre; induction b as [|d b IH]; intros pre; [reflexivity|].
  rewrite !row_cons. f_equal. destruct (row_head a (d :: pre) b) as [l Hl]. rewrite Hl. cbn [distance_row].
  fold (cost c d). rewrite <- lev_cons, <- Hl. apply IH.
Qed.

Lemma distance_rows_spec a b pre i :
  i = length pre -> distance_rows a b i (row pre [] b) = row (rev a ++ pre) [] b.
Proof.
  revert pre i; induction a as [|c a IH]; intros pre i ->; [done|]. cbn [distance_rows rev].
  rewrite <- app_assoc. cbn [app]. rewrite <- (IH (c :: pre) (S (length pre))) by done. f_equal.
  rewrite <- (distance_row_spec c pre b []). by rewrite lev_nil_r.
Qed.

Lemma row_start b : row [] [] b = seq 0 (S (length b)).
Proof.
  unfold row. transitivity (id <$> seq 0 (S (length b))); [|by rewrite list_fmap_id].
  apply list_fmap_ext. intros j x Hx. apply lookup_seq in Hx as [-> Hx]. simpl.
  rewrite app_nil_r, lev_nil_l, length_rev, length_take. lia.
Qed.

Lemma distance_lev a b : distance a b = lev (rev (chars a)) (rev (chars b)).
Proof.
  unfold distance. rewrite <- length_chars, <- row_start, (distance_rows_spec _ _ [] 0) by done. rewrite app_nil_r.
  unfold row. rewrite seq_S, fmap_app. cbn [fmap list_fmap]. rewrite last_snoc, app_nil_r. by rewrite take_ge by (simpl; lia).
Qed.

(** The distance that ranks field suggestions is the edit distance: that many
    single-character edits turn one text into the other, and fewer do not. *)
Theorem distance_edits a b :
  edits (chars a) (chars b) (distance a b) /\ forall n, edits (chars a) (chars b) n -> distance a b <= n.
Proof.
  rewrite distance_lev. split.
  - pose proof (edits_one _ _ _ (lev_edits (rev (chars a)) (rev (chars b)))) as H. by rewrite !rev_involutive in H.
  - intros n H. by apply lev_least, edits_one.
Qed.

(** * Literals do not reach the SQL text *)

Section shape.
Context `{UuidParse} (clock : Z) (options : Options).

(** A value without its content: null, or something else. *)
Definition shape_value (v : Value) : Value := if is_null v then lit LNil else lit (LStr "").
Fixpoint shape (e : Expr) : Expr :=
  match e with
  | EAnd l r => EAnd (shape l) (shape r)
  | EOr l r => EOr (shape l) (shape r)
  | ENot e => ENot (shape e)
  | ECmp f op vs => ECmp f op (shape_value <$> vs)
  end.

Lemma shape_null v w : shape_value v = shape_value w -> is_null v = is_null w.
Proof. unfold shape_value. by destruct (is_null v), (is_null w). Qed.

(** Two compilations agree: the same text, as many arguments. *)
Definition agree {A} (r1 r2 : A * list arg) : Prop := r1.1 = r2.1 /\ length r1.2 = length r2.2.

Lemma param_agree v w a b : length a = length b -> agree (param options v a) (param options w b).
Proof. intros H1. unfold param, agree. simpl. by rewrite !length_app, H1. Qed.

Lemma uuid_params_agree ids a b : length a = length b -> agree (uuid_params options ids a) (uuid_params options ids b).
Proof.
  revert a b; induction ids as [|id ids IH]; intros a b Hab; cbn [uuid_params]; [done|].
  destruct (param_agree (AStr id) (AStr id) a b Hab) as [Hp Hl].
  destruct (param options (AStr id) a) as [p a1], (param options (AStr id) b) as [p' b1]. simpl in *. subst p'.
  destruct (IH a1 b1 Hl) as [H1 H2].
  destruct (uuid_params options ids a1) as [ps a2], (uuid_params options ids b1) as [ps' b2]. simpl in *.
  split; simpl; congruence.
Qed.

Lemma field_agree name a b f1 f2 :
  length a = length b -> field options name a = Ok f1 -> field options name b = Ok f2 -> agree f1 f2.
Proof.
  intros Hab. unfold field. destruct (assoc name Fields); [by intros [= <-] [= <-]|].
  destruct (has_prefix _ _); [|done]. destruct (Custom options !! _) as [[|d defs]|]; [done| |done].
  destruct (negb _); [done|]. set (ids := sort_strings _).
  destruct (uuid_params_agree ids a b Hab) as [Hp Hl].
  destruct (uuid_params options ids a) as [p a1], (uuid_params options ids b) as [p' b1]. simpl in Hp, Hl. subst p'.
  set (k := AStr (str_drop 7 name)). destruct (param_agree k k a1 b1 Hl) as [Hp2 Hl2].
  destruct (param options k a1) as [q a2], (param options k b1) as [q' b2]. simpl in Hp2, Hl2. subst q'.
  destruct (custom_cast _) as [[cast typ]|]; [|done]. by intros [= <-] [= <-].
Qed.

Lemma params_agree fname kind vs ws a b p1 p2 :
  length vs = length ws -> length a = length b ->
  params_of clock options fname kind vs a = Ok p1 -> params_of clock options fname kind ws b = Ok p2 -> agree p1 p2.
Proof.
  revert ws a b p1 p2; induction vs as [|v vs IH]; intros [|w ws] a b p1 p2 Hn Hab; try done; cbn [params_of].
  - by intros [= <-] [= <-].
  - destruct (Compile.value clock options v kind) as [x|]; [|done].
    destruct (Compile.value clock options w kind) as [y|]; [|done].
    destruct (param_agree x y a b Hab) as [Hp Hl].
    destruct (param options x a) as [p a1], (param options y b) as [p' b1]. simpl in Hp, Hl. subst p'.
    destruct (params_of clock options fname kind vs a1) as [[ps a2]|] eqn:E1; [|done].
    destruct (params_of clock options fname kind ws b1) as [[qs b2]|] eqn:E2; [|done].
    intros [= <-] [= <-]. destruct (IH ws a1 b1 _ _ ltac:(by injection Hn) Hl E1 E2) as [H1 H2]. simpl in *.
    split; simpl; [by rewrite H1|done].
Qed.

Lemma comparison_agree fname op vs ws a b r1 r2 :
  shape_value <$> vs = shape_value <$> ws -> length a = length b ->
  Compile.comparison clock options fname op vs a = Ok r1 -> Compile.comparison clock options fname op ws b = Ok r2 ->
  agree r1 r2.
Proof.
  intros Hs Hab. unfold Compile.comparison.
  destruct (field options fname a) as [[f a1]|] eqn:E1; [|done].
  destruct (field options fname b) as [[f' b1]|] eqn:E2; [|done].
  destruct (field_agree _ _ _ _ _ Hab E1 E2) as [Hf Hl]. simpl in Hf, Hl. subst f'.
  assert (Hlen : length vs = length ws) by (apply (f_equal length) in Hs; by rewrite !length_fmap in Hs).
  destruct vs as [|v vs]; [done|]. destruct ws as [|w ws]; [done|].
  rewrite !fmap_cons in Hs. injection Hs as Hv _. apply shape_null in Hv. rewrite <- Hv.
  destruct (String.eqb op "~" || String.eqb op ":").
  { destruct (negb _); [done|]. destruct (Literal v) as [|x| |], (Literal w) as [|y| |]; try done.
    destruct (param_agree (AStr x) (AStr y) a1 b1 Hl) as [Hp Hl2].
    destruct (param options (AStr x) a1) as [p a2], (param options (AStr y) b1) as [p' b2]. simpl in Hp, Hl2. subst p'.
    by intros [= <-] [= <-]. }
  destruct (String.eqb (Kind f) "search"); [done|].
  destruct (_ || _ || _).
  { destruct (negb (is_null v)); [done|]. destruct (_ || _); by intros [= <-] [= <-]. }
  destruct (is_null v); [done|]. destruct (String.eqb (Kind f) "array"); [done|].
  destruct (sql_op op) as [sop|]; [|done].
  destruct (params_of clock options fname (Kind f) (v :: vs) a1) as [[ps a2]|] eqn:P1; [|done].
  destruct (params_of clock options fname (Kind f) (w :: ws) b1) as [[qs b2]|] eqn:P2; [|done].
  destruct (params_agree _ _ _ _ _ _ _ _ Hlen Hl P1 P2) as [Hp Hl2]. simpl in Hp, Hl2. subst qs.
  destruct (_ || _); by intros [= <-] [= <-].
Qed.

(** Both operands agree, so what a connective makes of them does. *)
Lemma binary_agree l r l2 r2 (mk : string -> string -> string) a b p1 p2 :
  (forall a b p1 p2, length a = length b -> expr clock options l a = Ok p1 -> expr clock options l2 b = Ok p2 -> agree p1 p2) ->
  (forall a b p1 p2, length a = length b -> expr clock options r a = Ok p1 -> expr clock options r2 b = Ok p2 -> agree p1 p2) ->
  length a = length b ->
  (let* (x, args) := expr clock options l a in let* (y, args) := expr clock options r args in Ok (mk x y, args)) = Ok p1 ->
  (let* (x, args) := expr clock options l2 b in let* (y, args) := expr clock options r2 args in Ok (mk x y, args)) = Ok p2 ->
  agree p1 p2.
Proof.
  intros Hl Hr Hab.
  destruct (expr clock options l a) as [[x a1]|] eqn:E1; [|done].
  destruct (expr clock options l2 b) as [[x' b1]|] eqn:E2; [|by intros _].
  destruct (Hl _ _ _ _ Hab E1 E2) as [Hx Hl1]. simpl in Hx, Hl1. subst x'.
  destruct (expr clock options r a1) as [[y a2]|] eqn:E3; [|done].
  destruct (expr clock options r2 b1) as [[y' b2]|] eqn:E4; [|by intros _].
  destruct (Hr _ _ _ _ Hl1 E3 E4) as [Hy Hl2]. simpl in Hy, Hl2. subst y'. by intros [= <-] [= <-].
Qed.

Lemma expr_agree e1 : forall e2 a b r1 r2,
  shape e1 = shape e2 -> length a = length b ->
  expr clock options e1 a = Ok r1 -> expr clock options e2 b = Ok r2 -> agree r1 r2.
Proof.
  induction e1 as [l IHl r IHr|l IHl r IHr|e IH|f op vs]; intros [l2 r'|l2 r'|e2|f2 op2 vs2] a b r1 r2 Hs Hab; try done;
    cbn [shape expr] in *.
  - injection Hs as Hs1 Hs2. apply (binary_agree l r l2 r' (fun x y => "(" +:+ x +:+ " AND " +:+ y +:+ ")")); [eauto..|done].
  - injection Hs as Hs1 Hs2. apply (binary_agree l r l2 r' (fun x y => "(" +:+ x +:+ " OR " +:+ y +:+ ")")); [eauto..|done].
  - injection Hs as Hs.
    destruct (expr clock options e a) as [[x a1]|] eqn:E1; [|done].
    destruct (expr clock options e2 b) as [[x' b1]|] eqn:E2; [|by intros _].
    destruct (IH _ _ _ _ _ Hs Hab E1 E2) as [Hx Hl1]. simpl in Hx, Hl1. subst x'. by intros [= <-] [= <-].
  - injection Hs as -> -> Hs. by apply comparison_agree.
Qed.

(** C20. Literals are never part of the SQL text: two queries that differ only in
    the content of their literals (quoted text, numbers, dates, users) compile, if
    both compile, to the same WHERE and ORDER BY text with as many arguments. *)
Theorem Compile_injection_free q1 q2 p1 p2 :
  shape <$> q_Expr q1 = shape <$> q_Expr q2 -> q_Order q1 = q_Order q2 ->
  Compile clock options q1 = Ok p1 -> Compile clock options q2 = Ok p2 ->
  Where p1 = Where p2 /\ OrderExpr p1 = OrderExpr p2 /\ OrderKind p1 = OrderKind p2 /\ length (Args p1) = length (Args p2).
Proof.
  intros Hs Ho. unfold Compile. rewrite Ho.
  set (w1 := match q_Expr q1 with None => _ | Some e => _ end).
  set (w2 := match q_Expr q2 with None => _ | Some e => _ end).
  assert (Hw : forall r1 r2, w1 = Ok r1 -> w2 = Ok r2 -> agree r1 r2).
  { unfold w1, w2. intros r1 r2. destruct (q_Expr q1) as [e1|], (q_Expr q2) as [e2|]; try done.
    - injection Hs as Hs. by apply expr_agree.
    - by intros [= <-] [= <-]. }
  destruct w1 as [[s1 a1]|]; [|done]. destruct w2 as [[s2 a2]|]; [|by intros _].
  destruct (Hw _ _ eq_refl eq_refl) as [H1 H2]. simpl in H1, H2. subst s2.
  destruct (field options (q_Order q2) a1) as [[f b1]|] eqn:E1; [|done].
  destruct (field options (q_Order q2) a2) as [[f' b2]|] eqn:E2; [|by intros _].
  destruct (field_agree _ _ _ _ _ H2 E1 E2) as [Hf Hl]. simpl in Hf, Hl. subst f'.
  destruct (_ || _); [done|]. by intros [= <-] [= <-].
Qed.

End shape.

Definition plan_of (e : Expr) : result string Plan := Compile 0 golden_options (mkQuery (Some e) "rank" false).
Definition attack : string := "x' OR 1=1 --".

Lemma Compile_injection_free_witness :
  exists p1 p2, plan_of (ECmp "title" "=" [lit (LStr "a")]) = Ok p1 /\ plan_of (ECmp "title" "=" [lit (LStr attack)]) = Ok p2 /\
    Where p1 = Where p2 /\ OrderExpr p1 = OrderExpr p2 /\ OrderKind p1 = OrderKind p2 /\ length (Args p1) = length (Args p2).
Proof.
  pose proof (Compile_injection_free 0 golden_options (mkQuery (Some (ECmp "title" "=" [lit (LStr "a")])) "rank" false)
    (mkQuery (Some (ECmp "title" "=" [lit (LStr attack)])) "rank" false)) as H.
  eexists _, _. split; [vm_compute; reflexivity|]. split; [vm_compute; reflexivity|].
  apply H; vm_compute; reflexivity.
Defined.

End SxqProps.
