(* ===== verification/Db.v ===== *)
(** The PostgreSQL tables the store writes and the statements it issues on them:
    [internal/store/query/*.sql] (compiled into [store/gen/*.sql.go]) and the
    constraints and triggers of the migrations. A statement returns the new state
    or the error class pgx reports; a failed statement aborts its transaction, so
    its state is not kept. Timestamps are not kept; row-level security and
    operator restrictions are assumed to hide nothing. *)
From S2P Require Import Prelude Uuid Ltree Float Json.
Import Ltree.
Open Scope Z_scope.

Module Db.

(** * Errors *)

(** [pgx.ErrNoRows], or a [*pgconn.PgError] with its SQLSTATE. *)
Inductive dberr :=
  | NoRows
  | PgError (code : string).

Definition unique_violation := PgError "23505".
Definition fk_violation := PgError "23503".
Definition check_violation := PgError "23514".
Definition numeric_overflow := PgError "22003".
Definition raise_exception := PgError "P0001".
(** A parameter with U+0000 is refused before its statement runs. *)
Definition bad_text := PgError "22021".

(** * Rows *)

(** [item] *)
Record Item := mkItem {
  i_id : uuid;
  i_workspace : uuid;
  i_project : uuid;
  i_key : string;
  i_type : uuid;
  i_status : uuid;
  i_config_version : Z;
  i_parent : option uuid;
  i_path : string;
  i_title : string;
  i_body : option string;
  i_assignee : option uuid;
  i_points : option Z;            (* numeric(6,2), in hundredths *)
  i_start : option Z;             (* date, in days *)
  i_due : option Z;
  i_rank : string;
  i_fields : json;
  i_version : Z;                  (* int *)
  i_change_seq : Z;               (* bigint *)
  i_origin : uuid;
  i_origin_seq : option Z;
  i_deleted : bool                (* deleted_at IS NOT NULL *)
}.

(** [item_rollup] *)
Record Rollup := mkRollup {
  descendant_count : Z;
  done_count : Z;
  points_total : option Z;
  points_done : option Z;
  earliest_start : option Z;
  latest_due : option Z
}.
#[export] Instance Rollup_eq_dec : EqDecision Rollup.
Proof. solve_decision. Defined.

(** [item_link] *)
Record Link := mkLink {
  l_from : uuid;
  l_to : uuid;
  l_kind : string;
  l_created_by : option uuid
}.

(** [comment] *)
Record Comment := mkComment {
  c_item : uuid;
  c_author : uuid;
  c_body : string;
  c_edited : bool;
  c_deleted : bool
}.

(** [change_event] *)
Record Event := mkEvent {
  e_workspace : uuid;
  e_seq : Z;
  e_item : option uuid;
  e_actor : option uuid;
  e_kind : string;
  e_field : option string;
  e_old : option json;
  e_new : option json
}.

(** [project], [status], [item_type] *)
Record Project := mkProject {
  p_workspace : uuid;
  p_key_prefix : string;
  p_next_key_num : Z
}.
Record Status := mkStatus { s_project : uuid; s_key : string; s_category : string }.
Record ItemType := mkItemType { t_project : uuid; t_key : string; t_level : Z; t_is_idea : bool }.

Record Db := mkDb {
  seq_counter : gmap uuid Z;
  items : gmap uuid Item;
  rollups : gmap uuid Rollup;
  links : gmap uuid Link;
  comments : gmap uuid Comment;
  events : list Event;            (* in insertion order *)
  projects : gmap uuid Project;
  statuses : gmap uuid Status;
  item_types : gmap uuid ItemType;
  project_configs : gset (uuid * Z);
  users : gset uuid
}.

Definition set_seq_counter x db := mkDb x (items db) (rollups db) (links db) (comments db) (events db) (projects db) (statuses db) (item_types db) (project_configs db) (users db).
Definition set_items x db := mkDb (seq_counter db) x (rollups db) (links db) (comments db) (events db) (projects db) (statuses db) (item_types db) (project_configs db) (users db).
Definition set_rollups x db := mkDb (seq_counter db) (items db) x (links db) (comments db) (events db) (projects db) (statuses db) (item_types db) (project_configs db) (users db).
Definition set_links x db := mkDb (seq_counter db) (items db) (rollups db) x (comments db) (events db) (projects db) (statuses db) (item_types db) (project_configs db) (users db).
Definition set_comments x db := mkDb (seq_counter db) (items db) (rollups db) (links db) x (events db) (projects db) (statuses db) (item_types db) (project_configs db) (users db).
Definition set_events x db := mkDb (seq_counter db) (items db) (rollups db) (links db) (comments db) x (projects db) (statuses db) (item_types db) (project_configs db) (users db).
Definition set_projects x db := mkDb (seq_counter db) (items db) (rollups db) (links db) (comments db) (events db) x (statuses db) (item_types db) (project_configs db) (users db).

(** * Widths *)

(** An [int] (or [bigint]) column or expression: out of range is an error. *)
Definition int4 (z : Z) : result dberr Z := if in_int32 z then Ok z else Err numeric_overflow.
Definition int8 (z : Z) : result dberr Z := if in_int64 z then Ok z else Err numeric_overflow.
(** [numeric(p, 2)] in hundredths. *)
Definition numeric2 (p : Z) (z : option Z) : result dberr (option Z) :=
  match z with
  | Some v => if Z.abs v <? 10 ^ p then Ok z else Err numeric_overflow
  | None => Ok None
  end.

(** * seq_counter (workspace.sql) *)

Definition AllocateSeq (n : Z) (ws : uuid) (db : Db) : result dberr (Z * Db) :=
  match seq_counter db !! ws with
  | None => Err NoRows
  | Some v =>
      let* v' := int8 (v + n) in
      Ok (v', set_seq_counter (<[ws := v']> (seq_counter db)) db)
  end.

(** * project (config.sql) *)

Definition z_text (z : Z) : string := if z <? 0 then "-" +:+ itoa (Z.to_nat (- z)) else itoa (Z.to_nat z).

Definition NextItemKey (project : uuid) (db : Db) : result dberr (string * Db) :=
  match projects db !! project with
  | None => Err NoRows
  | Some p =>
      let* next := int4 (p_next_key_num p + 1) in
      Ok (p_key_prefix p +:+ "-" +:+ z_text (p_next_key_num p),
          set_projects (<[project := mkProject (p_workspace p) (p_key_prefix p) next]> (projects db)) db)
  end.

(** [coalesce(max(version), 0)] *)
Definition LatestConfigVersion (project : uuid) (db : Db) : Z :=
  match (fun pv : uuid * Z => pv.2) <$> List.filter (fun pv => bool_decide (pv.1 = project)) (elements (project_configs db)) with
  | [] => 0
  | v :: vs => fold_right Z.max v vs
  end.

(** * item (item.sql) *)

Definition GetItem (id : uuid) (db : Db) : result dberr Item :=
  match items db !! id with Some i => Ok i | None => Err NoRows end.

(** The last label of a path and the one before it. *)
Definition last_label (p : string) : option string := last (labels p).
Definition penultimate_label (p : string) : option string := last (removelast (labels p)).

(** The trigger [item_path_check]; [old] is the row before an UPDATE. *)
Definition item_path_check (old : option Item) (new : Item) (db : Db) : result dberr unit :=
  let depth := nlevel (i_path new) in
  guard* (depth <=? 8)%nat else check_violation in
  guard* bool_decide (last_label (i_path new) = Some (uuid_string (i_id new))) else check_violation in
  let* _ :=
    match i_parent new with
    | None => if (depth =? 1)%nat then Ok tt else Err check_violation
    | Some p =>
        if (2 <=? depth)%nat && bool_decide (penultimate_label (i_path new) = Some (uuid_string p))
        then Ok tt else Err check_violation
    end in
  match old, i_parent new with
  | Some o, Some p =>
      if bool_decide (i_parent new = i_parent o) then Ok tt
      else match items db !! p with
           | Some pi => if contained (i_path pi) (i_path o) then Err check_violation else Ok tt
           | None => Ok tt
           end
  | _, _ => Ok tt
  end.

Definition ref_ok {A} (m : gmap uuid A) (o : option uuid) : bool :=
  match o with None => true | Some k => bool_decide (is_Some (m !! k)) end.

(** The foreign keys of an item row. *)
Definition item_fks (i : Item) (db : Db) : bool :=
  bool_decide (is_Some (projects db !! i_project i)) &&
  ref_ok (items db) (i_parent i) &&
  match i_assignee i with None => true | Some u => bool_decide (u ∈ users db) end &&
  match statuses db !! i_status i with Some s => bool_decide (s_project s = i_project i) | None => false end &&
  match item_types db !! i_type i with Some t => bool_decide (t_project t = i_project i) | None => false end &&
  bool_decide ((i_project i, i_config_version i) ∈ project_configs db).

(** The checks on the columns of one row: title length, numeric width. [length]
    counts characters. *)
Definition char_count (s : string) : nat :=
  length (List.filter (fun c => negb ((128 <=? byte_of c) && (byte_of c <? 192))%nat) (chars s)).
Definition title_ok (t : string) : bool := (1 <=? char_count t)%nat && (char_count t <=? 500)%nat.

Definition other_items (id : uuid) (db : Db) : list Item := (map_to_list (delete id (items db))).*2.

(** [UNIQUE (workspace_id, key)] and [UNIQUE (project_id, rank)] against the
    other rows. *)
Definition key_free (i : Item) (db : Db) : bool :=
  forallb (fun j => negb (bool_decide (i_workspace j = i_workspace i) && String.eqb (i_key j) (i_key i)))
    (other_items (i_id i) db).
Definition rank_free (project id : uuid) (rank : string) (db : Db) : bool :=
  forallb (fun j => negb (bool_decide (i_project j = project) && String.eqb (i_rank j) rank))
    (other_items id db).

Definition InsertItem (i : Item) (db : Db) : result dberr Db :=
  let* _ := item_path_check None i db in
  guard* title_ok (i_title i) else check_violation in
  let* _ := numeric2 6 (i_points i) in
  guard* negb (bool_decide (is_Some (items db !! i_id i))) else unique_violation in
  guard* key_free i db else unique_violation in
  guard* rank_free (i_project i) (i_id i) (i_rank i) db else unique_violation in
  guard* item_fks i (set_items (<[i_id i := i]> (items db)) db) else fk_violation in
  Ok (set_items (<[i_id i := i]> (items db)) db).

(** The arguments of UpdateItemFields. *)
Record UpdateParams := mkUpdateParams {
  u_id : uuid;
  u_title : option string;
  u_body : option string; u_set_body : bool;
  u_status : option uuid;
  u_config_version : option Z;
  u_assignee : option uuid; u_set_assignee : bool;
  u_points : option Z; u_set_points : bool;
  u_start : option Z; u_set_start : bool;
  u_due : option Z; u_set_due : bool;
  u_rank : option string;
  u_fields : option json;
  u_change_seq : Z
}.

Definition coalesce {A} (o : option A) (d : A) : A := match o with Some v => v | None => d end.

Definition update_row (u : UpdateParams) (version : Z) (i : Item) : Item :=
  mkItem (i_id i) (i_workspace i) (i_project i) (i_key i) (i_type i)
    (coalesce (u_status u) (i_status i)) (coalesce (u_config_version u) (i_config_version i))
    (i_parent i) (i_path i) (coalesce (u_title u) (i_title i))
    (if u_set_body u then u_body u else i_body i)
    (if u_set_assignee u then u_assignee u else i_assignee i)
    (if u_set_points u then u_points u else i_points i)
    (if u_set_start u then u_start u else i_start i)
    (if u_set_due u then u_due u else i_due i)
    (coalesce (u_rank u) (i_rank i)) (coalesce (u_fields u) (i_fields i))
    version (u_change_seq u) (i_origin i) (i_origin_seq i) (i_deleted i).

Definition UpdateItemFields (u : UpdateParams) (db : Db) : result dberr (Item * Db) :=
  match items db !! u_id u with
  | None => Err NoRows
  | Some i =>
      let* v := int4 (i_version i + 1) in
      let i' := update_row u v i in
      guard* title_ok (i_title i') else check_violation in
      let* _ := numeric2 6 (i_points i') in
      guard* rank_free (i_project i') (u_id u) (i_rank i') db else unique_violation in
      guard* item_fks i' db else fk_violation in
      Ok (i', set_items (<[u_id u := i']> (items db)) db)
  end.

(** The same row with a new version and change_seq, and the given liveness,
    parent, path and rank. *)
Definition bump (i : Item) (parent : option uuid) (path rank : string) (version seq : Z) (del : bool) : Item :=
  mkItem (i_id i) (i_workspace i) (i_project i) (i_key i) (i_type i) (i_status i) (i_config_version i)
    parent path (i_title i) (i_body i) (i_assignee i) (i_points i) (i_start i) (i_due i)
    rank (i_fields i) version seq (i_origin i) (i_origin_seq i) del.

Definition SoftDeleteItem (id : uuid) (seq : Z) (db : Db) : result dberr (Item * Db) :=
  match items db !! id with
  | Some i =>
      if i_deleted i then Err NoRows
      else
        let* v := int4 (i_version i + 1) in
        let i' := bump i (i_parent i) (i_path i) (i_rank i) v seq true in
        Ok (i', set_items (<[id := i']> (items db)) db)
  | None => Err NoRows
  end.

(** [UPDATE item SET version=version+1,change_seq=$2,updated_at=now() WHERE id=$1]:
    no row is not an error. *)
Definition TouchItem (id : uuid) (seq : Z) (db : Db) : result dberr Db :=
  match items db !! id with
  | Some i =>
      let* v := int4 (i_version i + 1) in
      Ok (set_items (<[id := bump i (i_parent i) (i_path i) (i_rank i) v seq (i_deleted i)]> (items db)) db)
  | None => Ok db
  end.

(** [UPDATE item SET rank=$2 WHERE id=$1] *)
Definition SetItemRank (id : uuid) (rank : string) (db : Db) : result dberr Db :=
  match items db !! id with
  | Some i =>
      guard* rank_free (i_project i) id rank db else unique_violation in
      Ok (set_items (<[id := bump i (i_parent i) (i_path i) rank (i_version i) (i_change_seq i) (i_deleted i)]> (items db)) db)
  | None => Ok db
  end.

(** Rows of other tables that reference an item without ON DELETE CASCADE. *)
Definition item_referenced (id : uuid) (db : Db) : bool :=
  existsb (fun j => bool_decide (i_parent j = Some id)) (other_items id db) ||
  existsb (fun l => bool_decide (l_from l = id) || bool_decide (l_to l = id)) (map_to_list (links db)).*2 ||
  existsb (fun c => bool_decide (c_item c = id)) (map_to_list (comments db)).*2.

Definition HardDeleteItem (id : uuid) (db : Db) : result dberr Db :=
  match items db !! id with
  | None => Ok db
  | Some _ =>
      if item_referenced id db then Err fk_violation
      else Ok (set_rollups (delete id (rollups db)) (set_items (delete id (items db)) db))
  end.

(** ReparentSubtree rewrites every row at or below [old_path]. *)
Definition reparent_row (id : uuid) (parent : option uuid) (new_parent_path old_path : string)
    (seq : Z) (i : Item) (version : Z) : Item :=
  let suffix := subpath (i_path i) (nlevel old_path - 1) in
  bump i (if bool_decide (i_id i = id) then parent else i_parent i)
    (if String.eqb new_parent_path "" then suffix else concat_path new_parent_path suffix)
    (i_rank i) version seq (i_deleted i).

Definition subtree (old_path : string) (db : Db) : list Item :=
  List.filter (fun i => contained (i_path i) old_path) (map_to_list (items db)).*2.

Definition reparent_one (id : uuid) (parent : option uuid) (new_parent_path old_path : string) (seq : Z)
    (db0 : Db) (acc : gmap uuid Item * list string) (i : Item) : result dberr (gmap uuid Item * list string) :=
  let* v := int4 (i_version i + 1) in
  let i' := reparent_row id parent new_parent_path old_path seq i v in
  let* _ := item_path_check (Some i) i' db0 in
  guard* ref_ok (items db0) (i_parent i') else fk_violation in
  Ok (<[i_id i := i']> acc.1, acc.2 ++ [i_path i']).

Definition ReparentSubtree (id : uuid) (parent : option uuid) (new_parent_path old_path : string)
    (seq : Z) (db : Db) : result dberr (list string * Db) :=
  let* (items', paths) :=
    foldM (reparent_one id parent new_parent_path old_path seq db) (subtree old_path db) (items db, []) in
  Ok (paths, set_items items' db).

(** [max(nlevel(path)) - nlevel($1) + 1] over the subtree; NULL (no row) does not
    scan into an int. *)
Definition subtree_height (path : string) (db : Db) : option nat :=
  match subtree path db with
  | [] => None
  | l => Some (list_max ((fun i => nlevel (i_path i)) <$> l) - nlevel path + 1)%nat
  end.

(** * Ranks *)

Definition project_items (project : uuid) (db : Db) : list Item :=
  List.filter (fun i => bool_decide (i_project i = project)) (map_to_list (items db)).*2.

Definition rank_le (a b : uuid * string) : Prop := str_lt b.2 a.2 = false.
#[export] Instance rank_le_dec : RelDecision rank_le.
Proof. intros a b. unfold rank_le. apply _. Defined.

(** Every row of the project, deleted or not, in rank order. *)
Definition ListProjectRanks (project : uuid) (db : Db) : list (uuid * string) :=
  merge_sort rank_le ((fun i => (i_id i, i_rank i)) <$> project_items project db).

Definition rank_pattern (s : string) : bool :=
  (1 <=? String.length s)%nat && (String.length s <=? 40)%nat &&
  forallb (fun c => ((48 <=? byte_of c)%nat && (byte_of c <=? 57)%nat) ||
                    ((97 <=? byte_of c)%nat && (byte_of c <=? 122)%nat)) (chars s).

Definition assoc_rank (old : string) (m : list (string * string)) : option string :=
  snd <$> List.find (fun on => String.eqb on.1 old) m.

(** The row of [SetProjectRanks]: the new rank of the old one, version bumped. *)
Definition set_rank_one (project : uuid) (m : list (string * string)) (acc : gmap uuid Item) (i : Item)
    : result dberr (gmap uuid Item) :=
  if bool_decide (i_project i = project) then
    match assoc_rank (i_rank i) m with
    | Some r =>
        let* v := int4 (i_version i + 1) in
        Ok (<[i_id i := bump i (i_parent i) (i_path i) r v (i_change_seq i) (i_deleted i)]> acc)
    | None => Ok acc
    end
  else Ok acc.

Definition SetProjectRanks (project : uuid) (old new : list string) (db : Db) : result dberr Db :=
  guard* (length old =? length new)%nat && (length old =? length (project_items project db))%nat
    && bool_decide (NoDup old) && bool_decide (NoDup new) && forallb rank_pattern new
    && forallb (fun i => mem_str (i_rank i) old) (project_items project db)
    else raise_exception in
  let* items' := foldM (set_rank_one project (zip old new)) (map_to_list (items db)).*2 (items db) in
  Ok (set_items items' db).

(** * item_rollup (rollup.sql) *)

Definition InsertRollupRow (id : uuid) (db : Db) : result dberr Db :=
  match rollups db !! id with
  | Some _ => Ok db
  | None =>
      guard* bool_decide (is_Some (items db !! id)) else fk_violation in
      Ok (set_rollups (<[id := mkRollup 0 0 None None None None]> (rollups db)) db)
  end.

(** What a descendant contributes: points, dates and status category. *)
Record contrib := mkContrib {
  k_points : option Z; k_start : option Z; k_due : option Z; k_category : string }.

(** The rows of the common table expression [d] of RecomputeRollup. *)
Definition contrib_of (db : Db) (path : string) (id : uuid) (i : Item) : option contrib :=
  if contained (i_path i) path && negb (bool_decide (i_id i = id)) && negb (i_deleted i)
  then match statuses db !! i_status i with
       | Some s => Some (mkContrib (i_points i) (i_start i) (i_due i) (s_category s))
       | None => None
       end
  else None.

Definition descendants (id : uuid) (db : Db) : gmap uuid contrib :=
  match items db !! id with
  | Some x => omap (contrib_of db (i_path x) id) (items db)
  | None => ∅
  end.

(** SQL aggregates ignore NULL and are NULL over no value. *)
Definition agg (f : Z -> Z -> Z) (l : list (option Z)) : option Z :=
  fold_right (fun o acc => match o, acc with
                           | Some a, Some b => Some (f a b)
                           | Some a, None => Some a
                           | None, acc => acc end) None l.

Definition is_done (k : contrib) : bool := String.eqb (k_category k) "done".

Definition aggregate (m : gmap uuid contrib) : Rollup :=
  let d := (map_to_list m).*2 in
  let done := List.filter is_done d in
  mkRollup (Z.of_nat (length d)) (Z.of_nat (length done))
    (agg Z.add (k_points <$> d)) (agg Z.add (k_points <$> done))
    (agg Z.min (k_start <$> d)) (agg Z.max (k_due <$> d)).

Definition RecomputeRollup (id : uuid) (db : Db) : result dberr Db :=
  let r := aggregate (descendants id db) in
  let* _ := int4 (descendant_count r) in
  let* _ := int4 (done_count r) in
  let* _ := numeric2 10 (points_total r) in
  let* _ := numeric2 10 (points_done r) in
  guard* bool_decide (is_Some (items db !! id)) else fk_violation in
  Ok (set_rollups (<[id := r]> (rollups db)) db).

(** One row of VerifyRollups: stored and actual descendants and done counts. *)
Record Mismatch := mkMismatch {
  ItemID : uuid; StoredDescendants : Z; ActualDescendants : Z; StoredDone : Z; ActualDone : Z }.

Definition verify_row (db : Db) (ir : uuid * Item) : option Mismatch :=
  match rollups db !! ir.1 with
  | None => None
  | Some r =>
      let a := aggregate (descendants ir.1 db) in
      if negb (descendant_count r =? descendant_count a) || negb (done_count r =? done_count a) ||
         negb (coalesce (points_total r) 0 =? coalesce (points_total a) 0)
      then Some (mkMismatch ir.1 (descendant_count r) (descendant_count a) (done_count r) (done_count a))
      else None
  end.

Definition VerifyRollups (db : Db) : list Mismatch := omap (verify_row db) (map_to_list (items db)).
Definition VerifyRollupsForProject (project : uuid) (db : Db) : list Mismatch :=
  omap (verify_row db) (List.filter (fun ir => bool_decide (i_project ir.2 = project)) (map_to_list (items db))).

Definition CountItemsAndRollups (db : Db) : nat * nat := (size (items db), size (rollups db)).

(** * change_event (event.sql) *)

Definition InsertEvent (e : Event) (db : Db) : Db := set_events (events db ++ [e]) db.

Definition seq_le (a b : Event) : Prop := e_seq a <= e_seq b.
#[export] Instance seq_le_dec : RelDecision seq_le.
Proof. intros a b. unfold seq_le. apply _. Defined.

Definition ListEventsSince (ws : uuid) (since : Z) (lim : nat) (db : Db) : list Event :=
  take lim (merge_sort seq_le
    (List.filter (fun e => bool_decide (e_workspace e = ws) && (since <? e_seq e)) (events db))).

(** * item_link and comment *)

Definition link_kinds : list string := ["blocks"; "duplicates"; "relates"; "implements"; "discovered_from"].

Definition InsertLink (id : uuid) (l : Link) (db : Db) : result dberr Db :=
  guard* mem_str (l_kind l) link_kinds && negb (bool_decide (l_from l = l_to l)) else check_violation in
  guard* negb (bool_decide (is_Some (links db !! id))) &&
    forallb (fun m => negb (bool_decide (l_from m = l_from l) && bool_decide (l_to m = l_to l) &&
                            String.eqb (l_kind m) (l_kind l))) (map_to_list (links db)).*2
    else unique_violation in
  guard* bool_decide (is_Some (items db !! l_from l)) && bool_decide (is_Some (items db !! l_to l)) &&
    match l_created_by l with None => true | Some u => bool_decide (u ∈ users db) end
    else fk_violation in
  Ok (set_links (<[id := l]> (links db)) db).

Definition DeleteLink (id : uuid) (db : Db) : Db := set_links (delete id (links db)) db.

Definition InsertComment (id : uuid) (c : Comment) (db : Db) : result dberr Db :=
  guard* negb (bool_decide (is_Some (comments db !! id))) else unique_violation in
  guard* bool_decide (is_Some (items db !! c_item c)) && bool_decide (c_author c ∈ users db) else fk_violation in
  Ok (set_comments (<[id := c]> (comments db)) db).

(** The conditional UPDATEs of comments: the number of affected rows. *)
Definition live_comment (id item : uuid) (db : Db) : option Comment :=
  match comments db !! id with
  | Some c => if bool_decide (c_item c = item) && negb (c_deleted c) then Some c else None
  | None => None
  end.

Definition EditComment (id item : uuid) (body : string) (db : Db) : nat * Db :=
  match live_comment id item db with
  | Some c => (1%nat, set_comments (<[id := mkComment (c_item c) (c_author c) body true (c_deleted c)]> (comments db)) db)
  | None => (0%nat, db)
  end.

Definition SoftDeleteComment (id item : uuid) (db : Db) : nat * Db :=
  match live_comment id item db with
  | Some c => (1%nat, set_comments (<[id := mkComment (c_item c) (c_author c) (c_body c) (c_edited c) true]> (comments db)) db)
  | None => (0%nat, db)
  end.

End Db.
