(* ===== verification/Events.v ===== *)
(** Mutations as values, [internal/store/events.go]: pending row changes, each
    with the events that describe it, accumulated before a transaction opens. *)
From S2P Require Import Prelude Uuid Float Json Db.
Open Scope Z_scope.

Module Events.
Import Db.

(** Errors of the store, up to the text wrapped around them. [RankDiverges] and
    [RankPanics] stand for a [RankBetween] call that does not return a value. *)
Inductive store_err :=
  | ErrNoEvents (item : uuid)
  | ErrEmpty
  | ErrVersionConflict
  | ErrInvalidMove
  | ErrRankOrder
  | ErrOther (msg : string)
  | ErrDb (e : dberr)
  | RankDiverges
  | RankPanics.

Definition EventCreated := "created".
Definition EventFieldChanged := "field_changed".
Definition EventStatusChanged := "status_changed".
Definition EventMoved := "moved".
Definition EventLinked := "linked".
Definition EventUnlinked := "unlinked".
Definition EventPromoted := "promoted".
Definition EventDeleted := "deleted".

(** [event]; the seq assigned at flush is kept beside it. *)
Record event := mkPending {
  ev_item : uuid;
  ev_has_item : bool;
  ev_actor : uuid;
  ev_has_actor : bool;
  ev_kind : string;
  ev_field : option string;
  ev_old : option json;
  ev_new : option json
}.

Record ItemInsert := mkInsert {
  in_ID : uuid;
  in_ProjectID : uuid;
  in_ItemTypeID : uuid;
  in_StatusID : uuid;
  in_ParentID : option uuid;
  in_Title : string;
  in_Body : option string;
  in_AssigneeID : option uuid;
  in_Points : option float64;
  in_StartDate : option string;
  in_DueDate : option string;
  in_Fields : option (list (string * json));
  in_OriginID : uuid;
  in_OriginSeq : option Z;
  in_ConfigVersion : option Z;
  in_rank : string
}.

Record ItemUpdate := mkUpdate {
  up_ID : uuid;
  up_Title : option string;
  up_Body : option string; up_SetBody : bool;
  up_StatusID : option uuid;
  up_ConfigVersion : option Z;
  up_AssigneeID : option uuid; up_SetAssignee : bool;
  up_Points : option float64; up_SetPoints : bool;
  up_StartDate : option string; up_SetStartDate : bool;
  up_DueDate : option string; up_SetDueDate : bool;
  up_Rank : option string;
  up_Fields : option (list (string * json))
}.

Record ItemReparent := mkReparent {
  rp_ID : uuid;
  rp_NewParentID : option uuid;
  rp_SetRank : bool;
  rp_RankAfter : option uuid
}.

Record LinkChange := mkLinkChange {
  lc_ID : uuid;
  lc_From : uuid;
  lc_To : uuid;
  lc_Acting : uuid;
  lc_Kind : string
}.

Record CommentChange := mkCommentChange {
  cc_ID : uuid;
  cc_ItemID : uuid;
  cc_Action : string;
  cc_Body : string;
  cc_OldBody : option string
}.

(** [changeKind] with the payload the kind comes with. *)
Inductive change_kind :=
  | changeInsert (i : ItemInsert)
  | changeUpdate (u : ItemUpdate)
  | changeReparent (r : ItemReparent)
  | changeSoftDelete
  | changeHardDelete
  | changeLink (l : LinkChange)
  | changeUnlink (l : LinkChange)
  | changeComment (c : CommentChange).

Record change := mkChange {
  ch_kind : change_kind;
  ch_item : uuid;
  ch_events : list event
}.

Record Mutation := mkMutation {
  m_expected : gmap uuid Z;
  m_workspace : uuid;
  m_actor : uuid;
  m_has_actor : bool;
  m_changes : list change;
  m_err : option store_err
}.

(** [&Mutation{workspaceID: workspaceID}] *)
Definition new_mutation (ws : uuid) : Mutation := mkMutation ∅ ws uuid_nil false [] None.

Definition WithExpectedVersion (id : uuid) (version : Z) (m : Mutation) : Mutation :=
  mkMutation (<[id := version]> (m_expected m)) (m_workspace m) (m_actor m) (m_has_actor m) (m_changes m) (m_err m).
Definition WithActor (id : uuid) (m : Mutation) : Mutation :=
  mkMutation (m_expected m) (m_workspace m) id true (m_changes m) (m_err m).

(** [fail] keeps the first error. *)
Definition fail (e : store_err) (m : Mutation) : Mutation :=
  mkMutation (m_expected m) (m_workspace m) (m_actor m) (m_has_actor m) (m_changes m)
    (match m_err m with None => Some e | Some e' => Some e' end).

Definition push (c : change) (m : Mutation) : Mutation :=
  mkMutation (m_expected m) (m_workspace m) (m_actor m) (m_has_actor m) (m_changes m ++ [c]) (m_err m).

Definition newEvent (item : uuid) (kind : string) (field : option string) (old new : option json) (m : Mutation) : event :=
  mkPending item (negb (bool_decide (item = uuid_nil))) (m_actor m) (m_has_actor m) kind field old new.

Definition eventCount (m : Mutation) : nat :=
  fold_left (fun n c => n + length (ch_events c))%nat (m_changes m) 0%nat.

(** [if id == (uuid.UUID{}) { id = uuid.NewV7() }]; [fresh] is what NewV7 returns. *)
Definition or_fresh (fresh id : uuid) : uuid := if bool_decide (id = uuid_nil) then fresh else id.

Definition Create (fresh : uuid) (inp : ItemInsert) (m : Mutation) : Mutation :=
  let id := or_fresh fresh (in_ID inp) in
  if String.eqb (in_Title inp) ""
  then fail (ErrOther ("store: create " +:+ uuid_string id +:+ ": title is required")) m
  else if bool_decide (in_OriginID inp = uuid_nil)
  then fail (ErrOther ("store: create " +:+ uuid_string id +:+ ": origin_id is required (§5.7)")) m
  else
    let payload := JObj [("title", JStr (in_Title inp)); ("project_id", JStr (uuid_string (in_ProjectID inp)))] in
    let ins := mkInsert id (in_ProjectID inp) (in_ItemTypeID inp) (in_StatusID inp) (in_ParentID inp)
      (in_Title inp) (in_Body inp) (in_AssigneeID inp) (in_Points inp) (in_StartDate inp) (in_DueDate inp)
      (in_Fields inp) (in_OriginID inp) (in_OriginSeq inp) (in_ConfigVersion inp) (in_rank inp) in
    push (mkChange (changeInsert ins) id [newEvent id EventCreated None None (Some payload) m]) m.

(** [FieldChange]: [None] is Go's nil, rendered as SQL NULL. *)
Record FieldChange := mkFieldChange {
  fc_Kind : string;
  fc_Field : string;
  fc_Old : option json;
  fc_New : option json
}.

Definition fieldEvent (item : uuid) (fc : FieldChange) (m : Mutation) : result store_err event :=
  if String.eqb (fc_Field fc) ""
  then Err (ErrOther ("store: field change on " +:+ uuid_string item +:+ " has no field name"))
  else
    let kind := if String.eqb (fc_Kind fc) "" then EventFieldChanged else fc_Kind fc in
    Ok (newEvent item kind (Some (fc_Field fc)) (fc_Old fc) (fc_New fc) m).

Definition Update (up : ItemUpdate) (evs : list FieldChange) (m : Mutation) : Mutation :=
  match evs with
  | [] => fail (ErrOther ("store: update " +:+ uuid_string (up_ID up) +:+
                          ": at least one field change must be described (ADR-001)")) m
  | _ =>
      match mapM' (fun fc => fieldEvent (up_ID up) fc m) evs with
      | Err e => fail e m
      | Ok events => push (mkChange (changeUpdate up) (up_ID up) events) m
      end
  end.

Definition Reparent (r : ItemReparent) (m : Mutation) : Mutation :=
  let newParent := match rp_NewParentID r with None => "null" | Some p => uuid_string p end in
  let payload := JObj [("new_parent_id", JStr newParent)] in
  push (mkChange (changeReparent r) (rp_ID r)
          [newEvent (rp_ID r) EventMoved (Some "parent_id") None (Some payload) m]) m.

Definition SoftDelete (id : uuid) (m : Mutation) : Mutation :=
  push (mkChange changeSoftDelete id [newEvent id EventDeleted None None None m]) m.

Definition hardDelete (id : uuid) (m : Mutation) : Mutation :=
  push (mkChange changeHardDelete id
          [newEvent id EventDeleted None None (Some (JObj [("hard", JBool true)])) m]) m.

Definition Link_ (fresh : uuid) (l : LinkChange) (m : Mutation) : Mutation :=
  let l := mkLinkChange (or_fresh fresh (lc_ID l)) (lc_From l) (lc_To l) (lc_Acting l) (lc_Kind l) in
  let payload := JObj [("to", JStr (uuid_string (lc_To l))); ("kind", JStr (lc_Kind l))] in
  push (mkChange (changeLink l) (lc_From l)
          [newEvent (lc_From l) EventLinked None None (Some payload) m]) m.

(** Which endpoint acts, and which one its event names. *)
Definition unlink_endpoints (l : LinkChange) : uuid * uuid :=
  if negb (bool_decide (lc_Acting l = uuid_nil))
  then (lc_Acting l, if bool_decide (lc_Acting l = lc_To l) then lc_From l else lc_To l)
  else (lc_From l, lc_To l).

Definition Unlink (l : LinkChange) (m : Mutation) : Mutation :=
  let '(itemID, otherID) := unlink_endpoints l in
  if negb (bool_decide (itemID = lc_From l)) && negb (bool_decide (itemID = lc_To l))
  then fail (ErrOther "store: unlink actor is not a link endpoint") m
  else
    let payload := JObj [("to", JStr (uuid_string otherID)); ("kind", JStr (lc_Kind l))] in
    push (mkChange (changeUnlink l) itemID
            [newEvent itemID EventUnlinked None None (Some payload) m]) m.

Definition Comment_ (fresh : uuid) (c : CommentChange) (m : Mutation) : Mutation :=
  if negb (mem_str (cc_Action c) ["create"; "edit"; "delete"])
  then fail (ErrOther "store: invalid comment action") m
  else if negb (m_has_actor m)
  then fail (ErrOther "store: comment requires an actor") m
  else
    let c := mkCommentChange (or_fresh fresh (cc_ID c)) (cc_ItemID c) (cc_Action c) (cc_Body c) (cc_OldBody c) in
    let id := JStr (uuid_string (cc_ID c)) in
    let old := match cc_OldBody c with
               | Some b => Some (JObj [("id", id); ("body", JStr b)]) | None => None end in
    let del := String.eqb (cc_Action c) "delete" in
    let new := JObj [("id", id); ("body", if del then JNull else JStr (cc_Body c)); ("deleted", JBool del)] in
    match fieldEvent (cc_ItemID c) (mkFieldChange "" "comment" old (Some new)) m with
    | Err e => fail e m
    | Ok ev => push (mkChange (changeComment c) (cc_ItemID c) [ev]) m
    end.

(** * What the builder guarantees *)

(** Every pending change is about the item its payload names, carries at least one
    event, and every event names that item and the mutation's actor. *)
Definition kind_item (c : change) : Prop :=
  match ch_kind c with
  | changeInsert i => in_ID i = ch_item c
  | changeUpdate u => up_ID u = ch_item c
  | changeReparent r => rp_ID r = ch_item c
  | _ => True
  end.

Definition change_ok (m : Mutation) (c : change) : Prop :=
  kind_item c /\ ch_events c <> [] /\
  Forall (fun e => ev_item e = ch_item c /\ ev_has_item e = negb (bool_decide (ch_item c = uuid_nil)) /\
                   ev_actor e = m_actor m /\ ev_has_actor e = m_has_actor m) (ch_events c).

Definition described (m : Mutation) : Prop := Forall (change_ok m) (m_changes m).

(** The exported operations that accumulate changes. *)
Inductive verb :=
  | VCreate (fresh : uuid) (i : ItemInsert)
  | VUpdate (u : ItemUpdate) (evs : list FieldChange)
  | VReparent (r : ItemReparent)
  | VSoftDelete (id : uuid)
  | VHardDelete (id : uuid)
  | VLink (fresh : uuid) (l : LinkChange)
  | VUnlink (l : LinkChange)
  | VComment (fresh : uuid) (c : CommentChange).

Definition run_verb (m : Mutation) (v : verb) : Mutation :=
  match v with
  | VCreate f i => Create f i m
  | VUpdate u evs => Update u evs m
  | VReparent r => Reparent r m
  | VSoftDelete id => SoftDelete id m
  | VHardDelete id => hardDelete id m
  | VLink f l => Link_ f l m
  | VUnlink l => Unlink l m
  | VComment f c => Comment_ f c m
  end.

Definition run_verbs (vs : list verb) (m : Mutation) : Mutation := fold_left run_verb vs m.

(** A callback built from those operations, as every caller's is, and the options
    a caller can pass. *)
Definition callback (vs : list verb) (m : Mutation) : result store_err Mutation := Ok (run_verbs vs m).

Inductive mutate_option :=
  | OActor (id : uuid)
  | OExpected (id : uuid) (version : Z).
Definition run_option (o : mutate_option) : Mutation -> Mutation :=
  match o with OActor id => WithActor id | OExpected id v => WithExpectedVersion id v end.

(** What one verb does: it registers one change or records an error. *)
Definition verb_effect (m m' : Mutation) : Prop :=
  (exists c, m' = push c m /\ change_ok m c) \/ (exists e, m' = fail e m).

Lemma new_event_ok k item kind f o n m :
  kind_item (mkChange k item [newEvent item kind f o n m]) ->
  change_ok m (mkChange k item [newEvent item kind f o n m]).
Proof. split; [done|]. split; [done|]. by repeat constructor. Qed.

Lemma push_effect c m : change_ok m c -> verb_effect m (push c m).
Proof. left. by exists c. Qed.

Lemma fail_effect e m : verb_effect m (fail e m).
Proof. right. by exists e. Qed.

#[local] Hint Resolve push_effect fail_effect new_event_ok : sierx.

Lemma fieldEvent_ok item fc m ev :
  fieldEvent item fc m = Ok ev ->
  ev_item ev = item /\ ev_has_item ev = negb (bool_decide (item = uuid_nil)) /\
  ev_actor ev = m_actor m /\ ev_has_actor ev = m_has_actor m /\ ev_field ev = Some (fc_Field fc) /\
  ev_old ev = fc_Old fc /\ ev_new ev = fc_New fc.
Proof. unfold fieldEvent. intros H. repeat split_match; inv_ok H; by subst. Qed.

Lemma mapM'_Forall2 {E A B} (f : A -> result E B) xs ys :
  mapM' f xs = Ok ys -> Forall2 (fun x y => (f x = Ok y)) xs ys.
Proof.
  revert ys; induction xs as [|x xs IH]; simpl; intros ys H; inv_ok H; subst; constructor; auto.
Qed.

Lemma update_effect up evs m : verb_effect m (Update up evs m).
Proof.
  unfold Update. destruct evs as [|e evs]; [auto with sierx|].
  destruct (mapM' _ _) as [events|] eqn:E; [|auto with sierx].
  apply mapM'_Forall2 in E. apply push_effect. split; [done|]. split; simpl.
  - by inversion E.
  - apply Forall_forall. intros ev Hev.
    apply list_elem_of_lookup in Hev as [i Hi].
    destruct (Forall2_lookup_r _ _ _ _ _ E Hi) as (fc & _ & Hfc).
    apply fieldEvent_ok in Hfc. by destruct Hfc as (? & ? & ? & ? & _).
Qed.

Lemma comment_effect f c m : verb_effect m (Comment_ f c m).
Proof.
  unfold Comment_. destruct (negb _); [auto with sierx|]. destruct (negb _); [auto with sierx|].
  destruct (fieldEvent _ _ _) as [ev|] eqn:E; [|auto with sierx].
  apply push_effect. split; [done|]. split; [done|]. simpl in *.
  apply fieldEvent_ok in E as (? & ? & ? & ? & _). by repeat constructor.
Qed.

Lemma run_verb_effect m v : verb_effect m (run_verb m v).
Proof.
  destruct v; simpl; auto using update_effect, comment_effect;
    unfold Create, Reparent, SoftDelete, hardDelete, Link_, Unlink;
    repeat case_match; auto with sierx; apply push_effect, new_event_ok; done.
Qed.

(** The part of a mutation the verbs do not touch. *)
Definition context (m : Mutation) : gmap uuid Z * uuid * uuid * bool :=
  (m_expected m, m_workspace m, m_actor m, m_has_actor m).

Lemma effect_context m m' : verb_effect m m' -> context m' = context m.
Proof. intros [(c & -> & _)|(e & ->)]; done. Qed.

Lemma change_ok_context m m' c : context m' = context m -> change_ok m c -> change_ok m' c.
Proof. unfold context. intros H (H0 & H1 & H2). injection H as ? ? Ha Hh. split; [done|]. split; [done|]. by rewrite Ha, Hh. Qed.

Lemma effect_described m m' : verb_effect m m' -> described m -> described m'.
Proof.
  intros He Hd. pose proof (effect_context _ _ He) as Hc.
  assert (Forall (change_ok m') (m_changes m)).
  { eapply Forall_impl; [exact Hd|]. intros c. by apply change_ok_context. }
  unfold described. destruct He as [(c & -> & Hok)|(e & ->)]; [|done].
  simpl. apply Forall_app_2; [done|]. constructor; [|done]. by eapply change_ok_context.
Qed.

Lemma eventCount_app cs n :
  fold_left (fun n c => (n + length (ch_events c))%nat) cs n =
  (n + length (concat (map ch_events cs)))%nat.
Proof.
  revert n; induction cs as [|c cs IH]; intros n; simpl; [lia|]. rewrite IH, length_app. lia.
Qed.

(** The sequence block is sized by the number of events to insert. *)
Lemma eventCount_length m : eventCount m = length (concat (map ch_events (m_changes m))).
Proof. unfold eventCount. by rewrite eventCount_app. Qed.

Lemma described_count m : described m -> (length (m_changes m) <= eventCount m)%nat.
Proof.
  rewrite eventCount_length. unfold described. induction 1 as [|c cs (_ & Hc & _) _ IH]; simpl; [lia|].
  rewrite length_app. destruct (ch_events c); [done|]. simpl. lia.
Qed.

(** Every row change carries its events (ADR-001): whatever operations of the
    mutation API run, in whatever order and with whatever arguments, each change
    registered has at least one event, each event names the changed item and the
    acting user, the first error recorded is kept, and workspace, actor and
    expected versions stay as they were. *)
Theorem run_verbs_described vs m :
  described m ->
  described (run_verbs vs m) /\ context (run_verbs vs m) = context m /\
  (forall e, m_err m = Some e -> m_err (run_verbs vs m) = Some e).
Proof.
  unfold run_verbs. revert m; induction vs as [|v vs IH]; intros m Hd; simpl; [done|].
  pose proof (run_verb_effect m v) as He.
  destruct (IH (run_verb m v)) as (H1 & H2 & H3); [by eapply effect_described|].
  split; [done|]. split; [rewrite H2; by apply effect_context|].
  intros e Hm. apply H3. destruct He as [(c & -> & _)|(e' & ->)]; simpl; [done|]. by rewrite Hm.
Qed.

Definition demo_verbs : list verb :=
  [VSoftDelete (U 7); VComment (U 9) (mkCommentChange uuid_nil (U 7) "create" "hi" None);
   VUnlink (mkLinkChange (U 3) (U 1) (U 2) (U 8) "blocks")].

Lemma run_verbs_described_witness :
  described (run_verbs demo_verbs (WithActor (U 5) (new_mutation (U 1)))) /\
  length (m_changes (run_verbs demo_verbs (WithActor (U 5) (new_mutation (U 1))))) = 2%nat.
Proof. split; [apply (run_verbs_described demo_verbs); by constructor|vm_compute; reflexivity]. Defined.

End Events.
