(* ===== verification/Mutate.v ===== *)
(** The single write path, [internal/store/mutate.go], with [comments.go],
    [pgtypes.go] and the maintenance half of [rollup.go]: sequence allocation,
    version check, row changes, rollups and events in one transaction. *)
From S2P Require Import Prelude Uuid Ltree DateTime Float Json Rank Db Events.
Open Scope Z_scope.

Module Mutate.
Import Ltree Db Events.

(** A statement inside the store: its database error is the store's. *)
Definition sql {A} (r : result dberr A) : result store_err A :=
  match r with Ok a => Ok a | Err e => Err (ErrDb e) end.

(** * pgtypes.go *)

Definition toPgNumeric (v : option float64) : option Z :=
  match v with Some f => hundredths f | None => None end.

Definition toPgDate (s : option string) : option Z :=
  match s with
  | Some s => if String.eqb s "" then None else parse_date s
  | None => None
  end.

Definition marshalFields (f : option (list (string * json))) : json :=
  match f with None => JObj [] | Some m => JObj m end.

Definition marshalFieldsPatch (f : option (list (string * json))) : option json :=
  match f with None => None | Some m => Some (JObj m) end.

(** * rollup.go *)

Section rollup.
Context `{UuidParse}.

(** The labels of one path, without the last, into the seen set and the output. *)
Fixpoint dirty_labels (ls : list string) (acc : list string * list uuid) : list string * list uuid :=
  match ls with
  | [] => acc
  | label :: ls =>
      let '(seen, out) := acc in
      if mem_str label seen then dirty_labels ls acc
      else dirty_labels ls
             (label :: seen, match uuid_parse label with Some id => out ++ [id] | None => out end)
  end.

Definition dirtyAncestors (paths : list string) : list uuid :=
  (fold_left (fun acc p => dirty_labels (removelast (str_split dot p)) acc) paths ([], [])).2.
End rollup.

Definition recomputeRollups (ids : list uuid) (db : Db) : result store_err Db :=
  foldM (fun db id => sql (RecomputeRollup id db)) ids db.

(** * Ranks *)

(** [RankBetween] as the store calls it. *)
Definition rankBetween (lo hi : string) : result store_err string :=
  match Rank.RankBetween lo hi with
  | Rank.RankOk r => Ok r
  | Rank.RankOrder => Err ErrRankOrder
  | Rank.RankPanic => Err RankPanics
  | Rank.RankLoop => Err RankDiverges
  end.

Definition rebalanceProjectRanks (project : uuid) (ranks : list (uuid * string)) (db : Db) : result store_err Db :=
  match ranks with
  | [] => Ok db
  | _ =>
      match Rank.RankSequence (Z.of_nat (length ranks)) with
      | Some new => sql (SetProjectRanks project ranks.*2 new db)
      | None => Err RankDiverges
      end
  end.

(** The rank of the last row, or empty. *)
Definition last_rank (ranks : list (uuid * string)) : string :=
  match last ranks with Some r => r.2 | None => "" end.

Definition rankForNewItem (project : uuid) (db : Db) : result store_err (string * Db) :=
  let ranks := ListProjectRanks project db in
  let* rank := rankBetween (last_rank ranks) "" in
  if Rank.RankNeedsRebalance rank then
    let* db := rebalanceProjectRanks project ranks db in
    let* rank := rankBetween (last_rank (ListProjectRanks project db)) "" in
    Ok (rank, db)
  else Ok (rank, db).

(** The neighbours of the place after [after]: the scan of the rank list that
    skips the moved item. [None] when [after] is not in the list. *)
Fixpoint scan_ranks (item : uuid) (after : option uuid) (found : bool) (lo : string)
    (ranks : list (uuid * string)) : option (string * string) :=
  match ranks with
  | [] => if found then Some (lo, "") else None
  | (id, rank) :: ranks =>
      if bool_decide (id = item) then scan_ranks item after found lo ranks
      else if found then Some (lo, rank)
      else if bool_decide (Some id = after) then scan_ranks item after true rank ranks
      else scan_ranks item after false lo ranks
  end.

(** The loop [for attempt := 0; attempt < 2; attempt++] of [applyReparent]. *)
Fixpoint reparent_rank (attempts : nat) (item : Item) (after : option uuid) (db : Db) : result store_err Db :=
  match attempts with
  | O => Err ErrRankOrder
  | S attempts =>
      let ranks := ListProjectRanks (i_project item) db in
      match scan_ranks (i_id item) after (match after with None => true | Some _ => false end) "" ranks with
      | None => Err ErrInvalidMove
      | Some (lo, hi) =>
          let* rank := rankBetween lo hi in
          if Rank.RankNeedsRebalance rank then
            let* db := rebalanceProjectRanks (i_project item) ranks db in
            reparent_rank attempts item after db
          else sql (SetItemRank (i_id item) rank db)
      end
  end.

(** * Row changes *)

(** [applyInsert]: the new state and the path of the inserted row. *)
Definition applyInsert (ws : uuid) (inp : ItemInsert) (seq : Z) (db : Db) : result store_err (string * Db) :=
  let originSeq := match in_OriginSeq inp with None => Some seq | o => o end in
  let* (key, db) := sql (NextItemKey (in_ProjectID inp) db) in
  let* path :=
    match in_ParentID inp with
    | None => Ok (uuid_string (in_ID inp))
    | Some p =>
        let* parent := sql (GetItem p db) in
        if bool_decide (i_project parent = in_ProjectID inp)
        then Ok (i_path parent +:+ "." +:+ uuid_string (in_ID inp))
        else Err (ErrOther ("store: parent " +:+ uuid_string p +:+ " is in another project (ADR-012)"))
    end in
  let cfg := match in_ConfigVersion inp with Some v => v | None => LatestConfigVersion (in_ProjectID inp) db end in
  let* (rank, db) :=
    if String.eqb (in_rank inp) "" then rankForNewItem (in_ProjectID inp) db else Ok (in_rank inp, db) in
  let row := mkItem (in_ID inp) ws (in_ProjectID inp) key (in_ItemTypeID inp) (in_StatusID inp) cfg
    (in_ParentID inp) path (in_Title inp) (in_Body inp) (in_AssigneeID inp) (toPgNumeric (in_Points inp))
    (toPgDate (in_StartDate inp)) (toPgDate (in_DueDate inp)) rank (marshalFields (in_Fields inp))
    1 seq (in_OriginID inp) originSeq false in
  let* db := sql (InsertItem row db) in
  Ok (path, db).

Definition update_params (up : ItemUpdate) (seq : Z) : UpdateParams :=
  mkUpdateParams (up_ID up) (up_Title up) (up_Body up) (up_SetBody up) (up_StatusID up) (up_ConfigVersion up)
    (up_AssigneeID up) (up_SetAssignee up) (toPgNumeric (up_Points up)) (up_SetPoints up)
    (toPgDate (up_StartDate up)) (up_SetStartDate up) (toPgDate (up_DueDate up)) (up_SetDueDate up)
    (up_Rank up) (marshalFieldsPatch (up_Fields up)) seq.

(** [applyUpdate]: the new state and the path of the row. *)
Definition applyUpdate (up : ItemUpdate) (seq : Z) (db : Db) : result store_err (string * Db) :=
  let* (row, db) := sql (UpdateItemFields (update_params up seq) db) in
  Ok (i_path row, db).

(** [applyReparent]: the new state and the touched paths, old path first. *)
Definition applyReparent (r : ItemReparent) (seq : Z) (db : Db) : result store_err (list string * Db) :=
  let* item := sql (GetItem (rp_ID r) db) in
  let* newParentPath :=
    match rp_NewParentID r with
    | None => Ok ""
    | Some p =>
        let* parent := sql (GetItem p db) in
        if negb (bool_decide (i_project parent = i_project item)) || i_deleted parent then Err ErrInvalidMove
        else if isDescendantOrSelf (i_path parent) (i_path item) then Err ErrInvalidMove
        else Ok (i_path parent)
    end in
  match subtree_height (i_path item) db with
  | None => Err (ErrOther "cannot scan NULL into *int")
  | Some height =>
      let depth := if String.eqb newParentPath "" then O else S (count_byte dot newParentPath) in
      if (8 <? depth + height)%nat then Err ErrInvalidMove
      else
        let* (rows, db) := sql (ReparentSubtree (rp_ID r) (rp_NewParentID r) newParentPath (i_path item) seq db) in
        let* db := if rp_SetRank r then reparent_rank 2 item (rp_RankAfter r) db else Ok db in
        Ok (i_path item :: rows, db)
  end.

Definition applyComment (actor : uuid) (c : CommentChange) (db : Db) : result store_err Db :=
  let affected (r : nat * Db) := if (r.1 =? 1)%nat then Ok r.2 else Err (ErrDb NoRows) in
  if String.eqb (cc_Action c) "create"
  then sql (InsertComment (cc_ID c) (mkComment (cc_ItemID c) actor (cc_Body c) false false) db)
  else if String.eqb (cc_Action c) "edit" then affected (EditComment (cc_ID c) (cc_ItemID c) (cc_Body c) db)
  else if String.eqb (cc_Action c) "delete" then affected (SoftDeleteComment (cc_ID c) (cc_ItemID c) db)
  else Ok db.

(** * flush *)

(** Step (b): the events with their seq, and each item's highest seq. *)
Fixpoint assign_seqs (next : Z) (evs : list event) : list (event * Z) :=
  match evs with [] => [] | e :: evs => (e, next) :: assign_seqs (next + 1) evs end.

Definition item_seq (evs : list (event * Z)) : gmap uuid Z :=
  fold_left (fun acc es =>
    let id := ev_item es.1 in
    if negb (bool_decide (id = uuid_nil)) && (coalesce (acc !! id) 0 <? es.2) then <[id := es.2]> acc else acc)
    evs ∅.

Definition all_events (m : Mutation) : list event := concat (map ch_events (m_changes m)).

(** What the loop over the changes accumulates. *)
Record progress := mkProgress {
  pr_db : Db;
  pr_touched : list string;
  pr_items : list uuid;
  pr_created : list uuid;
  pr_hard : list uuid
}.

Definition apply_kind (m : Mutation) (c : change) (seq : Z) (s : progress) : result store_err progress :=
  let db := pr_db s in
  match ch_kind c with
  | changeInsert inp =>
      let* (path, db) := applyInsert (m_workspace m) inp seq db in
      Ok (mkProgress db (pr_touched s ++ [path]) (pr_items s) (pr_created s ++ [in_ID inp]) (pr_hard s))
  | changeUpdate up =>
      let* (path, db) := applyUpdate up seq db in
      Ok (mkProgress db (pr_touched s ++ [path]) (pr_items s) (pr_created s) (pr_hard s))
  | changeReparent r =>
      let* (paths, db) := applyReparent r seq db in
      Ok (mkProgress db (pr_touched s ++ paths) (pr_items s) (pr_created s) (pr_hard s))
  | changeSoftDelete =>
      let* (row, db) := sql (SoftDeleteItem (ch_item c) seq db) in
      Ok (mkProgress db (pr_touched s ++ [i_path row]) (pr_items s) (pr_created s) (pr_hard s))
  | changeHardDelete =>
      let* row := sql (GetItem (ch_item c) db) in
      let* db := sql (HardDeleteItem (ch_item c) db) in
      Ok (mkProgress db (pr_touched s ++ [i_path row]) (pr_items s) (pr_created s) (pr_hard s ++ [ch_item c]))
  | changeLink l =>
      let* db := sql (InsertLink (lc_ID l) (mkLink (lc_From l) (lc_To l) (lc_Kind l)
                        (if m_has_actor m then Some (m_actor m) else None)) db) in
      Ok (mkProgress db (pr_touched s) (pr_items s) (pr_created s) (pr_hard s))
  | changeUnlink l =>
      Ok (mkProgress (DeleteLink (lc_ID l) db) (pr_touched s) (pr_items s) (pr_created s) (pr_hard s))
  | changeComment cc =>
      let* db := applyComment (m_actor m) cc db in
      Ok (mkProgress db (pr_touched s) (pr_items s) (pr_created s) (pr_hard s))
  end.

Definition touches_version (k : change_kind) : bool :=
  match k with changeLink _ | changeUnlink _ | changeComment _ => true | _ => false end.

Definition apply_change (m : Mutation) (seqs : gmap uuid Z) (s : progress) (c : change) : result store_err progress :=
  let seq := coalesce (seqs !! ch_item c) 0 in
  let* s := apply_kind m c seq s in
  let* db := if touches_version (ch_kind c) then sql (TouchItem (ch_item c) seq (pr_db s)) else Ok (pr_db s) in
  Ok (mkProgress db (pr_touched s)
        (if bool_decide (ch_item c = uuid_nil) then pr_items s else pr_items s ++ [ch_item c])
        (pr_created s) (pr_hard s)).

Definition event_row (ws : uuid) (es : event * Z) : Event :=
  let e := es.1 in
  mkEvent ws es.2 (if ev_has_item e then Some (ev_item e) else None)
    (if ev_has_actor e then Some (ev_actor e) else None) (ev_kind e) (ev_field e) (ev_old e) (ev_new e).

Record Result_ := mkResult {
  HighestSeq : Z;
  LowestSeq : Z;
  EventCount : nat;
  ItemIDs : list uuid
}.

(** The version check of one expected item: a live row of the workspace with
    exactly that version. *)
Definition version_matches (ws : uuid) (db : Db) (ie : uuid * Z) : bool :=
  match items db !! ie.1 with
  | Some i => bool_decide (i_workspace i = ws) && negb (i_deleted i) && (i_version i =? ie.2)
  | None => false
  end.

(** Steps (e), (f) and (g): rollup rows, recomputation, events. *)
Definition finish `{UuidParse} (ws : uuid) (evs : list (event * Z)) (s : progress) : result store_err Db :=
  let* db := foldM (fun db id => sql (InsertRollupRow id db)) (pr_created s) (pr_db s) in
  let live := List.filter (fun id => negb (bool_decide (id ∈ pr_hard s))) (dirtyAncestors (pr_touched s)) in
  let* db := recomputeRollups live db in
  Ok (fold_left (fun db es => InsertEvent (event_row ws es) db) evs db).

Definition flush `{UuidParse} (m : Mutation) (db : Db) : result store_err (Result_ * Db) :=
  let n := eventCount m in
  let* (highest, db) := sql (AllocateSeq (Z.of_nat n) (m_workspace m) db) in
  let lowest := highest - Z.of_nat n + 1 in
  guard* forallb (version_matches (m_workspace m) db) (map_to_list (m_expected m)) else ErrVersionConflict in
  let evs := assign_seqs lowest (all_events m) in
  let* s := foldM (apply_change m (item_seq evs)) (m_changes m) (mkProgress db [] [] [] []) in
  let* db := finish (m_workspace m) evs s in
  Ok (mkResult highest lowest n (pr_items s), db).

(** * Entry points *)

(** [Mutate]: the callback [fn] builds on the mutation the options configured.
    The second component is the state after the call: on an error the
    transaction is rolled back. *)
Definition check_mutation (m : Mutation) : result store_err unit :=
  match m_err m with
  | Some e => Err e
  | None =>
      match m_changes m with
      | [] => Err ErrEmpty
      | cs =>
          match List.find (fun c => match ch_events c with [] => true | _ => false end) cs with
          | Some c => Err (ErrNoEvents (ch_item c))
          | None => Ok tt
          end
      end
  end.

Definition Mutate `{UuidParse} (ws : uuid) (fn : Mutation -> result store_err Mutation)
    (opts : list (Mutation -> Mutation)) (db : Db) : result store_err Result_ * Db :=
  let m := fold_left (fun m o => o m) opts (new_mutation ws) in
  match fn m with
  | Err e => (Err e, db)
  | Ok m =>
      match check_mutation m with
      | Err e => (Err e, db)
      | Ok _ =>
          match flush m db with
          | Err e => (Err e, db)
          | Ok (res, db') => (Ok res, db')
          end
      end
  end.

Definition HardDeleteItem `{UuidParse} (ws item : uuid) (opts : list (Mutation -> Mutation)) (db : Db) :
    result store_err Result_ * Db :=
  Mutate ws (fun m => Ok (hardDelete item m)) opts db.

(** [RebalanceProject]: its own transaction with one summarising event. *)
Definition rebalance_project (ws project : uuid) (db : Db) : result store_err (nat * Db) :=
  let ranks := ListProjectRanks project db in
  let* (seq, db) := sql (AllocateSeq 1 ws db) in
  let* db := rebalanceProjectRanks project ranks db in
  let payload := JObj [("rebalanced", JInt (Z.of_nat (length ranks))); ("project_id", JStr (uuid_string project))] in
  Ok (length ranks, InsertEvent (mkEvent ws seq None None EventFieldChanged (Some "rank") None (Some payload)) db).

Definition RebalanceProject (ws project : uuid) (db : Db) : result store_err nat * Db :=
  match rebalance_project ws project db with
  | Err e => (Err e, db)
  | Ok (n, db') => (Ok n, db')
  end.

End Mutate.
