(* ===== verification/Demo.v ===== *)
(** A small concrete database the examples and witnesses of the store run on. *)
From S2P Require Import Prelude Uuid Ltree Float Json Db Events Mutate.
Open Scope Z_scope.

Module Demo.
Import Db Events Mutate.

Definition ws := U 1.
Definition project := U 2.
Definition todo := U 3.
Definition done_status := U 4.
Definition task := U 5.
Definition user := U 6.

(** One workspace, one project with two statuses and one item type; no item. *)
Definition db0 : Db :=
  mkDb {[ws := 0]} ∅ ∅ ∅ ∅ [] {[project := mkProject ws "SRX" 1]}
    (<[todo := mkStatus project "todo" "open"]> {[done_status := mkStatus project "done" "done"]})
    {[task := mkItemType project "task" 0 false]} {[(project, 1)]} {[user]}.

Definition new_item (id : N) (parent : option uuid) (title : string) (points : option float64) : ItemInsert :=
  mkInsert (U id) project task todo parent title None None points None None None (U 99) None None "".

(** Three items, the second and third below the first. *)
Definition create_three : list verb :=
  [VCreate (U 0) (new_item 10 None "root" None);
   VCreate (U 0) (new_item 11 (Some (U 10)) "child" (parse_float "2.5"));
   VCreate (U 0) (new_item 12 (Some (U 11)) "grandchild" (parse_float "1"))].

Definition run1 := Mutate ws (callback create_three) (run_option <$> [OActor user]) db0.
Definition db1 : Db := run1.2.

(** Finish the grandchild, checking the version it had. *)
Definition finish_update : ItemUpdate :=
  mkUpdate (U 12) None None false (Some done_status) None None false None false None false None false None None.
Definition finish_verbs : list verb :=
  [VUpdate finish_update [mkFieldChange EventStatusChanged "status_id" None (Some (JStr "done"))]].
Definition run2 := Mutate ws (callback finish_verbs)
  (run_option <$> [OActor user; OExpected (U 12) 1]) db1.
Definition db2 : Db := run2.2.

Example run1_ok : run1.1 = Ok (mkResult 3 1 3 [U 10; U 11; U 12]).
Proof. vm_compute. reflexivity. Qed.
Example run2_ok : run2.1 = Ok (mkResult 4 4 1 [U 12]).
Proof. vm_compute. reflexivity. Qed.
(** The two runs as equations. *)
Lemma run1_call : Mutate ws (callback create_three) (run_option <$> [OActor user]) db0 = (run1.1, db1).
Proof. unfold db1, run1. apply surjective_pairing. Qed.
Lemma run2_call :
  Mutate ws (callback finish_verbs) (run_option <$> [OActor user; OExpected (U 12) 1]) db1 = (run2.1, db2).
Proof. unfold db2, run2. apply surjective_pairing. Qed.

Example stale_version :
  (Mutate ws (callback [VSoftDelete (U 12)]) (run_option <$> [OExpected (U 12) 1]) db2).1 = Err ErrVersionConflict.
Proof. vm_compute. reflexivity. Qed.
Example rollup_root :
  rollups db2 !! U 10 = Some (mkRollup 2 1 (Some 350) (Some 100) None None).
Proof. vm_compute. reflexivity. Qed.
Example ranks_in_order : (ListProjectRanks project db2).*2 = ["n"; "o"; "p"].
Proof. vm_compute. reflexivity. Qed.
Example cycle_refused :
  (Mutate ws (callback [VReparent (mkReparent (U 10) (Some (U 12)) false None)]) [] db2).1 = Err ErrInvalidMove.
Proof. vm_compute. reflexivity. Qed.
Example reparent_root :
  i_path <$> items (Mutate ws (callback [VReparent (mkReparent (U 11) None true (Some (U 12)))]) [] db2).2 !! U 12
  = Some (Ltree.path_of [U 11; U 12]).
Proof. vm_compute. reflexivity. Qed.
Example rebalanced :
  (ListProjectRanks project (RebalanceProject ws project db2).2).*2 = ["8"; "g"; "o"].
Proof. vm_compute. reflexivity. Qed.

End Demo.
