(* ===== verification/StoreTree.v ===== *)
(** The item hierarchy as the store keeps it: every path is the parent's path
    extended with the item's own id, at most eight levels deep, inside one
    project; every row change of [Mutate] keeps it so. *)
From S2P Require Import Prelude Uuid Ltree Float Json Rank Db Events Mutate Demo.
Open Scope Z_scope.

Module StoreTree.
Import Ltree Db Events Mutate.

(** * The hierarchy view of an item row *)

Record tv := mkTv { tv_id : uuid; tv_path : string; tv_parent : option uuid; tv_project : uuid }.
Definition tview (i : Item) : tv := mkTv (i_id i) (i_path i) (i_parent i) (i_project i).
Definition tree (db : Db) : gmap uuid tv := tview <$> items db.

(** A row at [id] whose ancestors are [ids], root first. *)
Record node_ok (m : gmap uuid tv) (id : uuid) (t : tv) (ids : list uuid) : Prop := {
  node_id : tv_id t = id;
  node_path : tv_path t = path_of (ids ++ [id]);
  node_depth : (length ids < 8)%nat;
  node_parent : match tv_parent t with
    | None => ids = []
    | Some p => exists q, m !! p = Some q /\ ids <> [] /\ tv_path q = path_of ids /\ tv_project q = tv_project t
    end
}.

Definition tree_ok (m : gmap uuid tv) : Prop := forall id t, m !! id = Some t -> exists ids, node_ok m id t ids.

Lemma snoc_ne {A} (l : list A) x : l ++ [x] <> [].
Proof. by destruct l. Qed.
#[local] Hint Resolve snoc_ne : sierx.

Section tree.
Context (m : gmap uuid tv) (Hm : tree_ok m).

(** A path determines its last identifier. *)
Lemma path_key id t ids x :
  m !! id = Some t -> tv_path t = path_of (ids ++ [x]) -> x = id.
Proof using Hm.
  intros Ht Hp. destruct (Hm _ _ Ht) as [ids' Hn]. rewrite (node_path _ _ _ _ Hn) in Hp.
  apply path_of_inj in Hp; auto with sierx. by apply app_inj_tail in Hp as [_ ->].
Qed.

(** Every identifier of a path is an item, at the path that ends there. *)
Lemma ancestor_node id t pre a suf :
  m !! id = Some t -> tv_path t = path_of (pre ++ a :: suf) ->
  exists ta, m !! a = Some ta /\ tv_path ta = path_of (pre ++ [a]).
Proof using Hm.
  revert id t. induction suf as [|x suf IH] using rev_ind; intros id t Ht Hp.
  - exists t. by rewrite <- (path_key _ _ _ _ Ht Hp) in Ht.
  - rewrite app_comm_cons, app_assoc in Hp.
    pose proof (path_key _ _ _ _ Ht Hp) as ->.
    destruct (Hm _ _ Ht) as [ids [_ Hids _ Hpar]]. rewrite Hids in Hp.
    apply path_of_inj in Hp; auto with sierx. apply app_inj_tail in Hp as [-> _].
    destruct (tv_parent t) as [p|].
    + destruct Hpar as (q & Hq & _ & Hqp & _). eauto.
    + by destruct pre.
Qed.

Lemma path_nodup id t ids : m !! id = Some t -> tv_path t = path_of ids -> NoDup ids.
Proof using Hm.
  intros Ht Hp. apply NoDup_alt. intros i j x Hi Hj.
  assert (Hcut : forall k, ids !! k = Some x ->
            exists tx, m !! x = Some tx /\ tv_path tx = path_of (take k ids ++ [x])).
  { intros k Hk. eapply ancestor_node; [exact Ht|]. rewrite Hp. f_equal. symmetry. by apply take_drop_middle. }
  destruct (Hcut i Hi) as (t1 & H1 & E1), (Hcut j Hj) as (t2 & H2 & E2).
  rewrite H1 in H2. injection H2 as <-. rewrite E1 in E2. apply path_of_inj in E2; auto with sierx.
  apply app_inj_tail in E2 as [E2 _]. apply (f_equal length) in E2.
  rewrite !length_take in E2. apply lookup_lt_Some in Hi, Hj. lia.
Qed.

(** Being at or below an item is having it in the path. *)
Lemma contained_iff d td dids x tx :
  m !! d = Some td -> tv_path td = path_of dids -> dids <> [] -> m !! x = Some tx ->
  contained (tv_path td) (tv_path tx) = bool_decide (x ∈ dids).
Proof using Hm.
  intros Hd Hp Hne Hx. destruct (Hm _ _ Hx) as [xids Hn].
  rewrite Hp, (node_path _ _ _ _ Hn), contained_path_of by auto with sierx.
  apply bool_decide_ext. split.
  - intros [k ->]. rewrite !elem_of_app. left; right. by constructor.
  - intros Hin. apply list_elem_of_split in Hin as (pre & suf & ->).
    destruct (ancestor_node _ _ _ _ _ Hd Hp) as (tx' & Hx' & Hpx).
    rewrite Hx in Hx'. injection Hx' as <-. rewrite (node_path _ _ _ _ Hn) in Hpx.
    apply path_of_inj in Hpx; auto with sierx. apply app_inj_tail in Hpx as [-> _].
    exists suf. by rewrite <- app_assoc.
Qed.
End tree.

(** The hierarchy depends on the view alone. *)
Lemma tree_eq db db' : items db' = items db -> tree db' = tree db.
Proof. unfold tree. by intros ->. Qed.

Lemma tree_insert_same db id i i' :
  items db !! id = Some i -> tview i' = tview i ->
  tree (set_items (<[id := i']> (items db)) db) = tree db.
Proof.
  intros Hi Hv. unfold tree. simpl. rewrite fmap_insert, Hv, <- fmap_insert, insert_id by done. done.
Qed.

Lemma tree_lookup db id i : items db !! id = Some i -> tree db !! id = Some (tview i).
Proof. intros H. unfold tree. by rewrite lookup_fmap, H. Qed.

Lemma tree_lookup_inv db id t : tree db !! id = Some t -> exists i, items db !! id = Some i /\ t = tview i.
Proof. unfold tree. rewrite lookup_fmap. intros H. apply fmap_Some in H as (i & -> & ->). eauto. Qed.

(** * Statements that keep the view *)

Lemma sql_inv {A} (r : result dberr A) a : sql r = Ok a -> r = Ok a.
Proof. destruct r; simpl; congruence. Qed.

Lemma UpdateItemFields_inv u db i' db' :
  UpdateItemFields u db = Ok (i', db') ->
  exists i v, items db !! u_id u = Some i /\ i' = update_row u v i /\ v = i_version i + 1 /\
    rank_free (i_project i') (u_id u) (i_rank i') db = true /\
    db' = set_items (<[u_id u := i']> (items db)) db.
Proof.
  unfold UpdateItemFields. destruct (items db !! u_id u) as [i|]; [|done].
  unfold int4. destruct (in_int32 _); [|done]. intros H.
  destruct (title_ok _); [|done]. destruct (numeric2 _ _); [|done].
  destruct (rank_free _ _ _ _) eqn:Er; [|done].
  destruct (item_fks _ _); [|done]. injection H as <- <-. exists i, (i_version i + 1). done.
Qed.

Lemma SoftDeleteItem_inv id seq db i' db' :
  SoftDeleteItem id seq db = Ok (i', db') ->
  exists i, items db !! id = Some i /\ i_deleted i = false /\
    i' = bump i (i_parent i) (i_path i) (i_rank i) (i_version i + 1) seq true /\
    db' = set_items (<[id := i']> (items db)) db.
Proof.
  unfold SoftDeleteItem. destruct (items db !! id) as [i|]; [|done].
  destruct (i_deleted i) eqn:Ed; [done|]. unfold int4. destruct (in_int32 _); [|done].
  intros [= <- <-]. by exists i.
Qed.

Lemma TouchItem_inv id seq db db' :
  TouchItem id seq db = Ok db' ->
  (items db !! id = None /\ db' = db) \/
  exists i, items db !! id = Some i /\
    db' = set_items (<[id := bump i (i_parent i) (i_path i) (i_rank i) (i_version i + 1) seq (i_deleted i)]> (items db)) db.
Proof.
  unfold TouchItem. destruct (items db !! id) as [i|]; [|intros [= <-]; by left].
  unfold int4. destruct (in_int32 _); [|done]. intros [= <-]. right. by exists i.
Qed.

Lemma SetItemRank_inv id rank db db' :
  SetItemRank id rank db = Ok db' ->
  (items db !! id = None /\ db' = db) \/
  exists i, items db !! id = Some i /\ rank_free (i_project i) id rank db = true /\
    db' = set_items (<[id := bump i (i_parent i) (i_path i) rank (i_version i) (i_change_seq i) (i_deleted i)]> (items db)) db.
Proof.
  unfold SetItemRank. destruct (items db !! id) as [i|]; [|intros [= <-]; by left].
  destruct (rank_free _ _ _ _) eqn:E; [|done]. intros [= <-]. right. by exists i.
Qed.

(** The rows of a map keyed by [i_id], once each. *)
Definition keyed (m : gmap uuid Item) : Prop := forall id i, m !! id = Some i -> i_id i = id.

Lemma tree_ok_keyed db : tree_ok (tree db) -> keyed (items db).
Proof. intros H id i Hi. destruct (H _ _ (tree_lookup _ _ _ Hi)) as [ids Hn]. apply (node_id _ _ _ _ Hn). Qed.

Lemma row_in db i : i ∈ (map_to_list (items db)).*2 <-> exists id, items db !! id = Some i.
Proof.
  rewrite list_elem_of_fmap. split.
  - intros ([id j] & -> & H). exists id. by apply elem_of_map_to_list in H.
  - intros [id H]. exists (id, i). split; [done|]. by apply elem_of_map_to_list.
Qed.

(** A loop that rewrites rows in place: every row of the list is replaced by its
    image, the others stay. *)
Section rewrite_rows.
Context {E : Type} (body : gmap uuid Item -> Item -> result E (gmap uuid Item)) (g : Item -> option Item).
Context (Hbody : forall acc i acc', body acc i = Ok acc' ->
           match g i with Some i' => acc' = <[i_id i := i']> acc | None => acc' = acc end).

Lemma rewrite_rows_notin l acc acc' k :
  foldM body l acc = Ok acc' -> k ∉ i_id <$> l -> acc' !! k = acc !! k.
Proof using Hbody.
  revert acc; induction l as [|i l IH]; intros acc H Hk; simpl in H; [congruence|].
  inv_ok H. apply Hbody in E0. rewrite fmap_cons, not_elem_of_cons in Hk. destruct Hk as [Hne Hk].
  rewrite (IH _ H Hk). destruct (g i); subst; [|done]. by apply lookup_insert_ne.
Qed.

Lemma rewrite_rows_lookup l acc acc' i :
  foldM body l acc = Ok acc' -> NoDup (i_id <$> l) -> i ∈ l -> acc !! i_id i = Some i ->
  acc' !! i_id i = Some (match g i with Some i' => i' | None => i end).
Proof using Hbody.
  revert acc; induction l as [|j l IH]; intros acc H Hnd Hin Hi; [by apply elem_of_nil in Hin|].
  simpl in H. inv_ok H. apply Hbody in E0. rewrite fmap_cons in Hnd. apply NoDup_cons in Hnd as [Hj Hnd].
  apply elem_of_cons in Hin as [->|Hin].
  - rewrite (rewrite_rows_notin _ _ _ _ H Hj). destruct (g j); subst; [|done]. apply lookup_insert_eq.
  - apply (IH a); [done..|]. destruct (g j); subst; [|done]. rewrite lookup_insert_ne; [done|].
    intros Heq. apply Hj. rewrite Heq. apply list_elem_of_fmap. by exists i.
Qed.
End rewrite_rows.

Lemma nodup_filter_ids (P : Item -> bool) (m : gmap uuid Item) :
  keyed m -> NoDup (i_id <$> List.filter P (map_to_list m).*2).
Proof.
  intros Hk.
  assert (Hall : NoDup (i_id <$> (map_to_list m).*2)).
  { assert (i_id <$> (map_to_list m).*2 = (map_to_list m).*1) as ->.
    { rewrite <- list_fmap_compose. apply list_fmap_ext. intros n [k i] Hi. simpl.
      apply Hk, elem_of_map_to_list. by eapply list_elem_of_lookup_2. }
    apply NoDup_fst_map_to_list. }
  induction ((map_to_list m).*2) as [|i l IH]; [constructor|].
  rewrite fmap_cons in Hall. apply NoDup_cons in Hall as [Hi Hall]. simpl.
  destruct (P i); [rewrite fmap_cons|auto].
  apply NoDup_cons. split; [|auto]. intros Hin. apply Hi. apply list_elem_of_fmap in Hin as (j & -> & Hj).
  apply list_elem_of_fmap. exists j. split; [done|].
  apply list_elem_of_In. apply list_elem_of_In in Hj. by apply filter_In in Hj as [? _].
Qed.

Lemma set_rank_one_body project m acc i acc' :
  set_rank_one project m acc i = Ok acc' ->
  match (if bool_decide (i_project i = project)
         then (fun r => bump i (i_parent i) (i_path i) r (i_version i + 1) (i_change_seq i) (i_deleted i))
                <$> assoc_rank (i_rank i) m
         else None) with
  | Some i' => acc' = <[i_id i := i']> acc
  | None => acc' = acc
  end.
Proof.
  unfold set_rank_one, int4. case_bool_decide; [|congruence].
  destruct (assoc_rank _ _); simpl; [|congruence]. destruct (in_int32 _); [|done]. congruence.
Qed.

(** The rows after a rank respread. *)
Definition reranked (project : uuid) (old new : list string) (i : Item) : Item :=
  if bool_decide (i_project i = project) then
    match assoc_rank (i_rank i) (zip old new) with
    | Some r => bump i (i_parent i) (i_path i) r (i_version i + 1) (i_change_seq i) (i_deleted i)
    | None => i
    end
  else i.

Record ranks_guard (project : uuid) (old new : list string) (db : Db) : Prop := {
  rg_len : length old = length new;
  rg_count : length old = length (project_items project db);
  rg_old : NoDup old;
  rg_new : NoDup new;
  rg_pattern : forall r, r ∈ new -> rank_pattern r = true;
  rg_complete : forall i, i ∈ project_items project db -> i_rank i ∈ old
}.

Lemma SetProjectRanks_inv project old new db db' :
  keyed (items db) -> SetProjectRanks project old new db = Ok db' ->
  ranks_guard project old new db /\ db' = set_items (reranked project old new <$> items db) db.
Proof.
  intros Hk. unfold SetProjectRanks. intros H. destruct (_ && _) eqn:G; [|done]. split.
  { rewrite !andb_true_iff in G. destruct G as [[[[[G1 G2] G3] G4] G5] G6].
    apply Nat.eqb_eq in G1, G2. apply bool_decide_eq_true in G3, G4.
    rewrite forallb_forall in G5, G6. split; [done..| |].
    - intros r Hr. by apply G5, list_elem_of_In.
    - intros i Hi. apply mem_str_spec. by apply G6, list_elem_of_In. }
  destruct (foldM _ _ _) as [items'|] eqn:Hf; [|done]. injection H as <-. f_equal.
  apply map_eq. intros k. rewrite lookup_fmap.
  pose proof (nodup_filter_ids (fun _ => true) (items db) Hk) as Hnd.
  rewrite List.forallb_filter_id in Hnd by (by apply forallb_forall).
  destruct (items db !! k) as [i|] eqn:Hi; simpl.
  - pose proof (Hk _ _ Hi) as <-.
    rewrite (rewrite_rows_lookup _ _ (set_rank_one_body project (zip old new)) _ _ _ i Hf Hnd);
      [|apply row_in; eauto|done].
    unfold reranked. destruct (bool_decide (i_project i = project)); [|done]. by destruct (assoc_rank (i_rank i) (zip old new)).
  - rewrite <- Hi. eapply rewrite_rows_notin; [apply set_rank_one_body|exact Hf|].
    intros Hin. apply list_elem_of_fmap in Hin as (i & -> & Hr). apply row_in in Hr as [id Hr].
    rewrite (Hk _ _ Hr) in Hi. congruence.
Qed.

Lemma tree_fmap_same (g : Item -> Item) db :
  (forall i, tview (g i) = tview i) -> tree (set_items (g <$> items db) db) = tree db.
Proof.
  intros Hg. unfold tree. simpl. rewrite <- map_fmap_compose. apply map_fmap_ext. intros k i _. apply Hg.
Qed.

Lemma reranked_view project old new i : tview (reranked project old new i) = tview i.
Proof. unfold reranked. case_bool_decide; [|done]. by destruct (assoc_rank _ _). Qed.

(** * The statements that change the hierarchy *)

Lemma subtree_in old_path db i :
  i ∈ subtree old_path db <-> (exists id, items db !! id = Some i) /\ contained (i_path i) old_path = true.
Proof.
  unfold subtree. rewrite list_elem_of_In, filter_In, <- list_elem_of_In, row_in. done.
Qed.

(** The row [ReparentSubtree] writes for [i]. *)
Definition moved (id : uuid) (parent : option uuid) (npp old_path : string) (seq : Z) (i : Item) : Item :=
  if contained (i_path i) old_path
  then reparent_row id parent npp old_path seq i (i_version i + 1) else i.

Lemma reparent_loop_split id parent npp old_path seq db0 l acc acc' :
  foldM (reparent_one id parent npp old_path seq db0) l acc = Ok acc' ->
  foldM (fun m i => match reparent_one id parent npp old_path seq db0 (m, []) i with
                    | Ok (m', _) => Ok m' | Err e => Err e end) l acc.1 = Ok acc'.1 /\
  acc'.2 = acc.2 ++ map (fun i => i_path (reparent_row id parent npp old_path seq i (i_version i + 1))) l /\
  Forall (fun i => item_path_check (Some i) (reparent_row id parent npp old_path seq i (i_version i + 1)) db0 = Ok tt /\
                   ref_ok (items db0) (i_parent (reparent_row id parent npp old_path seq i (i_version i + 1))) = true) l.
Proof.
  revert acc; induction l as [|i l IH]; intros [m ps] H; simpl in *.
  - injection H as <-. rewrite app_nil_r. auto.
  - unfold reparent_one at 1 in H. unfold reparent_one at 1. unfold int4 in *.
    destruct (in_int32 _); [|done]. simpl in *.
    destruct (item_path_check _ _ _) as [[]|] eqn:E1; [|done].
    destruct (ref_ok _ _) eqn:E2; [|done]. apply IH in H as (H1 & H2 & H3). simpl in *.
    split; [done|]. split; [|by constructor]. rewrite H2, <- app_assoc. done.
Qed.

Lemma ReparentSubtree_inv id parent npp old_path seq db paths db' :
  keyed (items db) -> ReparentSubtree id parent npp old_path seq db = Ok (paths, db') ->
  db' = set_items (moved id parent npp old_path seq <$> items db) db /\
  (forall p, p ∈ paths <-> exists k i, items db !! k = Some i /\ contained (i_path i) old_path = true /\
                             p = i_path (moved id parent npp old_path seq i)) /\
  (forall k i, items db !! k = Some i -> contained (i_path i) old_path = true ->
     item_path_check (Some i) (moved id parent npp old_path seq i) db = Ok tt).
Proof.
  intros Hk. unfold ReparentSubtree. intros H. destruct (foldM _ _ _) as [[m' ps]|] eqn:Hf; [|done].
  injection H as <- <-. apply reparent_loop_split in Hf as (Hf & Hps & Hall). simpl in *.
  assert (Hmv : forall i, contained (i_path i) old_path = true ->
            moved id parent npp old_path seq i = reparent_row id parent npp old_path seq i (i_version i + 1)).
  { intros i Hi. unfold moved. by rewrite Hi. }
  assert (Hbody : forall (acc : gmap uuid Item) i acc',
     (match reparent_one id parent npp old_path seq db (acc, []) i with
      | Ok (m', _) => Ok m' | Err e => Err e end) = Ok acc' ->
     acc' = <[i_id i := reparent_row id parent npp old_path seq i (i_version i + 1)]> acc).
  { intros acc i acc'. unfold reparent_one, int4. destruct (in_int32 _); [|done].
    destruct (item_path_check _ _ _); [|done]. destruct (ref_ok _ _); [|done]. simpl. congruence. }
  split; [|split].
  - f_equal. apply map_eq. intros k. rewrite lookup_fmap.
    destruct (items db !! k) as [i|] eqn:Hi; simpl.
    + pose proof (Hk _ _ Hi) as <-. unfold moved. destruct (contained _ _) eqn:Hc.
      * refine (rewrite_rows_lookup _ (fun i => Some (reparent_row id parent npp old_path seq i (i_version i + 1)))
                  Hbody _ _ _ i Hf (nodup_filter_ids _ _ Hk) _ Hi). apply subtree_in. eauto.
      * rewrite <- Hi. refine (rewrite_rows_notin _ (fun i => Some _) Hbody _ _ _ _ Hf _).
        intros Hin. apply list_elem_of_fmap in Hin as (j & Hj & Hr). apply subtree_in in Hr as [[kj Hr] Hcj].
        rewrite (Hk _ _ Hr) in Hj. subst kj. rewrite Hi in Hr. injection Hr as ->. congruence.
    + rewrite <- Hi. refine (rewrite_rows_notin _ (fun i => Some _) Hbody _ _ _ _ Hf _).
      intros Hin. apply list_elem_of_fmap in Hin as (j & -> & Hr). apply subtree_in in Hr as [[kj Hr] _].
      rewrite (Hk _ _ Hr) in Hi. congruence.
  - intros p. rewrite Hps. change (map ?f ?l) with (f <$> l). rewrite list_elem_of_fmap. split.
    + intros (i & -> & Hi). apply subtree_in in Hi as [[k Hi] Hc]. exists k, i. by rewrite Hmv.
    + intros (k & i & Hi & Hc & ->). exists i. rewrite Hmv by done. split; [done|]. apply subtree_in. eauto.
  - intros k i Hi Hc. rewrite Hmv by done. rewrite Forall_forall in Hall.
    apply Hall. apply subtree_in. eauto.
Qed.

(** * Insertion and deletion *)

Lemma InsertItem_inv i db db' :
  InsertItem i db = Ok db' ->
  items db !! i_id i = None /\ item_path_check None i db = Ok tt /\
  rank_free (i_project i) (i_id i) (i_rank i) db = true /\
  db' = set_items (<[i_id i := i]> (items db)) db.
Proof.
  unfold InsertItem. destruct (item_path_check _ _ _) as [[]|]; [|done].
  destruct (title_ok _); [|done]. destruct (numeric2 _ _); [|done].
  case_bool_decide as Hn; [done|]. simpl. destruct (key_free _ _); [|done].
  destruct (rank_free _ _ _ _) eqn:Er; [|done]. destruct (item_fks _ _); [|done]. intros [= <-].
  split; [|done]. destruct (items db !! i_id i); [|done]. exfalso. by apply Hn.
Qed.

Lemma path_check_depth old new db ids :
  item_path_check old new db = Ok tt -> i_path new = path_of ids -> ids <> [] -> (length ids <= 8)%nat.
Proof.
  unfold item_path_check. intros H Hp Hne. rewrite Hp, nlevel_path_of in H by done.
  destruct (Nat.leb_spec (length ids) 8); [done|discriminate H].
Qed.

(** The path [applyInsert] computes. *)
Definition insert_path_ok (i : Item) (db : Db) : Prop :=
  match i_parent i with
  | None => i_path i = uuid_string (i_id i)
  | Some p => exists q, items db !! p = Some q /\ i_project q = i_project i /\
                i_path i = i_path q +:+ "." +:+ uuid_string (i_id i)
  end.

(** A row keeps being well placed when no row it depends on goes away. *)
Lemma node_ok_mono m m' id t ids :
  node_ok m id t ids ->
  (forall p q, tv_parent t = Some p -> m !! p = Some q -> m' !! p = Some q) ->
  node_ok m' id t ids.
Proof.
  intros [H1 H2 H3 H4] Hm. split; [done..|]. destruct (tv_parent t) as [p|] eqn:E; [|done].
  destruct H4 as (q & Hq & Hrest). exists q. split; [by eapply Hm|done].
Qed.

Lemma insert_tree i db db' :
  tree_ok (tree db) -> insert_path_ok i db -> InsertItem i db = Ok db' -> tree_ok (tree db').
Proof.
  intros Hok Hip H. apply InsertItem_inv in H as (Hnew & Hchk & _ & ->).
  assert (Htree : tree (set_items (<[i_id i := i]> (items db)) db) = <[i_id i := tview i]> (tree db)).
  { unfold tree. simpl. apply fmap_insert. }
  rewrite Htree. intros id t Ht. apply lookup_insert_Some in Ht as [[<- <-]|[Hne Ht]].
  - assert (exists ids, i_path i = path_of (ids ++ [i_id i]) /\
      match i_parent i with None => ids = [] | Some p => exists q, tree db !! p = Some q /\ ids <> [] /\
        tv_path q = path_of ids /\ tv_project q = i_project i end) as (ids & Hp & Hpar).
    { unfold insert_path_ok in Hip. destruct (i_parent i) as [p|]; [|by exists []].
      destruct Hip as (q & Hq & Hproj & Hpath).
      destruct (Hok _ _ (tree_lookup _ _ _ Hq)) as [qids [_ Hqp _ _]]. simpl in Hqp.
      exists (qids ++ [p]). rewrite path_of_snoc, <- Hqp by auto with sierx. split; [done|].
      exists (tview q). rewrite (tree_lookup _ _ _ Hq). auto with sierx. }
    exists ids. split; simpl; [done..| |].
    + pose proof (path_check_depth _ _ _ _ Hchk Hp (snoc_ne _ _)) as Hd. rewrite length_app in Hd. simpl in Hd. lia.
    + destruct (i_parent i) as [p|]; [|done]. destruct Hpar as (q & Hq & Hrest).
      exists q. split; [|done]. rewrite lookup_insert_ne; [done|]. intros <-.
      unfold tree in Hq. rewrite lookup_fmap, Hnew in Hq. done.
  - destruct (Hok _ _ Ht) as [ids Hn]. exists ids. eapply node_ok_mono; [done|].
    intros p q Hp Hq. rewrite lookup_insert_ne; [done|]. intros <-.
    unfold tree in Hq. rewrite lookup_fmap, Hnew in Hq. done.
Qed.

Lemma HardDeleteItem_inv id db db' :
  Db.HardDeleteItem id db = Ok db' ->
  (items db !! id = None /\ db' = db) \/
  (is_Some (items db !! id) /\ item_referenced id db = false /\
   db' = set_rollups (delete id (rollups db)) (set_items (delete id (items db)) db)).
Proof.
  unfold Db.HardDeleteItem. destruct (items db !! id) eqn:E; [|intros [= <-]; by left].
  destruct (item_referenced id db) eqn:Er; [done|]. intros [= <-]. right. eauto.
Qed.

Lemma not_referenced id db k j :
  item_referenced id db = false -> items db !! k = Some j -> k <> id -> i_parent j <> Some id.
Proof.
  unfold item_referenced. rewrite !orb_false_iff. intros [[H _] _] Hj Hne Hp.
  apply not_true_iff_false in H. apply H. apply existsb_exists. exists j.
  split; [|by apply bool_decide_eq_true]. apply list_elem_of_In, list_elem_of_fmap. exists (k, j).
  split; [done|]. apply elem_of_map_to_list. by rewrite lookup_delete_ne.
Qed.

Lemma delete_tree id db db' : tree_ok (tree db) -> Db.HardDeleteItem id db = Ok db' -> tree_ok (tree db').
Proof.
  intros Hok H. apply HardDeleteItem_inv in H as [[_ ->]|(_ & Href & ->)]; [done|].
  intros k t Ht. unfold tree in Ht. simpl in Ht. rewrite fmap_delete in Ht.
  apply lookup_delete_Some in Ht as [Hne Ht]. change (tree db !! k = Some t) in Ht.
  destruct (Hok _ _ Ht) as [ids Hn]. exists ids. eapply node_ok_mono; [done|].
  intros p q Hp Hq. unfold tree. simpl. rewrite fmap_delete, lookup_delete_ne; [done|]. intros <-.
  apply tree_lookup_inv in Ht as (j & Hj & ->). by eapply not_referenced.
Qed.

(** * Moving a subtree *)

Section move.
Context (db : Db) (Hok : tree_ok (tree db)).
Context (id : uuid) (x : Item) (Hx : items db !! id = Some x).
Context (xids : list uuid) (Hxp : i_path x = path_of (xids ++ [id])).
(** The new parent: the root, or an item outside the subtree. *)
Context (parent : option uuid) (nids : list uuid) (npp : string).
Context (Hparent : match parent with
  | None => nids = [] /\ npp = ""
  | Some p => exists q, items db !! p = Some q /\ nids <> [] /\ npp = path_of nids /\ i_path q = path_of nids /\
                i_project q = i_project x /\ contained (i_path q) (i_path x) = false
  end).
Context (seq : Z).

Lemma moved_row k i :
  items db !! k = Some i ->
  if bool_decide (contained (i_path i) (i_path x) = true)
  then exists suf, i_path i = path_of (xids ++ id :: suf) /\
         i_path (moved id parent npp (i_path x) seq i) = path_of (nids ++ id :: suf)
  else moved id parent npp (i_path x) seq i = i.
Proof using Hok Hx Hxp Hparent.
  intros Hi. unfold moved.
  destruct (contained (i_path i) (i_path x)) eqn:Hc;
    [rewrite bool_decide_true by done|by rewrite bool_decide_false].
  destruct (Hok _ _ (tree_lookup _ _ _ Hi)) as [iids [_ Hip _ _]]. simpl in Hip.
  rewrite Hxp, Hip, contained_path_of in Hc by auto with sierx.
  apply bool_decide_eq_true in Hc as [suf Hsuf].
  exists suf. rewrite <- app_assoc in Hsuf. simpl in Hsuf.
  assert (Hpi : i_path i = path_of (xids ++ id :: suf)) by (by rewrite Hip, Hsuf).
  split; [done|]. unfold reparent_row. simpl.
  rewrite Hxp, nlevel_path_of by auto with sierx. rewrite length_app. simpl.
  replace (length xids + 1 - 1)%nat with (length xids) by lia.
  rewrite Hpi, subpath_path_of by (by destruct xids). rewrite drop_app_length.
  destruct parent as [p|].
  - destruct Hparent as (q & _ & Hne & -> & _).
    destruct (String.eqb_spec (path_of nids) ""); [by apply path_of_nonempty in Hne|].
    by apply concat_path_of.
  - destruct Hparent as [-> ->]. done.
Qed.

Abbreviation mv := (moved id parent npp (i_path x) seq).
Abbreviation moved_db := (set_items (mv <$> items db) db).

Lemma moved_lookup p q : items db !! p = Some q -> tree moved_db !! p = Some (tview (mv q)).
Proof. intros Hq. apply tree_lookup. simpl. by rewrite lookup_fmap, Hq. Qed.

Lemma moved_project i : i_project (mv i) = i_project i.
Proof. unfold moved. by destruct (contained _ _). Qed.

(** The moved item itself. *)
Lemma moved_self_ok : i_id x = id -> (length (nids ++ [id]) <= 8)%nat -> node_ok (tree moved_db) id (tview (mv x)) nids.
Proof using Hok Hx Hxp Hparent.
  intros Hid Hdepth. pose proof moved_lookup as Hnew. pose proof (moved_row id x Hx) as Hrow. assert (Hc : contained (i_path x) (i_path x) = true).
  { rewrite Hxp, contained_path_of by auto with sierx. apply bool_decide_eq_true. exists []. by rewrite app_nil_r. }
  rewrite bool_decide_true in Hrow by done. destruct Hrow as (suf & Hold & Hrow). rewrite Hxp in Hold.
  apply path_of_inj in Hold; [|apply snoc_ne|by destruct xids]. apply app_inv_head in Hold. injection Hold as <-.
  unfold moved, reparent_row in *. rewrite Hc in *. simpl in *. rewrite Hid, bool_decide_true in * by done.
  split; simpl; [done..| |].
  - rewrite length_app in Hdepth. simpl in Hdepth. lia.
  - destruct parent as [p|]; [|by destruct Hparent]. destruct Hparent as (q & Hq & Hne & _ & Hqp & Hproj & Hout).
    exists (tview q). rewrite (Hnew _ _ Hq). unfold moved. rewrite Hout. simpl. done.
Qed.

(** An item below it. *)
Lemma moved_below_ok k i suf : items db !! k = Some i -> contained (i_path i) (i_path x) = true -> k <> id ->
  node_ok (tree db) k (tview i) (xids ++ id :: suf) -> (length (nids ++ id :: suf ++ [k]) <= 8)%nat ->
  node_ok (tree moved_db) k (tview (mv i)) (nids ++ id :: suf).
Proof using Hok Hx Hxp Hparent.
  intros Hi Hc Hki [Hid Hip _ Hpar] Hdepth. simpl in *. pose proof (moved_row k i Hi) as Hrow. rewrite bool_decide_true in Hrow by done.
  destruct Hrow as (suf1 & Hold & Hrow). rewrite Hip in Hold. apply path_of_inj in Hold; [|apply snoc_ne|by destruct xids].
  rewrite <- app_assoc in Hold. apply app_inv_head in Hold. injection Hold as <-.
  assert (Hp' : i_parent (mv i) = i_parent i) by (unfold moved; rewrite Hc; simpl; by rewrite Hid, bool_decide_false).
  split; simpl.
  - unfold moved. by rewrite Hc.
  - rewrite Hrow. by rewrite <- app_assoc.
  - revert Hdepth. rewrite !length_app. simpl. rewrite ?length_app. simpl. lia.
  - rewrite Hp', moved_project. destruct (i_parent i) as [p|]; [|by destruct xids]. destruct Hpar as (q & Hq & Hne & Hqp & Hproj).
    apply tree_lookup_inv in Hq as (qi & Hqi & ->). simpl in *. exists (tview (mv qi)). rewrite (moved_lookup _ _ Hqi).
    split; [done|]. split; [by destruct nids|]. pose proof (moved_row p qi Hqi) as Hq.
    assert (contained (i_path qi) (i_path x) = true) as Hcq.
    { rewrite Hqp, Hxp, contained_path_of by (by destruct xids). apply bool_decide_eq_true. exists suf. by rewrite <- app_assoc. }
    rewrite bool_decide_true in Hq by done. destruct Hq as (suf' & Hq1 & Hq2). rewrite Hqp in Hq1.
    apply path_of_inj in Hq1; [|by destruct xids..]. apply app_inv_head in Hq1. injection Hq1 as <-. simpl. by rewrite moved_project.
Qed.

(** An item elsewhere. *)
Lemma moved_outside_ok k i iids : items db !! k = Some i -> contained (i_path i) (i_path x) <> true ->
  node_ok (tree db) k (tview i) iids -> node_ok (tree moved_db) k (tview (mv i)) iids.
Proof using Hok Hx Hxp Hparent.
  intros Hi Hc [Hid Hip Hdep Hpar]. simpl in *. pose proof (moved_row k i Hi) as Hrow. rewrite bool_decide_false in Hrow by done. rewrite Hrow.
  split; simpl; [done..|]. destruct (i_parent i) as [p|]; [|done]. destruct Hpar as (q & Hq & Hne & Hqp & Hproj).
  apply tree_lookup_inv in Hq as (qi & Hqi & ->). simpl in *. exists (tview (mv qi)). rewrite (moved_lookup _ _ Hqi).
  pose proof (moved_row p qi Hqi) as Hq. case_bool_decide as Hcq; [|by rewrite Hq].
  exfalso. apply Hc. rewrite Hip, Hxp. rewrite Hqp, Hxp in Hcq. rewrite contained_path_of in * by auto with sierx.
  apply bool_decide_eq_true in Hcq as [suf ->]. apply bool_decide_eq_true. exists (suf ++ [k]). by rewrite <- app_assoc.
Qed.

Lemma move_tree paths db' :
  ReparentSubtree id parent npp (i_path x) seq db = Ok (paths, db') -> tree_ok (tree db').
Proof using Hok Hx Hxp Hparent.
  intros H. apply ReparentSubtree_inv in H as (-> & _ & Hchk); [|by apply tree_ok_keyed].
  intros k t Ht. apply tree_lookup_inv in Ht as (i' & Hi' & ->). simpl in Hi'.
  rewrite lookup_fmap in Hi'. apply fmap_Some in Hi' as (i & Hi & ->).
  destruct (Hok _ _ (tree_lookup _ _ _ Hi)) as [iids Hnode]. pose proof (moved_row k i Hi) as Hrow.
  case_bool_decide as Hc; [|exists iids; by apply moved_outside_ok].
  destruct Hrow as (suf & Hold & Hrow). pose proof (node_path _ _ _ _ Hnode) as Hip. simpl in Hip. rewrite Hold in Hip.
  apply path_of_inj in Hip; [|by destruct xids|apply snoc_ne].
  assert (Hdepth := path_check_depth _ _ _ _ (Hchk _ _ Hi Hc) Hrow ltac:(by destruct nids)).
  destruct suf as [|z suf _] using rev_ind.
  - apply app_inj_tail in Hip as [_ <-]. rewrite Hx in Hi. injection Hi as <-. exists nids.
    apply moved_self_ok; [exact (node_id _ _ _ _ Hnode)|done].
  - rewrite app_comm_cons, app_assoc in Hip. apply app_inj_tail in Hip as [<- ->]. exists (nids ++ id :: suf).
    apply moved_below_ok; try done. intros ->. rewrite Hx in Hi. injection Hi as <-. rewrite Hold in Hxp.
    apply path_of_inj in Hxp; [|by destruct xids|apply snoc_ne]. apply (f_equal length) in Hxp. rewrite !length_app in Hxp. simpl in Hxp.
    rewrite ?length_app in Hxp. simpl in Hxp. lia.
Qed.
End move.

(** * Rank maintenance touches ranks and versions only *)

Definition rank_only (i i' : Item) : Prop :=
  exists r v, i_version i <= v /\ i' = bump i (i_parent i) (i_path i) r v (i_change_seq i) (i_deleted i).

Lemma rank_only_refl i : rank_only i i.
Proof. exists (i_rank i), (i_version i). split; [lia|by destruct i]. Qed.
Lemma rank_only_trans i j k : rank_only i j -> rank_only j k -> rank_only i k.
Proof. intros (r & v & Hv & ->) (r' & v' & Hv' & ->). exists r', v'. simpl in *. split; [lia|done]. Qed.

Definition rank_change (db db' : Db) : Prop :=
  db' = set_items (items db') db /\
  forall k, match items db !! k, items db' !! k with
            | Some i, Some i' => rank_only i i'
            | None, None => True
            | _, _ => False
            end.

#[export] Instance rank_change_refl : Reflexive rank_change.
Proof. intros db. split; [by destruct db|]. intros k. destruct (items db !! k); [apply rank_only_refl|done]. Qed.

#[export] Instance rank_change_trans : Transitive rank_change.
Proof.
  intros a b c [Hb Hab] [Hc Hbc]. split; [rewrite Hc, Hb; done|]. intros k. specialize (Hab k). specialize (Hbc k).
  destruct (items a !! k), (items b !! k), (items c !! k); try done. by eapply rank_only_trans.
Qed.

Lemma rank_change_tree db db' : rank_change db db' -> tree db' = tree db.
Proof.
  intros [_ H]. apply map_eq. intros k. unfold tree. rewrite !lookup_fmap. specialize (H k).
  destruct (items db !! k), (items db' !! k); try done. destruct H as (r & v & _ & ->). done.
Qed.

Lemma rank_change_insert db k i i' :
  items db !! k = Some i -> rank_only i i' -> rank_change db (set_items (<[k := i']> (items db)) db).
Proof.
  intros Hi Hr. split; [done|]. intros k'. simpl. destruct (decide (k = k')) as [<-|Hne].
  - by rewrite Hi, lookup_insert_eq.
  - rewrite lookup_insert_ne by done. destruct (items db !! k'); [apply rank_only_refl|done].
Qed.

Lemma rebalance_rank_change project ranks db db' :
  keyed (items db) -> rebalanceProjectRanks project ranks db = Ok db' -> rank_change db db'.
Proof.
  unfold rebalanceProjectRanks. intros Hk. destruct ranks as [|r rs]; [by intros [= <-]|].
  destruct (Rank.RankSequence _) as [new|]; [|done]. intros H.
  apply sql_inv, SetProjectRanks_inv in H as [_ ->]; [|done]. split; [done|]. intros k. simpl.
  rewrite lookup_fmap. destruct (items db !! k) as [i|]; simpl; [|done].
  unfold reranked. case_bool_decide; [|apply rank_only_refl].
  destruct (assoc_rank _ _); [|apply rank_only_refl]. eexists _, _; split; [|done]; lia.
Qed.

Lemma rankForNewItem_rank_change project db rank db' :
  keyed (items db) -> rankForNewItem project db = Ok (rank, db') -> rank_change db db'.
Proof.
  unfold rankForNewItem. intros Hk H. destruct (rankBetween _ _); [|done].
  destruct (Rank.RankNeedsRebalance _).
  - destruct (rebalanceProjectRanks _ _ _) eqn:E; [|done]. destruct (rankBetween _ _); [|done].
    injection H as _ <-. by eapply rebalance_rank_change.
  - by injection H as _ <-.
Qed.

Lemma reparent_rank_change n item after db db' :
  keyed (items db) -> reparent_rank n item after db = Ok db' -> rank_change db db'.
Proof.
  revert db; induction n as [|n IH]; intros db Hk H; simpl in H; [done|].
  destruct (scan_ranks _ _ _ _ _) as [[lo hi]|]; [|done].
  destruct (rankBetween _ _) as [rank|]; [|done]. destruct (Rank.RankNeedsRebalance rank).
  - destruct (rebalanceProjectRanks _ _ _) as [db1|] eqn:E; [|done].
    apply rebalance_rank_change in E; [|done]. transitivity db1; [done|]. apply IH; [|done].
    intros k i Hi. destruct E as [_ E]. specialize (E k). rewrite Hi in E.
    destruct (items db !! k) eqn:Hi0; [|done]. destruct E as (r & v & _ & ->). simpl. by eapply Hk.
  - apply sql_inv, SetItemRank_inv in H as [[_ ->]|(i & Hi & _ & ->)]; [done|].
    eapply rank_change_insert; [done|]. eexists _, _; split; [|done]; lia.
Qed.

(** * Row changes of a mutation *)

Lemma NextItemKey_inv p db k db' :
  NextItemKey p db = Ok (k, db') -> exists ps, db' = set_projects ps db.
Proof.
  unfold NextItemKey, int4. destruct (projects db !! p); [|done]. destruct (in_int32 _); [|done].
  intros [= _ <-]. by eexists.
Qed.

(** [applyInsert]: a fresh key, perhaps a respread, then one new row. *)
Lemma applyInsert_inv ws inp seq db path db' :
  keyed (items db) -> applyInsert ws inp seq db = Ok (path, db') ->
  exists row db1,
    db' = set_items (<[in_ID inp := row]> (items db1)) db1 /\
    (exists ps dbk, dbk = set_projects ps db /\ rank_change dbk db1 /\
       (if String.eqb (in_rank inp) "" then rankForNewItem (in_ProjectID inp) dbk = Ok (i_rank row, db1)
        else db1 = dbk /\ i_rank row = in_rank inp)) /\
    InsertItem row db1 = Ok db' /\ insert_path_ok row db1 /\
    i_id row = in_ID inp /\ i_path row = path /\ i_project row = in_ProjectID inp /\
    i_change_seq row = seq /\ i_deleted row = false /\ i_version row = 1 /\ i_workspace row = ws /\
    i_fields row = marshalFields (in_Fields inp).
Proof.
  intros Hk H. unfold applyInsert in H.
  destruct (sql (NextItemKey _ _)) as [[key dbk]|] eqn:Ek; [|done].
  apply sql_inv, NextItemKey_inv in Ek as [ps Hdbk].
  destruct (match in_ParentID inp with None => _ | Some _ => _ end) as [p|] eqn:Ep; [|done].
  destruct (if String.eqb _ "" then _ else _) as [[rank db1]|] eqn:Er; [|done].
  assert (Hrc : rank_change dbk db1).
  { destruct (String.eqb _ _); [|by injection Er as _ <-].
    eapply rankForNewItem_rank_change; [|exact Er]. by subst dbk. }
  set (row := mkItem (in_ID inp) _ _ _ _ _ _ _ _ _ _ _ _ _ _ _ _ _ _ _ _ _) in H.
  destruct (sql (InsertItem row db1)) as [db2|] eqn:Ei; [|done]. injection H as <- <-.
  apply sql_inv in Ei. exists row, db1. split; [by apply InsertItem_inv in Ei as (_ & _ & _ & ->)|].
  split; [exists ps, dbk; split; [done|]; split; [done|]; destruct (String.eqb _ _); [done|];
          by injection Er as <- <-|].
  split; [done|]. split; [|done].
  unfold insert_path_ok. simpl. destruct (in_ParentID inp) as [pid|]; [|by injection Ep].
  destruct (sql (GetItem pid dbk)) as [q|] eqn:Eq; [|done]. case_bool_decide as Hproj; [|done].
  injection Ep as <-. apply sql_inv in Eq. unfold GetItem in Eq.
  destruct (items dbk !! pid) as [q'|] eqn:Hq; [|done]. injection Eq as ->.
  destruct Hrc as [_ Hrc]. specialize (Hrc pid). rewrite Hq in Hrc.
  destruct (items db1 !! pid) as [q1|]; [|done]. destruct Hrc as (r & v & _ & ->). by eexists.
Qed.

(** [applyReparent]: the subtree rewrite under a checked parent, then perhaps a
    new rank. *)
Lemma applyReparent_inv r seq db paths db' :
  tree_ok (tree db) -> applyReparent r seq db = Ok (paths, db') ->
  exists x xids nids npp rows db1,
    items db !! rp_ID r = Some x /\ i_path x = path_of (xids ++ [rp_ID r]) /\
    match rp_NewParentID r with
    | None => nids = [] /\ npp = ""
    | Some p => exists q, items db !! p = Some q /\ nids <> [] /\ npp = path_of nids /\ i_path q = path_of nids /\
                  i_project q = i_project x /\ contained (i_path q) (i_path x) = false /\ i_deleted q = false
    end /\
    ReparentSubtree (rp_ID r) (rp_NewParentID r) npp (i_path x) seq db = Ok (rows, db1) /\
    paths = i_path x :: rows /\
    (if rp_SetRank r then reparent_rank 2 x (rp_RankAfter r) db1 = Ok db' else db' = db1) /\ rank_change db1 db'.
Proof.
  intros Hok H. unfold applyReparent in H.
  destruct (sql (GetItem _ _)) as [x|] eqn:Ex; [|done]. apply sql_inv in Ex. unfold GetItem in Ex.
  destruct (items db !! rp_ID r) as [x'|] eqn:Hx; [|done]. injection Ex as ->.
  destruct (match rp_NewParentID r with None => _ | Some _ => _ end) as [npp|] eqn:Ep; [|done].
  destruct (subtree_height _ _); [|done]. destruct (_ <? _)%nat; [done|].
  destruct (sql (ReparentSubtree _ _ _ _ _ _)) as [[rows db1]|] eqn:Er; [|done]. apply sql_inv in Er.
  destruct (if rp_SetRank r then _ else _) as [db2|] eqn:Es; [|done]. injection H as <- <-.
  destruct (Hok _ _ (tree_lookup _ _ _ Hx)) as [xids [_ Hxp _ _]]. simpl in Hxp.
  assert (exists nids, match rp_NewParentID r with
    | None => nids = [] /\ npp = ""
    | Some p => exists q, items db !! p = Some q /\ nids <> [] /\ npp = path_of nids /\ i_path q = path_of nids /\
                  i_project q = i_project x /\ contained (i_path q) (i_path x) = false /\ i_deleted q = false
    end) as [nids Hn].
  { destruct (rp_NewParentID r) as [p|]; [|exists []; split; [done|by injection Ep]].
    destruct (sql (GetItem p db)) as [q|] eqn:Eq; [|done]. apply sql_inv in Eq. unfold GetItem in Eq.
    destruct (items db !! p) as [q'|] eqn:Hq; [|done]. injection Eq as ->.
    destruct (negb _ || _) eqn:Hg; [done|]. apply orb_false_iff in Hg as [Hg Hdel].
    apply negb_false_iff, bool_decide_eq_true in Hg.
    destruct (isDescendantOrSelf _ _) eqn:Hd; [done|]. injection Ep as <-.
    destruct (Hok _ _ (tree_lookup _ _ _ Hq)) as [qids [_ Hqp _ _]]. simpl in Hqp.
    exists (qids ++ [p]), q. rewrite Hqp. rewrite Hqp, Hxp, isDescendantOrSelf_path_of in Hd by apply snoc_ne.
    rewrite Hxp, contained_path_of by apply snoc_ne. auto 10 with sierx. }
  exists x, xids, nids, npp, rows, db1. split; [done|]. split; [done|]. split; [done|]. split; [done|]. split; [done|].
  destruct (rp_SetRank r); [|injection Es as ->; done]. split; [done|].
  eapply reparent_rank_change; [|exact Es]. apply tree_ok_keyed.
  eapply move_tree; [exact Hok|exact Hx|exact Hxp| |exact Er].
  destruct (rp_NewParentID r); [|done]. destruct Hn as (q & H1 & H2 & H3 & H4 & H5 & H6 & _). by exists q.
Qed.

Lemma applyUpdate_inv up seq db path db' :
  applyUpdate up seq db = Ok (path, db') ->
  exists i, items db !! up_ID up = Some i /\ i_path i = path /\
    db' = set_items (<[up_ID up := update_row (update_params up seq) (i_version i + 1) i]> (items db)) db /\
    rank_free (i_project i) (up_ID up) (coalesce (up_Rank up) (i_rank i)) db = true.
Proof.
  unfold applyUpdate. intros H. destruct (sql _) as [[i' db1]|] eqn:E; [|done].
  apply sql_inv, UpdateItemFields_inv in E as (i & v & Hi & -> & -> & Hr & ->). injection H as <- <-.
  exists i. done.
Qed.

Lemma applyComment_inv actor c db db' :
  applyComment actor c db = Ok db' -> exists cs, db' = set_comments cs db.
Proof.
  assert (Hsame : exists cs, db = set_comments cs db) by (exists (comments db); by destruct db).
  unfold applyComment, EditComment, SoftDeleteComment, InsertComment. intros H.
  repeat (case_match; try done); simplify_eq/=; try done; by eexists.
Qed.

Lemma InsertLink_inv id l db db' : InsertLink id l db = Ok db' -> db' = set_links (<[id := l]> (links db)) db.
Proof. unfold InsertLink. intros H. repeat (case_match; try done). all: congruence. Qed.

(** One row change keeps the hierarchy well-formed. *)
Lemma apply_kind_tree m c seq s s' :
  tree_ok (tree (pr_db s)) -> apply_kind m c seq s = Ok s' -> tree_ok (tree (pr_db s')).
Proof.
  intros Hok H. unfold apply_kind in H. destruct (ch_kind c).
  - destruct (applyInsert _ _ _ _) as [[path db]|] eqn:E; [|done]. injection H as <-.
    apply applyInsert_inv in E as (row & db1 & _ & (ps & dbk & -> & Hrc & _) & Hins & Hip & _);
      [|by apply tree_ok_keyed].
    eapply insert_tree; [|exact Hip|exact Hins]. by rewrite (rank_change_tree _ _ Hrc).
  - destruct (applyUpdate _ _ _) as [[path db]|] eqn:E; [|done]. injection H as <-.
    apply applyUpdate_inv in E as (i & Hi & _ & -> & _). simpl. by rewrite (tree_insert_same _ _ _ _ Hi).
  - destruct (applyReparent _ _ _) as [[paths db]|] eqn:E; [|done]. injection H as <-.
    apply applyReparent_inv in E as (x & xids & nids & npp & rows & db1 & Hx & Hxp & Hn & Hr & _ & _ & Hrc); [|done].
    simpl. rewrite (rank_change_tree _ _ Hrc). eapply move_tree; [exact Hok|exact Hx|exact Hxp| |exact Hr].
    destruct (rp_NewParentID r); [|done]. destruct Hn as (q & H1 & H2 & H3 & H4 & H5 & H6 & _). by exists q.
  - destruct (sql _) as [[row db]|] eqn:E; [|done]. injection H as <-.
    apply sql_inv, SoftDeleteItem_inv in E as (i & Hi & _ & -> & ->). simpl. by rewrite (tree_insert_same _ _ _ _ Hi).
  - destruct (sql (GetItem _ _)); [|done]. destruct (sql (Db.HardDeleteItem _ _)) as [db|] eqn:E; [|done].
    injection H as <-. apply sql_inv in E. by eapply delete_tree.
  - destruct (sql _) as [db|] eqn:E; [|done]. injection H as <-. apply sql_inv, InsertLink_inv in E as ->. done.
  - by injection H as <-.
  - destruct (applyComment _ _ _) as [db|] eqn:E; [|done]. injection H as <-. by apply applyComment_inv in E as [cs ->].
Qed.

Lemma touch_tree id seq db db' : TouchItem id seq db = Ok db' -> tree db' = tree db.
Proof.
  intros H. apply TouchItem_inv in H as [[_ ->]|(i & Hi & ->)]; [done|]. by apply (tree_insert_same _ _ i).
Qed.

Lemma apply_change_inv m seqs s c s' :
  apply_change m seqs s c = Ok s' ->
  exists s1, apply_kind m c (coalesce (seqs !! ch_item c) 0) s = Ok s1 /\
    (if touches_version (ch_kind c)
     then TouchItem (ch_item c) (coalesce (seqs !! ch_item c) 0) (pr_db s1) = Ok (pr_db s')
     else pr_db s' = pr_db s1) /\
    pr_touched s' = pr_touched s1 /\ pr_created s' = pr_created s1 /\ pr_hard s' = pr_hard s1.
Proof.
  unfold apply_change. intros H. destruct (apply_kind _ _ _ _) as [s1|] eqn:E; [|done]. exists s1.
  split; [done|]. destruct (touches_version _).
  - destruct (sql _) eqn:Et; [|done]. apply sql_inv in Et. by injection H as <-.
  - by injection H as <-.
Qed.

Lemma apply_change_tree m seqs s c s' :
  tree_ok (tree (pr_db s)) -> apply_change m seqs s c = Ok s' -> tree_ok (tree (pr_db s')).
Proof.
  intros Hok H. apply apply_change_inv in H as (s1 & Hk & Ht & _).
  pose proof (apply_kind_tree _ _ _ _ _ Hok Hk) as H1.
  destruct (touches_version _); [by rewrite (touch_tree _ _ _ _ Ht)|by rewrite Ht].
Qed.

End StoreTree.
