(* ===== verification/Store.v ===== *)
(** Properties of [Store.Mutate] as a whole: what a successful call did, and what
    every call keeps: the hierarchy, the gap-free change log, the version checks. *)
From S2P Require Import Prelude Uuid Ltree Float Json Rank Db Events Mutate Demo StoreTree.
Open Scope Z_scope.

Module Store.
Import Ltree Db Events Mutate StoreTree.

Section store.
Context `{UuidParse}.

(** * Inversion of a successful call *)

Definition only_rollups (db db' : Db) : Prop := db' = set_rollups (rollups db') db.

#[local] Instance only_rollups_refl : Reflexive only_rollups.
Proof. intros db. by destruct db. Qed.
#[local] Instance only_rollups_trans : Transitive only_rollups.
Proof. unfold only_rollups. intros a b c -> ->. by destruct a. Qed.

Lemma foldM_rel {E A S} (f : S -> A -> result E S) (R : relation S) `{!Reflexive R, !Transitive R} xs s s' :
  (forall s x s', f s x = Ok s' -> R s s') -> foldM f xs s = Ok s' -> R s s'.
Proof.
  intros Hf Hs. eapply (foldM_inv f (R s)); [|reflexivity|exact Hs]. intros ? ? ? _ Hr Hx.
  etransitivity; [exact Hr|]. by eapply Hf.
Qed.

Lemma InsertRollupRow_inv id db db' :
  InsertRollupRow id db = Ok db' ->
  (is_Some (rollups db !! id) /\ db' = db) \/
  (rollups db !! id = None /\ is_Some (items db !! id) /\
   db' = set_rollups (<[id := mkRollup 0 0 None None None None]> (rollups db)) db).
Proof.
  unfold InsertRollupRow. destruct (rollups db !! id); [intros [= <-]; left; eauto|].
  case_bool_decide; [|done]. intros [= <-]. right. done.
Qed.

Lemma RecomputeRollup_inv id db db' :
  RecomputeRollup id db = Ok db' ->
  is_Some (items db !! id) /\ db' = set_rollups (<[id := aggregate (descendants id db)]> (rollups db)) db.
Proof.
  unfold RecomputeRollup. intros Hr. repeat (case_match; try done); simplify_eq.
  split; [|done]. by eapply bool_decide_eq_true.
Qed.

Lemma insert_rollups_only ids db db' :
  foldM (fun db id => sql (InsertRollupRow id db)) ids db = Ok db' -> only_rollups db db'.
Proof.
  apply foldM_rel; [apply _..|]. intros s x s' Hs. apply sql_inv, InsertRollupRow_inv in Hs as [[_ ->]|(_ & _ & ->)];
    by destruct s.
Qed.

Lemma recompute_only ids db db' : recomputeRollups ids db = Ok db' -> only_rollups db db'.
Proof.
  apply foldM_rel; [apply _..|]. intros s x s' Hs. apply sql_inv, RecomputeRollup_inv in Hs as [_ ->]. by destruct s.
Qed.

Lemma insert_events ws evs db :
  fold_left (fun db es => InsertEvent (event_row ws es) db) evs db =
  set_events (events db ++ map (event_row ws) evs) db.
Proof.
  revert db; induction evs as [|e evs IH]; intros db; simpl.
  - rewrite app_nil_r. by destruct db.
  - rewrite IH. unfold InsertEvent, set_events. simpl. by rewrite <- app_assoc.
Qed.

Definition live_ancestors (s : progress) : list uuid :=
  List.filter (fun id => negb (bool_decide (id ∈ pr_hard s))) (dirtyAncestors (pr_touched s)).

(** The three maintenance steps change rollups, then append the events. *)
Lemma finish_inv ws evs s db' :
  finish ws evs s = Ok db' ->
  exists db1 db2,
    foldM (fun db id => sql (InsertRollupRow id db)) (pr_created s) (pr_db s) = Ok db1 /\
    recomputeRollups (live_ancestors s) db1 = Ok db2 /\
    db' = set_events (events (pr_db s) ++ map (event_row ws) evs) (set_rollups (rollups db2) (pr_db s)) /\
    db2 = set_rollups (rollups db2) (pr_db s) /\ db1 = set_rollups (rollups db1) (pr_db s).
Proof.
  unfold finish. intros H0. destruct (foldM _ _ _) as [db1|] eqn:E1; [|done].
  destruct (recomputeRollups _ _) as [db2|] eqn:E2; [|done]. injection H0 as <-. exists db1, db2.
  pose proof (insert_rollups_only _ _ _ E1) as O1. pose proof (recompute_only _ _ _ E2) as O2.
  assert (O3 : only_rollups (pr_db s) db2) by (by etransitivity).
  split; [done|]. split; [done|]. split; [|split; done].
  rewrite insert_events. unfold only_rollups in O3. rewrite O3. done.
Qed.

(** The tables the row changes leave alone. *)
Definition statics (db : Db) : gmap uuid Z * list Event * gmap uuid Status * gmap uuid ItemType * gset (uuid * Z) * gset uuid :=
  (seq_counter db, events db, statuses db, item_types db, project_configs db, users db).

#[local] Arguments statics : simpl never.

Lemma rank_change_statics db db' : rank_change db db' -> statics db' = statics db /\ rollups db' = rollups db.
Proof. intros [-> _]. done. Qed.

Lemma keyed_reparent id parent npp old seq db rows db' :
  keyed (items db) -> ReparentSubtree id parent npp old seq db = Ok (rows, db') ->
  statics db' = statics db /\ rollups db' = rollups db.
Proof. intros Hk Hr. apply ReparentSubtree_inv in Hr as (-> & _); done. Qed.

Lemma apply_kind_statics m c seq s s' :
  tree_ok (tree (pr_db s)) -> apply_kind m c seq s = Ok s' -> statics (pr_db s') = statics (pr_db s).
Proof.
  intros Hok Ha. unfold apply_kind in Ha. destruct (ch_kind c).
  - destruct (applyInsert _ _ _ _) as [[path db]|] eqn:E; [|done]. injection Ha as <-.
    apply applyInsert_inv in E as (row & db1 & -> & (ps & dbk & -> & Hrc & _) & _); [|by apply tree_ok_keyed].
    transitivity (statics db1); [done|]. by destruct (rank_change_statics _ _ Hrc) as [-> _].
  - destruct (applyUpdate _ _ _) as [[path db]|] eqn:E; [|done]. injection Ha as <-.
    apply applyUpdate_inv in E as (i & Hi & _ & -> & _). done.
  - destruct (applyReparent _ _ _) as [[paths db]|] eqn:E; [|done]. injection Ha as <-.
    apply applyReparent_inv in E as (x & xids & nids & npp & rows & db1 & _ & _ & _ & Hr & _ & _ & Hrc); [|done].
    simpl. destruct (rank_change_statics _ _ Hrc) as [-> _].
    eapply keyed_reparent; [by apply tree_ok_keyed|exact Hr].
  - destruct (sql _) as [[row db]|] eqn:E; [|done]. injection Ha as <-.
    apply sql_inv, SoftDeleteItem_inv in E as (i & Hi & _ & -> & ->). done.
  - destruct (sql (GetItem _ _)); [|done]. destruct (sql (Db.HardDeleteItem _ _)) as [db|] eqn:E; [|done].
    injection Ha as <-. apply sql_inv, HardDeleteItem_inv in E as [[_ ->]|(_ & _ & ->)]; done.
  - destruct (sql _) as [db|] eqn:E; [|done]. injection Ha as <-. apply sql_inv, InsertLink_inv in E as ->. done.
  - by injection Ha as <-.
  - destruct (applyComment _ _ _) as [db|] eqn:E; [|done]. injection Ha as <-. by apply applyComment_inv in E as [cs ->].
Qed.

Lemma touch_statics id seq db db' :
  TouchItem id seq db = Ok db' -> statics db' = statics db /\ rollups db' = rollups db.
Proof. intros Ht. by apply TouchItem_inv in Ht as [[_ ->]|(i & Hi & ->)]. Qed.

Lemma apply_change_statics m seqs s c s' :
  tree_ok (tree (pr_db s)) -> apply_change m seqs s c = Ok s' -> statics (pr_db s') = statics (pr_db s).
Proof.
  intros Hok Ha. apply apply_change_inv in Ha as (s1 & Hk & Ht & _).
  rewrite <- (apply_kind_statics _ _ _ _ _ Hok Hk).
  destruct (touches_version _); [by apply touch_statics in Ht as [-> _]|by rewrite Ht].
Qed.

(** The loop over the changes. *)
Lemma changes_tree m seqs cs s s' :
  tree_ok (tree (pr_db s)) -> foldM (apply_change m seqs) cs s = Ok s' ->
  tree_ok (tree (pr_db s')) /\ statics (pr_db s') = statics (pr_db s).
Proof.
  intros Hok. apply (foldM_inv _ (fun t => tree_ok (tree (pr_db t)) /\ statics (pr_db t) = statics (pr_db s))); [|done].
  intros t c t' _ [H1 H2] Hc. split; [by eapply apply_change_tree|].
  rewrite <- H2. by eapply apply_change_statics.
Qed.

Lemma AllocateSeq_inv n ws db v db' :
  AllocateSeq n ws db = Ok (v, db') ->
  exists v0, seq_counter db !! ws = Some v0 /\ v = v0 + n /\ db' = set_seq_counter (<[ws := v]> (seq_counter db)) db.
Proof.
  unfold AllocateSeq, int8. destruct (seq_counter db !! ws) as [v0|]; [|done].
  destruct (in_int64 _); [|done]. intros [= <- <-]. by exists v0.
Qed.

(** Everything a successful flush went through. *)
Record flushed (m : Mutation) (db : Db) (res : Result_) (db' : Db) (v0 : Z) (dbA : Db)
    (evs : list (event * Z)) (s : progress) : Prop := {
  fl_counter : seq_counter db !! m_workspace m = Some v0;
  fl_alloc : dbA = set_seq_counter (<[m_workspace m := v0 + Z.of_nat (eventCount m)]> (seq_counter db)) db;
  fl_expected : forall id v, m_expected m !! id = Some v ->
    exists i, items db !! id = Some i /\ i_workspace i = m_workspace m /\ i_deleted i = false /\ i_version i = v;
  fl_events : evs = assign_seqs (v0 + 1) (all_events m);
  fl_changes : foldM (apply_change m (item_seq evs)) (m_changes m) (mkProgress dbA [] [] [] []) = Ok s;
  fl_finish : finish (m_workspace m) evs s = Ok db';
  fl_result : res = mkResult (v0 + Z.of_nat (eventCount m)) (v0 + 1) (eventCount m) (pr_items s)
}.

Lemma flush_inv m db res db' :
  flush m db = Ok (res, db') -> exists v0 dbA evs s, flushed m db res db' v0 dbA evs s.
Proof.
  unfold flush. intros Hf. destruct (sql (AllocateSeq _ _ _)) as [[h dbA]|] eqn:Ea; [|done].
  apply sql_inv, AllocateSeq_inv in Ea as (v0 & Hc & -> & HA).
  destruct (forallb _ _) eqn:Hv; [|done].
  replace (v0 + Z.of_nat (eventCount m) - Z.of_nat (eventCount m) + 1) with (v0 + 1) in Hf by lia.
  destruct (foldM _ _ _) as [s|] eqn:Es; [|done]. destruct (finish _ _ _) as [db2|] eqn:Ef; [|done].
  injection Hf as <- <-. exists v0, dbA, (assign_seqs (v0 + 1) (all_events m)), s. split; try done.
  intros id v Hid. rewrite forallb_forall in Hv. specialize (Hv (id, v)).
  unfold version_matches in Hv. subst dbA. simpl in Hv.
  destruct (items db !! id) as [i|]; [|discriminate Hv; by apply list_elem_of_In, elem_of_map_to_list].
  exists i. assert (Hm : (bool_decide (i_workspace i = m_workspace m) && negb (i_deleted i) && (i_version i =? v)) = true).
  { apply Hv. by apply list_elem_of_In, elem_of_map_to_list. }
  rewrite !andb_true_iff, bool_decide_eq_true, negb_true_iff, Z.eqb_eq in Hm. destruct Hm as [[? ?] ?]. done.
Qed.

(** A call with a callback made of API operations: on success it flushed the
    mutation they built, on an error the state is what it was. *)
Definition built (ws : uuid) (vs : list verb) (os : list mutate_option) : Mutation :=
  run_verbs vs (fold_left (fun m o => o m) (run_option <$> os) (new_mutation ws)).

Lemma Mutate_inv ws vs os db r db' :
  Mutate ws (callback vs) (run_option <$> os) db = (r, db') ->
  (exists e, r = Err e /\ db' = db) \/
  (exists res, r = Ok res /\ flush (built ws vs os) db = Ok (res, db') /\ check_mutation (built ws vs os) = Ok tt).
Proof.
  unfold Mutate, callback. fold (built ws vs os). intros Hm.
  destruct (check_mutation _) as [[]|e] eqn:Ec; [|left; injection Hm as <- <-; eauto].
  destruct (flush _ _) as [[res db2]|e] eqn:Ef; injection Hm as <- <-; [right|left]; eauto.
Qed.

Lemma options_context ws os :
  m_workspace (fold_left (fun m o => o m) (run_option <$> os) (new_mutation ws)) = ws /\
  m_changes (fold_left (fun m o => o m) (run_option <$> os) (new_mutation ws)) = [].
Proof.
  cut (forall m, m_workspace m = ws /\ m_changes m = [] ->
    m_workspace (fold_left (fun m o => o m) (run_option <$> os) m) = ws /\
    m_changes (fold_left (fun m o => o m) (run_option <$> os) m) = []).
  { intros Hc. by apply Hc. }
  induction os as [|o os IH]; intros m Hm; simpl; [done|]. apply IH. by destruct o.
Qed.

Lemma run_verbs_context vs m : context (run_verbs vs m) = context m.
Proof.
  unfold run_verbs. revert m; induction vs as [|v vs IH]; intros m; simpl; [done|].
  rewrite IH. apply effect_context, run_verb_effect.
Qed.

Lemma built_workspace ws vs os : m_workspace (built ws vs os) = ws.
Proof.
  pose proof (run_verbs_context vs (fold_left (fun m o => o m) (run_option <$> os) (new_mutation ws))) as Hc.
  unfold context in Hc. injection Hc as _ Hc _ _. unfold built. rewrite Hc. apply options_context.
Qed.

Lemma built_described ws vs os : described (built ws vs os).
Proof.
  unfold built.
  assert (Hd : described (fold_left (fun m o => o m) (run_option <$> os) (new_mutation ws))).
  { unfold described. by rewrite (proj2 (options_context ws os)). }
  revert Hd. generalize (fold_left (fun m o => o m) (run_option <$> os) (new_mutation ws)).
  unfold run_verbs. induction vs as [|v vs IH]; intros m Hd; simpl; [done|].
  apply IH. eapply effect_described; [apply run_verb_effect|done].
Qed.

(** * The hierarchy *)

Lemma flush_tree m db res db' : tree_ok (tree db) -> flush m db = Ok (res, db') -> tree_ok (tree db').
Proof.
  intros Hok Hf. apply flush_inv in Hf as (v0 & dbA & evs & s & [Hc HA _ _ Hs Hfin _]).
  apply changes_tree in Hs as [Hs _]; [|by subst dbA].
  apply finish_inv in Hfin as (db1 & db2 & _ & _ & -> & _). done.
Qed.

(** C4. The item hierarchy stays well-formed: whatever mutation a caller runs, if
    before the call every item's path is its parent's path followed by its own id,
    at most eight levels deep and inside one project, then so it is after, whether
    the call succeeds or fails. In particular no item ever becomes its own
    ancestor, and parent and path never disagree. *)
Theorem Mutate_tree ws vs os db r db' :
  tree_ok (tree db) -> Mutate ws (callback vs) (run_option <$> os) db = (r, db') -> tree_ok (tree db').
Proof.
  intros Hok Hm. apply Mutate_inv in Hm as [(e & _ & ->)|(res & _ & Hf & _)]; [done|]. by eapply flush_tree.
Qed.

(** * The change log *)

Definition ws_events (ws : uuid) (es : list Event) : list Event :=
  List.filter (fun e => bool_decide (e_workspace e = ws)) es.

(** The log of every workspace with a counter holds exactly the sequence numbers
    1, 2, ..., counter, in this order. *)
Definition gap_free (db : Db) : Prop :=
  forall ws v, seq_counter db !! ws = Some v -> 0 <= v /\ map e_seq (ws_events ws (events db)) = seqZ 1 v.

(** Counters are never negative. *)
Definition counters_ok (db : Db) : Prop := forall ws v, seq_counter db !! ws = Some v -> 0 <= v.

Lemma gap_free_counters db : gap_free db -> counters_ok db.
Proof. intros Hg ws v Hv. by destruct (Hg ws v Hv). Qed.

Lemma assign_seqs_snd n evs : map snd (assign_seqs n evs) = seqZ n (Z.of_nat (length evs)).
Proof.
  revert n; induction evs as [|e evs IH]; intros n; simpl; [done|].
  rewrite IH. rewrite (seqZ_cons n (Z.of_nat (S (length evs)))) by lia. f_equal. f_equal; lia.
Qed.

Lemma assign_seqs_fst n evs : map fst (assign_seqs n evs) = evs.
Proof. revert n; induction evs as [|e evs IH]; intros n; simpl; [done|]. by rewrite IH. Qed.

Lemma ws_events_rows ws ws' evs :
  ws_events ws (map (event_row ws') evs) = if bool_decide (ws' = ws) then map (event_row ws') evs else [].
Proof.
  unfold ws_events. induction evs as [|e evs IH]; simpl; [by case_bool_decide|].
  rewrite IH. by case_bool_decide.
Qed.

Lemma event_row_seqs ws evs : map e_seq (map (event_row ws) evs) = map snd evs.
Proof. rewrite map_map. done. Qed.

(** Appending a block that starts right after the counter. *)
Lemma gap_free_append db ws v0 n evs db' :
  gap_free db -> seq_counter db !! ws = Some v0 -> 0 <= n ->
  map snd evs = seqZ (v0 + 1) n ->
  seq_counter db' = <[ws := v0 + n]> (seq_counter db) ->
  events db' = events db ++ map (event_row ws) evs ->
  gap_free db'.
Proof.
  intros Hg Hc Hn Hevs Hc' He ws' v Hv. rewrite Hc' in Hv. rewrite He.
  unfold ws_events. rewrite List.filter_app, map_app. fold (ws_events ws' (events db)).
  fold (ws_events ws' (map (event_row ws) evs)). rewrite ws_events_rows.
  apply lookup_insert_Some in Hv as [[<- <-]|[Hne Hv]].
  - destruct (Hg _ _ Hc) as [H0 ->]. rewrite bool_decide_true by done. rewrite event_row_seqs, Hevs.
    split; [lia|]. rewrite seqZ_app by lia. f_equal. f_equal; lia.
  - destruct (Hg _ _ Hv) as [H0 ->]. rewrite bool_decide_false by done. by rewrite app_nil_r.
Qed.

Lemma all_events_count m : length (all_events m) = eventCount m.
Proof. by rewrite eventCount_length. Qed.

(** The events a flush appends. *)
Lemma flushed_events m db res db' v0 dbA evs s :
  tree_ok (tree db) -> flushed m db res db' v0 dbA evs s ->
  events db' = events db ++ map (event_row (m_workspace m)) evs /\
  seq_counter db' = <[m_workspace m := v0 + Z.of_nat (eventCount m)]> (seq_counter db) /\
  map snd evs = seqZ (v0 + 1) (Z.of_nat (eventCount m)).
Proof.
  intros Hok [Hc HA _ Hev Hs Hfin _]. apply changes_tree in Hs as [_ Hst]; [|by subst dbA].
  apply finish_inv in Hfin as (db1 & db2 & _ & _ & -> & _). unfold statics in Hst.
  injection Hst as Hq He _ _ _ _. simpl in *. rewrite Hq, He, Hev, HA. split; [done|]. split; [done|].
  by rewrite assign_seqs_snd, all_events_count.
Qed.

(** C2. The change log is gap-free (ADR-002): if the log of every workspace is
    numbered 1 to its counter without gap or repetition, then after any call of
    [Mutate] it still is. A successful call appends one row per registered event,
    numbered from [LowestSeq] to [HighestSeq] without gap in registration order,
    all in its workspace, and leaves the counter at [HighestSeq]; a failed call
    leaves log and counter alone. *)
Theorem Mutate_log ws vs os db r db' :
  tree_ok (tree db) -> gap_free db -> Mutate ws (callback vs) (run_option <$> os) db = (r, db') ->
  gap_free db' /\
  match r with
  | Err _ => db' = db
  | Ok res =>
      0 < Z.of_nat (EventCount res) /\
      seq_counter db !! ws = Some (LowestSeq res - 1) /\ seq_counter db' !! ws = Some (HighestSeq res) /\
      exists evs, events db' = events db ++ map (event_row ws) evs /\
        map fst evs = all_events (built ws vs os) /\ length evs = EventCount res /\
        map snd evs = seqZ (LowestSeq res) (HighestSeq res - LowestSeq res + 1)
  end.
Proof.
  intros Hok Hg Hm. apply Mutate_inv in Hm as [(e & -> & ->)|(res & -> & Hf & Hchk)]; [done|].
  apply flush_inv in Hf as (v0 & dbA & evs & s & Hfl).
  destruct (flushed_events _ _ _ _ _ _ _ _ Hok Hfl) as (He & Hq & Hsnd).
  destruct Hfl as [Hc _ _ Hev _ _ ->]. rewrite built_workspace in *. simpl.
  set (n := eventCount (built ws vs os)) in *.
  split; [eapply (gap_free_append db ws v0 (Z.of_nat n)); eauto; lia|].
  assert (Hn : (0 < n)%nat).
  { unfold n. pose proof (described_count _ (built_described ws vs os)). unfold check_mutation in Hchk.
    destruct (m_err _); [done|]. destruct (m_changes (built ws vs os)); [done|]. simpl in *. lia. }
  split; [lia|]. split; [by replace (v0 + 1 - 1) with v0 by lia|]. split; [by rewrite Hq, lookup_insert_eq|].
  exists evs. split; [done|]. split; [rewrite Hev; apply assign_seqs_fst|].
  split; [|rewrite Hsnd; f_equal; lia].
  rewrite <- (length_map snd), Hsnd. rewrite length_seqZ. lia.
Qed.

(** * Versions and change sequences *)

(** How changes treat a row: they keep it up to rank and version, or write it with
    a sequence number in [P] and a higher version, or insert it with such a number. *)
Definition row_step (P : Z -> Prop) (o o' : option Item) : Prop :=
  match o, o' with
  | None, None => True
  | None, Some i' => P (i_change_seq i')
  | Some i, Some i' =>
      i_workspace i' = i_workspace i /\ i_version i <= i_version i' /\
      (rank_only i i' \/ (P (i_change_seq i') /\ i_version i < i_version i'))
  | Some _, None => False
  end.

Definition rows_step (P : Z -> Prop) (db db' : Db) : Prop := forall k, row_step P (items db !! k) (items db' !! k).

Section steps.
Context (P : Z -> Prop).

Lemma row_step_refl o : row_step P o o.
Proof. destruct o as [i|]; simpl; [|done]. split; [done|]. split; [lia|]. left. apply rank_only_refl. Qed.

Lemma row_step_rank o i' i : row_step P o (Some i) -> rank_only i i' -> row_step P o (Some i').
Proof.
  intros Hs Hr. pose proof Hr as (r & v & Hv & Hi'). destruct o as [i0|]; simpl in *; [|by subst i'].
  destruct Hs as (Hw & Hv0 & Hs). split; [by subst i'|]. split; [subst i'; simpl in *; lia|].
  destruct Hs as [Hs|[Hq Hlt]]; [left; by eapply rank_only_trans|right]. subst i'. simpl in *. split; [done|lia].
Qed.

Lemma row_step_trans a b c : row_step P a b -> row_step P b c -> row_step P a c.
Proof.
  destruct b as [b|], c as [c|]; try done.
  - intros H1 (Hw & Hv & [Hr|[Hq Hlt]]); [by eapply row_step_rank|].
    destruct a as [a|]; [|done]. destruct H1 as (Hw1 & Hv1 & _). simpl.
    split; [congruence|]. split; [lia|]. right. split; [done|lia].
  - by destruct a.
Qed.

Lemma rows_step_same db db' : items db' = items db -> rows_step P db db'.
Proof. unfold rows_step. intros -> k. apply row_step_refl. Qed.

#[export] Instance rows_step_refl : Reflexive (rows_step P).
Proof. intros db. by apply rows_step_same. Qed.
#[export] Instance rows_step_trans : Transitive (rows_step P).
Proof. intros a b c H1 H2 k. by eapply row_step_trans. Qed.

Lemma rank_change_step db db' : rank_change db db' -> rows_step P db db'.
Proof.
  intros [_ Hr] k. specialize (Hr k). destruct (items db !! k) as [i|], (items db' !! k); try done.
  apply (row_step_rank (Some i) _ i); [apply row_step_refl|done].
Qed.

Lemma rows_step_insert db db' k i' :
  items db' = <[k := i']> (items db) -> row_step P (items db !! k) (Some i') -> rows_step P db db'.
Proof.
  unfold rows_step. intros -> Hs k'. destruct (decide (k = k')) as [<-|Hne]; [by rewrite lookup_insert_eq|].
  rewrite lookup_insert_ne by done. apply row_step_refl.
Qed.

(** A written row: the sequence number is the change's, the version is higher. *)
Lemma row_step_written i i' :
  i_workspace i' = i_workspace i -> i_version i < i_version i' -> P (i_change_seq i') ->
  row_step P (Some i) (Some i').
Proof. intros. simpl. split; [done|]. split; [lia|]. right. done. Qed.

Context (seq : Z) (HP : P seq).

Lemma moved_step id parent npp old i : row_step P (Some i) (Some (moved id parent npp old seq i)).
Proof using HP.
  unfold moved. destruct (contained _ _); [|apply row_step_refl]. apply row_step_written; simpl; [done|lia|done].
Qed.

Definition not_hard (k : change_kind) : bool := match k with changeHardDelete => false | _ => true end.
Definition not_insert (k : change_kind) : bool := match k with changeInsert _ => false | _ => true end.

(** The version of the row at [id] grows. *)
Definition grows (id : uuid) (db db' : Db) : Prop :=
  forall i i', items db !! id = Some i -> items db' !! id = Some i' -> i_version i < i_version i'.

Lemma bump_step db id i i' :
  items db !! id = Some i -> i_workspace i' = i_workspace i -> i_version i' = i_version i + 1 ->
  i_change_seq i' = seq ->
  rows_step P db (set_items (<[id := i']> (items db)) db) /\ grows id db (set_items (<[id := i']> (items db)) db).
Proof using HP.
  intros Hi Hw Hv Hq. split.
  - eapply rows_step_insert; [done|]. rewrite Hi. apply row_step_written; [done|lia|by rewrite Hq].
  - intros j j'. simpl. rewrite lookup_insert_eq, Hi. intros [= <-] [= <-]. lia.
Qed.

Lemma touch_step id db db' : TouchItem id seq db = Ok db' -> rows_step P db db' /\ grows id db db'.
Proof using HP.
  intros Ht. apply TouchItem_inv in Ht as [[Hn ->]|(i & Hi & ->)]; [|by apply (bump_step _ _ i)].
  split; [reflexivity|]. intros i i'. congruence.
Qed.

Lemma apply_kind_step m c s s' :
  tree_ok (tree (pr_db s)) -> not_hard (ch_kind c) = true -> kind_item c -> apply_kind m c seq s = Ok s' ->
  rows_step P (pr_db s) (pr_db s') /\
  (not_insert (ch_kind c) = true -> touches_version (ch_kind c) = false -> grows (ch_item c) (pr_db s) (pr_db s')).
Proof using HP.
  intros Hok Hh Hki Ha. unfold apply_kind, kind_item in *. destruct (ch_kind c); try done.
  - destruct (applyInsert _ _ _ _) as [[path db]|] eqn:E; [|done]. injection Ha as <-.
    apply applyInsert_inv in E as (row & db1 & Hdb & (ps & dbk & -> & Hrc & _) & Hins & _ & Hid & _ & _ & Hseq & _);
      [|by apply tree_ok_keyed]. split; [|done]. simpl.
    transitivity db1; [exact (rank_change_step _ _ Hrc)|].
    apply InsertItem_inv in Hins as (Hn & _ & _ & _).
    eapply rows_step_insert; [by rewrite Hdb|]. rewrite <- Hid, Hn. simpl. by rewrite Hseq.
  - destruct (applyUpdate _ _ _) as [[path db]|] eqn:E; [|done]. injection Ha as <-.
    apply applyUpdate_inv in E as (i & Hi & _ & -> & _). rewrite Hki in *.
    destruct (bump_step _ _ _ (update_row (update_params u seq) (i_version i + 1) i) Hi) as [H1 H2]; done.
  - destruct (applyReparent _ _ _) as [[paths db]|] eqn:E; [|done]. injection Ha as <-.
    apply applyReparent_inv in E as (x & xids & nids & npp & rows & db1 & Hx & Hxp & _ & Hr & _ & _ & Hrc); [|done].
    apply ReparentSubtree_inv in Hr as (-> & _); [|by apply tree_ok_keyed]. simpl.
    assert (Hmv : rows_step P (pr_db s) (set_items (moved (rp_ID r) (rp_NewParentID r) npp (i_path x) seq <$> items (pr_db s)) (pr_db s))).
    { intros k. simpl. rewrite lookup_fmap. destruct (items (pr_db s) !! k); [apply moved_step|done]. }
    split; [etransitivity; [exact Hmv|by apply rank_change_step]|]. intros _ _ i i' Hi Hi'.
    rewrite <- Hki in *. rewrite Hx in Hi. injection Hi as <-.
    destruct Hrc as [_ Hrc]. specialize (Hrc (rp_ID r)). simpl in Hrc. rewrite lookup_fmap, Hx, Hi' in Hrc. simpl in Hrc.
    assert (Hc : contained (i_path x) (i_path x) = true).
    { unfold contained. by apply bool_decide_eq_true. }
    destruct Hrc as (rk & v & Hv & ->). unfold moved in Hv. rewrite Hc in Hv. simpl in *. lia.
  - destruct (sql _) as [[row db]|] eqn:E; [|done]. injection Ha as <-.
    apply sql_inv, SoftDeleteItem_inv in E as (i & Hi & _ & -> & ->).
    destruct (bump_step _ _ _ (bump i (i_parent i) (i_path i) (i_rank i) (i_version i + 1) seq true) Hi) as [H1 H2]; done.
  - destruct (sql _) as [db|] eqn:E; [|done]. injection Ha as <-. apply sql_inv, InsertLink_inv in E as ->.
    split; [by apply rows_step_same|done].
  - injection Ha as <-. split; [by apply rows_step_same|done].
  - destruct (applyComment _ _ _) as [db|] eqn:E; [|done]. injection Ha as <-. apply applyComment_inv in E as [cs ->].
    split; [by apply rows_step_same|done].
Qed.

Lemma apply_change_step m seqs s c s' :
  coalesce (seqs !! ch_item c) 0 = seq ->
  tree_ok (tree (pr_db s)) -> not_hard (ch_kind c) = true -> kind_item c -> apply_change m seqs s c = Ok s' ->
  rows_step P (pr_db s) (pr_db s') /\ (not_insert (ch_kind c) = true -> grows (ch_item c) (pr_db s) (pr_db s')).
Proof using HP.
  intros Hq Hok Hh Hki Ha. apply apply_change_inv in Ha as (s1 & Hk & Ht & _). rewrite Hq in *.
  destruct (apply_kind_step _ _ _ _ Hok Hh Hki Hk) as [H1 H2].
  destruct (touches_version _); [|rewrite Ht; auto].
  apply touch_step in Ht as [H3 H4]. split; [by etransitivity|]. intros _ i i' Hi Hi'.
  specialize (H1 (ch_item c)). specialize (H4). rewrite Hi in H1.
  destruct (items (pr_db s1) !! ch_item c) as [i1|] eqn:Hi1; [|done].
  destruct H1 as (_ & Hv & _). specialize (H4 _ _ Hi1 Hi'). lia.
Qed.
End steps.

(** The sequence number of an item with an event lies in the block. *)
Lemma item_seq_range evs id lo hi :
  0 < lo -> id <> uuid_nil -> Forall (fun es => lo <= es.2 <= hi) evs -> Exists (fun es => ev_item es.1 = id) evs ->
  exists v, item_seq evs !! id = Some v /\ lo <= v <= hi.
Proof.
  intros Hlo Hid Hr He. unfold item_seq.
  set (f := fun (acc : gmap uuid Z) es => _).
  assert (Hstep : forall evs acc, Forall (fun es => lo <= es.2 <= hi) evs ->
    (forall k v, acc !! k = Some v -> lo <= v <= hi) ->
    (forall k v, fold_left f evs acc !! k = Some v -> lo <= v <= hi) /\
    (is_Some (acc !! id) \/ Exists (fun es => ev_item es.1 = id) evs -> is_Some (fold_left f evs acc !! id))).
  { clear evs Hr He. induction evs as [|es evs IH]; intros acc Hr Hacc; simpl.
    - split; [done|]. intros [Hs|Hs]; [done|by inversion Hs].
    - inversion Hr as [|? ? H1 H2]; subst. destruct (IH (f acc es)) as [IH1 IH2]; [done| |].
      { intros k v. unfold f. destruct (_ && _); [|apply Hacc]. intros Hv.
        apply lookup_insert_Some in Hv as [[_ <-]|[_ Hv]]; [done|by eapply Hacc]. }
      split; [done|]. intros Hs. apply IH2. destruct Hs as [Hs|Hs].
      + left. unfold f. destruct (_ && _); [|done]. destruct (decide (ev_item es.1 = id)) as [->|Hne].
        * by rewrite lookup_insert_eq.
        * by rewrite lookup_insert_ne.
      + inversion Hs as [? ? Heq|]; subst; [|by right]. left. unfold f.
        rewrite bool_decide_false by done. simpl.
        destruct (acc !! ev_item es.1) as [w|] eqn:Ew; simpl; destruct (Z.ltb_spec 0 es.2) as [|]; try lia.
        * destruct (w <? es.2); [by rewrite lookup_insert_eq|by rewrite Ew].
        * by rewrite lookup_insert_eq. }
  destruct (Hstep evs ∅ Hr) as [H1 H2]; [intros ? ?; by rewrite lookup_empty|].
  destruct (H2 (or_intror He)) as [v Hv]. exists v. split; [done|]. by eapply H1.
Qed.

(** A block of numbered events. *)
Lemma block_range evs lo n :
  map snd evs = seqZ lo n -> 0 <= n -> Forall (fun es : event * Z => lo <= es.2 <= lo + n - 1) evs.
Proof.
  intros He Hn. apply Forall_forall. intros es Hes. assert (Hin : es.2 ∈ map snd evs).
  { change (map snd evs) with (snd <$> evs). apply list_elem_of_fmap. by exists es. }
  rewrite He in Hin. apply elem_of_seqZ in Hin. lia.
Qed.

Lemma change_events_exist m evs c :
  map fst evs = all_events m -> c ∈ m_changes m -> change_ok m c ->
  Exists (fun es : event * Z => ev_item es.1 = ch_item c) evs.
Proof.
  intros He Hc (_ & Hne & Hev). destruct (ch_events c) as [|e l] eqn:El; [done|].
  inversion Hev as [|? ? (Hi & _) _]; subst.
  assert (Hin : e ∈ map fst evs).
  { rewrite He. unfold all_events. apply list_elem_of_In, in_concat. exists (ch_events c).
    split; [|by rewrite El; left]. apply in_map. by apply list_elem_of_In. }
  change (map fst evs) with (fst <$> evs) in Hin. apply list_elem_of_fmap in Hin as ([e' v] & -> & Hin).
  apply Exists_exists. by exists (e', v).
Qed.

(** The whole loop over the changes of a built mutation without hard deletes. *)
Lemma changes_step m db res db' v0 dbA evs s :
  tree_ok (tree db) -> 0 <= v0 -> described m ->
  Forall (fun c => not_hard (ch_kind c) = true /\ ch_item c <> uuid_nil) (m_changes m) ->
  flushed m db res db' v0 dbA evs s ->
  rows_step (fun q => v0 + 1 <= q <= v0 + Z.of_nat (eventCount m)) db (pr_db s) /\
  Forall (fun c => not_insert (ch_kind c) = true -> grows (ch_item c) db (pr_db s)) (m_changes m).
Proof.
  intros Hok Hv0 Hd Hch Hfl. set (P := fun q => _ <= q <= _).
  destruct (flushed_events _ _ _ _ _ _ _ _ Hok Hfl) as (_ & _ & Hsnd).
  destruct Hfl as [_ HA _ Hev Hs _ _].
  assert (Hfst : map fst evs = all_events m) by (rewrite Hev; apply assign_seqs_fst).
  pose proof (block_range _ _ _ Hsnd ltac:(lia)) as Hblk.
  assert (Hseq : forall c, c ∈ m_changes m -> P (coalesce (item_seq evs !! ch_item c) 0)).
  { intros c Hc. rewrite Forall_forall in Hch. destruct (Hch c Hc) as [_ Hnil].
    destruct (item_seq_range evs (ch_item c) (v0 + 1) (v0 + Z.of_nat (eventCount m))) as (v & -> & Hv);
      [lia|done| |eapply change_events_exist; eauto; by eapply Forall_forall in Hd|exact Hv].
    eapply Forall_impl; [exact Hblk|]. simpl. lia. }
  assert (Hdb : items dbA = items db) by (by subst dbA).
  cut (tree_ok (tree (pr_db s)) /\ rows_step P dbA (pr_db s) /\
       Forall (fun c => not_insert (ch_kind c) = true -> grows (ch_item c) dbA (pr_db s)) (m_changes m)).
  { unfold rows_step, grows. rewrite Hdb. intros (_ & H1 & H2). done. }
  revert Hs. apply (foldM_inv_prefix (apply_change m (item_seq evs))
    (fun pre t => tree_ok (tree (pr_db t)) /\ rows_step P dbA (pr_db t) /\
       Forall (fun c => not_insert (ch_kind c) = true -> grows (ch_item c) dbA (pr_db t)) pre)).
  - intros pre t c t' (H1 & H2 & H3) Hin Hap. rewrite Forall_forall in Hch. destruct (Hch c Hin) as [Hh _].
    assert (Hki : kind_item c) by (eapply Forall_forall in Hd; [apply Hd|done]).
    destruct (apply_change_step P _ (Hseq c Hin) m (item_seq evs) t c t' eq_refl H1 Hh Hki Hap) as [H4 H5].
    split; [by eapply apply_change_tree|]. split; [by etransitivity|].
    apply Forall_app. split.
    + eapply Forall_impl; [exact H3|]. intros c' Hg Hni i i' Hi Hi'. specialize (H4 (ch_item c')).
      specialize (H2 (ch_item c')). rewrite Hi in H2.
      destruct (items (pr_db t) !! ch_item c') as [j|] eqn:Hj; [|done]. rewrite Hi' in H4.
      pose proof (Hg Hni _ _ Hi Hj). destruct H4 as (_ & Hle & _). lia.
    + constructor; [|done]. intros Hni i i' Hi Hi'. specialize (H2 (ch_item c)). rewrite Hi in H2.
      destruct (items (pr_db t) !! ch_item c) as [j|] eqn:Hj; [|done].
      pose proof (H5 Hni _ _ Hj Hi'). destruct H2 as (_ & Hle & _). lia.
  - simpl. split; [by rewrite (tree_eq _ _ Hdb)|]. split; [reflexivity|done].
Qed.

(** The operations of the API package: everything but the hard delete, on real
    items. *)
Definition api_verb (v : verb) : bool :=
  match v with
  | VHardDelete _ => false
  | VCreate fresh i => negb (bool_decide (or_fresh fresh (in_ID i) = uuid_nil))
  | VUpdate u _ => negb (bool_decide (up_ID u = uuid_nil))
  | VReparent r => negb (bool_decide (rp_ID r = uuid_nil))
  | VSoftDelete id => negb (bool_decide (id = uuid_nil))
  | VLink _ l => negb (bool_decide (lc_From l = uuid_nil))
  | VUnlink l => negb (bool_decide ((unlink_endpoints l).1 = uuid_nil))
  | VComment _ c => negb (bool_decide (cc_ItemID c = uuid_nil))
  end.

Lemma api_verb_change v m :
  api_verb v = true ->
  m_changes (run_verb m v) = m_changes m \/
  exists c, m_changes (run_verb m v) = m_changes m ++ [c] /\ not_hard (ch_kind c) = true /\ ch_item c <> uuid_nil.
Proof.
  intros Hv. destruct v; simpl in Hv; try done; simpl run_verb;
    unfold Create, Update, Reparent, SoftDelete, Link_, Unlink, Comment_;
    try destruct (unlink_endpoints l) as [a b]; apply negb_true_iff, bool_decide_eq_false in Hv;
    repeat case_match; simpl; try (by left); right; eexists; (split; [done|]); done.
Qed.

Lemma built_api ws vs os :
  forallb api_verb vs = true ->
  Forall (fun c => not_hard (ch_kind c) = true /\ ch_item c <> uuid_nil) (m_changes (built ws vs os)).
Proof.
  intros Hvs. unfold built.
  assert (Hd : Forall (fun c => not_hard (ch_kind c) = true /\ ch_item c <> uuid_nil)
     (m_changes (fold_left (fun m o => o m) (run_option <$> os) (new_mutation ws)))).
  { by rewrite (proj2 (options_context ws os)). }
  revert Hd. generalize (fold_left (fun m o => o m) (run_option <$> os) (new_mutation ws)).
  unfold run_verbs. induction vs as [|v vs IH]; intros m Hd; simpl in *; [done|].
  apply andb_true_iff in Hvs as [Hv Hvs]. apply IH; [done|].
  destruct (api_verb_change v m Hv) as [->|(c & -> & Hc)]; [done|]. apply Forall_app. auto.
Qed.

Lemma finish_items ws evs s db' : finish ws evs s = Ok db' -> items db' = items (pr_db s).
Proof. intros Hf. by apply finish_inv in Hf as (db1 & db2 & _ & _ & -> & _). Qed.

(** What an API call does to the rows. *)
Lemma Mutate_rows ws vs os db res db' :
  tree_ok (tree db) -> counters_ok db -> forallb api_verb vs = true ->
  Mutate ws (callback vs) (run_option <$> os) db = (Ok res, db') ->
  rows_step (fun q => LowestSeq res <= q <= HighestSeq res) db db' /\
  Forall (fun c => not_insert (ch_kind c) = true -> grows (ch_item c) db db') (m_changes (built ws vs os)).
Proof.
  intros Hok Hg Hvs Hm. apply Mutate_inv in Hm as [(e & ? & _)|(res' & [= <-] & Hf & _)]; [done|].
  apply flush_inv in Hf as (v0 & dbA & evs & s & Hfl).
  pose proof (Hg _ _ (fl_counter _ _ _ _ _ _ _ _ Hfl)) as Hv0.
  pose proof (changes_step _ _ _ _ _ _ _ _ Hok Hv0 (built_described ws vs os) (built_api ws vs os Hvs) Hfl) as Hst.
  destruct Hfl as [_ _ _ _ _ Hfin ->]. apply finish_items in Hfin. simpl.
  unfold rows_step, grows in *. by rewrite Hfin.
Qed.

(** Incremental sync misses nothing: after a successful API mutation no row has
    gone, and every row that is new or differs from before in anything but its
    rank and its version carries a [change_seq] inside the block of sequence numbers
    the call allocated, so a client that asks for changes after the previous
    counter value sees it; versions never decrease and a row stays in its
    workspace. *)
Theorem Mutate_change_seq ws vs os db res db' :
  tree_ok (tree db) -> gap_free db -> forallb api_verb vs = true ->
  Mutate ws (callback vs) (run_option <$> os) db = (Ok res, db') ->
  (forall id i', items db' !! id = Some i' ->
     LowestSeq res <= i_change_seq i' <= HighestSeq res \/
     exists i, items db !! id = Some i /\ rank_only i i') /\
  (forall id i, items db !! id = Some i -> exists i', items db' !! id = Some i' /\
     i_workspace i' = i_workspace i /\ i_version i <= i_version i').
Proof.
  intros Hok Hg Hvs Hm. destruct (Mutate_rows _ _ _ _ _ _ Hok (gap_free_counters _ Hg) Hvs Hm) as [Hr _]. split.
  - intros id i' Hi'. specialize (Hr id). rewrite Hi' in Hr. destruct (items db !! id) as [i|]; simpl in Hr; [|auto].
    destruct Hr as (_ & _ & [Hr|[Hr _]]); [right; eauto|auto].
  - intros id i Hi. specialize (Hr id). rewrite Hi in Hr. destruct (items db' !! id) as [i'|]; [|done].
    exists i'. destruct Hr as (? & ? & _). done.
Qed.

(** C3. No lost update: when an API mutation that expects version [v] of an item and
    changes that item succeeds, the item was live in the workspace with exactly
    that version, and every later mutation that still expects [v] fails and
    changes nothing; if it is otherwise well-formed and the counter does not
    overflow, the error is the version conflict. *)
Theorem Mutate_no_lost_update ws vs os db res db' id v :
  tree_ok (tree db) -> gap_free db -> forallb api_verb vs = true ->
  Mutate ws (callback vs) (run_option <$> os) db = (Ok res, db') ->
  m_expected (built ws vs os) !! id = Some v ->
  Exists (fun c => ch_item c = id /\ not_insert (ch_kind c) = true) (m_changes (built ws vs os)) ->
  (exists i, items db !! id = Some i /\ i_workspace i = ws /\ i_deleted i = false /\ i_version i = v) /\
  (forall vs2 os2 r2 db2, m_expected (built ws vs2 os2) !! id = Some v ->
     Mutate ws (callback vs2) (run_option <$> os2) db' = (r2, db2) ->
     db2 = db' /\ (exists e, r2 = Err e) /\
     (check_mutation (built ws vs2 os2) = Ok tt ->
      in_int64 (HighestSeq res + Z.of_nat (eventCount (built ws vs2 os2))) = true -> r2 = Err ErrVersionConflict)).
Proof.
  intros Hok Hg Hvs Hm He Hc. destruct (Mutate_rows _ _ _ _ _ _ Hok (gap_free_counters _ Hg) Hvs Hm) as [Hr Hgr].
  apply Mutate_inv in Hm as [(e & ? & _)|(res' & [= <-] & Hf & _)]; [done|].
  apply flush_inv in Hf as (v0 & dbA & evs & s & Hfl).
  destruct (flushed_events _ _ _ _ _ _ _ _ Hok Hfl) as (_ & Hq & _).
  destruct Hfl as [_ _ Hex _ _ _ ->]. destruct (Hex _ _ He) as (i & Hi & Hw & Hdel & Hv).
  rewrite built_workspace in *. split; [by exists i|]. clear Hex.
  intros vs2 os2 r2 db2 He2 Hm2.
  assert (Hbad : version_matches ws db' (id, v) = false).
  { unfold version_matches. simpl. destruct (items db' !! id) as [i'|] eqn:Hi'; [|done].
    apply Exists_exists in Hc as (c & Hcin & Hcid & Hni). rewrite Forall_forall in Hgr.
    specialize (Hgr c Hcin Hni). rewrite Hcid in Hgr. specialize (Hgr _ _ Hi Hi').
    destruct (Z.eqb_spec (i_version i') v); [lia|]. by rewrite andb_false_r. }
  assert (Hforall : forall db3, items db3 = items db' ->
            forallb (version_matches ws db3) (map_to_list (m_expected (built ws vs2 os2))) = false).
  { intros db3 H3. apply not_true_iff_false. intros Hall. rewrite forallb_forall in Hall.
    specialize (Hall (id, v)). unfold version_matches in *. rewrite H3 in Hall. rewrite Hall in Hbad; [done|].
    by apply list_elem_of_In, elem_of_map_to_list. }
  revert Hm2. unfold Mutate, callback. fold (built ws vs2 os2).
  destruct (check_mutation _) as [[]|e] eqn:Ec; [|intros [= <- <-]; split; [done|]; split; [by eauto|done]].
  destruct (flush _ _) as [[res2 db3]|e] eqn:Ef.
  - exfalso. apply flush_inv in Ef as (v1 & dbB & evs2 & s2 & [_ _ Hex _ _ _ _]).
    destruct (Hex _ _ He2) as (i' & Hi' & Hw' & Hd' & Hv'). rewrite built_workspace in Hw'.
    unfold version_matches in Hbad. simpl in Hbad. rewrite Hi', Hd', Hv', Hw', Z.eqb_refl, bool_decide_true in Hbad; done.
  - intros [= <- <-]. split; [done|]. split; [eauto|]. intros _ Hov. f_equal.
    unfold flush, AllocateSeq in Ef. rewrite built_workspace, Hq, lookup_insert_eq in Ef. simpl in Hov.
    unfold int8 in Ef. rewrite Hov in Ef. simpl in Ef. rewrite Hforall in Ef by done. congruence.
Qed.

End store.

(** * Witnesses *)

Lemma db0_tree : tree_ok (tree Demo.db0).
Proof. intros id t H. vm_compute in H. discriminate H. Defined.

Lemma db0_gap_free : gap_free Demo.db0.
Proof.
  intros ws v H. simpl in H. apply lookup_singleton_Some in H as [_ <-]. split; [lia|]. reflexivity.
Defined.

Lemma Mutate_tree_witness : tree_ok (tree Demo.db1).
Proof.
  pose proof (Mutate_tree Demo.ws Demo.create_three [OActor Demo.user] Demo.db0 Demo.run1.1 Demo.db1 db0_tree) as H.
  exact (H Demo.run1_call).
Defined.

(** The runs succeed. *)
Lemma run1_pair : Mutate Demo.ws (callback Demo.create_three) (run_option <$> [OActor Demo.user]) Demo.db0
  = (Ok (mkResult 3 1 3 [U 10; U 11; U 12]), Demo.db1).
Proof. rewrite Demo.run1_call. by rewrite Demo.run1_ok. Qed.
Lemma run2_pair :
  Mutate Demo.ws (callback Demo.finish_verbs) (run_option <$> [OActor Demo.user; OExpected (U 12) 1]) Demo.db1
  = (Ok (mkResult 4 4 1 [U 12]), Demo.db2).
Proof. rewrite Demo.run2_call. by rewrite Demo.run2_ok. Qed.

Lemma Mutate_log_witness : gap_free Demo.db1 /\ map e_seq (ws_events Demo.ws (events Demo.db1)) = [1; 2; 3].
Proof.
  split; [|vm_compute; reflexivity].
  pose proof (Mutate_log Demo.ws Demo.create_three [OActor Demo.user] Demo.db0 (Ok (mkResult 3 1 3 [U 10; U 11; U 12])) Demo.db1
                db0_tree db0_gap_free) as H.
  exact (proj1 (H run1_pair)).
Defined.

(** The state after the first run satisfies the invariants as well. *)
Lemma db1_tree : tree_ok (tree Demo.db1).
Proof.
  destruct (Mutate_inv _ _ _ _ _ _ run1_pair) as [(e & He & _)|(res & _ & Hf & _)]; [discriminate He|].
  eapply flush_tree; [exact db0_tree|exact Hf].
Qed.

Lemma db1_gap_free : gap_free Demo.db1.
Proof.
  intros ws v H.
  assert (Hc : seq_counter Demo.db1 = {[Demo.ws := 3]}) by (vm_compute; reflexivity).
  rewrite Hc in H. apply lookup_singleton_Some in H as [<- <-]. split; [lia|]. vm_compute. reflexivity.
Qed.

Lemma Mutate_change_seq_witness :
  1 <= coalesce (i_change_seq <$> items Demo.db1 !! U 12) 0 <= 3.
Proof.
  pose proof (Mutate_change_seq Demo.ws Demo.create_three [OActor Demo.user] Demo.db0
    (mkResult 3 1 3 [U 10; U 11; U 12]) Demo.db1 db0_tree db0_gap_free eq_refl) as Ht.
  pose proof (proj1 (Ht run1_pair) (U 12)) as H.
  destruct (items Demo.db1 !! U 12) as [i'|] eqn:E; [|vm_compute in E; discriminate E].
  destruct (H i' eq_refl) as [Hs|(i & Hi & _)]; [exact Hs|].
  unfold Demo.db0 in Hi. simpl in Hi. rewrite lookup_empty in Hi. discriminate Hi.
Defined.

Lemma Mutate_no_lost_update_witness :
  (Mutate Demo.ws (callback [VSoftDelete (U 12)]) (run_option <$> [OExpected (U 12) 1]) Demo.db2).1
  = Err ErrVersionConflict.
Proof.
  pose proof (Mutate_no_lost_update Demo.ws Demo.finish_verbs [OActor Demo.user; OExpected (U 12) 1]
    Demo.db1 (mkResult 4 4 1 [U 12]) Demo.db2 (U 12) 1 db1_tree db1_gap_free eq_refl run2_pair) as Ht.
  destruct Ht as [_ Ht]; [vm_compute; reflexivity|constructor; split; vm_compute; reflexivity|].
  pose proof (Ht [VSoftDelete (U 12)] [OExpected (U 12) 1] _ _ ltac:(vm_compute; reflexivity)
    (surjective_pairing _)) as (_ & _ & Hr).
  apply Hr; vm_compute; reflexivity.
Defined.

End Store.
