(* ===== verification/StoreRollup.v ===== *)
(** Rollup maintenance, [internal/store/rollup.go]: the dirty ancestor set is what
    it should be, and every stored rollup equals a fresh aggregate after every
    mutation. *)
From S2P Require Import Prelude Uuid Ltree Float Json Rank Db Events Mutate Demo StoreTree Store.
Open Scope Z_scope.

Module StoreRollup.
Import Ltree Db Events Mutate StoreTree Store.

Section rollup.
Context `{UuidParse}.

(** * The dirty ancestor set *)

(** The labels [dirtyAncestors] visits. *)
Definition ancestor_labels (p : string) : list string := removelast (str_split dot p).

Definition visit (ls : list string) (acc : list string * list uuid) : list string * list uuid := dirty_labels ls acc.

Lemma dirty_labels_app l1 l2 acc : dirty_labels (l1 ++ l2) acc = dirty_labels l2 (dirty_labels l1 acc).
Proof.
  revert acc; induction l1 as [|x l1 IH]; intros [seen out]; simpl; [done|]. destruct (mem_str x seen); apply IH.
Qed.

Lemma dirtyAncestors_concat paths :
  dirtyAncestors paths = (dirty_labels (concat (map ancestor_labels paths)) ([], [])).2.
Proof.
  unfold dirtyAncestors. f_equal. generalize (@nil string, @nil uuid).
  induction paths as [|p paths IH]; intros acc; simpl; [done|]. by rewrite dirty_labels_app, IH.
Qed.

(** Every visited label that is an identifier ends in the output. *)
Lemma dirty_labels_complete ls acc l id :
  (forall l id, l ∈ acc.1 -> uuid_parse l = Some id -> id ∈ acc.2) ->
  l ∈ ls \/ l ∈ acc.1 -> uuid_parse l = Some id -> id ∈ (dirty_labels ls acc).2.
Proof.
  revert acc; induction ls as [|x ls IH]; intros [seen out] Hacc Hl Hid; simpl.
  - destruct Hl as [Hl|Hl]; [by apply elem_of_nil in Hl|by eapply Hacc].
  - destruct (mem_str x seen) eqn:Hx.
    + apply IH; [done| |done]. apply mem_str_spec in Hx. destruct Hl as [Hl|Hl]; [|by right].
      apply elem_of_cons in Hl as [->|Hl]; [by right|by left].
    + apply IH; [|rewrite elem_of_cons in Hl; simpl in *; rewrite elem_of_cons; tauto|done].
      simpl. intros l' id' Hl' Hid'. apply elem_of_cons in Hl' as [->|Hl'].
      * rewrite Hid'. apply elem_of_app. right. by constructor.
      * specialize (Hacc _ _ Hl' Hid'). simpl in Hacc. destruct (uuid_parse x); [|done].
        apply elem_of_app. by left.
Qed.

Lemma dirtyAncestors_complete paths p x :
  p ∈ paths -> uuid_string x ∈ ancestor_labels p -> x ∈ dirtyAncestors paths.
Proof.
  intros Hp Hx. rewrite dirtyAncestors_concat. eapply (dirty_labels_complete _ _ (uuid_string x)).
  - simpl. intros l id Hl. by apply elem_of_nil in Hl.
  - left. apply list_elem_of_In, in_concat. exists (ancestor_labels p).
    split; [apply in_map|]; by apply list_elem_of_In.
  - apply uuid_parse_string.
Qed.

(** On labels that are canonical identifiers the output has no duplicate and
    nothing else. *)
Lemma dirty_labels_sound ids seen :
  NoDup seen ->
  let r := dirty_labels (map uuid_string ids) (map uuid_string seen, rev seen) in
  exists seen', NoDup seen' /\ r = (map uuid_string seen', rev seen') /\
    forall x, x ∈ seen' <-> x ∈ seen \/ x ∈ ids.
Proof.
  revert seen; induction ids as [|x ids IH]; intros seen Hnd; simpl.
  - exists seen. split; [done|]. split; [done|]. intros x. rewrite elem_of_nil. tauto.
  - destruct (mem_str (uuid_string x) (map uuid_string seen)) eqn:Hx.
    + apply mem_str_spec in Hx. change (map uuid_string seen) with (uuid_string <$> seen) in Hx.
      apply list_elem_of_fmap in Hx as (x' & Heq & Hx). apply uuid_string_inj in Heq as ->.
      destruct (IH seen Hnd) as (seen' & Hn & Hr & Hin). exists seen'. split; [done|]. split; [done|].
      intros y. rewrite Hin, elem_of_cons. split; [tauto|]. intros [?|[->|?]]; auto.
    + rewrite uuid_parse_string.
      assert (Hnew : x ∉ seen).
      { intros Hin. assert (mem_str (uuid_string x) (map uuid_string seen) = true); [|congruence].
        apply mem_str_spec. change (map uuid_string seen) with (uuid_string <$> seen).
        apply list_elem_of_fmap. by exists x. }
      destruct (IH (x :: seen)) as (seen' & Hn & Hr & Hin); [by apply NoDup_cons|].
      exists seen'. split; [done|]. split; [done|]. intros y. rewrite Hin, !elem_of_cons. tauto.
Qed.

Lemma removelast_map {A B} (f : A -> B) l : removelast (map f l) = map f (removelast l).
Proof. induction l as [|x [|y l] IH]; simpl in *; [done..|]. by rewrite IH. Qed.

Lemma ancestor_labels_path ids : ids <> [] -> ancestor_labels (path_of ids) = map uuid_string (removelast ids).
Proof. intros Hne. unfold ancestor_labels. rewrite split_path_of by done. apply removelast_map. Qed.

(** The dirty ancestor set: for item paths [dirtyAncestors] returns every strict
    ancestor of every touched path, nothing else, and each exactly once however
    many paths share it, so each rollup is recomputed once per mutation (ADR-005). *)
Theorem dirtyAncestors_exact (idss : list (list uuid)) :
  Forall (fun ids => ids <> []) idss ->
  NoDup (dirtyAncestors (map path_of idss)) /\
  forall x, x ∈ dirtyAncestors (map path_of idss) <-> exists ids, ids ∈ idss /\ x ∈ removelast ids.
Proof.
  intros Hne. rewrite dirtyAncestors_concat.
  assert (concat (map ancestor_labels (map path_of idss)) = map uuid_string (concat (map (@removelast uuid) idss))) as ->.
  { induction Hne as [|ids idss Hi _ IH]; simpl; [done|].
    by rewrite ancestor_labels_path, IH, map_app by done. }
  destruct (dirty_labels_sound (concat (map (@removelast uuid) idss)) [] ltac:(constructor)) as (seen & Hn & Hr & Hin).
  simpl in Hr. rewrite Hr. simpl. split; [by rewrite <- (Permutation_rev seen)|].
  intros x. rewrite list_elem_of_In, <- in_rev, <- list_elem_of_In, Hin.
  split.
  - intros [Hx|Hx]; [by apply elem_of_nil in Hx|]. apply list_elem_of_In, in_concat in Hx as (l & Hl & Hx).
    apply in_map_iff in Hl as (ids & <- & Hl). exists ids. by rewrite !list_elem_of_In.
  - intros (ids & Hids & Hx). right. apply list_elem_of_In, in_concat. exists (removelast ids). rewrite in_map_iff. split; [exists ids; split; [done|]|];
      by apply list_elem_of_In.
Qed.

(** * Contributions *)

(** [x] is a strict ancestor of the row, by its path. *)
Definition under (x : uuid) (i : Item) : bool := bool_decide (uuid_string x ∈ ancestor_labels (i_path i)).

Definition contrib_under (st : gmap uuid Status) (x : uuid) (i : Item) : option contrib :=
  if under x i && negb (i_deleted i)
  then match st !! i_status i with
       | Some s => Some (mkContrib (i_points i) (i_start i) (i_due i) (s_category s))
       | None => None
       end
  else None.

Lemma under_path x i ids : i_path i = path_of ids -> ids <> [] -> under x i = bool_decide (x ∈ removelast ids).
Proof.
  intros Hp Hne. unfold under. rewrite Hp, ancestor_labels_path by done. apply bool_decide_ext.
  change (map uuid_string (removelast ids)) with (uuid_string <$> removelast ids).
  rewrite list_elem_of_fmap. split; [by intros (y & ->%uuid_string_inj & ?)|eauto].
Qed.

Lemma row_path db d i :
  tree_ok (tree db) -> items db !! d = Some i -> i_id i = d /\ exists pre, i_path i = path_of (pre ++ [d]) /\ d ∉ pre.
Proof.
  intros Hok Hi. pose proof (tree_lookup _ _ _ Hi) as Ht. destruct (Hok _ _ Ht) as [ids [Hid Hp _ _]].
  split; [done|]. exists ids. split; [done|].
  pose proof (path_nodup _ Hok _ _ _ Ht Hp) as Hnd. apply NoDup_app in Hnd as (_ & Hd & _).
  intros Hin. apply (Hd d Hin). by constructor.
Qed.

Lemma removelast_snoc {A} (l : list A) x : removelast (l ++ [x]) = l.
Proof. apply List.removelast_last. Qed.

(** The descendants the SQL selects are the rows with [x] among their ancestors. *)
Lemma descendants_under db x xi :
  tree_ok (tree db) -> items db !! x = Some xi ->
  descendants x db = omap (contrib_under (statuses db) x) (items db).
Proof.
  intros Hok Hx. unfold descendants. rewrite Hx. apply map_eq. intros d. rewrite !lookup_omap.
  destruct (items db !! d) as [i|] eqn:Hi; simpl; [|done]. unfold contrib_of, contrib_under.
  destruct (row_path db d i Hok Hi) as (Hid & pre & Hp & Hnd).
  rewrite (under_path x i _ Hp) by apply snoc_ne. rewrite removelast_snoc.
  pose proof (contained_iff _ Hok d (tview i) (pre ++ [d]) x (tview xi) (tree_lookup _ _ _ Hi) Hp
    (snoc_ne _ _) (tree_lookup _ _ _ Hx)) as Hc. simpl in Hc. rewrite Hc, Hid.
  assert (bool_decide (x ∈ pre ++ [d]) && negb (bool_decide (d = x)) = bool_decide (x ∈ pre)) as ->.
  { apply eq_true_iff_eq. rewrite andb_true_iff, negb_true_iff, !bool_decide_eq_true, bool_decide_eq_false.
    rewrite elem_of_app, list_elem_of_singleton. split; [intros [[?| ->] ?]; done|].
    intros Hin. split; [by left|]. intros ->. done. }
  done.
Qed.

(** No row is under an identifier that is not an item. *)
Lemma not_under db x d i :
  tree_ok (tree db) -> items db !! x = None -> items db !! d = Some i -> under x i = false.
Proof.
  intros Hok Hx Hi. destruct (row_path db d i Hok Hi) as (_ & pre & Hp & _).
  rewrite (under_path x i _ Hp), removelast_snoc by apply snoc_ne. apply bool_decide_eq_false. intros Hin.
  apply list_elem_of_split in Hin as (a & b & ->). rewrite <- app_assoc in Hp. simpl in Hp.
  destruct (ancestor_node _ Hok d (tview i) a x (b ++ [d]) (tree_lookup _ _ _ Hi) Hp) as (t & Ht & _).
  apply tree_lookup_inv in Ht as (j & Hj & _). congruence.
Qed.

(** * One change *)

Definition dirty (x : uuid) (paths : list string) : Prop := Exists (fun p => uuid_string x ∈ ancestor_labels p) paths.

(** Between two states every row contributes the same to every item that is not a
    strict ancestor of a touched path. *)
Definition frame (T : list string) (db db' : Db) : Prop :=
  statuses db' = statuses db /\
  forall x d, ~ dirty x T ->
    items db' !! d ≫= contrib_under (statuses db) x = items db !! d ≫= contrib_under (statuses db) x.

Lemma frame_trans T1 T2 a b c : frame T1 a b -> frame T2 b c -> frame (T1 ++ T2) a c.
Proof.
  intros [S1 F1] [S2 F2]. split; [congruence|]. intros x d Hx. unfold dirty in Hx. rewrite Exists_app in Hx.
  rewrite <- S1, F2, S1, F1; [done|..]; intros Hd; apply Hx; auto.
Qed.

Lemma contrib_not_under st x i : under x i = false -> contrib_under st x i = None.
Proof. intros Hu. unfold contrib_under. by rewrite Hu. Qed.

Lemma dirty_in x T p i : i_path i = p -> p ∈ T -> ~ dirty x T -> under x i = false.
Proof.
  intros <- Hp Hd. apply bool_decide_eq_false. intros Hx. apply Hd, Exists_exists. eauto.
Qed.

Lemma frame_insert T db k o i' :
  items db !! k = o -> i_path i' ∈ T -> (forall i, o = Some i -> i_path i ∈ T) ->
  frame T db (set_items (<[k := i']> (items db)) db).
Proof.
  intros Ho Hp Hold. split; [done|]. intros x d Hx. simpl. destruct (decide (k = d)) as [<-|Hne].
  - rewrite lookup_insert_eq, Ho. simpl. rewrite contrib_not_under by (by eapply dirty_in).
    destruct o as [i|]; simpl; [|done]. rewrite contrib_not_under; [done|]. eapply dirty_in; eauto.
  - by rewrite lookup_insert_ne.
Qed.

Lemma frame_same db db' : items db' = items db -> statuses db' = statuses db -> frame [] db db'.
Proof. intros Hi Hs. split; [done|]. intros x d _. by rewrite Hi. Qed.

Lemma frame_rank db db' : rank_change db db' -> frame [] db db'.
Proof.
  intros [Hdb Hr]. split; [by rewrite Hdb|]. intros x d _. specialize (Hr d).
  destruct (items db !! d), (items db' !! d); try done. by destruct Hr as (r & v & _ & ->).
Qed.

Lemma frame_weaken T T' db db' : (forall p, p ∈ T -> p ∈ T') -> frame T db db' -> frame T' db db'.
Proof.
  intros Hsub [Hs Hf]. split; [done|]. intros x d Hx. apply Hf. intros Hd. apply Hx.
  apply Exists_exists in Hd as (p & Hp & Hx'). apply Exists_exists. eauto.
Qed.

Lemma frame_reparent db id x xids parent nids npp seq rows db' :
  tree_ok (tree db) -> items db !! id = Some x -> i_path x = path_of (xids ++ [id]) ->
  match parent with
  | None => nids = [] /\ npp = ""
  | Some p => exists q, items db !! p = Some q /\ nids <> [] /\ npp = path_of nids /\ i_path q = path_of nids /\
                i_project q = i_project x /\ contained (i_path q) (i_path x) = false
  end ->
  ReparentSubtree id parent npp (i_path x) seq db = Ok (rows, db') -> frame (i_path x :: rows) db db'.
Proof.
  intros Hok Hx Hxp Hpar Hr. apply ReparentSubtree_inv in Hr as (-> & Hrows & _); [|by apply tree_ok_keyed].
  split; [done|]. intros y d Hy. simpl. rewrite lookup_fmap.
  destruct (items db !! d) as [i|] eqn:Hi; simpl; [|done].
  pose proof (moved_row db Hok id x Hx xids Hxp parent nids npp Hpar seq d i Hi) as Hrow.
  case_bool_decide as Hc; [|by rewrite Hrow]. destruct Hrow as (suf & Hold & Hnew).
  assert (Hun : under y (moved id parent npp (i_path x) seq i) = false).
  { eapply dirty_in; [done| |exact Hy]. right. apply Hrows. eauto. }
  rewrite (contrib_not_under _ _ _ Hun), contrib_not_under; [done|].
  assert (Hxu : under y x = false) by (eapply (dirty_in _ _ (i_path x)); [done| |exact Hy]; by left).
  rewrite (under_path y x _ Hxp), removelast_snoc in Hxu by apply snoc_ne.
  rewrite (under_path y _ _ Hnew) in Hun by (by destruct nids).
  rewrite (under_path y _ _ Hold) by (by destruct xids).
  apply bool_decide_eq_false. apply bool_decide_eq_false in Hxu, Hun. intros Hin.
  rewrite removelast_app in Hin, Hun by done. rewrite elem_of_app in Hin, Hun. tauto.
Qed.

Definition kind_created (c : change) : list uuid := match ch_kind c with changeInsert i => [in_ID i] | _ => [] end.
Definition kind_hard (c : change) : list uuid := match ch_kind c with changeHardDelete => [ch_item c] | _ => [] end.

(** What a change does as far as rollups are concerned. *)
Record change_frame (c : change) (T : list string) (db db' : Db) : Prop := {
  cf_frame : frame T db db';
  cf_rollups : rollups db' = match ch_kind c with changeHardDelete => delete (ch_item c) (rollups db) | _ => rollups db end;
  cf_items : forall x, is_Some (items db' !! x) <->
    match ch_kind c with
    | changeInsert i => x = in_ID i \/ is_Some (items db !! x)
    | changeHardDelete => x <> ch_item c /\ is_Some (items db !! x)
    | _ => is_Some (items db !! x)
    end;
  cf_fresh : match ch_kind c with changeInsert i => items db !! in_ID i = None | _ => True end
}.

Lemma is_some_insert (db : Db) k i' : is_Some (items db !! k) ->
  forall x, is_Some (<[k := i']> (items db) !! x) <-> is_Some (items db !! x).
Proof. intros Hk x. rewrite lookup_insert_is_Some. split; [intros [<-|[]]; done|]. destruct (decide (k = x)); auto. Qed.

Lemma rank_change_dom db db' x : rank_change db db' -> is_Some (items db' !! x) <-> is_Some (items db !! x).
Proof.
  intros [_ Hr]. specialize (Hr x). destruct (items db !! x), (items db' !! x); try done;
    split; intros [? ?]; done || eauto.
Qed.

Lemma insert_kind_frame c inp ws seq db path db' :
  ch_kind c = changeInsert inp -> tree_ok (tree db) -> applyInsert ws inp seq db = Ok (path, db') -> change_frame c [path] db db'.
Proof.
  intros Ek Hok E.
  apply applyInsert_inv in E as (row & db1 & Hdb & (ps & dbk & -> & Hrc & _) & Hins & _ & Hid & Hp & _); [|by apply tree_ok_keyed].
  apply InsertItem_inv in Hins as (Hn & _ & _ & _). rewrite Hid in Hn.
  assert (Hn0 : items db !! in_ID inp = None).
  { pose proof (rank_change_dom _ _ (in_ID inp) Hrc) as Hdom. simpl in Hdom. rewrite Hn in Hdom.
    destruct (items db !! in_ID inp); [|done]. destruct Hdom as [_ Hdom]. by destruct Hdom. }
  split; rewrite ?Ek; [| |intros x; rewrite Hdb; simpl|done].
  - rewrite Hdb. apply (frame_trans [] [path] _ db1); [by apply (frame_rank (set_projects ps db))|].
    eapply frame_insert; [exact Hn|rewrite Hp; by constructor|done].
  - rewrite Hdb. simpl. by destruct Hrc as [-> _].
  - rewrite lookup_insert_is_Some. rewrite (rank_change_dom _ _ x Hrc). simpl.
    split; [intros [->|[_ ?]]; auto|]. intros [->|?]; [by left|]. destruct (decide (in_ID inp = x)); auto.
Qed.

Lemma reparent_kind_frame c r seq db paths db' :
  ch_kind c = changeReparent r -> tree_ok (tree db) -> applyReparent r seq db = Ok (paths, db') -> change_frame c paths db db'.
Proof.
  intros Ek Hok E. apply applyReparent_inv in E as (x & xids & nids & npp & rows & db1 & Hx & Hxp & Hn & Hr & -> & _ & Hrc); [|done].
  assert (Hfr : frame (i_path x :: rows) db db1).
  { eapply frame_reparent; [exact Hok|exact Hx|exact Hxp| |exact Hr].
    destruct (rp_NewParentID r); [|done]. destruct Hn as (q & H1 & H2 & H3 & H4 & H5 & H6 & _). by exists q. }
  apply ReparentSubtree_inv in Hr as (Hdb1 & _); [|by apply tree_ok_keyed].
  split; rewrite ?Ek; [| |intros y|done].
  - eapply frame_weaken; [|eapply frame_trans; [exact Hfr|by apply frame_rank]]. intros p. by rewrite app_nil_r.
  - destruct Hrc as [-> _]. by rewrite Hdb1.
  - rewrite (rank_change_dom _ _ y Hrc), Hdb1. simpl. rewrite lookup_fmap, fmap_is_Some. done.
Qed.

Lemma hard_kind_frame c row db db' :
  ch_kind c = changeHardDelete -> items db !! ch_item c = Some row -> Db.HardDeleteItem (ch_item c) db = Ok db' -> change_frame c [i_path row] db db'.
Proof.
  intros Ek Hi E. apply HardDeleteItem_inv in E as [[Hn ->]|(_ & _ & ->)]; [congruence|].
  split; rewrite ?Ek; [|done|intros x; simpl|done].
  - split; [done|]. intros x d Hx. simpl. destruct (decide (ch_item c = d)) as [<-|Hne]; [|by rewrite lookup_delete_ne].
    rewrite lookup_delete_eq, Hi. simpl. rewrite contrib_not_under; [done|]. eapply dirty_in; [done| |exact Hx]. by constructor.
  - rewrite lookup_delete_is_Some. split; intros [? ?]; split; auto.
Qed.

(** A change that rewrites one row in place, and one that leaves the items alone. *)
Lemma rewrite_kind_frame c db k i i' :
  not_hard (ch_kind c) = true -> not_insert (ch_kind c) = true -> items db !! k = Some i -> i_path i' = i_path i ->
  change_frame c [i_path i] db (set_items (<[k := i']> (items db)) db).
Proof.
  intros Hh Hn Hi Hp. split; [| |intros x|].
  - apply (frame_insert _ _ _ (Some i)); [done|rewrite Hp; by constructor|]. intros j [= <-]. by constructor.
  - by destruct (ch_kind c).
  - simpl. destruct (ch_kind c); try discriminate; apply is_some_insert; eauto.
  - by destruct (ch_kind c).
Qed.
Lemma same_kind_frame c db db' : not_hard (ch_kind c) = true -> not_insert (ch_kind c) = true ->
  items db' = items db -> statuses db' = statuses db -> rollups db' = rollups db -> change_frame c [] db db'.
Proof.
  intros Hh Hn Hi Hs Hr. split; [by apply frame_same|..|intros x; rewrite Hi|]; by destruct (ch_kind c).
Qed.

Lemma apply_kind_frame m c seq s s' :
  tree_ok (tree (pr_db s)) -> kind_item c -> apply_kind m c seq s = Ok s' ->
  exists T, pr_touched s' = pr_touched s ++ T /\ pr_created s' = pr_created s ++ kind_created c /\
    pr_hard s' = pr_hard s ++ kind_hard c /\ change_frame c T (pr_db s) (pr_db s').
Proof.
  intros Hok Hki Ha. unfold apply_kind, kind_item, kind_created, kind_hard in *.
  destruct (ch_kind c) eqn:Ek; rewrite ?app_nil_r.
  - destruct (applyInsert _ _ _ _) as [[path db]|] eqn:E; [|done]. injection Ha as <-. exists [path]. by eauto using insert_kind_frame.
  - destruct (applyUpdate _ _ _) as [[path db]|] eqn:E; [|done]. injection Ha as <-. exists [path]. simpl. rewrite ?app_nil_r.
    apply applyUpdate_inv in E as (i & Hi & <- & -> & _). split_and!; [done..|]. apply rewrite_kind_frame; by rewrite ?Ek.
  - destruct (applyReparent _ _ _) as [[paths db]|] eqn:E; [|done]. injection Ha as <-. exists paths. simpl. rewrite ?app_nil_r.
    by eauto using reparent_kind_frame.
  - destruct (sql _) as [[row db]|] eqn:E; [|done]. injection Ha as <-. exists [i_path row]. simpl. rewrite ?app_nil_r.
    apply sql_inv, SoftDeleteItem_inv in E as (i & Hi & _ & -> & ->). split_and!; [done..|]. apply (rewrite_kind_frame _ _ _ i); by rewrite ?Ek.
  - destruct (sql (GetItem _ _)) as [row|] eqn:Eg; [|done]. destruct (sql (Db.HardDeleteItem _ _)) as [db|] eqn:E; [|done].
    injection Ha as <-. exists [i_path row]. simpl. rewrite ?app_nil_r. apply sql_inv in Eg, E. unfold GetItem in Eg.
    destruct (items (pr_db s) !! ch_item c) as [i|] eqn:Hi; [|done]. injection Eg as <-. by eauto using hard_kind_frame.
  - destruct (sql _) as [db|] eqn:E; [|done]. injection Ha as <-. apply sql_inv, InsertLink_inv in E as ->.
    exists []. simpl. rewrite ?app_nil_r. split_and!; [done..|]. apply same_kind_frame; by rewrite ?Ek.
  - injection Ha as <-. exists []. simpl. rewrite ?app_nil_r. split_and!; [done..|]. apply same_kind_frame; by rewrite ?Ek.
  - destruct (applyComment _ _ _) as [db|] eqn:E; [|done]. injection Ha as <-. apply applyComment_inv in E as [cs ->].
    exists []. simpl. rewrite ?app_nil_r. split_and!; [done..|]. apply same_kind_frame; by rewrite ?Ek.
Qed.

Lemma touch_frame id seq db db' :
  TouchItem id seq db = Ok db' ->
  frame [] db db' /\ rollups db' = rollups db /\ forall x, is_Some (items db' !! x) <-> is_Some (items db !! x).
Proof.
  intros Ht. apply TouchItem_inv in Ht as [[_ ->]|(i & Hi & ->)].
  - split; [by apply frame_same|done].
  - split; [|split; [done|intros x; apply is_some_insert; eauto]]. split; [done|]. intros x d _. simpl.
    destruct (decide (id = d)) as [<-|Hne]; [by rewrite lookup_insert_eq, Hi|by rewrite lookup_insert_ne].
Qed.

Lemma apply_change_frame m seqs s c s' :
  tree_ok (tree (pr_db s)) -> kind_item c -> apply_change m seqs s c = Ok s' ->
  exists T, pr_touched s' = pr_touched s ++ T /\ pr_created s' = pr_created s ++ kind_created c /\
    pr_hard s' = pr_hard s ++ kind_hard c /\ change_frame c T (pr_db s) (pr_db s').
Proof.
  intros Hok Hki Ha. apply apply_change_inv in Ha as (s1 & Hk & Ht & -> & -> & ->).
  destruct (apply_kind_frame _ _ _ _ _ Hok Hki Hk) as (T & H1 & H2 & H3 & Hcf).
  exists T. split; [done|]. split; [done|]. split; [done|].
  destruct (touches_version (ch_kind c)) eqn:Etv; [|by rewrite Ht].
  apply touch_frame in Ht as (Hf & Hr & Hd). destruct Hcf as [F1 F2 F3 F4]. split.
  - rewrite <- (app_nil_r T). by eapply frame_trans.
  - by rewrite Hr.
  - intros x. rewrite Hd. apply F3.
  - done.
Qed.

(** * The invariant of the loop *)

Definition exact_at (db : Db) (x : uuid) : Prop := rollups db !! x = Some (aggregate (descendants x db)).

Record rollup_inv (s : progress) : Prop := {
  ri_tree : tree_ok (tree (pr_db s));
  ri_dom : forall x, is_Some (rollups (pr_db s) !! x) -> is_Some (items (pr_db s) !! x);
  ri_hard : forall x, x ∈ pr_hard s -> items (pr_db s) !! x = None;
  ri_rows : forall x, is_Some (items (pr_db s) !! x) ->
    dirty x (pr_touched s) \/ exact_at (pr_db s) x \/
    (x ∈ pr_created s /\ rollups (pr_db s) !! x = None /\ descendants x (pr_db s) = ∅)
}.

Lemma descendants_frame T db db' x :
  tree_ok (tree db) -> tree_ok (tree db') -> frame T db db' -> ~ dirty x T ->
  is_Some (items db !! x) -> is_Some (items db' !! x) -> descendants x db' = descendants x db.
Proof.
  intros H1 H2 [Hs Hf] Hx [xi Hxi] [xi' Hxi'].
  rewrite (descendants_under _ _ _ H1 Hxi), (descendants_under _ _ _ H2 Hxi').
  apply map_eq. intros d. rewrite !lookup_omap, Hs. by apply Hf.
Qed.

Lemma descendants_new T db db' x :
  tree_ok (tree db) -> tree_ok (tree db') -> frame T db db' -> ~ dirty x T ->
  items db !! x = None -> is_Some (items db' !! x) -> descendants x db' = ∅.
Proof.
  intros H1 H2 [Hs Hf] Hx Hn [xi' Hxi']. rewrite (descendants_under _ _ _ H2 Hxi').
  apply map_eq. intros d. rewrite lookup_omap, lookup_empty, Hs. rewrite Hf by done.
  destruct (items db !! d) as [i|] eqn:Hi; simpl; [|done].
  apply contrib_not_under. exact (not_under db x d i H1 Hn Hi).
Qed.

Lemma dirty_app x T1 T2 : dirty x (T1 ++ T2) <-> dirty x T1 \/ dirty x T2.
Proof. apply Exists_app. Qed.

Lemma dirty_dec x T : Decision (dirty x T).
Proof. unfold dirty. apply _. Defined.

Lemma apply_change_rollups m seqs s c s' :
  rollup_inv s -> kind_item c ->
  (forall i, ch_kind c = changeInsert i -> in_ID i ∉ pr_hard s) ->
  apply_change m seqs s c = Ok s' -> rollup_inv s'.
Proof.
  intros [Hok Hdom Hhard Hrows] Hki Hfresh Ha.
  pose proof (apply_change_tree _ _ _ _ _ Hok Ha) as Hok'.
  destruct (apply_change_frame _ _ _ _ _ Hok Hki Ha) as (T & HT & Hcr & Hh & [F1 F2 F3 F4]).
  split; [done|..].
  - intros x Hx. rewrite F2 in Hx. apply F3. destruct (ch_kind c); try (by apply Hdom).
    + right. by apply Hdom.
    + apply lookup_delete_is_Some in Hx as [Hne Hx]. split; [done|by apply Hdom].
  - intros x Hx. rewrite Hh in Hx. apply elem_of_app in Hx as [Hx|Hx].
    + specialize (Hhard x Hx). apply eq_None_not_Some. intros Hs. apply F3 in Hs.
      apply eq_None_not_Some in Hhard. apply Hhard. destruct (ch_kind c); try done.
      * destruct Hs as [->|Hs]; [|done]. by destruct (Hfresh _ eq_refl).
      * by destruct Hs.
    + unfold kind_hard in Hx. destruct (ch_kind c); try (by apply elem_of_nil in Hx).
      apply list_elem_of_singleton in Hx as ->. apply eq_None_not_Some. intros Hs. apply F3 in Hs. by destruct Hs.
  - intros x Hx. rewrite HT, Hcr. destruct (dirty_dec x T) as [Hd|Hd]; [left; apply dirty_app; by right|].
    destruct (decide (is_Some (items (pr_db s) !! x))) as [Hold|Hnew].
    + assert (Hdesc : descendants x (pr_db s') = descendants x (pr_db s)) by (by eapply descendants_frame).
      assert (Hroll : rollups (pr_db s') !! x = rollups (pr_db s) !! x).
      { rewrite F2. destruct (ch_kind c); try done. apply lookup_delete_ne. intros <-. apply F3 in Hx. by destruct Hx. }
      destruct (Hrows x Hold) as [Hr|[Hr|(Hc & Hr & He)]].
      * left. apply dirty_app. by left.
      * right. left. unfold exact_at. by rewrite Hdesc, Hroll.
      * right. right. rewrite Hdesc, Hroll. split; [apply elem_of_app; by left|done].
    + right. right. apply eq_None_not_Some in Hnew.
      assert (He : descendants x (pr_db s') = ∅) by (exact (descendants_new _ _ _ _ Hok Hok' F1 Hd Hnew Hx)).
      split; [|split; [|done]].
      * apply elem_of_app. right. apply F3 in Hx. unfold kind_created. apply eq_None_not_Some in Hnew.
        destruct (ch_kind c); try contradiction; [destruct Hx as [->|]; [by constructor|contradiction]|].
        by destruct Hx.
      * rewrite F2. assert (rollups (pr_db s) !! x = None) as Hn.
        { apply eq_None_not_Some. intros Hs. apply Hdom in Hs. rewrite Hnew in Hs. by destruct Hs. }
        destruct (ch_kind c); try done. destruct (decide (ch_item c = x)) as [->|];
          [apply lookup_delete_eq|by rewrite lookup_delete_ne].
Qed.

(** * The maintenance steps *)

Lemma aggregate_empty : aggregate ∅ = mkRollup 0 0 None None None None.
Proof. unfold aggregate. by rewrite map_to_list_empty. Qed.

Lemma insert_rollups_at ids db db1 x :
  foldM (fun db id => sql (InsertRollupRow id db)) ids db = Ok db1 ->
  rollups db1 !! x =
    match rollups db !! x with
    | Some r => Some r
    | None => if bool_decide (x ∈ ids) then Some (mkRollup 0 0 None None None None) else None
    end.
Proof.
  revert db; induction ids as [|id ids IH]; intros db Hf; simpl in Hf.
  - injection Hf as <-. destruct (rollups db !! x); [done|]. by rewrite bool_decide_false by apply not_elem_of_nil.
  - destruct (sql _) as [db2|] eqn:E; [|done]. rewrite (IH _ Hf).
    apply sql_inv, InsertRollupRow_inv in E as [[[r Hr] ->]|(Hn & _ & ->)]; simpl.
    + destruct (rollups db !! x) eqn:Hx; [done|].
      assert (bool_decide (x ∈ id :: ids) = bool_decide (x ∈ ids)) as ->; [|done].
      apply bool_decide_ext. rewrite elem_of_cons. split; [intros [->|]; [congruence|done]|auto].
    + destruct (decide (id = x)) as [<-|Hne].
      * rewrite lookup_insert_eq, Hn. by rewrite bool_decide_true by constructor.
      * rewrite lookup_insert_ne by done. destruct (rollups db !! x); [done|].
        assert (bool_decide (x ∈ id :: ids) = bool_decide (x ∈ ids)) as ->; [|done].
        apply bool_decide_ext. rewrite elem_of_cons. split; [intros [->|]; [done|auto]|auto].
Qed.

Lemma recompute_at ids db db2 x :
  recomputeRollups ids db = Ok db2 ->
  rollups db2 !! x = if bool_decide (x ∈ ids) then Some (aggregate (descendants x db)) else rollups db !! x.
Proof.
  unfold recomputeRollups. revert db; induction ids as [|id ids IH]; intros db Hf; simpl in Hf.
  - injection Hf as <-. by rewrite bool_decide_false by apply not_elem_of_nil.
  - destruct (sql _) as [db1|] eqn:E; [|done]. rewrite (IH _ Hf).
    apply sql_inv, RecomputeRollup_inv in E as [_ ->].
    change (descendants x (set_rollups ?r db)) with (descendants x db).
    destruct (decide (x ∈ ids)) as [Hin|Hin].
    + rewrite !bool_decide_true; [done| |done]. by constructor.
    + rewrite (bool_decide_false _ Hin). simpl. destruct (decide (id = x)) as [->|Hne].
      * rewrite lookup_insert_eq, bool_decide_true; [done|by constructor].
      * rewrite lookup_insert_ne, bool_decide_false; [done| |done]. rewrite elem_of_cons. intros [->|]; done.
Qed.

(** The stored rollups are exact, and there is one per item (ADR-013). *)
Definition rollups_exact (db : Db) : Prop :=
  (forall x, is_Some (items db !! x) -> exact_at db x) /\
  (forall x, is_Some (rollups db !! x) -> is_Some (items db !! x)).

Lemma finish_rollups ws evs s db' :
  rollup_inv s -> finish ws evs s = Ok db' -> rollups_exact db'.
Proof.
  intros [Hok Hdom Hhard Hrows] Hf. apply finish_inv in Hf as (db1 & db2 & H1 & H2 & -> & O2 & O1).
  assert (Hd1 : forall x, descendants x db1 = descendants x (pr_db s)) by (intros x; by rewrite O1).
  split.
  - intros x Hx. unfold exact_at. change (descendants x (set_events _ (set_rollups _ (pr_db s)))) with (descendants x (pr_db s)).
    simpl in *. rewrite (recompute_at _ _ _ x H2), Hd1. case_bool_decide as Hl; [done|].
    rewrite (insert_rollups_at _ _ _ x H1).
    destruct (Hrows x Hx) as [Hd|[He|(Hc & Hn & He)]].
    + exfalso. apply Hl. apply list_elem_of_In, filter_In. split.
      * apply list_elem_of_In. apply Exists_exists in Hd as (p & Hp & Hxp). by eapply dirtyAncestors_complete.
      * apply negb_true_iff, bool_decide_eq_false. intros Hh. apply Hhard in Hh. rewrite Hh in Hx. by destruct Hx.
    + unfold exact_at in He. by rewrite He.
    + rewrite Hn, bool_decide_true by done. by rewrite He, aggregate_empty.
  - intros x Hx. simpl in *. rewrite (recompute_at _ _ _ x H2), (insert_rollups_at _ _ _ x H1) in Hx.
    case_bool_decide as Hl.
    + (* recomputed rows satisfy the foreign key *)
      assert (Hfk : forall ids db dbx, recomputeRollups ids db = Ok dbx -> x ∈ ids -> is_Some (items db !! x)).
      { clear. unfold recomputeRollups. induction ids as [|id ids IH]; intros db dbx Hf Hin; [by apply elem_of_nil in Hin|].
        simpl in Hf. destruct (sql _) as [db1|] eqn:E; [|done]. apply sql_inv, RecomputeRollup_inv in E as [Hs ->].
        apply elem_of_cons in Hin as [->|Hin]; [done|]. by apply (IH _ _ Hf). }
      specialize (Hfk _ _ _ H2 Hl). by rewrite O1 in Hfk.
    + destruct (rollups (pr_db s) !! x) eqn:Hr; [by apply Hdom; rewrite Hr|].
      case_bool_decide as Hc; [|by destruct Hx].
      assert (Hfk : forall ids db dbx, foldM (fun db id => sql (InsertRollupRow id db)) ids db = Ok dbx -> x ∈ ids ->
                rollups db !! x = None -> is_Some (items db !! x)).
      { clear. induction ids as [|id ids IH]; intros db dbx Hf Hin Hn; [by apply elem_of_nil in Hin|].
        simpl in Hf. destruct (sql _) as [db1|] eqn:E; [|done].
        apply sql_inv, InsertRollupRow_inv in E as [[[r Hr] ->]|(Hn' & Hs & ->)].
        - apply elem_of_cons in Hin as [->|Hin]; [congruence|]. by apply (IH _ _ Hf).
        - destruct (decide (id = x)) as [->|Hne]; [done|]. apply elem_of_cons in Hin as [->|Hin]; [done|].
          apply (IH _ _ Hf Hin). simpl. by rewrite lookup_insert_ne. }
      by apply (Hfk _ _ _ H1).
Qed.

(** * Whole mutations *)

(** No item is both hard-deleted and created by the mutation. *)
Definition no_recreate (m : Mutation) : Prop :=
  forall c1 c2 i, c1 ∈ m_changes m -> c2 ∈ m_changes m ->
    ch_kind c1 = changeHardDelete -> ch_kind c2 = changeInsert i -> ch_item c1 <> in_ID i.

Lemma flush_rollups m db res db' :
  tree_ok (tree db) -> rollups_exact db -> described m -> no_recreate m ->
  flush m db = Ok (res, db') -> rollups_exact db'.
Proof.
  intros Hok [He Hd] Hdesc Hnr Hf. apply flush_inv in Hf as (v0 & dbA & evs & s & [_ HA _ _ Hs Hfin _]).
  eapply finish_rollups; [|exact Hfin]. clear Hfin.
  assert (Hinv : rollup_inv s /\ forall x, x ∈ pr_hard s ->
            exists c, c ∈ m_changes m /\ ch_kind c = changeHardDelete /\ ch_item c = x); [|apply Hinv].
  revert Hs. apply (foldM_inv _ (fun t => rollup_inv t /\ forall x, x ∈ pr_hard t ->
            exists c, c ∈ m_changes m /\ ch_kind c = changeHardDelete /\ ch_item c = x)).
  - intros t c t' Hin [Hinv Hh] Ha.
    assert (Hki : kind_item c) by (eapply Forall_forall in Hdesc; [apply Hdesc|done]).
    split.
    + eapply apply_change_rollups; [done|done| |exact Ha]. intros i Hi Hx.
      apply Hh in Hx as (c1 & Hc1 & Hk1 & Heq). by apply (Hnr c1 c i).
    + destruct (apply_change_frame _ _ _ _ _ (ri_tree _ Hinv) Hki Ha) as (T & _ & _ & -> & _).
      intros x Hx. apply elem_of_app in Hx as [Hx|Hx]; [by apply Hh|].
      unfold kind_hard in Hx. destruct (ch_kind c) eqn:Ek; try (by apply elem_of_nil in Hx).
      apply list_elem_of_singleton in Hx as ->. eauto.
  - split.
    + subst dbA. split; simpl; [done|done|intros x Hx; by apply elem_of_nil in Hx|].
      intros x Hx. right. left. apply (He x Hx).
    + intros x Hx. by apply elem_of_nil in Hx.
Qed.

(** Exact rollups pass the audit. *)
Lemma exact_verified db : rollups_exact db -> VerifyRollups db = [] /\ (CountItemsAndRollups db).1 = (CountItemsAndRollups db).2.
Proof.
  intros [He1 He2]. split.
  - unfold VerifyRollups. assert (Hall : Forall (fun ir => verify_row db ir = None) (map_to_list (items db))).
    { apply Forall_forall. intros [x i] Hin. apply elem_of_map_to_list in Hin. unfold verify_row. simpl.
      rewrite (He1 x) by eauto. by rewrite !Z.eqb_refl. }
    induction Hall as [|ir l Hir _ IH]; [done|]. simpl. by rewrite Hir.
  - simpl. rewrite <- !size_dom. f_equal. apply set_eq. intros x. rewrite !elem_of_dom.
    split; [intros Hx; rewrite (He1 x Hx); eauto|apply He2].
Qed.

(** C1. Rollups stay exact: whatever mutation a caller runs, if every item has a
    rollup row equal to a fresh aggregate over its live descendants (counts, done
    counts, points, earliest start, latest due) and there is no other rollup row,
    then so it is after the call. (The only restriction is that one mutation does
    not hard-delete and create the same identifier; the hard delete is not part of
    the API.) In particular the counts of items and of rollup rows agree and the
    audit query [VerifyRollups] reports nothing. *)
Theorem Mutate_rollups ws vs os db r db' :
  tree_ok (tree db) -> rollups_exact db -> no_recreate (built ws vs os) ->
  Mutate ws (callback vs) (run_option <$> os) db = (r, db') ->
  rollups_exact db' /\ VerifyRollups db' = [] /\
  (CountItemsAndRollups db').1 = (CountItemsAndRollups db').2.
Proof.
  intros Hok He Hnr Hm.
  assert (He' : rollups_exact db').
  { apply Mutate_inv in Hm as [(e & _ & ->)|(res & _ & Hf & _)]; [done|].
    eapply flush_rollups; [exact Hok|exact He|apply built_described|exact Hnr|exact Hf]. }
  split; [done|]. by apply exact_verified.
Qed.

(** The audit of [sierxctl rollup --verify] is sound and complete for what it
    compares: it reports nothing exactly when every item that has a rollup row has
    in it the fresh descendant count, done count and point total (with an absent
    total read as zero). *)
Theorem VerifyRollups_spec db :
  VerifyRollups db = [] <->
  forall x r, is_Some (items db !! x) -> rollups db !! x = Some r ->
    descendant_count r = descendant_count (aggregate (descendants x db)) /\
    done_count r = done_count (aggregate (descendants x db)) /\
    coalesce (points_total r) 0 = coalesce (points_total (aggregate (descendants x db))) 0.
Proof.
  assert (Hrow : forall x i r, rollups db !! x = Some r ->
    (verify_row db (x, i) = None <->
     descendant_count r = descendant_count (aggregate (descendants x db)) /\
     done_count r = done_count (aggregate (descendants x db)) /\
     coalesce (points_total r) 0 = coalesce (points_total (aggregate (descendants x db))) 0)).
  { intros x i r Hr. unfold verify_row. simpl. rewrite Hr.
    destruct (_ || _ || _) eqn:E.
    - split; [done|]. intros (E1 & E2 & E3). rewrite E1, E2, E3, !Z.eqb_refl in E. done.
    - rewrite !orb_false_iff, !negb_false_iff, !Z.eqb_eq in E. tauto. }
  unfold VerifyRollups. split.
  - intros Hv x r [i Hi] Hr. apply (Hrow x i r Hr).
    destruct (verify_row db (x, i)) as [mm|] eqn:E; [|done]. exfalso.
    assert (mm ∈ omap (verify_row db) (map_to_list (items db))) as Hin.
    { apply list_elem_of_omap. exists (x, i). split; [by apply elem_of_map_to_list|done]. }
    rewrite Hv in Hin. by apply elem_of_nil in Hin.
  - intros Hall. destruct (omap _ _) as [|mm l] eqn:E; [done|]. exfalso.
    assert (mm ∈ omap (verify_row db) (map_to_list (items db))) as Hin by (rewrite E; by constructor).
    apply list_elem_of_omap in Hin as ([x i] & Hin & Hmm). apply elem_of_map_to_list in Hin.
    destruct (rollups db !! x) as [r|] eqn:Hr.
    + rewrite (proj2 (Hrow x i r Hr)) in Hmm; [done|]. apply (Hall x r); eauto.
    + unfold verify_row in Hmm. simpl in Hmm. by rewrite Hr in Hmm.
Qed.

End rollup.

(** * Witnesses *)

Lemma dirtyAncestors_exact_witness :
  NoDup (dirtyAncestors (map path_of [[U 1; U 2; U 3]; [U 1; U 2; U 4]])) /\
  dirtyAncestors (map path_of [[U 1; U 2; U 3]; [U 1; U 2; U 4]]) = [U 1; U 2].
Proof.
  split; [|vm_compute; reflexivity].
  apply (dirtyAncestors_exact [[U 1; U 2; U 3]; [U 1; U 2; U 4]]). repeat constructor; discriminate.
Defined.

Lemma Mutate_rollups_witness : VerifyRollups Demo.db1 = [] /\ rollups Demo.db1 !! U 10 = Some (mkRollup 2 0 (Some 350) None None None).
Proof.
  split; [|vm_compute; reflexivity].
  assert (Hempty : rollups_exact Demo.db0) by (split; intros x H; vm_compute in H; destruct H as [? H]; discriminate H).
  assert (Hnr : no_recreate (built Demo.ws Demo.create_three [OActor Demo.user])).
  { intros c1 c2 i H1 _ Hk _ _. repeat (apply elem_of_cons in H1 as [->|H1]; [discriminate Hk|]).
    by apply elem_of_nil in H1. }
  pose proof (Mutate_rollups Demo.ws Demo.create_three [OActor Demo.user] Demo.db0 Demo.run1.1 Demo.db1
                db0_tree Hempty Hnr) as H.
  exact (proj1 (proj2 (H Demo.run1_call))).
Defined.

End StoreRollup.
