(* ===== verification/StoreRank.v ===== *)
(** Ordering inside a project: every rank the store writes is valid and distinct
    from the others as a fraction, so rank generation always terminates and the
    two attempts of a ranked move suffice. *)
From S2P Require Import Prelude Uuid Ltree Float Json Rank Db Events Mutate Demo StoreTree Store.
Open Scope Z_scope.

Module StoreRank.
Import Ltree Db Events Mutate StoreTree Store.
Import Rank (valid, frac_lt, RankBetween_ok, RankBetween_top_ok, RankSequence_ok, frac_lt_trans, frac_lt_irrefl,
             frac_trichotomy, frac_lt_str_lt, max_sequence).

(** * Ranks as fractions *)

(** A rank the store may hold: valid, above zero, at most forty characters. *)
Record good_rank (r : string) : Prop := {
  gr_valid : valid r = true;
  gr_pos : frac_lt "" r;
  gr_length : (String.length r <= 40)%nat
}.

Definition apart (a b : string) : Prop := frac_lt a b \/ frac_lt b a.

Lemma apart_sym a b : apart a b -> apart b a.
Proof. unfold apart. tauto. Qed.

Lemma apart_ne a b : apart a b -> a <> b.
Proof. intros [H|H] ->; by apply frac_lt_irrefl in H. Qed.

Lemma frac_lt_empty a : valid a = true -> ~ frac_lt a "".
Proof.
  intros Ha (i & _ & Hlt). rewrite (Rank.rankAt_end "") in Hlt by (simpl; lia).
  pose proof (Rank.rankAt_range a i Ha). lia.
Qed.

(** For distinct fractions byte order is fractional order. *)
Lemma rank_le_frac a b : valid a = true -> valid b = true -> apart a b -> str_lt b a = false -> frac_lt a b.
Proof.
  intros Ha Hb [H|H] Hlt; [done|]. apply frac_lt_str_lt in H; [|done..]. congruence.
Qed.

(** The ranks of a project as the invariant sees them. *)
Definition ranks_ok (m : gmap uuid Item) : Prop :=
  (forall id i, m !! id = Some i -> good_rank (i_rank i)) /\
  (forall id1 id2 i1 i2, m !! id1 = Some i1 -> m !! id2 = Some i2 -> id1 <> id2 ->
     i_project i1 = i_project i2 -> apart (i_rank i1) (i_rank i2)).

(** * The rank list *)

Definition rank_lt (a b : uuid * string) : Prop := frac_lt a.2 b.2.

#[export] Instance rank_le_total : Total rank_le.
Proof.
  intros a b. unfold rank_le. destruct (str_lt b.2 a.2) eqn:E; [right|by left].
  by apply str_lt_asym.
Qed.

#[export] Instance rank_le_trans : Transitive rank_le.
Proof.
  intros a b c. unfold rank_le, str_lt. intros H1 H2. destruct (chars_lt (chars c.2) (chars a.2)) eqn:E; [|done].
  destruct (chars_lt (chars a.2) (chars b.2)) eqn:E2.
  - by rewrite (chars_lt_trans _ _ _ E E2) in H2.
  - rewrite (chars_lt_total _ _ E2 H1) in E. congruence.
Qed.

Lemma elem_project_items p db i :
  i ∈ project_items p db <-> (exists id, items db !! id = Some i) /\ i_project i = p.
Proof.
  unfold project_items. rewrite list_elem_of_In, filter_In, <- list_elem_of_In, row_in, bool_decide_eq_true. done.
Qed.

Lemma elem_ranks p db c :
  keyed (items db) ->
  c ∈ ListProjectRanks p db <-> exists i, items db !! c.1 = Some i /\ i_project i = p /\ i_rank i = c.2.
Proof.
  intros Hk. unfold ListProjectRanks. rewrite merge_sort_Permutation, list_elem_of_fmap. split.
  - intros (i & -> & Hi). apply elem_project_items in Hi as [[id Hi] Hp]. exists i. simpl.
    by rewrite (Hk _ _ Hi).
  - intros (i & Hi & Hp & Hr). exists i. rewrite (Hk _ _ Hi), Hr. split; [by destruct c|].
    apply elem_project_items. eauto.
Qed.

Lemma ranks_nodup p db : keyed (items db) -> NoDup (ListProjectRanks p db).*1.
Proof.
  intros Hk. unfold ListProjectRanks. rewrite merge_sort_Permutation, <- list_fmap_compose.
  apply (nodup_filter_ids (fun i => bool_decide (i_project i = p)) (items db) Hk).
Qed.

(** The list is strictly ascending as fractions. *)
Lemma ranks_sorted p db :
  keyed (items db) -> ranks_ok (items db) -> StronglySorted rank_lt (ListProjectRanks p db).
Proof.
  intros Hk [Hgood Hap].
  assert (Hs : StronglySorted rank_le (ListProjectRanks p db)).
  { apply Sorted_StronglySorted; [apply _|]. apply (Sorted_merge_sort rank_le). }
  pose proof (ranks_nodup p db Hk) as Hnd.
  assert (Hin : forall c, c ∈ ListProjectRanks p db -> exists i, items db !! c.1 = Some i /\ i_project i = p /\ i_rank i = c.2).
  { intros c. by apply elem_ranks. }
  induction Hs as [|c l Hl IH Hc]; [constructor|]. rewrite fmap_cons in Hnd. apply NoDup_cons in Hnd as [Hcn Hnd].
  constructor; [apply IH; [done|]; intros d Hd; apply Hin; by right|].
  rewrite Forall_forall in *. intros d Hd. specialize (Hc d Hd).
  destruct (Hin c ltac:(by left)) as (i & Hi & Hpi & Hri), (Hin d ltac:(by right)) as (j & Hj & Hpj & Hrj).
  unfold rank_lt. rewrite <- Hri, <- Hrj. apply rank_le_frac.
  - by eapply gr_valid, Hgood.
  - by eapply gr_valid, Hgood.
  - eapply Hap; [done|done| |congruence]. intros Heq. apply Hcn, list_elem_of_fmap. exists d. by rewrite Heq.
  - unfold rank_le in Hc. by rewrite Hri, Hrj.
Qed.

Lemma ranks_count p db : length (ListProjectRanks p db) = length (project_items p db).
Proof. unfold ListProjectRanks. by rewrite merge_sort_Permutation, length_fmap. Qed.

Lemma ranks_size p db : (length (ListProjectRanks p db) <= size (items db))%nat.
Proof.
  rewrite ranks_count. unfold project_items. rewrite List.filter_length_le. by rewrite length_fmap, length_map_to_list.
Qed.

(** * The neighbours of a place *)

(** [hi] closes the interval above [lo]; empty means nothing above. *)
Definition above (lo hi : string) : Prop := hi = "" \/ (good_rank hi /\ frac_lt lo hi).
Definition beyond (hi r : string) : Prop := hi <> "" /\ (r = hi \/ frac_lt hi r).

Lemma good_ne r : good_rank r -> r <> "".
Proof. intros [Hv (i & _ & Hlt) _] ->. lia. Qed.

Lemma scan_found item after lo ranks lo' hi' :
  StronglySorted rank_lt ranks -> (forall c, c ∈ ranks -> good_rank c.2 /\ frac_lt lo c.2) ->
  scan_ranks item after true lo ranks = Some (lo', hi') ->
  lo' = lo /\ above lo hi' /\ forall c, c ∈ ranks -> c.1 <> item -> beyond hi' c.2.
Proof.
  intros Hs Hc Hscan. revert Hc Hscan. induction Hs as [|[id rank] l Hl IH Hd]; intros Hc Hscan; simpl in Hscan.
  - injection Hscan as <- <-. split; [done|]. split; [by left|]. intros c Hin. by apply elem_of_nil in Hin.
  - case_bool_decide as Hid.
    + destruct IH as (-> & Ha & Hb); [intros c Hin; apply Hc; by right|done|].
      split; [done|]. split; [done|]. intros c Hin. apply elem_of_cons in Hin as [->|Hin]; [done|by apply Hb].
    + injection Hscan as <- <-. destruct (Hc (id, rank) ltac:(by left)) as [Hg Hlt]. split; [done|].
      split; [by right|]. rewrite Forall_forall in Hd. intros c Hin _.
      split; [by apply good_ne|]. apply elem_of_cons in Hin as [->|Hin]; [by left|right; by apply (Hd c)].
Qed.

Lemma scan_not_found item after ranks lo' hi' :
  StronglySorted rank_lt ranks -> (forall c, c ∈ ranks -> good_rank c.2) ->
  scan_ranks item after false "" ranks = Some (lo', hi') ->
  (exists c, c ∈ ranks /\ c.2 = lo') /\ above lo' hi' /\
  forall c, c ∈ ranks -> c.1 <> item -> (c.2 = lo' \/ frac_lt c.2 lo') \/ beyond hi' c.2.
Proof.
  intros Hs Hc Hscan. revert Hc Hscan. induction Hs as [|[id rank] l Hl IH Hd]; intros Hc Hscan; simpl in Hscan; [done|].
  rewrite Forall_forall in Hd. case_bool_decide as Hid; [|case_bool_decide as Haf].
  - destruct IH as ((c & Hin & Hlo) & Ha & Hb); [intros c Hin; apply Hc; by right|done|].
    split; [exists c; split; [by right|done]|]. split; [done|].
    intros d Hdin. apply elem_of_cons in Hdin as [->|Hdin]; [done|by apply Hb].
  - apply scan_found in Hscan as (-> & Ha & Hb); [|done|].
    + split; [exists (id, rank); split; [by left|done]|]. split; [done|].
      intros d Hdin Hne. apply elem_of_cons in Hdin as [->|Hdin]; [by left; left|right; by apply Hb].
    + intros c Hin. split; [apply Hc; by right|by apply (Hd c)].
  - destruct IH as ((c & Hin & Hlo) & Ha & Hb); [intros c Hin; apply Hc; by right|done|].
    split; [exists c; split; [by right|done]|]. split; [done|].
    intros d Hdin Hne. apply elem_of_cons in Hdin as [->|Hdin]; [|by apply Hb].
    left. right. simpl. rewrite <- Hlo. by apply (Hd c).
Qed.

(** What a rank between two neighbours looks like. *)
Record placed (lo hi r : string) : Prop := {
  pl_valid : valid r = true;
  pl_pos : frac_lt "" r;
  pl_lo : frac_lt lo r;
  pl_hi : hi <> "" -> frac_lt r hi;
  pl_length : (String.length r <= S (Nat.max (String.length lo) (String.length hi)))%nat
}.

Definition low_ok (lo : string) : Prop := lo = "" \/ good_rank lo.

Lemma rankBetween_placed lo hi :
  low_ok lo -> above lo hi -> exists r, rankBetween lo hi = Ok r /\ placed lo hi r.
Proof.
  intros Hlo Hhi. assert (Hv : valid lo = true) by (by destruct Hlo as [->|[]]).
  assert (Hpos : forall r, frac_lt lo r -> frac_lt "" r).
  { intros r Hr. destruct Hlo as [->|[_ Hp _]]; [done|]. by eapply frac_lt_trans. }
  unfold rankBetween. destruct Hhi as [->|[Hg Hlt]].
  - destruct (RankBetween_top_ok lo Hv) as (r & -> & Hr & Hf & _ & Hl). exists r. split; [done|].
    split; auto; [done|simpl; lia].
  - destruct (RankBetween_ok lo hi Hv (gr_valid _ Hg) Hlt) as (r & -> & [H1 H2 H3 _ H5] & _). exists r. split; [done|].
    split; auto.
Qed.

(** The new rank is apart from every rank the scan classified. *)
Lemma placed_apart lo hi r c :
  placed lo hi r -> (c = lo \/ frac_lt c lo) \/ beyond hi c -> apart c r.
Proof.
  intros [_ _ Hlo Hhi _] [[->|Hc]|[Hne [->|Hc]]].
  - by left.
  - left. by eapply frac_lt_trans.
  - right. by apply Hhi.
  - right. eapply frac_lt_trans; [by apply Hhi|done].
Qed.

(** * Respreading a project *)

Lemma assoc_rank_lookup r old new r' :
  assoc_rank r (zip old new) = Some r' -> exists k, old !! k = Some r /\ new !! k = Some r'.
Proof.
  unfold assoc_rank. revert new; induction old as [|o old IH]; intros [|n new]; simpl; try done.
  destruct (String.eqb_spec o r) as [->|]; simpl.
  - intros [= <-]. by exists 0%nat.
  - intros Hf. destruct (IH _ Hf) as (k & ? & ?). by exists (S k).
Qed.

Lemma assoc_rank_some r old new :
  length old = length new -> r ∈ old -> is_Some (assoc_rank r (zip old new)).
Proof.
  unfold assoc_rank. revert new; induction old as [|o old IH]; intros [|n new] Hl Hr; simpl in *; try done.
  - by apply elem_of_nil in Hr.
  - destruct (String.eqb_spec o r) as [->|Hne]; simpl; [eauto|].
    apply elem_of_cons in Hr as [->|Hr]; [done|]. apply IH; [lia|done].
Qed.

(** All ranks of a project are short. *)
Definition short (p : uuid) (m : gmap uuid Item) : Prop :=
  forall id i, m !! id = Some i -> i_project i = p -> (String.length (i_rank i) <= 12)%nat.

Lemma reranked_project p old new i : i_project (reranked p old new i) = i_project i.
Proof. unfold reranked. case_bool_decide; [|done]. by destruct (assoc_rank _ _). Qed.

Lemma reranked_ranks p old new db n :
  ranks_ok (items db) -> ranks_guard p old new db -> 0 < n <= max_sequence -> Rank.RankSequence n = Some new ->
  ranks_ok (reranked p old new <$> items db) /\ short p (reranked p old new <$> items db).
Proof.
  intros [Hgood Hap] [G1 G2 G3 G4 _ G6] Hn Hseq.
  destruct (RankSequence_ok n Hn) as (l & w & Hl & _ & Hw & Hall & Hord). rewrite Hseq in Hl. injection Hl as <-.
  assert (Hin : forall id i, items db !! id = Some i -> i_project i = p ->
            exists k r, old !! k = Some (i_rank i) /\ new !! k = Some r /\ i_rank (reranked p old new i) = r).
  { intros id i Hi Hp. unfold reranked. rewrite bool_decide_true by done.
    destruct (assoc_rank_some (i_rank i) old new G1) as [r Hr].
    { apply G6, elem_project_items. eauto. }
    rewrite Hr. apply assoc_rank_lookup in Hr as (k & H1 & H2). eauto. }
  assert (Hout : forall i, i_project i <> p -> reranked p old new i = i).
  { intros i Hp. unfold reranked. by rewrite bool_decide_false. }
  split; [split|].
  - intros id i' Hi'. rewrite lookup_fmap in Hi'. apply fmap_Some in Hi' as (i & Hi & ->).
    destruct (decide (i_project i = p)) as [Hp|Hp]; [|rewrite Hout by done; by eapply Hgood].
    destruct (Hin _ _ Hi Hp) as (k & r & _ & Hk & ->). destruct (Hall r) as (H1 & H2 & H3); [by eapply list_elem_of_lookup_2|].
    split; [done|done|lia].
  - intros id1 id2 i1' i2' H1 H2 Hne Hproj. rewrite lookup_fmap in H1, H2.
    apply fmap_Some in H1 as (i1 & H1 & ->), H2 as (i2 & H2 & ->). rewrite !reranked_project in Hproj.
    pose proof (Hap _ _ _ _ H1 H2 Hne Hproj) as Hapart.
    destruct (decide (i_project i1 = p)) as [Hp|Hp]; [|rewrite !Hout by congruence; done].
    destruct (Hin _ _ H1 Hp) as (k1 & r1 & Ho1 & Hk1 & ->).
    destruct (Hin _ _ H2 ltac:(congruence)) as (k2 & r2 & Ho2 & Hk2 & ->).
    assert (Hk : k1 <> k2) by (intros ->; apply (apart_ne _ _ Hapart); congruence).
    destruct (decide (k1 < k2)%nat); [left|right]; eapply Hord; eauto; lia.
  - intros id i' Hi' Hp. rewrite lookup_fmap in Hi'. apply fmap_Some in Hi' as (i & Hi & ->).
    rewrite reranked_project in Hp. destruct (Hin _ _ Hi Hp) as (k & r & _ & Hk & ->).
    destruct (Hall r) as (_ & -> & _); [by eapply list_elem_of_lookup_2|]. lia.
Qed.

(** Rank errors that would mean a call does not return, panics, or gives up. *)
Definition rank_failure (e : store_err) : Prop := e = RankDiverges \/ e = RankPanics \/ e = ErrRankOrder.

Definition no_rank_failure {A} (r : result store_err A) : Prop := forall e, r = Err e -> ~ rank_failure e.

Lemma ok_no_failure {A} (a : A) : no_rank_failure (Ok a).
Proof. intros e. done. Qed.
Lemma sql_no_failure {A} (r : result dberr A) : no_rank_failure (sql r).
Proof. intros e. destruct r; simpl; [done|]. intros [= <-] [H|[H|H]]; discriminate H. Qed.
#[local] Hint Resolve ok_no_failure sql_no_failure : sierx.

Lemma rebalance_ok p db :
  keyed (items db) -> ranks_ok (items db) -> Z.of_nat (size (items db)) <= max_sequence ->
  no_rank_failure (rebalanceProjectRanks p (ListProjectRanks p db) db) /\
  forall db', rebalanceProjectRanks p (ListProjectRanks p db) db = Ok db' ->
    ranks_ok (items db') /\ short p (items db').
Proof.
  intros Hk Hok Hsize. unfold rebalanceProjectRanks.
  destruct (ListProjectRanks p db) as [|c l] eqn:El.
  - split; [auto with sierx|]. intros db' [= <-]. split; [done|]. intros id i Hi Hp. exfalso.
    assert (Hin : (id, i_rank i) ∈ ListProjectRanks p db) by (apply elem_ranks; eauto).
    rewrite El in Hin. by apply elem_of_nil in Hin.
  - rewrite <- El. pose proof (ranks_size p db) as Hs.
    assert (Hn : 0 < Z.of_nat (length (ListProjectRanks p db)) <= max_sequence) by (rewrite El in *; simpl in *; lia).
    destruct (RankSequence_ok _ Hn) as (new & w & Hnew & _). rewrite Hnew.
    split; [auto with sierx|]. intros db' Hdb. apply sql_inv, SetProjectRanks_inv in Hdb as [Hg ->]; [|done].
    simpl. by eapply reranked_ranks.
Qed.

(** * Generating a rank *)

Lemma last_rank_spec l :
  StronglySorted rank_lt l -> (forall c, c ∈ l -> good_rank c.2) ->
  (last_rank l = "" \/ exists c, c ∈ l /\ c.2 = last_rank l) /\
  forall c, c ∈ l -> c.2 = last_rank l \/ frac_lt c.2 (last_rank l).
Proof.
  intros Hs Hg. unfold last_rank. induction Hs as [|c l Hl IH Hc]; simpl; [by split; [left|intros c Hc; apply elem_of_nil in Hc]|].
  destruct IH as [H1 H2]; [intros d Hd; apply Hg; by right|]. rewrite Forall_forall in Hc.
  destruct l as [|d l]; [split; [right; exists c; split; [by left|done]|]|].
  - intros e He. apply elem_of_cons in He as [->|He]; [by left|by apply elem_of_nil in He].
  - change (last (c :: d :: l)) with (last (d :: l)).
    destruct H1 as [H1|(e & He & Hr)].
    + exfalso. destruct (last_is_Some (d :: l)) as [_ [z Hz]]; [done|].
      destruct (last (d :: l)) as [z'|] eqn:El; [|done].
      apply last_Some_elem_of in El. apply (good_ne z'.2); [apply Hg; by right|done].
    + split; [right; exists e; split; [by right|done]|].
      intros f Hf. apply elem_of_cons in Hf as [->|Hf]; [|by apply H2]. right. rewrite <- Hr. by apply Hc.
Qed.

Lemma list_good p db c :
  keyed (items db) -> ranks_ok (items db) -> c ∈ ListProjectRanks p db -> good_rank c.2.
Proof. intros Hk [Hg _] Hc. apply elem_ranks in Hc as (i & Hi & _ & <-); [|done]. by eapply Hg. Qed.

(** The rank after the last one. *)
Lemma append_rank p db :
  keyed (items db) -> ranks_ok (items db) ->
  exists r, rankBetween (last_rank (ListProjectRanks p db)) "" = Ok r /\ valid r = true /\ frac_lt "" r /\
    (forall id i, items db !! id = Some i -> i_project i = p -> apart (i_rank i) r) /\
    (short p (items db) -> (String.length r <= 13)%nat).
Proof.
  intros Hk Hok.
  destruct (last_rank_spec (ListProjectRanks p db)) as [Hlast Hle];
    [by apply ranks_sorted|intros c; by apply list_good|].
  assert (Hlow : low_ok (last_rank (ListProjectRanks p db))).
  { destruct Hlast as [->|(c & Hc & <-)]; [by left|right; by eapply list_good]. }
  destruct (rankBetween_placed _ "" Hlow ltac:(by left)) as (r & Hr & Hpl). exists r. split; [done|].
  split; [apply Hpl|]. split; [apply Hpl|]. split.
  - intros id i Hi Hp. eapply placed_apart; [exact Hpl|]. left.
    apply (Hle (id, i_rank i)). apply elem_ranks; eauto.
  - intros Hsh. pose proof (pl_length _ _ _ Hpl) as Hlen. simpl in Hlen.
    destruct Hlast as [Hl|(c & Hc & Hcr)]; [rewrite Hl in Hlen; simpl in Hlen; lia|]. rewrite <- Hcr in Hlen.
    apply elem_ranks in Hc as (i & Hi & Hp & Hri); [|done]. specialize (Hsh _ _ Hi Hp). rewrite Hri in Hsh. lia.
Qed.

Lemma needs_rebalance_false r : Rank.RankNeedsRebalance r = false <-> (String.length r <= 40)%nat.
Proof. unfold Rank.RankNeedsRebalance, Rank.RankRebalanceThreshold. rewrite Z.ltb_ge. lia. Qed.

Lemma rank_change_keyed db db' : rank_change db db' -> keyed (items db) -> keyed (items db').
Proof.
  intros [_ Hr] Hk k i Hi. specialize (Hr k). rewrite Hi in Hr. destruct (items db !! k) as [j|] eqn:Hj; [|done].
  destruct Hr as (r & v & _ & ->). by apply (Hk k j).
Qed.

Lemma rank_change_size db db' : rank_change db db' -> size (items db') = size (items db).
Proof.
  intros [_ Hr]. rewrite <- !size_dom. f_equal. apply set_eq. intros k. rewrite !elem_of_dom. specialize (Hr k).
  destruct (items db !! k), (items db' !! k); try done; split; intros [? ?]; eauto; done.
Qed.

Lemma rankForNewItem_ok p db :
  keyed (items db) -> ranks_ok (items db) -> Z.of_nat (size (items db)) <= max_sequence ->
  no_rank_failure (rankForNewItem p db) /\
  forall r db', rankForNewItem p db = Ok (r, db') ->
    ranks_ok (items db') /\ good_rank r /\
    forall id i, items db' !! id = Some i -> i_project i = p -> apart (i_rank i) r.
Proof.
  intros Hk Hok Hsize. unfold rankForNewItem.
  destruct (append_rank p db Hk Hok) as (r & -> & Hv & Hpos & Hap & _).
  destruct (Rank.RankNeedsRebalance r) eqn:Hn.
  - destruct (rebalance_ok p db Hk Hok Hsize) as [Hnf Hreb].
    destruct (rebalanceProjectRanks _ _ _) as [db1|e] eqn:E.
    + destruct (Hreb _ eq_refl) as [Hok1 Hsh]. pose proof (rebalance_rank_change _ _ _ _ Hk E) as Hrc.
      destruct (append_rank p db1 (rank_change_keyed _ _ Hrc Hk) Hok1) as (r1 & -> & Hv1 & Hpos1 & Hap1 & Hlen).
      split; [auto with sierx|]. intros r' db' [= <- <-]. split; [done|]. split; [|done]. split; [done|done|].
      specialize (Hlen Hsh). lia.
    + split; [intros e' [= <-]; by apply Hnf|done].
  - split; [auto with sierx|]. intros r' db' [= <- <-]. split; [done|]. split; [|done]. split; [done|done|].
    by apply needs_rebalance_false.
Qed.

(** The upper neighbour is one of the listed ranks, or open. *)
Lemma scan_upper item after found lo ranks lo' hi' :
  scan_ranks item after found lo ranks = Some (lo', hi') -> hi' = "" \/ exists c, c ∈ ranks /\ c.2 = hi'.
Proof.
  revert found lo; induction ranks as [|[id rank] l IH]; intros found lo Hscan; simpl in Hscan.
  - destruct found; [injection Hscan as _ <-; by left|done].
  - assert (Hrec : forall f lo, scan_ranks item after f lo l = Some (lo', hi') ->
              hi' = "" \/ exists c, c ∈ (id, rank) :: l /\ c.2 = hi').
    { intros f lo1 H1. destruct (IH _ _ H1) as [|(c & ? & ?)]; [by left|right; exists c; split; [by right|done]]. }
    case_bool_decide; [by eapply Hrec|]. destruct found.
    + injection Hscan as _ <-. right. exists (id, rank). split; [by left|done].
    + case_bool_decide; by eapply Hrec.
Qed.

(** One attempt of a ranked move. *)
Lemma attempt_rank item after db lo hi :
  keyed (items db) -> ranks_ok (items db) ->
  scan_ranks (i_id item) after (match after with None => true | Some _ => false end) ""
    (ListProjectRanks (i_project item) db) = Some (lo, hi) ->
  exists r, rankBetween lo hi = Ok r /\ valid r = true /\ frac_lt "" r /\
    (forall id i, items db !! id = Some i -> i_project i = i_project item -> id <> i_id item -> apart (i_rank i) r) /\
    (short (i_project item) (items db) -> (String.length r <= 13)%nat).
Proof.
  intros Hk Hok Hscan. set (l := ListProjectRanks (i_project item) db) in *.
  assert (Hs : StronglySorted rank_lt l) by (by apply ranks_sorted).
  assert (Hg : forall c, c ∈ l -> good_rank c.2) by (intros c; by apply list_good).
  assert (Hcase : low_ok lo /\ (lo = "" \/ exists c, c ∈ l /\ c.2 = lo) /\ above lo hi /\
            forall c, c ∈ l -> c.1 <> i_id item -> (c.2 = lo \/ frac_lt c.2 lo) \/ beyond hi c.2).
  { destruct after as [a|].
    - apply scan_not_found in Hscan as ((c & Hc & Hlo) & Ha & Hb); [|done..].
      split; [right; rewrite <- Hlo; by apply Hg|]. split; [right; by exists c|]. done.
    - apply scan_found in Hscan as (-> & Ha & Hb); [|done|intros c Hc; split; [by apply Hg|apply Hg, Hc]].
      split; [by left|]. split; [by left|]. split; [done|]. intros c Hc Hne. right. by apply Hb. }
  destruct Hcase as (Hlow & Hlo & Ha & Hb).
  assert (Hhi : hi = "" \/ exists c, c ∈ l /\ c.2 = hi).
  { by eapply scan_upper. }
  destruct (rankBetween_placed lo hi Hlow Ha) as (r & Hr & Hpl). exists r. split; [done|].
  split; [apply Hpl|]. split; [apply Hpl|]. split.
  - intros id i Hi Hp Hne. eapply placed_apart; [exact Hpl|].
    apply (Hb (id, i_rank i)); [apply elem_ranks; eauto|done].
  - intros Hsh. pose proof (pl_length _ _ _ Hpl) as Hlen.
    assert (Hshort : forall x, x = "" \/ (exists c, c ∈ l /\ c.2 = x) -> (String.length x <= 12)%nat).
    { intros x [->|(c & Hc & <-)]; [simpl; lia|]. apply elem_ranks in Hc as (i & Hi & Hp & <-); [|done]. by eapply Hsh. }
    specialize (Hshort lo Hlo) as H1. specialize (Hshort hi Hhi) as H2. lia.
Qed.

(** The new rank of one row keeps the invariant. *)
Lemma set_rank_ok (m : gmap uuid Item) id i i' :
  ranks_ok m -> m !! id = Some i -> good_rank (i_rank i') -> i_project i' = i_project i ->
  (forall id2 j, m !! id2 = Some j -> i_project j = i_project i -> id2 <> id -> apart (i_rank j) (i_rank i')) ->
  ranks_ok (<[id := i']> m).
Proof.
  intros [Hg Hap] Hi Hgr Hp Hnew. split.
  - intros k j Hj. apply lookup_insert_Some in Hj as [[_ <-]|[_ Hj]]; [done|by eapply Hg].
  - intros k1 k2 j1 j2 H1 H2 Hne Hproj.
    apply lookup_insert_Some in H1 as [[<- <-]|[Hn1 H1]], H2 as [[<- <-]|[Hn2 H2]].
    + done.
    + apply apart_sym, (Hnew k2); [done|congruence|done].
    + apply (Hnew k1); [done|congruence|done].
    + by eapply Hap.
Qed.

(** The row an attempt writes. *)
Lemma SetItemRank_ok item r db db' :
  ranks_ok (items db) -> good_rank r ->
  (forall i, items db !! i_id item = Some i -> i_project i = i_project item) ->
  (forall id i, items db !! id = Some i -> i_project i = i_project item -> id <> i_id item -> apart (i_rank i) r) ->
  SetItemRank (i_id item) r db = Ok db' -> ranks_ok (items db').
Proof.
  intros Hok Hg Hproj Hap Hset. apply SetItemRank_inv in Hset as [[_ ->]|(i & Hi & _ & ->)]; [done|]. simpl.
  eapply set_rank_ok; [done|exact Hi|done|done|]. simpl. rewrite (Hproj _ Hi). done.
Qed.

Lemma reparent_rank_ok item after db :
  keyed (items db) -> ranks_ok (items db) -> Z.of_nat (size (items db)) <= max_sequence ->
  (forall i, items db !! i_id item = Some i -> i_project i = i_project item) ->
  no_rank_failure (reparent_rank 2 item after db) /\
  forall db', reparent_rank 2 item after db = Ok db' -> ranks_ok (items db').
Proof.
  intros Hk Hok Hsize Hproj.
  assert (Hdone : forall db, ranks_ok (items db) ->
    (forall i, items db !! i_id item = Some i -> i_project i = i_project item) -> forall r,
    valid r = true -> frac_lt "" r -> (String.length r <= 40)%nat ->
    (forall id i, items db !! id = Some i -> i_project i = i_project item -> id <> i_id item -> apart (i_rank i) r) ->
    no_rank_failure (sql (SetItemRank (i_id item) r db)) /\
    forall db', sql (SetItemRank (i_id item) r db) = Ok db' -> ranks_ok (items db')).
  { intros dbx H1 H2 r Hv Hpos Hl Hap. split; [auto with sierx|]. intros db' Hs%sql_inv.
    eapply SetItemRank_ok; [exact H1| |exact H2|exact Hap|exact Hs]. done. }
  assert (Hnf : forall A, no_rank_failure (Err (A := A) ErrInvalidMove)).
  { intros A e [= <-] [H|[H|H]]; discriminate H. }
  cbn [reparent_rank]. destruct (scan_ranks _ _ _ _ _) as [[lo hi]|] eqn:Es; [|split; [apply Hnf|done]].
  destruct (attempt_rank item after db lo hi Hk Hok Es) as (r & -> & Hv & Hpos & Hap & _).
  destruct (Rank.RankNeedsRebalance r) eqn:Hn; [|apply (Hdone db); try done; by apply needs_rebalance_false].
  destruct (rebalance_ok (i_project item) db Hk Hok Hsize) as [Hrf Hreb].
  destruct (rebalanceProjectRanks _ _ _) as [db1|e] eqn:E; [|split; [intros e' [= <-]; by apply Hrf|done]].
  destruct (Hreb _ eq_refl) as [Hok1 Hsh]. pose proof (rebalance_rank_change _ _ _ _ Hk E) as Hrc.
  pose proof (rank_change_keyed _ _ Hrc Hk) as Hk1.
  assert (Hproj1 : forall i, items db1 !! i_id item = Some i -> i_project i = i_project item).
  { intros i Hi. destruct Hrc as [_ Hrc]. specialize (Hrc (i_id item)). rewrite Hi in Hrc.
    destruct (items db !! i_id item) as [j|] eqn:Hj; [|done]. destruct Hrc as (? & ? & _ & ->). exact (Hproj _ eq_refl). }
  destruct (scan_ranks _ _ _ _ (ListProjectRanks _ db1)) as [[lo1 hi1]|] eqn:Es1; [|split; [apply Hnf|done]].
  destruct (attempt_rank item after db1 lo1 hi1 Hk1 Hok1 Es1) as (r1 & -> & Hv1 & Hpos1 & Hap1 & Hlen).
  specialize (Hlen Hsh). rewrite (proj2 (needs_rebalance_false r1)) by lia.
  apply (Hdone db1); try done. lia.
Qed.

(** Identifiers paired with increasing ranks are sorted by them. *)
Lemma zip_ranks_sorted (new : list string) (ids : list uuid) :
  (forall i j a b, new !! i = Some a -> new !! j = Some b -> (i < j)%nat -> frac_lt a b /\ str_lt a b = true) ->
  StronglySorted rank_lt (zip ids new).
Proof.
  revert ids. induction new as [|r new IH]; intros [|id ids] Hord; simpl; try constructor.
  - apply IH. intros i j a b Hi Hj Hij. by apply (Hord (S i) (S j) a b Hi Hj); lia.
  - apply Forall_forall. intros [id2 r2] Hin. apply list_elem_of_lookup in Hin as [k Hin].
    apply lookup_zip_Some in Hin as [_ Hin]. by apply (Hord 0%nat (S k) r r2); [|done|lia].
Qed.

(** The item at a position gets the new rank at that position. *)
Lemma reranked_at p new db k id r :
  keyed (items db) ->
  let l := ListProjectRanks p db in
  ranks_guard p l.*2 new db -> l.*1 !! k = Some id -> new !! k = Some r ->
  exists i, items db !! id = Some i /\ i_project i = p /\ i_rank (reranked p l.*2 new i) = r.
Proof.
  intros Hk l Hg Hid Hr. rewrite list_lookup_fmap in Hid. apply fmap_Some in Hid as ([id' o] & Hkl & ->). simpl.
  destruct (proj1 (elem_ranks p db (id', o) Hk)) as (i & Hi & Hp & Ho); [by eapply list_elem_of_lookup_2|].
  exists i. simpl in *. split; [done|]. split; [done|]. unfold reranked. rewrite bool_decide_true by done.
  destruct (assoc_rank_some (i_rank i) l.*2 new (rg_len _ _ _ _ Hg)) as [r' Hr'].
  { apply (rg_complete _ _ _ _ Hg), elem_project_items. eauto. }
  rewrite Hr'. simpl. apply assoc_rank_lookup in Hr' as (k' & Hold & Hnew').
  assert (k' = k) as ->; [|congruence]. eapply NoDup_lookup; [exact (rg_old _ _ _ _ Hg)|exact Hold|].
  rewrite list_lookup_fmap, Hkl. simpl. by rewrite Ho.
Qed.

(** A respread keeps the order of the items. *)
Lemma reranked_order p new db :
  keyed (items db) -> ranks_ok (items db) ->
  let l := ListProjectRanks p db in
  ranks_guard p l.*2 new db -> 0 < Z.of_nat (length l) <= max_sequence ->
  Rank.RankSequence (Z.of_nat (length l)) = Some new ->
  (ListProjectRanks p (set_items (reranked p l.*2 new <$> items db) db)).*1 = l.*1.
Proof.
  intros Hk Hok l Hg Hn Hseq. destruct (reranked_ranks p l.*2 new db _ Hok Hg Hn Hseq) as [Hok' _].
  destruct (RankSequence_ok _ Hn) as (new' & w & Hnew & Hlen & _ & _ & Hord). rewrite Hseq in Hnew. injection Hnew as <-.
  set (db' := set_items _ db).
  assert (Hk' : keyed (items db')).
  { intros k i' Hi'. simpl in Hi'. rewrite lookup_fmap in Hi'. apply fmap_Some in Hi' as (i & Hi & ->).
    unfold reranked. case_bool_decide; [destruct (assoc_rank _ _)|]; exact (Hk _ _ Hi). }
  assert (Hlen2 : length l.*1 = length new) by (rewrite length_fmap, Hlen; lia).
  rewrite <- (fst_zip l.*1 new) at 1 by lia. f_equal.
  pose proof (ranks_nodup p db Hk) as Hnd1. fold l in Hnd1.
  pose proof (fun k id r => reranked_at p new db k id r Hk Hg) as Hat. cbv zeta in Hat. fold l in Hat.
  eapply StronglySorted_unique_strong; [|apply (ranks_sorted p db' Hk' Hok')| |].
  - intros a b _ _ H1 H2. exfalso. eapply frac_lt_irrefl, frac_lt_trans; [exact H1|exact H2].
  - by apply zip_ranks_sorted.
  - apply NoDup_Permutation.
    + eapply NoDup_fmap_1. by apply ranks_nodup.
    + eapply (NoDup_fmap_1 fst). by rewrite fst_zip by lia.
    + intros [id r]. rewrite elem_ranks by done. simpl. split.
      * intros (i' & Hi' & Hp & Hr). rewrite lookup_fmap in Hi'. apply fmap_Some in Hi' as (i & Hi & ->).
        rewrite reranked_project in Hp.
        assert (Hin : (id, i_rank i) ∈ l) by (apply elem_ranks; eauto).
        apply list_elem_of_lookup in Hin as [k Hkl].
        destruct (lookup_lt_is_Some_2 new k) as [r' Hr'].
        { rewrite <- Hlen2, length_fmap. by eapply lookup_lt_Some. }
        assert (Hid : l.*1 !! k = Some id) by (rewrite list_lookup_fmap, Hkl; done).
        destruct (Hat k id r' Hid Hr') as (i2 & Hi2 & _ & Hr2). rewrite Hi in Hi2. injection Hi2 as <-.
        rewrite Hr in Hr2. subst r'. apply list_elem_of_lookup. exists k. apply lookup_zip_Some. done.
      * intros Hin. apply list_elem_of_lookup in Hin as [k Hin]. apply lookup_zip_Some in Hin as [Hid Hr].
        destruct (Hat k id r Hid Hr) as (i & Hi & Hp & Hri). exists (reranked p l.*2 new i).
        rewrite lookup_fmap, Hi, reranked_project. done.
Qed.

Lemma rebalance_order p db db' :
  keyed (items db) -> ranks_ok (items db) -> Z.of_nat (size (items db)) <= max_sequence ->
  rebalanceProjectRanks p (ListProjectRanks p db) db = Ok db' ->
  (ListProjectRanks p db').*1 = (ListProjectRanks p db).*1.
Proof.
  intros Hk Hok Hsize. unfold rebalanceProjectRanks.
  destruct (ListProjectRanks p db) as [|c l] eqn:El; [intros [= <-]; by rewrite El|]. rewrite <- El.
  pose proof (ranks_size p db) as Hs.
  assert (Hn : 0 < Z.of_nat (length (ListProjectRanks p db)) <= max_sequence) by (rewrite El in *; simpl in *; lia).
  destruct (RankSequence_ok _ Hn) as (new & w & Hnew & _). rewrite Hnew. intros Hdb.
  apply sql_inv, SetProjectRanks_inv in Hdb as [Hg ->]; [|done]. by apply reranked_order.
Qed.

(** * Row changes *)

Lemma ranks_ok_ext (g : Item -> Item) (m : gmap uuid Item) :
  (forall i, i_rank (g i) = i_rank i /\ i_project (g i) = i_project i) -> ranks_ok m -> ranks_ok (g <$> m).
Proof.
  intros Hg [H1 H2]. split.
  - intros id i' Hi. rewrite lookup_fmap in Hi. apply fmap_Some in Hi as (i & Hi & ->).
    rewrite (proj1 (Hg i)). by eapply H1.
  - intros id1 id2 i1' i2' Hi1 Hi2 Hne Hp. rewrite lookup_fmap in Hi1, Hi2.
    apply fmap_Some in Hi1 as (i1 & Hi1 & ->), Hi2 as (i2 & Hi2 & ->).
    rewrite (proj2 (Hg i1)), (proj2 (Hg i2)) in Hp. rewrite (proj1 (Hg i1)), (proj1 (Hg i2)). by eapply H2.
Qed.

Lemma ranks_ok_same (m : gmap uuid Item) id i i' :
  ranks_ok m -> m !! id = Some i -> i_rank i' = i_rank i -> i_project i' = i_project i -> ranks_ok (<[id := i']> m).
Proof.
  intros Hok Hi Hr Hp. eapply set_rank_ok; [done|exact Hi|rewrite Hr; by eapply Hok|done|].
  intros id2 j Hj Hpj Hne. rewrite Hr. eapply Hok; eauto.
Qed.

Lemma ranks_ok_insert (m : gmap uuid Item) id i :
  ranks_ok m -> m !! id = None -> good_rank (i_rank i) ->
  (forall id2 j, m !! id2 = Some j -> i_project j = i_project i -> apart (i_rank j) (i_rank i)) ->
  ranks_ok (<[id := i]> m).
Proof.
  intros [Hg Hap] Hn Hgr Hnew. split.
  - intros k j Hj. apply lookup_insert_Some in Hj as [[_ <-]|[_ Hj]]; [done|by eapply Hg].
  - intros k1 k2 j1 j2 H1 H2 Hne Hp.
    apply lookup_insert_Some in H1 as [[<- <-]|[_ H1]], H2 as [[<- <-]|[_ H2]].
    + done.
    + apply apart_sym. by eapply Hnew.
    + by eapply Hnew.
    + by eapply Hap.
Qed.

Lemma ranks_ok_delete (m : gmap uuid Item) id : ranks_ok m -> ranks_ok (delete id m).
Proof.
  intros [Hg Hap]. split.
  - intros k i Hi. apply lookup_delete_Some in Hi as [_ Hi]. by eapply Hg.
  - intros k1 k2 i1 i2 H1 H2. apply lookup_delete_Some in H1 as [_ H1], H2 as [_ H2]. by eapply Hap.
Qed.

(** Callers leave ranks to the store. *)
Definition rank_free_change (c : change) : Prop :=
  match ch_kind c with
  | changeInsert i => in_rank i = ""
  | changeUpdate u => up_Rank u = None
  | _ => True
  end.

Lemma applyInsert_ranks ws inp seq db :
  keyed (items db) -> ranks_ok (items db) -> Z.of_nat (size (items db)) <= max_sequence -> in_rank inp = "" ->
  no_rank_failure (applyInsert ws inp seq db) /\
  forall path db', applyInsert ws inp seq db = Ok (path, db') ->
    ranks_ok (items db') /\ size (items db') = S (size (items db)).
Proof.
  intros Hk Hok Hsize Hr. split.
  - unfold applyInsert. destruct (sql (NextItemKey _ _)) as [[key dbk]|e] eqn:Ek; [|intros e' [= <-]; by eapply sql_no_failure].
    apply sql_inv, NextItemKey_inv in Ek as [ps ->].
    destruct (match in_ParentID inp with None => _ | Some _ => _ end) as [p|e] eqn:Ep.
    + rewrite Hr. simpl.
      destruct (rankForNewItem_ok (in_ProjectID inp) (set_projects ps db) Hk Hok Hsize) as [Hnf _].
      destruct (rankForNewItem _ _) as [[rank db1]|e]; [|intros e' [= <-]; by apply Hnf].
      destruct (sql (InsertItem _ _)) as [db2|e] eqn:Ei; [auto with sierx|]. intros e' [= <-].
      by eapply (sql_no_failure (InsertItem _ _)).
    + intros e' [= <-]. destruct (in_ParentID inp) as [pid|]; [|done].
      destruct (sql (GetItem _ _)) as [q|e2] eqn:Eg.
      * case_bool_decide; [done|]. injection Ep as <-. intros [Hf|[Hf|Hf]]; discriminate Hf.
      * injection Ep as <-. by eapply sql_no_failure.
  - intros path db' Ha. apply applyInsert_inv in Ha as (row & db1 & Hdb & (ps & dbk & -> & Hrc & Hrank) & Hins & _ & Hid & _ & Hproj & _);
      [|done]. rewrite Hr in Hrank. simpl in Hrank.
    destruct (rankForNewItem_ok (in_ProjectID inp) (set_projects ps db) Hk Hok Hsize) as [_ Hrk].
    destruct (Hrk _ _ Hrank) as (Hok1 & Hg & Hap). apply InsertItem_inv in Hins as (Hn & _). rewrite Hid in Hn.
    rewrite Hdb. simpl. split.
    + apply ranks_ok_insert; [done|done|done|]. intros id2 j Hj Hp. eapply Hap; [exact Hj|congruence].
    + rewrite map_size_insert_None by done. f_equal. apply (rank_change_size _ _ Hrc).
Qed.

Lemma applyReparent_ranks r seq db :
  tree_ok (tree db) -> ranks_ok (items db) -> Z.of_nat (size (items db)) <= max_sequence ->
  no_rank_failure (applyReparent r seq db) /\
  forall paths db', applyReparent r seq db = Ok (paths, db') ->
    ranks_ok (items db') /\ size (items db') = size (items db).
Proof.
  intros Ht Hok Hsize. pose proof (tree_ok_keyed _ Ht) as Hk.
  assert (Hmv : forall id x npp rows db1, items db !! id = Some x ->
     ReparentSubtree id (rp_NewParentID r) npp (i_path x) seq db = Ok (rows, db1) ->
     keyed (items db1) /\ ranks_ok (items db1) /\ size (items db1) = size (items db) /\
     forall i, items db1 !! i_id x = Some i -> i_project i = i_project x).
  { intros id x npp rows db1 Hx Hr. apply ReparentSubtree_inv in Hr as (-> & _); [|done]. simpl.
    assert (Hview : forall i, i_rank (moved id (rp_NewParentID r) npp (i_path x) seq i) = i_rank i /\
                      i_project (moved id (rp_NewParentID r) npp (i_path x) seq i) = i_project i /\
                      i_id (moved id (rp_NewParentID r) npp (i_path x) seq i) = i_id i).
    { intros i. unfold moved. by destruct (contained _ _). }
    split; [|split; [|split]].
    - intros k i' Hi'. rewrite lookup_fmap in Hi'. apply fmap_Some in Hi' as (i & Hi & ->).
      destruct (Hview i) as (_ & _ & ->). by apply Hk.
    - apply ranks_ok_ext; [|done]. intros i. split; apply Hview.
    - apply map_size_fmap.
    - intros i' Hi'. rewrite (Hk _ _ Hx), lookup_fmap, Hx in Hi'. injection Hi' as <-. apply Hview. }
  unfold applyReparent. destruct (sql (GetItem (rp_ID r) db)) as [x|e] eqn:Ex; [|split; [intros e' [= <-]; by eapply sql_no_failure|done]].
  apply sql_inv in Ex. unfold GetItem in Ex. destruct (items db !! rp_ID r) as [x'|] eqn:Hx; [|done]. injection Ex as ->.
  destruct (match rp_NewParentID r with None => _ | Some _ => _ end) as [npp|e] eqn:Ep.
  2:{ split; [|done]. intros e' [= <-]. destruct (rp_NewParentID r) as [p|]; [|done].
      destruct (sql (GetItem p db)) as [q|e2] eqn:Eq; [|injection Ep as <-; by eapply sql_no_failure].
      destruct (_ || _); [injection Ep as <-; intros [Hf|[Hf|Hf]]; discriminate Hf|].
      destruct (isDescendantOrSelf _ _); [injection Ep as <-; intros [Hf|[Hf|Hf]]; discriminate Hf|done]. }
  destruct (subtree_height _ _); [|split; [intros e' [= <-] [Hf|[Hf|Hf]]; discriminate Hf|done]].
  destruct (_ <? _)%nat; [split; [intros e' [= <-] [Hf|[Hf|Hf]]; discriminate Hf|done]|].
  destruct (sql (ReparentSubtree _ _ _ _ _ _)) as [[rows db1]|e] eqn:Er; [|split; [intros e' [= <-]; by eapply sql_no_failure|done]].
  apply sql_inv in Er. destruct (Hmv _ _ _ _ _ Hx Er) as (Hk1 & Hok1 & Hs1 & Hp1).
  destruct (rp_SetRank r); [|split; [auto with sierx|intros paths db' [= _ <-]; done]].
  destruct (reparent_rank_ok x (rp_RankAfter r) db1 Hk1 Hok1 ltac:(lia) Hp1) as [Hnf Hres].
  destruct (reparent_rank 2 x (rp_RankAfter r) db1) as [db2|e] eqn:E2; [|split; [intros e' [= <-]; by apply Hnf|done]].
  split; [auto with sierx|]. intros paths db' [= _ <-]. split; [by apply Hres|].
  rewrite <- Hs1. eapply rank_change_size, reparent_rank_change; [exact Hk1|exact E2].
Qed.

Lemma apply_change_ranks m seqs s c :
  tree_ok (tree (pr_db s)) -> ranks_ok (items (pr_db s)) -> Z.of_nat (size (items (pr_db s))) <= max_sequence ->
  rank_free_change c ->
  no_rank_failure (apply_change m seqs s c) /\
  forall s', apply_change m seqs s c = Ok s' ->
    ranks_ok (items (pr_db s')) /\ (size (items (pr_db s')) <= S (size (items (pr_db s))))%nat.
Proof.
  intros Ht Hok Hsize Hrf. pose proof (tree_ok_keyed _ Ht) as Hk. set (seq := coalesce (seqs !! ch_item c) 0).
  assert (Hkind : no_rank_failure (apply_kind m c seq s) /\ forall s1, apply_kind m c seq s = Ok s1 ->
     ranks_ok (items (pr_db s1)) /\ (size (items (pr_db s1)) <= S (size (items (pr_db s))))%nat).
  { unfold apply_kind, rank_free_change in *. destruct (ch_kind c).
    - destruct (applyInsert_ranks (m_workspace m) i seq (pr_db s) Hk Hok Hsize Hrf) as [Hnf Hres].
      destruct (applyInsert _ _ _ _) as [[path db]|e]; [|split; [intros e' [= <-]; by apply Hnf|done]].
      split; [auto with sierx|]. intros s1 [= <-]. destruct (Hres _ _ eq_refl) as [H1 H2]. simpl. split; [done|lia].
    - destruct (applyUpdate u seq (pr_db s)) as [[path db]|e] eqn:E.
      + split; [auto with sierx|]. intros s1 [= <-]. apply applyUpdate_inv in E as (i & Hi & _ & -> & _). simpl.
        split; [eapply ranks_ok_same; [done|exact Hi|simpl; by rewrite Hrf|done]|].
        rewrite map_size_insert_Some by eauto. lia.
      + split; [|done]. intros e' [= <-]. unfold applyUpdate in E.
        destruct (sql _) as [[? ?]|] eqn:Es; [done|]. injection E as <-. by eapply sql_no_failure.
    - destruct (applyReparent_ranks r seq (pr_db s) Ht Hok Hsize) as [Hnf Hres].
      destruct (applyReparent _ _ _) as [[paths db]|e]; [|split; [intros e' [= <-]; by apply Hnf|done]].
      split; [auto with sierx|]. intros s1 [= <-]. destruct (Hres _ _ eq_refl) as [H1 H2]. simpl. split; [done|lia].
    - destruct (sql _) as [[row db]|e] eqn:E; [|split; [intros e' [= <-]; by eapply sql_no_failure|done]].
      split; [auto with sierx|]. intros s1 [= <-]. apply sql_inv, SoftDeleteItem_inv in E as (i & Hi & _ & -> & ->). simpl.
      split; [by eapply ranks_ok_same|]. rewrite map_size_insert_Some by eauto. lia.
    - destruct (sql (GetItem _ _)) as [row|e] eqn:Eg; [|split; [intros e' [= <-]; by eapply sql_no_failure|done]].
      destruct (sql (Db.HardDeleteItem _ _)) as [db|e] eqn:E; [|split; [intros e' [= <-]; by eapply sql_no_failure|done]].
      split; [auto with sierx|]. intros s1 [= <-]. apply sql_inv, HardDeleteItem_inv in E as [[_ ->]|(Hs & _ & ->)]; simpl; [auto with lia|].
      split; [by apply ranks_ok_delete|]. rewrite map_size_delete_Some by done. lia.
    - destruct (sql _) as [db|e] eqn:E; [|split; [intros e' [= <-]; by eapply sql_no_failure|done]].
      split; [auto with sierx|]. intros s1 [= <-]. apply sql_inv, InsertLink_inv in E as ->. simpl. auto with lia.
    - split; [auto with sierx|]. intros s1 [= <-]. simpl. auto with lia.
    - destruct (applyComment _ _ _) as [db|e] eqn:E.
      + split; [auto with sierx|]. intros s1 [= <-]. apply applyComment_inv in E as [cs ->]. simpl. auto with lia.
      + split; [|done]. intros e' [= <-]. unfold applyComment in E.
        destruct (String.eqb _ _); [by eapply sql_no_failure|].
        repeat (case_match; simplify_eq/=; try done); intros [Hf|[Hf|Hf]]; discriminate Hf. }
  unfold apply_change. fold seq. destruct Hkind as [Hnf Hres].
  destruct (apply_kind m c seq s) as [s1|e]; [|split; [intros e' [= <-]; by apply Hnf|done]].
  destruct (Hres _ eq_refl) as [Hok1 Hs1].
  destruct (touches_version _); [|split; [auto with sierx|intros s' [= <-]; done]].
  destruct (sql (TouchItem _ _ _)) as [db|e] eqn:Et; [|split; [intros e' [= <-]; by eapply sql_no_failure|done]].
  split; [auto with sierx|]. intros s' [= <-]. simpl.
  apply sql_inv, TouchItem_inv in Et as [[_ ->]|(i & Hi & ->)]; [done|]. simpl.
  split; [by eapply ranks_ok_same|]. rewrite map_size_insert_Some by eauto. lia.
Qed.

(** * Whole mutations *)

Section mutate.
Context `{UuidParse}.

(** A loop whose body fails only otherwise, with the processed prefix in the
    invariant. *)
Lemma foldM_failure {A S} (f : S -> A -> result store_err S) (P : list A -> S -> Prop) xs s :
  P [] s ->
  (forall pre x post s, xs = pre ++ x :: post -> P pre s ->
     no_rank_failure (f s x) /\ forall s', f s x = Ok s' -> P (pre ++ [x]) s') ->
  no_rank_failure (foldM f xs s) /\ forall s', foldM f xs s = Ok s' -> P xs s'.
Proof.
  intros H0 Hstep.
  cut (forall ys pre t, xs = pre ++ ys -> P pre t ->
         no_rank_failure (foldM f ys t) /\ forall s', foldM f ys t = Ok s' -> P xs s').
  { intros Hc. by apply (Hc xs [] s). }
  induction ys as [|y ys IH]; intros pre t Hxs Hp; simpl.
  - split; [auto with sierx|]. intros s' [= <-]. rewrite Hxs, app_nil_r. done.
  - destruct (Hstep pre y ys t Hxs Hp) as [Hnf Hok].
    destruct (f t y) as [t'|e]; [|split; [intros e' [= <-]; by apply Hnf|done]].
    apply (IH (pre ++ [y])); [by rewrite <- app_assoc|by apply Hok].
Qed.

Lemma finish_no_failure ws evs s : no_rank_failure (finish ws evs s).
Proof.
  assert (Hall : forall A (f : Db -> A -> result dberr Db) l db, no_rank_failure (foldM (fun db a => sql (f db a)) l db)).
  { intros A f l db. apply (foldM_failure (fun db a => sql (f db a)) (fun _ _ => True)); [done|].
    intros. split; [auto with sierx|done]. }
  unfold finish, recomputeRollups. pose proof (Hall _ (fun db id => InsertRollupRow id db) (pr_created s) (pr_db s)) as H1.
  destruct (foldM _ (pr_created s) _) as [db1|e]; [|intros e' [= <-]; by apply H1].
  pose proof (Hall _ (fun db id => RecomputeRollup id db)
    (List.filter (fun id => negb (bool_decide (id ∈ pr_hard s))) (dirtyAncestors (pr_touched s))) db1) as H2.
  destruct (foldM _ _ db1) as [db2|e]; [auto with sierx|intros e' [= <-]; by apply H2].
Qed.

Lemma flush_ranks m db :
  tree_ok (tree db) -> ranks_ok (items db) ->
  Z.of_nat (size (items db) + length (m_changes m)) <= max_sequence -> Forall rank_free_change (m_changes m) ->
  no_rank_failure (flush m db) /\ forall res db', flush m db = Ok (res, db') -> ranks_ok (items db').
Proof.
  intros Ht Hok Hsize Hrf. unfold flush.
  destruct (sql (AllocateSeq _ _ _)) as [[h dbA]|e] eqn:Ea; [|split; [intros e' [= <-]; by eapply sql_no_failure|done]].
  apply sql_inv, AllocateSeq_inv in Ea as (v0 & _ & _ & ->).
  destruct (forallb _ _); [|split; [intros e' [= <-] [Hf|[Hf|Hf]]; discriminate Hf|done]].
  set (evs := assign_seqs _ _). set (s0 := mkProgress _ [] [] [] []).
  destruct (foldM_failure (apply_change m (item_seq evs))
    (fun pre s => tree_ok (tree (pr_db s)) /\ ranks_ok (items (pr_db s)) /\
       (size (items (pr_db s)) <= size (items db) + length pre)%nat) (m_changes m) s0) as [Hnf Hres].
  - simpl. split; [done|]. split; [done|lia].
  - intros pre c post s Hxs (H1 & H2 & H3). rewrite Hxs in Hrf, Hsize. rewrite length_app in Hsize. simpl in Hsize.
    apply Forall_app in Hrf as [_ Hrf]. apply Forall_cons in Hrf as [Hrf _].
    destruct (apply_change_ranks m (item_seq evs) s c H1 H2 ltac:(lia) Hrf) as [Hn Hr].
    split; [done|]. intros s' Hs'. destruct (Hr _ Hs') as [H5 H6].
    split; [by eapply apply_change_tree|]. split; [done|]. rewrite length_app. simpl. lia.
  - destruct (foldM _ _ s0) as [s|e]; [|split; [intros e' [= <-]; by apply Hnf|done]].
    destruct (Hres _ eq_refl) as (_ & Hok' & _). pose proof (finish_no_failure (m_workspace m) evs s) as Hfin.
    destruct (finish _ _ _) as [db2|e] eqn:Ef; [|split; [intros e' [= <-]; by apply Hfin|done]].
    split; [auto with sierx|]. intros res db' [= _ <-]. by rewrite (finish_items _ _ _ _ Ef).
Qed.

Definition rank_free_verb (v : verb) : bool :=
  match v with
  | VCreate _ i => String.eqb (in_rank i) ""
  | VUpdate u _ => match up_Rank u with None => true | Some _ => false end
  | _ => true
  end.

Lemma verb_rank_free v m :
  rank_free_verb v = true -> Forall rank_free_change (m_changes m) -> Forall rank_free_change (m_changes (run_verb m v)).
Proof.
  intros Hv Hm. destruct v; simpl in *; unfold Create, Update, Reparent, SoftDelete, hardDelete, Link_, Unlink, Comment_;
    try destruct (unlink_endpoints l) as [a b]; repeat (case_match; simpl in *; try done);
    try (apply Forall_app; split; [done|]; constructor; [|done]; unfold rank_free_change; simpl); try done.
  all: try (by apply String.eqb_eq). all: by destruct (up_Rank u).
Qed.

(** The builder records errors of its own only. *)
Lemma verb_err v m :
  (forall e, m_err m = Some e -> ~ rank_failure e) -> forall e, m_err (run_verb m v) = Some e -> ~ rank_failure e.
Proof.
  assert (Hfail : forall msg m, (forall e, m_err m = Some e -> ~ rank_failure e) ->
            forall e, m_err (fail (ErrOther msg) m) = Some e -> ~ rank_failure e).
  { intros msg m0 Hm0 e. simpl. destruct (m_err m0) as [e0|] eqn:E; intros [= <-]; [by apply Hm0|].
    intros [Hf|[Hf|Hf]]; discriminate Hf. }
  assert (Hfe : forall id fc m e, fieldEvent id fc m = Err e -> exists msg, e = ErrOther msg).
  { unfold fieldEvent. intros id fc m0 e. case_match; [intros [= <-]; eauto|done]. }
  intros Hm. destruct v; simpl run_verb; unfold Create, Update, Reparent, SoftDelete, hardDelete, Link_, Unlink, Comment_;
    try destruct (unlink_endpoints l) as [a b]; repeat case_match; try done; try (by apply Hfail).
  - assert (exists msg, e = ErrOther msg) as [msg ->]; [|by apply Hfail].
    match goal with H : mapM' _ ?l = Err e |- _ => revert H; generalize l end.
    intros l0. induction l0 as [|fc l0 IH]; simpl; [done|].
    destruct (fieldEvent _ fc m) eqn:E; [|intros [= <-]; by eapply Hfe].
    destruct (mapM' _ l0) as [|e2]; [done|]. intros [= ->]. by apply IH.
Qed.

Lemma built_ranks ws vs os :
  forallb rank_free_verb vs = true ->
  Forall rank_free_change (m_changes (built ws vs os)) /\ forall e, m_err (built ws vs os) = Some e -> ~ rank_failure e.
Proof.
  intros Hvs. unfold built.
  assert (H0 : Forall rank_free_change (m_changes (fold_left (fun m o => o m) (run_option <$> os) (new_mutation ws))) /\
     forall e, m_err (fold_left (fun m o => o m) (run_option <$> os) (new_mutation ws)) = Some e -> ~ rank_failure e).
  { rewrite (proj2 (options_context ws os)). split; [done|].
    cut (forall m, m_err m = None -> m_err (fold_left (fun m o => o m) (run_option <$> os) m) = None).
    { intros Hc e. by rewrite Hc. }
    clear. induction os as [|o os IH]; intros m Hm; simpl; [done|]. apply IH. by destruct o. }
  revert H0. generalize (fold_left (fun m o => o m) (run_option <$> os) (new_mutation ws)).
  unfold run_verbs. induction vs as [|v vs IH]; intros m [H1 H2]; simpl in *; [done|].
  apply andb_true_iff in Hvs as [Hv Hvs]. apply IH; [done|]. split; [by apply verb_rank_free|by apply verb_err].
Qed.

(** C5. Ordering never gets stuck: if the ranks of every project are valid, at most
    forty characters long and pairwise distinct as fractions, then so they are
    after any mutation that leaves ranks to the store; and no such mutation ever
    meets a rank computation that does not return, panics, or finds its bounds out
    of order, nor a ranked move that is still without a rank after its two
    attempts. (A project holds far fewer than 36^12 items.) *)
Theorem Mutate_ranks ws vs os db r db' :
  tree_ok (tree db) -> ranks_ok (items db) -> forallb rank_free_verb vs = true ->
  Z.of_nat (size (items db) + length (m_changes (built ws vs os))) <= max_sequence ->
  Mutate ws (callback vs) (run_option <$> os) db = (r, db') ->
  ranks_ok (items db') /\ r <> Err RankDiverges /\ r <> Err RankPanics /\ r <> Err ErrRankOrder.
Proof.
  intros Ht Hok Hvs Hsize Hm. destruct (built_ranks ws vs os Hvs) as [Hrf Herr].
  destruct (flush_ranks (built ws vs os) db Ht Hok Hsize Hrf) as [Hnf Hres].
  assert (Hgoal : ranks_ok (items db') /\ no_rank_failure r).
  { revert Hm. unfold Mutate, callback. fold (built ws vs os). unfold check_mutation.
    destruct (m_err (built ws vs os)) as [e|] eqn:Ee.
    { intros [= <- <-]. split; [done|]. intros e' [= <-]. by apply Herr. }
    destruct (m_changes (built ws vs os)) as [|c cs] eqn:Ec.
    { intros [= <- <-]. split; [done|]. intros e' [= <-] [Hf|[Hf|Hf]]; discriminate Hf. }
    destruct (List.find _ _).
    { intros [= <- <-]. split; [done|]. intros e' [= <-] [Hf|[Hf|Hf]]; discriminate Hf. }
    destruct (flush _ _) as [[res db2]|e] eqn:Ef; intros [= <- <-].
    - split; [by eapply Hres|auto with sierx].
    - split; [done|]. intros e' [= <-]. by apply Hnf. }
  destruct Hgoal as [H1 H2]. split; [done|].
  split; [|split]; intros ->; apply (H2 _ eq_refl); unfold rank_failure; auto.
Qed.

(** Respreading a project: on such a database [RebalanceProject] never diverges,
    keeps the rank invariant, the hierarchy and the gap-free log, changes rows in
    rank and version only, and on success appends exactly one event and leaves
    every rank of the project at most twelve characters long, in the same order of
    items as before. *)
Theorem RebalanceProject_spec ws p db r db' :
  tree_ok (tree db) -> ranks_ok (items db) -> gap_free db -> Z.of_nat (size (items db)) <= max_sequence ->
  RebalanceProject ws p db = (r, db') ->
  ranks_ok (items db') /\ tree_ok (tree db') /\ gap_free db' /\ no_rank_failure r /\
  match r with
  | Err _ => db' = db
  | Ok n => n = length (project_items p db) /\ length (events db') = S (length (events db)) /\
      short p (items db') /\ (ListProjectRanks p db').*1 = (ListProjectRanks p db).*1 /\
      forall id i, items db !! id = Some i -> exists i', items db' !! id = Some i' /\ rank_only i i'
  end.
Proof.
  intros Ht Hok Hg Hsize. unfold RebalanceProject, rebalance_project.
  destruct (sql (AllocateSeq _ _ _)) as [[seq dbA]|e] eqn:Ea.
  2:{ intros [= <- <-]. split; [done|]. split; [done|]. split; [done|]. split; [|done]. intros e' [= <-]. by eapply sql_no_failure. }
  apply sql_inv, AllocateSeq_inv in Ea as (v0 & Hc & -> & HA).
  assert (Hl : ListProjectRanks p db = ListProjectRanks p dbA) by (by subst dbA). rewrite Hl.
  assert (Hk : keyed (items dbA)) by (subst dbA; by apply tree_ok_keyed).
  destruct (rebalance_ok p dbA Hk ltac:(by subst dbA) ltac:(by subst dbA)) as [Hnf Hres].
  destruct (rebalanceProjectRanks _ _ _) as [db1|e] eqn:E.
  2:{ intros [= <- <-]. split; [done|]. split; [done|]. split; [done|]. split; [|done]. intros e' [= <-]. by apply Hnf. }
  intros [= <- <-]. destruct (Hres _ eq_refl) as [Hok1 Hsh]. pose proof (rebalance_rank_change _ _ _ _ Hk E) as Hrc.
  split; [done|]. split; [|split; [|split; [auto with sierx|split; [|split; [|split; [|split]]]]]].
  - change (tree_ok (tree db1)). rewrite (rank_change_tree _ _ Hrc). by subst dbA.
  - set (ev := mkEvent _ _ _ _ _ _ _ _).
    assert (Hstat : seq_counter db1 = <[ws := v0 + 1]> (seq_counter db) /\ events db1 = events db).
    { destruct Hrc as [-> _]. by subst dbA. }
    destruct Hstat as [Hq He]. intros ws' v Hv. simpl in Hv. rewrite Hq in Hv. simpl. rewrite He.
    unfold ws_events. rewrite List.filter_app, map_app. fold (ws_events ws' (events db)). simpl.
    apply lookup_insert_Some in Hv as [[<- <-]|[Hne Hv]].
    + destruct (Hg _ _ Hc) as [H0 ->]. rewrite bool_decide_true by done. split; [lia|].
      rewrite seqZ_app by lia. f_equal. simpl. rewrite seqZ_cons by lia. f_equal. lia.
    + destruct (Hg _ _ Hv) as [H0 ->]. rewrite bool_decide_false by done. by rewrite app_nil_r.
  - rewrite ranks_count. by subst dbA.
  - simpl. rewrite length_app. simpl. destruct Hrc as [-> _]. subst dbA. simpl. lia.
  - done.
  - change (ListProjectRanks p (InsertEvent ?e db1)) with (ListProjectRanks p db1).
    eapply rebalance_order; [exact Hk|by subst dbA|by subst dbA|exact E].
  - intros id i Hi. destruct Hrc as [_ Hrc]. specialize (Hrc id). subst dbA. simpl in *. rewrite Hi in Hrc.
    destruct (items db1 !! id) as [i'|]; [eauto|done].
Qed.

End mutate.

(** * Witnesses *)

Lemma db0_ranks : ranks_ok (items Demo.db0).
Proof. split; [intros id i Hi|intros id1 id2 i1 i2 Hi]; vm_compute in Hi; discriminate Hi. Qed.

Lemma Mutate_ranks_witness : ranks_ok (items Demo.db1) /\ (ListProjectRanks Demo.project Demo.db1).*2 = ["n"; "o"; "p"].
Proof.
  split; [|vm_compute; reflexivity].
  pose proof (Mutate_ranks Demo.ws Demo.create_three [OActor Demo.user] Demo.db0 Demo.run1.1 Demo.db1
                db0_tree db0_ranks eq_refl) as Ht.
  refine (proj1 (Ht _ Demo.run1_call)). vm_compute. discriminate.
Defined.

Lemma RebalanceProject_spec_witness :
  (RebalanceProject Demo.ws Demo.project Demo.db0).1 = Ok 0%nat /\
  gap_free (RebalanceProject Demo.ws Demo.project Demo.db0).2.
Proof.
  split; [vm_compute; reflexivity|].
  pose proof (RebalanceProject_spec Demo.ws Demo.project Demo.db0 _ _ db0_tree db0_ranks db0_gap_free
    ltac:(vm_compute; discriminate) (surjective_pairing _)) as (_ & _ & Hg & _).
  exact Hg.
Defined.

End StoreRank.
