(* ===== verification/Journal.v ===== *)
(** The operator's lifecycle journal, [internal/lifecycle/journal.go]: an
    encrypted, hash-chained file with an authenticated checkpoint beside it.
    The file system is explicit state; cryptography and the JSON codec of the
    Go library are interfaces with their laws. *)
From S2P Require Import Prelude Utf8.
Open Scope nat_scope.

Abbreviation bytes := (list ascii).

(** * What the journal uses of the standard library *)

Class Crypto := {
  sha256 : bytes -> bytes;
  hmac_sha256 : bytes -> bytes -> bytes;
  gcm_seal : bytes -> bytes -> bytes -> bytes -> bytes;
  gcm_open : bytes -> bytes -> bytes -> bytes -> option bytes;
  gcm_open_seal key nonce plain ad :
    length key = 32 -> length nonce = 12 -> gcm_open key nonce (gcm_seal key nonce plain ad) ad = Some plain
}.

Definition newline : ascii := Ascii.ascii_of_nat 10.
Definition carriage : ascii := Ascii.ascii_of_nat 13.

(** [json.Marshal] and the strict decoder of [strictJSON]: compact output has no
    line break, and it decodes to the value it came from, with or without a
    line break after it. *)
Class Codec (A : Type) := {
  marshal : A -> bytes;
  unmarshal : bytes -> result string A;
  unmarshal_marshal a : unmarshal (marshal a) = Ok a;
  unmarshal_marshal_line a : unmarshal (marshal a ++ [newline]) = Ok a;
  marshal_line a : (newline ∉ marshal a) /\ (carriage ∉ marshal a)
}.

(** [hex.EncodeToString] *)
Definition hex_digit (n : nat) : ascii := if n <? 10 then Ascii.ascii_of_nat (48 + n) else Ascii.ascii_of_nat (87 + n).
Definition hex (b : bytes) : string :=
  of_chars (concat (map (fun c => [hex_digit (byte_of c / 16); hex_digit (byte_of c mod 16)]) b)).

Module Journal.

(** * Data *)

Record Action := mkAction {
  Kind : string; CaseRef : string; WorkspaceID : string; TargetID : string; ReplacementID : string;
  AuthorityRef : string; ReviewAt : string; Cutoff : string; Correction : string; EventSeq : Z; At : string;
  a_InstanceID : string; WorkspaceOrigin : string; ItemIDs : list string; CommentIDs : list string; ViewIDs : list string }.

Record Head_ := mkHead { InstanceID : string; Sequence : Z; Hash : string; MAC : string }.

(** The marshalled part of [Record]; the hash is not. *)
Record Body := mkBody { r_InstanceID : string; r_Sequence : Z; Previous : string; r_Action : Action }.
Record Record_ := mkRecord { body : Body; r_Hash : string }.

Record envelope := mkEnvelope { Nonce : bytes; Ciphertext : bytes }.

Record Journal_ := mkJournal { Path : string; Checkpoint : string; Key : bytes; Head : Head_; Records : list Record_ }.

(** * Files *)

Record file := mkFile { regular : bool; owner_only : bool; data : bytes }.
Abbreviation fs := (gmap string file).

Section journal.
Context {CR : Crypto} {CH : Codec Head_} {CB : Codec Body} {CE : Codec envelope}.

Definition size (b : bytes) : Z := Z.of_nat (length b).
Definition file_limit : Z := 134217728.
Definition record_limit : Z := 2097152.

Definition privateFile (s : fs) (path : string) : result string bytes :=
  match s !! path with
  | None => Err "protected regular file is unavailable"
  | Some f =>
      if negb (regular f) then Err "protected regular file is unavailable"
      else if negb (owner_only f) then Err "protected file must have owner-only permissions"
      else if (file_limit <? size (data f))%Z then Err "protected file exceeds the journal limit"
      else Ok (data f)
  end.

Definition keyFile (s : fs) (path : string) : result string bytes :=
  let* b := privateFile s path in
  if negb (length b =? 32) then Err "journal key must contain exactly 32 random bytes" else Ok b.

Definition guardKey (key : bytes) : bytes := hmac_sha256 key (chars "sierx-lifecycle-checkpoint-v1").

Definition authenticate (h : Head_) (key : bytes) : string :=
  hex (hmac_sha256 key (marshal (mkHead (InstanceID h) (Sequence h) (Hash h) ""))).

(** * Reading *)

(** [bufio.ScanLines]: the lines of the data, the last one possibly unfinished. *)
Fixpoint lines (l : bytes) : list bytes :=
  match l with
  | [] => []
  | c :: l =>
      if Ascii.eqb c newline then [] :: lines l
      else match lines l with
           | [] => [[c]]
           | w :: ws => (* the first line continues unless [l] is empty *) (c :: w) :: ws
           end
  end.

Definition drop_cr (l : bytes) : bytes :=
  match last l with Some c => if Ascii.eqb c carriage then removelast l else l | None => l end.

Record reading := mkReading { rd_Head : Head_; rd_Records : list Record_; matched : bool }.

Definition associated (h : Head_) : bytes := chars (InstanceID h +:+ ":" +:+ Hash h).

(** One round of the scanner loop. The scanner's buffer holds [record_limit]
    bytes, the line break included. *)
Definition load_line (key : bytes) (saved : Head_) (st : reading) (line : bytes) : result string reading :=
  if (record_limit <=? size line)%Z then Err "journal record exceeds limit"
  else
    let line := drop_cr line in
    let* e := unmarshal line in
    if negb (length (Nonce e) =? 12) then Err "invalid journal nonce"
    else match gcm_open key (Nonce e) (Ciphertext e) (associated (rd_Head st)) with
    | None => Err "journal decryption or chain authentication failed"
    | Some plain =>
        let* r := unmarshal plain in
        if negb (String.eqb (r_InstanceID r) (InstanceID saved)) ||
           negb (r_Sequence r =? wrap64 (Sequence (rd_Head st) + 1))%Z ||
           negb (String.eqb (Previous r) (Hash (rd_Head st))) ||
           negb (String.eqb (a_InstanceID (r_Action r)) (InstanceID saved))
        then Err "journal sequence or instance mismatch"
        else
          let hash := hex (sha256 line) in
          Ok (mkReading (mkHead (InstanceID (rd_Head st)) (r_Sequence r) hash (MAC (rd_Head st)))
                (rd_Records st ++ [mkRecord r hash])
                (matched st || ((r_Sequence r =? Sequence saved)%Z && String.eqb hash (Hash saved))))
    end.

Definition reading0 (saved : Head_) : reading :=
  mkReading (mkHead (InstanceID saved) 0 "" "") [] ((Sequence saved =? 0)%Z && String.eqb (Hash saved) "").

Definition unfinished (d : bytes) : bool :=
  match last d with Some c => negb (Ascii.eqb c newline) | None => false end.

Definition load (s : fs) (path keyPath checkpoint : string) (allowTail : bool) : result string Journal_ :=
  let* key := keyFile s keyPath in
  let* hb := privateFile s checkpoint in
  let* saved := unmarshal hb in
  if negb (String.eqb (MAC saved) (authenticate saved (guardKey key))) ||
     String.eqb (InstanceID saved) "" || (Sequence saved <? 0)%Z
  then Err "journal checkpoint authentication failed"
  else
    let* d := privateFile s path in
    let* st := foldM (load_line key saved) (lines d) (reading0 saved) in
    if unfinished d then Err "journal has a partial record"
    else if negb (matched st) ||
            (negb allowTail && (negb (Sequence (rd_Head st) =? Sequence saved)%Z || negb (String.eqb (Hash (rd_Head st)) (Hash saved))))
    then Err "journal is truncated or does not match the trusted checkpoint"
    else Ok (mkJournal path checkpoint key (rd_Head st) (rd_Records st)).

Definition Load (s : fs) (path keyPath checkpoint : string) : result string Journal_ :=
  load s path keyPath checkpoint false.

(** * Writing *)

(** The checkpoint as [writeHead] renames it into place. *)
Definition head_bytes (j : Journal_) : bytes :=
  let h := Head j in
  marshal (mkHead (InstanceID h) (Sequence h) (Hash h) (authenticate h (guardKey (Key j)))) ++ [newline].
Definition writeHead (s : fs) (j : Journal_) : fs := <[Checkpoint j := mkFile true true (head_bytes j)]> s.

Definition RecoverCheckpoint (s : fs) (path keyPath checkpoint : string) : result string (Journal_ * fs) :=
  let* j := load s path keyPath checkpoint true in
  Ok (j, writeHead s j).

(** [Init] on a file system; the random key is an argument. *)
Definition Init (s : fs) (path keyPath checkpoint verification instance : string) (key : bytes) : result string (Journal_ * fs) :=
  if String.eqb path keyPath || String.eqb path checkpoint || String.eqb keyPath checkpoint || String.eqb instance ""
  then Err "distinct protected paths and an instance UUID are required"
  else if existsb (fun p => match s !! p with Some _ => true | None => false end) [path; keyPath; checkpoint; verification]
  then Err "journal initialization never overwrites files"
  else
    let s := <[keyPath := mkFile true true key]> s in
    let s := <[path := mkFile true true []]> s in
    let s := <[verification := mkFile true true (guardKey key)]> s in
    let j := mkJournal path checkpoint key (mkHead instance 0 "" "") [] in
    Ok (j, writeHead s j).

(** The line [Append] writes for an action, and the record it stands for. *)
Definition next_body (j : Journal_) (a : Action) : Body :=
  mkBody (InstanceID (Head j)) (wrap64 (Sequence (Head j) + 1)) (Hash (Head j)) a.
Definition next_line (j : Journal_) (a : Action) (nonce : bytes) : bytes :=
  marshal (mkEnvelope nonce (gcm_seal (Key j) nonce (marshal (next_body j a)) (associated (Head j)))).

(** [Append] up to the checkpoint: the record is in the file and in memory. *)
Definition append_intent (s : fs) (j : Journal_) (a : Action) (nonce : bytes) : result string (Record_ * Journal_ * fs) :=
  if negb (String.eqb (a_InstanceID a) (InstanceID (Head j))) then Err "action belongs to another instance"
  else
    let b := next_line j a nonce in
    if (record_limit <? size b)%Z then Err "journal record exceeds limit"
    else
      let* d := privateFile s (Path j) in
      if (file_limit <? size d + size b + 1)%Z then Err "journal capacity reached; no decision was appended"
      else
        let r := mkRecord (next_body j a) (hex (sha256 b)) in
        let j' := mkJournal (Path j) (Checkpoint j) (Key j)
          (mkHead (InstanceID (Head j)) (r_Sequence (body r)) (r_Hash r) (MAC (Head j))) (Records j ++ [r]) in
        Ok (r, j', <[Path j := mkFile true true (d ++ b ++ [newline])]> s).

Definition Append (s : fs) (j : Journal_) (a : Action) (nonce : bytes) : result string (Record_ * Journal_ * fs) :=
  let* (r, j', s') := append_intent s j a nonce in
  Ok (r, j', writeHead s' j').

(** * database.go: what the journal says about a database's head *)

Definition Matches (j : Journal_) (h : Head_) : bool :=
  String.eqb (InstanceID (Head j)) (InstanceID h) && (Sequence (Head j) =? Sequence h)%Z && String.eqb (Hash (Head j)) (Hash h).

(** [None] for an index out of range: a panic. *)
Definition Prefix (j : Journal_) (h : Head_) : option bool :=
  if negb (String.eqb (InstanceID h) (InstanceID (Head j))) || (Sequence h <? 0)%Z || (Sequence (Head j) <? Sequence h)%Z
  then Some false
  else if (Sequence h =? 0)%Z then Some (String.eqb (Hash h) "")
  else match Records j !! Z.to_nat (Sequence h - 1) with
       | Some r => Some (String.eqb (r_Hash r) (Hash h))
       | None => None
       end.

End journal.
End Journal.
