(* ===== verification/JournalProps.v ===== *)
(** What the journal promises: an appended record is read back, an interrupted
    append is detected and recovered, a shortened file is refused, and the
    checkpoint commits to the whole file. *)
From S2P Require Import Prelude Utf8 Journal.
Open Scope nat_scope.

Module JournalProps.
Import Journal.

(** * Lines *)

Lemma unfinished_cons c d : d <> [] -> unfinished (c :: d) = unfinished d.
Proof. destruct d as [|b d]; [done|]. intros _. unfold unfinished. by rewrite last_cons_cons. Qed.

Lemma lines_app d x : unfinished d = false -> lines (d ++ x) = lines d ++ lines x.
Proof.
  induction d as [|c d IH]; intros Hd; [done|]. cbn [app lines].
  destruct (decide (d = [])) as [->|Hne].
  - unfold unfinished in Hd. simpl in Hd. apply negb_false_iff in Hd. rewrite Hd. done.
  - rewrite unfinished_cons in Hd by done. rewrite (IH Hd). destruct (Ascii.eqb c newline); [done|].
    destruct (lines d) as [|w ws] eqn:E; [|done]. destruct d as [|b d]; [done|]. simpl in E.
    destruct (Ascii.eqb b newline); [done|]. by destruct (lines d).
Qed.

Lemma lines_line b : newline ∉ b -> lines (b ++ [newline]) = [b].
Proof.
  induction b as [|c b IH]; [done|]. intros [Hc Hb]%not_elem_of_cons. cbn [app lines].
  rewrite IH by done. by rewrite (proj2 (Ascii.eqb_neq _ _) (not_eq_sym Hc)).
Qed.

Lemma lines_length d : length (lines d) <= length d.
Proof. induction d as [|c d IH]; simpl; [done|]. destruct (Ascii.eqb c newline); [simpl; lia|]. destruct (lines d); simpl in *; lia. Qed.

Lemma lines_nil d : d <> [] -> lines d <> [].
Proof. destruct d as [|c d]; [done|]. intros _. simpl. destruct (Ascii.eqb c newline); [done|]. by destruct (lines d). Qed.

Lemma drop_cr_none b : carriage ∉ b -> drop_cr b = b.
Proof.
  intros Hb. unfold drop_cr. destruct (last b) as [c|] eqn:E; [|done]. destruct (Ascii.eqb_spec c carriage) as [->|]; [|done].
  apply last_Some in E as [l ->]. exfalso. apply Hb. set_solver.
Qed.

Lemma unfinished_line d b : unfinished (d ++ b ++ [newline]) = false.
Proof. unfold unfinished. by rewrite app_assoc, last_snoc. Qed.

(** * Hexadecimal *)

Lemma hex_digit_inj a b : a < 16 -> b < 16 -> hex_digit a = hex_digit b -> a = b.
Proof.
  intros Ha Hb E. assert (H : forallb (fun a => forallb (fun b => negb (Ascii.eqb (hex_digit a) (hex_digit b)) || (a =? b)) (seq 0 16)) (seq 0 16) = true)
    by reflexivity.
  rewrite forallb_forall in H. specialize (H a ltac:(apply in_seq; lia)). rewrite forallb_forall in H.
  specialize (H b ltac:(apply in_seq; lia)). rewrite E, Ascii.eqb_refl in H. by apply Nat.eqb_eq.
Qed.

Lemma cons2_inv {A} (a b c d : A) l m : a :: b :: l = c :: d :: m -> a = c /\ b = d /\ l = m.
Proof. by intros [= -> -> ->]. Qed.

Lemma hex_inj a b : hex a = hex b -> a = b.
Proof.
  unfold hex. intros E. apply (f_equal chars) in E. rewrite !chars_of_chars in E.
  revert b E; induction a as [|c a IH]; intros [|d b] E; try done. cbn [map concat app] in E. apply cons2_inv in E as (E1 & E2 & E3).
  f_equal; [|by apply IH]. apply byte_of_inj. pose proof (byte_of_lt c). pose proof (byte_of_lt d).
  apply hex_digit_inj in E1; [|apply Nat.Div0.div_lt_upper_bound; lia..].
  apply hex_digit_inj in E2; [|apply Nat.mod_upper_bound; lia..].
  rewrite (Nat.div_mod_eq (byte_of c) 16), (Nat.div_mod_eq (byte_of d) 16). congruence.
Qed.

Section props.
Context {CR : Crypto} {CH : Codec Head_} {CB : Codec Body} {CE : Codec envelope}.
Implicit Types (s : fs) (j : Journal_) (st : reading).

(** * One line *)

(** A line that is read: what it holds and what it adds. *)
Lemma load_line_inv key saved st line st' :
  load_line key saved st line = Ok st' ->
  (size line < record_limit)%Z /\ exists e plain b,
    unmarshal (drop_cr line) = Ok e /\ length (Nonce e) = 12 /\
    gcm_open key (Nonce e) (Ciphertext e) (associated (rd_Head st)) = Some plain /\ unmarshal plain = Ok b /\
    r_InstanceID b = InstanceID saved /\ r_Sequence b = wrap64 (Sequence (rd_Head st) + 1) /\
    Previous b = Hash (rd_Head st) /\ a_InstanceID (r_Action b) = InstanceID saved /\
    st' = mkReading (mkHead (InstanceID (rd_Head st)) (r_Sequence b) (hex (sha256 (drop_cr line))) (MAC (rd_Head st)))
            (rd_Records st ++ [mkRecord b (hex (sha256 (drop_cr line)))])
            (matched st || ((r_Sequence b =? Sequence saved)%Z && String.eqb (hex (sha256 (drop_cr line))) (Hash saved))).
Proof.
  unfold load_line. destruct (Z.leb_spec record_limit (size line)) as [|Hs]; [done|]. intros E. split; [done|].
  destruct (unmarshal (drop_cr line)) as [e|] eqn:He; [|done].
  destruct (Nat.eqb_spec (length (Nonce e)) 12) as [Hn|]; [|done]. cbn [negb] in E.
  destruct (gcm_open key (Nonce e) (Ciphertext e) (associated (rd_Head st))) as [plain|] eqn:Ho; [|done].
  destruct (unmarshal plain) as [b|] eqn:Hb; [|done].
  destruct (_ || _) eqn:Hg; [done|]. injection E as <-. rewrite !orb_false_iff, !negb_false_iff in Hg.
  destruct Hg as (((H1 & H2) & H3) & H4). exists e, plain, b.
  apply String.eqb_eq in H1, H3, H4. apply Z.eqb_eq in H2. by split_and!.
Qed.

(** The line of an appended action is read back. *)
Lemma load_line_next key saved st j a nonce :
  length key = 32 -> length nonce = 12 -> Key j = key -> InstanceID (Head j) = InstanceID (rd_Head st) ->
  Hash (Head j) = Hash (rd_Head st) -> Sequence (Head j) = Sequence (rd_Head st) ->
  InstanceID (rd_Head st) = InstanceID saved -> a_InstanceID a = InstanceID saved ->
  (size (next_line j a nonce) < record_limit)%Z ->
  let hash := hex (sha256 (next_line j a nonce)) in
  load_line key saved st (next_line j a nonce) =
  Ok (mkReading (mkHead (InstanceID (rd_Head st)) (wrap64 (Sequence (Head j) + 1)) hash (MAC (rd_Head st)))
        (rd_Records st ++ [mkRecord (next_body j a) hash])
        (matched st || ((wrap64 (Sequence (Head j) + 1) =? Sequence saved)%Z && String.eqb hash (Hash saved)))).
Proof.
  intros Hkey Hn HK Hi Hh Hs His Ha Hsz hash. unfold load_line.
  destruct (Z.leb_spec record_limit (size (next_line j a nonce))); [lia|].
  rewrite drop_cr_none by apply marshal_line. fold hash. unfold next_line at 1. rewrite unmarshal_marshal. cbn [Nonce Ciphertext].
  rewrite Hn. cbn [Nat.eqb negb].
  replace (associated (rd_Head st)) with (associated (Head j)) by (unfold associated; congruence).
  rewrite HK, gcm_open_seal by done. rewrite unmarshal_marshal. cbn [next_body r_InstanceID r_Sequence Previous r_Action].
  rewrite Hi, His, Hh, Ha, Hs, !String.eqb_refl, Z.eqb_refl. done.
Qed.

(** * The whole file *)

(** The checkpoint only matters for the instance and for [matched]. *)
Lemma load_line_saved key saved saved' st line st' m :
  InstanceID saved = InstanceID saved' -> load_line key saved st line = Ok st' ->
  load_line key saved' (mkReading (rd_Head st) (rd_Records st) m) line =
  Ok (mkReading (rd_Head st') (rd_Records st')
        (m || ((Sequence (rd_Head st') =? Sequence saved')%Z && String.eqb (Hash (rd_Head st')) (Hash saved')))).
Proof.
  intros Hi (Hs & e & plain & b & He & Hn & Ho & Hb & H1 & H2 & H3 & H4 & ->)%load_line_inv.
  unfold load_line. destruct (Z.leb_spec record_limit (size line)); [lia|]. rewrite He, Hn. cbn [Nat.eqb negb rd_Head rd_Records].
  rewrite Ho, Hb, H1, H2, H3, H4, Hi, !String.eqb_refl, Z.eqb_refl. cbn [negb orb rd_Head rd_Records Sequence Hash matched].
  done.
Qed.

Lemma load_lines_saved key saved saved' ls st st' m :
  InstanceID saved = InstanceID saved' -> foldM (load_line key saved) ls st = Ok st' ->
  exists m', foldM (load_line key saved') ls (mkReading (rd_Head st) (rd_Records st) m) =
             Ok (mkReading (rd_Head st') (rd_Records st') m') /\ (m = true -> m' = true).
Proof.
  intros Hi. revert st m; induction ls as [|l ls IH]; intros st m Hf; simpl in *.
  - injection Hf as <-. by exists m.
  - destruct (load_line key saved st l) as [st1|] eqn:E; [|done]. rewrite (load_line_saved _ _ _ _ _ _ m Hi E).
    destruct (IH st1 (m || ((Sequence (rd_Head st1) =? Sequence saved')%Z && String.eqb (Hash (rd_Head st1)) (Hash saved'))) Hf)
      as (m' & -> & Hm). exists m'. split; [done|]. intros ->. by apply Hm.
Qed.

(** A journal in order: records numbered from one, chained by hash. *)
Record in_order (saved : Head_) (ls : list bytes) (st : reading) : Prop := {
  io_instance : InstanceID (rd_Head st) = InstanceID saved;
  io_mac : MAC (rd_Head st) = "";
  io_sequence : Sequence (rd_Head st) = Z.of_nat (length ls);
  io_records : length (rd_Records st) = length ls
}.

Lemma load_lines_in_order key saved ls st :
  (Z.of_nat (length ls) < 2 ^ 63)%Z -> foldM (load_line key saved) ls (reading0 saved) = Ok st -> in_order saved ls st.
Proof.
  intros Hlen Hf. revert Hlen.
  refine (foldM_inv_prefix (load_line key saved)
    (fun pre st => (Z.of_nat (length pre) < 2 ^ 63)%Z -> in_order saved pre st) ls (reading0 saved) st _ _ Hf).
  - intros pre st0 x st1 IH _ E Hlen. rewrite length_app in Hlen. cbn [length] in Hlen. destruct (IH ltac:(lia)) as [H1 H2 H3 H4].
    apply load_line_inv in E as (_ & e & plain & b & _ & _ & _ & _ & _ & Hseq & _ & _ & ->).
    split; cbn [rd_Head rd_Records InstanceID Sequence MAC]; [done|done| |].
    + rewrite Hseq, H3, length_app. cbn [length]. rewrite wrap64_id by lia. lia.
    + rewrite !length_app. cbn [length]. lia.
  - intros _. by split.
Qed.

Lemma lines_bound s p d : privateFile s p = Ok d -> (Z.of_nat (length (lines d)) <= file_limit)%Z.
Proof.
  unfold privateFile. intros Hd. destruct (s !! p) as [f|]; [|done]. destruct (negb (regular f)); [done|].
  destruct (negb (owner_only f)); [done|]. destruct (Z.ltb_spec file_limit (size (data f))); [done|].
  injection Hd as <-. pose proof (lines_length (data f)). unfold size in *. lia.
Qed.

(** What a successful [load] has read. *)
Lemma load_inv s path keyPath checkpoint tail j :
  load s path keyPath checkpoint tail = Ok j ->
  exists key hb saved d st,
    keyFile s keyPath = Ok key /\ privateFile s checkpoint = Ok hb /\ unmarshal hb = Ok saved /\
    MAC saved = authenticate saved (guardKey key) /\ InstanceID saved <> "" /\ (0 <= Sequence saved)%Z /\
    privateFile s path = Ok d /\ foldM (load_line key saved) (lines d) (reading0 saved) = Ok st /\ unfinished d = false /\
    matched st = true /\ (tail = false -> Sequence (rd_Head st) = Sequence saved /\ Hash (rd_Head st) = Hash saved) /\
    j = mkJournal path checkpoint key (rd_Head st) (rd_Records st) /\ in_order saved (lines d) st.
Proof.
  unfold load. intros E. destruct (keyFile s keyPath) as [key|] eqn:Hkey; [|done].
  destruct (privateFile s checkpoint) as [hb|] eqn:Hhb; [|done]. destruct (unmarshal hb) as [saved|] eqn:Hsaved; [|done].
  destruct (_ || _ || _) eqn:Hauth in E; [done|]. destruct (privateFile s path) as [d|] eqn:Hd; [|done].
  destruct (foldM _ _ _) as [st|] eqn:Hf in E; [|done]. destruct (unfinished d) eqn:Hu; [done|].
  destruct (_ || _) eqn:Hm in E; [done|]. injection E as <-.
  rewrite !orb_false_iff, !negb_false_iff in *. destruct Hauth as ((H1 & H2) & H3). destruct Hm as (Hm1 & Hm2).
  apply String.eqb_eq in H1. apply String.eqb_neq in H2. apply Z.ltb_ge in H3.
  exists key, hb, saved, d, st. split_and!; try done.
  - intros ->. cbn [negb andb] in Hm2. rewrite orb_false_iff, !negb_false_iff in Hm2. destruct Hm2 as [A B].
    split; [by apply Z.eqb_eq|by apply String.eqb_eq].
  - apply (load_lines_in_order key); [|done].
    pose proof (lines_bound _ _ _ Hd). unfold file_limit in *. lia.
Qed.

(** A journal that loads also loads with a tail allowed. *)
Lemma strict_tail s a b c j : Load s a b c = Ok j -> load s a b c true = Ok j.
Proof.
  unfold Load, load. destruct (keyFile s b) as [key|]; [|done]. destruct (privateFile s c) as [hb|]; [|done].
  destruct (unmarshal hb) as [saved|]; [|done]. destruct (_ || _ || _); [done|]. destruct (privateFile s a) as [d|]; [|done].
  destruct (foldM _ _ _) as [st|]; [|done]. destruct (unfinished d); [done|]. cbn [negb andb].
  destruct (matched st); cbn [negb orb]; [|done]. by destruct (_ || _).
Qed.


(** * Appending *)

(** The head and records after an append. *)
Definition next_hash j a nonce : string := hex (sha256 (next_line j a nonce)).
Definition next_journal j a nonce : Journal_ :=
  mkJournal (Path j) (Checkpoint j) (Key j)
    (mkHead (InstanceID (Head j)) (wrap64 (Sequence (Head j) + 1)) (next_hash j a nonce) (MAC (Head j)))
    (Records j ++ [mkRecord (next_body j a) (next_hash j a nonce)]).

Lemma append_intent_inv s j a nonce r j' s' :
  append_intent s j a nonce = Ok (r, j', s') ->
  a_InstanceID a = InstanceID (Head j) /\ (size (next_line j a nonce) <= record_limit)%Z /\
  r = mkRecord (next_body j a) (next_hash j a nonce) /\ j' = next_journal j a nonce /\
  exists d, privateFile s (Path j) = Ok d /\ (size d + size (next_line j a nonce) + 1 <= file_limit)%Z /\
    s' = <[Path j := mkFile true true (d ++ next_line j a nonce ++ [newline])]> s.
Proof.
  unfold append_intent. destruct (String.eqb_spec (a_InstanceID a) (InstanceID (Head j))) as [Hi|]; [|done]. cbn [negb].
  destruct (Z.ltb_spec record_limit (size (next_line j a nonce))); [done|].
  destruct (privateFile s (Path j)) as [d|] eqn:Hd; [|done].
  destruct (Z.ltb_spec file_limit (size d + size (next_line j a nonce) + 1)); [done|].
  intros [= <- <- <-]. split_and!; [done|lia|done|done|]. exists d. by split_and!; [|lia|].
Qed.

Lemma private_written s p (d : bytes) : (size d <= file_limit)%Z -> privateFile (<[p := mkFile true true d]> s) p = Ok d.
Proof.
  intros Hd. unfold privateFile. rewrite lookup_insert_eq. cbn [regular owner_only data negb].
  destruct (Z.ltb_spec file_limit (size d)); [lia|done].
Qed.
Lemma private_other s p q f : p <> q -> privateFile (<[p := f]> s) q = privateFile s q.
Proof. intros Hp. unfold privateFile. by rewrite lookup_insert_ne. Qed.
Lemma key_other s p q f : p <> q -> keyFile (<[p := f]> s) q = keyFile s q.
Proof. intros Hp. unfold keyFile. by rewrite private_other. Qed.
Lemma key_length s p key : keyFile s p = Ok key -> length key = 32.
Proof.
  unfold keyFile. destruct (privateFile s p) as [b|]; [|done]. destruct (Nat.eqb_spec (length b) 32); [|done].
  by intros [= <-].
Qed.

Lemma size_line d b : size (d ++ b ++ [newline]) = (size d + size b + 1)%Z.
Proof. unfold size. rewrite !length_app. simpl. lia. Qed.

(** The lines of the grown file, read from the start. *)
Lemma fold_next key saved saved' d st j a nonce m :
  foldM (load_line key saved) (lines d) (reading0 saved) = Ok st -> unfinished d = false ->
  in_order saved (lines d) st -> Head j = rd_Head st -> Records j = rd_Records st -> Key j = key -> length key = 32 ->
  length nonce = 12 -> a_InstanceID a = InstanceID saved -> (size (next_line j a nonce) < record_limit)%Z ->
  InstanceID saved' = InstanceID saved ->
  foldM (load_line key saved') (lines d) (reading0 saved') = Ok (mkReading (rd_Head st) (rd_Records st) m) ->
  foldM (load_line key saved') (lines (d ++ next_line j a nonce ++ [newline])) (reading0 saved') =
  Ok (mkReading (Head (next_journal j a nonce)) (Records (next_journal j a nonce))
        (m || ((wrap64 (Sequence (Head j) + 1) =? Sequence saved')%Z && String.eqb (next_hash j a nonce) (Hash saved')))).
Proof.
  intros Hf Hu Hio Hh Hr HK Hkey Hn Ha Hsz Hi Hf'. rewrite lines_app, lines_line, foldM_app, Hf' by (done || apply marshal_line).
  cbn [foldM]. rewrite (load_line_next key saved' _ j a nonce); try done; cbn [rd_Head rd_Records matched].
  - unfold next_journal, next_hash. cbn [Head Records]. by rewrite Hr, Hh.
  - by rewrite Hh.
  - by rewrite Hh.
  - by rewrite Hh.
  - rewrite Hi. apply Hio.
  - by rewrite Hi.
Qed.

(** The checkpoint of a journal authenticates under the key it was written with. *)
Lemma head_bytes_read j : unmarshal (head_bytes j) =
  Ok (mkHead (InstanceID (Head j)) (Sequence (Head j)) (Hash (Head j)) (authenticate (Head j) (guardKey (Key j)))).
Proof. unfold head_bytes. apply unmarshal_marshal_line. Qed.

(** Three distinct files, as [Init] demands. *)
Definition distinct (path keyPath checkpoint : string) : Prop := path <> keyPath /\ path <> checkpoint /\ keyPath <> checkpoint.

(** The journal a reader of [s] sees under [path]: the one [load] returns. *)
Section append.
Context (s : fs) (path keyPath checkpoint : string) (j : Journal_) (a : Action) (nonce : bytes).
Context (r : Record_) (j' : Journal_) (s' : fs).
Context (Hdis : distinct path keyPath checkpoint) (Hload : Load s path keyPath checkpoint = Ok j).
Context (Hn : length nonce = 12) (Hsz : size (next_line j a nonce) <> record_limit).
Context (Hap : append_intent s j a nonce = Ok (r, j', s')).

Lemma intent_state :
  exists saved,
    keyFile s' keyPath = Ok (Key j) /\ (exists hb, privateFile s' checkpoint = Ok hb /\ unmarshal hb = Ok saved) /\
    MAC saved = authenticate saved (guardKey (Key j)) /\ InstanceID saved <> "" /\ (0 <= Sequence saved)%Z /\
    Sequence saved = Sequence (Head j) /\ InstanceID saved = InstanceID (Head j) /\
    (0 <= Sequence (Head j) < 2 ^ 62)%Z /\ Path j = path /\ Checkpoint j = checkpoint /\ j' = next_journal j a nonce /\
    exists d', privateFile s' path = Ok d' /\ unfinished d' = false /\
      (exists m, foldM (load_line (Key j) saved) (lines d') (reading0 saved) = Ok (mkReading (Head j') (Records j') m) /\ m = true) /\
      forall saved', InstanceID saved' = InstanceID saved -> Sequence saved' = Sequence (Head j') -> Hash saved' = Hash (Head j') ->
        foldM (load_line (Key j) saved') (lines d') (reading0 saved') = Ok (mkReading (Head j') (Records j') true).
Proof.
  destruct Hdis as (D1 & D2 & D3).
  destruct (load_inv _ _ _ _ _ _ Hload) as (key & hb & saved & d & st & Hkey & Hhb & Hsaved & Hmac & Hinst & Hseq & Hd & Hf & Hu & Hm & Hend & Hj & Hio).
  destruct (Hend eq_refl) as [E1 E2].
  destruct (append_intent_inv _ _ _ _ _ _ _ Hap) as (Ha & Hle & Hr & Hj' & d0 & Hd0 & Hcap & Hs').
  rewrite Hj in Hd0. cbn [Path] in Hd0. rewrite Hd in Hd0. injection Hd0 as <-.
  assert (Hlt : (size (next_line j a nonce) < record_limit)%Z) by lia.
  assert (HPath : Path j = path) by by rewrite Hj. rewrite HPath in Hs'.
  assert (Hgrow : forall saved' m, InstanceID saved' = InstanceID saved ->
    foldM (load_line key saved') (lines d) (reading0 saved') = Ok (mkReading (rd_Head st) (rd_Records st) m) -> _) by
    (intros saved' m Hi Hf'; refine (fold_next key saved saved' d st j a nonce m Hf Hu Hio _ _ _ (key_length _ _ _ Hkey) Hn _ Hlt Hi Hf');
     rewrite ?Ha, ?Hj; cbn [Head]; try done; apply Hio).
  exists saved. subst s' j' key || subst s' j'. rewrite Hj at 1 2. cbn [Key]. rewrite key_other, private_other by done.
  split_and!; try done.
  - by exists hb.
  - rewrite Hj. cbn [Key]. done.
  - rewrite Hj. cbn [Head]. by rewrite E1.
  - rewrite Hj. cbn [Head]. symmetry. apply Hio.
  - rewrite Hj. cbn [Head]. rewrite (io_sequence _ _ _ Hio). lia.
  - rewrite Hj. cbn [Head]. rewrite (io_sequence _ _ _ Hio). pose proof (lines_length d). unfold size, file_limit in *.
    change (2 ^ 62)%Z with 4611686018427387904%Z. lia.
  - by rewrite Hj.
  - exists (d ++ next_line j a nonce ++ [newline]). split_and!.
    + apply private_written. rewrite size_line. lia.
    + apply unfinished_line.
    + eexists. split; [|reflexivity]. replace (Key j) with key by by rewrite Hj.
      rewrite (Hgrow saved (matched st)); [by rewrite Hm|done|]. rewrite Hf. by destruct st.
    + intros saved' Hi Hs1 Hh1. replace (Key j) with key by by rewrite Hj.
      destruct (load_lines_saved key saved saved' (lines d) _ _ (matched (reading0 saved')) (eq_sym Hi) Hf) as (m' & Hf' & _).
      rewrite (Hgrow saved' m' Hi).
      * rewrite Hs1, Hh1. cbn [next_journal Head Sequence Hash]. rewrite Z.eqb_refl, String.eqb_refl. by rewrite orb_true_r.
      * rewrite <- Hf'. f_equal. unfold reading0. cbn [rd_Head rd_Records]. by rewrite Hi.
Qed.

(** After the checkpoint is written too. *)
Lemma append_loads : (size (head_bytes j') <= file_limit)%Z -> Load (writeHead s' j') path keyPath checkpoint = Ok j'.
Proof.
  intros Hhb. destruct Hdis as (D1 & D2 & D3).
  destruct intent_state as (saved & Hk & _ & _ & Hi0 & _ & _ & Hi & Hsq & HP & HC & Hj' & d' & Hd' & Hu & _ & Hall).
  set (saved' := mkHead (InstanceID (Head j')) (Sequence (Head j')) (Hash (Head j')) (authenticate (Head j') (guardKey (Key j')))).
  assert (HK' : Key j' = Key j) by by rewrite Hj'. assert (HC' : Checkpoint j' = checkpoint) by by rewrite Hj'.
  assert (Hi' : InstanceID (Head j') = InstanceID saved) by (rewrite Hj', Hi; done).
  specialize (Hall saved' Hi' eq_refl eq_refl).
  unfold Load, load, writeHead. rewrite HC', key_other, Hk by done. rewrite private_written by done.
  rewrite head_bytes_read. fold saved'.
  assert (Hm : MAC saved' = authenticate saved' (guardKey (Key j))) by (unfold saved', authenticate; by rewrite HK').
  rewrite Hm, String.eqb_refl. cbn [negb orb]. rewrite (proj2 (String.eqb_neq _ _)) by (cbn; congruence).
  assert (Hpos : (Sequence saved' <? 0)%Z = false).
  { apply Z.ltb_ge. unfold saved'. rewrite Hj'. cbn [Sequence next_journal Head]. rewrite wrap64_id; lia. }
  rewrite Hpos. cbn [orb]. rewrite private_other by done. rewrite Hd', Hall, Hu. cbn [matched rd_Head rd_Records negb orb andb].
  unfold saved'. cbn [Sequence Hash]. rewrite Z.eqb_refl, String.eqb_refl. cbn [negb orb].
  rewrite Hj'. unfold next_journal. by rewrite HP, HC.
Qed.

(** Before it is: the old checkpoint is behind the file. *)
Lemma interrupted_load tail :
  load s' path keyPath checkpoint tail =
  if tail then Ok j' else Err "journal is truncated or does not match the trusted checkpoint".
Proof.
  destruct intent_state as (saved & Hk & (hb & Hhb & Hsaved) & Hmac & Hi0 & H0 & Hs & Hi & Hsq & HP & HC & Hj' & d' & Hd' & Hu & (m & Hf & Hm) & _).
  unfold load. rewrite Hk, Hhb, Hsaved, <- Hmac, String.eqb_refl. cbn [negb orb].
  rewrite (proj2 (String.eqb_neq _ _)) by done. rewrite (proj2 (Z.ltb_ge _ _)) by done. cbn [orb].
  rewrite Hd', Hf, Hu. cbn [matched rd_Head rd_Records]. rewrite Hm. cbn [negb orb].
  destruct tail; cbn [negb andb].
  - rewrite Hj'. unfold next_journal. by rewrite HP, HC.
  - rewrite Hj'. cbn [Head next_journal Sequence]. rewrite wrap64_id by lia.
    destruct (Z.eqb_spec (Sequence (Head j) + 1) (Sequence saved)); [lia|]. done.
Qed.

End append.

(** A full record: the scanner cannot hold it and its line break. *)
Lemma full_record_unreadable s path keyPath checkpoint j a nonce r j' s' :
  distinct path keyPath checkpoint -> Load s path keyPath checkpoint = Ok j ->
  append_intent s j a nonce = Ok (r, j', s') -> size (next_line j a nonce) = record_limit ->
  is_ok (Load (writeHead s' j') path keyPath checkpoint) = false.
Proof.
  intros (D1 & D2 & D3) Hload Hap Hsz. destruct (Load (writeHead s' j') path keyPath checkpoint) as [j2|] eqn:E; [|done]. exfalso.
  destruct (load_inv _ _ _ _ _ _ Hload) as (key & hb & saved & d & st & _ & _ & _ & _ & _ & _ & Hd & _ & Hu & _ & _ & -> & _).
  apply append_intent_inv in Hap as (_ & _ & _ & -> & d0 & Hd0 & Hcap & ->). cbn [Path] in *.
  rewrite Hd in Hd0. injection Hd0 as <-.
  destruct (load_inv _ _ _ _ _ _ E) as (key2 & hb2 & saved2 & d2 & st2 & _ & _ & _ & _ & _ & _ & Hd2 & Hf2 & _).
  unfold writeHead in Hd2. cbn [Checkpoint next_journal] in Hd2. rewrite private_other, private_written in Hd2 by (done || (rewrite size_line; lia)).
  injection Hd2 as <-. rewrite lines_app, lines_line, foldM_app in Hf2 by (done || apply marshal_line).
  destruct (foldM _ (lines d) _) as [st1|] in Hf2; [|done]. cbn [foldM] in Hf2.
  destruct (load_line key2 saved2 st1 _) as [st3|] eqn:L in Hf2; [|done]. apply load_line_inv in L as [Hlt _]. lia.
Qed.

(** C25. An appended decision is read back: the journal loaded afterwards is the
    one the append left in memory, the new record last. Only a record of exactly
    two MiB, which the append accepts, makes the journal unreadable. *)
Theorem Append_Load s path keyPath checkpoint j a nonce r j' s' :
  distinct path keyPath checkpoint -> Load s path keyPath checkpoint = Ok j -> length nonce = 12 ->
  Append s j a nonce = Ok (r, j', s') -> (size (head_bytes j') <= file_limit)%Z ->
  (size (next_line j a nonce) <> record_limit -> Load s' path keyPath checkpoint = Ok j' /\ Records j' = Records j ++ [r]) /\
  (size (next_line j a nonce) = record_limit -> is_ok (Load s' path keyPath checkpoint) = false).
Proof.
  unfold Append. intros Hdis Hload Hn Hap Hhb.
  destruct (append_intent s j a nonce) as [[[r0 j0] s0]|] eqn:E; [|done]. injection Hap as <- <- <-. split; intros Hsz.
  - split; [by eapply append_loads|]. apply append_intent_inv in E as (_ & _ & -> & -> & _). done.
  - by eapply full_record_unreadable.
Qed.

(** An append interrupted before the checkpoint is written is detected and
    nothing is lost: loading refuses the journal, and recovering the checkpoint
    yields exactly the state the append would have left. *)
Theorem Append_interrupted s path keyPath checkpoint j a nonce r j' s' :
  distinct path keyPath checkpoint -> Load s path keyPath checkpoint = Ok j -> length nonce = 12 ->
  size (next_line j a nonce) <> record_limit -> append_intent s j a nonce = Ok (r, j', s') ->
  Load s' path keyPath checkpoint = Err "journal is truncated or does not match the trusted checkpoint" /\
  RecoverCheckpoint s' path keyPath checkpoint = Ok (j', writeHead s' j') /\
  Append s j a nonce = Ok (r, j', writeHead s' j').
Proof.
  intros Hdis Hload Hn Hsz Hap. split_and!.
  - by apply (interrupted_load _ _ _ _ _ _ _ _ _ _ Hdis Hload Hn Hsz Hap false).
  - unfold RecoverCheckpoint. by rewrite (interrupted_load _ _ _ _ _ _ _ _ _ _ Hdis Hload Hn Hsz Hap true).
  - unfold Append. by rewrite Hap.
Qed.

(** * Cut and replaced files *)

(** A journal cut short is refused, whatever is left of it: with the same key
    and checkpoint, no proper prefix of an accepted file is accepted. *)
Theorem Load_truncated s path keyPath checkpoint j d rest :
  distinct path keyPath checkpoint -> Load s path keyPath checkpoint = Ok j ->
  privateFile s path = Ok (d ++ rest) -> rest <> [] ->
  is_ok (Load (<[path := mkFile true true d]> s) path keyPath checkpoint) = false.
Proof.
  intros (D1 & D2 & D3) Hload Hd Hrest.
  destruct (Load (<[path := mkFile true true d]> s) path keyPath checkpoint) as [j2|] eqn:E; [|done]. exfalso.
  destruct (load_inv _ _ _ _ _ _ Hload) as (key & hb & saved & d1 & st & Hkey & Hhb & Hsaved & _ & _ & _ & Hd1 & _ & _ & _ & Hend & _ & Hio).
  destruct (load_inv _ _ _ _ _ _ E) as (key2 & hb2 & saved2 & d2 & st2 & Hkey2 & Hhb2 & Hsaved2 & _ & _ & _ & Hd2 & _ & Hu2 & _ & Hend2 & _ & Hio2).
  rewrite private_other in Hhb2 by done. rewrite Hhb in Hhb2. injection Hhb2 as <-. rewrite Hsaved in Hsaved2. injection Hsaved2 as <-.
  rewrite Hd in Hd1. injection Hd1 as <-.
  assert (d2 = d) as ->.
  { unfold privateFile in Hd2. rewrite lookup_insert_eq in Hd2. cbn in Hd2. destruct (_ <? _)%Z; [done|]. by injection Hd2. }
  destruct (Hend eq_refl) as [S1 _], (Hend2 eq_refl) as [S2 _].
  rewrite (io_sequence _ _ _ Hio) in S1. rewrite (io_sequence _ _ _ Hio2) in S2.
  rewrite (lines_app d rest Hu2), length_app in S1. pose proof (lines_nil rest Hrest).
  destruct (lines rest); [done|]. simpl in S1. lia.
Qed.

(** Two distinct texts with the same digest. *)
Definition collision : Prop := exists x y, x <> y /\ sha256 x = sha256 y.
(** One ciphertext that opens under two different associated texts. *)
Definition forgery (key : bytes) : Prop :=
  exists n c ad ad' p p', ad <> ad' /\ gcm_open key n c ad = Some p /\ gcm_open key n c ad' = Some p'.

Lemma associated_inj h h' : InstanceID h = InstanceID h' -> associated h = associated h' -> Hash h = Hash h'.
Proof.
  unfold associated. intros Hi Ha. apply chars_inj in Ha. rewrite Hi in Ha. apply (f_equal chars) in Ha.
  rewrite !chars_app in Ha. simpl in Ha. apply app_inv_head in Ha. injection Ha as Ha. by apply chars_inj.
Qed.

Lemma fold_commits key saved ls : forall ls' st st',
  (Z.of_nat (length ls) < 2 ^ 63)%Z -> (Z.of_nat (length ls') < 2 ^ 63)%Z ->
  foldM (load_line key saved) ls (reading0 saved) = Ok st -> foldM (load_line key saved) ls' (reading0 saved) = Ok st' ->
  Sequence (rd_Head st) = Sequence (rd_Head st') -> Hash (rd_Head st) = Hash (rd_Head st') ->
  rd_Records st = rd_Records st' \/ collision \/ forgery key.
Proof.
  induction ls as [|l ls IH] using rev_ind; intros ls' st st' Hb Hb' Hf Hf' Hseq Hhash.
  - pose proof (load_lines_in_order _ _ _ _ Hb Hf) as Hio. pose proof (load_lines_in_order _ _ _ _ Hb' Hf') as Hio'.
    rewrite (io_sequence _ _ _ Hio), (io_sequence _ _ _ Hio') in Hseq. destruct ls'; [|simpl in Hseq; lia].
    left. congruence.
  - pose proof (load_lines_in_order _ _ _ _ Hb Hf) as Hio. pose proof (load_lines_in_order _ _ _ _ Hb' Hf') as Hio'.
    rewrite (io_sequence _ _ _ Hio), (io_sequence _ _ _ Hio'), length_app in Hseq. cbn [length] in Hseq.
    destruct ls' as [|l2 ls2 _] using rev_ind; [simpl in Hseq; lia|].
    rewrite length_app in Hb, Hb', Hseq. cbn [length] in Hb, Hb', Hseq. rewrite foldM_app in Hf, Hf'.
    destruct (foldM (load_line key saved) ls (reading0 saved)) as [st1|] eqn:F1; [|done].
    destruct (foldM (load_line key saved) ls2 (reading0 saved)) as [st2|] eqn:F2; [|done].
    pose proof (load_lines_in_order key saved ls st1 ltac:(lia) F1) as Hio1.
    pose proof (load_lines_in_order key saved ls2 st2 ltac:(lia) F2) as Hio2.
    cbn [foldM] in Hf, Hf'. destruct (load_line key saved st1 l) as [st1'|] eqn:L1; [|done].
    destruct (load_line key saved st2 l2) as [st2'|] eqn:L2; [|done]. injection Hf as ->. injection Hf' as ->.
    apply load_line_inv in L1 as (_ & e & p & b & He & _ & Ho & Hb1 & _ & _ & Hprev & _ & ->).
    apply load_line_inv in L2 as (_ & e2 & p2 & b2 & He2 & _ & Ho2 & Hb2 & _ & _ & Hprev2 & _ & ->).
    cbn [rd_Head rd_Records Hash] in *. apply hex_inj in Hhash.
    destruct (decide (drop_cr l = drop_cr l2)) as [El|Nl]; [|right; left; by exists (drop_cr l), (drop_cr l2)].
    rewrite <- El, He in He2. injection He2 as <-.
    destruct (decide (associated (rd_Head st1) = associated (rd_Head st2))) as [Ea|Na];
      [|right; right; by exists (Nonce e), (Ciphertext e), (associated (rd_Head st1)), (associated (rd_Head st2)), p, p2].
    rewrite <- Ea, Ho in Ho2. injection Ho2 as <-. rewrite Hb1 in Hb2. injection Hb2 as <-.
    apply associated_inj in Ea; [|by rewrite (io_instance _ _ _ Hio1), (io_instance _ _ _ Hio2)].
    destruct (IH ls2 st1 st2) as [->|?]; [lia|lia|done|done| |done|by left; rewrite El|by right].
    rewrite (io_sequence _ _ _ Hio1), (io_sequence _ _ _ Hio2). lia.
Qed.

(** C28. The checkpoint commits to the whole journal: two files accepted with the
    same key and checkpoint hold the same decisions in the same order, unless
    SHA-256 has a collision or one ciphertext opens under two associated texts. *)
Theorem Load_commits s1 s2 path keyPath checkpoint j1 j2 :
  privateFile s1 keyPath = privateFile s2 keyPath -> privateFile s1 checkpoint = privateFile s2 checkpoint ->
  Load s1 path keyPath checkpoint = Ok j1 -> Load s2 path keyPath checkpoint = Ok j2 ->
  Records j1 = Records j2 \/ collision \/ forgery (Key j1).
Proof.
  intros Hk Hc H1 H2.
  destruct (load_inv _ _ _ _ _ _ H1) as (key & hb & saved & d1 & st & Hkey & Hhb & Hsaved & _ & _ & _ & Hd1 & Hf & _ & _ & Hend & -> & _).
  destruct (load_inv _ _ _ _ _ _ H2) as (key2 & hb2 & saved2 & d2 & st2 & Hkey2 & Hhb2 & Hsaved2 & _ & _ & _ & Hd2 & Hf2 & _ & _ & Hend2 & -> & _).
  unfold keyFile in Hkey, Hkey2. rewrite Hk in Hkey. rewrite Hkey in Hkey2. injection Hkey2 as <-.
  rewrite Hc, Hhb2 in Hhb. injection Hhb as ->. rewrite Hsaved in Hsaved2. injection Hsaved2 as <-.
  destruct (Hend eq_refl) as [S1 S2], (Hend2 eq_refl) as [S3 S4]. cbn [Records Key].
  apply (fold_commits key saved (lines d1) (lines d2)); [..|done|done|congruence|congruence].
  - pose proof (lines_bound _ _ _ Hd1). unfold file_limit in *. lia.
  - pose proof (lines_bound _ _ _ Hd2). unfold file_limit in *. lia.
Qed.

End props.
End JournalProps.
