(* ===== verification/JournalDemo.v ===== *)
(** A journal that runs: a codec and stand-ins for the cryptography that satisfy
    the interfaces' laws, an initialised journal, and the journal theorems
    applied to it. *)
From S2P Require Import Prelude Utf8 Journal JournalProps.
Open Scope nat_scope.

Module JournalDemo.
Import Journal JournalProps.

(** * A codec: fields of text, each ended by [;] *)

Definition reserved (c : ascii) : option ascii :=
  if Ascii.eqb c newline then Some "n"%char else if Ascii.eqb c carriage then Some "r"%char
  else if Ascii.eqb c "\"%char then Some "b"%char else if Ascii.eqb c ";"%char then Some "s"%char else None.
Definition unreserved (c : ascii) : ascii :=
  if Ascii.eqb c "n"%char then newline else if Ascii.eqb c "r"%char then carriage
  else if Ascii.eqb c "b"%char then "\"%char else ";"%char.
Definition esc (c : ascii) : bytes := match reserved c with Some d => ["\"%char; d] | None => [c] end.

Definition enc (l : list string) : bytes := concat (map (fun s => concat (map esc (chars s)) ++ [";"%char]) l).
(** [cur] is the field so far, backwards. *)
Fixpoint dec (cur : bytes) (l : bytes) : option (list string) :=
  match l with
  | [] => match cur with [] => Some [] | _ => None end
  | c :: l =>
      if Ascii.eqb c ";"%char then option_map (cons (of_chars (rev cur))) (dec [] l)
      else if Ascii.eqb c "\"%char then match l with d :: l => dec (unreserved d :: cur) l | [] => None end
      else if Ascii.eqb c newline then match cur, l with [], [] => Some [] | _, _ => None end
      else dec (c :: cur) l
  end.

Lemma esc_cases c :
  (exists d, esc c = ["\"%char; d] /\ unreserved d = c /\ d <> newline /\ d <> carriage) \/
  (esc c = [c] /\ Ascii.eqb c ";"%char = false /\ Ascii.eqb c "\"%char = false /\ Ascii.eqb c newline = false /\ Ascii.eqb c carriage = false).
Proof.
  unfold esc, reserved. destruct (Ascii.eqb_spec c newline) as [->|]; [left; by eexists|].
  destruct (Ascii.eqb_spec c carriage) as [->|]; [left; by eexists|]. destruct (Ascii.eqb_spec c "\"%char) as [->|]; [left; by eexists|].
  destruct (Ascii.eqb_spec c ";"%char) as [->|]; [left; by eexists|]. by right.
Qed.

Lemma dec_field s : forall cur l, dec cur (concat (map esc s) ++ ";"%char :: l) = option_map (cons (of_chars (rev cur ++ s))) (dec [] l).
Proof.
  induction s as [|c s IH]; intros cur l; [cbn; by rewrite app_nil_r|]. cbn [map concat]. rewrite <- app_assoc.
  destruct (esc_cases c) as [(d & -> & Hd & _)|(-> & E1 & E2 & E3 & _)]; cbn [app dec].
  - cbn [Ascii.eqb Bool.eqb]. rewrite Hd, IH. cbn [rev]. by rewrite <- app_assoc.
  - rewrite E1, E2, E3, IH. cbn [rev]. by rewrite <- app_assoc.
Qed.

Lemma dec_enc l tail : dec [] tail = Some [] -> dec [] (enc l ++ tail) = Some l.
Proof.
  intros Ht. induction l as [|s l IH]; [done|]. unfold enc in *. cbn [map concat]. rewrite <- !app_assoc. cbn [app].
  rewrite dec_field. cbn [rev app]. rewrite IH. cbn [option_map]. by rewrite of_chars_chars.
Qed.

Lemma enc_line l : (newline ∉ enc l) /\ (carriage ∉ enc l).
Proof.
  assert (H : forall c, c ∈ enc l -> c <> newline /\ c <> carriage); [|split; intros Hc; by destruct (H _ Hc)].
  unfold enc. induction l as [|s l IH]; [by intros ? ?%elem_of_nil|]. cbn [map concat]. intros c [[Hc|Hc]%elem_of_app|Hc]%elem_of_app; [| |by apply IH].
  - induction (chars s) as [|x xs IHs]; [by apply elem_of_nil in Hc|]. cbn [map concat] in Hc. apply elem_of_app in Hc as [Hc|Hc]; [|by apply IHs].
    destruct (esc_cases x) as [(d & E & _ & H1 & H2)|(E & _ & _ & E1 & E2)]; rewrite E in Hc.
    + apply elem_of_cons in Hc as [->|Hc]; [by split|]. by apply list_elem_of_singleton in Hc as ->.
    + apply list_elem_of_singleton in Hc as ->. split; by apply Ascii.eqb_neq.
  - apply list_elem_of_singleton in Hc as ->. by split.
Qed.

(** Values as text: strings as they are, lists of strings by the encoding above,
    other countable values by their number in binary. *)
Class Texted (A : Type) := { text : A -> string; untext : string -> option A; untext_text a : untext (text a) = Some a }.
#[export] Instance texted_string : Texted string | 0.
Proof. by refine {| text s := s; untext := Some |}. Defined.
#[export] Instance texted_strings : Texted (list string) | 0.
Proof.
  refine {| text l := of_chars (enc l); untext s := dec [] (chars s) |}.
  intros l. rewrite chars_of_chars, <- (app_nil_r (enc l)). by apply dec_enc.
Defined.
Fixpoint bits (p : positive) : bytes :=
  match p with xO p => "0"%char :: bits p | xI p => "1"%char :: bits p | xH => [] end.
Fixpoint unbits (l : bytes) : positive :=
  match l with [] => xH | c :: l => if Ascii.eqb c "0"%char then xO (unbits l) else xI (unbits l) end.
Lemma unbits_bits p : unbits (bits p) = p.
Proof. induction p as [p IH|p IH|]; cbn; by rewrite ?IH. Qed.
#[export] Instance texted_countable A `{Countable A} : Texted A | 10.
Proof.
  refine {| text a := of_chars (bits (encode a)); untext s := decode (unbits (chars s)) |}.
  intros a. by rewrite chars_of_chars, unbits_bits, decode_encode.
Defined.

(** Field lists of a record, and back. *)
Class Fielded (A : Type) := {
  to_fields : A -> list string;
  of_fields : list string -> option A;
  of_to_fields a : of_fields (to_fields a) = Some a
}.

Definition read_fields {A} `{Fielded A} (b : bytes) : result string A :=
  match dec [] b with
  | Some l => match of_fields l with Some a => Ok a | None => Err "invalid structured lifecycle data" end
  | None => Err "invalid structured lifecycle data"
  end.

#[export] Instance codec_fields A `{Fielded A} : Codec A.
Proof.
  refine {| marshal a := enc (to_fields a); unmarshal := read_fields |}.
  - intros a. unfold read_fields. rewrite <- (app_nil_r (enc _)), dec_enc by done. by rewrite of_to_fields.
  - intros a. unfold read_fields. rewrite dec_enc by done. by rewrite of_to_fields.
  - intros a. apply enc_line.
Defined.

#[export] Instance head_fields : Fielded Head_.
Proof.
  refine {| to_fields h := [text (InstanceID h); text (Sequence h); text (Hash h); text (MAC h)];
            of_fields l := match l with
              | [a; b; c; d] =>
                  match untext a, untext b, untext c, untext d with
                  | Some a, Some b, Some c, Some d => Some (mkHead a b c d) | _, _, _, _ => None end
              | _ => None end |}.
  intros []. cbn [InstanceID Sequence Hash MAC]. by rewrite !untext_text.
Defined.

#[export] Instance envelope_fields : Fielded envelope.
Proof.
  refine {| to_fields e := [text (of_chars (Nonce e)); text (of_chars (Ciphertext e))];
            of_fields l := match l with
              | [a; b] => match untext a, untext b with
                  | Some a, Some b => Some (mkEnvelope (chars a) (chars b)) | _, _ => None end
              | _ => None end |}.
  intros []. cbn [Nonce Ciphertext]. by rewrite !untext_text, !chars_of_chars.
Defined.

#[export] Instance body_fields : Fielded Body.
Proof.
  refine {| to_fields b := let a := r_Action b in
              [text (r_InstanceID b); text (r_Sequence b); text (Previous b);
               text [Kind a; CaseRef a; WorkspaceID a; TargetID a; ReplacementID a; AuthorityRef a; ReviewAt a; Cutoff a;
                       Correction a; At a; a_InstanceID a; WorkspaceOrigin a];
               text (EventSeq a); text (ItemIDs a); text (CommentIDs a); text (ViewIDs a)];
            of_fields l := match l with
              | [a; b; c; d; e; f; g; h] =>
                  match untext a, untext b, untext c, untext d, untext e with
                  | Some a, Some b, Some c, Some [k; cr; w; t; rp; au; rv; cu; co; at_; i; wo], Some e =>
                      match untext f, untext g, untext h with
                      | Some f, Some g, Some h => Some (mkBody a b c (mkAction k cr w t rp au rv cu co e at_ i wo f g h))
                      | _, _, _ => None
                      end
                  | _, _, _, _, _ => None
                  end
              | _ => None end |}.
  intros [i s p []].
  cbn [r_InstanceID r_Sequence Previous r_Action Kind CaseRef WorkspaceID TargetID ReplacementID AuthorityRef ReviewAt Cutoff
    Correction EventSeq At a_InstanceID WorkspaceOrigin ItemIDs CommentIDs ViewIDs].
  by rewrite !untext_text.
Defined.

(** * Stand-ins for the cryptography *)

Definition checksum (b : bytes) : bytes :=
  [Ascii.ascii_of_N (fold_left (fun n c => (7 * n + Ascii.N_of_ascii c) mod 251) b 1)%N].

#[export] Instance demo_crypto : Crypto.
Proof.
  refine {| sha256 := checksum; hmac_sha256 k m := checksum (k ++ m); gcm_seal k n p ad := ad ++ p;
            gcm_open k n c ad := if decide (take (length ad) c = ad) then Some (drop (length ad) c) else None |}.
  intros k n p ad _ _. rewrite take_app_length, decide_True by done. by rewrite drop_app_length.
Defined.

(** * A journal of two decisions *)

Definition demo_key : bytes := repeat "k"%char 32.
Definition nonce1 : bytes := repeat "n"%char 12.
Definition action1 : Action := mkAction "hold" "C-1" "w" "t" "" "" "" "" "" 0 "2026" "inst" "" [] [] [].
Definition action2 : Action := mkAction "release" "C-2" "w" "t" "" "" "" "" "" 7 "2026" "inst" "" ["i1"] [] [].

Definition got {A} (d : A) (r : result string A) : A := match r with Ok a => a | Err _ => d end.
Lemma got_ok {A} (d : A) r : is_ok r = true -> r = Ok (got d r).
Proof. by destruct r. Qed.

Definition no_journal : Journal_ := mkJournal "" "" [] (mkHead "" 0 "" "") [].
Definition no_record : Record_ := mkRecord (mkBody "" 0 "" action1) "".
Definition state0 : Journal_ * fs := got (no_journal, ∅) (Init ∅ "j" "k" "c" "v" "inst" demo_key).
Definition appended1 : Record_ * Journal_ * fs := got (no_record, no_journal, ∅) (Append state0.2 state0.1 action1 nonce1).
Definition j1 : Journal_ := appended1.1.2.
Definition s1 : fs := appended1.2.
Definition intent2 : Record_ * Journal_ * fs := got (no_record, no_journal, ∅) (append_intent s1 j1 action2 nonce1).
Definition appended2 : Record_ * Journal_ * fs := got (no_record, no_journal, ∅) (Append s1 j1 action2 nonce1).

Lemma triple {A B C} (x : A * B * C) : x = (x.1.1, x.1.2, x.2).
Proof. by destruct x as [[]]. Qed.
Lemma intent2_ok : append_intent s1 j1 action2 nonce1 = Ok (intent2.1.1, intent2.1.2, intent2.2).
Proof. rewrite <- triple. apply got_ok. vm_compute. reflexivity. Qed.
Lemma appended2_ok : Append s1 j1 action2 nonce1 = Ok (appended2.1.1, appended2.1.2, appended2.2).
Proof. rewrite <- triple. apply got_ok. vm_compute. reflexivity. Qed.
Lemma j1_loads : Load s1 "j" "k" "c" = Ok j1.
Proof. vm_compute. reflexivity. Qed.
Lemma names : distinct "j" "k" "c".
Proof. by split_and!. Qed.
Lemma line2_short : size (next_line j1 action2 nonce1) <> record_limit.
Proof. vm_compute. discriminate. Qed.

(** * The theorems at that journal *)

Lemma Append_Load_witness :
  Load appended2.2 "j" "k" "c" = Ok appended2.1.2 /\ Records appended2.1.2 = Records j1 ++ [appended2.1.1].
Proof.
  pose proof (Append_Load s1 "j" "k" "c" j1 action2 nonce1 appended2.1.1 appended2.1.2 appended2.2 names j1_loads eq_refl appended2_ok) as H.
  destruct H as [H _]; [vm_compute; discriminate|]. exact (H line2_short).
Defined.

Lemma Append_interrupted_witness :
  Load intent2.2 "j" "k" "c" = Err "journal is truncated or does not match the trusted checkpoint" /\
  RecoverCheckpoint intent2.2 "j" "k" "c" = Ok (intent2.1.2, writeHead intent2.2 intent2.1.2) /\
  Append s1 j1 action2 nonce1 = Ok (intent2.1.1, intent2.1.2, writeHead intent2.2 intent2.1.2).
Proof.
  pose proof (Append_interrupted s1 "j" "k" "c" j1 action2 nonce1 intent2.1.1 intent2.1.2 intent2.2 names j1_loads eq_refl line2_short) as H.
  exact (H intent2_ok).
Defined.

Definition file_of (s : fs) (p : string) : bytes := match s !! p with Some f => data f | None => [] end.

Lemma Load_truncated_witness : is_ok (Load (<["j" := mkFile true true []]> s1) "j" "k" "c") = false.
Proof.
  pose proof (Load_truncated s1 "j" "k" "c" j1 [] (file_of s1 "j") names j1_loads) as H. apply H.
  - vm_compute. reflexivity.
  - vm_compute. discriminate.
Defined.

(** The same decisions in another file: the line ended by a carriage return. *)
Definition s1_cr : fs := <["j" := mkFile true true (removelast (file_of s1 "j") ++ [carriage; newline])]> s1.

Lemma Load_commits_witness : Records j1 = Records (got no_journal (Load s1_cr "j" "k" "c")) \/ collision \/ forgery (Key j1).
Proof.
  pose proof (Load_commits s1 s1_cr "j" "k" "c" j1 (got no_journal (Load s1_cr "j" "k" "c"))) as H. apply H.
  - vm_compute. reflexivity.
  - vm_compute. reflexivity.
  - exact j1_loads.
  - vm_compute. reflexivity.
Defined.

End JournalDemo.
