(* ===== verification/Guard.v ===== *)
(** The serving process's recovery guard, [internal/lifecycle/database.go]: before
    every request the authenticated checkpoint is compared with the database's
    head, through a cache keyed by the files' metadata. *)
From S2P Require Import Prelude Utf8 Journal JournalProps JournalDemo.
Open Scope nat_scope.

Module Guard.
Import Journal.

(** [os.FileInfo] as the guard compares it. *)
Record FileInfo := mkInfo { Inode : Z; Size : Z; ModTime : Z; Mode : Z; IsRegular : bool }.
#[export] Instance FileInfo_eq : EqDecision FileInfo.
Proof. solve_decision. Defined.

(** The two files as [Lstat] and a read see them at one moment. *)
Record snapshot := mkSnapshot { sn_Checkpoint : option (FileInfo * file); sn_Key : option (FileInfo * file) }.

(** [Guard]: the metadata of the last verified read, and the head it found. *)
Record Guard_ := mkGuard { files : option (FileInfo * FileInfo); head : option Head_ }.
Definition NewGuard : Guard_ := mkGuard None None.

Section guard.
Context {CR : Crypto} {CH : Codec Head_}.

Definition unavailable {A} : result string A := Err "lifecycle recovery checkpoint is unavailable".

(** The file system of a snapshot, under the guard's two paths. *)
Definition fs_of (n : snapshot) : fs :=
  (match sn_Checkpoint n with Some (_, f) => <["checkpoint" := f]> | None => id end)
  ((match sn_Key n with Some (_, f) => <["key" := f]> | None => id end) ∅).

(** The read behind the cache. *)
Definition verified_read (n : snapshot) : result string Head_ :=
  let* key := keyFile (fs_of n) "key" in
  let* b := privateFile (fs_of n) "checkpoint" in
  let* h := unmarshal b in
  if String.eqb (InstanceID h) "" || (Sequence h <? 0)%Z || negb (String.eqb (MAC h) (authenticate h key))
  then Err "lifecycle checkpoint authentication failed"
  else Ok h.

(** The metadata checks of the loop, in its order. *)
Definition infos (n : snapshot) : option (FileInfo * FileInfo) :=
  match sn_Checkpoint n, sn_Key n with
  | Some (c, _), Some (k, _) =>
      if negb (IsRegular c) || (4096 <? Size c)%Z then None
      else if negb (IsRegular k) || negb (Size k =? 32)%Z then None
      else Some (c, k)
  | _, _ => None
  end.

Definition checkpoint (g : Guard_) (n : snapshot) : result string Head_ * Guard_ :=
  match infos n with
  | None => (unavailable, g)
  | Some latest =>
      let changed := match head g with None => true | Some _ => negb (bool_decide (files g = Some latest)) end in
      if changed then
        match verified_read n with
        | Err e => (Err e, g)
        | Ok h => (Ok h, mkGuard (Some latest) (Some h))
        end
      else match head g with Some h => (Ok h, g) | None => (unavailable, g) end
  end.

Inductive stage := SCheckpoint | SDatabase | SComparison.

(** [Check]; the database's head is [None] when the query fails. *)
Definition Check_ (g : Guard_) (n : snapshot) (db : option Head_) : result (stage * string) unit * Guard_ :=
  let '(r, g) := checkpoint g n in
  match r with
  | Err e => (Err (SCheckpoint, e), g)
  | Ok expected =>
      match db with
      | None => (Err (SDatabase, "lifecycle database checkpoint is unavailable"), g)
      | Some h =>
          if negb (String.eqb (InstanceID h) (InstanceID expected)) || negb (Sequence h =? Sequence expected)%Z ||
             negb (String.eqb (Hash h) (Hash expected))
          then (Err (SComparison, "lifecycle recovery replay required before application access"), g)
          else (Ok tt, g)
      end
  end.

(** * The cache is transparent *)

(** The guard without its cache. *)
Definition check_uncached (n : snapshot) (db : option Head_) : result (stage * string) unit :=
  (Check_ NewGuard n db).1.

(** A run over successive moments. *)
Fixpoint run (g : Guard_) (l : list (snapshot * option Head_)) : list (result (stage * string) unit) :=
  match l with
  | [] => []
  | (n, db) :: l => let '(r, g) := Check_ g n db in r :: run g l
  end.

(** Files with the same metadata have the same content: what [SameFile], size,
    modification time and mode are taken to promise. *)
Definition faithful (ns : list snapshot) : Prop :=
  forall n n', n ∈ ns -> n' ∈ ns -> infos n = infos n' -> infos n <> None ->
    snd <$> sn_Checkpoint n = snd <$> sn_Checkpoint n' /\ snd <$> sn_Key n = snd <$> sn_Key n'.

Lemma faithful_read ns n n' :
  faithful ns -> n ∈ ns -> n' ∈ ns -> infos n = infos n' -> infos n <> None -> verified_read n = verified_read n'.
Proof.
  intros Hf Hn Hn' E Hne. destruct (Hf n n' Hn Hn' E Hne) as [H1 H2]. unfold verified_read, fs_of.
  destruct (sn_Checkpoint n) as [[i f]|], (sn_Checkpoint n') as [[i' f']|]; simplify_eq/=; try done;
    destruct (sn_Key n) as [[k q]|], (sn_Key n') as [[k' q']|]; simplify_eq/=; done.
Qed.

(** The cached head is what a read found at an earlier moment. *)
Definition cache_ok (seen : list snapshot) (g : Guard_) : Prop :=
  match head g with
  | None => True
  | Some h => exists n, n ∈ seen /\ infos n <> None /\ files g = infos n /\ verified_read n = Ok h
  end.

Lemma checkpoint_uncached seen g n :
  faithful (n :: seen) -> cache_ok seen g ->
  (checkpoint g n).1 = (checkpoint NewGuard n).1 /\ cache_ok (n :: seen) (checkpoint g n).2.
Proof.
  intros Hf Hg. unfold checkpoint. destruct (infos n) as [latest|] eqn:Hi; cbn [fst snd NewGuard head].
  - unfold cache_ok in Hg. destruct (head g) as [h|] eqn:Hh.
    + destruct Hg as (n0 & Hin & Hne & Hfiles & Hr). destruct (bool_decide_reflect (files g = Some latest)) as [E|]; cbn [negb].
      * assert (Hv : verified_read n = Ok h).
        { rewrite <- Hr. apply (faithful_read _ n n0 Hf); [apply list_elem_of_here|by apply list_elem_of_further| |by rewrite Hi].
          by rewrite Hi, <- Hfiles. }
        rewrite Hv. cbn [fst snd]. split; [done|]. unfold cache_ok. rewrite Hh. exists n0. split_and!; [set_solver|done..].
      * destruct (verified_read n) as [h'|e] eqn:Hv; cbn [fst snd]; (split; [done|]); unfold cache_ok; cbn [head files].
        -- exists n. split_and!; [set_solver|by rewrite Hi|done|done].
        -- rewrite Hh. exists n0. split_and!; [set_solver|done..].
    + destruct (verified_read n) as [h'|e] eqn:Hv; cbn [fst snd]; (split; [done|]); unfold cache_ok; cbn [head files].
      * exists n. split_and!; [set_solver|by rewrite Hi|done|done].
      * by rewrite Hh.
  - split; [done|]. unfold cache_ok in *. destruct (head g) as [h|]; [|done].
    destruct Hg as (n0 & ? & ? & ? & ?). exists n0. split_and!; [set_solver|done..].
Qed.

Lemma run_uncached l : forall seen g,
  faithful (reverse (l.*1) ++ seen) -> cache_ok seen g -> run g l = (fun p => check_uncached p.1 p.2) <$> l.
Proof.
  induction l as [|[n db] l IH]; intros seen g Hf Hg; [done|]. cbn [run fmap list_fmap fst snd].
  rewrite fmap_cons, reverse_cons, <- app_assoc in Hf. cbn [fst app] in Hf.
  destruct (checkpoint_uncached seen g n) as [E Hc]; [|done|].
  { intros a b Ha Hb. apply Hf; apply elem_of_app; right; assumption. }
  unfold check_uncached, Check_ in *. destruct (checkpoint g n) as [r g'] eqn:Eg. destruct (checkpoint NewGuard n) as [r' g0].
  cbn [fst snd] in E, Hc. subst r'. specialize (IH (n :: seen) g' Hf Hc).
  destruct r as [h|e]; [|cbn [fst]; by f_equal].
  destruct db as [hd|]; [|cbn [fst]; by f_equal]. destruct (_ || _); cbn [fst]; by f_equal.
Qed.

(** C29. The metadata cache never changes an answer: over any run of requests, as
    long as files with the same metadata have the same content, the guard
    answers each exactly as a guard that reads and authenticates the files
    afresh; so access is granted only when the database's head is the one the
    authenticated checkpoint names at that moment. *)
Theorem Check_uncached l :
  faithful (reverse (l.*1)) -> run NewGuard l = (fun p => check_uncached p.1 p.2) <$> l.
Proof. intros Hf. apply (run_uncached l [] NewGuard); [by rewrite app_nil_r|done]. Qed.

End guard.

(** * A run: no change, a replaced checkpoint, a stale database *)

Import JournalDemo.

Definition guard_key : bytes := repeat "g"%char 32.
Definition sealed (seq : Z) (hash : string) : file :=
  let h := mkHead "inst" seq hash "" in
  mkFile true true (marshal (mkHead "inst" seq hash (authenticate h guard_key))).
Definition key_part : option (FileInfo * file) := Some (mkInfo 1 32 5 384 true, mkFile true true guard_key).
Definition moment1 : snapshot := mkSnapshot (Some (mkInfo 2 100 7 384 true, sealed 1 "aa")) key_part.
Definition moment2 : snapshot := mkSnapshot (Some (mkInfo 2 100 8 384 true, sealed 2 "bb")) key_part.
Definition db_head (seq : Z) (hash : string) : option Head_ := Some (mkHead "inst" seq hash "").
Definition requests : list (snapshot * option Head_) :=
  [(moment1, db_head 1 "aa"); (moment1, db_head 1 "aa"); (moment2, db_head 1 "aa"); (moment2, None); (moment2, db_head 2 "bb")].

Example requests_run :
  run NewGuard requests =
  [Ok tt; Ok tt; Err (SComparison, "lifecycle recovery replay required before application access");
   Err (SDatabase, "lifecycle database checkpoint is unavailable"); Ok tt].
Proof. vm_compute. reflexivity. Qed.

Lemma Check_uncached_witness : run NewGuard requests = (fun p => check_uncached p.1 p.2) <$> requests.
Proof.
  apply (Check_uncached requests). intros n n' Hn Hn' E _. unfold requests in Hn, Hn'. cbn in Hn, Hn'.
  assert (Hm : forall m, m ∈ [moment2; moment2; moment2; moment1; moment1] -> m = moment1 \/ m = moment2).
  { intros m Hm. rewrite !elem_of_cons, elem_of_nil in Hm. tauto. }
  destruct (Hm n Hn) as [->| ->], (Hm n' Hn') as [->| ->]; try (by split); discriminate E.
Defined.

End Guard.
