(* ===== verification/Projection.v ===== *)
(** The API's field authority, [internal/api/projection/registry.go]: the fields a
    request may ask for, the SQL that selects them, and the trimming of a row. *)
From S2P Require Import Prelude Utf8 Float Json.
Open Scope nat_scope.

Module Projection.

(** * The registry *)

Record Field := mkField { Name : string; SQL_ : string; Type_ : string }.

Definition rollup_sql : string := "jsonb_build_object('descendant_count',r.descendant_count,'done_count',r.done_count,'points_total',r.points_total,'points_done',r.points_done,'earliest_start',r.earliest_start,'latest_due',r.latest_due)".
Definition rollup_type : string := "{ descendant_count: number; done_count: number; points_total: number | null; points_done: number | null; earliest_start: string | null; latest_due: string | null }".

Definition Registry : list Field :=
  [mkField "id" "i.id::text" "string"; mkField "key" "i.key" "string"; mkField "title" "i.title" "string";
   mkField "body" "i.body" "string | null"; mkField "version" "i.version" "number"; mkField "change_seq" "i.change_seq" "number";
   mkField "config_version" "i.config_version" "number"; mkField "rank" "i.rank" "string"; mkField "points" "i.points" "number | null";
   mkField "start_date" "i.start_date" "string | null"; mkField "due_date" "i.due_date" "string | null";
   mkField "created_at" "i.created_at" "string"; mkField "updated_at" "i.updated_at" "string";
   mkField "deleted_at" "i.deleted_at" "string | null";
   mkField "status" "jsonb_build_object('key',s.key,'name',s.name,'category',s.category)" "{ key: string; name: string; category: string }";
   mkField "assignee" "CASE WHEN u.id IS NULL THEN NULL ELSE jsonb_build_object('id',u.id,'display_name',u.display_name) END" "{ id: string; display_name: string } | null";
   mkField "type" "jsonb_build_object('key',t.key,'name',t.name,'level',t.level)" "{ key: string; name: string; level: number }";
   mkField "parent" "CASE WHEN par.id IS NULL THEN NULL ELSE jsonb_build_object('key',par.key) END" "{ key: string } | null";
   mkField "project" "jsonb_build_object('key_prefix',p.key_prefix,'name',p.name)" "{ key_prefix: string; name: string }";
   mkField "fields" "i.fields" "Record<string, unknown>";
   mkField "rollup" rollup_sql rollup_type].

Definition leaves : list (string * list string) :=
  [("status", ["key"; "name"; "category"]); ("assignee", ["id"; "display_name"]); ("type", ["key"; "name"; "level"]);
   ("parent", ["key"]); ("project", ["key_prefix"; "name"]);
   ("rollup", ["descendant_count"; "done_count"; "points_total"; "points_done"; "earliest_start"; "latest_due"])].

Definition leaf_names : list string := concat (map (fun kv => map (fun leaf => kv.1 +:+ "." +:+ leaf) kv.2) leaves).

Inductive Policy := Required | Optional | Rejected.
#[export] Instance Policy_eq : EqDecision Policy.
Proof. solve_decision. Defined.

(** * Suggestions *)

(** The runes of a string, an invalid byte being the replacement rune. *)
Fixpoint runes_of (fuel : nat) (l : list ascii) : list (list ascii) :=
  match fuel, l with
  | _, [] | O, _ => []
  | S fuel, _ =>
      match rune_len l with
      | O => map Ascii.ascii_of_nat [239; 191; 189] :: runes_of fuel (drop 1 l)
      | n => take n l :: runes_of fuel (drop n l)
      end
  end.
Definition runes (s : string) : list (list ascii) := runes_of (String.length s) (chars s).

(** One pass over the row: [prev] is the entry above to the left, [lhs] the one
    just written. *)
Fixpoint row_pass (r : list ascii) (y : list (list ascii)) (row : list nat) (prev lhs : nat) : list nat :=
  match y, row with
  | s :: y, old :: row =>
      let v := Nat.min (Nat.min (old + 1) (lhs + 1)) (prev + (if bool_decide (r = s) then 0 else 1)) in
      v :: row_pass r y row old v
  | _, _ => row
  end.
Fixpoint passes (x y : list (list ascii)) (i : nat) (row : list nat) : list nat :=
  match x with
  | [] => row
  | r :: x => match row with
              | prev :: row => passes x y (S i) (S i :: row_pass r y row prev (S i))
              | [] => []
              end
  end.
Definition distance (a b : string) : nat :=
  let y := runes b in
  match last (passes (runes a) y 0 (seq 0 (S (length y)))) with Some d => d | None => 0 end.

Definition nearest (value : string) (valid : list string) : string :=
  match fold_left (fun (best : option (string * nat)) name =>
          let d := distance value name in
          match best with Some (_, score) => if d <? score then Some (name, d) else best | None => Some (name, d) end)
          (sort_strings valid) None with
  | Some (best, _) => best
  | None => ""
  end.

(** * Parsing a request's field list *)

(** [strings.Cut(name, ".")] *)
Fixpoint cut_chars (l : list ascii) : list ascii * option (list ascii) :=
  match l with
  | [] => ([], None)
  | c :: l => if Ascii.eqb c "."%char then ([], Some l) else let '(a, b) := cut_chars l in (c :: a, b)
  end.
Definition cut (name : string) : string * option string :=
  let '(a, b) := cut_chars (chars name) in (of_chars a, of_chars <$> b).
Definition root (name : string) : string := (cut name).1.
Definition dotted (name : string) : bool := match (cut name).2 with Some _ => true | None => false end.

Definition valid_names (custom : list string) : list string :=
  map Name Registry ++ leaf_names ++ map (fun key => "fields." +:+ key) custom.

(** [%q] of text without characters that need escaping. *)
Definition quoted (s : string) : string := String (Ascii.ascii_of_nat 34) (s +:+ String (Ascii.ascii_of_nat 34) "").

(** The loop over the names asked for, each kept once. *)
Fixpoint collect (valid names out : list string) : result string (list string) :=
  match names with
  | [] => Ok out
  | name :: names =>
      let name := trim_space name in
      if negb (mem_str name valid) then Err ("unknown field " +:+ quoted name +:+ "; try " +:+ quoted (nearest name valid))
      else collect valid names (if mem_str name out then out else out ++ [name])
  end.

(** A leaf whose whole object is asked for too is dropped. *)
Definition compact (out : list string) : list string :=
  List.filter (fun name => negb (dotted name && mem_str (root name) out)) out.

Definition Parse (raw : string) (present : bool) (policy : Policy) (custom : list string) : result string (list string) :=
  if bool_decide (policy = Rejected) then
    if present then Err "fields is not supported for this endpoint; remove it" else Ok []
  else if negb present || String.eqb (trim_space raw) "" then
    if bool_decide (policy = Required) then Err "fields is required; choose fields such as key,title,status"
    else if present then Err "fields must not be empty"
    else Ok (map Name Registry)
  else
    let* out := collect (valid_names custom) (str_split ","%char raw) [] in
    Ok (compact out).

(** * The SELECT expression *)

Definition find_field (name : string) : option Field := List.find (fun f => String.eqb (Name f) name) Registry.

Definition custom_prefix : string := "jsonb_build_object('fields',jsonb_build_object(".
Definition custom_part (parameter : string) : string :=
  "jsonb_build_object('fields',jsonb_build_object(" +:+ parameter +:+ "::text,i.fields -> " +:+ parameter +:+ "::text))".

(** [root == "fields" && dotted]: the key of a custom field. *)
Definition custom_leaf (name : string) : option string :=
  if String.eqb (root name) "fields" then (cut name).2 else None.

(** The loop: parts, arguments, roots seen; [None] is the panic for a name that
    was not validated. *)
Fixpoint sql_parts (start : Z) (fields : list string) (parts args seen : list string) : option (list string * list string) :=
  match fields with
  | [] => Some (parts, args)
  | name :: fields =>
      match custom_leaf name with
      | Some leaf =>
          let args := args ++ [leaf] in
          let parameter := "$" +:+ itoa (Z.to_nat (start + Z.of_nat (length args) - 1)) in
          sql_parts start fields (parts ++ [custom_part parameter]) args seen
      | None =>
          if mem_str (root name) seen then sql_parts start fields parts args seen
          else match find_field (root name) with
               | None => None
               | Some f => sql_parts start fields (parts ++ ["jsonb_build_object('" +:+ root name +:+ "'," +:+ SQL_ f +:+ ")"]) args (root name :: seen)
               end
      end
  end.

Definition trim_prefix (s p : string) : string := if has_prefix s p then str_drop (String.length p) s else s.
Definition trim_suffix (s p : string) : string := if has_suffix s p then str_take (String.length s - String.length p) s else s.

(** The custom parts are merged within their object. *)
Definition merge_parts (parts : list string) : list string :=
  let customParts := map (fun part => trim_suffix (trim_prefix part "jsonb_build_object('fields',") ")")
                       (List.filter (fun part => has_prefix part custom_prefix) parts) in
  let normal := List.filter (fun part => negb (has_prefix part custom_prefix)) parts in
  match customParts with
  | [] => normal
  | _ => normal ++ ["jsonb_build_object('fields'," +:+ str_join " || " customParts +:+ ")"]
  end.

Definition SQL (fields : list string) (start : Z) : option (string * list string) :=
  match sql_parts start fields [] [] [] with
  | None => None
  | Some (parts, args) =>
      match merge_parts parts with
      | [] => Some ("'{}'::jsonb", args)
      | normal => Some (str_join " || " normal, args)
      end
  end.

(** * Trimming a row *)

Definition value_of (m : list (string * json)) (k : string) : json := match obj_get k m with Some v => v | None => JNull end.

Definition apply_field (source out : list (string * json)) (name : string) : list (string * json) :=
  match cut name with
  | (root, None) => obj_set root (value_of source root) out
  | (root, Some leaf) =>
      match value_of source root with
      | JNull => obj_set root JNull out
      | JObj obj =>
          let target := match obj_get root out with Some (JObj t) => t | _ => [] end in
          obj_set root (JObj (obj_set leaf (value_of obj leaf) target)) out
      | _ => out
      end
  end.

Definition Apply (source : list (string * json)) (fields : list string) : list (string * json) :=
  fold_left (apply_field source) fields [].

(** * The generated TypeScript *)

Definition nl : string := String (Ascii.ascii_of_nat 10) "".
Definition backquoted (s : string) : string := String (Ascii.ascii_of_nat 96) (s +:+ String (Ascii.ascii_of_nat 96) "").

Definition TypeScript : string :=
  "// Generated by make gen-fields. Do not edit." +:+ nl +:+ "export interface ItemFields {" +:+ nl +:+
  str_join "" (map (fun f => "  " +:+ Name f +:+ ": " +:+ Type_ f +:+ ";" +:+ nl) Registry) +:+
  "}" +:+ nl +:+ "export type FieldName =" +:+ nl +:+
  str_join "" (map (fun n => "  | " +:+ quoted n +:+ nl) (sort_strings (map Name Registry ++ leaf_names))) +:+
  "  | " +:+ backquoted "fields.${string}" +:+ ";" +:+ nl.

(** * Runs *)

Example projection_parse_ex :
  (Parse "key, status.key,status,fields.a,key" true Required ["a"], Parse "titel" true Optional [], Parse "" false Required []) =
  (Ok ["key"; "status"; "fields.a"], Err ("unknown field " +:+ quoted "titel" +:+ "; try " +:+ quoted "title"),
   Err "fields is required; choose fields such as key,title,status").
Proof. vm_compute. reflexivity. Qed.
Example sql_ex :
  SQL ["key"; "fields.a"; "status.key"; "status.name"; "fields.b"] 3 =
  Some ("jsonb_build_object('key',i.key) || jsonb_build_object('status',jsonb_build_object('key',s.key,'name',s.name,'category',s.category)) || jsonb_build_object('fields',jsonb_build_object($3::text,i.fields -> $3::text) || jsonb_build_object($4::text,i.fields -> $4::text))",
        ["a"; "b"]).
Proof. vm_compute. reflexivity. Qed.
Example apply_ex :
  Apply [("status", JObj [("key", JStr "todo"); ("name", JStr "To do")]); ("parent", JNull)] ["status.key"; "parent.key"; "title"] =
  [("status", JObj [("key", JStr "todo")]); ("parent", JNull); ("title", JNull)].
Proof. vm_compute. reflexivity. Qed.

End Projection.
