(* ===== verification/ProjectionProps.v ===== *)
(** What the projection promises: the parsed list asks for exactly the fields
    named, custom names never enter the SQL text, a trimmed row holds the
    requested values and nothing else. *)
From S2P Require Import Prelude Utf8 Float Json Projection.
Open Scope nat_scope.
#[local] Set Warnings "-clear-no-such-hyp".

Module ProjectionProps.
Import Projection.

(** * Parsing *)

Lemma collect_spec valid names : forall out fs,
  collect valid names out = Ok fs -> NoDup out ->
  NoDup fs /\ (forall n, n ∈ fs <-> n ∈ out \/ n ∈ map trim_space names) /\
  (forall n, n ∈ map trim_space names -> n ∈ valid).
Proof.
  induction names as [|name names IH]; intros out fs H Hout; simpl in H.
  - injection H as <-. simpl. split_and!; [done|set_solver|set_solver].
  - destruct (mem_str (trim_space name) valid) eqn:Hv; [|done]. cbn [negb] in H. apply mem_str_spec in Hv.
    destruct (mem_str (trim_space name) out) eqn:Ho.
    + apply mem_str_spec in Ho. destruct (IH out fs H Hout) as (H1 & H2 & H3). split_and!; [done| |].
      * intros n. rewrite H2. simpl. set_solver.
      * intros n. simpl. set_solver.
    + assert (Hni : trim_space name ∉ out) by by intros Hin%mem_str_spec; rewrite Hin in Ho.
      destruct (IH (out ++ [trim_space name]) fs H) as (H1 & H2 & H3).
      { apply NoDup_app. split_and!; [done| |apply NoDup_singleton]. intros x Hx. set_solver. }
      split_and!; [done| |].
      * intros n. rewrite H2. simpl. set_solver.
      * intros n. simpl. set_solver.
Qed.

Lemma compact_spec out n : n ∈ compact out <-> n ∈ out /\ ~ (dotted n = true /\ root n ∈ out).
Proof.
  unfold compact. rewrite <- list_elem_of_In, List.filter_In, list_elem_of_In || rewrite list_elem_of_In, List.filter_In, <- list_elem_of_In.
  rewrite negb_true_iff, andb_false_iff. split.
  - intros [Hn H]. split; [done|]. intros [Hd Hr]. apply mem_str_spec in Hr. destruct H; congruence.
  - intros [Hn H]. split; [done|]. destruct (dotted n); [|by left]. right. destruct (mem_str (root n) out) eqn:E; [|done].
    exfalso. apply H. split; [done|]. by apply mem_str_spec.
Qed.

(** A parsed field list asks for exactly the fields named: no name twice, only
    known names, every name asked for is there itself or through its whole
    object, and no leaf beside its object. *)
Theorem Parse_spec raw policy custom fs :
  policy <> Rejected -> trim_space raw <> "" -> Parse raw true policy custom = Ok fs ->
  NoDup fs /\
  (forall n, n ∈ fs -> n ∈ valid_names custom /\ n ∈ map trim_space (str_split ","%char raw) /\ ~ (dotted n = true /\ root n ∈ fs)) /\
  (forall n, n ∈ map trim_space (str_split ","%char raw) -> n ∈ fs \/ dotted n = true /\ root n ∈ map trim_space (str_split ","%char raw)).
Proof.
  intros Hp Hr. unfold Parse. rewrite bool_decide_eq_false_2 by done. cbn [negb orb].
  rewrite (proj2 (String.eqb_neq _ _) Hr). destruct (collect _ _ []) as [out|] eqn:E; [|done]. intros [= <-].
  destruct (collect_spec _ _ _ _ E (NoDup_nil_2)) as (H1 & H2 & H3).
  assert (Hin : forall n, n ∈ out <-> n ∈ map trim_space (str_split ","%char raw)) by (intros n; rewrite H2; set_solver).
  split_and!.
  - unfold compact. by apply NoDup_ListNoDup, List.NoDup_filter, NoDup_ListNoDup.
  - intros n [Hn Hnot]%compact_spec. apply Hin in Hn. split_and!; [auto|done|].
    intros [Hd Hrt]. apply compact_spec in Hrt as [Hrt _]. by apply Hnot.
  - intros n Hn. destruct (decide (dotted n = true /\ root n ∈ out)) as [[Hd Hrt]|Hnot].
    + right. split; [done|]. by apply Hin.
    + left. apply compact_spec. split; [by apply Hin|done].
Qed.

Lemma Parse_spec_witness :
  NoDup ["key"; "status"; "fields.a"] /\ "status.key" ∉ ["key"; "status"; "fields.a"].
Proof.
  pose proof (Parse_spec "key, status.key,status,fields.a,key" Required ["a"] ["key"; "status"; "fields.a"]) as H.
  destruct H as (H1 & H2 & _); [discriminate|vm_compute; discriminate|vm_compute; reflexivity|].
  split; [exact H1|]. intros Hin. destruct (H2 _ Hin) as (_ & _ & Hn). apply Hn. split; [reflexivity|].
  apply mem_str_spec. reflexivity.
Defined.

(** * The SQL text *)

(** A name with the custom field's key hidden. *)
Definition hide (name : string) : string :=
  match custom_leaf name with Some _ => "fields.x" | None => name end.

Lemma sql_parts_hide start fields : forall parts args args' seen ps out,
  length args = length args' -> sql_parts start fields parts args seen = Some (ps, out) ->
  out = args ++ omap custom_leaf fields /\ exists out', sql_parts start (map hide fields) parts args' seen = Some (ps, out').
Proof.
  induction fields as [|name fields IH]; intros parts args args' seen ps out Hl H; cbn [sql_parts map omap list_omap] in *.
  - injection H as <- <-. rewrite app_nil_r. split; [done|by eexists].
  - destruct (custom_leaf name) as [leaf|] eqn:Hc.
    + assert (hide name = "fields.x") as -> by (unfold hide; by rewrite Hc).
      change (custom_leaf "fields.x") with (Some "x"). cbn iota.
      assert (Hl' : length (args ++ [leaf]) = length (args' ++ ["x"])) by (rewrite !length_app; simpl; lia).
      destruct (IH _ _ _ _ _ _ Hl' H) as [-> H2]. rewrite <- app_assoc. split; [done|]. by rewrite <- Hl'.
    + assert (hide name = name) as -> by (unfold hide; by rewrite Hc). rewrite Hc. destruct (mem_str (root name) seen); [by apply IH|]. destruct (find_field (root name)); [|done]. by apply IH.
Qed.

(** Custom field names are bound, never interpolated: the arguments are exactly
    the custom names asked for, in order, and the SQL text is the same when
    each of them is replaced by another. *)
Theorem SQL_custom_bound fields start text args :
  SQL fields start = Some (text, args) ->
  args = omap custom_leaf fields /\ exists args', SQL (map hide fields) start = Some (text, args').
Proof.
  unfold SQL. destruct (sql_parts start fields [] [] []) as [[ps out]|] eqn:E; [|done].
  destruct (sql_parts_hide _ _ _ _ [] _ _ _ eq_refl E) as [-> [out' ->]].
  destruct (merge_parts ps); intros [= <- <-]; (split; [done|by eexists]).
Qed.

Definition hostile : list string := ["key"; "fields.a'); DROP TABLE item; --"; "status.key"].

Lemma SQL_custom_bound_witness :
  exists text, SQL hostile 3 = Some (text, ["a'); DROP TABLE item; --"]) /\ exists args', SQL (map hide hostile) 3 = Some (text, args').
Proof.
  eexists. split; [vm_compute; reflexivity|].
  eapply (SQL_custom_bound hostile 3). vm_compute. reflexivity.
Defined.

(** * Trimming *)

(** The value a name denotes in an object: null when it is not there. *)
Definition path (m : list (string * json)) (name : string) : json :=
  match cut name with
  | (root, None) => value_of m root
  | (root, Some leaf) => match value_of m root with JObj o => value_of o leaf | _ => JNull end
  end.

(** * The projection of parsed fields *)

(** A name [SQL] does not panic on. *)
Definition known (name : string) : bool :=
  match custom_leaf name with Some _ => true | None => match find_field (root name) with Some _ => true | None => false end end.

Lemma valid_known custom n : n ∈ valid_names custom -> known n = true.
Proof.
  assert (Hfix : forallb known (map Name Registry ++ leaf_names) = true) by (vm_compute; reflexivity). rewrite forallb_forall in Hfix.
  unfold valid_names. rewrite app_assoc. intros [H|H]%elem_of_app; [by apply Hfix, list_elem_of_In|].
  apply list_elem_of_In, in_map_iff in H as (k & <- & _). unfold known, custom_leaf, root, cut. by rewrite chars_app.
Qed.

Lemma parse_known raw present policy custom fs : Parse raw present policy custom = Ok fs -> forall n, n ∈ fs -> known n = true.
Proof.
  unfold Parse. destruct (bool_decide (policy = Rejected)); [destruct present; [done|]; intros E; injection E as <-; by intros n ?%elem_of_nil|].
  destruct (_ || _).
  - destruct (bool_decide _); [done|]. destruct present; [done|]. intros E. injection E as <-. intros n Hn.
    apply (valid_known custom). unfold valid_names. apply elem_of_app. by left.
  - destruct (collect _ _ _) as [out|] eqn:E; [|done]. intros E2. injection E2 as <-. intros n [Hn _]%compact_spec.
    apply collect_spec in E as (_ & H1 & H2); [|constructor]. apply H1 in Hn as [Hn|Hn]; [by apply elem_of_nil in Hn|].
    by apply (valid_known custom), H2.
Qed.

Lemma sql_parts_total start fields : forall parts args seen,
  (forall n, n ∈ fields -> known n = true) -> is_Some (sql_parts start fields parts args seen).
Proof.
  induction fields as [|n fields IH]; intros parts args seen H; [by eexists|]. cbn [sql_parts].
  assert (Hn := H n ltac:(apply list_elem_of_here)). assert (Hrest : forall m, m ∈ fields -> known m = true) by (intros m Hm; by apply H, list_elem_of_further).
  unfold known in Hn. destruct (custom_leaf n); [by apply IH|]. destruct (mem_str _ _); [by apply IH|]. destruct (find_field _); [by apply IH|done].
Qed.

(** A validated projection never panics. *)
Lemma SQL_total raw present policy custom fs start : Parse raw present policy custom = Ok fs -> is_Some (SQL fs start).
Proof.
  intros H. unfold SQL. destruct (sql_parts_total start fs [] [] [] (parse_known _ _ _ _ _ H)) as [[parts args] ->].
  destruct (merge_parts parts); by eexists.
Qed.

Lemma value_of_set k k' v m : value_of (obj_set k v m) k' = if String.eqb k' k then v else value_of m k'.
Proof. unfold value_of. rewrite obj_get_set. by destruct (String.eqb k' k). Qed.

Lemma root_cut name : cut name = (root name, (cut name).2).
Proof. unfold root. by destruct (cut name). Qed.

(** No leaf beside its object: what [Parse] guarantees. *)
Definition separated (fields : list string) : Prop :=
  forall n m, n ∈ fields -> m ∈ fields -> dotted n = true -> dotted m = false -> root n <> root m.

(** What a root may hold while leaves of it are collected. *)
Definition leaves_ok (source out : list (string * json)) (r : string) : Prop :=
  match value_of source r with
  | JObj o => obj_get r out = None \/ exists t, obj_get r out = Some (JObj t) /\ forall leaf, is_Some (obj_get leaf t) -> value_of t leaf = value_of o leaf
  | JNull => obj_get r out = None \/ obj_get r out = Some JNull
  | _ => obj_get r out = None
  end.

Definition so_far (source : list (string * json)) (done_ fields : list string) (out : list (string * json)) : Prop :=
  (forall n, n ∈ done_ -> path out n = path source n) /\
  (forall n, n ∈ fields -> dotted n = true -> leaves_ok source out (root n)) /\
  (forall r, is_Some (obj_get r out) -> exists n, n ∈ done_ /\ root n = r).

Lemma apply_field_whole source fields done_ out n :
  separated fields -> n ∈ fields -> (forall m, m ∈ done_ -> m ∈ fields) -> dotted n = false ->
  so_far source done_ fields out -> so_far source (done_ ++ [n]) fields (apply_field source out n).
Proof.
  intros Hsep Hn Hin Hd (H1 & H2 & H3). unfold apply_field. rewrite root_cut. unfold dotted in Hd.
  destruct (cut n).2 as [|] eqn:En; [done|]. split_and!.
  - intros m [Hm|Hm]%elem_of_app.
    + unfold path. rewrite (root_cut m), !value_of_set. destruct (String.eqb_spec (root m) (root n)) as [E|].
      * rewrite E. by destruct (cut m).2.
      * specialize (H1 m Hm). unfold path in H1. by rewrite (root_cut m) in H1.
    + apply list_elem_of_singleton in Hm as ->. unfold path. rewrite (root_cut n), En, value_of_set, String.eqb_refl. done.
  - intros m Hm Hdm. assert (Hne : root m <> root n).
    { apply (Hsep m n); try done. unfold dotted. by rewrite En. }
    specialize (H2 m Hm Hdm). unfold leaves_ok in *. by rewrite obj_get_set, (proj2 (String.eqb_neq _ _) Hne).
  - intros r. rewrite obj_get_set. destruct (String.eqb_spec r (root n)) as [->|].
    + intros _. exists n. set_solver.
    + intros Hr. destruct (H3 r Hr) as (m & Hm & <-). exists m. set_solver.
Qed.

(** Names under another root keep their value; names under this one are leaves. *)
Lemma path_other m n v out : root m <> root n -> path (obj_set (root n) v out) m = path out m.
Proof. intros Hne. unfold path. by rewrite (root_cut m), value_of_set, (proj2 (String.eqb_neq _ _) Hne). Qed.

Lemma path_leaf m leaf out : (cut m).2 = Some leaf ->
  path out m = match value_of out (root m) with JObj o => value_of o leaf | _ => JNull end.
Proof. intros E. unfold path. by rewrite (root_cut m), E. Qed.

Lemma leaves_other source out r r' v : r <> r' -> leaves_ok source out r -> leaves_ok source (obj_set r' v out) r.
Proof. intros Hne H. unfold leaves_ok in *. by rewrite obj_get_set, (proj2 (String.eqb_neq _ _) Hne). Qed.

Lemma apply_field_leaf source fields done_ out n :
  separated fields -> n ∈ fields -> (forall m, m ∈ done_ -> m ∈ fields) -> dotted n = true ->
  so_far source done_ fields out -> so_far source (done_ ++ [n]) fields (apply_field source out n).
Proof.
  intros Hsep Hn Hin Hd (H1 & H2 & H3). pose proof (H2 n Hn Hd) as Hr. unfold leaves_ok in Hr.
  assert (Hsame : forall m, m ∈ fields -> root m = root n -> exists leaf, (cut m).2 = Some leaf).
  { intros m Hm E. destruct (cut m).2 as [leaf|] eqn:Em; [by eexists|]. exfalso.
    apply (Hsep n m); try done. unfold dotted. by rewrite Em. }
  assert (Hkeys : forall v r, is_Some (obj_get r (obj_set (root n) v out)) -> exists m, m ∈ done_ ++ [n] /\ root m = r).
  { intros v r. rewrite obj_get_set. destruct (String.eqb_spec r (root n)) as [->|]; [intros _; exists n; set_solver|].
    intros Hs. destruct (H3 r Hs) as (m & Hm & <-). exists m. set_solver. }
  assert (Hleaf : forall m o, m ∈ done_ ++ [n] -> root m <> root n -> path (obj_set (root n) o out) m = path source m).
  { intros m o [Hm|Hm]%elem_of_app Hne; [|apply list_elem_of_singleton in Hm as ->; done]. rewrite path_other by done. by apply H1. }
  unfold apply_field. rewrite (root_cut n). destruct (Hsame n Hn eq_refl) as [leaf Hleafn]. rewrite Hleafn.
  destruct (value_of source (root n)) as [| | | | | |o] eqn:Hv.
  2-6: (split_and!; [|done|intros r Hs; destruct (H3 r Hs) as (m & Hm & <-); exists m; set_solver];
        intros m [Hm|Hm]%elem_of_app; [by apply H1|]; apply list_elem_of_singleton in Hm as ->;
        rewrite !(path_leaf n leaf) by done; rewrite Hv; unfold value_of at 1; by rewrite Hr).
  - split_and!; [| |apply Hkeys].
    + intros m Hm. destruct (decide (root m = root n)) as [E|Hne]; [|by apply Hleaf].
      destruct (Hsame m) as [l' El]; [set_solver|done|]. rewrite !(path_leaf m l') by done.
      by rewrite E, value_of_set, String.eqb_refl, Hv.
    + intros m Hm Hdm. destruct (decide (root m = root n)) as [E|Hne]; [|by apply leaves_other, H2].
      unfold leaves_ok. rewrite E, Hv, obj_get_set, String.eqb_refl. by right.
  - set (t := match obj_get (root n) out with Some (JObj t) => t | _ => [] end).
    assert (Ht : forall l', is_Some (obj_get l' t) -> value_of t l' = value_of o l').
    { unfold t. destruct Hr as [->|(t0 & -> & Ht)]; [|exact Ht]. intros l' [? ?]. done. }
    split_and!; [| |apply Hkeys].
    + intros m Hm. destruct (decide (root m = root n)) as [E|Hne]; [|by apply Hleaf].
      destruct (Hsame m) as [l' El]; [set_solver|done|]. rewrite !(path_leaf m l') by done.
      rewrite E, value_of_set, String.eqb_refl, Hv, value_of_set. destruct (String.eqb_spec l' leaf) as [->|Hl]; [done|].
      apply elem_of_app in Hm as [Hm|Hm]; [|apply list_elem_of_singleton in Hm as ->; congruence].
      specialize (H1 m Hm). rewrite !(path_leaf m l') in H1 by done. rewrite E, Hv in H1. rewrite <- H1.
      unfold t, value_of at 2. destruct Hr as [->|(t0 & -> & _)]; done.
    + intros m Hm Hdm. destruct (decide (root m = root n)) as [E|Hne]; [|by apply leaves_other, H2].
      unfold leaves_ok. rewrite E, Hv, obj_get_set, String.eqb_refl. right. eexists. split; [done|].
      intros l'. rewrite obj_get_set, value_of_set. destruct (String.eqb_spec l' leaf) as [El|]; [by rewrite El|].
      apply Ht.
Qed.

Lemma apply_fields source fields : forall todo done_ out,
  separated fields -> (forall m, m ∈ done_ ++ todo -> m ∈ fields) -> so_far source done_ fields out ->
  so_far source (done_ ++ todo) fields (fold_left (apply_field source) todo out).
Proof.
  induction todo as [|n todo IH]; intros done_ out Hsep Hin H; cbn [fold_left]; [by rewrite app_nil_r|].
  replace (done_ ++ n :: todo) with ((done_ ++ [n]) ++ todo) in * by by rewrite <- app_assoc. apply IH; [done|done|].
  assert (Hn : n ∈ fields) by (apply Hin; set_solver). assert (Hd : forall m, m ∈ done_ -> m ∈ fields) by (intros; apply Hin; set_solver).
  destruct (dotted n) eqn:E; [by apply apply_field_leaf|by apply apply_field_whole].
Qed.

(** A trimmed row holds what was asked for and nothing else: every requested
    name denotes in it the value it denotes in the full row (null where there
    is none), and it has no key that no requested name is under. *)
Theorem Apply_path source fields :
  separated fields ->
  (forall n, n ∈ fields -> path (Apply source fields) n = path source n) /\
  (forall r, is_Some (obj_get r (Apply source fields)) -> exists n, n ∈ fields /\ root n = r).
Proof.
  intros Hsep. destruct (apply_fields source fields fields [] [] Hsep) as (H1 & _ & H3); [done| |by split].
  split_and!; [by intros n Hn%elem_of_nil| |by intros r [? ?]].
  intros n _ _. unfold leaves_ok. destruct (value_of source (root n)); try (by left); done.
Qed.

Definition sample_row : list (string * json) :=
  [("key", JStr "A-1"); ("status", JObj [("key", JStr "todo"); ("name", JStr "To do"); ("category", JStr "open")]); ("parent", JNull)].
Definition sample_names : list string := ["status.name"; "parent.key"; "key"; "status.key"].

Lemma Apply_path_witness :
  path (Apply sample_row sample_names) "status.name" = JStr "To do" /\
  (forall r, is_Some (obj_get r (Apply sample_row sample_names)) -> exists n, n ∈ sample_names /\ root n = r).
Proof.
  pose proof (Apply_path sample_row sample_names) as H. destruct H as [H1 H2].
  - intros n m Hn Hm. unfold sample_names in *. rewrite !elem_of_cons, elem_of_nil in Hn, Hm.
    destruct_or! Hn; destruct_or! Hm; subst; vm_compute; try discriminate; contradiction.
  - split; [|exact H2]. apply (H1 "status.name"). apply mem_str_spec. reflexivity.
Defined.

End ProjectionProps.
