(* ===== verification/Paging.v ===== *)
(** Reading an ordered table page by page: sorting by a key on which the order is
    strict and total, and what is left of it past a row. *)
From S2P Require Import Prelude.
Open Scope nat_scope.

Module Paging.

Section keyset.
Context {A K : Type} (key : A -> K) (lt : K -> K -> bool).

Definition before (a b : A) : Prop := lt (key a) (key b) = true.
Definition at_most (a b : A) : Prop := negb (lt (key b) (key a)) = true.
#[export] Instance at_most_dec : RelDecision at_most.
Proof. intros a b. unfold at_most. apply _. Defined.

Definition sorted (l : list A) : list A := merge_sort at_most l.

Context (lt_irrefl : forall k, lt k k = false).
Context (lt_trans : forall a b c, lt a b = true -> lt b c = true -> lt a c = true).
Context (lt_total : forall a b, lt a b = false -> lt b a = false -> a = b).

Lemma lt_asym a b : lt a b = true -> lt b a = false.
Proof. intros H. destruct (lt b a) eqn:E; [|done]. by rewrite <- (lt_irrefl a), (lt_trans a b a). Qed.

#[local] Instance at_most_total : Total at_most.
Proof. intros a b. unfold at_most. destruct (lt (key b) (key a)) eqn:E; [right|by left]. by rewrite (lt_asym _ _ E). Qed.
#[local] Instance at_most_trans : Transitive at_most.
Proof.
  intros a b c. unfold at_most. rewrite !negb_true_iff. intros H1 H2. destruct (lt (key c) (key a)) eqn:E; [|done].
  destruct (lt (key b) (key c)) eqn:E2; [by rewrite (lt_trans _ _ _ E2 E) in H1|].
  rewrite (lt_total _ _ E2 H2) in H1. by rewrite E in H1.
Qed.

Lemma sorted_perm l : sorted l ≡ₚ l.
Proof. apply (merge_sort_Permutation at_most). Qed.

Lemma sorted_before l : NoDup (key <$> l) -> StronglySorted before (sorted l).
Proof.
  intros Hnd. assert (Hnd' : NoDup (key <$> sorted l)) by (by rewrite sorted_perm).
  pose proof (Sorted_StronglySorted _ _ (Sorted_merge_sort at_most l)) as Hs. fold (sorted l) in Hs.
  induction Hs as [|a s Hs IH Ha]; [constructor|]. rewrite fmap_cons in Hnd'. apply NoDup_cons in Hnd' as [Hna Hnd'].
  constructor; [by apply IH|]. rewrite Forall_forall in *. intros b Hb. specialize (Ha b Hb). apply negb_true_iff in Ha.
  unfold before. destruct (lt (key a) (key b)) eqn:E; [done|]. exfalso. apply Hna.
  rewrite (lt_total _ _ E Ha). by apply list_elem_of_fmap_2.
Qed.

Lemma before_split l l' a b : StronglySorted before (l ++ l') -> a ∈ l -> b ∈ l' -> before a b.
Proof using Type.
  induction l as [|c l IH]; [by intros _ ?%elem_of_nil|]. intros [Hs Hc]%StronglySorted_inv Ha Hb.
  apply elem_of_cons in Ha as [->|Ha]; [|by apply IH]. rewrite Forall_forall in Hc. apply Hc, elem_of_app. by right.
Qed.

Lemma before_unique l l' : StronglySorted before l -> StronglySorted before l' -> l ≡ₚ l' -> l = l'.
Proof.
  intros H1 H2 Hp. eapply StronglySorted_unique_strong; [|exact H1|exact H2|exact Hp].
  intros a b _ _ Hab Hba. unfold before in *. by rewrite (lt_asym _ _ Hab) in Hba.
Qed.

Lemma filter_before (f : A -> bool) l : StronglySorted before l -> StronglySorted before (List.filter f l).
Proof.
  induction 1 as [|a l Hs IH Ha]; [constructor|]. cbn [List.filter]. destruct (f a); [|done]. constructor; [done|].
  rewrite Forall_forall in *. intros b Hb. apply Ha. apply list_elem_of_In, List.filter_In in Hb as [Hb _]. by apply list_elem_of_In.
Qed.

Lemma filter_perm (f : A -> bool) l l' : l ≡ₚ l' -> List.filter f l ≡ₚ List.filter f l'.
Proof. induction 1; cbn [List.filter]; repeat case_match; eauto using perm_trans, perm_swap. Qed.

Lemma filter_nodup (f : A -> bool) l : NoDup (key <$> l) -> NoDup (key <$> List.filter f l).
Proof.
  induction l as [|a l IH]; [done|]. cbn [List.filter fmap list_fmap]. intros [Hn Hnd]%NoDup_cons.
  destruct (f a); [|by apply IH]. cbn [fmap list_fmap]. apply NoDup_cons. split; [|by apply IH].
  intros Hin. apply Hn. apply list_elem_of_fmap in Hin as (b & E & Hb). apply list_elem_of_fmap. exists b. split; [done|].
  apply list_elem_of_In, List.filter_In in Hb as [Hb _]. by apply list_elem_of_In.
Qed.

(** Selecting and sorting is sorting and selecting. *)
Lemma sorted_filter (f : A -> bool) l : NoDup (key <$> l) -> sorted (List.filter f l) = List.filter f (sorted l).
Proof.
  intros Hnd. apply before_unique.
  - by apply sorted_before, filter_nodup.
  - by apply filter_before, sorted_before.
  - rewrite sorted_perm. apply filter_perm. symmetry. apply sorted_perm.
Qed.

Lemma filter_split (f : A -> bool) pre rest :
  (forall x, x ∈ pre -> f x = false) -> (forall x, x ∈ rest -> f x = true) -> List.filter f (pre ++ rest) = rest.
Proof using Type.
  intros Hp Hr. rewrite List.filter_app. replace (List.filter f pre) with (@nil A).
  - induction rest as [|a rest IH]; [done|]. cbn [app List.filter] in *. rewrite (Hr a) by apply list_elem_of_here. f_equal. apply IH.
    intros x Hx. by apply Hr, list_elem_of_further.
  - induction pre as [|a pre IH]; [done|]. cbn [List.filter]. rewrite (Hp a) by apply list_elem_of_here. apply IH. intros x Hx. by apply Hp, list_elem_of_further.
Qed.

(** The order of the rows does not matter. *)
Lemma sorted_congr l l' : NoDup (key <$> l) -> l ≡ₚ l' -> sorted l = sorted l'.
Proof.
  intros Hnd Hp. apply before_unique; [by apply sorted_before| |by rewrite !sorted_perm].
  apply sorted_before. by rewrite <- Hp.
Qed.

(** What sorts past a row is what follows it. *)
Lemma sorted_past l pre z rest :
  NoDup (key <$> l) -> sorted l = pre ++ z :: rest -> sorted (List.filter (fun x => lt (key z) (key x)) l) = rest.
Proof.
  intros Hnd E. rewrite sorted_filter by done. pose proof (sorted_before l Hnd) as Hs. rewrite E in Hs |- *.
  change (z :: rest) with ([z] ++ rest) in *. rewrite app_assoc in Hs |- *. apply filter_split.
  - intros x [Hx|Hx%list_elem_of_singleton]%elem_of_app; [|subst; apply lt_irrefl].
    apply lt_asym. rewrite <- app_assoc in Hs. apply (before_split pre ([z] ++ rest) x z Hs Hx). set_solver.
  - intros x Hx. apply (before_split (pre ++ [z]) rest z x Hs); [set_solver|done].
Qed.

End keyset.

Lemma filter_and {A} (f g : A -> bool) l : List.filter (fun x => f x && g x) l = List.filter f (List.filter g l).
Proof.
  induction l as [|a l IH]; [done|]. cbn [List.filter]. rewrite IH. destruct (g a); cbn [List.filter]; destruct (f a); done.
Qed.

End Paging.
