(* ===== verification/Cursor.v ===== *)
(** Pagination, [internal/api/cursor.go], [pages.go] and [changes.go]: signed
    cursors bound to a request, page limits, and pages by identifier. *)
From S2P Require Import Prelude Utf8 Float Json Base64 Journal.
Open Scope nat_scope.

Module Cursor.

(** A sort value: a JSON scalar, a number by its text. *)
Inductive sort_value := SNull | SBool (b : bool) | SNumber (s : string) | SText (s : string).

Record Cursor_ := mkCursor { Version : Z; After : string; Sort : list sort_value; Upper : string; Scope_ : string; At : string }.

Section cursor.
Context {CR : Crypto} {CC : Codec Cursor_}.

(** [sha256.Size] *)
Definition mac_size : nat := 32.

Definition EncodeCursor (c : Cursor_) (key : string) : string :=
  let raw := marshal (mkCursor 1 (After c) (Sort c) (Upper c) (Scope_ c) (At c)) in
  Base64.encode Base64.url (raw ++ hmac_sha256 (chars key) raw).

Definition invalid {A} : result string A := Err "cursor is invalid for this request; restart from the first page".

Definition DecodeCursor (token key scope : string) : result string Cursor_ :=
  if (8192 <? Z.of_nat (String.length token))%Z then invalid
  else match Base64.decode Base64.url token with
  | None => invalid
  | Some raw =>
      if length raw <=? mac_size then invalid
      else
        let data := take (length raw - mac_size) raw in
        let signature := drop (length raw - mac_size) raw in
        if negb (bool_decide (signature = hmac_sha256 (chars key) data)) then invalid
        else match unmarshal data with
             | Err _ => invalid
             | Ok c =>
                 if negb (Version c =? 1)%Z || negb (String.eqb (Scope_ c) scope) || String.eqb (After c) "" || String.eqb (Upper c) ""
                 then invalid else Ok c
             end
  end.

(** * Requests *)

(** [url.Values]: every value of a key, in order. *)
Definition query := list (string * list string).
Definition q_all (q : query) (k : string) : list string := match obj_get k q with Some l => l | None => [] end.
Definition q_get (q : query) (k : string) : string := match q_all q k with v :: _ => v | [] => "" end.
Definition q_has (q : query) (k : string) : bool := match obj_get k q with Some _ => true | None => false end.

Definition PageLimit (q : query) : result string nat :=
  if q_has q "offset" then Err "offset is not supported; use cursor pagination"
  else if (1 <? length (q_all q "limit")) || (1 <? length (q_all q "cursor")) then Err "send one limit and one cursor"
  else if negb (q_has q "limit") then Ok 50
  else match parse_int64 (q_get q "limit") with
       | Some n => if (n <? 1)%Z || (200 <? n)%Z then Err "limit must be between 1 and 200" else Ok (Z.to_nat n)
       | None => Err "limit must be between 1 and 200"
       end.

(** [url.QueryEscape] *)
Definition hex_upper (n : nat) : ascii := if n <? 10 then Ascii.ascii_of_nat (48 + n) else Ascii.ascii_of_nat (55 + n).
Definition escape_char (c : ascii) : list ascii :=
  if byte_in 48 57 c || byte_in 65 90 c || byte_in 97 122 c || existsb (Ascii.eqb c) (chars "-_.~") then [c]
  else if Ascii.eqb c " "%char then ["+"%char]
  else ["%"%char; hex_upper (byte_of c / 16); hex_upper (byte_of c mod 16)].
Definition query_escape (s : string) : string := of_chars (concat (map escape_char (chars s))).

(** [q.Encode]: by key, then by value in order. *)
Definition query_encode (q : query) : string :=
  str_join "&" (concat (map (fun k => map (fun v => query_escape k +:+ "=" +:+ query_escape v) (q_all q k))
    (sort_strings (remove_dups (q.*1))))).

Record request := mkRequest { WorkspaceID : string; UserID : string; Path : string; Query : query }.

Definition nl : string := String newline "".

Definition cursorScope (r : request) : string :=
  hex (sha256 (chars (WorkspaceID r +:+ nl +:+ UserID r +:+ nl +:+ Path r +:+ nl +:+
                      query_encode (obj_del "limit" (obj_del "cursor" (Query r)))))).

(** * Pages of an authored SELECT *)

Definition zeroID : string := "00000000-0000-0000-0000-000000000000".

Record Page := mkPage { Data : list json; NextCursor : option string }.

(** The rows of the base query: an identifier and a document each, in any order. *)
Definition table := list (string * json).

(** Identifiers compare like their canonical text. *)
Definition id_le (a b : string) : bool := negb (str_lt b a).
Definition by_id (a b : string * json) : Prop := id_le a.1 b.1 = true.
#[export] Instance by_id_dec : RelDecision by_id.
Proof. intros a b. unfold by_id. apply _. Defined.

(** [WHERE id > after AND id <= upper ORDER BY id] *)
Definition between (t : table) (after upper : string) : table :=
  merge_sort by_id (List.filter (fun row => str_lt after row.1 && id_le row.1 upper) t).

(** [SELECT id ... ORDER BY id DESC LIMIT 1], the zero identifier when there is no row. *)
Definition max_id (t : table) : string :=
  match last (merge_sort by_id t) with Some row => row.1 | None => zeroID end.

(** The loop over at most [limit + 1] rows. *)
Fixpoint collect (key : string) (limit : nat) (rows : table) (c : Cursor_) (data : list json) : Page :=
  match rows with
  | [] => mkPage data None
  | (id, doc) :: rows =>
      if length data =? limit then mkPage data (Some (EncodeCursor c key))
      else collect key limit rows (mkCursor (Version c) id (Sort c) (Upper c) (Scope_ c) (At c)) (data ++ [doc])
  end.

(** [projectedPage]; [doc_of] is the projection of a document, the identity for
    [jsonPage]. *)
Definition projectedPage (key : string) (doc_of : json -> json) (t : table) (r : request) : result string Page :=
  let* limit := PageLimit (Query r) in
  let scope := cursorScope r in
  let token := q_get (Query r) "cursor" in
  let* c := if String.eqb token "" then Ok (mkCursor 0 zeroID [] (max_id t) scope "")
            else DecodeCursor token key scope in
  let rows := take (limit + 1) (between t (After c) (Upper c)) in
  Ok (collect key limit ((fun row => (row.1, doc_of row.2)) <$> rows) c []).

Definition jsonPage (key : string) (t : table) (r : request) : result string Page := projectedPage key (fun d => d) t r.

(** * The change feed *)

(** [changes]: the events after a sequence number, at most [limit], and the number
    to ask for next. *)
Definition changes (log : list (Z * json)) (q : query) : result string (list json * Z) :=
  if q_has q "cursor" || (1 <? length (q_all q "since_seq"))
  then Err "Send one since_seq value; cursor is not supported on changes."
  else
    let* limit := PageLimit q in
    let* since := if q_has q "since_seq" then
                    match parse_int64 (q_get q "since_seq") with
                    | Some n => if (n <? 0)%Z then Err "since_seq must be a nonnegative sequence number returned by this workspace." else Ok n
                    | None => Err "since_seq must be a nonnegative sequence number returned by this workspace."
                    end
                  else Ok 0%Z in
    let rows := take limit (List.filter (fun e => (since <? e.1)%Z) log) in
    Ok (rows.*2, match last rows with Some e => e.1 | None => since end).

End cursor.
End Cursor.
