(* ===== verification/CursorProps.v ===== *)
(** What pagination promises: a cursor is read back as it was made and nowhere
    else, and following cursors visits every row once, in order. *)
From S2P Require Import Prelude Utf8 Float Json Base64 Journal JournalDemo Paging Cursor.
Open Scope nat_scope.
#[local] Set Warnings "-clear-no-such-hyp".

Module CursorProps.
Import Cursor.

(** * Cursors *)

Section props.
Context {CR : Crypto} {CC : Codec Cursor_}.
Context (hmac_length : forall k m, length (hmac_sha256 k m) = 32).

Definition signed (c : Cursor_) : Cursor_ := mkCursor 1 (After c) (Sort c) (Upper c) (Scope_ c) (At c).

Lemma cursor_decode_encode c key scope :
  (Z.of_nat (String.length (EncodeCursor c key)) <= 8192)%Z -> marshal (signed c) <> [] ->
  DecodeCursor (EncodeCursor c key) key scope =
  if negb (String.eqb (Scope_ c) scope) || String.eqb (After c) "" || String.eqb (Upper c) "" then invalid else Ok (signed c).
Proof.
  intros Hlen Hne. unfold DecodeCursor. destruct (Z.ltb_spec 8192 (Z.of_nat (String.length (EncodeCursor c key)))); [lia|].
  unfold EncodeCursor. fold (signed c). rewrite Base64.decode_encode_url. unfold mac_size. rewrite length_app, hmac_length.
  destruct (Nat.leb_spec (length (marshal (signed c)) + 32) 32).
  { destruct (marshal (signed c)); [done|simpl in *; lia]. }
  rewrite Nat.add_sub, take_app_length, drop_app_length, bool_decide_eq_true_2 by done. cbn [negb].
  rewrite unmarshal_marshal. cbn [signed Version Scope_ After Upper]. rewrite Z.eqb_refl. done.
Qed.

(** A cursor is accepted by the request it was made for and by no other: what
    one page signs the next reads back unchanged under the same scope, and it
    is refused under any other. *)
Theorem DecodeCursor_EncodeCursor c key scope :
  (Z.of_nat (String.length (EncodeCursor c key)) <= 8192)%Z -> marshal (signed c) <> [] -> After c <> "" -> Upper c <> "" ->
  (Scope_ c = scope -> DecodeCursor (EncodeCursor c key) key scope = Ok (signed c)) /\
  (Scope_ c <> scope -> is_ok (DecodeCursor (EncodeCursor c key) key scope) = false).
Proof.
  intros Hlen Hne Ha Hu. rewrite cursor_decode_encode by done.
  rewrite (proj2 (String.eqb_neq _ _) Ha), (proj2 (String.eqb_neq _ _) Hu), !orb_false_r. split; intros Hs.
  - by rewrite Hs, String.eqb_refl.
  - by rewrite (proj2 (String.eqb_neq _ _) Hs).
Qed.

(** * One page *)

Implicit Types (t : table) (c : Cursor_).

Definition at_row c (rows : table) : Cursor_ :=
  match last rows with Some row => mkCursor (Version c) row.1 (Sort c) (Upper c) (Scope_ c) (At c) | None => c end.

Lemma at_row_cons c row rows :
  at_row (mkCursor (Version c) row.1 (Sort c) (Upper c) (Scope_ c) (At c)) rows = at_row c (row :: rows).
Proof. unfold at_row. rewrite last_cons. by destruct (last rows). Qed.

Lemma collect_page_spec key limit rows : forall c data,
  length data <= limit ->
  collect key limit rows c data =
  let m := limit - length data in
  if length rows <=? m then mkPage (data ++ rows.*2) None
  else mkPage (data ++ (take m rows).*2) (Some (EncodeCursor (at_row c (take m rows)) key)).
Proof.
  induction rows as [|[id doc] rows IH]; intros c data Hd; cbn [collect]; [by rewrite app_nil_r|].
  destruct (Nat.eqb_spec (length data) limit) as [E|Hne].
  - rewrite E, Nat.sub_diag. cbn [length Nat.leb take fmap list_fmap]. by rewrite app_nil_r.
  - rewrite IH by (rewrite length_app; simpl; lia). rewrite length_app. cbn [length].
    replace (limit - length data) with (S (limit - (length data + 1))) by lia. cbn [Nat.leb take].
    rewrite !fmap_cons, <- !app_assoc. cbn [app fst snd]. by rewrite <- at_row_cons.
Qed.

(** * Walking the pages *)

Definition with_cursor (r : request) (token : string) : request :=
  mkRequest (WorkspaceID r) (UserID r) (Path r) (obj_set "cursor" [token] (Query r)).

Lemma obj_del_set k (v : list string) q : obj_del k (obj_set k v q) = obj_del k q.
Proof.
  induction q as [|[k' v'] q IH]; cbn [obj_set obj_del List.filter fst].
  - by rewrite String.eqb_refl.
  - destruct (String.eqb_spec k k') as [->|Hne]; cbn [negb List.filter obj_del fst].
    + rewrite String.eqb_refl. cbn [negb]. fold (obj_del k' q). clear IH.
      induction q as [|[k2 v2] q IH]; cbn [obj_del List.filter fst]; [done|].
      destruct (String.eqb_spec k' k2) as [->|H2]; cbn [negb]; [exact IH|]. cbn [List.filter fst].
      rewrite (proj2 (String.eqb_neq _ _) H2). cbn [negb]. f_equal. exact IH.
    + rewrite (proj2 (String.eqb_neq _ _) Hne). cbn [negb]. f_equal. exact IH.
Qed.

Lemma with_cursor_scope r token : cursorScope (with_cursor r token) = cursorScope r.
Proof. unfold cursorScope, with_cursor. cbn [WorkspaceID UserID Path Query]. by rewrite obj_del_set. Qed.

Lemma with_cursor_limit r token limit : PageLimit (Query r) = Ok limit -> PageLimit (Query (with_cursor r token)) = Ok limit.
Proof.
  assert (Hall : forall k, String.eqb k "cursor" = false -> q_all (Query (with_cursor r token)) k = q_all (Query r) k).
  { intros k Hk. unfold q_all, with_cursor. cbn [Query]. by rewrite obj_get_set, Hk. }
  assert (Hhas : forall k, String.eqb k "cursor" = false -> q_has (Query (with_cursor r token)) k = q_has (Query r) k).
  { intros k Hk. unfold q_has, with_cursor. cbn [Query]. by rewrite obj_get_set, Hk. }
  assert (Hcur : q_all (Query (with_cursor r token)) "cursor" = [token]).
  { unfold q_all, with_cursor. cbn [Query]. by rewrite obj_get_set. }
  unfold PageLimit, q_get. rewrite !Hall, !Hhas, Hcur by done.
  destruct (q_has (Query r) "offset"); [done|]. destruct (1 <? length (q_all (Query r) "limit")); [done|].
  cbn [orb]. change (1 <? length [token]) with false. by destruct (1 <? length (q_all (Query r) "cursor")).
Qed.

(** The request of a page: the first, then the same with each token. *)
Definition request_at (r0 : request) (token : string) : request := if String.eqb token "" then r0 else with_cursor r0 token.

Lemma with_cursor_get r token : q_get (Query (with_cursor r token)) "cursor" = token.
Proof. unfold with_cursor, q_get, q_all. cbn [Query]. by rewrite obj_get_set. Qed.

Lemma with_cursor_other r token k : String.eqb k "cursor" = false ->
  q_get (Query (with_cursor r token)) k = q_get (Query r) k /\ q_has (Query (with_cursor r token)) k = q_has (Query r) k.
Proof. intros Hk. unfold q_get, q_all, q_has, with_cursor. cbn [Query]. by rewrite obj_get_set, Hk. Qed.

Lemma PageLimit_pos q limit : PageLimit q = Ok limit -> 0 < limit.
Proof.
  unfold PageLimit. destruct (q_has q "offset"); [done|]. destruct (_ || _); [done|].
  destruct (negb _); [intros [= <-]; lia|]. destruct (parse_int64 _) as [n|]; [|done].
  destruct (Z.ltb_spec n 1); [done|]. destruct (200 <? n)%Z; [done|]. intros [= <-]. lia.
Qed.

(** Following [next_cursor] until there is none; [page k] is the endpoint at the
    time of the [k]-th request. *)
Fixpoint walk {E} (page : nat -> request -> result E Page) (r0 : request) (fuel k : nat) (token : string) : option (list json) :=
  match fuel with
  | O => None
  | S fuel =>
      match page k (request_at r0 token) with
      | Err _ => None
      | Ok p =>
          match NextCursor p with
          | None => Some (Data p)
          | Some token => (fun rest => Data p ++ rest) <$> walk page r0 fuel (S k) token
          end
      end
  end.

(** ** Any endpoint that pages by position *)

Section pager.
Context {E : Type} (page : nat -> request -> result E Page) (r0 : request) (key : string) (limit : nat).
(** Where the first page starts and the bound it fixes, and the rows past a position. *)
Context (c0 : Cursor_) (fetch : nat -> string -> string -> table).
Context (Hlimit : 0 < limit).
Context (Hfirst : page 0 r0 = Ok (collect key limit (take (limit + 1) (fetch 0 (After c0) (Upper c0))) c0 [])).

(** The rows when the walk starts, in order; a later query returns what follows the
    position it is given. *)
Context (rows0 : table).
Definition cursor_at (row : string * json) : Cursor_ := mkCursor 1 row.1 (Sort c0) (Upper c0) (Scope_ c0) (At c0).
Context (Hnext : forall k token row, row ∈ rows0 -> token <> "" -> DecodeCursor token key (Scope_ c0) = Ok (cursor_at row) ->
  page k (with_cursor r0 token) = Ok (collect key limit (take (limit + 1) (fetch k row.1 (Upper c0))) (cursor_at row) [])).
Context (Hfetch : forall k pre rest, rows0 = pre ++ rest -> (pre = [] -> k = 0) ->
  fetch k (After (at_row c0 pre)) (Upper c0) = rest).
(** The cursors can be sent. *)
Context (Hupper : Upper c0 <> "").
Context (Hfit : forall row, row ∈ rows0 -> row.1 <> "" /\
  (Z.of_nat (String.length (EncodeCursor (cursor_at row) key)) <= 8192)%Z /\ marshal (cursor_at row) <> []).

Lemma token_decodes row : row ∈ rows0 ->
  EncodeCursor (cursor_at row) key <> "" /\ DecodeCursor (EncodeCursor (cursor_at row) key) key (Scope_ c0) = Ok (cursor_at row).
Proof using Hfit Hupper hmac_length.
  intros Hin. destruct (Hfit row Hin) as (Hrow & Hlen & Hne). pose proof (cursor_decode_encode (cursor_at row) key (Scope_ c0) Hlen Hne) as D.
  cbn [cursor_at Scope_ After Upper] in D. rewrite String.eqb_refl, (proj2 (String.eqb_neq _ _) Hrow), (proj2 (String.eqb_neq _ _) Hupper) in D.
  split; [|exact D]. intros E0. rewrite E0 in D. discriminate D.
Qed.

Lemma after_at_row c c' rows : After c = After c' -> After (at_row c rows) = After (at_row c' rows).
Proof using Type. intros E0. unfold at_row. by destruct (last rows). Qed.

(** One page in the middle of the walk, and all that follow. *)
Lemma walk_rest fuel : forall k pre rest c token,
  rows0 = pre ++ rest -> length rest < fuel -> (pre = [] -> k = 0) -> After c = After (at_row c0 pre) ->
  (Sort c, Upper c, Scope_ c, At c) = (Sort c0, Upper c0, Scope_ c0, At c0) ->
  page k (request_at r0 token) = Ok (collect key limit (take (limit + 1) (fetch k (After c) (Upper c))) c []) ->
  walk page r0 fuel k token = Some rest.*2.
Proof.
  induction fuel as [|fuel IH]; intros k pre rest c token Hsplit Hfuel Hk Ha [= Hso Hu Hsc Hat] Hpage; [lia|]. cbn [walk]. rewrite Hpage.
  rewrite Ha, Hu, (Hfetch k pre rest Hsplit Hk). rewrite collect_page_spec by (simpl; lia). cbn [length app]. rewrite Nat.sub_0_r. cbn zeta.
  destruct (Nat.leb_spec (length (take (limit + 1) rest)) limit) as [Hle|Hgt]; cbn [NextCursor Data].
  { rewrite length_take in Hle. by rewrite take_ge by lia. }
  rewrite length_take in Hgt. rewrite take_take, Nat.min_l by lia.
  destruct (last (take limit rest)) as [row|] eqn:El.
  2:{ apply last_None in El. apply (f_equal length) in El. rewrite length_take in El. simpl in El. lia. }
  assert (Hin : row ∈ rows0).
  { rewrite Hsplit. apply elem_of_app. right. apply last_Some in El as [l El]. rewrite <- (take_drop limit rest), El. set_solver. }
  assert (Henc : EncodeCursor (at_row c (take limit rest)) key = EncodeCursor (cursor_at row) key).
  { unfold at_row. rewrite El. unfold EncodeCursor, cursor_at. cbn [After Sort Upper Scope_ At]. by rewrite Hso, Hu, Hsc, Hat. }
  rewrite Henc. destruct (token_decodes row Hin) as [Hne Hdec].
  rewrite (IH (S k) (pre ++ take limit rest) (drop limit rest) (cursor_at row)).
  - cbn. rewrite <- fmap_app. by rewrite take_drop.
  - by rewrite <- app_assoc, take_drop.
  - rewrite length_drop. lia.
  - intros [_ E0]%app_eq_nil. rewrite E0 in El. discriminate El.
  - unfold at_row. rewrite last_app, El. done.
  - done.
  - unfold request_at. rewrite (proj2 (String.eqb_neq _ _) Hne). by apply (Hnext (S k) _ row).
Qed.

Lemma walk_rows fuel : length rows0 < fuel -> walk page r0 fuel 0 "" = Some rows0.*2.
Proof. intros Hf. by apply (walk_rest fuel 0 [] rows0 c0). Qed.

End pager.

(** Strictly ascending identifiers. *)
Definition id_lt (a b : string * json) : Prop := str_lt a.1 b.1 = true.

Lemma sorted_strict t : NoDup t.*1 -> StronglySorted id_lt (merge_sort by_id t).
Proof. exact (Paging.sorted_before fst str_lt str_lt_irrefl str_lt_trans str_lt_total t). Qed.

Lemma sorted_split l l' (a b : string * json) : StronglySorted id_lt (l ++ l') -> a ∈ l -> b ∈ l' -> id_lt a b.
Proof. exact (Paging.before_split fst str_lt l l' a b). Qed.

(** Selecting and sorting is sorting and selecting. *)
Lemma between_filter t after upper :
  NoDup t.*1 -> between t after upper = List.filter (fun row => str_lt after row.1 && id_le row.1 upper) (merge_sort by_id t).
Proof. exact (Paging.sorted_filter fst str_lt str_lt_irrefl str_lt_trans str_lt_total _ t). Qed.

(** * The walk *)

Section walk.
Context (tables : nat -> table) (r0 : request).

(** The rows when the walk starts, in order, and the bound the first page fixes. *)
Definition rows0 : table := merge_sort by_id (tables 0).
Definition upper0 : string := max_id (tables 0).

Definition first_cursor : Cursor_ := mkCursor 0 zeroID [] upper0 (cursorScope r0) "".

Context (Hids : NoDup (tables 0).*1) (Hpos : forall row, row ∈ tables 0 -> str_lt zeroID row.1 = true).
(** Rows added while the walk goes on have higher identifiers: those up to the
    bound stay as they are. *)
Context (Hstable : forall k, List.filter (fun row => id_le row.1 upper0) (tables k) = List.filter (fun row => id_le row.1 upper0) (tables 0)).

Lemma rows0_ids row : row ∈ rows0 <-> row ∈ tables 0.
Proof. unfold rows0. by rewrite (merge_sort_Permutation by_id (tables 0)). Qed.

Lemma upper0_le row : row ∈ rows0 -> id_le row.1 upper0 = true.
Proof.
  intros Hin. unfold upper0, max_id. fold rows0. pose proof (sorted_strict (tables 0) Hids) as Hs. fold rows0 in Hs.
  revert Hin Hs. generalize rows0. intros l. induction l as [|a l IH] using rev_ind; [by intros ?%elem_of_nil|].
  intros Hin Hs. rewrite last_snoc. unfold id_le. apply negb_true_iff. apply elem_of_app in Hin as [Hin|Hin].
  - apply str_lt_asym. by apply (sorted_split l [a] row a Hs Hin), list_elem_of_singleton.
  - apply list_elem_of_singleton in Hin as ->. apply str_lt_irrefl.
Qed.

(** What the [k]-th query returns: the rows past the cursor. *)
Lemma between_rest k pre rest after :
  rows0 = pre ++ rest -> after = match last pre with Some row => row.1 | None => zeroID end ->
  between (tables k) after upper0 = rest.
Proof.
  intros Hsplit Hafter. transitivity (between (tables 0) after upper0).
  { unfold between. by rewrite !Paging.filter_and, Hstable. }
  rewrite between_filter by exact Hids. fold rows0. pose proof (sorted_strict (tables 0) Hids) as Hs. fold rows0 in Hs.
  rewrite Hsplit in Hs |- *. apply Paging.filter_split.
  - intros x Hx. apply andb_false_iff. left. subst after. destruct (last pre) as [z|] eqn:El.
    + apply last_Some in El as [l ->]. apply elem_of_app in Hx as [Hx|Hx].
      * apply str_lt_asym. rewrite <- app_assoc in Hs. apply (sorted_split l ([z] ++ rest) x z Hs Hx). set_solver.
      * apply list_elem_of_singleton in Hx as ->. apply str_lt_irrefl.
    + apply last_None in El as ->. by apply elem_of_nil in Hx.
  - intros x Hx. apply andb_true_iff. split; [|apply upper0_le; rewrite Hsplit; set_solver].
    subst after. destruct (last pre) as [z|] eqn:El.
    + apply last_Some in El as [l ->]. apply (sorted_split (l ++ [z]) rest z x Hs); [set_solver|done].
    + apply Hpos, rows0_ids. rewrite Hsplit. set_solver.
Qed.

Lemma upper0_ne : upper0 <> "".
Proof.
  unfold upper0, max_id. fold rows0. destruct (last rows0) as [row|] eqn:El; [|done]. apply last_Some in El as [l El].
  intros E0. assert (Hin : row ∈ tables 0) by (apply rows0_ids; rewrite El; set_solver). specialize (Hpos row Hin). rewrite E0 in Hpos. discriminate Hpos.
Qed.

End walk.

(** Following cursors visits everything once: starting without a cursor and
    following each page's [next_cursor] to the end yields, in order, the
    document of every row there was at the start, each exactly once, whatever
    rows with higher identifiers appear meanwhile. *)
Theorem walk_complete key doc_of tables r limit :
  PageLimit (Query r) = Ok limit -> q_get (Query r) "cursor" = "" ->
  NoDup (tables 0).*1 -> (forall row, row ∈ tables 0 -> str_lt zeroID row.1 = true) ->
  (forall k, List.filter (fun row => id_le row.1 (max_id (tables 0))) (tables k) =
             List.filter (fun row => id_le row.1 (max_id (tables 0))) (tables 0)) ->
  (forall row, row ∈ tables 0 ->
     (Z.of_nat (String.length (EncodeCursor (cursor_at (first_cursor tables r) row) key)) <= 8192)%Z /\
     marshal (cursor_at (first_cursor tables r) row) <> []) ->
  walk (fun k => projectedPage key doc_of (tables k)) r (S (length (tables 0))) 0 "" = Some (doc_of <$> (merge_sort by_id (tables 0)).*2).
Proof.
  intros Hl Hf Hids Hpos Hst Hfit. fold (rows0 tables).
  set (shown := fun row : string * json => (row.1, doc_of row.2)).
  assert (Hdocs : doc_of <$> (rows0 tables).*2 = (shown <$> rows0 tables).*2) by (by rewrite <- !list_fmap_compose).
  rewrite Hdocs. eapply (walk_rows _ r key limit (first_cursor tables r) (fun k a u => shown <$> between (tables k) a u)).
  - by apply (PageLimit_pos (Query r)).
  - unfold projectedPage. rewrite Hl, Hf, <- fmap_take. done.
  - intros k token row _ Hne Hd. unfold projectedPage. rewrite (with_cursor_limit r token limit Hl), with_cursor_scope, with_cursor_get.
    rewrite (proj2 (String.eqb_neq _ _) Hne). cbn [first_cursor Scope_] in Hd. rewrite Hd, <- fmap_take. done.
  - intros k pre' rest' Hsplit Hk. apply fmap_app_inv in Hsplit as (pre & rest & -> & -> & Hsplit).
    f_equal. apply (between_rest tables Hids Hpos Hst k pre rest _ Hsplit). unfold at_row. rewrite fmap_last. by destruct (last pre).
  - apply upper0_ne; done.
  - intros row' Hrow. apply list_elem_of_fmap in Hrow as (row & -> & Hrow). apply rows0_ids in Hrow. cbn [shown fst].
    split; [|exact (Hfit row Hrow)]. intros E0. specialize (Hpos row Hrow). rewrite E0 in Hpos. discriminate Hpos.
  - rewrite length_fmap. unfold rows0. rewrite (merge_sort_Permutation by_id (tables 0)). lia.
Qed.

End props.

(** * A walk *)

Import JournalDemo.

Definition sort_text (v : sort_value) : string :=
  match v with SNull => "n" | SBool true => "t" | SBool false => "f" | SNumber s => String "#" s | SText s => String "$" s end.
Definition text_sort (s : string) : option sort_value :=
  match s with
  | String c s => if Ascii.eqb c "#"%char then Some (SNumber s) else if Ascii.eqb c "$"%char then Some (SText s)
                  else if Ascii.eqb c "n"%char then Some SNull else if Ascii.eqb c "t"%char then Some (SBool true)
                  else if Ascii.eqb c "f"%char then Some (SBool false) else None
  | "" => None
  end.

#[export] Instance cursor_fields : Fielded Cursor_.
Proof.
  refine {| to_fields c := [text (Version c); text (After c); text (sort_text <$> Sort c); text (Upper c); text (Scope_ c); text (At c)];
            of_fields l := match l with
              | [a; b; c; d; e; f] =>
                  match untext a, untext b, untext c, untext d, untext e, untext f with
                  | Some a, Some b, Some c, Some d, Some e, Some f => match mapM text_sort c with Some c => Some (mkCursor a b c d e f) | None => None end
                  | _, _, _, _, _, _ => None
                  end
              | _ => None end |}.
  intros [v a s u sc at_]. cbn [Version After Sort Upper Scope_ At]. rewrite !untext_text.
  assert (H : mapM text_sort (sort_text <$> s) = Some s); [|by rewrite H].
  induction s as [|x s IH]; [done|]. rewrite fmap_cons. cbn [mapM]. rewrite IH. by destruct x as [|[]| |].
Defined.

(** The stand-ins with digests of the right length. *)
Definition wide_crypto : Crypto.
Proof.
  refine {| sha256 := checksum; hmac_sha256 k m := concat (repeat (checksum (k ++ m)) 32);
            gcm_seal := gcm_seal; gcm_open := gcm_open; gcm_open_seal := gcm_open_seal |}.
Defined.

Lemma wide_length k m : length (@hmac_sha256 wide_crypto k m) = 32.
Proof. reflexivity. Qed.

Definition demo_cursor : Cursor_ := mkCursor 0 "a1" [SNumber "2.5"; SNull] "c3" "scope" "".

Lemma DecodeCursor_EncodeCursor_witness :
  @DecodeCursor wide_crypto _ (@EncodeCursor wide_crypto _ demo_cursor "k") "k" "scope" = Ok (signed demo_cursor) /\
  is_ok (@DecodeCursor wide_crypto _ (@EncodeCursor wide_crypto _ demo_cursor "k") "k" "other") = false.
Proof.
  pose proof (@DecodeCursor_EncodeCursor wide_crypto _ wide_length demo_cursor "k" "scope") as H1.
  pose proof (@DecodeCursor_EncodeCursor wide_crypto _ wide_length demo_cursor "k" "other") as H2.
  split; [apply H1|apply H2]; try discriminate; try reflexivity; vm_compute; discriminate.
Defined.

Definition demo_rows : table := [("0000000b", JInt 2); ("0000000a", JInt 1); ("0000000d", JInt 4); ("0000000c", JInt 3); ("0000000e", JInt 5)].
Definition demo_tables (k : nat) : table := if k =? 0 then demo_rows else ("0000000f", JInt 6) :: demo_rows.
Definition demo_request : request := mkRequest "w" "u" "/api/v1/comments" [("limit", ["2"]); ("item", ["A-1"])].

Definition fits_at (row : string * json) : bool :=
  let c := cursor_at (@first_cursor wide_crypto demo_tables demo_request) row in
  (Z.of_nat (String.length (@EncodeCursor wide_crypto _ c "k")) <=? 8192)%Z && negb (length (marshal c) =? 0).
Lemma demo_fits : forallb fits_at demo_rows = true.
Proof. vm_compute. reflexivity. Qed.
Lemma demo_positive : forallb (fun row => str_lt zeroID row.1) demo_rows = true.
Proof. vm_compute. reflexivity. Qed.
Lemma demo_distinct : NoDup demo_rows.*1.
Proof. refine (proj1 (bool_decide_eq_true _) _). vm_compute. reflexivity. Qed.

Lemma walk_complete_witness :
  walk (fun k => @projectedPage wide_crypto _ "k" (fun d => d) (demo_tables k)) demo_request (S (length (demo_tables 0))) 0 "" =
  Some ((fun d => d) <$> (merge_sort by_id (demo_tables 0)).*2).
Proof.
  pose proof (@walk_complete wide_crypto _ wide_length "k" (fun d => d) demo_tables demo_request 2 eq_refl eq_refl demo_distinct) as H.
  apply H; clear H.
  - intros row Hrow. pose proof demo_positive as H. rewrite forallb_forall in H. by apply H, list_elem_of_In.
  - intros [|k]; reflexivity.
  - intros row Ha. pose proof demo_fits as H. rewrite forallb_forall in H. specialize (H row (proj1 (list_elem_of_In _ _) Ha)).
    unfold fits_at in H. apply andb_prop in H as [H1%Z.leb_le H2]. split; [exact H1|]. intros E. by rewrite E in H2.
Defined.

End CursorProps.
