(* ===== verification/Auth.v ===== *)
(** Sign-in: passwords, sessions, the second factor and the attempt throttle,
    [internal/api/auth/] and [internal/api/auth.go], [totp.go]. *)
From S2P Require Import Prelude Utf8 Base64 Journal.
Open Scope nat_scope.

(** What sign-in uses beside [Crypto]: Argon2id (32-byte keys) and HMAC-SHA-1
    (20-byte digests). *)
Class AuthCrypto := {
  argon2id : bytes -> bytes -> bytes;
  hmac_sha1 : bytes -> bytes -> bytes;
  argon2id_length p s : length (argon2id p s) = 32
}.

Module Auth.

Inductive auth_err := ErrCredentials | ErrNoRows | ErrOther (s : string).

(** * password.go *)

Section password.
Context {AC : AuthCrypto}.

Definition ValidatePassword (password : string) : result auth_err unit :=
  if (String.length password <? 12) || (1024 <? String.length password)
  then Err (ErrOther "password must contain 12 to 1024 bytes") else Ok tt.

Definition scheme : string := "$argon2id$v=19$m=65536,t=3,p=1$".

(** The salt is the random material. *)
Definition HashPassword (password : string) (salt : bytes) : result auth_err string :=
  let* _ := ValidatePassword password in
  let hash := argon2id (chars password) salt in
  Ok (scheme +:+ Base64.encode Base64.std salt +:+ "$" +:+ Base64.encode Base64.std hash).

Definition VerifyPassword (encoded password : string) : bool :=
  match str_split "$"%char encoded with
  | [_; p1; p2; p3; p4; p5] =>
      if (1024 <? String.length password) || negb (String.eqb p1 "argon2id") || negb (String.eqb p2 "v=19") ||
         negb (String.eqb p3 "m=65536,t=3,p=1") then false
      else match Base64.decode Base64.std p4, Base64.decode Base64.std p5 with
           | Some salt, Some want =>
               if negb (length salt =? 16) || negb (length want =? 32) then false
               else bool_decide (argon2id (chars password) salt = want)
           | _, _ => false
           end
  | _ => false
  end.

End password.

(** * totp.go: the second factor's state *)

Record totpState := mkTotp { Secret : bytes; Active : bool; LastStep : Z; PendingUntil : Z; Recovery : list string }.
Definition no_totp : totpState := mkTotp [] false 0 0 [].

Section totp.
Context {CR : Crypto} {AC : AuthCrypto} {CT : Codec totpState} (service_key : bytes).

(** [seal]: the nonce, then the sealed state bound to the account. *)
Definition seal (id : string) (state : totpState) (nonce : bytes) : bytes :=
  nonce ++ gcm_seal service_key nonce (marshal state) (chars id).

Definition open_ (id : string) (raw : bytes) : result auth_err totpState :=
  if length raw =? 0 then Ok no_totp
  else if length raw <? 12 then Err ErrCredentials
  else match gcm_open service_key (take 12 raw) (drop 12 raw) (chars id) with
       | None => Err (ErrOther "cipher: message authentication failed")
       | Some plain => match unmarshal plain with Ok st => Ok st | Err e => Err (ErrOther e) end
       end.

(** Big-endian bytes of a 64-bit counter, and back for 32 bits. *)
Fixpoint be_bytes (n : nat) (z : Z) : bytes :=
  match n with
  | O => []
  | S n => Ascii.ascii_of_nat (Z.to_nat (Z.shiftr z (8 * Z.of_nat n) mod 256)) :: be_bytes n z
  end.
Definition be_value (b : bytes) : Z := fold_left (fun n c => n * 256 + Z.of_nat (byte_of c))%Z b 0%Z.

(** [%06d] *)
Definition six_digits (n : Z) : string :=
  of_chars (map (fun k => digit_char (Z.to_nat (n / 10 ^ k mod 10))) [5; 4; 3; 2; 1; 0]%Z).

(** [Code] at a time in seconds: RFC 6238. *)
Definition Code (secret : bytes) (at_ : Z) : string :=
  let counter := be_bytes 8 (at_ ÷ 30 mod 2 ^ 64)%Z in
  let sum := hmac_sha1 secret counter in
  let off := match last sum with Some c => byte_of c mod 16 | None => 0 end in
  let n := Z.land (be_value (take 4 (drop off sum))) (2 ^ 31 - 1) in
  six_digits (n mod 1000000).

(** The recovery codes after the first whose digest is [encoded] is used up. *)
Fixpoint use_recovery (encoded : string) (l : list string) : option (list string) :=
  match l with
  | [] => None
  | want :: l =>
      if String.eqb encoded want then Some l
      else match use_recovery encoded l with Some l' => Some (want :: l') | None => None end
  end.

(** The first of the three candidate steps whose code is [code]. *)
Definition find_step (state : totpState) (code : string) (now : Z) : option Z :=
  List.find (fun candidate => (LastStep state <? candidate)%Z && String.eqb code (Code (Secret state) (candidate * 30)))
    [now ÷ 30; now ÷ 30 - 1; now ÷ 30 + 1]%Z.

(** [consumeCode]: the state after an accepted code, [None] if it is refused. *)
Definition consumeCode (state : totpState) (code : string) (now : Z) (allowRecovery : bool) : option totpState :=
  match (if String.length code =? 6 then find_step state code now else None) with
  | Some candidate => Some (mkTotp (Secret state) (Active state) candidate (PendingUntil state) (Recovery state))
  | None =>
      if allowRecovery then
        match use_recovery (hex (sha256 (chars code))) (Recovery state) with
        | Some l => Some (mkTotp (Secret state) (Active state) (LastStep state) (PendingUntil state) l)
        | None => None
        end
      else None
  end.

(** * Accounts and sessions *)

(** [totp_secret] is empty for NULL; [members] are the account's workspaces with
    their roles. *)
Record Account := mkAccount {
  Email : string; DisplayName : string; password_hash : option string; totp_secret : bytes; is_active : bool;
  members : list (string * string); Theme : string; ReducedMotion : option bool }.
Record session := mkSession { s_user : string; expires_at : Z }.
Record Db := mkDb { accounts : gmap string Account; sessions : gmap string session }.

Record Identity := mkIdentity {
  i_ID : string; i_Email : string; i_DisplayName : string; i_WorkspaceID : string; i_Role : string;
  i_Theme : string; i_ReducedMotion : option bool }.

Definition locked (db : Db) (id : string) : result auth_err Account :=
  match accounts db !! id with
  | Some a => if is_active a then Ok a else Err ErrNoRows
  | None => Err ErrNoRows
  end.

Definition save_account (db : Db) (id : string) (a : Account) : Db := mkDb (<[id := a]> (accounts db)) (sessions db).
Definition with_totp (a : Account) (raw : bytes) : Account :=
  mkAccount (Email a) (DisplayName a) (password_hash a) raw (is_active a) (members a) (Theme a) (ReducedMotion a).
Definition saveTOTP (db : Db) (id : string) (a : Account) (state : totpState) (nonce : bytes) : Db :=
  save_account db id (with_totp a (seal id state nonce)).
(** [DELETE FROM session WHERE user_id=$1] *)
Definition sign_out (db : Db) (id : string) : Db :=
  mkDb (accounts db) (filter (fun kv : string * session => s_user kv.2 <> id) (sessions db)).

(** [Enroll]: the random secret is an argument. *)
Definition Enroll (db : Db) (id password : string) (now : Z) (secret nonce : bytes) : result auth_err (bytes * Db) :=
  let* a := locked db id in
  match password_hash a with
  | None => Err ErrCredentials
  | Some h =>
      if negb (VerifyPassword h password) then Err ErrCredentials
      else
        let* state := open_ id (totp_secret a) in
        if Active state then Err ErrCredentials
        else Ok (secret, saveTOTP db id a (mkTotp secret false (-1) (now + 600) []) nonce)
  end.

(** [Confirm]: the eight random recovery codes are an argument. *)
Definition Confirm (db : Db) (id code : string) (now : Z) (codes : list string) (nonce : bytes) :
    result auth_err (list string * Db) :=
  let* a := locked db id in
  let* state := open_ id (totp_secret a) in
  if negb (length (Secret state) =? 20) || Active state || (PendingUntil state <? now)%Z then Err ErrCredentials
  else match consumeCode state code now false with
       | None => Err ErrCredentials
       | Some st =>
           let st := mkTotp (Secret st) true (LastStep st) 0
                       (Recovery st ++ map (fun c => hex (sha256 (chars c))) codes) in
           Ok (codes, sign_out (saveTOTP db id a st nonce) id)
       end.

Definition lifetime : Z := 12 * 3600.

(** [sierx_create_session] and the token [issueSession] makes of random bytes. *)
Definition issueSession (db : Db) (id : string) (raw : bytes) (now : Z) : result auth_err (string * Db) :=
  let token := Base64.encode Base64.url raw in
  match accounts db !! id with
  | Some a =>
      if is_active a
      then Ok (token, mkDb (accounts db) (<[hex (sha256 (chars token)) := mkSession id (now + lifetime)]> (sessions db)))
      else Err ErrCredentials
  | None => Err ErrCredentials
  end.

Definition checkSecondFactor (db : Db) (id code : string) (now : Z) (nonce raw : bytes) : result auth_err (string * Db) :=
  let* a := locked db id in
  let* state := open_ id (totp_secret a) in
  let* db := if Active state then
               match consumeCode state code now true with
               | None => Err ErrCredentials
               | Some st => Ok (saveTOTP db id a st nonce)
               end
             else Ok db in
  issueSession db id raw now.

Definition Disable (db : Db) (id password code : string) (now : Z) : result auth_err Db :=
  let* a := locked db id in
  match password_hash a with
  | None => Err ErrCredentials
  | Some h =>
      if negb (VerifyPassword h password) then Err ErrCredentials
      else
        let* state := open_ id (totp_secret a) in
        if negb (Active state) then Err ErrCredentials
        else match consumeCode state code now true with
             | None => Err ErrCredentials
             | Some _ => Ok (sign_out (save_account db id (with_totp a [])) id)
             end
  end.

(** * local.go *)

(** An account by its address, compared without case, with a workspace. *)
Definition by_email (db : Db) (email : string) : option (string * Account) :=
  List.find (fun ka => String.eqb (to_lower (Email ka.2)) (to_lower email) && is_active ka.2 &&
                       negb (match members ka.2 with [] => true | _ => false end)) (map_to_list (accounts db)).

(** Password work is done for unknown accounts too, against a fixed hash. *)
Definition dummyHash : string :=
  scheme +:+ Base64.encode Base64.std (repeat Ascii.zero 16) +:+ "$" +:+ Base64.encode Base64.std (repeat Ascii.zero 32).

Definition Login (db : Db) (email password code : string) (now : Z) (nonce raw : bytes) : result auth_err (string * Db) :=
  let found := by_email db email in
  let hash := match found with Some (_, a) => password_hash a | None => None end in
  let encoded := match hash with Some h => h | None => dummyHash end in
  let valid := VerifyPassword encoded password in
  match found, hash, valid with
  | Some (id, _), Some _, true => checkSecondFactor db id code now nonce raw
  | _, _, _ => Err ErrCredentials
  end.

Definition identity_of (id : string) (a : Account) (member : string * string) : Identity :=
  mkIdentity id (Email a) (DisplayName a) member.1 member.2 (Theme a) (ReducedMotion a).

Definition Session (db : Db) (token : string) (now : Z) : result auth_err Identity :=
  if negb (String.length token =? 43) then Err ErrCredentials
  else match sessions db !! hex (sha256 (chars token)) with
       | None => Err ErrCredentials
       | Some s =>
           match accounts db !! s_user s with
           | Some a =>
               match members a with
               | m :: _ => if (now <? expires_at s)%Z && is_active a then Ok (identity_of (s_user s) a m) else Err ErrCredentials
               | [] => Err ErrCredentials
               end
           | None => Err ErrCredentials
           end
       end.

Definition Logout (db : Db) (token : string) : Db :=
  mkDb (accounts db) (delete (hex (sha256 (chars token))) (sessions db)).

(** * proxy.go *)

Inductive addr := V4 (a : Z) | V6 (a : Z).
Record prefix := mkPrefix { p_addr : addr; p_bits : Z }.

(** [Unmap]: an IPv4 address embedded in IPv6 is that IPv4 address. *)
Definition unmap (a : addr) : addr :=
  match a with
  | V6 z => if (Z.shiftr z 32 =? 65535)%Z then V4 (Z.land z (2 ^ 32 - 1)) else V6 z
  | V4 z => V4 z
  end.
Definition contains (p : prefix) (a : addr) : bool :=
  match p_addr p, a with
  | V4 x, V4 y => (Z.shiftr x (32 - p_bits p) =? Z.shiftr y (32 - p_bits p))%Z
  | V6 x, V6 y => (Z.shiftr x (128 - p_bits p) =? Z.shiftr y (128 - p_bits p))%Z
  | _, _ => false
  end.

(** [peer] is the immediate peer's address, [None] if it does not parse; [emails]
    are the values of the header. *)
Definition Proxy (db : Db) (peer : option addr) (emails : list string) (trusted : list prefix) : result auth_err Identity :=
  match peer with
  | None => Err ErrCredentials
  | Some a =>
      if negb (existsb (fun p => contains p (unmap a)) trusted) then Err ErrCredentials
      else match emails with
           | [email] =>
               if String.eqb (trim_space email) "" ||
                  existsb (fun c => Ascii.eqb c ","%char || Ascii.eqb c newline || Ascii.eqb c carriage) (chars email) ||
                  (320 <? String.length email) then Err ErrCredentials
               else match by_email db (trim_space email) with
                    | Some (id, a) =>
                        match password_hash a, members a with
                        | None, m :: _ => Ok (identity_of id a m)
                        | _, _ => Err ErrCredentials
                        end
                    | None => Err ErrCredentials
                    end
           | _ => Err ErrCredentials
           end
  end.

End totp.
End Auth.
