(* ===== verification/AuthProps.v ===== *)
(** What sign-in promises: a stored password verifies, a session needs password
    and second factor, codes are accepted once, changing the second factor ends
    every session. *)
From S2P Require Import Prelude Utf8 Base64 Journal JournalDemo Auth.
Open Scope nat_scope.

Module AuthProps.
Import Auth.

(** * Passwords *)

Section password.
Context {AC : AuthCrypto}.

Lemma base64_no_dollar b : Forall (fun c => c <> "$"%char) (chars (Base64.encode Base64.std b)).
Proof.
  unfold Base64.encode. rewrite chars_of_chars. apply Forall_forall. intros c (n & -> & _)%list_elem_of_fmap.
  unfold Base64.enc6. assert (H : forallb (fun d => negb (Ascii.eqb d "$"%char)) Base64.std = true) by reflexivity.
  rewrite forallb_forall in H. intros E. destruct (Nat.ltb_spec n (length Base64.std)) as [Hn|Hn].
  - specialize (H _ (nth_In Base64.std "A"%char Hn)). rewrite E in H. done.
  - rewrite nth_overflow in E by done. done.
Qed.

Lemma hash_parts salt hash :
  str_split "$"%char (scheme +:+ Base64.encode Base64.std salt +:+ "$" +:+ Base64.encode Base64.std hash) =
  [""; "argon2id"; "v=19"; "m=65536,t=3,p=1"; Base64.encode Base64.std salt; Base64.encode Base64.std hash].
Proof.
  set (e1 := Base64.encode Base64.std salt). set (e2 := Base64.encode Base64.std hash).
  transitivity (str_split "$"%char (str_join (String "$" "") [""; "argon2id"; "v=19"; "m=65536,t=3,p=1"; e1; e2])); [done|].
  apply str_split_join; [done|].
  repeat (apply Forall_cons_2; [try (by repeat constructor; discriminate); apply base64_no_dollar|]). constructor.
Qed.

(** A password verifies against exactly the hashes it was stored as: for any
    salt, the stored text accepts a password if and only if it is no longer
    than 1024 bytes and Argon2id gives it the same key. *)
Theorem VerifyPassword_HashPassword password other salt h :
  length salt = 16 -> HashPassword password salt = Ok h ->
  VerifyPassword h other = (String.length other <=? 1024) && bool_decide (argon2id (chars other) salt = argon2id (chars password) salt).
Proof.
  intros Hs. unfold HashPassword. destruct (ValidatePassword password) as [u|]; [|done]. intros [= <-].
  unfold VerifyPassword. rewrite hash_parts. rewrite !Base64.decode_encode_std, argon2id_length, Hs. cbn [Nat.eqb negb orb].
  rewrite !String.eqb_refl. cbn [negb orb]. rewrite Nat.ltb_antisym. by destruct (String.length other <=? 1024).
Qed.

End password.

(** * The second factor *)

Section factor.
Context {CR : Crypto} {AC : AuthCrypto} {CT : Codec totpState} (service_key : bytes).
Context (key_length : length service_key = 32).

Lemma open_seal id st nonce : length nonce = 12 -> open_ service_key id (seal service_key id st nonce) = Ok st.
Proof.
  intros Hn. unfold open_, seal. rewrite length_app, Hn. cbn [Nat.add Nat.eqb].
  destruct (Nat.ltb_spec (12 + length (gcm_seal service_key nonce (marshal st) (chars id))) 12); [lia|].
  rewrite take_app_length', drop_app_length' by done. rewrite gcm_open_seal by done. by rewrite unmarshal_marshal.
Qed.

(** What an accepted code uses up: a time step, or the digest of a recovery code. *)
Inductive use := ByStep (step : Z) | ByRecovery (digest : string).
Definition step_of (u : use) : option Z := match u with ByStep s => Some s | ByRecovery _ => None end.
Definition digest_of (u : use) : option string := match u with ByStep _ => None | ByRecovery d => Some d end.

(** The code is that of the step, which is the current one or a neighbour; or the one
    with the digest. *)
Definition used_by (secret : bytes) (code : string) (now : Z) (u : use) : Prop :=
  match u with
  | ByStep s => code = Code secret (s * 30) /\ (now ÷ 30 - 1 <= s <= now ÷ 30 + 1)%Z
  | ByRecovery d => d = hex (sha256 (chars code))
  end.

(** A list of uses from a state on: the steps grow from the last one used, and every
    digest is taken out of the recovery codes there are. *)
Definition uses_from (st : totpState) (us : list use) : Prop :=
  StronglySorted Z.lt (LastStep st :: omap step_of us) /\ exists left, omap digest_of us ++ left ≡ₚ Recovery st.

Lemma use_recovery_perm e l l' : use_recovery e l = Some l' -> e :: l' ≡ₚ l.
Proof.
  revert l'; induction l as [|w l IH]; intros l' H; [done|]. simpl in H. destruct (String.eqb_spec e w) as [->|]; [by injection H as <-|].
  destruct (use_recovery e l) as [m|]; [|done]. injection H as <-. rewrite Permutation_swap. by rewrite (IH m eq_refl).
Qed.

Lemma find_step_spec st code now c :
  find_step st code now = Some c -> (LastStep st < c)%Z /\ used_by (Secret st) code now (ByStep c).
Proof.
  unfold find_step. intros H. apply List.find_some in H as [Hin [Hlt%Z.ltb_lt Hc%String.eqb_eq]%andb_prop]. simpl in Hin.
  split; [done|]. split; [done|]. destruct Hin as [<-|[<-|[<-|[]]]]; lia.
Qed.

Lemma consumeCode_kept st code now rec st' : consumeCode st code now rec = Some st' -> Active st' = Active st /\ Secret st' = Secret st.
Proof.
  unfold consumeCode. destruct (if String.length code =? 6 then find_step st code now else None) as [c|]; [by intros [= <-]|].
  destruct rec; [|done]. destruct (use_recovery _ (Recovery st)) as [l|]; [|done]. by intros [= <-].
Qed.

(** An accepted code and what it leaves. *)
Lemma consumeCode_uses st code now rec st' us : consumeCode st code now rec = Some st' -> uses_from st' us ->
  exists u, used_by (Secret st) code now u /\ uses_from st (u :: us).
Proof.
  unfold consumeCode. intros E [Hs [left Hl]]. apply StronglySorted_inv in Hs as [Hs Hlast].
  destruct (if String.length code =? 6 then find_step st code now else None) as [c|] eqn:Ef.
  - injection E as <-. cbn [LastStep Recovery Active Secret] in *. destruct (String.length code =? 6); [|done].
    apply find_step_spec in Ef as [Hlt Hu]. exists (ByStep c). split; [done|]. split; [|by exists left].
    cbn [omap list_omap step_of]. apply SSorted_cons; [by apply SSorted_cons|]. constructor; [done|]. eapply Forall_impl; [exact Hlast|]. intros s Hcs. cbn beta in *. lia.
  - destruct rec; [|done]. destruct (use_recovery _ (Recovery st)) as [l|] eqn:El; [|done]. injection E as <-.
    cbn [LastStep Recovery Active Secret] in *. exists (ByRecovery (hex (sha256 (chars code)))). split; [done|].
    split; [by apply SSorted_cons|]. exists left. cbn [omap list_omap digest_of app]. rewrite Hl. by apply use_recovery_perm.
Qed.

(** A run of second-factor checks on one account: code, time, nonce and token
    material of each. *)
Record check := mkCheck { ck_code : string; ck_now : Z; ck_nonce : bytes; ck_raw : bytes }.

Fixpoint run_checks (db : Db) (id : string) (l : list check) : list bool :=
  match l with
  | [] => []
  | c :: l =>
      match checkSecondFactor service_key db id (ck_code c) (ck_now c) (ck_nonce c) (ck_raw c) with
      | Ok (_, db) => true :: run_checks db id l
      | Err _ => false :: run_checks db id l
      end
  end.

(** The checks of a run that let someone in. *)
Definition accepted (db : Db) (id : string) (l : list check) : list check :=
  (List.filter snd (zip l (run_checks db id l))).*1.

Lemma run_checks_uses l : forall db id a st,
  accounts db !! id = Some a -> open_ service_key id (totp_secret a) = Ok st -> Active st = true ->
  Forall (fun c => length (ck_nonce c) = 12) l ->
  exists us, Forall2 (fun c u => used_by (Secret st) (ck_code c) (ck_now c) u) (accepted db id l) us /\ uses_from st us.
Proof.
  induction l as [|c l IH]; intros db id a st Ha Hst Hact Hl.
  { exists []. split; [constructor|]. split; [by repeat constructor|]. by exists (Recovery st). }
  apply Forall_cons in Hl as [Hnonce Hl]. unfold accepted. cbn [run_checks].
  destruct (checkSecondFactor service_key db id (ck_code c) (ck_now c) (ck_nonce c) (ck_raw c)) as [[tok db']|] eqn:E; [|exact (IH db id a st Ha Hst Hact Hl)].
  unfold checkSecondFactor, locked in E. rewrite Ha in E. destruct (is_active a) eqn:Hia; [|done]. rewrite Hst, Hact in E.
  destruct (consumeCode st (ck_code c) (ck_now c) true) as [st'|] eqn:Ec; [|done].
  unfold issueSession, saveTOTP, save_account in E. cbn [accounts] in E. rewrite lookup_insert_eq in E.
  cbn [with_totp is_active] in E. rewrite Hia in E. injection E as <- <-.
  destruct (consumeCode_kept _ _ _ _ _ Ec) as [Hact' Hsec].
  match goal with |- context [run_checks ?d id l] => destruct (IH d id (with_totp a (seal service_key id st' (ck_nonce c))) st') as (us & Hus & Hu) end.
  { apply lookup_insert_eq. }
  { exact (open_seal id st' (ck_nonce c) Hnonce). }
  { congruence. }
  { exact Hl. }
  destruct (consumeCode_uses _ _ _ _ _ _ Ec Hu) as (u & Hcu & Hfrom). exists (u :: us). split; [|exact Hfrom].
  rewrite Hsec in Hus. cbn [zip zip_with List.filter snd fmap list_fmap fst]. by constructor.
Qed.

Lemma sorted_range (lo hi : Z) l : StronglySorted Z.lt (lo :: l) -> Forall (fun s => s <= hi)%Z l -> (Z.of_nat (length l) <= Z.max 0 (hi - lo))%Z.
Proof.
  revert lo; induction l as [|s l IH]; intros lo Hs Hh; [simpl; lia|]. apply StronglySorted_inv in Hs as [Hs Hlo].
  apply Forall_cons in Hh as [Hsh Hh], Hlo as [Hlo _]. specialize (IH s Hs Hh). cbn [length]. lia.
Qed.

(** The uses of checks up to [limit]: no more than the steps until then and the
    recovery codes there are. *)
Lemma uses_bounded secret st (limit : Z) cs us : Forall2 (fun c u => used_by secret (ck_code c) (ck_now c) u) cs us ->
  Forall (fun c => ck_now c <= limit)%Z cs -> uses_from st us ->
  (Z.of_nat (length cs) <= Z.max 0 (limit ÷ 30 + 1 - LastStep st) + Z.of_nat (length (Recovery st)))%Z.
Proof.
  intros Hus Hl [Hs [left Hp]]. apply Permutation_length in Hp. rewrite length_app in Hp.
  assert (Hlen : length cs = length (omap step_of us) + length (omap digest_of us)).
  { rewrite (Forall2_length _ _ _ Hus). clear. induction us as [|[s|d] us IH]; [done|..]; cbn [omap list_omap step_of digest_of length] in *; lia. }
  assert (Hr : Forall (fun s => s <= limit ÷ 30 + 1)%Z (omap step_of us)).
  { clear -Hus Hl. induction Hus as [|c u cs us Hu _ IH]; [constructor|]. apply Forall_cons in Hl as [Hc Hl]. specialize (IH Hl).
    destruct u as [s|d]; cbn [omap list_omap step_of]; [|done]. constructor; [|done]. destruct Hu as [_ Hu].
    pose proof (Z.quot_le_mono (ck_now c) limit 30). lia. }
  pose proof (sorted_range _ _ _ Hs Hr). lia.
Qed.

(** C30. Second-factor codes are accepted once. Whatever codes are tried on an account
    with an active second factor, in whatever order and at whatever times, each code
    that lets someone in uses up something of its own: the time step it is the code of,
    the current one or a neighbour, and these steps grow from the last one used, so that
    no step is accepted twice or after a later one; or its own recovery digest, which is
    taken out of those left, so that none is accepted more often than it was issued. Up
    to any moment that is at most one sign-in per step and one per recovery code. *)
Theorem second_factor_once db id a st limit l :
  accounts db !! id = Some a -> open_ service_key id (totp_secret a) = Ok st -> Active st = true ->
  Forall (fun c => (ck_now c <= limit)%Z /\ length (ck_nonce c) = 12) l ->
  (exists us, Forall2 (fun c u => used_by (Secret st) (ck_code c) (ck_now c) u) (accepted db id l) us /\
     StronglySorted Z.lt (LastStep st :: omap step_of us) /\ exists left, omap digest_of us ++ left ≡ₚ Recovery st) /\
  (Z.of_nat (length (accepted db id l)) <= Z.max 0 (limit ÷ 30 + 1 - LastStep st) + Z.of_nat (length (Recovery st)))%Z.
Proof.
  intros Ha Hst Hact Hl. apply Forall_and in Hl as [Hlim Hn]. destruct (run_checks_uses l db id a st Ha Hst Hact Hn) as (us & Hus & Hu).
  split; [by exists us|]. apply (uses_bounded _ _ _ _ _ Hus); [|exact Hu]. apply Forall_forall. intros c Hc.
  unfold accepted in Hc. apply list_elem_of_fmap in Hc as ([c' b] & -> & Hc). apply list_elem_of_In, List.filter_In in Hc as [Hc _].
  apply list_elem_of_In, elem_of_zip_l in Hc. rewrite Forall_forall in Hlim. by apply Hlim.
Qed.

(** * Signing in *)

Lemma by_email_spec db email id a :
  by_email db email = Some (id, a) ->
  accounts db !! id = Some a /\ to_lower (Email a) = to_lower email /\ is_active a = true /\ members a <> [].
Proof.
  unfold by_email. intros H. apply List.find_some in H as [Hin H]. cbn [fst snd] in H.
  apply andb_prop in H as [[He%String.eqb_eq Hact]%andb_prop Hm]. apply list_elem_of_In, elem_of_map_to_list in Hin.
  split_and!; [done|done|done|]. by destruct (members a).
Qed.

(** C31. A session is only issued for a password and, where one is active, a code:
    a successful sign-in names an active account with a workspace and a stored
    password the given one verifies against; an active second factor has
    consumed the code; and the session recorded is the account's, for twelve
    hours, under the digest of the token returned. *)
Theorem Login_requires db email password code now nonce raw token db' :
  Login service_key db email password code now nonce raw = Ok (token, db') ->
  exists id a h st,
    accounts db !! id = Some a /\ to_lower (Email a) = to_lower email /\ is_active a = true /\ members a <> [] /\
    password_hash a = Some h /\ VerifyPassword h password = true /\ open_ service_key id (totp_secret a) = Ok st /\
    (Active st = true -> is_Some (consumeCode st code now true)) /\
    sessions db' = <[hex (sha256 (chars token)) := mkSession id (now + lifetime)]> (sessions db).
Proof.
  unfold Login. destruct (by_email db email) as [[id a]|] eqn:Hf; [|done].
  destruct (password_hash a) as [h|] eqn:Hh; [|done]. destruct (VerifyPassword h password) eqn:Hv; [|done]. intros E.
  apply by_email_spec in Hf as (Ha & He & Hact & Hm). unfold checkSecondFactor, locked in E. rewrite Ha, Hact in E.
  destruct (open_ service_key id (totp_secret a)) as [st|] eqn:Hst; [|done]. exists id, a, h, st.
  destruct (Active st) eqn:Hsa.
  - destruct (consumeCode st code now true) as [st'|]; [|done]. unfold issueSession, saveTOTP, save_account in E.
    cbn [accounts sessions] in E. rewrite lookup_insert_eq in E. cbn [with_totp is_active] in E. rewrite Hact in E.
    injection E as <- <-. split_and!; try done.
  - unfold issueSession in E. rewrite Ha, Hact in E. injection E as <- <-. split_and!; done.
Qed.

Lemma sign_out_none db id k s : sessions (sign_out db id) !! k = Some s -> s_user s <> id.
Proof. unfold sign_out. cbn [sessions]. intros H. apply map_lookup_filter_Some in H as [_ H]. exact H. Qed.

(** Turning the second factor on or off ends every session of the account, and
    leaves it exactly on (with one recovery digest per code shown) or off. *)
Theorem second_factor_change db id db' :
  (forall code now codes nonce shown, length nonce = 12 -> Confirm service_key db id code now codes nonce = Ok (shown, db') ->
     (forall k s, sessions db' !! k = Some s -> s_user s <> id) /\ shown = codes /\
     exists a st, accounts db' !! id = Some a /\ open_ service_key id (totp_secret a) = Ok st /\ Active st = true /\
       exists old, Recovery st = old ++ map (fun c => hex (sha256 (chars c))) codes) /\
  (forall password code now, Disable service_key db id password code now = Ok db' ->
     (forall k s, sessions db' !! k = Some s -> s_user s <> id) /\
     exists a, accounts db' !! id = Some a /\ open_ service_key id (totp_secret a) = Ok no_totp).
Proof.
  split.
  - intros code now codes nonce shown Hn E. unfold Confirm in E. inv_ok E. subst db' shown. split_and!.
    + intros k s. apply sign_out_none.
    + done.
    + eexists _, _. cbn [sign_out accounts saveTOTP save_account]. rewrite lookup_insert_eq. split; [done|].
      cbn [with_totp totp_secret]. rewrite open_seal by done. split; [done|]. split; [done|]. by eexists.
  - intros password code now E. unfold Disable in E. inv_ok E. subst db'. split.
    + intros k s'. apply sign_out_none.
    + eexists. cbn [sign_out accounts save_account]. rewrite lookup_insert_eq. done.
Qed.

End factor.

(** * An account that signs in *)

Import JournalDemo.

#[export] Instance totp_fields : Fielded totpState.
Proof.
  refine {| to_fields t := [text (of_chars (Secret t)); text (Active t); text (LastStep t); text (PendingUntil t); text (Recovery t)];
            of_fields l := match l with
              | [a; b; c; d; e] => match untext a, untext b, untext c, untext d, untext e with
                  | Some a, Some b, Some c, Some d, Some e => Some (mkTotp (chars a) b c d e) | _, _, _, _, _ => None end
              | _ => None end |}.
  intros []. cbn [Secret Active LastStep PendingUntil Recovery]. by rewrite !untext_text, chars_of_chars.
Defined.

#[export] Instance demo_auth : AuthCrypto.
Proof.
  refine {| argon2id p s := take 32 (p ++ s ++ repeat Ascii.zero 32);
            hmac_sha1 k m := concat (repeat (checksum (k ++ m)) 20) |}.
  intros p s. rewrite length_take, !length_app, repeat_length. lia.
Defined.

Definition demo_salt : bytes := repeat "s"%char 16.
Definition demo_password : string := "correct horse".
Definition demo_hash : string := match HashPassword demo_password demo_salt with Ok h => h | Err _ => "" end.

Lemma VerifyPassword_HashPassword_witness :
  VerifyPassword demo_hash demo_password = true /\ VerifyPassword demo_hash "wrong password" = false.
Proof.
  pose proof (VerifyPassword_HashPassword demo_password demo_password demo_salt demo_hash eq_refl eq_refl) as H1.
  pose proof (VerifyPassword_HashPassword demo_password "wrong password" demo_salt demo_hash eq_refl eq_refl) as H2.
  split; [rewrite H1|rewrite H2]; vm_compute; reflexivity.
Defined.

Definition demo_totp : totpState :=
  mkTotp (repeat "x"%char 20) true 100 0 [hex (sha256 (chars "rec-1")); hex (sha256 (chars "rec-2"))].
Definition demo_account : Account :=
  mkAccount "Ada@Example.org" "Ada" (Some demo_hash) (seal demo_key "u" demo_totp nonce1) true [("w", "admin")] "system" None.
Definition demo_db : Db := mkDb {["u" := demo_account]} {["old" := mkSession "u" 99999]}.

Definition good_code : string := Code (Secret demo_totp) 3060.
Definition demo_checks : list check :=
  [mkCheck good_code 3060 nonce1 (repeat "r"%char 32); mkCheck good_code 3061 nonce1 (repeat "r"%char 32);
   mkCheck "rec-2" 3062 nonce1 (repeat "q"%char 32); mkCheck "rec-2" 3062 nonce1 (repeat "q"%char 32)].

Example demo_checks_run : run_checks demo_key demo_db "u" demo_checks = [true; false; true; false].
Proof. vm_compute. reflexivity. Qed.

Lemma second_factor_once_witness :
  ck_code <$> accepted demo_key demo_db "u" demo_checks = [good_code; "rec-2"] /\
  exists us, Forall2 (fun c u => used_by (Secret demo_totp) (ck_code c) (ck_now c) u) (accepted demo_key demo_db "u" demo_checks) us /\
    StronglySorted Z.lt (100%Z :: omap step_of us).
Proof.
  split; [vm_compute; reflexivity|].
  destruct (second_factor_once demo_key eq_refl demo_db "u" demo_account demo_totp 3062 demo_checks) as [(us & Hus & Hs & _) _];
    [vm_compute; reflexivity|vm_compute; reflexivity|reflexivity|repeat constructor; vm_compute; discriminate|].
  exists us. split; [exact Hus|exact Hs].
Defined.

Definition demo_login : string * Db :=
  match Login demo_key demo_db "ada@example.org" demo_password good_code 3060 nonce1 (repeat "r"%char 32) with
  | Ok r => r | Err _ => ("", demo_db) end.

Lemma demo_login_ok :
  Login demo_key demo_db "ada@example.org" demo_password good_code 3060 nonce1 (repeat "r"%char 32) = Ok (demo_login.1, demo_login.2).
Proof.
  rewrite <- surjective_pairing. unfold demo_login.
  assert (H : is_ok (Login demo_key demo_db "ada@example.org" demo_password good_code 3060 nonce1 (repeat "r"%char 32)) = true)
    by (vm_compute; reflexivity).
  revert H. by destruct (Login _ _ _ _ _ _ _ _).
Qed.

Lemma Login_requires_witness :
  exists id a h st,
    accounts demo_db !! id = Some a /\ to_lower (Email a) = to_lower "ada@example.org" /\ is_active a = true /\ members a <> [] /\
    password_hash a = Some h /\ VerifyPassword h demo_password = true /\ open_ demo_key id (totp_secret a) = Ok st /\
    (Active st = true -> is_Some (consumeCode st good_code 3060 true)) /\
    sessions demo_login.2 = <[hex (sha256 (chars demo_login.1)) := mkSession id (3060 + lifetime)]> (sessions demo_db).
Proof.
  pose proof (Login_requires demo_key demo_db "ada@example.org" demo_password good_code 3060 nonce1 (repeat "r"%char 32)
    demo_login.1 demo_login.2) as H.
  exact (H demo_login_ok).
Defined.

Definition demo_disabled : Db :=
  match Disable demo_key demo_db "u" demo_password "rec-1" 3060 with Ok db => db | Err _ => demo_db end.
Lemma demo_disabled_ok : Disable demo_key demo_db "u" demo_password "rec-1" 3060 = Ok demo_disabled.
Proof.
  assert (H : is_ok (Disable demo_key demo_db "u" demo_password "rec-1" 3060) = true) by (vm_compute; reflexivity).
  unfold demo_disabled. revert H. by destruct (Disable _ _ _ _ _ _).
Qed.

Lemma second_factor_change_witness :
  (forall k s, sessions demo_disabled !! k = Some s -> s_user s <> "u") /\
  exists a, accounts demo_disabled !! "u" = Some a /\ open_ demo_key "u" (totp_secret a) = Ok no_totp.
Proof.
  pose proof (second_factor_change demo_key eq_refl demo_db "u" demo_disabled) as H. destruct H as [_ H].
  exact (H demo_password "rec-1" 3060%Z demo_disabled_ok).
Defined.

End AuthProps.
