(* ===== verification/Throttle.v ===== *)
(** The sign-in attempt throttle, [login] and [totpAllowed] of [internal/api/auth.go]
    and [totp.go]: a counter per address or account, reset a minute after its
    first attempt, and the handler around it. *)
From S2P Require Import Prelude Utf8 Base64 Journal Auth.
Open Scope Z_scope.

Module Throttle.
Import Auth.

(** [attemptWindow]: when it began, in nanoseconds, and how many attempts it saw. *)
Record attemptWindow := mkWindow { start : Z; count : Z }.
#[export] Instance attemptWindow_eq : EqDecision attemptWindow.
Proof. solve_decision. Defined.
Abbreviation attempts := (gmap string attemptWindow).

Definition minute : Z := 60 * 10 ^ 9.

(** The loop that forgets the windows that are over. *)
Definition purge (now : Z) (m : attempts) : attempts :=
  filter (fun kv : string * attemptWindow => now - start kv.2 < minute) m.

(** One attempt under [key]: whether it is limited, and the counters after it. *)
Definition attempt (m : attempts) (key : string) (now : Z) : bool * attempts :=
  let m := purge now m in
  let entry := match m !! key with Some e => mkWindow (start e) (count e + 1) | None => mkWindow now 1 end in
  let limited := (10 <? count entry) || (4096 <=? Z.of_nat (size m)) in
  (limited, if limited then m else <[key := entry]> m).

(** * login and totpAllowed *)

Inductive answer :=
  | Problem (status : Z)
  | Limited (retry_after : Z)
  | SignedIn (token : string).

Record credentials := mkCredentials { c_Email : string; c_Password : string; c_Code : string }.

Record request := mkRequest {
  Origin : option string;
  ip : string;
  decoded : result Z credentials (* the body, or the status its decoding failed with *)
}.

(** [strings.TrimRight(s, "/")] *)
Fixpoint trim_slashes (l : list ascii) : list ascii :=
  match l with
  | [] => []
  | c :: l => match trim_slashes l with
              | [] => if Ascii.eqb c "/"%char then [] else [c]
              | r => c :: r
              end
  end.

Definition validOrigin (base_url : string) (origin : option string) : bool :=
  match origin with
  | Some o => String.eqb o "" || String.eqb o (of_chars (trim_slashes (chars base_url)))
  | None => true
  end.

Section login.
Context {CR : Crypto} {AC : AuthCrypto} {CT : Codec totpState} (service_key : bytes).
Context (local_mode : bool) (base_url : string).

(** [busy]: the one slot for password work is taken. *)
Definition login (m : attempts) (db : Db) (r : request) (now_ns : Z) (busy : bool) (nonce raw : bytes) :
    answer * attempts * Db :=
  if negb local_mode then (Problem 403, m, db)
  else if negb (validOrigin base_url (Origin r)) then (Problem 403, m, db)
  else
    let '(limited, m) := attempt m (ip r) now_ns in
    if limited then (Limited 60, m, db)
    else match decoded r with
    | Err status => (Problem status, m, db)
    | Ok input =>
        if String.eqb (c_Email input) "" || (320 <? String.length (c_Email input))%nat || (1024 <? String.length (c_Password input))%nat
        then (Problem 400, m, db)
        else if busy then (Limited 1, m, db)
        else match Login service_key db (c_Email input) (c_Password input) (c_Code input) (now_ns / 10 ^ 9) nonce raw with
             | Ok (token, db) => (SignedIn token, m, db)
             | Err ErrCredentials => (Problem 401, m, db)
             | Err _ => (Problem 503, m, db)
             end
    end.

(** [totpAllowed]: [None] when the request may go on. *)
Definition totpAllowed (m : attempts) (id : string) (now_ns : Z) (busy : bool) : option answer * attempts :=
  if negb local_mode then (Some (Problem 403), m)
  else
    let '(limited, m) := attempt m ("totp:" +:+ id) now_ns in
    if limited then (Some (Limited 60), m)
    else if busy then (Some (Limited 1), m) else (None, m).

End login.

(** * How many attempts get through *)

(** The attempts of a run under [key] that were let through at a time in
    [[t, t + minute)]. *)
Fixpoint admitted (key : string) (t : Z) (m : attempts) (l : list (string * Z)) : Z :=
  match l with
  | [] => 0
  | (k, now) :: l =>
      let '(limited, m) := attempt m k now in
      (if negb limited && String.eqb k key && (t <=? now) && (now <? t + minute) then 1 else 0) + admitted key t m l
  end.

(** The clock does not go back. *)
Fixpoint ordered (last : Z) (l : list (string * Z)) : Prop :=
  match l with [] => True | (_, now) :: l => last <= now /\ ordered now l end.

Definition windows_ok (last : Z) (m : attempts) : Prop :=
  forall k e, m !! k = Some e -> 1 <= count e <= 10 /\ start e <= last.

(** What [key] may still be let through in the interval. *)
Definition allowance (key : string) (t last : Z) (m : attempts) : Z :=
  if t + minute <=? last then 0
  else if last <? t then 20
  else match m !! key with
       | None => 10
       | Some e => if t <=? start e then 10 - count e else 20 - count e
       end.

Lemma purge_lookup now m k e : purge now m !! k = Some e <-> m !! k = Some e /\ now - start e < minute.
Proof. unfold purge. rewrite map_lookup_filter_Some. done. Qed.

Lemma purge_lookup_none now m k : purge now m !! k = None -> m !! k = None \/ exists e, m !! k = Some e /\ minute <= now - start e.
Proof.
  unfold purge. intros [H|H]%map_lookup_filter_None; [by left|]. destruct (m !! k) as [e|] eqn:E; [|by left].
  right. exists e. split; [done|]. specialize (H e eq_refl). cbn in H. lia.
Qed.

Lemma attempt_ok m k now last limited m' :
  windows_ok last m -> last <= now -> attempt m k now = (limited, m') -> windows_ok now m'.
Proof.
  intros Hm Hnow. unfold attempt. set (entry := match _ with Some e => _ | None => _ end).
  assert (Hp : windows_ok now (purge now m)).
  { intros k' e [He _]%purge_lookup. destruct (Hm k' e He). lia. }
  destruct ((10 <? count entry) || _) eqn:Hl; intros [= <- <-]; [done|].
  apply orb_false_iff in Hl as [Hl%Z.ltb_ge _]. intros k' e. destruct (decide (k = k')) as [<-|Hne].
  - rewrite lookup_insert_eq. intros [= <-]. unfold entry in *. destruct (purge now m !! k) as [e|] eqn:E; cbn [count start] in *.
    + destruct (Hp k e E). lia.
    + lia.
  - rewrite lookup_insert_ne by done. apply Hp.
Qed.

(** One attempt spends what it is given. *)
Lemma attempt_allowance key t m k now last limited m' :
  windows_ok last m -> last <= now -> attempt m k now = (limited, m') ->
  (if negb limited && String.eqb k key && (t <=? now) && (now <? t + minute) then 1 else 0) + allowance key t now m'
    <= allowance key t last m.
Proof.
  intros Hm Hnow Ha. unfold attempt in Ha. set (entry := match purge now m !! k with Some e => _ | None => _ end) in Ha.
  unfold allowance, minute in *.
  destruct (Z.leb_spec (t + 60 * 10 ^ 9) last) as [H1|H1].
  { destruct (Z.leb_spec (t + 60 * 10 ^ 9) now); [|lia]. destruct (Z.ltb_spec now (t + 60 * 10 ^ 9)); [lia|]. rewrite andb_false_r. lia. }
  destruct (Z.leb_spec (t + 60 * 10 ^ 9) now) as [H2|H2].
  { destruct (Z.ltb_spec now (t + 60 * 10 ^ 9)); [lia|]. rewrite andb_false_r. destruct (Z.ltb_spec last t); [lia|].
    destruct (m !! key) as [e|] eqn:Ee; [|lia]. destruct (Hm key e Ee). destruct (t <=? start e); lia. }
  destruct (Z.ltb_spec now (t + 60 * 10 ^ 9)) as [_|]; [|lia]. rewrite andb_true_r.
  destruct (Z.ltb_spec now t) as [Hnt|Hnt].
  { destruct (Z.leb_spec t now); [lia|]. rewrite andb_false_r. destruct (Z.ltb_spec last t); lia. }
  destruct (Z.leb_spec t now); [|lia]. rewrite andb_true_r.
  assert (Hbefore : forall e, m !! key = Some e -> minute <= now - start e -> start e < t) by (unfold minute; lia).
  destruct (decide (m' !! key = purge now m !! key)) as [Esame|Ediff].
  - (* nothing let through under [key] *)
    assert (Hno : negb limited && String.eqb k key = false).
    { destruct (String.eqb_spec k key) as [->|]; [|apply andb_false_r]. rewrite andb_true_r.
      destruct limited; [done|]. exfalso. destruct (_ || _) in Ha; [done|]. injection Ha as <-.
      rewrite lookup_insert_eq in Esame. unfold entry in Esame. destruct (purge now m !! key) as [e|]; [|done].
      injection Esame as E. destruct e as [b c]. cbn in E. injection E as E. lia. }
    rewrite Hno, Esame. destruct (purge now m !! key) as [e|] eqn:Ep.
    + apply purge_lookup in Ep as [Ee _]. destruct (Hm key e Ee) as [Hc Hs]. rewrite Ee.
      destruct (Z.ltb_spec last t), (Z.leb_spec t (start e)); lia.
    + destruct (Z.ltb_spec last t); [lia|]. apply purge_lookup_none in Ep as [->|(e & Ee & He)]; [lia|].
      rewrite Ee. destruct (Hm key e Ee) as [Hc Hs]. specialize (Hbefore e Ee He). destruct (Z.leb_spec t (start e)); lia.
  - (* one attempt under [key] *)
    destruct (_ || _) eqn:Hl in Ha; injection Ha as <- <-; [done|]. apply orb_false_iff in Hl as [Hl%Z.ltb_ge _].
    destruct (String.eqb_spec k key) as [->|Hk]; [|by rewrite lookup_insert_ne in Ediff].
    cbn [negb andb]. rewrite lookup_insert_eq. unfold entry in *. destruct (purge now m !! key) as [e|] eqn:Ep; cbn [start count] in *.
    + apply purge_lookup in Ep as [Ee _]. destruct (Hm key e Ee) as [Hc Hs]. rewrite Ee.
      destruct (Z.ltb_spec last t), (Z.leb_spec t (start e)); lia.
    + destruct (Z.leb_spec t now); [|lia]. destruct (Z.ltb_spec last t); [lia|].
      apply purge_lookup_none in Ep as [->|(e & Ee & He)]; [lia|].
      rewrite Ee. destruct (Hm key e Ee) as [Hc Hs]. specialize (Hbefore e Ee He). destruct (Z.leb_spec t (start e)); lia.
Qed.

Lemma admitted_allowance key t l : forall last m,
  windows_ok last m -> ordered last l -> admitted key t m l <= allowance key t last m.
Proof.
  induction l as [|[k now] l IH]; intros last m Hm Hl.
  - cbn [admitted]. unfold allowance. destruct (_ <=? _); [lia|]. destruct (_ <? _); [lia|].
    destruct (m !! key) as [e|] eqn:E; [|lia]. destruct (Hm key e E). destruct (_ <=? _); lia.
  - destruct Hl as [Hnow Hl]. cbn [admitted]. destruct (attempt m k now) as [limited m'] eqn:Ha.
    pose proof (attempt_allowance key t _ _ _ _ _ _ Hm Hnow Ha) as Hstep.
    pose proof (IH now m' (attempt_ok _ _ _ _ _ _ Hm Hnow Ha) Hl) as Hrest. lia.
Qed.

(** C33. The throttle bounds guessing: from a fresh start and with a clock that
    does not go back, no address or account gets more than twenty attempts
    through in any interval of a minute, however the attempts of all keys
    interleave. *)
Theorem attempts_bounded key t l first :
  ordered first l -> admitted key t ∅ l <= 20.
Proof.
  intros Hl. assert (Hm : windows_ok first ∅) by by intros k e; rewrite lookup_empty.
  pose proof (admitted_allowance key t l first ∅ Hm Hl) as H. unfold allowance in H. rewrite lookup_empty in H.
  destruct (_ <=? _); [lia|]. destruct (_ <? _); lia.
Qed.

(** Whether a run lets an attempt under [key] through. *)
Fixpoint let_in (key : string) (m : attempts) (l : list (string * Z)) : bool :=
  match l with
  | [] => false
  | (k, now) :: l => let '(limited, m) := attempt m k now in (String.eqb k key && negb limited) || let_in key m l
  end.

(** The table of windows never fills up during the run. *)
Fixpoint roomy (m : attempts) (l : list (string * Z)) : Prop :=
  match l with
  | [] => True
  | (k, now) :: l => Z.of_nat (size (purge now m)) < 4096 /\ roomy (attempt m k now).2 l
  end.

Lemma attempt_other m k now key : k <> key -> (attempt m k now).2 !! key = purge now m !! key.
Proof. intros Hne. unfold attempt. destruct (_ || _); simpl; [done|]. by rewrite lookup_insert_ne. Qed.

Lemma attempt_limited m key now m' : attempt m key now = (true, m') -> m' = purge now m.
Proof. unfold attempt. destruct (_ || _); [|done]. by intros [= <-]. Qed.

Lemma attempt_fresh m key now :
  purge now m !! key = None -> Z.of_nat (size (purge now m)) < 4096 -> (attempt m key now).1 = false.
Proof. intros Hn Hs. unfold attempt. rewrite Hn. simpl. by rewrite (proj2 (Z.leb_gt _ _) Hs). Qed.

Lemma let_in_cons key m k now l :
  let_in key m ((k, now) :: l) =
  (String.eqb k key && negb (attempt m k now).1) || let_in key (attempt m k now).2 l.
Proof. cbn [let_in]. by destruct (attempt m k now). Qed.

Lemma let_in_window key t l : forall m,
  (forall e, m !! key = Some e -> start e <= t) -> roomy m l -> Exists (fun kn => kn.1 = key /\ t + minute <= kn.2) l ->
  let_in key m l = true.
Proof.
  induction l as [|[k now] l IH]; intros m Hm Hr He; [by inversion He|]. cbn [roomy] in Hr. destruct Hr as [Hs Hr].
  rewrite let_in_cons. destruct (String.eqb_spec k key) as [->|Hne]; cbn [andb orb].
  - destruct (attempt m key now) as [[|] m'] eqn:Ea; cbn [fst snd negb orb] in *; [|done].
    apply Exists_cons in He as [[_ Hnow]|He].
    + assert (Hp : purge now m !! key = None).
      { destruct (purge now m !! key) as [e|] eqn:E; [|done]. apply purge_lookup in E as [E Hlt]. specialize (Hm e E).
        simpl in Hnow. lia. }
      pose proof (attempt_fresh _ _ _ Hp Hs) as Hf. by rewrite Ea in Hf.
    + apply attempt_limited in Ea as ->. apply IH; [|done|done]. intros e [He' _]%purge_lookup. by apply Hm.
  - apply Exists_cons in He as [[Hk _]|He]; [done|]. apply IH; [|done|done].
    rewrite attempt_other by done. intros e [He' _]%purge_lookup. by apply Hm.
Qed.

(** Nobody is locked out for good: once an attempt of a key was refused, some
    attempt of that key is let through at the latest with the first one made a minute
    later, even if the key keeps trying in between and whatever other keys do, as
    long as fewer than 4096 windows are open. *)
Theorem throttle_recovers m key t m1 l :
  (forall e, m !! key = Some e -> start e <= t) -> attempt m key t = (true, m1) ->
  roomy m1 l -> Exists (fun kn => kn.1 = key /\ t + minute <= kn.2) l -> let_in key m1 l = true.
Proof.
  intros Hm Ha. apply attempt_limited in Ha as ->. apply let_in_window. intros e [He _]%purge_lookup. by apply Hm.
Qed.

(** Ten attempts are let through and the eleventh is not; the key goes on trying. *)
Definition ten : list (string * Z) := map (fun k => ("a", Z.of_nat k)) (seq 0 10).
Definition after_ten : attempts := fold_left (fun m kn => (attempt m kn.1 kn.2).2) ten ∅.
Definition insist : list (string * Z) := [("a", 20); ("b", 30); ("a", 50 * 10 ^ 9); ("a", 10 + minute)].

Example eleventh : (attempt after_ten "a" 10).1 = true.
Proof. vm_compute. reflexivity. Qed.

Lemma throttle_recovers_witness : let_in "a" (attempt after_ten "a" 10).2 insist = true.
Proof.
  apply (throttle_recovers after_ten "a" 10).
  - intros e He. vm_compute in He. injection He as <-. vm_compute. discriminate.
  - vm_compute. reflexivity.
  - repeat split; vm_compute; reflexivity.
  - do 3 right. left. split; [reflexivity|vm_compute; discriminate].
Defined.

(** Nine more attempts just before a window's end and ten after it. *)
Definition burst : list (string * Z) :=
  ("a", 0) :: map (fun k => ("a", 59 * 10 ^ 9 + Z.of_nat k)) (seq 0 10) ++ map (fun k => ("a", 61 * 10 ^ 9 + Z.of_nat k)) (seq 0 12).

Example burst_admitted : admitted "a" (59 * 10 ^ 9) ∅ burst = 19.
Proof. vm_compute. reflexivity. Qed.

Lemma attempts_bounded_witness : admitted "a" (59 * 10 ^ 9) ∅ burst <= 20.
Proof.
  apply (attempts_bounded "a" (59 * 10 ^ 9) burst 0).
  repeat split; vm_compute; discriminate.
Defined.

End Throttle.
