(* ===== verification/Problem.v ===== *)
(** Problem documents and the request checks every endpoint shares:
    [internal/api/problem.go] and the helpers of [projects.go], [items.go] and
    [transition.go] that answer with one. *)
From S2P Require Import Prelude Utf8 Uuid Float Json Db.
Open Scope Z_scope.

Module Problem.
Import Db.

(** [Problem]; [Type] is [about:blank] unless a handler changes it. *)
Record Problem_ := mkProblem {
  Type_ : string;
  Title : string;
  Status : Z;
  Detail : string;
  Current : option json;
  Submitted : option json
}.

Definition problem (status : Z) (title detail : string) : Problem_ :=
  mkProblem "about:blank" title status detail None None.
Definition with_detail (d : string) (p : Problem_) : Problem_ :=
  mkProblem (Type_ p) (Title p) (Status p) d (Current p) (Submitted p).

Definition BadRequest := problem 400 "Bad Request" "The request is invalid. Check the fields and try again.".
Definition Unauthorized := problem 401 "Unauthorized" "Sign in to continue.".
Definition Forbidden := problem 403 "Forbidden" "Your account cannot perform this action. Contact a workspace administrator.".
Definition NotFound := problem 404 "Not Found" "This resource was not found. Check its identifier and try again.".
Definition MethodNotAllowed := problem 405 "Method Not Allowed" "This method is not supported for this resource. Check the API method.".
Definition NotAcceptable := problem 406 "Not Acceptable" "Accept br, gzip or identity encoding for this response.".
Definition Conflict (current : json) : Problem_ :=
  mkProblem "about:blank" "Conflict" 409
    "This item changed. Compare the current version with your edits and retry using its version." (Some current) None.
Definition TooLarge := problem 413 "Content Too Large" "The request is too large. Reduce its size and try again.".
Definition UnsupportedMediaType := problem 415 "Unsupported Media Type" "Send a JSON request with Content-Type: application/json.".
Definition Unprocessable := problem 422 "Unprocessable Content" "This change is not valid for the resource. Review its configuration and try again.".
Definition PreconditionRequired := problem 428 "Precondition Required" "Send If-Match with the current item version before changing this item.".
Definition RateLimited := problem 429 "Too Many Requests" "Too many attempts. Wait before trying again.".
Definition InternalError := problem 500 "Internal Server Error" "The request could not be completed. Try again.".
Definition Unavailable := problem 503 "Service Unavailable" "The service is temporarily unavailable. Try again shortly.".

(** What a handler writes: a problem, or a document with the headers that carry
    information ([ETag] is an item, project or workspace version). *)
Inductive reply :=
  | RProblem (p : Problem_)
  | RDoc (status : Z) (etag : option Z) (location : option string) (doc : json).

Definition reply_status (r : reply) : Z :=
  match r with RProblem p => Status p | RDoc st _ _ _ => st end.

Definition requestProblem (detail : string) : Problem_ := with_detail detail BadRequest.
Definition invalidChange (detail : string) : Problem_ := with_detail detail Unprocessable.

(** [databaseProblem]; [None] is an error that is neither [pgx.ErrNoRows] nor a
    [*pgconn.PgError]. *)
Definition databaseProblem (e : option dberr) : Problem_ :=
  match e with
  | Some NoRows => NotFound
  | Some (PgError code) =>
      if String.eqb code "23505" then problem 409 "Conflict" "This identifier already exists. Choose a different identifier."
      else if mem_str code ["22P02"; "22007"; "22008"; "23514"; "23503"] then Unprocessable
      else Unavailable
  | None => Unavailable
  end.

(** [auth.Identity], with its identifiers already parsed. *)
Record identity := mkIdentity { ID : uuid; WorkspaceID : uuid; Role : string }.

(** A request as the handlers read it: whether the query has [fields], its [item]
    value, the [If-Match] header (empty when absent), the value [{key}] or [{id}]
    of the path, and the body after [decodeJSON] has checked its media type, size and
    syntax. *)
Record api_request := mkRequest {
  rq_who : identity;
  rq_has_fields : bool;
  rq_item : string;
  rq_IfMatch : string;
  rq_param : string;
  rq_body : result Problem_ json
}.

(** [if !rejectFields(w, r) { return }] *)
Definition rejectFields (r : api_request) : result Problem_ unit :=
  if rq_has_fields r
  then Err (with_detail "fields is not supported for this endpoint; remove it." BadRequest)
  else Ok tt.

Definition dquote : ascii := Ascii.ascii_of_nat 34.

(** The text between the quotes of a header of at least three bytes. *)
Definition quoted_text (h : string) : option string :=
  if (String.length h <? 3)%nat then None
  else match chars h, last (chars h) with
       | c :: l, Some c' => if Ascii.eqb c dquote && Ascii.eqb c' dquote then Some (of_chars (removelast l)) else None
       | _, _ => None
       end.

(** [strconv.ParseInt(s, 10, 32)] *)
Definition parse_int32 (s : string) : option Z :=
  match parse_int64 s with Some n => if in_int32 n then Some n else None | None => None end.

Definition expectedVersion (r : api_request) : result Problem_ Z :=
  if String.eqb (rq_IfMatch r) "" then Err PreconditionRequired
  else match quoted_text (rq_IfMatch r) with
  | None => Err (requestProblem "If-Match must contain one quoted item version.")
  | Some s =>
      match parse_int32 s with
      | Some n => if n <? 1 then Err (requestProblem "If-Match must contain one positive quoted item version.") else Ok n
      | None => Err (requestProblem "If-Match must contain one positive quoted item version.")
      end
  end.

(** [decodeJSON] into a [map[string]json.RawMessage]: an object, or null for an
    empty map. *)
Definition decode_raw (r : api_request) : result Problem_ (list (string * json)) :=
  match rq_body r with
  | Err p => Err p
  | Ok (JObj m) => Ok m
  | Ok JNull => Ok []
  | Ok _ => Err BadRequest
  end.

(** The distinct keys of a decoded map in the order [sort.Strings] gives. *)
Definition sorted_keys {A} (m : list (string * A)) : list string := sort_strings (remove_dups (obj_keys m)).

Definition in_quotes (s : string) : string := String dquote s +:+ String dquote "".
Definition etag_text (n : Z) : string := in_quotes (z_text n).

Example expectedVersion_ex :
  (fun h => match expectedVersion (mkRequest (mkIdentity (U 1) (U 2) "member") false "" h "" (Ok JNull)) with
            | Ok n => n | Err p => - Status p end)
  <$> [etag_text 7; ""; "7"; etag_text 0; in_quotes "2147483648"; "W/" +:+ etag_text 7; in_quotes "2147483647"]
  = [7; -428; -400; -400; -400; -400; 2147483647].
Proof. vm_compute. reflexivity. Qed.

End Problem.
