(* ===== verification/Site.v ===== *)
(** The tables the HTTP handlers read beside those of [Db.v] (configuration,
    members, names), the queries they run on them, and the document of an item
    that [readItem] returns. The three timestamps of an item are not kept. *)
From S2P Require Import Prelude Uuid Ltree DateTime Float Json Db.
Open Scope Z_scope.

Module Site.
Import Db.

Record project_row := mkProjectRow {
  pj_name : string;
  pj_kind : string;
  pj_owner : option uuid;
  pj_archived : bool;
  pj_version : Z
}.
Record account_row := mkAccountRow { ac_display_name : string; ac_is_active : bool }.
Record workspace_row := mkWorkspaceRow { w_slug : string; w_name : string; w_version : Z; w_origin : uuid }.

(** [config_status], [config_type] and [config_transition] are keyed by their
    primary keys and hold the display order, the initial status and [requires]. *)
Record Site := mkSite {
  s_db : Db;
  s_workspace : gmap uuid workspace_row;
  s_project : gmap uuid project_row;
  s_account : gmap uuid account_row;
  s_membership : gmap (uuid * uuid) string;
  s_status_name : gmap uuid string;
  s_type_name : gmap uuid string;
  s_field_def : gmap (uuid * string) (string * json);
  s_config_status : gmap (uuid * Z * uuid) Z;
  s_config_type : gmap (uuid * Z * uuid) uuid;
  s_config_transition : gmap (uuid * Z * uuid * uuid) json
}.

Definition set_db (d : Db) (s : Site) : Site :=
  mkSite d (s_workspace s) (s_project s) (s_account s) (s_membership s) (s_status_name s) (s_type_name s)
    (s_field_def s) (s_config_status s) (s_config_type s) (s_config_transition s).

(** * Queries *)

(** The first row of a query, [pgx.ErrNoRows] without one. *)
Definition query_row {A} (rows : list A) : result dberr A :=
  match rows with r :: _ => Ok r | [] => Err NoRows end.

Definition project_by_key (ws : uuid) (prefix : string) (s : Site) : result dberr (uuid * Project) :=
  query_row (List.filter (fun r : uuid * Project => bool_decide (p_workspace r.2 = ws) && String.eqb (p_key_prefix r.2) prefix)
               (map_to_list (projects (s_db s)))).

Definition has_key (ws : uuid) (key : string) (i : Item) : bool :=
  bool_decide (i_workspace i = ws) && String.eqb (i_key i) key.

(** [... FROM item WHERE workspace_id=$1 AND key=$2] *)
Definition item_by_key (ws : uuid) (key : string) (d : Db) : result dberr Item :=
  query_row (List.filter (has_key ws key) (map_to_list (items d)).*2).
(** The same with [AND deleted_at IS NULL]. *)
Definition live_item (ws : uuid) (key : string) (d : Db) : result dberr Item :=
  query_row (List.filter (fun i => has_key ws key i && negb (i_deleted i)) (map_to_list (items d)).*2).

(** [(SELECT max(version) FROM project_config WHERE project_id=$1)] *)
Definition max_version (project : uuid) (d : Db) : option Z :=
  match (fun pv : uuid * Z => pv.2) <$> List.filter (fun pv => bool_decide (pv.1 = project)) (elements (project_configs d)) with
  | [] => None
  | v :: vs => Some (fold_right Z.max v vs)
  end.

(** [EXISTS(SELECT 1 FROM membership m JOIN user_account u ... AND u.is_active)] *)
Definition active_member (ws user : uuid) (s : Site) : bool :=
  match s_membership s !! (ws, user), s_account s !! user with
  | Some _, Some a => ac_is_active a
  | _, _ => false
  end.

(** * The document of an item *)

Definition opt_json {A} (f : A -> json) (o : option A) : json := match o with Some a => f a | None => JNull end.

(** A [numeric] in hundredths as a JSON number. *)
Definition num_hundredths (z : Z) : float64 := of_decimal (z <? 0) (Z.abs z) (-2).
Definition json_num (z : Z) : json := JNum (num_hundredths z).
Definition json_date (d : Z) : json := JStr (format_date d).
Definition json_uuid (u : uuid) : json := JStr (uuid_string u).

Definition status_doc (s : Site) (id : uuid) : option json :=
  match statuses (s_db s) !! id, s_status_name s !! id with
  | Some st, Some name => Some (JObj [("key", JStr (s_key st)); ("name", JStr name); ("category", JStr (s_category st))])
  | _, _ => None
  end.
Definition assignee_doc (s : Site) (a : option uuid) : json :=
  match a with
  | Some u => match s_account s !! u with
              | Some row => JObj [("id", json_uuid u); ("display_name", JStr (ac_display_name row))]
              | None => JNull
              end
  | None => JNull
  end.
Definition type_doc (s : Site) (id : uuid) : option json :=
  match item_types (s_db s) !! id, s_type_name s !! id with
  | Some t, Some name => Some (JObj [("key", JStr (t_key t)); ("name", JStr name); ("level", JInt (t_level t))])
  | _, _ => None
  end.
Definition parent_doc (s : Site) (p : option uuid) : json :=
  match p with
  | Some p => match items (s_db s) !! p with Some i => JObj [("key", JStr (i_key i))] | None => JNull end
  | None => JNull
  end.
Definition project_doc (s : Site) (id : uuid) : option json :=
  match projects (s_db s) !! id, s_project s !! id with
  | Some p, Some row => Some (JObj [("key_prefix", JStr (p_key_prefix p)); ("name", JStr (pj_name row))])
  | _, _ => None
  end.
Definition rollup_doc (r : Rollup) : json :=
  JObj [("descendant_count", JInt (descendant_count r)); ("done_count", JInt (done_count r));
        ("points_total", opt_json json_num (points_total r)); ("points_done", opt_json json_num (points_done r));
        ("earliest_start", opt_json json_date (earliest_start r)); ("latest_due", opt_json json_date (latest_due r))].

(** The default projection of a row; [None] when an inner join finds no partner. *)
Definition item_doc (s : Site) (i : Item) : option (list (string * json)) :=
  match status_doc s (i_status i), type_doc s (i_type i), project_doc s (i_project i), rollups (s_db s) !! i_id i with
  | Some st, Some ty, Some pj, Some ro =>
      Some [("id", json_uuid (i_id i)); ("key", JStr (i_key i)); ("title", JStr (i_title i));
            ("body", opt_json JStr (i_body i)); ("version", JInt (i_version i)); ("change_seq", JInt (i_change_seq i));
            ("config_version", JInt (i_config_version i)); ("rank", JStr (i_rank i));
            ("points", opt_json json_num (i_points i)); ("start_date", opt_json json_date (i_start i));
            ("due_date", opt_json json_date (i_due i)); ("status", st); ("assignee", assignee_doc s (i_assignee i));
            ("type", ty); ("parent", parent_doc s (i_parent i)); ("project", pj); ("fields", i_fields i);
            ("rollup", rollup_doc ro)]
  | _, _, _, _ => None
  end.

(** [readItem(ctx, workspace, key, nil)]: the row itself, which the handlers know
    by [current["id"]], with its document and version. *)
Definition readItem (ws : uuid) (key : string) (s : Site) : result dberr (Item * list (string * json) * Z) :=
  query_row (omap (fun i => if has_key ws key i then match item_doc s i with Some d => Some (i, d, i_version i) | None => None end else None)
               (map_to_list (items (s_db s))).*2).

(** [current[field]]: nil for a missing key. *)
Definition field_of (doc : list (string * json)) (k : string) : json := match obj_get k doc with Some v => v | None => JNull end.

End Site.
