(* ===== verification/Input.v ===== *)
(** Item input: decoding a JSON body into [itemInput] as [encoding/json] does and
    [validateInput], [internal/api/items.go] and [validation.go]. The URL parser
    of the standard library is a parameter. *)
From S2P Require Import Prelude Utf8 Uuid DateTime Float Json Db Problem Site.
From Stdlib Require Import Floats.SpecFloat.
Open Scope Z_scope.

Module Input.
Import Db Problem Site.

(** [url.Parse]: scheme and [Hostname()] of a URL it accepts. *)
Class UrlParse := { url_parse : string -> option (string * string) }.

Record itemInput := mkInput {
  ii_Project : string;
  ii_Type : string;
  ii_Title : string;
  ii_Body : option string;
  ii_Parent : option string;
  ii_Assignee : option string;
  ii_Points : option float64;
  ii_StartDate : option string;
  ii_DueDate : option string;
  ii_Fields : option (list (string * json))
}.
Definition empty_input : itemInput := mkInput "" "" "" None None None None None None None.

(** * Decoding *)

(** The fold under which encoding/json compares names that do not match exactly:
    case, the long s and the Kelvin sign. *)
Fixpoint fold_chars (l : list ascii) : list ascii :=
  match l with
  | [] => []
  | c :: (c' :: l') as t =>
      if ((byte_of c =? 197) && (byte_of c' =? 191))%nat then "s"%char :: fold_chars l'
      else match l' with
           | c'' :: l'' =>
               if ((byte_of c =? 226) && (byte_of c' =? 132) && (byte_of c'' =? 170))%nat
               then "k"%char :: fold_chars l'' else lower_char c :: fold_chars t
           | [] => lower_char c :: fold_chars t
           end
  | c :: l => lower_char c :: fold_chars l
  end.
Definition fold_name (s : string) : string := of_chars (fold_chars (chars s)).

Definition input_names : list string :=
  ["project"; "type"; "title"; "body"; "parent"; "assignee"; "points"; "start_date"; "due_date"; "fields"].

(** The field a key of the document stands for. *)
Definition target (key : string) : option string :=
  if mem_str key input_names then Some key else List.find (String.eqb (fold_name key)) input_names.

(** A JSON value into a string, a pointer to a string or number, a map: null keeps
    the string and clears the others, and a second object is merged into the map. *)
Definition into_string (old : string) (v : json) : option string :=
  match v with JStr s => Some s | JNull => Some old | _ => None end.
Definition into_string_ptr (v : json) : option (option string) :=
  match v with JStr s => Some (Some s) | JNull => Some None | _ => None end.
Definition into_float_ptr (v : json) : option (option float64) :=
  match v with
  | JNum f => if is_finite f then Some (Some f) else None
  | JNull => Some None
  | _ => None
  end.
Definition into_map (old : option (list (string * json))) (v : json) : option (option (list (string * json))) :=
  match v with
  | JObj m => Some (Some (fold_left (fun acc kv => obj_set kv.1 kv.2 acc) m (match old with Some o => o | None => [] end)))
  | JNull => Some None
  | _ => None
  end.

Definition set_member (name : string) (v : json) (i : itemInput) : option itemInput :=
  let '(mkInput pr ty ti bo pa asg po st du fi) := i in
  if String.eqb name "project" then option_map (fun x => mkInput x ty ti bo pa asg po st du fi) (into_string pr v)
  else if String.eqb name "type" then option_map (fun x => mkInput pr x ti bo pa asg po st du fi) (into_string ty v)
  else if String.eqb name "title" then option_map (fun x => mkInput pr ty x bo pa asg po st du fi) (into_string ti v)
  else if String.eqb name "body" then option_map (fun x => mkInput pr ty ti x pa asg po st du fi) (into_string_ptr v)
  else if String.eqb name "parent" then option_map (fun x => mkInput pr ty ti bo x asg po st du fi) (into_string_ptr v)
  else if String.eqb name "assignee" then option_map (fun x => mkInput pr ty ti bo pa x po st du fi) (into_string_ptr v)
  else if String.eqb name "points" then option_map (fun x => mkInput pr ty ti bo pa asg x st du fi) (into_float_ptr v)
  else if String.eqb name "start_date" then option_map (fun x => mkInput pr ty ti bo pa asg po x du fi) (into_string_ptr v)
  else if String.eqb name "due_date" then option_map (fun x => mkInput pr ty ti bo pa asg po st x fi) (into_string_ptr v)
  else option_map (fun x => mkInput pr ty ti bo pa asg po st du x) (into_map fi v).

(** [json.Unmarshal] into an [itemInput]; [strict] is [DisallowUnknownFields]. *)
Fixpoint unmarshal_members (strict : bool) (m : list (string * json)) (i : itemInput) : option itemInput :=
  match m with
  | [] => Some i
  | (k, v) :: m =>
      match target k with
      | None => if strict then None else unmarshal_members strict m i
      | Some name => match set_member name v i with Some i => unmarshal_members strict m i | None => None end
      end
  end.

(** [encoded, _ := json.Marshal(raw); json.Unmarshal(encoded, &in)]: a marshalled
    map has its keys once and in order. *)
Definition remarshal (raw : list (string * json)) : list (string * json) :=
  omap (fun k => match obj_get k raw with Some v => Some (k, v) | None => None end) (sorted_keys raw).
Definition unmarshal_raw (raw : list (string * json)) : option itemInput :=
  unmarshal_members false (remarshal raw) empty_input.

(** [decodeJSON(w, r, &in)] *)
Definition decode_input (r : api_request) : result Problem_ itemInput :=
  match rq_body r with
  | Err p => Err p
  | Ok (JObj m) => match unmarshal_members true m empty_input with Some i => Ok i | None => Err BadRequest end
  | Ok JNull => Ok empty_input
  | Ok _ => Err BadRequest
  end.

(** * Floating point, as the check on points uses it *)

Definition fl (s : string) : float64 := match parse_float s with Some f => f | None => S754_nan end.

(** [math.Round]: half away from zero. *)
Definition f_round (f : float64) : float64 :=
  match f with
  | S754_finite s m e =>
      if 0 <=? e then f else of_decimal s ((2 * Z.pos m + 2 ^ (- e)) / (2 * 2 ^ (- e))) 0
  | _ => f
  end.
Definition f_mul (a b : float64) : float64 := SFmul 53 1024 a b.

Definition points_ok (p : float64) : bool :=
  let scaled := f_mul p (fl "100") in
  negb (f_lt p (fl "0") || f_lt (fl "9999.99") p ||
        match p with S754_nan | S754_infinity _ => true | _ => false end ||
        f_lt (fl "0.000001") (SFabs (SFsub 53 1024 scaled (f_round scaled)))).

(** * validateInput *)

Section validate.
Context `{UuidParse} `{UrlParse}.

Definition memberExists (ws : uuid) (id : string) (s : Site) : bool :=
  match uuid_parse id with Some u => active_member ws u s | None => false end.

(** [json.Unmarshal(raw, &options)] into a [[]string]. *)
Definition options_of (raw : json) : option (list string) :=
  match raw with
  | JNull => Some []
  | JArr l => mapM (fun v => match v with JStr s => Some s | JNull => Some "" | _ => None end) l
  | _ => None
  end.

Definition is_date (s : string) : bool := date_ok s.

(** The switch on [def.kind]. *)
Definition value_ok (ws : uuid) (s : Site) (kind : string) (options : list string) (v : json) : bool :=
  if String.eqb kind "text" then match v with JStr _ => true | _ => false end
  else if String.eqb kind "number" then match v with JNum _ => true | _ => false end
  else if String.eqb kind "bool" then match v with JBool _ => true | _ => false end
  else if String.eqb kind "date" then match v with JStr t => is_date t | _ => false end
  else if String.eqb kind "url" then
    match v with
    | JStr t => match url_parse t with
                | Some (scheme, hostname) =>
                    negb (String.eqb hostname "") && (String.eqb scheme "https" || String.eqb scheme "http")
                | None => false
                end
    | _ => false
    end
  else if String.eqb kind "user" then match v with JStr id => memberExists ws id s | _ => false end
  else if String.eqb kind "select" then match v with JStr t => mem_str t options | _ => false end
  else if String.eqb kind "multiselect" then
    match v with
    | JArr l => forallb (fun e => match e with JStr t => mem_str t options | _ => false end) l
    | _ => false
    end
  else false.

(** [%q]; runes above ASCII are printed as they are. *)
Definition quote_char (c : ascii) : list ascii :=
  let b := byte_of c in
  let back := Ascii.ascii_of_nat 92 in
  if ((b =? 34) || (b =? 92))%nat then [back; c]
  else if (b =? 7)%nat then [back; "a"%char] else if (b =? 8)%nat then [back; "b"%char]
  else if (b =? 12)%nat then [back; "f"%char] else if (b =? 10)%nat then [back; "n"%char]
  else if (b =? 13)%nat then [back; "r"%char] else if (b =? 9)%nat then [back; "t"%char]
  else if (b =? 11)%nat then [back; "v"%char]
  else if ((b <? 32) || (b =? 127))%nat then back :: "x"%char :: hex_fixed 2 (N.of_nat b)
  else [c].
Definition go_quote (s : string) : string := in_quotes (of_chars (concat (map quote_char (chars s)))).

(** The definitions of a project by key. *)
Definition field_defs (project : uuid) (s : Site) : list (string * (string * json)) :=
  omap (fun r : (uuid * string) * (string * json) => if bool_decide (r.1.1 = project) then Some (r.1.2, r.2) else None)
    (map_to_list (s_field_def s)).

(** The loop over [in.Fields]; Go visits a map in no fixed order, here in the order
    of the keys. *)
Definition check_field (ws : uuid) (s : Site) (defs : list (string * (string * list string))) (m : list (string * json))
    (key : string) : result string unit :=
  match obj_get key defs with
  | None => Err ("custom field " +:+ go_quote key +:+ " is not configured for this project")
  | Some (kind, options) =>
      match obj_get key m with
      | None | Some JNull => Ok tt
      | Some v =>
          if value_ok ws s kind options v then Ok tt
          else Err ("custom field " +:+ go_quote key +:+ " must match its " +:+ kind +:+ " definition and configured options")
      end
  end.

Definition read_defs (project : uuid) (s : Site) : result string (list (string * (string * list string))) :=
  mapM' (fun d : string * (string * json) =>
    match options_of d.2.2 with
    | Some options => Ok (d.1, (d.2.1, options))
    | None => Err "project field options are invalid; contact an administrator"
    end) (field_defs project s).

Definition validateFields (ws project : uuid) (m : list (string * json)) (s : Site) : result string unit :=
  match m with
  | [] => Ok tt
  | _ =>
      let* defs := read_defs project s in
      let* _ := mapM' (check_field ws s defs m) (sorted_keys m) in
      Ok tt
  end.

Definition title_bad (t : string) : bool := String.eqb (trim_space t) "" || (500 <? rune_count t)%nat.

Definition validateInput (ws project : uuid) (inp : itemInput) (titleRequired : bool) (s : Site) : result string unit :=
  guard* negb (titleRequired && title_bad (ii_Title inp)) else "title must contain 1–500 characters" in
  guard* match ii_Body inp with Some b => (Z.of_nat (String.length b) <=? 100000) | None => true end
    else "body must not exceed 100000 bytes" in
  guard* match ii_Points inp with Some p => points_ok p | None => true end
    else "points must be between 0 and 9999.99 with at most two decimal places" in
  guard* match ii_StartDate inp with Some d => is_date d | None => true end &&
         match ii_DueDate inp with Some d => is_date d | None => true end
    else "dates must use YYYY-MM-DD" in
  guard* match ii_Assignee inp with Some a => memberExists ws a s | None => true end
    else "assignee must identify an active workspace member" in
  validateFields ws project (match ii_Fields inp with Some m => m | None => [] end) s.

End validate.

Example points_ex :
  map (fun t => points_ok (fl t)) ["0"; "0.25"; "13"; "9999.99"; "10000"; "-1"; "0.001"; "1e300"; "2.675"; "0.29"]
  = [true; true; true; true; false; false; false; false; false; true].
Proof. vm_compute. reflexivity. Qed.
Example target_ex :
  map target ["title"; "TITLE"; "due_Date"; "statu"; String (Ascii.ascii_of_nat 197) (String (Ascii.ascii_of_nat 191) "tart_date")]
  = [Some "title"; Some "title"; Some "due_date"; None; Some "start_date"].
Proof. vm_compute. reflexivity. Qed.

End Input.
