(* ===== verification/Patch.v ===== *)
(** From a request to a mutation: the edit of an item, its transition and its move,
    [internal/api/items.go], [transition.go] and [move.go]. Each handler is split
    where it stops reading and calls [Mutate]: a plan, made from the tables the
    reads see, and its commit, against the tables the mutation sees. *)
From S2P Require Import Prelude Utf8 Uuid Ltree DateTime Float Json Db Events Mutate Problem Site Input.
Open Scope Z_scope.

Module Patch.
Import Ltree Db Events Mutate Problem Site Input.

(** * Mutations on the tables *)

Definition mutate_site `{UuidParse} (ws : uuid) (vs : list verb) (os : list mutate_option) (s : Site) :
    result store_err Result_ * Site :=
  let '(r, d) := Mutate ws (callback vs) (run_option <$> os) (s_db s) in (r, set_db d s).

(** The database error inside an error of the store, if there is one. *)
Definition db_error (e : store_err) : option dberr := match e with ErrDb e => Some e | _ => None end.

(** [mutationError] *)
Definition mutationError (ws : uuid) (key : string) (submitted : json) (e : store_err) (s : Site) : Problem_ :=
  match e with
  | ErrVersionConflict =>
      match readItem ws key s with
      | Err e => databaseProblem (Some e)
      | Ok (_, current, _) =>
          let p := Conflict (JObj current) in
          mkProblem (Type_ p) (Title p) (Status p) (Detail p) (Current p) (Some submitted)
      end
  | _ => databaseProblem (db_error e)
  end.

(** The answer with the item as it is now. *)
Definition item_reply (ws : uuid) (key : string) (s : Site) : reply :=
  match readItem ws key s with
  | Err e => RProblem (databaseProblem (Some e))
  | Ok (_, doc, v) => RDoc 200 (Some v) None (JObj doc)
  end.

(** * Editable fields *)

(** An [any] holding nil is SQL NULL in an event. *)
Definition non_null (v : json) : option json := match v with JNull => None | v => Some v end.
Definition as_object (v : json) : option (list (string * json)) := match v with JObj m => Some m | _ => None end.

Inductive patch_err :=
  | NotAnObject
  | NotEditable (field : string)
  | Panics.

Record patch := mkPatch { pt_up : ItemUpdate; pt_events : list FieldChange; pt_merged : list (string * json) }.

Definition empty_update (id : uuid) : ItemUpdate :=
  mkUpdate id None None false None None None false None false None false None false None None.

Definition with_title t u := mkUpdate (up_ID u) (Some t) (up_Body u) (up_SetBody u) (up_StatusID u) (up_ConfigVersion u) (up_AssigneeID u) (up_SetAssignee u) (up_Points u) (up_SetPoints u) (up_StartDate u) (up_SetStartDate u) (up_DueDate u) (up_SetDueDate u) (up_Rank u) (up_Fields u).
Definition with_body b u := mkUpdate (up_ID u) (up_Title u) b true (up_StatusID u) (up_ConfigVersion u) (up_AssigneeID u) (up_SetAssignee u) (up_Points u) (up_SetPoints u) (up_StartDate u) (up_SetStartDate u) (up_DueDate u) (up_SetDueDate u) (up_Rank u) (up_Fields u).
Definition with_status st v u := mkUpdate (up_ID u) (up_Title u) (up_Body u) (up_SetBody u) (Some st) (Some v) (up_AssigneeID u) (up_SetAssignee u) (up_Points u) (up_SetPoints u) (up_StartDate u) (up_SetStartDate u) (up_DueDate u) (up_SetDueDate u) (up_Rank u) (up_Fields u).
Definition with_assignee a u := mkUpdate (up_ID u) (up_Title u) (up_Body u) (up_SetBody u) (up_StatusID u) (up_ConfigVersion u) a true (up_Points u) (up_SetPoints u) (up_StartDate u) (up_SetStartDate u) (up_DueDate u) (up_SetDueDate u) (up_Rank u) (up_Fields u).
Definition with_points p u := mkUpdate (up_ID u) (up_Title u) (up_Body u) (up_SetBody u) (up_StatusID u) (up_ConfigVersion u) (up_AssigneeID u) (up_SetAssignee u) p true (up_StartDate u) (up_SetStartDate u) (up_DueDate u) (up_SetDueDate u) (up_Rank u) (up_Fields u).
Definition with_start d u := mkUpdate (up_ID u) (up_Title u) (up_Body u) (up_SetBody u) (up_StatusID u) (up_ConfigVersion u) (up_AssigneeID u) (up_SetAssignee u) (up_Points u) (up_SetPoints u) d true (up_DueDate u) (up_SetDueDate u) (up_Rank u) (up_Fields u).
Definition with_due d u := mkUpdate (up_ID u) (up_Title u) (up_Body u) (up_SetBody u) (up_StatusID u) (up_ConfigVersion u) (up_AssigneeID u) (up_SetAssignee u) (up_Points u) (up_SetPoints u) (up_StartDate u) (up_SetStartDate u) d true (up_Rank u) (up_Fields u).
Definition with_fields f u := mkUpdate (up_ID u) (up_Title u) (up_Body u) (up_SetBody u) (up_StatusID u) (up_ConfigVersion u) (up_AssigneeID u) (up_SetAssignee u) (up_Points u) (up_SetPoints u) (up_StartDate u) (up_SetStartDate u) (up_DueDate u) (up_SetDueDate u) (up_Rank u) (Some f).

Section patch.
Context `{UuidParse}.

(** [case "fields"]: the custom fields over the old ones, one event per key. *)
Definition merge_fields (old new : list (string * json)) : list (string * json) :=
  fold_left (fun acc k => obj_set k (field_of new k) acc) (sorted_keys new) old.
Definition field_events (old new : list (string * json)) : list FieldChange :=
  map (fun k => mkFieldChange "" ("fields." +:+ k) (non_null (field_of old k)) (non_null (field_of new k))) (sorted_keys new).

(** One round of the loop over the keys of the body. Old custom fields that are not
    an object count as none in updateItem ([tolerant]) and panic in itemPatch. *)
Definition patch_field (tolerant : bool) (inp : itemInput) (raw current : list (string * json)) (p : patch) (field : string) :
    result patch_err patch :=
  let value := field_of raw field in
  let old := field_of current field in
  let merged := obj_set field value (pt_merged p) in
  let plain up old := Ok (mkPatch up (pt_events p ++ [mkFieldChange "" field (non_null old) (non_null value)]) merged) in
  if String.eqb field "title" then plain (with_title (ii_Title inp) (pt_up p)) old
  else if String.eqb field "body" then plain (with_body (ii_Body inp) (pt_up p)) old
  else if String.eqb field "assignee" then
    plain (with_assignee (match ii_Assignee inp with Some a => uuid_parse a | None => None end) (pt_up p))
      (match old with JObj o => field_of o "id" | _ => old end)
  else if String.eqb field "points" then plain (with_points (ii_Points inp) (pt_up p)) old
  else if String.eqb field "start_date" then plain (with_start (ii_StartDate inp) (pt_up p)) old
  else if String.eqb field "due_date" then plain (with_due (ii_DueDate inp) (pt_up p)) old
  else if String.eqb field "fields" then
    match ii_Fields inp with
    | None => Err NotAnObject
    | Some new =>
        match as_object (field_of current "fields"), tolerant with
        | None, false => Err Panics
        | o, _ =>
            let oldFields := match o with Some oldFields => oldFields | None => [] end in
            let fields := merge_fields oldFields new in
            Ok (mkPatch (with_fields fields (pt_up p)) (pt_events p ++ field_events oldFields new)
                  (obj_set "fields" (JObj fields) (pt_merged p)))
        end
    end
  else Err (NotEditable field).

Definition patch_loop (tolerant : bool) (id : uuid) (inp : itemInput) (raw current : list (string * json)) : result patch_err patch :=
  foldM (patch_field tolerant inp raw current) (sorted_keys raw) (mkPatch (empty_update id) [] current).

End patch.

(** * PATCH /items/{key} *)

Definition editable : list string := ["title"; "body"; "assignee"; "points"; "start_date"; "due_date"; "fields"].

Section handlers.
Context `{UuidParse} `{UrlParse}.

Definition patch_problem (e : patch_err) : Problem_ :=
  match e with
  | NotAnObject => requestProblem "fields must be an object."
  | NotEditable f => requestProblem ("Field " +:+ f +:+ " cannot be edited here. Use its dedicated action.")
  | Panics => InternalError
  end.

(** What a handler has decided when it calls [Mutate]: the item, the version it
    expects, the verb, and what it would report as submitted. *)
Record plan := mkPlan { pl_item : uuid; pl_version : Z; pl_verb : verb; pl_submitted : json }.

Definition read_problem {A} (r : result dberr A) : result Problem_ A :=
  match r with Ok a => Ok a | Err e => Err (databaseProblem (Some e)) end.
Definition request_check (r : result string unit) : result Problem_ unit :=
  match r with Ok _ => Ok tt | Err d => Err (requestProblem d) end.

Definition update_plan (r : api_request) (s : Site) : result Problem_ plan :=
  let ws := WorkspaceID (rq_who r) in
  let* _ := rejectFields r in
  let* version := expectedVersion r in
  let* raw := decode_raw r in
  match sorted_keys raw with
  | [] => Err (requestProblem "Provide at least one editable field.")
  | keys =>
      match List.find (fun f => negb (mem_str f editable)) keys with
      | Some f => Err (patch_problem (NotEditable f))
      | None =>
          match unmarshal_raw raw with
          | None => Err BadRequest
          | Some inp =>
              let* (item, current, _) := read_problem (readItem ws (rq_param r) s) in
              let* _ := request_check (validateInput ws (i_project item) inp (mem_str "title" keys) s) in
              match patch_loop true (i_id item) inp raw current with
              | Err e => Err (patch_problem e)
              | Ok p =>
                  match pt_events p with
                  | [] => Err (requestProblem "Provide at least one editable field.")
                  | _ => Ok (mkPlan (i_id item) version (VUpdate (pt_up p) (pt_events p)) (JObj raw))
                  end
              end
          end
      end
  end.

(** The rest of updateItem, transitionItem and moveItem: the mutation and the
    answer. *)
Definition commit (r : api_request) (p : plan) (s : Site) : reply * Site :=
  let who := rq_who r in
  match mutate_site (WorkspaceID who) [pl_verb p] [OActor (ID who); OExpected (pl_item p) (pl_version p)] s with
  | (Err e, s') => (RProblem (mutationError (WorkspaceID who) (rq_param r) (pl_submitted p) e s'), s')
  | (Ok _, s') => (item_reply (WorkspaceID who) (rq_param r) s', s')
  end.

(** [updateItem] whose reads see [s] and whose mutation sees [s']. *)
Definition updateItem_at (r : api_request) (s s' : Site) : reply * Site :=
  match update_plan r s with Err e => (RProblem e, s') | Ok p => commit r p s' end.
Definition updateItem (r : api_request) (s : Site) : reply * Site := updateItem_at r s s.

(** * POST /items/{key}/transition *)

(** A strict decode of the members of a small struct: each member under the name
    of its field. *)
Definition struct_members (names : list string) (r : api_request) : result Problem_ (list (string * json)) :=
  let name k := if mem_str k names then Some k else List.find (String.eqb (fold_name k)) names in
  match rq_body r with
  | Err p => Err p
  | Ok JNull => Ok []
  | Ok (JObj m) =>
      mapM' (fun kv : string * json => match name kv.1 with Some n => Ok (n, kv.2) | None => Err BadRequest end) m
  | Ok _ => Err BadRequest
  end.

(** A string member: the last one that is not null. *)
Definition string_member (name : string) (m : list (string * json)) : result Problem_ string :=
  foldM (fun acc kv => if String.eqb kv.1 name
                       then match into_string acc kv.2 with Some s => Ok s | None => Err BadRequest end
                       else Ok acc) m "".
(** A [map[string]json.RawMessage] member. *)
Definition raw_member (name : string) (m : list (string * json)) : result Problem_ (option (list (string * json))) :=
  foldM (fun acc kv => if String.eqb kv.1 name
                       then match into_map acc kv.2 with Some s => Ok s | None => Err BadRequest end
                       else Ok acc) m None.

(** The query for the arc from the item's status to the named one in the latest
    configuration: target status, version and requirements. *)
Definition transition_rows (i : Item) (to : string) (s : Site) : list (uuid * Z * json) :=
  match max_version (i_project i) (s_db s) with
  | None => []
  | Some v =>
      omap (fun r : uuid * Db.Status =>
        if bool_decide (Db.s_project r.2 = i_project i) && String.eqb (s_key r.2) to
        then option_map (fun req => (r.1, v, req)) (s_config_transition s !! (i_project i, v, i_status i, r.1))
        else None) (map_to_list (statuses (s_db s)))
  end.

Definition blank (v : json) : bool := match v with JNull => true | JStr t => String.eqb t "" | _ => false end.

(** The value of a required field: [None] is a panic of the type assertion. *)
Definition required_value (merged : list (string * json)) (field : string) : option json :=
  if has_prefix field "fields."
  then option_map (fun o => field_of o (str_drop 7 field)) (as_object (field_of merged "fields"))
  else Some (field_of merged field).

Fixpoint missing_fields (merged : list (string * json)) (requires : list string) : option (list string) :=
  match requires with
  | [] => Some []
  | f :: requires =>
      match required_value merged f, missing_fields merged requires with
      | Some v, Some missing => Some (if blank v then f :: missing else missing)
      | _, _ => None
      end
  end.

(** [itemPatch]; its errors are texts of a 422, or a panic. *)
Definition itemPatch (ws project id : uuid) (current raw : list (string * json)) (s : Site) : result Problem_ patch :=
  match unmarshal_raw raw with
  | None => Err (invalidChange "fields must contain valid editable item properties")
  | Some inp =>
      match validateInput ws project inp (mem_str "title" (obj_keys raw)) s with
      | Err d => Err (invalidChange d)
      | Ok _ =>
          match patch_loop false id inp raw current with
          | Ok p => Ok p
          | Err NotAnObject => Err (invalidChange "fields must be an object")
          | Err (NotEditable f) => Err (invalidChange ("field " +:+ f +:+ " cannot be edited here; use its dedicated action"))
          | Err Panics => Err InternalError
          end
      end
  end.

Definition opt_object (m : option (list (string * json))) : json := match m with Some m => JObj m | None => JNull end.

Definition transition_plan (r : api_request) (s : Site) : result Problem_ plan :=
  let ws := WorkspaceID (rq_who r) in
  let key := rq_param r in
  let* _ := rejectFields r in
  let* version := expectedVersion r in
  let* m := struct_members ["to_status"; "fields"] r in
  let* to := string_member "to_status" m in
  let* fields := raw_member "fields" m in
  let submitted := JObj [("to_status", JStr to); ("fields", opt_object fields)] in
  let* (item, current, v) := read_problem (readItem ws key s) in
  if negb (v =? version) then Err (mutationError ws key submitted ErrVersionConflict s)
  else
    match (let* i := live_item ws key (s_db s) in query_row (transition_rows i to s)) with
    | Err NoRows => Err (invalidChange "to_status is not an allowed transition from the current status.")
    | Err e => Err (databaseProblem (Some e))
    | Ok (statusID, configVersion, required) =>
        let raw := match fields with Some m => m | None => [] end in
        let* p := itemPatch ws (i_project item) (i_id item) current raw s in
        match options_of required with
        | None => Err InternalError
        | Some requires =>
            match missing_fields (pt_merged p) requires, as_object (field_of current "status") with
            | Some [], Some st =>
                let events := pt_events p ++
                  [mkFieldChange EventStatusChanged "status" (non_null (field_of st "key")) (Some (JStr to))] in
                Ok (mkPlan (i_id item) version (VUpdate (with_status statusID configVersion (pt_up p)) events) submitted)
            | Some [], None | None, _ => Err InternalError
            | Some missing, _ =>
                Err (invalidChange ("Required fields are missing: " +:+ str_join ", " (sort_strings missing) +:+ "."))
            end
        end
    end.

Definition transitionItem_at (r : api_request) (s s' : Site) : reply * Site :=
  match transition_plan r s with Err e => (RProblem e, s') | Ok p => commit r p s' end.
Definition transitionItem (r : api_request) (s : Site) : reply * Site := transitionItem_at r s s.

(** * POST /items/{key}/move *)

(** [json.Unmarshal(raw, &key)] into a [*string]. *)
Definition key_member (v : json) : result Problem_ (option string) :=
  match into_string_ptr v with
  | Some k => Ok k
  | None => Err (requestProblem "parent and rank_after must be item keys or null.")
  end.

Definition move_problem : Problem_ :=
  invalidChange "The hierarchy changed. Choose a live parent without cycles and within depth 8, then retry.".

(** The checks on the new parent: its id, its path and its depth. *)
Definition move_parent (ws : uuid) (item : Item) (parentKey : option string) (s : Site) : result Problem_ (option uuid * nat) :=
  let prefix i := match projects (s_db s) !! i_project i with Some p => p_key_prefix p | None => "" end in
  match parentKey with
  | None => Ok (None, 0%nat)
  | Some key =>
      match live_item ws key (s_db s) with
      | Err NoRows =>
          Err (invalidChange ("Parent item " +:+ key +:+ " was not found. Enter a live item key in project " +:+ prefix item +:+ "."))
      | Err e => Err (databaseProblem (Some e))
      | Ok parent =>
          if negb (String.eqb (prefix parent) (prefix item)) then
            Err (invalidChange ("Cannot move an item from project " +:+ prefix item +:+ " under a parent in project " +:+
                                prefix parent +:+ ". Choose a parent in " +:+ prefix item +:+ "."))
          else if String.eqb (i_path parent) (i_path item) || has_prefix (i_path parent) (i_path item +:+ ".") then
            Err (invalidChange "parent cannot be this item or one of its descendants.")
          else Ok (Some (i_id parent), S (count_byte dot (i_path parent)))
      end
  end.

(** The sibling named by [rank_after]. *)
Definition move_after (ws : uuid) (item : Item) (afterKey : option string) (s : Site) : result Problem_ (option uuid) :=
  let prefix i := match projects (s_db s) !! i_project i with Some p => p_key_prefix p | None => "" end in
  match afterKey with
  | None => Ok None
  | Some key =>
      match live_item ws key (s_db s) with
      | Ok a =>
          if negb (String.eqb (prefix a) (prefix item)) then
            Err (invalidChange "rank_after must name another live item in the same project.")
          else if bool_decide (i_id a = i_id item) then Err (invalidChange "rank_after cannot name the item being moved.")
          else Ok (Some (i_id a))
      | Err _ => Err (invalidChange "rank_after must name another live item in the same project.")
      end
  end.

Definition move_plan (r : api_request) (s : Site) : result Problem_ plan :=
  let ws := WorkspaceID (rq_who r) in
  let* _ := rejectFields r in
  let* version := expectedVersion r in
  let* m := struct_members ["parent"; "rank_after"] r in
  match obj_get "parent" m with
  | None => Err (requestProblem "Provide parent as an item key or null for a root item.")
  | Some parent =>
      let* parentKey := key_member parent in
      let* afterKey := match obj_get "rank_after" m with Some v => key_member v | None => Ok None end in
      let setRank := match obj_get "rank_after" m with Some _ => true | None => false end in
      let* item := read_problem (live_item ws (rq_param r) (s_db s)) in
      let* (newParent, parentDepth) := move_parent ws item parentKey s in
      match subtree_height (i_path item) (s_db s) with
      | None => Err (databaseProblem None)
      | Some height =>
          if (8 <? parentDepth + height)%nat then
            Err (invalidChange "parent would place this item or its descendants beyond the maximum depth of 8.")
          else
            let* after := move_after ws item afterKey s in
            let submitted := JObj [("parent", parent); ("rank_after", field_of m "rank_after")] in
            Ok (mkPlan (i_id item) version (VReparent (mkReparent (i_id item) newParent setRank after)) submitted)
      end
  end.

Definition moveItem_at (r : api_request) (s s' : Site) : reply * Site :=
  match move_plan r s with
  | Err e => (RProblem e, s')
  | Ok p =>
      let who := rq_who r in
      match mutate_site (WorkspaceID who) [pl_verb p] [OActor (ID who); OExpected (pl_item p) (pl_version p)] s' with
      | (Err ErrInvalidMove, s'') => (RProblem move_problem, s'')
      | (Err e, s'') => (RProblem (mutationError (WorkspaceID who) (rq_param r) (pl_submitted p) e s''), s'')
      | (Ok _, s'') => (item_reply (WorkspaceID who) (rq_param r) s'', s'')
      end
  end.
Definition moveItem (r : api_request) (s : Site) : reply * Site := moveItem_at r s s.

End handlers.

End Patch.
