(* ===== verification/Items.v ===== *)
(** The remaining endpoints that change items: create and delete
    ([internal/api/items.go]), links ([links.go]) and comments ([comments.go]).
    Identifiers from [uuid.NewV7] are arguments. *)
From S2P Require Import Prelude Utf8 Uuid DateTime Float Json Db Events Mutate Problem Site Input Patch.
Open Scope Z_scope.

Module Items.
Import Db Events Mutate Problem Site Input Patch.

Section handlers.
Context `{UuidParse} `{UrlParse}.

(** * POST /items *)

(** The project, its item type, the type's initial status, the version of the
    latest configuration and the workspace's origin. *)
Definition create_rows (ws : uuid) (inp : itemInput) (s : Site) : list (uuid * uuid * uuid * Z * uuid) :=
  match project_by_key ws (ii_Project inp) s with
  | Err _ => []
  | Ok (pid, _) =>
      match s_project s !! pid, s_workspace s !! ws, max_version pid (s_db s) with
      | Some row, Some w, Some v =>
          if pj_archived row then []
          else omap (fun t : uuid * ItemType =>
                 if String.eqb (t_key t.2) (ii_Type inp)
                 then option_map (fun st => (pid, t.1, st, v, w_origin w)) (s_config_type s !! (pid, v, t.1))
                 else None) (map_to_list (item_types (s_db s)))
      | _, _, _ => []
      end
  end.

Definition createItem (fresh : uuid) (r : api_request) (s : Site) : reply * Site :=
  let who := rq_who r in
  let ws := WorkspaceID who in
  let prepared :=
    let* _ := rejectFields r in
    let* inp := decode_input r in
    let* (pid, tid, sid, version, origin) := read_problem (query_row (create_rows ws inp s)) in
    let* _ := request_check (validateInput ws pid inp true s) in
    let* parent := match ii_Parent inp with
                   | None => Ok None
                   | Some key =>
                       let* p := read_problem (query_row (List.filter
                         (fun i => has_key ws key i && bool_decide (i_project i = pid) && negb (i_deleted i))
                         (map_to_list (items (s_db s))).*2)) in
                       Ok (Some (i_id p))
                   end in
    let assignee := match ii_Assignee inp with Some a => uuid_parse a | None => None end in
    Ok (mkInsert fresh pid tid sid parent (ii_Title inp) (ii_Body inp) assignee (ii_Points inp)
          (ii_StartDate inp) (ii_DueDate inp) (ii_Fields inp) origin None (Some version) "") in
  match prepared with
  | Err e => (RProblem e, s)
  | Ok ins =>
      match mutate_site ws [VCreate fresh ins] [OActor (ID who)] s with
      | (Err e, s') => (RProblem (databaseProblem (db_error e)), s')
      | (Ok _, s') =>
          match GetItem fresh (s_db s') with
          | Err e => (RProblem (databaseProblem (Some e)), s')
          | Ok i =>
              match readItem ws (i_key i) s' with
              | Err e => (RProblem (databaseProblem (Some e)), s')
              | Ok (_, doc, v) => (RDoc 201 (Some v) (Some ("/api/v1/items/" +:+ i_key i)) (JObj doc), s')
              end
          end
      end
  end.

(** * DELETE /items/{key} *)

Definition delete_plan (r : api_request) (s : Site) : result Problem_ plan :=
  let* _ := rejectFields r in
  let* version := expectedVersion r in
  let* i := read_problem (item_by_key (WorkspaceID (rq_who r)) (rq_param r) (s_db s)) in
  Ok (mkPlan (i_id i) version (VSoftDelete (i_id i)) (JObj [("deleted", JBool true)])).

(** Run the plan; [key] is the item a conflict reports, [ok] the answer. *)
Definition commit_as (key : string) (ok : Site -> reply) (r : api_request) (p : plan) (s : Site) : reply * Site :=
  let who := rq_who r in
  match mutate_site (WorkspaceID who) [pl_verb p] [OActor (ID who); OExpected (pl_item p) (pl_version p)] s with
  | (Err e, s') => (RProblem (mutationError (WorkspaceID who) key (pl_submitted p) e s'), s')
  | (Ok _, s') => (ok s', s')
  end.

Definition deleteItem_at (r : api_request) (s s' : Site) : reply * Site :=
  match delete_plan r s with
  | Err e => (RProblem e, s')
  | Ok p => commit_as (rq_param r)
              (fun _ => RDoc 200 None None (JObj [("key", JStr (rq_param r)); ("deleted", JBool true)])) r p s'
  end.
Definition deleteItem (r : api_request) (s : Site) : reply * Site := deleteItem_at r s s.

(** * Links *)

(** [itemID] *)
Definition itemID (ws : uuid) (key : string) (s : Site) : result Problem_ uuid :=
  let* i := read_problem (live_item ws key (s_db s)) in Ok (i_id i).

Definition link_kinds : list string := ["blocks"; "duplicates"; "relates"; "implements"; "discovered_from"].

(** [linkSelect]: the document of a link whose ends are in the workspace; the
    creation time is not kept. *)
Definition link_doc (ws id : uuid) (s : Site) : option json :=
  match links (s_db s) !! id with
  | None => None
  | Some l =>
      match items (s_db s) !! l_from l, items (s_db s) !! l_to l with
      | Some f, Some t =>
          if bool_decide (i_workspace f = ws) && bool_decide (i_workspace t = ws) then
            Some (JObj [("id", json_uuid id); ("kind", JStr (l_kind l));
                        ("from", JObj [("key", JStr (i_key f)); ("title", JStr (i_title f))]);
                        ("to", JObj [("key", JStr (i_key t)); ("title", JStr (i_title t))])])
          else None
      | _, _ => None
      end
  end.
Definition doc_reply (status : Z) (d : option json) : reply :=
  match d with Some d => RDoc status None None d | None => RProblem (databaseProblem (Some NoRows)) end.

Definition link_plan (fresh : uuid) (r : api_request) (s : Site) : result Problem_ plan :=
  let ws := WorkspaceID (rq_who r) in
  let* _ := rejectFields r in
  let* version := expectedVersion r in
  let* m := struct_members ["to"; "kind"] r in
  let* toKey := string_member "to" m in
  let* kind := string_member "kind" m in
  if negb (mem_str kind link_kinds)
  then Err (invalidChange "kind must be blocks, duplicates, relates, implements or discovered_from.")
  else
    let* from := itemID ws (rq_param r) s in
    let* to := itemID ws toKey s in
    if bool_decide (from = to)
    then Err (invalidChange "to must identify a different item; self-links are not allowed.")
    else Ok (mkPlan from version (VLink fresh (mkLinkChange fresh from to uuid_nil kind))
               (JObj [("to", JStr toKey); ("kind", JStr kind)])).

Definition createLink (fresh : uuid) (r : api_request) (s : Site) : reply * Site :=
  match link_plan fresh r s with
  | Err e => (RProblem e, s)
  | Ok p => commit_as (rq_param r) (fun s' => doc_reply 201 (link_doc (WorkspaceID (rq_who r)) fresh s')) r p s
  end.

(** The link, its acting end and that end's key. *)
Definition unlink_plan (r : api_request) (s : Site) : result Problem_ (plan * string) :=
  let ws := WorkspaceID (rq_who r) in
  let* _ := rejectFields r in
  let* version := expectedVersion r in
  match uuid_parse (rq_param r) with
  | None => Err NotFound
  | Some id =>
      match links (s_db s) !! id with
      | None => Err (databaseProblem (Some NoRows))
      | Some l =>
          match items (s_db s) !! l_from l, items (s_db s) !! l_to l with
          | Some f, Some t =>
              if bool_decide (i_workspace f = ws) && bool_decide (i_workspace t = ws) then
                let* (acting, key) :=
                  if String.eqb (rq_item r) "" || String.eqb (rq_item r) (i_key f) then Ok (l_from l, i_key f)
                  else if String.eqb (rq_item r) (i_key t) then Ok (l_to l, i_key t)
                  else Err (invalidChange "item must identify one of the linked items.") in
                Ok (mkPlan acting version (VUnlink (mkLinkChange id (l_from l) (l_to l) acting (l_kind l)))
                      (JObj [("deleted", JBool true); ("id", json_uuid id)]), key)
              else Err (databaseProblem (Some NoRows))
          | _, _ => Err (databaseProblem (Some NoRows))
          end
      end
  end.

(** On a conflict the handler adds the acting end's key to the route, and
    [chi.URLParam] finds it. *)
Definition deleteLink (r : api_request) (s : Site) : reply * Site :=
  match unlink_plan r s with
  | Err e => (RProblem e, s)
  | Ok (p, key) =>
      commit_as key (fun _ =>
        RDoc 200 None None (JObj [("id", match uuid_parse (rq_param r) with Some id => json_uuid id | None => JNull end);
                                  ("deleted", JBool true)])) r p s
  end.

(** * Comments *)

(** [commentSelect]; the three times are not kept. *)
Definition comment_doc (ws id : uuid) (s : Site) : option json :=
  match comments (s_db s) !! id with
  | None => None
  | Some c =>
      match items (s_db s) !! c_item c, s_account s !! c_author c with
      | Some i, Some u =>
          if bool_decide (i_workspace i = ws) then
            Some (JObj [("id", json_uuid id); ("item", JStr (i_key i));
                        ("author", JObj [("id", json_uuid (c_author c)); ("display_name", JStr (ac_display_name u))]);
                        ("body", if c_deleted c then JNull else JStr (c_body c))])
          else None
      | _, _ => None
      end
  end.

Definition commentBodyValid (body : string) : result Problem_ unit :=
  if String.eqb (trim_space body) "" || (100000 <? Z.of_nat (String.length body))
  then Err (invalidChange "body must contain Markdown text and must not exceed 100000 bytes.")
  else Ok tt.

(** The plan and the key of the item. *)
Definition comment_plan (fresh : uuid) (r : api_request) (s : Site) : result Problem_ (plan * string) :=
  let ws := WorkspaceID (rq_who r) in
  let* _ := rejectFields r in
  let* version := expectedVersion r in
  let* m := struct_members ["item"; "body"] r in
  let* key := string_member "item" m in
  let* body := string_member "body" m in
  let* _ := commentBodyValid body in
  let* item := itemID ws key s in
  Ok (mkPlan item version (VComment fresh (mkCommentChange fresh item "create" body None))
        (JObj [("item", JStr key); ("body", JStr body)]), key).

Definition createComment (fresh : uuid) (r : api_request) (s : Site) : reply * Site :=
  match comment_plan fresh r s with
  | Err e => (RProblem e, s)
  | Ok (p, key) => commit_as key (fun s' => doc_reply 201 (comment_doc (WorkspaceID (rq_who r)) fresh s')) r p s
  end.

(** PATCH edits a comment and DELETE removes it; [is_delete] is the method. *)
Definition change_comment_plan (is_delete : bool) (r : api_request) (s : Site) : result Problem_ (plan * string * uuid) :=
  let who := rq_who r in
  let ws := WorkspaceID who in
  let* _ := rejectFields r in
  let* version := expectedVersion r in
  match uuid_parse (rq_param r) with
  | None => Err NotFound
  | Some id =>
      match comments (s_db s) !! id with
      | None => Err (databaseProblem (Some NoRows))
      | Some c =>
          match items (s_db s) !! c_item c with
          | None => Err (databaseProblem (Some NoRows))
          | Some i =>
              if negb (bool_decide (i_workspace i = ws)) || c_deleted c then Err (databaseProblem (Some NoRows))
              else if negb (bool_decide (c_author c = ID who)) && negb (is_delete && String.eqb (Role who) "admin")
              then Err Forbidden
              else
                let* body :=
                  if is_delete then Ok ""
                  else
                    let* m := struct_members ["body"] r in
                    let* body := string_member "body" m in
                    let* _ := commentBodyValid body in
                    Ok body in
                let action := if is_delete then "delete" else "edit" in
                Ok (mkPlan (c_item c) version
                      (VComment id (mkCommentChange id (c_item c) action body (Some (c_body c))))
                      (JObj [("body", JStr body)]), i_key i, id)
          end
      end
  end.

Definition changeComment (is_delete : bool) (r : api_request) (s : Site) : reply * Site :=
  match change_comment_plan is_delete r s with
  | Err e => (RProblem e, s)
  | Ok (p, key, id) => commit_as key (fun s' => doc_reply 200 (comment_doc (WorkspaceID (rq_who r)) id s')) r p s
  end.

End handlers.

End Items.
