(* ===== verification/Workflow.v ===== *)
(** The workflow editor, [internal/api/workflow.go], on the configuration tables,
    with the query of [config.go] that resolves a configuration. *)
From S2P Require Import Prelude Utf8 Uuid Float Json Db Problem Site.
Open Scope Z_scope.

Module Workflow.
Import Db Problem Site.

Record workflowStatus := mkStatus { ws_Key : string; ws_Name : string; ws_Category : string }.
#[export] Instance workflowStatus_eq_dec : EqDecision workflowStatus.
Proof. solve_decision. Defined.
Record workflowArc := mkArc { arc_To : string; arc_Requires : list string }.
#[export] Instance workflowArc_eq_dec : EqDecision workflowArc.
Proof. solve_decision. Defined.

(** The decoded body. *)
Record workflowDraft := mkDraft {
  Statuses : list workflowStatus;
  Transitions : gmap string (list workflowArc);
  Initial : gmap string string
}.

(** [workflowConfig]: the types with their initial statuses, the custom fields by
    key, and the arcs by the keys of their ends. *)
Record workflowConfig := mkConfig {
  Version : Z;
  c_Statuses : list workflowStatus;
  c_Transitions : list (string * workflowArc);
  c_Types : list (string * string);
  c_Fields : list string
}.

(** * resolvedConfigSQL *)

(** The rows of one version of one project, with the last part of their key. *)
Definition status_rows (p : uuid) (v : Z) (s : Site) : list (uuid * Z) :=
  omap (fun r : (uuid * Z * uuid) * Z => let '(p', v', st, n) := r in if bool_decide ((p', v') = (p, v)) then Some (st, n) else None)
    (map_to_list (s_config_status s)).
Definition type_rows (p : uuid) (v : Z) (s : Site) : list (uuid * uuid) :=
  omap (fun r : (uuid * Z * uuid) * uuid => let '(p', v', t, st) := r in if bool_decide ((p', v') = (p, v)) then Some (t, st) else None)
    (map_to_list (s_config_type s)).
Definition arc_rows (p : uuid) (v : Z) (s : Site) : list (uuid * uuid * json) :=
  omap (fun r : (uuid * Z * uuid * uuid) * json =>
          let '(p', v', from, to, req) := r in if bool_decide ((p', v') = (p, v)) then Some (from, to, req) else None)
    (map_to_list (s_config_transition s)).

Definition status_key (s : Site) (id : uuid) : option string := s_key <$> statuses (s_db s) !! id.
Definition workflow_status (s : Site) (id : uuid) : option workflowStatus :=
  match statuses (s_db s) !! id, s_status_name s !! id with
  | Some st, Some name => Some (mkStatus (s_key st) name (s_category st))
  | _, _ => None
  end.

(** [json.Unmarshal] of [requires] into a [[]string]. *)
Definition requires_of (j : json) : option (list string) :=
  match j with
  | JNull => Some []
  | JArr l => mapM (fun v => match v with JStr s => Some s | JNull => Some "" | _ => None end) l
  | _ => None
  end.

Definition by_order (a b : uuid * Z) : Prop := a.2 <= b.2.
#[export] Instance by_order_dec : RelDecision by_order.
Proof. intros a b. unfold by_order. apply _. Defined.

Definition resolved_at (p : uuid) (v : Z) (s : Site) : workflowConfig :=
  mkConfig v
    (omap (fun r => workflow_status s r.1) (merge_sort by_order (status_rows p v s)))
    (omap (fun r : uuid * uuid * json => let '(from, to, req) := r in
             match status_key s from, status_key s to, requires_of req with
             | Some f, Some t, Some l => Some (f, mkArc t l)
             | _, _, _ => None
             end) (arc_rows p v s))
    (omap (fun r : uuid * uuid =>
             match item_types (s_db s) !! r.1, status_key s r.2 with Some t, Some k => Some (t_key t, k) | _, _ => None end)
       (type_rows p v s))
    (omap (fun r : (uuid * string) * (string * json) => if bool_decide (r.1.1 = p) then Some r.1.2 else None)
       (map_to_list (s_field_def s))).

(** The latest configuration of a project. *)
Definition resolved_config (p : uuid) (s : Site) : result dberr workflowConfig :=
  match max_version p (s_db s) with Some v => Ok (resolved_at p v s) | None => Err NoRows end.

(** * Checks of the draft *)

Definition key_char (c : ascii) : bool :=
  byte_in 97 122 c || byte_in 48 57 c || Ascii.eqb c "_" || Ascii.eqb c "-".
(** [^[a-z][a-z0-9_-]{0,39}$] *)
Definition key_ok (k : string) : bool :=
  match chars k with
  | c :: l => byte_in 97 122 c && forallb key_char l && (length l <=? 39)%nat
  | [] => false
  end.

Section editor.
Context (strings_ToLower : string -> string).

Definition bad {A} (d : string) : result Problem_ A := Err (requestProblem d).

(** One round of the loop over [draft.Statuses]: the keys and names so far. *)
Definition check_status (acc : list string * list string) (st : workflowStatus) : result Problem_ (list string * list string) :=
  let '(keys, names) := acc in
  if negb (key_ok (ws_Key st)) || String.eqb (trim_space (ws_Name st)) "" || (80 <? rune_count (ws_Name st))%nat
  then bad "Statuses need a unique lowercase key and a name of 1–80 characters."
  else if mem_str (ws_Key st) keys then bad "Status keys must be unique."
  else
    let name := strings_ToLower (trim_space (ws_Name st)) in
    if mem_str name names then bad "Status names must be unique."
    else if negb (mem_str (ws_Category st) ["open"; "active"; "done"; "cancelled"])
    then bad "Choose an open, active, done or cancelled category."
    else Ok (ws_Key st :: keys, name :: names).

Definition valid_required (c : workflowConfig) : list string :=
  ["assignee"; "points"; "start_date"; "due_date"; "title"; "body"] ++ map (fun k => "fields." +:+ k) (c_Fields c).

Definition check_require (valid : list string) (seen : list string) (f : string) : result Problem_ (list string) :=
  if negb (mem_str f valid) || mem_str f seen then bad "Transition requirements must be unique known item fields."
  else Ok (f :: seen).

(** One target of a status: the targets seen so far and the number of arcs. *)
Definition check_arc (keys valid : list string) (from : string) (acc : list string * nat) (a : workflowArc) :
    result Problem_ (list string * nat) :=
  let '(seen, arcs) := acc in
  if negb (mem_str (arc_To a) keys) || String.eqb (arc_To a) from || mem_str (arc_To a) seen
  then bad "Transitions need distinct configured start and destination statuses, without duplicates."
  else
    let* _ := foldM (check_require valid) (arc_Requires a) [] in
    Ok (arc_To a :: seen, S arcs).

Definition check_from (keys valid : list string) (arcs : nat) (ft : string * list workflowArc) : result Problem_ nat :=
  if negb (mem_str ft.1 keys) then bad "Every transition must start at a configured status."
  else let* (_, n) := foldM (check_arc keys valid ft.1) ft.2 ([], arcs) in Ok n.

Definition check_draft (d : workflowDraft) : result Problem_ (list string) :=
  let n := length (Statuses d) in
  if (n <? 1)%nat || (50 <? n)%nat then bad "Provide 1–50 statuses."
  else let* (keys, _) := foldM check_status (Statuses d) ([], []) in Ok keys.

(** The checks against the current configuration. *)
Definition check_against (d : workflowDraft) (keys : list string) (c : workflowConfig) : result Problem_ unit :=
  if negb (forallb (fun old => bool_decide (old ∈ Statuses d)) (c_Statuses c))
  then bad "Existing status keys, names and categories are retained to preserve item history. Add a new status instead."
  else
    let* arcs := foldM (check_from keys (valid_required c)) (map_to_list (Transitions d)) 0%nat in
    if (200 <? arcs)%nat then bad "A workflow supports at most 200 transitions."
    else if negb (size (Initial d) =? length (c_Types c))%nat then bad "Choose one initial status for every item type."
    else if negb (forallb (fun t : string * string =>
                     mem_str (match Initial d !! t.1 with Some k => k | None => "" end) keys) (c_Types c))
    then bad "Choose a configured initial status for every item type."
    else Ok tt.

(** * The transaction *)

(** Go's [int32] arithmetic. *)
Definition wrap32 (z : Z) : Z := (z + 2 ^ 31) `mod` 2 ^ 32 - 2 ^ 31.

Definition set_config (d : Db) names cs ct tr (s : Site) : Site :=
  mkSite d (s_workspace s) (s_project s) (s_account s) (s_membership s) names (s_type_name s) (s_field_def s) cs ct tr.

(** INSERT INTO project_config *)
Definition insert_config (p : uuid) (v : Z) (who : uuid) (s : Site) : result dberr Site :=
  let d := s_db s in
  guard* negb (bool_decide ((p, v) ∈ project_configs d)) else unique_violation in
  guard* bool_decide (who ∈ users d) else fk_violation in
  Ok (set_db (mkDb (seq_counter d) (items d) (rollups d) (links d) (comments d) (events d) (projects d) (statuses d)
                (item_types d) ({[(p, v)]} ∪ project_configs d) (users d)) s).

(** INSERT INTO status ... RETURNING id; [id] is the default of the column. *)
Definition insert_status (id p : uuid) (st : workflowStatus) (s : Site) : result dberr Site :=
  let d := s_db s in
  guard* negb (bool_decide (is_Some (statuses d !! id))) else unique_violation in
  guard* mem_str (ws_Category st) ["open"; "active"; "done"; "cancelled"] else check_violation in
  Ok (set_config (mkDb (seq_counter d) (items d) (rollups d) (links d) (comments d) (events d) (projects d)
                    (<[id := Db.mkStatus p (ws_Key st) (ws_Category st)]> (statuses d))
                    (item_types d) (project_configs d) (users d))
        (<[id := ws_Name st]> (s_status_name s)) (s_config_status s) (s_config_type s) (s_config_transition s) s).

Definition insert_config_status (p : uuid) (v : Z) (st : uuid) (order : Z) (s : Site) : result dberr Site :=
  guard* negb (bool_decide (is_Some (s_config_status s !! (p, v, st)))) else unique_violation in
  Ok (set_config (s_db s) (s_status_name s) (<[(p, v, st) := order]> (s_config_status s)) (s_config_type s) (s_config_transition s) s).

Definition insert_config_type (p : uuid) (v : Z) (s : Site) (r : uuid * uuid) : result dberr Site :=
  guard* negb (bool_decide (is_Some (s_config_type s !! (p, v, r.1)))) else unique_violation in
  Ok (set_config (s_db s) (s_status_name s) (s_config_status s) (<[(p, v, r.1) := r.2]> (s_config_type s)) (s_config_transition s) s).

Definition insert_transition (p : uuid) (v : Z) (from to : uuid) (req : list string) (s : Site) : result dberr Site :=
  guard* negb (bool_decide (is_Some (s_config_transition s !! (p, v, from, to)))) else unique_violation in
  Ok (set_config (s_db s) (s_status_name s) (s_config_status s) (s_config_type s)
        (<[(p, v, from, to) := JArr (map JStr req)]> (s_config_transition s)) s).

(** The status rows of the current version by key. *)
Definition current_ids (p : uuid) (v : Z) (s : Site) : gmap string uuid :=
  list_to_map (omap (fun r : uuid * Z => option_map (fun k => (k, r.1)) (status_key s r.1)) (status_rows p v s)).

(** One round of the loop over [draft.Statuses]; [fresh] is the id the database
    gives to the new status of that key. *)
Definition put_status (fresh : string -> uuid) (p : uuid) (next : Z) (acc : gmap string uuid * Z * Site) (st : workflowStatus) :
    result dberr (gmap string uuid * Z * Site) :=
  let '(ids, index, s) := acc in
  let* (ids, s) :=
    match ids !! ws_Key st with
    | Some _ => Ok (ids, s)
    | None => let* s := insert_status (fresh (ws_Key st)) p st s in Ok (<[ws_Key st := fresh (ws_Key st)]> ids, s)
    end in
  match ids !! ws_Key st with
  | Some id => let* s := insert_config_status p next id index s in Ok (ids, index + 1, s)
  | None => Err NoRows
  end.

(** [ids[key]]: the empty text is not a uuid. *)
Definition id_of (ids : gmap string uuid) (k : string) : result dberr uuid :=
  match ids !! k with Some id => Ok id | None => Err (PgError "22P02") end.

(** INSERT INTO config_type ... SELECT ... FROM config_type of the current version. *)
Definition put_type (ids : gmap string uuid) (initial : gmap string string) (p : uuid) (v next : Z) (s : Site) (t : string * string) :
    result dberr Site :=
  let* id := id_of ids (match initial !! t.1 with Some k => k | None => "" end) in
  foldM (insert_config_type p next)
    (omap (fun r : uuid * uuid =>
       match item_types (s_db s) !! r.1 with Some ty => if String.eqb (t_key ty) t.1 then Some (r.1, id) else None | None => None end)
       (type_rows p v s)) s.

Definition put_arcs (ids : gmap string uuid) (p : uuid) (next : Z) (s : Site) (ft : string * list workflowArc) : result dberr Site :=
  foldM (fun s a =>
    let* from := id_of ids ft.1 in
    let* to := id_of ids (arc_To a) in
    insert_transition p next from to (arc_Requires a) s) ft.2 s.

Definition install (fresh : string -> uuid) (who p : uuid) (d : workflowDraft) (c : workflowConfig) (s : Site) : result dberr Site :=
  let v := Version c in
  let next := wrap32 (v + 1) in
  let ids := current_ids p v s in
  let* s := insert_config p next who s in
  let* (ids, _, s) := foldM (put_status fresh p next) (Statuses d) (ids, 0, s) in
  let* s := foldM (put_type ids (Initial d) p v next) (c_Types c) s in
  foldM (put_arcs ids p next) (map_to_list (Transitions d)) s.

(** * PUT /projects/{key}/config *)

Definition status_json (st : workflowStatus) : json :=
  JObj [("key", JStr (ws_Key st)); ("name", JStr (ws_Name st)); ("category", JStr (ws_Category st))].
Definition arc_json (fa : string * workflowArc) : json :=
  JObj [("from_key", JStr fa.1); ("to_key", JStr (arc_To fa.2)); ("requires", JArr (map JStr (arc_Requires fa.2)))].
(** The resolved configuration as the answer reports it; the arcs are listed
    instead of grouped by their start. *)
Definition config_json (c : workflowConfig) : json :=
  JObj [("version", JInt (Version c)); ("statuses", JArr (map status_json (c_Statuses c)));
        ("types", JArr (map (fun t => JObj [("key", JStr t.1); ("initial_status", JStr t.2)]) (c_Types c)));
        ("transitions", JArr (map arc_json (c_Transitions c))); ("fields", JArr (map JStr (c_Fields c)))].

Definition workflow_conflict (c : workflowConfig) : Problem_ :=
  let p := problem 409 "Conflict" "This workflow changed. Compare the latest configuration before applying your draft." in
  mkProblem (Type_ p) (Title p) (Status p) (Detail p) (Some (config_json c)) None.

Definition db_problem {A} (r : result dberr A) : result Problem_ A :=
  match r with Ok a => Ok a | Err e => Err (databaseProblem (Some e)) end.

(** The handler; [body] is the decoded draft. A failure rolls the transaction
    back. *)
Definition update_workflow (fresh : string -> uuid) (r : api_request) (body : result Problem_ workflowDraft) (s : Site) :
    result Problem_ (uuid * Site) :=
  let who := rq_who r in
  let* _ := rejectFields r in
  if negb (String.eqb (Role who) "admin") then Err Forbidden
  else
    let* expected := expectedVersion r in
    let* draft := match body with Ok d => Ok d | Err p => Err p end in
    let* keys := check_draft draft in
    let* (p, _) := db_problem (query_row (List.filter
       (fun r0 : uuid * Project => bool_decide (p_workspace r0.2 = WorkspaceID who) && String.eqb (p_key_prefix r0.2) (rq_param r) &&
          match s_project s !! r0.1 with Some row => negb (pj_archived row) | None => false end)
       (map_to_list (projects (s_db s))))) in
    let* current := db_problem (resolved_config p s) in
    if negb (Version current =? expected) then Err (workflow_conflict current)
    else
      let* _ := check_against draft keys current in
      let* s' := db_problem (install fresh (ID who) p draft current s) in
      Ok (p, s').

Definition updateWorkflow (fresh : string -> uuid) (r : api_request) (body : result Problem_ workflowDraft) (s : Site) : reply * Site :=
  match update_workflow fresh r body s with
  | Err e => (RProblem e, s)
  | Ok (p, s') =>
      match resolved_config p s' with
      | Err e => (RProblem (databaseProblem (Some e)), s)
      | Ok c => (RDoc 200 (Some (Version c)) None (config_json c), s')
      end
  end.

End editor.

End Workflow.
