(* ===== verification/WorkflowProps.v ===== *)
(** What the workflow editor guarantees: every version of a configuration is closed
    under its references, versions only grow, and an accepted draft is the
    configuration that is read back. *)
From S2P Require Import Prelude Utf8 Uuid Float Json Db Problem Site Workflow.
Open Scope Z_scope.

Module WorkflowProps.
Import Db Problem Site Workflow.

#[local] Set Warnings "-clear-no-such-hyp".

(** * Frames *)

(** The tables the editor does not write. *)
Definition untouched (s : Site) :=
  (seq_counter (s_db s), items (s_db s), rollups (s_db s), links (s_db s), comments (s_db s), events (s_db s),
   projects (s_db s), item_types (s_db s), users (s_db s),
   (s_workspace s, s_project s, s_account s, s_membership s, s_type_name s, s_field_def s)).
Arguments untouched : simpl never.

(** Configuration rows are only added. *)
Record config_grows (s s' : Site) : Prop := {
  cg_untouched : untouched s' = untouched s;
  cg_statuses : statuses (s_db s) ⊆ statuses (s_db s');
  cg_names : forall id, is_Some (statuses (s_db s) !! id) -> s_status_name s' !! id = s_status_name s !! id;
  cg_configs : project_configs (s_db s) ⊆ project_configs (s_db s');
  cg_config_status : s_config_status s ⊆ s_config_status s';
  cg_config_type : s_config_type s ⊆ s_config_type s';
  cg_transition : s_config_transition s ⊆ s_config_transition s'
}.

#[export] Instance config_grows_refl : Reflexive config_grows.
Proof. intros s. by split. Qed.
#[export] Instance config_grows_trans : Transitive config_grows.
Proof.
  intros a b c [U1 S1 N1 P1 C1 T1 A1] [U2 S2 N2 P2 C2 T2 A2].
  split; [congruence|by etransitivity| |by etransitivity..].
  intros id Hid. rewrite N2; [by apply N1|]. destruct Hid as [st Hst]. exists st. by eapply lookup_weaken.
Qed.

Ltac inv_guard H := match type of H with context [if ?b then _ else _] => destruct b eqn:?; [|discriminate H] end.

Lemma fresh_key {K A} `{Countable K} (m : gmap K A) k : negb (bool_decide (is_Some (m !! k))) = true -> m !! k = None.
Proof. rewrite negb_true_iff, bool_decide_eq_false. apply eq_None_not_Some. Qed.

Lemma insert_config_inv p v who s s' :
  insert_config p v who s = Ok s' ->
  config_grows s s' /\ ((p, v) ∉ project_configs (s_db s)) /\ project_configs (s_db s') = {[(p, v)]} ∪ project_configs (s_db s) /\
  statuses (s_db s') = statuses (s_db s) /\ s_status_name s' = s_status_name s /\
  s_config_status s' = s_config_status s /\ s_config_type s' = s_config_type s /\ s_config_transition s' = s_config_transition s.
Proof.
  unfold insert_config. intros Hi. inv_guard Hi. inv_guard Hi. injection Hi as <-.
  rewrite negb_true_iff, bool_decide_eq_false in *. split_and!; try done. split; simpl; try done. set_solver.
Qed.

Lemma insert_status_inv id p st s s' :
  insert_status id p st s = Ok s' ->
  config_grows s s' /\ statuses (s_db s) !! id = None /\
  s' = set_config (mkDb (seq_counter (s_db s)) (items (s_db s)) (rollups (s_db s)) (links (s_db s)) (comments (s_db s))
                     (events (s_db s)) (projects (s_db s))
                     (<[id := Db.mkStatus p (ws_Key st) (ws_Category st)]> (statuses (s_db s)))
                     (item_types (s_db s)) (project_configs (s_db s)) (users (s_db s)))
         (<[id := ws_Name st]> (s_status_name s)) (s_config_status s) (s_config_type s) (s_config_transition s) s.
Proof.
  unfold insert_status. intros Hi. inv_guard Hi. inv_guard Hi. injection Hi as <-.
  match goal with H : _ = true |- _ => apply fresh_key in H as Hn end.
  split; [|done]. split; simpl; try done; [by apply insert_subseteq|].
  intros id' [r Hr]. rewrite lookup_insert_ne; congruence.
Qed.

Lemma insert_config_status_inv p v st n s s' :
  insert_config_status p v st n s = Ok s' ->
  config_grows s s' /\ s_config_status s !! (p, v, st) = None /\
  s' = set_config (s_db s) (s_status_name s) (<[(p, v, st) := n]> (s_config_status s)) (s_config_type s) (s_config_transition s) s.
Proof.
  unfold insert_config_status. intros Hi. inv_guard Hi. injection Hi as <-.
  match goal with H : _ = true |- _ => apply fresh_key in H as Hn end.
  split; [|done]. split; simpl; try done. by apply insert_subseteq.
Qed.

Lemma insert_config_type_inv p v s r s' :
  insert_config_type p v s r = Ok s' ->
  config_grows s s' /\ s_config_type s !! (p, v, r.1) = None /\
  s' = set_config (s_db s) (s_status_name s) (s_config_status s) (<[(p, v, r.1) := r.2]> (s_config_type s)) (s_config_transition s) s.
Proof.
  unfold insert_config_type. intros Hi. inv_guard Hi. injection Hi as <-.
  match goal with H : _ = true |- _ => apply fresh_key in H as Hn end.
  split; [|done]. split; simpl; try done. by apply insert_subseteq.
Qed.

Lemma insert_transition_inv p v from to req s s' :
  insert_transition p v from to req s = Ok s' ->
  config_grows s s' /\ s_config_transition s !! (p, v, from, to) = None /\
  s' = set_config (s_db s) (s_status_name s) (s_config_status s) (s_config_type s)
         (<[(p, v, from, to) := JArr (map JStr req)]> (s_config_transition s)) s.
Proof.
  unfold insert_transition. intros Hi. inv_guard Hi. injection Hi as <-.
  match goal with H : _ = true |- _ => apply fresh_key in H as Hn end.
  split; [|done]. split; simpl; try done. by apply insert_subseteq.
Qed.

(** * Rows *)

Lemma elem_status_rows p v s st n : (st, n) ∈ status_rows p v s <-> s_config_status s !! (p, v, st) = Some n.
Proof.
  unfold status_rows. rewrite list_elem_of_omap. split.
  - intros ([[[p' v'] st'] n'] & Hin & Hx). apply elem_of_map_to_list in Hin. case_bool_decide; [|done].
    injection Hx as <- <-. by simplify_eq.
  - intros Hl. exists ((p, v, st), n). split; [by apply elem_of_map_to_list|]. by rewrite bool_decide_true.
Qed.

Lemma elem_type_rows p v s t st : (t, st) ∈ type_rows p v s <-> s_config_type s !! (p, v, t) = Some st.
Proof.
  unfold type_rows. rewrite list_elem_of_omap. split.
  - intros ([[[p' v'] st'] n'] & Hin & Hx). apply elem_of_map_to_list in Hin. case_bool_decide; [|done].
    injection Hx as <- <-. by simplify_eq.
  - intros Hl. exists ((p, v, t), st). split; [by apply elem_of_map_to_list|]. by rewrite bool_decide_true.
Qed.

Lemma elem_arc_rows p v s from to req :
  (from, to, req) ∈ arc_rows p v s <-> s_config_transition s !! (p, v, from, to) = Some req.
Proof.
  unfold arc_rows. rewrite list_elem_of_omap. split.
  - intros ([[[[p' v'] f'] t'] r'] & Hin & Hx). apply elem_of_map_to_list in Hin. case_bool_decide; [|done].
    injection Hx as <- <- <-. by simplify_eq.
  - intros Hl. exists ((p, v, from, to), req). split; [by apply elem_of_map_to_list|]. by rewrite bool_decide_true.
Qed.

Lemma NoDup_status_rows p v s : NoDup (status_rows p v s).
Proof.
  unfold status_rows. apply NoDup_omap; [|apply NoDup_map_to_list].
  intros [[[p1 v1] st1] n1] [[[p2 v2] st2] n2] [a b] H1 H2. do 2 (case_bool_decide; [|done]). simplify_eq. done.
Qed.

(** The latest version. *)
Lemma max_version_spec p d v :
  max_version p d = Some v <-> (p, v) ∈ project_configs d /\ forall v', (p, v') ∈ project_configs d -> v' <= v.
Proof.
  unfold max_version.
  set (l := (fun pv : uuid * Z => pv.2) <$> _).
  assert (Hl : forall x, x ∈ l <-> (p, x) ∈ project_configs d).
  { intros x. unfold l. rewrite list_elem_of_fmap. split.
    - intros ([p' v'] & -> & Hin). rewrite list_elem_of_In, filter_In, <- list_elem_of_In, elem_of_elements in Hin.
      destruct Hin as [Hin Hb]. apply bool_decide_eq_true in Hb. simpl in *. by subst.
    - intros Hin. exists (p, x). split; [done|]. rewrite list_elem_of_In, filter_In, <- list_elem_of_In, elem_of_elements.
      split; [done|]. by apply bool_decide_eq_true. }
  destruct l as [|v0 l].
  { split; [done|]. intros [Hin _]. apply Hl in Hin. by apply not_elem_of_nil in Hin. }
  assert (Hmax : forall w l, (fold_right Z.max w l = w \/ fold_right Z.max w l ∈ l) /\ w <= fold_right Z.max w l /\
                 forall x, x ∈ l -> x <= fold_right Z.max w l).
  { clear. intros w. induction l as [|x l (IH1 & IH2 & IH3)]; simpl; [split; [by left|]; split; [lia|]; by intros ? ?%not_elem_of_nil|].
    split_and!; [|lia|].
    - destruct (Z.max_spec x (fold_right Z.max w l)) as [[_ ->]|[_ ->]]; [destruct IH1; [by left|right; by right]|right; by left].
    - intros y [->|Hy]%elem_of_cons; [lia|]. specialize (IH3 y Hy). lia. }
  destruct (Hmax v0 l) as (H1 & H2 & H3).
  assert (Hin : (p, fold_right Z.max v0 l) ∈ project_configs d).
  { apply Hl. destruct H1 as [->|H1]; [by left|by right]. }
  assert (Hall : forall v', (p, v') ∈ project_configs d -> v' <= fold_right Z.max v0 l).
  { intros v' Hv'. apply Hl in Hv'. apply elem_of_cons in Hv' as [->|Hv']; [done|by apply H3]. }
  split.
  - intros [= <-]. done.
  - intros [Hv Hle]. f_equal. specialize (Hle _ Hin). specialize (Hall _ Hv). lia.
Qed.

(** * The statuses of the new version *)

Section statuses.
Context (fresh : string -> uuid) (p : uuid) (next : Z).

(** The map of ids names statuses of the project by their keys. *)
Definition id_map_ok (ids : gmap string uuid) (s : Site) : Prop :=
  forall k id, ids !! k = Some id -> exists row, statuses (s_db s) !! id = Some row /\ Db.s_project row = p /\ s_key row = k.

Lemma id_map_inj ids s k1 k2 id : id_map_ok ids s -> ids !! k1 = Some id -> ids !! k2 = Some id -> k1 = k2.
Proof. intros Hok H1 H2. destruct (Hok _ _ H1) as (r1 & Hr1 & _ & <-), (Hok _ _ H2) as (r2 & Hr2 & _ & <-). congruence. Qed.

Lemma id_map_grows ids s s' : config_grows s s' -> id_map_ok ids s -> id_map_ok ids s'.
Proof.
  intros Hg Hok k id Hk. destruct (Hok k id Hk) as (row & Hr & Hp). exists row. split; [|done].
  eapply lookup_weaken; [done|apply cg_statuses, Hg].
Qed.

Lemma workflow_status_grows s s' id st : config_grows s s' -> workflow_status s id = Some st -> workflow_status s' id = Some st.
Proof.
  unfold workflow_status. intros Hg. destruct (statuses (s_db s) !! id) as [row|] eqn:E; [|done].
  rewrite (lookup_weaken _ _ _ _ E (cg_statuses _ _ Hg)), (cg_names _ _ Hg) by eauto. done.
Qed.

(** What one round leaves: the same tables but for the new status rows. *)
Record put_one (ids : gmap string uuid) (n : Z) (s : Site) (st : workflowStatus) (ids' : gmap string uuid) (s' : Site) (id : uuid) : Prop := {
  po_id : ids' !! ws_Key st = Some id;
  po_ids : forall k, k <> ws_Key st -> ids' !! k = ids !! k;
  po_old : forall x, ids !! ws_Key st = Some x -> ids' = ids;
  po_ok : id_map_ok ids' s';
  po_grows : config_grows s s';
  po_free : s_config_status s !! (p, next, id) = None;
  po_status : s_config_status s' = <[(p, next, id) := n]> (s_config_status s);
  po_type : s_config_type s' = s_config_type s;
  po_arcs : s_config_transition s' = s_config_transition s;
  po_configs : project_configs (s_db s') = project_configs (s_db s);
  po_new : ids !! ws_Key st = None -> workflow_status s' id = Some st
}.

Lemma put_status_inv ids n s st ids' n' s' :
  put_status fresh p next (ids, n, s) st = Ok (ids', n', s') -> id_map_ok ids s ->
  n' = n + 1 /\ exists id, put_one ids n s st ids' s' id.
Proof.
  unfold put_status. intros Hp Hok. destruct (ids !! ws_Key st) as [id|] eqn:Ei.
  - rewrite Ei in Hp. destruct (insert_config_status _ _ _ _ _) as [s1|] eqn:E; [|done]. injection Hp as <- <- <-.
    apply insert_config_status_inv in E as (Hg & Hf & Hs). split; [done|]. exists id.
    split; try done; try (by subst s1); try congruence.
  - destruct (insert_status _ _ _ _) as [s1|] eqn:E1; [|done]. rewrite lookup_insert_eq in Hp.
    destruct (insert_config_status _ _ _ _ _) as [s2|] eqn:E2; [|done]. injection Hp as <- <- <-.
    apply insert_status_inv in E1 as (Hg1 & Hf1 & Hs1). apply insert_config_status_inv in E2 as (Hg2 & Hf2 & Hs2).
    split; [done|]. exists (fresh (ws_Key st)). split; [by rewrite lookup_insert_eq| | | | | | | | | |].
    + intros k Hk. by rewrite lookup_insert_ne.
    + congruence.
    + intros k id Hk. apply lookup_insert_Some in Hk as [[<- <-]|[Hne Hk]].
      * exists (Db.mkStatus p (ws_Key st) (ws_Category st)). split; [|done]. subst s2 s1. simpl. by rewrite lookup_insert_eq.
      * eapply (id_map_grows ids s); [by etransitivity|done|done].
    + by etransitivity.
    + by subst s1.
    + by subst s2 s1.
    + by subst s2 s1.
    + by subst s2 s1.
    + by subst s2 s1.
    + intros _. subst s2 s1. unfold workflow_status. simpl. rewrite !lookup_insert_eq. by destruct st.
Qed.

Arguments put_status : simpl never.

(** The whole loop. *)
Record put_all (ids : gmap string uuid) (n : Z) (s : Site) (l : list workflowStatus) (ids' : gmap string uuid) (s' : Site) : Prop := {
  pa_each : forall i st, l !! i = Some st -> exists id, ids' !! ws_Key st = Some id /\
    s_config_status s' !! (p, next, id) = Some (n + Z.of_nat i) /\
    (ids !! ws_Key st = None -> workflow_status s' id = Some st);
  pa_ids : forall k, k ∉ ws_Key <$> l -> ids' !! k = ids !! k;
  pa_old : ids ⊆ ids';
  pa_ok : id_map_ok ids' s';
  pa_grows : config_grows s s';
  pa_only : forall x m, s_config_status s' !! x = Some m -> s_config_status s !! x = Some m \/
    exists i st id, l !! i = Some st /\ ids' !! ws_Key st = Some id /\ x = (p, next, id) /\ m = n + Z.of_nat i;
  pa_type : s_config_type s' = s_config_type s;
  pa_arcs : s_config_transition s' = s_config_transition s;
  pa_configs : project_configs (s_db s') = project_configs (s_db s)
}.

Lemma put_statuses_inv l : forall ids n s ids' n' s',
  foldM (put_status fresh p next) l (ids, n, s) = Ok (ids', n', s') -> id_map_ok ids s -> NoDup (ws_Key <$> l) ->
  put_all ids n s l ids' s'.
Proof.
  induction l as [|st l IH]; intros ids n s ids' n' s' Hf Hok Hnd; simpl in Hf.
  { injection Hf as <- <- <-. split; try done. intros x m. by left. }
  destruct (put_status fresh p next (ids, n, s) st) as [[[ids1 n1] s1]|] eqn:E; [|done].
  apply put_status_inv in E as (-> & id & [P1 P2 P3 P4 P5 P6 P7 P8 P9 P10 P11]); [|done].
  apply NoDup_cons in Hnd as [Hnk Hnd]. destruct (IH _ _ _ _ _ _ Hf P4 Hnd) as [A1 A2 A3 A4 A5 A6 A7 A8 A9].
  split; try congruence; try done.
  - intros [|i] st' Hi; simpl in Hi.
    + injection Hi as <-. exists id. split; [by eapply lookup_weaken|]. split.
      * eapply lookup_weaken; [|apply cg_config_status, A5]. rewrite P7, lookup_insert_eq. f_equal. lia.
      * intros Hn. eapply workflow_status_grows; [exact A5|auto].
    + destruct (A1 i st' Hi) as (id' & H1 & H2 & H3). exists id'. split; [done|]. split; [rewrite H2; f_equal; lia|].
      intros Hn. apply H3. rewrite P2; [done|]. intros Heq. apply Hnk. rewrite <- Heq.
      apply list_elem_of_fmap. exists st'. split; [done|]. by eapply list_elem_of_lookup_2.
  - intros k Hk. rewrite fmap_cons, not_elem_of_cons in Hk. destruct Hk as [Hne Hk]. rewrite A2 by done. by apply P2.
  - etransitivity; [|exact A3]. destruct (ids !! ws_Key st) as [x|] eqn:Ex; [by rewrite (P3 x)|].
    apply map_subseteq_spec. intros k y Hk. rewrite P2; [done|]. congruence.
  - by etransitivity.
  - intros x m Hx. destruct (A6 x m Hx) as [Hx1|(i & st' & id' & H1 & H2 & H3 & H4)].
    + rewrite P7 in Hx1. apply lookup_insert_Some in Hx1 as [[<- <-]|[_ Hx1]]; [|by left].
      right. exists 0%nat, st, id. split; [done|]. split; [by eapply lookup_weaken|]. split; [done|lia].
    + right. exists (S i), st', id'. split; [done|]. split; [done|]. split; [done|lia].
Qed.

End statuses.

(** * The types and arcs of the new version *)

Section types_arcs.
Context (p : uuid) (next : Z).

(** Only the initial statuses of the new version differ. *)
Definition only_types (s s' : Site) : Prop :=
  exists ct, s' = set_config (s_db s) (s_status_name s) (s_config_status s) ct (s_config_transition s) s /\
    s_config_type s ⊆ ct /\ (forall q v t, (q, v) <> (p, next) -> ct !! (q, v, t) = s_config_type s !! (q, v, t)).
Definition only_arcs (s s' : Site) : Prop :=
  exists tr, s' = set_config (s_db s) (s_status_name s) (s_config_status s) (s_config_type s) tr s /\
    s_config_transition s ⊆ tr /\
    (forall q v f t, (q, v) <> (p, next) -> tr !! (q, v, f, t) = s_config_transition s !! (q, v, f, t)).

#[export] Instance only_types_refl : Reflexive only_types.
Proof. intros s. exists (s_config_type s). by destruct s. Qed.
#[export] Instance only_types_trans : Transitive only_types.
Proof.
  intros a b c (ct & -> & H1 & H2) (ct' & -> & H3 & H4). exists ct'. split; [done|]. split; [by etransitivity|].
  intros q v t Hne. by rewrite H4, <- H2.
Qed.
#[export] Instance only_arcs_refl : Reflexive only_arcs.
Proof. intros s. exists (s_config_transition s). by destruct s. Qed.
#[export] Instance only_arcs_trans : Transitive only_arcs.
Proof.
  intros a b c (ct & -> & H1 & H2) (ct' & -> & H3 & H4). exists ct'. split; [done|]. split; [by etransitivity|].
  intros q v f t Hne. by rewrite H4, <- H2.
Qed.

Lemma only_types_grows s s' : only_types s s' -> config_grows s s'.
Proof. intros (ct & -> & H1 & _). by split. Qed.
Lemma only_arcs_grows s s' : only_arcs s s' -> config_grows s s'.
Proof. intros (ct & -> & H1 & _). by split. Qed.

Lemma insert_types_inv rows : forall s s',
  foldM (insert_config_type p next) rows s = Ok s' ->
  only_types s s' /\
  (forall t st, s_config_type s' !! (p, next, t) = Some st <-> s_config_type s !! (p, next, t) = Some st \/ (t, st) ∈ rows).
Proof.
  induction rows as [|r rows IH]; intros s s' Hf; simpl in Hf.
  { injection Hf as <-. split; [done|]. intros t st. set_solver. }
  destruct (insert_config_type p next s r) as [s1|] eqn:E; [|done].
  apply insert_config_type_inv in E as (Hg & Hn & ->). destruct (IH _ _ Hf) as [H1 H2]. split.
  - etransitivity; [|exact H1]. eexists. split; [done|]. split; [by apply insert_subseteq|].
    intros q v t Hne. rewrite lookup_insert_ne; congruence.
  - intros t st. rewrite H2. simpl. rewrite lookup_insert_Some, elem_of_cons. destruct r as [t0 st0]. simpl in *. split.
    + intros [[[Heq <-]|[_ Hl]]|Hin]; [right; left; congruence|by left|by right; right].
    + intros [Hl|[[= <- <-]|Hin]]; [left; right; split; [congruence|done]|by left; left|by right].
Qed.

(** A type of the old version with the initial status the draft gives it. *)
Definition type_entry (ids : gmap string uuid) (initial : gmap string string) (v : Z) (s : Site) (t : uuid) (key : string) (id : uuid) : Prop :=
  (exists st0, s_config_type s !! (p, v, t) = Some st0) /\
  (exists ty, item_types (s_db s) !! t = Some ty /\ t_key ty = key) /\
  ids !! (match initial !! key with Some k => k | None => "" end) = Some id.

Lemma put_types_inv ids initial v l : v <> next -> forall s s',
  foldM (put_type ids initial p v next) l s = Ok s' ->
  only_types s s' /\
  (forall t id, s_config_type s' !! (p, next, t) = Some id <->
     s_config_type s !! (p, next, t) = Some id \/ exists key, key ∈ l.*1 /\ type_entry ids initial v s t key id).
Proof.
  intros Hv. induction l as [|[key k0] l IH]; intros s s' Hf; simpl in Hf.
  { injection Hf as <-. split; [done|]. intros t id. set_solver. }
  unfold put_type in Hf at 1. simpl in Hf.
  destruct (id_of ids _) as [id0|] eqn:Ei; [|done].
  assert (Hid : ids !! (match initial !! key with Some k => k | None => "" end) = Some id0).
  { unfold id_of in Ei. destruct (ids !! _); [congruence|done]. } clear Ei.
  destruct (foldM (insert_config_type p next) _ s) as [s1|] eqn:E; [|done].
  apply insert_types_inv in E as [H1 H2]. destruct (IH _ _ Hf) as [H3 H4]. split; [by etransitivity|].
  assert (He : forall t key' id, type_entry ids initial v s1 t key' id <-> type_entry ids initial v s t key' id).
  { intros t key' id. destruct H1 as (ct & -> & _ & Hct). unfold type_entry. simpl. by rewrite Hct by congruence. }
  intros t id. rewrite H4, H2. setoid_rewrite He.
  rewrite list_elem_of_omap. simpl. split.
  - intros [[Hl|([t0 st0] & Hin & Hx)]|(key' & Hk & Hen)]; [by left| |right; exists key'; split; [by right|done]].
    right. exists key. split; [by left|]. apply elem_type_rows in Hin. simpl in Hx.
    destruct (item_types (s_db s) !! t0) as [ty|] eqn:Ety; [|done].
    destruct (String.eqb_spec (t_key ty) key) as [Hk|]; [|done]. injection Hx as <- <-.
    split; [by eexists|]. split; [by exists ty|done].
  - intros [Hl|(key' & [->|Hk]%elem_of_cons & Hen)]; [by left; left| |right; by exists key'].
    left. right. destruct Hen as ((st0 & Hs) & (ty & Ety & Hk) & Hi). exists (t, st0). split; [by apply elem_type_rows|].
    simpl. rewrite Ety. rewrite Hk, String.eqb_refl. congruence.
Qed.

Lemma put_arcs_inv ids from targets : forall s s',
  put_arcs ids p next s (from, targets) = Ok s' ->
  only_arcs s s' /\ (targets <> [] -> exists f, ids !! from = Some f) /\
  (forall a, a ∈ targets -> exists t, ids !! arc_To a = Some t) /\
  (forall f t req, s_config_transition s' !! (p, next, f, t) = Some req <->
     s_config_transition s !! (p, next, f, t) = Some req \/
     exists a, a ∈ targets /\ ids !! from = Some f /\ ids !! arc_To a = Some t /\ req = JArr (map JStr (arc_Requires a))).
Proof.
  unfold put_arcs. simpl. induction targets as [|a targets IH]; intros s s' Hf; simpl in Hf.
  { injection Hf as <-. split; [done|]. split; [done|]. split; [by intros a ?%not_elem_of_nil|]. intros. set_solver. }
  unfold id_of in Hf at 1 2. destruct (ids !! from) as [f0|] eqn:Ef; [|done].
  destruct (ids !! arc_To a) as [t0|] eqn:Et; [|done].
  destruct (insert_transition _ _ _ _ _ _) as [s1|] eqn:E; [|done].
  apply insert_transition_inv in E as (Hg & Hn & ->). destruct (IH _ _ Hf) as (H1 & _ & H3 & H4). split_and!.
  - etransitivity; [|exact H1]. eexists. split; [done|]. split; [by apply insert_subseteq|].
    intros q v f t Hne. rewrite lookup_insert_ne; congruence.
  - intros _. by exists f0.
  - intros b [->|Hb]%elem_of_cons; [by exists t0|by apply H3].
  - intros f t req. rewrite H4. simpl. rewrite lookup_insert_Some. split.
    + intros [[[Heq <-]|[_ Hl]]|(b & Hb & Hx)]; [|by left|right; exists b; split; [by right|done]].
      right. exists a. split; [by left|]. by simplify_eq.
    + intros [Hl|(b & [->|Hb]%elem_of_cons & Hf1 & Ht1 & ->)]; [|left; left; by simplify_eq|right; by exists b].
      left. right. split; [congruence|done].
Qed.

Lemma put_all_arcs_inv ids l : forall s s',
  foldM (put_arcs ids p next) l s = Ok s' ->
  only_arcs s s' /\
  (forall from targets a, (from, targets) ∈ l -> a ∈ targets -> is_Some (ids !! from) /\ is_Some (ids !! arc_To a)) /\
  (forall f t req, s_config_transition s' !! (p, next, f, t) = Some req <->
     s_config_transition s !! (p, next, f, t) = Some req \/
     exists from targets a, (from, targets) ∈ l /\ a ∈ targets /\ ids !! from = Some f /\ ids !! arc_To a = Some t /\
       req = JArr (map JStr (arc_Requires a))).
Proof.
  induction l as [|[from targets] l IH]; intros s s' Hf; simpl in Hf.
  { injection Hf as <-. split; [done|]. split; [by intros ? ? ? ?%not_elem_of_nil|]. intros. set_solver. }
  destruct (put_arcs ids p next s (from, targets)) as [s1|] eqn:E; [|done].
  apply put_arcs_inv in E as (H1 & H2 & H3 & H4). destruct (IH _ _ Hf) as (H5 & H6 & H7). split; [by etransitivity|]. split.
  - intros from' targets' a [[= -> ->]|Hin]%elem_of_cons Ha; [|by eapply H6].
    split; [|by apply H3]. destruct H2 as [f Hf1]; [by intros ->; apply not_elem_of_nil in Ha|by exists f].
  - intros f t req. rewrite H7, H4. split.
    + intros [[Hl|(a & Ha & Hx)]|(from' & targets' & a & Hin & Hx)]; [by left| |].
      * right. exists from, targets, a. split; [by left|done].
      * right. exists from', targets', a. split; [by right|done].
    + intros [Hl|(from' & targets' & a & [[= -> ->]|Hin]%elem_of_cons & Hx)]; [by left; left| |].
      * left. right. by exists a.
      * right. by exists from', targets', a.
Qed.

End types_arcs.

(** * The checks of the draft *)

Lemma check_statuses_inv low l : forall acc acc',
  foldM (check_status low) l acc = Ok acc' -> NoDup acc.1 -> ("" ∉ acc.1) ->
  acc'.1 = rev (ws_Key <$> l) ++ acc.1 /\ NoDup acc'.1 /\ ("" ∉ acc'.1).
Proof.
  induction l as [|st l IH]; intros [keys names] acc' Hf Hnd Hne; simpl in Hf; [by injection Hf as <-|].
  unfold check_status in Hf at 1. destruct (_ || _) eqn:Eb in Hf; [done|].
  apply orb_false_iff in Eb as [[Eb _]%orb_false_iff _]. apply negb_false_iff in Eb.
  destruct (mem_str (ws_Key st) keys) eqn:Ek; [done|]. destruct (mem_str _ names); [done|].
  destruct (negb _) in Hf; [done|]. apply IH in Hf as [H1 H2]; simpl in *.
  - split; [|done]. rewrite H1, <- app_assoc. done.
  - apply NoDup_cons. split; [|done]. intros Hin. apply mem_str_spec in Hin. congruence.
  - apply not_elem_of_cons. split; [|done]. intros He. by rewrite <- He in Eb.
Qed.

Lemma check_draft_inv low d keys :
  check_draft low d = Ok keys ->
  NoDup (ws_Key <$> Statuses d) /\ ("" ∉ keys) /\ forall k, k ∈ keys <-> k ∈ ws_Key <$> Statuses d.
Proof.
  unfold check_draft. destruct (_ || _); [done|]. destruct (foldM _ _ _) as [[ks ns]|] eqn:E; [|done]. intros [= <-].
  apply check_statuses_inv in E as (H1 & H2 & H3); [|constructor|apply not_elem_of_nil].
  simpl in *. rewrite app_nil_r in H1. subst ks.
  split; [|split; [done|]; intros k; by rewrite list_elem_of_In, <- in_rev, <- list_elem_of_In].
  rewrite NoDup_ListNoDup in *. rewrite <- (rev_involutive (ws_Key <$> Statuses d)). by apply NoDup_rev.
Qed.

Lemma check_against_inv d keys c :
  check_against d keys c = Ok tt ->
  (forall old, old ∈ c_Statuses c -> old ∈ Statuses d) /\
  (forall t, t ∈ c_Types c -> exists k, match Initial d !! t.1 with Some k => k | None => "" end = k /\ k ∈ keys) /\
  (forall from targets, Transitions d !! from = Some targets -> from ∈ keys /\ NoDup (arc_To <$> targets) /\
     forall a, a ∈ targets -> arc_To a ∈ keys /\ arc_To a <> from).
Proof.
  unfold check_against. destruct (forallb _ (c_Statuses c)) eqn:E1; [|done]. simpl.
  destruct (foldM _ _ _) as [n|] eqn:E2; [|done]. destruct (_ <? _)%nat; [done|].
  destruct (negb _) in |- *; [done|]. destruct (forallb _ (c_Types c)) eqn:E3; [|done]. intros _.
  rewrite forallb_forall in E1, E3. split_and!.
  - intros old Ho%list_elem_of_In. by apply E1, bool_decide_eq_true in Ho.
  - intros t Ht%list_elem_of_In. eexists. split; [done|]. by apply mem_str_spec, E3.
  - assert (Harcs : forall from l seen n seen' n', foldM (check_arc keys (valid_required c) from) l (seen, n) = Ok (seen', n') ->
        NoDup seen -> NoDup (arc_To <$> l) /\ (forall a, a ∈ l -> arc_To a ∉ seen) /\ forall a, a ∈ l -> arc_To a ∈ keys /\ arc_To a <> from).
    { intros from. induction l as [|a l IH]; intros seen m seen' m' Hf Hnd; simpl in Hf.
      { split; [constructor|]. split; by intros a ?%not_elem_of_nil. }
      destruct (negb (mem_str (arc_To a) keys)) eqn:K1; [done|]. destruct (String.eqb_spec (arc_To a) from) as [|K2]; [done|].
      destruct (mem_str (arc_To a) seen) eqn:K3; [done|]. simpl in Hf. destruct (foldM (check_require _) _ _); [|done].
      assert (Hns : arc_To a ∉ seen) by (intros Hin%mem_str_spec; congruence).
      destruct (IH _ _ _ _ Hf) as (I1 & I2 & I3); [by apply NoDup_cons|]. split_and!.
      - rewrite fmap_cons. apply NoDup_cons. split; [|done]. intros (b & Hb & Hbl)%list_elem_of_fmap.
        apply (I2 b Hbl). rewrite <- Hb. by left.
      - intros b [->|Hb]%elem_of_cons; [done|]. intros Hin. apply (I2 b Hb). by right.
      - intros b [->|Hb]%elem_of_cons; [|by apply I3]. split; [|done]. apply mem_str_spec. by apply negb_false_iff. }
    assert (Hall : forall l n n', foldM (check_from keys (valid_required c)) l n = Ok n' -> forall ft, ft ∈ l ->
        ft.1 ∈ keys /\ NoDup (arc_To <$> ft.2) /\ forall a, a ∈ ft.2 -> arc_To a ∈ keys /\ arc_To a <> ft.1).
    { induction l as [|ft l IH]; intros m m' Hf ft' Hin; simpl in Hf; [by apply not_elem_of_nil in Hin|].
      unfold check_from in Hf at 1. destruct (negb _) eqn:K1; [done|].
      destruct (foldM (check_arc _ _ _) _ _) as [[sn nn]|] eqn:K2; [|done].
      apply elem_of_cons in Hin as [->|Hin]; [|by eapply IH]. split; [by apply mem_str_spec, negb_false_iff|].
      apply Harcs in K2 as (I1 & _ & I3); [|constructor]. done. }
    intros from targets Ht%elem_of_map_to_list. exact (Hall _ _ _ E2 _ Ht).
Qed.

(** * Numbered lists *)

Fixpoint numbered {A} (f : A -> uuid) (n : Z) (l : list A) : list (uuid * Z) :=
  match l with [] => [] | x :: l => (f x, n) :: numbered f (n + 1) l end.

Lemma elem_numbered {A} (f : A -> uuid) l : forall n u m,
  (u, m) ∈ numbered f n l <-> exists i x, l !! i = Some x /\ u = f x /\ m = n + Z.of_nat i.
Proof.
  induction l as [|x l IH]; intros n u m; simpl.
  { split; [by intros ?%not_elem_of_nil|]. by intros (i & x & Hx & _). }
  rewrite elem_of_cons, IH. split.
  - intros [[= -> ->]|(i & y & Hy & -> & ->)]; [exists 0%nat, x; split_and!; [done..|lia]|].
    exists (S i), y. split_and!; [done..|lia].
  - intros ([|i] & y & Hy & -> & ->); simpl in Hy; [injection Hy as <-; left; f_equal; lia|].
    right. exists i, y. split_and!; [done..|lia].
Qed.

Lemma numbered_sorted {A} (f : A -> uuid) l : forall n, StronglySorted by_order (numbered f n l).
Proof.
  induction l as [|x l IH]; intros n; simpl; constructor; [apply IH|].
  apply Forall_forall. intros [u m] (i & y & _ & _ & ->)%elem_numbered. unfold by_order. simpl. lia.
Qed.

Lemma NoDup_numbered {A} (f : A -> uuid) l : forall n, NoDup (numbered f n l).
Proof.
  induction l as [|x l IH]; intros n; simpl; constructor; [|apply IH].
  intros (i & y & _ & _ & Heq)%elem_numbered. lia.
Qed.

#[export] Instance by_order_total : Total by_order.
Proof. intros a b. unfold by_order. lia. Qed.
#[export] Instance by_order_trans : Transitive by_order.
Proof. intros a b c. unfold by_order. lia. Qed.

(** Rows numbered in some order are sorted back into it. *)
Lemma sort_numbered {A} (f : A -> uuid) l n rows :
  NoDup rows -> (forall x, x ∈ rows <-> x ∈ numbered f n l) -> merge_sort by_order rows = numbered f n l.
Proof.
  intros Hnd Hx. assert (Hp : merge_sort by_order rows ≡ₚ numbered f n l).
  { rewrite merge_sort_Permutation. apply NoDup_Permutation; [done|apply NoDup_numbered|done]. }
  eapply (StronglySorted_unique_strong by_order); [| |apply numbered_sorted|exact Hp].
  - intros [u m] [u' m'] H1 H2 H3 H4. rewrite Hp in H1.
    apply elem_numbered in H1 as (i & x & Hi & -> & ->), H2 as (j & y & Hj & -> & ->).
    unfold by_order in *. simpl in *. assert (i = j) as -> by lia. congruence.
  - apply (StronglySorted_merge_sort by_order).
Qed.

(** * The invariant *)

Definition in_version (s : Site) (p : uuid) (v : Z) (st : uuid) : Prop := is_Some (s_config_status s !! (p, v, st)).

(** Every version of every configuration is closed under its references: its
    statuses exist, have distinct keys and belong to the project, its arcs and
    initial statuses use them, and a later version retains them. *)
Record config_ok (s : Site) : Prop := {
  co_status : forall p v st, in_version s p v st ->
    ((p, v) ∈ project_configs (s_db s)) /\
    exists row, statuses (s_db s) !! st = Some row /\ Db.s_project row = p /\ is_Some (s_status_name s !! st);
  co_key : forall p v a b ra rb, in_version s p v a -> in_version s p v b ->
    statuses (s_db s) !! a = Some ra -> statuses (s_db s) !! b = Some rb -> s_key ra = s_key rb -> a = b;
  co_type : forall p v t st, s_config_type s !! (p, v, t) = Some st ->
    in_version s p v st /\ is_Some (item_types (s_db s) !! t);
  co_arc : forall p v f t req, s_config_transition s !! (p, v, f, t) = Some req ->
    in_version s p v f /\ in_version s p v t /\ f <> t /\ is_Some (requires_of req);
  co_retained : forall p v v' st, v <= v' -> ((p, v') ∈ project_configs (s_db s)) -> in_version s p v st -> in_version s p v' st
}.

Lemma workflow_status_some s p v st :
  config_ok s -> in_version s p v st -> exists w, workflow_status s st = Some w /\ status_key s st = Some (ws_Key w).
Proof.
  intros Hok Hin. destruct (co_status _ Hok _ _ _ Hin) as (_ & row & Hr & _ & [name Hn]).
  unfold workflow_status, status_key. rewrite Hr, Hn. by eexists.
Qed.

Section installed.
Context (s : Site) (Hok : config_ok s) (p : uuid) (v : Z).

Lemma current_ids_spec k id :
  current_ids p v s !! k = Some id <-> in_version s p v id /\ status_key s id = Some k.
Proof using Hok.
  unfold current_ids. set (l := omap _ _).
  assert (Hin : forall k id, (k, id) ∈ l <-> in_version s p v id /\ status_key s id = Some k).
  { intros k' id'. unfold l. rewrite list_elem_of_omap. split.
    - intros ([st n] & Hr & Hx). apply elem_status_rows in Hr. simpl in Hx.
      destruct (status_key s st) eqn:Ek; [|done]. injection Hx as <- <-. split; [by eexists|done].
    - intros [[n Hn] Hk]. exists (id', n). split; [by apply elem_status_rows|]. simpl. by rewrite Hk. }
  rewrite <- Hin. split; [apply elem_of_list_to_map_2|]. intros Hx. apply elem_of_list_to_map_1'; [|done].
  intros y Hy%Hin. apply Hin in Hx. destruct Hx as [Hx1 Hx2], Hy as [Hy1 Hy2].
  destruct (co_status _ Hok _ _ _ Hx1) as (_ & ra & Ha & _), (co_status _ Hok _ _ _ Hy1) as (_ & rb & Hb & _).
  unfold status_key in *. rewrite Ha in Hx2. rewrite Hb in Hy2. simpl in *.
  eapply (co_key _ Hok p v); try eassumption. congruence.
Qed.

Context (d : workflowDraft) (keys : list string) (fresh : string -> uuid) (who : uuid) (s' : Site).
Let next := wrap32 (v + 1).
Context (Hnext : v < next) (Hmax : max_version p (s_db s) = Some v).
Context (Hnd : NoDup (ws_Key <$> Statuses d)) (Hempty : "" ∉ keys) (Hkeys : forall k, k ∈ keys <-> k ∈ ws_Key <$> Statuses d).
Context (Hchk : check_against d keys (resolved_at p v s) = Ok tt).
Context (Hinst : install fresh who p d (resolved_at p v s) s = Ok s').

(** What the installed version holds, by the map from keys to status ids. *)
Record installed (ids : gmap string uuid) : Prop := {
  in_grows : config_grows s s';
  in_configs : project_configs (s_db s') = {[(p, next)]} ∪ project_configs (s_db s);
  in_ids_ok : id_map_ok p ids s';
  in_ids_dom : forall k id, ids !! k = Some id -> k ∈ ws_Key <$> Statuses d;
  in_kept : forall id, in_version s p v id -> exists k, status_key s id = Some k /\ ids !! k = Some id;
  in_each : forall i st, Statuses d !! i = Some st -> exists id, ids !! ws_Key st = Some id /\
    s_config_status s' !! (p, next, id) = Some (Z.of_nat i) /\ workflow_status s' id = Some st;
  in_only : forall x m, s_config_status s' !! x = Some m -> s_config_status s !! x = Some m \/
    exists i st id, Statuses d !! i = Some st /\ ids !! ws_Key st = Some id /\ x = (p, next, id) /\ m = Z.of_nat i;
  in_types : forall t id, s_config_type s' !! (p, next, t) = Some id <->
    exists key, key ∈ (c_Types (resolved_at p v s)).*1 /\ type_entry p ids (Initial d) v s t key id;
  in_types_old : forall q w t, (q, w) <> (p, next) -> s_config_type s' !! (q, w, t) = s_config_type s !! (q, w, t);
  in_arcs : forall f t req, s_config_transition s' !! (p, next, f, t) = Some req <->
    exists from targets a, Transitions d !! from = Some targets /\ a ∈ targets /\ ids !! from = Some f /\
      ids !! arc_To a = Some t /\ req = JArr (map JStr (arc_Requires a));
  in_arcs_old : forall q w f t, (q, w) <> (p, next) -> s_config_transition s' !! (q, w, f, t) = s_config_transition s !! (q, w, f, t);
  in_arcs_known : forall from targets a, Transitions d !! from = Some targets -> a ∈ targets ->
    is_Some (ids !! from) /\ is_Some (ids !! arc_To a)
}.

Lemma no_next : ((p, next) ∉ project_configs (s_db s)).
Proof using Hnext Hmax. intros Hin. apply max_version_spec in Hmax as [_ Hle]. specialize (Hle _ Hin). lia. Qed.

Lemma no_status_next st : s_config_status s !! (p, next, st) = None.
Proof using Hok Hnext Hmax.
  apply eq_None_not_Some. intros Hs. apply no_next. by apply (co_status _ Hok p next st).
Qed.
Lemma no_type_next t : s_config_type s !! (p, next, t) = None.
Proof using Hok Hnext Hmax.
  destruct (s_config_type s !! (p, next, t)) as [st|] eqn:E; [|done]. apply (co_type _ Hok) in E as [[n E] _].
  by rewrite no_status_next in E.
Qed.
Lemma no_arc_next f t : s_config_transition s !! (p, next, f, t) = None.
Proof using Hok Hnext Hmax.
  destruct (s_config_transition s !! (p, next, f, t)) as [r|] eqn:E; [|done]. apply (co_arc _ Hok) in E as [[n E] _].
  by rewrite no_status_next in E.
Qed.

Lemma kept_in_draft id w : in_version s p v id -> workflow_status s id = Some w -> w ∈ Statuses d.
Proof using Hchk.
  intros [n Hn] Hw. apply check_against_inv in Hchk as (Ho & _). apply Ho. simpl. apply list_elem_of_omap.
  exists (id, n). split; [|done]. rewrite (merge_sort_Permutation by_order). by apply elem_status_rows.
Qed.

(** A status the draft takes over under its key is the draft's. *)
Lemma kept_is_draft i st w id :
  Statuses d !! i = Some st -> in_version s p v id -> workflow_status s id = Some w -> ws_Key w = ws_Key st -> w = st.
Proof using Hchk Hnd.
  intros Hi K1 Hw Hwk. assert (Hwd := kept_in_draft _ _ K1 Hw). apply list_elem_of_lookup_1 in Hwd as [j Hj].
  assert (j = i) as ->; [|congruence]. eapply (NoDup_lookup (ws_Key <$> Statuses d)); [done| |].
  - rewrite list_lookup_fmap, Hj. simpl. by rewrite Hwk.
  - by rewrite list_lookup_fmap, Hi.
Qed.

Lemma install_inv : exists ids, installed ids.
Proof using All.
  unfold install in Hinst. simpl in Hinst. fold next in Hinst.
  destruct (insert_config _ _ _ _) as [s1|] eqn:E1; [|done].
  destruct (foldM (put_status fresh p next) _ _) as [[[ids n] s2]|] eqn:E2; [|done].
  destruct (foldM (put_type _ _ _ _ _) _ _) as [s3|] eqn:E3; [|done]. rename Hinst into E4.
  apply insert_config_inv in E1 as (G1 & Hn1 & C1 & S1 & N1 & CS1 & CT1 & TR1).
  assert (Hids0 : id_map_ok p (current_ids p v s) s1).
  { intros k id Hk. apply current_ids_spec in Hk as [Hk1 Hk2].
    destruct (co_status _ Hok _ _ _ Hk1) as (_ & row & Hr & Hp & _). exists row. rewrite S1. split; [done|].
    unfold status_key in Hk2. rewrite Hr in Hk2. split; [done|]. by injection Hk2. }
  apply put_statuses_inv in E2 as [A1 A2 A3 A4 A5 A6 A7 A8 A9]; [|done|done].
  apply put_types_inv in E3 as [T1 T2]; [|lia]. apply put_all_arcs_inv in E4 as (R1 & R2 & R3).
  pose proof (only_types_grows _ _ _ _ T1) as G3. pose proof (only_arcs_grows _ _ _ _ R1) as G4.
  assert (G2 : config_grows s2 s') by (etransitivity; [exact G3|exact G4]).
  assert (Gs : config_grows s s') by (etransitivity; [exact G1|]; etransitivity; [exact A5|exact G2]).
  assert (Gm : config_grows s s2) by (etransitivity; [exact G1|exact A5]).
  destruct T1 as (ct & -> & T3 & T4), R1 as (tr & Es' & R4 & R5). simpl in *.
  assert (Hold : forall id, in_version s p v id -> exists k, status_key s id = Some k /\ ids !! k = Some id).
  { intros id Hid. destruct (workflow_status_some _ _ _ _ Hok Hid) as (w & Hw & Hk). exists (ws_Key w).
    split; [done|]. eapply lookup_weaken; [|exact A3]. by apply current_ids_spec. }
  exists ids. split; try done.
  - rewrite Es'. simpl. by rewrite A9, C1.
  - exact (id_map_grows _ _ _ _ G2 A4).
  - intros k id Hk. destruct (decide (k ∈ ws_Key <$> Statuses d)) as [|Hne]; [done|exfalso]. apply Hne.
    rewrite A2 in Hk by done. apply current_ids_spec in Hk as [Hk1 Hk2].
    destruct (workflow_status_some _ _ _ _ Hok Hk1) as (w & Hw & Hk). apply list_elem_of_fmap. exists w.
    split; [congruence|]. by eapply kept_in_draft.
  - intros i st Hi. destruct (A1 i st Hi) as (id & H1 & H2 & H3). exists id. split; [done|]. split; [by rewrite Es'|].
    destruct (current_ids p v s !! ws_Key st) as [id0|] eqn:E0; [|by eapply workflow_status_grows; [|apply H3]].
    assert (id0 = id) as ->. { eapply lookup_weaken in E0; [|exact A3]. congruence. }
    apply current_ids_spec in E0 as [K1 K2]. destruct (workflow_status_some _ _ _ _ Hok K1) as (w & Hw & Hk).
    assert (w = st) as -> by (apply (kept_is_draft i st w id); [done|done|done|congruence]).
    by apply (workflow_status_grows s).
  - intros x m Hx. rewrite Es' in Hx. destruct (A6 x m Hx) as [Hx1|Hx1]; [left; by rewrite <- CS1|by right].
  - intros t id. rewrite Es'. simpl. rewrite T2, A7, CT1, no_type_next. unfold type_entry. rewrite A7, CT1.
    assert (Hit : item_types (s_db s2) = item_types (s_db s)).
    { pose proof (cg_untouched _ _ A5) as U1. pose proof (cg_untouched _ _ G1) as U2. unfold untouched in *. congruence. }
    rewrite Hit. split; [by intros [?|?]|by right].
  - intros q w t Hne. rewrite Es'. simpl. by rewrite T4, A7, CT1.
  - intros f t req. rewrite Es'. simpl. rewrite Es' in R3. simpl in R3. rewrite R3, A8, TR1, no_arc_next. setoid_rewrite elem_of_map_to_list. split; [by intros [?|?]|by right].
  - intros q w f t Hne. rewrite Es'. simpl. by rewrite R5, A8, TR1.
  - intros from targets a Ht%elem_of_map_to_list Ha. by eapply R2.
Qed.

Section result.
Context (ids : gmap string uuid) (Hin : installed ids).

Lemma in_version_new q w st :
  in_version s' q w st <-> in_version s q w st \/ ((q, w) = (p, next) /\ exists k, ids !! k = Some st).
Proof using Hin.
  split.
  - intros [m Hm]. apply (in_only _ Hin) in Hm as [Hm|(i & w0 & id & Hi & Hk & Hx & _)]; [left; by exists m|].
    right. simplify_eq. split; [done|by eexists].
  - intros [[m Hm]|[[= -> ->] [k Hk]]].
    + exists m. eapply lookup_weaken; [done|apply cg_config_status, Hin].
    + pose proof (in_ids_dom _ Hin _ _ Hk) as (w0 & -> & Hw)%list_elem_of_fmap.
      apply list_elem_of_lookup_1 in Hw as [i Hi]. destruct (in_each _ Hin _ _ Hi) as (id & Hid & Hc & _).
      exists (Z.of_nat i). congruence.
Qed.

Lemma new_status_row k id : ids !! k = Some id ->
  exists row, statuses (s_db s') !! id = Some row /\ Db.s_project row = p /\ s_key row = k /\ is_Some (s_status_name s' !! id).
Proof using Hin.
  intros Hk. destruct (in_ids_ok _ Hin _ _ Hk) as (row & Hr & Hp & Hkey). exists row. split_and!; try done.
  pose proof (in_ids_dom _ Hin _ _ Hk) as (w0 & -> & Hw)%list_elem_of_fmap.
  apply list_elem_of_lookup_1 in Hw as [i Hi]. destruct (in_each _ Hin _ _ Hi) as (id' & Hid & _ & Hw).
  assert (id' = id) as -> by congruence. unfold workflow_status in Hw. rewrite Hr in Hw.
  destruct (s_status_name s' !! id); [by eexists|done].
Qed.

Lemma same_item_types : item_types (s_db s') = item_types (s_db s).
Proof using Hin. pose proof (cg_untouched _ _ (in_grows _ Hin)) as U. unfold untouched in U. congruence. Qed.

Lemma status_row_kept q w st row : in_version s q w st -> statuses (s_db s') !! st = Some row -> statuses (s_db s) !! st = Some row.
Proof using Hin Hok.
  intros Hv Hr. destruct (co_status _ Hok _ _ _ Hv) as (_ & row' & Hr' & _).
  pose proof (lookup_weaken _ _ _ _ Hr' (cg_statuses _ _ (in_grows _ Hin))). congruence.
Qed.

Lemma installed_ok : config_ok s'.
Proof using All.
  pose proof (in_grows _ Hin) as Hg. split.
  - intros q w st [Hv|[[= -> ->] [k Hk]]]%in_version_new.
    + destruct (co_status _ Hok _ _ _ Hv) as (Hc & row & Hr & Hp & [n Hn]). split; [by apply (cg_configs _ _ Hg)|].
      exists row. split; [eapply lookup_weaken; [done|apply Hg]|]. split; [done|]. exists n. by rewrite (cg_names _ _ Hg) by eauto.
    + rewrite (in_configs _ Hin). split; [set_solver|]. destruct (new_status_row _ _ Hk) as (row & Hr & Hp & _ & Hn). by exists row.
  - intros q w a b ra rb Ha Hb Hra Hrb Hkey.
    assert (Hcase : forall x rx, in_version s' q w x -> statuses (s_db s') !! x = Some rx ->
      ((q, w) <> (p, next) /\ in_version s q w x /\ statuses (s_db s) !! x = Some rx) \/ ((q, w) = (p, next) /\ ids !! s_key rx = Some x)).
    { intros x rx [Hx|[He [k Hk]]]%in_version_new Hrx.
      - left. split; [intros [= -> ->]; destruct Hx as [m Hm]; by rewrite no_status_next in Hm|]. split; [done|by eapply status_row_kept].
      - right. split; [done|]. destruct (new_status_row _ _ Hk) as (row & Hr & _ & <- & _). congruence. }
    destruct (Hcase _ _ Ha Hra) as [(N1 & V1 & R1)|[E1 I1]], (Hcase _ _ Hb Hrb) as [(N2 & V2 & R2)|[E2 I2]]; try done.
    + by eapply (co_key _ Hok q w).
    + rewrite Hkey in I1. congruence.
  - intros q w t st Ht. destruct (decide ((q, w) = (p, next))) as [[= -> ->]|Hne].
    + apply (in_types _ Hin) in Ht as (key & _ & _ & (ty & Hty & _) & Hi). split; [|by rewrite same_item_types, Hty].
      apply in_version_new. right. split; [done|by eexists].
    + rewrite (in_types_old _ Hin) in Ht by done. apply (co_type _ Hok) in Ht as [Hv Hty]. rewrite same_item_types.
      split; [|done]. apply in_version_new. by left.
  - intros q w f t req Ht. destruct (decide ((q, w) = (p, next))) as [[= -> ->]|Hne].
    + apply (in_arcs _ Hin) in Ht as (from & targets & a & Htr & Ha & Hf & Hto & ->).
      split_and!; [apply in_version_new; right; split; [done|by eexists]..| |].
      * intros ->. apply check_against_inv in Hchk as (_ & _ & Hch). destruct (Hch _ _ Htr) as (_ & _ & Hne).
        destruct (Hne a Ha) as [_ Hne']. apply Hne'. by eapply id_map_inj; [apply (in_ids_ok _ Hin)| |].
      * simpl. clear. induction (arc_Requires a) as [|x l IH]; simpl; [done|]. destruct IH as [y Hy].
        unfold mret, option_ret in *. rewrite Hy. by eexists.
    + rewrite (in_arcs_old _ Hin) in Ht by done. apply (co_arc _ Hok) in Ht as (Hf & Hto & Hne' & Hreq).
      split_and!; try done; apply in_version_new; by left.
  - intros q w w' st Hle Hc Hv. apply in_version_new in Hv. rewrite (in_configs _ Hin) in Hc.
    apply elem_of_union in Hc as [Hc%elem_of_singleton|Hc].
    + injection Hc as -> ->. destruct Hv as [Hv|[_ [k Hk]]]; [|apply in_version_new; right; split; [done|by eexists]].
      apply in_version_new. right. split; [done|].
      assert (Hv' : in_version s p v st).
      { destruct (co_status _ Hok _ _ _ Hv) as (Hcw & _). apply max_version_spec in Hmax as [Hc Hmx].
        eapply (co_retained _ Hok p w v); [by apply Hmx|done|done]. }
      destruct (in_kept _ Hin _ Hv') as (k & _ & Hk). by eexists.
    + destruct Hv as [Hv|[[= -> ->] _]].
      * apply in_version_new. left. by eapply (co_retained _ Hok q w w').
      * apply max_version_spec in Hmax as [_ Hmx]. specialize (Hmx _ Hc). lia.
Qed.

Lemma new_max : max_version p (s_db s') = Some next.
Proof using All.
  apply max_version_spec. rewrite (in_configs _ Hin). split; [set_solver|].
  intros w [Hc%elem_of_singleton|Hc]%elem_of_union; [by injection Hc as ->|].
  apply max_version_spec in Hmax as [_ Hmx]. specialize (Hmx _ Hc). lia.
Qed.

(** The configuration that is read back. *)
Lemma read_statuses : c_Statuses (resolved_at p next s') = Statuses d.
Proof using All.
  simpl. set (f := fun st : workflowStatus => match ids !! ws_Key st with Some id => id | None => p end).
  assert (Hf : forall i st, Statuses d !! i = Some st -> ids !! ws_Key st = Some (f st) /\ workflow_status s' (f st) = Some st /\
    s_config_status s' !! (p, next, f st) = Some (Z.of_nat i)).
  { intros i st Hi. destruct (in_each _ Hin _ _ Hi) as (id & Hid & Hc & Hw). unfold f. by rewrite Hid. }
  rewrite (sort_numbered f (Statuses d) 0).
  - assert (Hl : forall i st, Statuses d !! i = Some st -> workflow_status s' (f st) = Some st) by (intros; by eapply Hf).
    clear Hf. revert Hl. generalize 0. generalize (Statuses d). clear. induction l as [|st l IH]; intros n Hl; [done|].
    simpl. rewrite (Hl 0%nat st) by done. f_equal. apply IH. intros i. exact (Hl (S i)).
  - apply NoDup_status_rows.
  - intros [u m]. rewrite elem_status_rows, elem_numbered. split.
    + intros [Hc|(i & st & id & Hi & Hk & Hx & ->)]%(in_only _ Hin); [by rewrite no_status_next in Hc|].
      exists i, st. injection Hx as ->. destruct (Hf _ _ Hi) as [Hk' _]. split_and!; [done|congruence|lia].
    + intros (i & st & Hi & -> & ->). destruct (Hf _ _ Hi) as (_ & _ & Hc). exact Hc.
Qed.

Lemma new_status_key k id : ids !! k = Some id <-> status_key s' id = Some k /\ in_version s' p next id.
Proof using All.
  split.
  - intros Hk. destruct (new_status_row _ _ Hk) as (row & Hr & _ & <- & _). unfold status_key. rewrite Hr.
    split; [done|]. apply in_version_new. right. split; [done|by eexists].
  - intros [Hk Hv]. apply in_version_new in Hv as [[m Hm]|[_ [k' Hk']]]; [by rewrite no_status_next in Hm|].
    destruct (new_status_row _ _ Hk') as (row & Hr & _ & <- & _). unfold status_key in Hk. rewrite Hr in Hk. simpl in Hk. congruence.
Qed.

Lemma requires_strings l : requires_of (JArr (map JStr l)) = Some l.
Proof. clear. induction l as [|x l IH]; [done|]. simpl in *. by rewrite IH. Qed.

Lemma read_arcs from a :
  (from, a) ∈ c_Transitions (resolved_at p next s') <-> exists targets, Transitions d !! from = Some targets /\ a ∈ targets.
Proof using All.
  simpl. rewrite list_elem_of_omap. split.
  - intros ([[f t] req] & Hr & Hx). apply elem_arc_rows, (in_arcs _ Hin) in Hr as (from' & targets & a' & Ht & Ha & Hf & Hto & ->).
    apply new_status_key in Hf as [Hf _], Hto as [Hto _]. rewrite Hf, Hto, requires_strings in Hx. injection Hx as <- <-.
    exists targets. split; [done|]. by destruct a'.
  - intros (targets & Ht & Ha). destruct (in_arcs_known _ Hin _ _ _ Ht Ha) as [[f Hf] [t Hto]].
    exists (f, t, JArr (map JStr (arc_Requires a))). split.
    + apply elem_arc_rows, (in_arcs _ Hin). by exists from, targets, a.
    + apply new_status_key in Hf as [Hf _], Hto as [Hto _]. rewrite Hf, Hto, requires_strings. by destruct a.
Qed.

Lemma read_types t k :
  (t, k) ∈ c_Types (resolved_at p next s') <-> t ∈ (c_Types (resolved_at p v s)).*1 /\ Initial d !! t = Some k.
Proof using All.
  unfold resolved_at at 1. cbn [c_Types]. rewrite list_elem_of_omap. split.
  - intros ([ty st] & Hr & Hx). apply elem_type_rows, (in_types _ Hin) in Hr as (key & Hkey & _ & (r & Hr & Hrk) & Hi).
    simpl in Hx. rewrite same_item_types, Hr in Hx. destruct (status_key s' st) as [k'|] eqn:Ek; [|done].
    injection Hx as <- <-. rewrite Hrk in *. split; [done|]. pose proof (in_ids_dom _ Hin _ _ Hi) as Hd.
    apply new_status_key in Hi as [Hi _].
    destruct (Initial d !! key) as [k''|] eqn:Ei; [congruence|]. by apply Hkeys in Hd.
  - intros [Ht Hi]. pose proof Ht as (t0 & -> & Ht0)%list_elem_of_fmap.
    destruct (check_against_inv _ _ _ Hchk) as (_ & Hty & _). destruct (Hty _ Ht0) as (k0 & Hk0 & Hk).
    rewrite Hi in Hk0. subst k0. apply Hkeys, list_elem_of_fmap in Hk as (w & -> & Hw).
    apply list_elem_of_lookup_1 in Hw as [i Hw]. destruct (in_each _ Hin _ _ Hw) as (id & Hid & _).
    simpl in Ht0. apply list_elem_of_omap in Ht0 as ([ty st0] & Hr & Hx). apply elem_type_rows in Hr. simpl in Hx.
    destruct (item_types (s_db s) !! ty) as [r|] eqn:Er; [|done]. destruct (status_key s st0); [|done]. injection Hx as <-.
    simpl in *. exists (ty, id). split.
    + apply elem_type_rows, (in_types _ Hin). exists (t_key r). split; [done|].
      split; [by eexists|]. split; [by exists r|]. by rewrite Hi.
    + simpl. rewrite same_item_types, Er. apply new_status_key in Hid as [Hid _]. by rewrite Hid.
Qed.

End result.

End installed.

(** * The handler *)

(** No project has had two billion versions of its configuration. *)
Definition versions_small (s : Site) : Prop :=
  forall p v, (p, v) ∈ project_configs (s_db s) -> - 2 ^ 31 <= v < 2 ^ 31 - 1.

Lemma wrap32_next v : - 2 ^ 31 <= v < 2 ^ 31 - 1 -> wrap32 (v + 1) = v + 1.
Proof. intros Hv. unfold wrap32. rewrite Z.mod_small; lia. Qed.

(** An accepted draft passed every check and was installed. *)
Record accepted low fresh (r : api_request) (body : result Problem_ workflowDraft) (s s' : Site) (p : uuid) (v : Z) (d : workflowDraft) : Prop := {
  ac_body : body = Ok d;
  ac_admin : Role (rq_who r) = "admin";
  ac_match : expectedVersion r = Ok v;
  ac_project : exists pj, projects (s_db s) !! p = Some pj /\ p_workspace pj = WorkspaceID (rq_who r) /\ p_key_prefix pj = rq_param r;
  ac_max : max_version p (s_db s) = Some v;
  ac_draft : exists keys, check_draft low d = Ok keys /\ check_against d keys (resolved_at p v s) = Ok tt;
  ac_install : install fresh (ID (rq_who r)) p d (resolved_at p v s) s = Ok s'
}.

Lemma update_workflow_inv low fresh r body s p s' :
  update_workflow low fresh r body s = Ok (p, s') -> exists v d, accepted low fresh r body s s' p v d.
Proof.
  unfold update_workflow. destruct (rejectFields r); [|done].
  destruct (String.eqb_spec (Role (rq_who r)) "admin") as [Hr|]; [|done]. simpl.
  destruct (expectedVersion r) as [v|] eqn:Ev; [|done]. destruct body as [d|]; [|done].
  destruct (check_draft low d) as [keys|] eqn:Ed; [|done].
  destruct (query_row _) as [[p' pj]|] eqn:Eq; [|done]. simpl.
  destruct (resolved_config p' s) as [c|] eqn:Ec; [|done]. simpl.
  destruct (Z.eqb_spec (Version c) v) as [Hv|]; [|done]. simpl.
  destruct (check_against d keys c) as [[]|] eqn:Ea; [|done].
  destruct (install fresh _ p' d c s) as [s1|] eqn:Ei; [|done]. simpl. intros [= <- <-].
  unfold resolved_config in Ec. destruct (max_version p' (s_db s)) as [w|] eqn:Ew; [|done]. injection Ec as <-.
  simpl in Hv. subst w. exists v, d. split; try done; [|by exists keys].
  unfold query_row in Eq. destruct (List.filter _ _) as [|x l] eqn:Ef; [done|]. injection Eq as ->.
  assert (Hin : (p', pj) ∈ (p', pj) :: l) by left. rewrite <- Ef in Hin.
  rewrite list_elem_of_In, filter_In, <- list_elem_of_In in Hin. destruct Hin as [Hin Hb].
  apply elem_of_map_to_list in Hin. simpl in Hb. rewrite !andb_true_iff in Hb. destruct Hb as [[Hw Hk] _].
  exists pj. split; [done|]. split; [by apply bool_decide_eq_true in Hw|by apply String.eqb_eq].
Qed.

Lemma updateWorkflow_inv low fresh r body s rep s' :
  updateWorkflow low fresh r body s = (rep, s') ->
  (s' = s /\ exists pr, rep = RProblem pr) \/ exists p v d c, accepted low fresh r body s s' p v d /\ resolved_config p s' = Ok c /\
               rep = RDoc 200 (Some (Version c)) None (config_json c).
Proof.
  unfold updateWorkflow.
  destruct (update_workflow low fresh r body s) as [[p s1]|] eqn:E; [|intros [= <- <-]; left; split; [done|by eexists]].
  apply update_workflow_inv in E as (v & d & Ha).
  destruct (resolved_config p s1) as [c|] eqn:Ec; [|intros [= <- <-]; left; split; [done|by eexists]].
  intros [= <- <-]. right. by exists p, v, d, c.
Qed.

Lemma accepted_installed low fresh r body s s' p v d :
  config_ok s -> versions_small s -> accepted low fresh r body s s' p v d ->
  exists keys ids, v < wrap32 (v + 1) /\ NoDup (ws_Key <$> Statuses d) /\ ("" ∉ keys) /\
    (forall k, k ∈ keys <-> k ∈ ws_Key <$> Statuses d) /\ check_against d keys (resolved_at p v s) = Ok tt /\
    installed s p v d s' ids.
Proof.
  intros Hok Hsm [-> _ _ _ Hmax (keys & Hd & Hc) Hi]. apply check_draft_inv in Hd as (Hnd & He & Hk).
  pose proof Hmax as [Hin _]%max_version_spec. apply Hsm in Hin.
  assert (Hv : v < wrap32 (v + 1)) by (rewrite wrap32_next by done; lia).
  destruct (install_inv s Hok p v d keys fresh (ID (rq_who r)) s' Hv Hmax Hnd He Hk Hc Hi) as [ids Hids].
  by exists keys, ids.
Qed.

(** C13. The workflow editor keeps every configuration consistent: whatever draft is
    sent, with whatever result, afterwards each version of each project still has
    existing statuses with distinct keys, arcs between two different ones of them,
    initial statuses among them, and every status of an earlier version. *)
Theorem updateWorkflow_ok low fresh r body s rep s' :
  config_ok s -> versions_small s -> updateWorkflow low fresh r body s = (rep, s') -> config_ok s'.
Proof.
  intros Hok Hsm [[-> _]|(p & v & d & c & Ha & _ & _)]%updateWorkflow_inv; [done|].
  destruct (accepted_installed _ _ _ _ _ _ _ _ _ Hok Hsm Ha) as (keys & ids & Hv & Hnd & He & Hk & Hc & Hids).
  destruct Ha as [_ _ _ _ Hmax _ Hi]. by eapply installed_ok.
Qed.

(** C12. An accepted draft is what is read back: only an administrator who names the
    latest version is answered 200, and then the new latest version is the next
    one, with exactly the draft's statuses in their order, its arcs, and its
    initial status for each type; rows of earlier versions, items and all other
    tables are untouched. *)
Theorem updateWorkflow_reads_back low fresh r d s et loc doc s' :
  config_ok s -> versions_small s -> updateWorkflow low fresh r (Ok d) s = (RDoc 200 et loc doc, s') ->
  exists p c c', resolved_config p s = Ok c /\ Role (rq_who r) = "admin" /\ expectedVersion r = Ok (Version c) /\
    resolved_config p s' = Ok c' /\ doc = config_json c' /\ et = Some (Version c') /\
    Version c' = Version c + 1 /\ c_Statuses c' = Statuses d /\ c_Fields c' = c_Fields c /\
    (forall from a, (from, a) ∈ c_Transitions c' <-> exists targets, Transitions d !! from = Some targets /\ a ∈ targets) /\
    (forall t k, (t, k) ∈ c_Types c' <-> t ∈ (c_Types c).*1 /\ Initial d !! t = Some k) /\
    config_grows s s'.
Proof.
  intros Hok Hsm Hu. apply updateWorkflow_inv in Hu as [[_ [pr Hp]]|(p & v & d' & c' & Ha & Hc' & Hrep)]; [done|].
  destruct (accepted_installed _ _ _ _ _ _ _ _ _ Hok Hsm Ha) as (keys & ids & Hv & Hnd & He & Hk & Hc & Hids).
  destruct Ha as [[= <-] Hr Hm _ Hmax _ Hi]. injection Hrep as -> -> ->.
  pose proof (new_max s Hok p v d keys fresh _ s' Hv Hmax Hnd He Hk Hc Hi ids Hids) as Hmax'.
  unfold resolved_config in Hc'. rewrite Hmax' in Hc'. injection Hc' as <-.
  exists p, (resolved_at p v s), (resolved_at p (wrap32 (v + 1)) s'). unfold resolved_config. rewrite Hmax, Hmax'.
  split_and!; try done.
  - simpl. apply wrap32_next, (Hsm p). by apply max_version_spec in Hmax as [? _].
  - by eapply read_statuses.
  - simpl. pose proof (cg_untouched _ _ (in_grows _ _ _ _ _ _ Hids)) as U. unfold untouched in U. congruence.
  - intros from a. by eapply read_arcs.
  - intros t k. by eapply read_types.
  - apply Hids.
Qed.

End WorkflowProps.
