(* ===== verification/SiteDemo.v ===== *)
(** A small site on the database of [Demo.v], for the examples and witnesses about
    the HTTP handlers. *)
From S2P Require Import Prelude Utf8 Uuid Ltree Float Json Db Events Mutate Demo Problem Site Workflow WorkflowProps.
Open Scope Z_scope.

Module SiteDemo.
Import Db Events Mutate Problem Site Workflow WorkflowProps.

Definition ws := Demo.ws.
Definition project := Demo.project.
Definition user := Demo.user.

(** One project with two statuses, one type and one custom field; finishing an item
    requires an assignee and the custom field. *)
Definition site0 : Site :=
  mkSite Demo.db2
    {[ws := mkWorkspaceRow "acme" "Acme" 1 (U 99)]}
    {[project := mkProjectRow "Project" "delivery" None false 1]}
    {[user := mkAccountRow "Ann" true]}
    {[(ws, user) := "admin"]}
    (<[Demo.todo := "To Do"]> {[Demo.done_status := "Done"]})
    {[Demo.task := "Task"]}
    {[(project, "area") := ("select", JArr [JStr "api"; JStr "web"])]}
    (<[(project, 1, Demo.todo) := 0]> {[(project, 1, Demo.done_status) := 1]})
    {[(project, 1, Demo.task) := Demo.todo]}
    {[(project, 1, Demo.todo, Demo.done_status) := JArr [JStr "assignee"; JStr "fields.area"]]}.

Definition admin : identity := mkIdentity user ws "admin".
Definition request (ifmatch param : string) (body : json) : api_request :=
  mkRequest admin false "" ifmatch param (Ok body).

(** A draft with a third status between the two. *)
Definition review : workflowStatus := mkStatus "review" "In Review" "active".
Definition draft : workflowDraft :=
  mkDraft [mkStatus "todo" "To Do" "open"; review; mkStatus "done" "Done" "done"]
    (<["todo" := [mkArc "review" ["assignee"]]]> {["review" := [mkArc "done" ["assignee"; "fields.area"]; mkArc "todo" []]]})
    {["task" := "todo"]}.
Definition fresh_status (k : string) : uuid := U (100 + N.of_nat (String.length k)).
Definition edit : reply * Site :=
  updateWorkflow to_lower fresh_status (request (etag_text 1) "SRX" JNull) (Ok draft) site0.

Example edit_ex :
  (reply_status edit.1, match resolved_config project edit.2 with Ok c => (Version c, map ws_Key (c_Statuses c)) | Err _ => (0, []) end)
  = (200, (2, ["todo"; "review"; "done"])).
Proof. vm_compute. reflexivity. Qed.
(** The same edit again meets the new version. *)
Example stale_edit :
  reply_status (updateWorkflow to_lower fresh_status (request (etag_text 1) "SRX" JNull) (Ok draft) edit.2).1 = 409.
Proof. vm_compute. reflexivity. Qed.
(** Dropping a status is refused. *)
Example dropping_edit :
  reply_status (updateWorkflow to_lower fresh_status (request (etag_text 1) "SRX" JNull)
    (Ok (mkDraft [mkStatus "todo" "To Do" "open"] ∅ {["task" := "todo"]})) site0).1 = 400.
Proof. vm_compute. reflexivity. Qed.

(** [forall] over the entries of a map, by computation. *)
Definition all_entries {K A} `{Countable K} (P : K * A -> bool) (m : gmap K A) : bool := forallb P (map_to_list m).
Lemma all_entries_spec {K A} `{Countable K} (P : K * A -> bool) (m : gmap K A) k a :
  all_entries P m = true -> m !! k = Some a -> P (k, a) = true.
Proof.
  unfold all_entries. rewrite forallb_forall. intros HP Hm%elem_of_map_to_list. by apply HP, list_elem_of_In.
Qed.

Definition is_some {A} (o : option A) : bool := match o with Some _ => true | None => false end.
Lemma is_some_spec {A} (o : option A) : is_some o = true -> is_Some o.
Proof. destruct o; [by eexists|done]. Qed.

(** The invariant as a decision procedure. *)
Definition config_okb (s : Site) : bool :=
  all_entries (fun e => let '(p, v, st, _) := e in
    bool_decide ((p, v) ∈ project_configs (s_db s)) && is_some (s_status_name s !! st) &&
    match statuses (s_db s) !! st with
    | Some row =>
        bool_decide (Db.s_project row = p) &&
        all_entries (fun e' => let '(p', v', st', _) := e' in
          match statuses (s_db s) !! st' with
          | Some row' => negb (bool_decide ((p', v') = (p, v)) && String.eqb (s_key row) (s_key row')) || bool_decide (st = st')
          | None => false
          end) (s_config_status s) &&
        forallb (fun pv => negb (bool_decide (pv.1 = p) && (v <=? pv.2)) || is_some (s_config_status s !! (p, pv.2, st)))
          (elements (project_configs (s_db s)))
    | None => false
    end) (s_config_status s) &&
  all_entries (fun e => let '(p, v, t, st) := e in
    is_some (s_config_status s !! (p, v, st)) && is_some (item_types (s_db s) !! t)) (s_config_type s) &&
  all_entries (fun e => let '(p, v, f, t, req) := e in
    is_some (s_config_status s !! (p, v, f)) && is_some (s_config_status s !! (p, v, t)) &&
    negb (bool_decide (f = t)) && is_some (requires_of req)) (s_config_transition s).

Lemma config_okb_spec s : config_okb s = true -> config_ok s.
Proof.
  unfold config_okb. rewrite !andb_true_iff. intros [[H1 H2] H3].
  assert (Hrow : forall p v st, in_version s p v st -> exists row, statuses (s_db s) !! st = Some row /\
    bool_decide ((p, v) ∈ project_configs (s_db s)) = true /\ is_some (s_status_name s !! st) = true /\
    Db.s_project row = p /\
    (forall st' row', in_version s p v st' -> statuses (s_db s) !! st' = Some row' -> s_key row = s_key row' -> st = st') /\
    (forall v', v <= v' -> (p, v') ∈ project_configs (s_db s) -> in_version s p v' st)).
  { intros p v st [n Hn]. pose proof (all_entries_spec _ _ _ _ H1 Hn) as Hx. simpl in Hx.
    destruct (statuses (s_db s) !! st) as [row|] eqn:Er; [|by rewrite andb_false_r in Hx].
    rewrite !andb_true_iff in Hx. destruct Hx as [[Hc Hnm] [[Hp Hk] Hv]]. exists row. split_and!; try done.
    - by apply bool_decide_eq_true in Hp.
    - intros st' row' [n' Hn'] Er' He. pose proof (all_entries_spec _ _ _ _ Hk Hn') as Hx. simpl in Hx. rewrite Er' in Hx.
      rewrite bool_decide_true, He, String.eqb_refl in Hx by done. simpl in Hx. by apply bool_decide_eq_true in Hx.
    - intros v' Hle Hin. rewrite forallb_forall in Hv. specialize (Hv (p, v')).
      rewrite <- list_elem_of_In, elem_of_elements in Hv. specialize (Hv Hin). simpl in Hv.
      rewrite bool_decide_true in Hv by done. apply Z.leb_le in Hle. rewrite Hle in Hv. by apply is_some_spec. }
  split.
  - intros p v st Hv. destruct (Hrow _ _ _ Hv) as (row & Hr & Hc & Hn & Hp & _). split; [by apply bool_decide_eq_true in Hc|].
    exists row. split; [done|]. split; [done|by apply is_some_spec].
  - intros p v a b ra rb Ha Hb Era Erb He. destruct (Hrow _ _ _ Ha) as (row & Hr & _ & _ & _ & Hk & _).
    eapply Hk; [done..|]. congruence.
  - intros p v t st Ht. pose proof (all_entries_spec _ _ _ _ H2 Ht) as Hx. simpl in Hx. apply andb_true_iff in Hx as [Hx Hy].
    split; by apply is_some_spec.
  - intros p v f t req Ht. pose proof (all_entries_spec _ _ _ _ H3 Ht) as Hx. simpl in Hx. rewrite !andb_true_iff in Hx.
    destruct Hx as [[[Hx Hy] Hne] Hr]. split_and!; try (by apply is_some_spec).
    apply negb_true_iff, bool_decide_eq_false in Hne. done.
  - intros p v v' st Hle Hc Hv. destruct (Hrow _ _ _ Hv) as (row & _ & _ & _ & _ & _ & Hret). by apply Hret.
Qed.

Lemma site0_ok : config_ok site0.
Proof. apply config_okb_spec. vm_compute. reflexivity. Qed.

Lemma site0_small : versions_small site0.
Proof.
  intros p v Hin. change (project_configs (s_db site0)) with ({[(project, 1)]} : gset (uuid * Z)) in Hin.
  apply elem_of_singleton in Hin. injection Hin as -> ->. lia.
Qed.

Lemma edit_call : updateWorkflow to_lower fresh_status (request (etag_text 1) "SRX" JNull) (Ok draft) site0 = (edit.1, edit.2).
Proof. apply surjective_pairing. Qed.

Lemma updateWorkflow_ok_witness : config_ok edit.2.
Proof. exact (updateWorkflow_ok _ _ _ _ _ _ _ site0_ok site0_small edit_call). Defined.

Lemma updateWorkflow_reads_back_witness :
  exists p c c', resolved_config p site0 = Ok c /\ resolved_config p edit.2 = Ok c' /\ Version c' = Version c + 1 /\ c_Statuses c' = Statuses draft.
Proof.
  destruct (updateWorkflow_reads_back to_lower fresh_status (request (etag_text 1) "SRX" JNull) draft site0 (Some 2) None
    (match edit.1 with RDoc _ _ _ doc => doc | RProblem _ => JNull end) edit.2 site0_ok site0_small) as
    (p & c & c' & H1 & _ & _ & H2 & _ & _ & H3 & H4 & _).
  { vm_compute. reflexivity. }
  exists p, c, c'. auto.
Defined.

End SiteDemo.
