(* ===== verification/PatchProps.v ===== *)
(** The edit of an item in closed form: what decoding leaves in [itemInput], what
    the loop over the keys of a body puts into the update and its events. *)
From S2P Require Import Prelude Utf8 Uuid Ltree DateTime Float Json Db Events Mutate Problem Site Input Patch.
Open Scope Z_scope.

Module PatchProps.
Import Ltree Db Events Mutate Problem Site Input Patch.

(** * Keys of a decoded map *)

Lemma obj_get_keys {A} k (m : list (string * A)) : is_Some (obj_get k m) <-> k ∈ obj_keys m.
Proof.
  unfold obj_keys. induction m as [|[k' v] m IH]; simpl.
  { split; [by intros []|by intros ?%not_elem_of_nil]. }
  rewrite elem_of_cons, <- IH. destruct (obj_get k m) as [w|]; [split; [by right; eexists|by eexists]|].
  destruct (String.eqb_spec k k'); split; [by left|by eexists|by intros []|intros [?|[]]; done].
Qed.

Lemma sorted_keys_elem {A} k (m : list (string * A)) : k ∈ sorted_keys m <-> k ∈ obj_keys m.
Proof. unfold sorted_keys, sort_strings. rewrite (merge_sort_Permutation String.le). apply elem_of_remove_dups. Qed.

Lemma sorted_keys_NoDup {A} (m : list (string * A)) : NoDup (sorted_keys m).
Proof. unfold sorted_keys, sort_strings. rewrite (merge_sort_Permutation String.le). apply NoDup_remove_dups. Qed.

Lemma sorted_keys_get {A} k (m : list (string * A)) : k ∈ sorted_keys m <-> is_Some (obj_get k m).
Proof. by rewrite sorted_keys_elem, obj_get_keys. Qed.

Lemma obj_get_unique {A} k v (m : list (string * A)) : NoDup (obj_keys m) -> (k, v) ∈ m -> obj_get k m = Some v.
Proof.
  unfold obj_keys. induction m as [|[k' v'] m IH]; simpl; [by intros _ ?%not_elem_of_nil|].
  intros [Hn Hnd]%NoDup_cons [[= -> ->]|Hin]%elem_of_cons.
  - destruct (obj_get k' m) eqn:E; [|by rewrite String.eqb_refl].
    exfalso. apply Hn. apply (obj_get_keys k' m). by eexists.
  - by rewrite (IH Hnd Hin).
Qed.

Lemma remarshal_keys raw : obj_keys (remarshal raw) = sorted_keys raw.
Proof.
  unfold remarshal, obj_keys.
  assert (H : forall l : list string, (forall k, k ∈ l -> is_Some (obj_get k raw)) ->
    (omap (fun k => match obj_get k raw with Some v => Some (k, v) | None => None end) l).*1 = l).
  { induction l as [|k l IH]; intros Hl; [done|]. simpl. destruct (Hl k ltac:(by left)) as [v ->]. simpl.
    f_equal. apply IH. intros k' Hk. apply Hl. by right. }
  apply H. intros k. apply sorted_keys_get.
Qed.

Lemma remarshal_get raw k : obj_get k (remarshal raw) = obj_get k raw.
Proof.
  destruct (obj_get k raw) as [v|] eqn:E.
  - apply obj_get_unique; [rewrite remarshal_keys; apply sorted_keys_NoDup|].
    unfold remarshal. apply list_elem_of_omap. exists k. rewrite E. split; [|done]. apply sorted_keys_get. by eexists.
  - destruct (obj_get k (remarshal raw)) eqn:E'; [|done]. exfalso.
    assert (Hk : k ∈ obj_keys (remarshal raw)) by (apply obj_get_keys; by eexists).
    rewrite remarshal_keys, sorted_keys_get, E in Hk. by destruct Hk.
Qed.

(** * Decoding *)

(** The value of a field of the input by its name. *)
Inductive slot :=
  | SStr (s : string)
  | SPtr (o : option string)
  | SNum (o : option float64)
  | SMap (o : option (list (string * json))).

Definition slot_of (n : string) (i : itemInput) : slot :=
  if String.eqb n "project" then SStr (ii_Project i)
  else if String.eqb n "type" then SStr (ii_Type i)
  else if String.eqb n "title" then SStr (ii_Title i)
  else if String.eqb n "body" then SPtr (ii_Body i)
  else if String.eqb n "parent" then SPtr (ii_Parent i)
  else if String.eqb n "assignee" then SPtr (ii_Assignee i)
  else if String.eqb n "points" then SNum (ii_Points i)
  else if String.eqb n "start_date" then SPtr (ii_StartDate i)
  else if String.eqb n "due_date" then SPtr (ii_DueDate i)
  else SMap (ii_Fields i).

Definition slot_set (v : json) (old : slot) : option slot :=
  match old with
  | SStr s => option_map SStr (into_string s v)
  | SPtr _ => option_map SPtr (into_string_ptr v)
  | SNum _ => option_map SNum (into_float_ptr v)
  | SMap o => option_map SMap (into_map o v)
  end.

Lemma set_member_slot n v i i' n' :
  n ∈ input_names -> n' ∈ input_names -> set_member n v i = Some i' ->
  if String.eqb n' n then slot_set v (slot_of n i) = Some (slot_of n i') else slot_of n' i' = slot_of n' i.
Proof.
  intros Hn Hn'. destruct i as [pr ty ti bo pa asg po st du fi].
  repeat (apply elem_of_cons in Hn as [->|Hn]; [unfold set_member; cbn; intros H; 
    match type of H with option_map _ ?x = _ => destruct x eqn:E; [|done] end; injection H as <-;
    repeat (apply elem_of_cons in Hn' as [->|Hn']; [cbn; by rewrite ?E|]); by apply not_elem_of_nil in Hn'|]).
  by apply not_elem_of_nil in Hn.
Qed.

Lemma target_exact k : k ∈ input_names -> target k = Some k.
Proof. intros Hk%mem_str_spec. unfold target. by rewrite Hk. Qed.

Lemma unmarshal_slots m : forall i i',
  NoDup (obj_keys m) -> (forall k, k ∈ obj_keys m -> k ∈ input_names) -> unmarshal_members false m i = Some i' ->
  forall n, n ∈ input_names ->
  match obj_get n m with
  | Some v => slot_set v (slot_of n i) = Some (slot_of n i')
  | None => slot_of n i' = slot_of n i
  end.
Proof.
  unfold obj_keys. induction m as [|[k v] m IH]; intros i i' Hnd Hk Hu n Hn; simpl in Hu; [by injection Hu as <-|].
  simpl in Hnd. apply NoDup_cons in Hnd as [Hkm Hnd].
  assert (Hkn : k ∈ input_names) by (apply Hk; by left). rewrite target_exact in Hu by done.
  destruct (set_member k v i) as [i1|] eqn:E; [|done].
  pose proof (IH i1 i' Hnd (fun k' H' => Hk k' ltac:(by right)) Hu n Hn) as Hrec.
  pose proof (set_member_slot k v i i1 n Hkn Hn E) as Hs. simpl.
  destruct (obj_get n m) as [w|] eqn:En.
  - destruct (String.eqb_spec n k) as [->|Hne]; [|by rewrite Hs in Hrec].
    exfalso. apply Hkm. apply (obj_get_keys k m). by eexists.
  - destruct (String.eqb_spec n k) as [->|Hne]; [by rewrite Hrec|by rewrite Hrec].
Qed.

(** What the decoded body says about one field. *)
Lemma unmarshal_raw_slots raw inp n :
  (forall k, k ∈ sorted_keys raw -> k ∈ input_names) -> unmarshal_raw raw = Some inp -> n ∈ input_names ->
  match obj_get n raw with
  | Some v => slot_set v (slot_of n empty_input) = Some (slot_of n inp)
  | None => slot_of n inp = slot_of n empty_input
  end.
Proof.
  intros Hk Hu Hn. rewrite <- remarshal_get. apply (unmarshal_slots (remarshal raw) empty_input inp); [| |done|done].
  - rewrite remarshal_keys. apply sorted_keys_NoDup.
  - intros k. rewrite remarshal_keys. apply Hk.
Qed.

(** * The loop over the keys *)

Section loop.
Context `{UuidParse} (id : uuid) (inp : itemInput) (raw current : list (string * json)).

Definition old_fields : list (string * json) :=
  match as_object (field_of current "fields") with Some o => o | None => [] end.
Definition new_fields : list (string * json) := match ii_Fields inp with Some m => m | None => [] end.
Definition patch_assignee : option uuid := match ii_Assignee inp with Some a => uuid_parse a | None => None end.

(** The update after the keys in [pre]. *)
Definition closed_update (pre : list string) : ItemUpdate :=
  let has k := mem_str k pre in
  mkUpdate id (if has "title" then Some (ii_Title inp) else None)
    (if has "body" then ii_Body inp else None) (has "body") None None
    (if has "assignee" then patch_assignee else None) (has "assignee")
    (if has "points" then ii_Points inp else None) (has "points")
    (if has "start_date" then ii_StartDate inp else None) (has "start_date")
    (if has "due_date" then ii_DueDate inp else None) (has "due_date")
    None (if has "fields" then Some (merge_fields old_fields new_fields) else None).

(** The events of one key. *)
Definition changes_of (field : string) : list FieldChange :=
  if String.eqb field "fields" then field_events old_fields new_fields
  else
    let old := field_of current field in
    let old := if String.eqb field "assignee" then match old with JObj o => field_of o "id" | _ => old end else old in
    [mkFieldChange "" field (non_null old) (non_null (field_of raw field))].

(** The value a key has after the edit. *)
Definition new_value (field : string) : json :=
  if String.eqb field "fields" then JObj (merge_fields old_fields new_fields) else field_of raw field.

Record closed (pre : list string) (p : patch) : Prop := {
  cl_up : pt_up p = closed_update pre;
  cl_events : pt_events p = concat (map changes_of pre);
  cl_merged : forall f, field_of (pt_merged p) f = if mem_str f pre then new_value f else field_of current f;
  cl_editable : forall f, f ∈ pre -> f ∈ editable;
  cl_fields : "fields" ∈ pre -> is_Some (ii_Fields inp)
}.

Lemma mem_str_snoc f pre k : mem_str f (pre ++ [k]) = mem_str f pre || String.eqb f k.
Proof. unfold mem_str. rewrite existsb_app. simpl. by rewrite orb_false_r. Qed.

Lemma field_of_set f k v m : field_of (obj_set k v m) f = if String.eqb f k then v else field_of m f.
Proof. unfold field_of. rewrite obj_get_set. by destruct (String.eqb f k). Qed.

(** Merged custom fields: the new value of a key, or the old one. *)
Lemma obj_get_merge old new k :
  obj_get k (merge_fields old new) = match obj_get k new with Some v => Some v | None => obj_get k old end.
Proof using Type.
  assert (Hm : obj_get k (merge_fields old new) = if mem_str k (sorted_keys new) then Some (field_of new k) else obj_get k old).
  { unfold merge_fields. rewrite <- (rev_involutive (sorted_keys new)).
    induction (rev (sorted_keys new)) as [|x l IH]; [done|]. simpl. rewrite fold_left_app. simpl.
    rewrite obj_get_set, IH, mem_str_snoc. destruct (String.eqb_spec k x) as [->|]; [by rewrite orb_true_r|by rewrite orb_false_r]. }
  rewrite Hm. unfold field_of. destruct (obj_get k new) as [v|] eqn:E.
  - assert (Hk : mem_str k (sorted_keys new) = true) by (apply mem_str_spec, sorted_keys_get; by eexists). by rewrite Hk.
  - assert (Hk : mem_str k (sorted_keys new) = false); [|by rewrite Hk].
    apply not_true_iff_false. intros Hk%mem_str_spec%sorted_keys_get. rewrite E in Hk. by destruct Hk.
Qed.

(** One key whose value goes into the update as it is. *)
Local Ltac plain_case k c Hp Hk Hu He Hmerged Hedit Hfields :=
  destruct (String.eqb_spec k c) as [->|];
    [injection Hp as <-; split; cbn [pt_up pt_events pt_merged];
     [rewrite Hu; unfold closed_update; rewrite !mem_str_snoc, Hk; cbn; by rewrite !orb_false_r
     |rewrite He, map_app, concat_app; cbn; by rewrite ?app_nil_r
     |by apply Hmerged
     |intros f; apply Hedit; apply mem_str_spec; reflexivity
     |by apply Hfields]|].

Lemma patch_field_closed tolerant pre p k p' :
  mem_str k pre = false -> closed pre p -> patch_field tolerant inp raw current p k = Ok p' -> closed (pre ++ [k]) p'.
Proof.
  intros Hk [Hu He Hm Hed Hf] Hp.
  assert (Hedit : forall f, k ∈ editable -> f ∈ pre ++ [k] -> f ∈ editable).
  { intros f Hke [Hin| ->%list_elem_of_singleton]%elem_of_app; [by apply Hed|done]. }
  assert (Hfields : k <> "fields" -> "fields" ∈ pre ++ [k] -> is_Some (ii_Fields inp)).
  { intros Hne [Hin|Hin%list_elem_of_singleton]%elem_of_app; [by apply Hf|congruence]. }
  assert (Hmerged : forall v, v = new_value k -> forall f,
    field_of (obj_set k v (pt_merged p)) f = if mem_str f (pre ++ [k]) then new_value f else field_of current f).
  { intros v -> f. rewrite field_of_set, Hm, mem_str_snoc. destruct (String.eqb_spec f k) as [->|]; [by rewrite orb_true_r|by rewrite orb_false_r]. }
  unfold patch_field in Hp.
  plain_case k "title" Hp Hk Hu He Hmerged Hedit Hfields. plain_case k "body" Hp Hk Hu He Hmerged Hedit Hfields. plain_case k "assignee" Hp Hk Hu He Hmerged Hedit Hfields.
  plain_case k "points" Hp Hk Hu He Hmerged Hedit Hfields. plain_case k "start_date" Hp Hk Hu He Hmerged Hedit Hfields. plain_case k "due_date" Hp Hk Hu He Hmerged Hedit Hfields.
  destruct (String.eqb_spec k "fields") as [->|]; [|done].
  destruct (ii_Fields inp) as [new|] eqn:Efi; [|done].
  assert (Hp' : p' = mkPatch (with_fields (merge_fields old_fields new_fields) (pt_up p))
    (pt_events p ++ field_events old_fields new_fields) (obj_set "fields" (JObj (merge_fields old_fields new_fields)) (pt_merged p))).
  { unfold old_fields, new_fields. rewrite Efi.
    destruct (as_object (field_of current "fields")) as [o|]; [|destruct tolerant; [|done]]; by injection Hp as <-. }
  subst p'. split; cbn [pt_up pt_events pt_merged].
  - rewrite Hu. unfold closed_update. rewrite !mem_str_snoc, Hk. cbn. by rewrite !orb_false_r.
  - rewrite He, map_app, concat_app. cbn. by rewrite app_nil_r.
  - by apply Hmerged.
  - intros f. apply Hedit, mem_str_spec. reflexivity.
  - by eexists.
Qed.

Lemma patch_loop_closed tolerant p : patch_loop tolerant id inp raw current = Ok p -> closed (sorted_keys raw) p.
Proof.
  intros Hp. pose proof (sorted_keys_NoDup raw) as Hnd. unfold patch_loop in Hp.
  cut (NoDup (sorted_keys raw) -> closed (sorted_keys raw) p); [auto|]. clear Hnd.
  revert Hp. generalize (sorted_keys raw) as keys. intros keys Hp Hnd.
  assert (H1 : forall zs pre q q', pre ++ zs = keys -> closed pre q ->
            foldM (patch_field tolerant inp raw current) zs q = Ok q' -> closed keys q').
  { induction zs as [|z zs IH]; intros pre q q' Heq Hc Hf; simpl in Hf.
    - rewrite app_nil_r in Heq. subst keys. by injection Hf as <-.
    - destruct (patch_field tolerant inp raw current q z) as [q1|] eqn:E; [|done].
      apply (IH (pre ++ [z]) q1); [by rewrite <- app_assoc| |exact Hf].
      eapply patch_field_closed; [|exact Hc|exact E].
      apply not_true_iff_false. intros Hz%mem_str_spec. subst keys. apply NoDup_app in Hnd as (_ & Hd & _).
      apply (Hd z Hz). by left. }
  apply (H1 keys [] (mkPatch (empty_update id) [] current) p); [done| |exact Hp].
  by split; [| | |intros f Hf%not_elem_of_nil|intros Hf%not_elem_of_nil].
Qed.

End loop.

(** * The edited row *)

Section edited.
Context `{UuidParse}.

Definition text_of (v : json) : option string := match v with JStr s => Some s | _ => None end.
Definition number_of (v : json) : option float64 := match v with JNum f => Some f | _ => None end.
Definition members_of (v : json) : list (string * json) := match into_map None v with Some (Some m) => m | _ => [] end.

(** A field of the row: what the body says about it, or its old value. *)
Definition given {A} (raw : list (string * json)) (k : string) (f : json -> A) (old : A) : A :=
  match obj_get k raw with Some v => f v | None => old end.

(** The row [i] after the edit [raw], with custom fields merged into [old], moved
    to a status of a configuration version. *)
Definition edited (raw old : list (string * json)) (to : option (uuid * Z)) (version seq : Z) (i : Item) : Item :=
  mkItem (i_id i) (i_workspace i) (i_project i) (i_key i) (i_type i)
    (match to with Some (st, _) => st | None => i_status i end)
    (match to with Some (_, cv) => cv | None => i_config_version i end)
    (i_parent i) (i_path i)
    (given raw "title" (fun v => coalesce (text_of v) "") (i_title i))
    (given raw "body" text_of (i_body i))
    (given raw "assignee" (fun v => text_of v ≫= uuid_parse) (i_assignee i))
    (given raw "points" (fun v => number_of v ≫= hundredths) (i_points i))
    (given raw "start_date" (fun v => text_of v ≫= parse_date) (i_start i))
    (given raw "due_date" (fun v => text_of v ≫= parse_date) (i_due i))
    (i_rank i)
    (given raw "fields" (fun v => JObj (merge_fields old (members_of v))) (i_fields i))
    version seq (i_origin i) (i_origin_seq i) (i_deleted i).

Definition with_target (to : option (uuid * Z)) (u : ItemUpdate) : ItemUpdate :=
  match to with Some (st, cv) => with_status st cv u | None => u end.

Lemma mem_sorted_keys k (raw : list (string * json)) : mem_str k (sorted_keys raw) = match obj_get k raw with Some _ => true | None => false end.
Proof.
  destruct (obj_get k raw) as [v|] eqn:E.
  - apply mem_str_spec, sorted_keys_get. by eexists.
  - apply not_true_iff_false. intros Hk%mem_str_spec%sorted_keys_get. rewrite E in Hk. by destruct Hk.
Qed.

Lemma editable_names k : k ∈ editable -> k ∈ input_names.
Proof. unfold editable, input_names. rewrite !elem_of_cons. tauto. Qed.

Lemma date_of d : toPgDate (Some d) = parse_date d.
Proof. unfold toPgDate. by destruct (String.eqb_spec d "") as [->|]. Qed.

(** What the body says about each editable field, in the decoded input. *)
Record decoded (raw : list (string * json)) (inp : itemInput) : Prop := {
  de_title v : obj_get "title" raw = Some v -> ii_Title inp = coalesce (text_of v) "";
  de_body v : obj_get "body" raw = Some v -> ii_Body inp = text_of v;
  de_assignee v : obj_get "assignee" raw = Some v -> ii_Assignee inp = text_of v;
  de_points v : obj_get "points" raw = Some v -> ii_Points inp = number_of v;
  de_number v : obj_get "points" raw = Some v -> v = JNull \/ exists f, v = JNum f /\ is_finite f = true;
  de_text k v : obj_get k raw = Some v -> k ∈ ["title"; "body"; "assignee"; "start_date"; "due_date"] ->
    v = JNull \/ exists t, v = JStr t;
  de_start v : obj_get "start_date" raw = Some v -> ii_StartDate inp = text_of v;
  de_due v : obj_get "due_date" raw = Some v -> ii_DueDate inp = text_of v;
  de_fields v : obj_get "fields" raw = Some v -> ii_Fields inp = match into_map None v with Some m => m | None => None end
}.

Lemma unmarshal_decoded raw inp :
  (forall k, k ∈ sorted_keys raw -> k ∈ editable) -> unmarshal_raw raw = Some inp -> decoded raw inp.
Proof.
  intros Hk Hu.
  assert (Hs : forall n, n ∈ input_names -> match obj_get n raw with
     | Some v => slot_set v (slot_of n empty_input) = Some (slot_of n inp)
     | None => slot_of n inp = slot_of n empty_input end).
  { intros n Hn. apply unmarshal_raw_slots; [|done|done]. intros k Hin. by apply editable_names, Hk. }
  assert (Hin : forall n, mem_str n input_names = true -> n ∈ input_names) by (intros n; apply mem_str_spec).
  split; [| | | | |intros k v Hv Hk'| | |].
  6: { repeat (apply elem_of_cons in Hk' as [->|Hk']; [match type of Hv with obj_get ?n _ = _ => specialize (Hs n (Hin n eq_refl)) end;
         rewrite Hv in Hs; destruct v; try done; [by left|right; by eexists]|]). by apply not_elem_of_nil in Hk'. }
  all: intros v Hv;
    match type of Hv with obj_get ?n _ = _ => specialize (Hs n (Hin n eq_refl)) end; rewrite Hv in Hs; cbn in Hs.
  8: { destruct (into_map None v); [|done]. by injection Hs as ->. }
  5: { destruct v as [| |g| | | |]; try done; [by left|]. right. exists g. cbn in Hs. by destruct (is_finite g). }
  all: destruct v; try done; cbn in Hs; repeat case_match; simplify_eq/=; try done; by injection Hs as ->.
Qed.

Lemma update_row_edited id to inp raw current p seq v i :
  decoded raw inp -> closed id inp raw current (sorted_keys raw) p ->
  update_row (update_params (with_target to (pt_up p)) seq) v i = edited raw (old_fields current) to v seq i.
Proof.
  intros Hd Hc. pose proof (cl_up _ _ _ _ _ _ Hc) as Hu.
  assert (Hf : mem_str "fields" (sorted_keys raw) = true -> is_Some (ii_Fields inp)).
  { intros Hm%mem_str_spec. by apply (cl_fields _ _ _ _ _ _ Hc). }
  assert (Heq : forall u, u = update_params (with_target to (pt_up p)) seq ->
    u = mkUpdateParams id (up_Title (closed_update id inp current (sorted_keys raw)))
          (up_Body (closed_update id inp current (sorted_keys raw))) (mem_str "body" (sorted_keys raw))
          (fst <$> to) (snd <$> to)
          (up_AssigneeID (closed_update id inp current (sorted_keys raw))) (mem_str "assignee" (sorted_keys raw))
          (toPgNumeric (up_Points (closed_update id inp current (sorted_keys raw)))) (mem_str "points" (sorted_keys raw))
          (toPgDate (up_StartDate (closed_update id inp current (sorted_keys raw)))) (mem_str "start_date" (sorted_keys raw))
          (toPgDate (up_DueDate (closed_update id inp current (sorted_keys raw)))) (mem_str "due_date" (sorted_keys raw))
          None (marshalFieldsPatch (up_Fields (closed_update id inp current (sorted_keys raw)))) seq).
  { intros u ->. rewrite Hu. by destruct to as [[st cv]|]. }
  rewrite (Heq _ eq_refl). clear Heq. rewrite mem_sorted_keys in Hf.
  unfold update_row, edited, closed_update, given. cbn -[mem_str toPgDate].
  rewrite !mem_sorted_keys. destruct Hd as [D1 D2 D3 D4 _ _ D6 D7 D8].
  f_equal; try (destruct to as [[? ?]|]; reflexivity).
  - destruct (obj_get "title" raw) as [w|]; [|done]. cbn. by apply D1.
  - destruct (obj_get "body" raw) as [w|]; [|done]. by apply D2.
  - destruct (obj_get "assignee" raw) as [w|]; [|done]. unfold patch_assignee. rewrite (D3 w eq_refl). by destruct (text_of w).
  - destruct (obj_get "points" raw) as [w|]; [|done]. rewrite (D4 w eq_refl). by destruct (number_of w).
  - destruct (obj_get "start_date" raw) as [w|]; [|done]. rewrite (D6 w eq_refl). destruct (text_of w); [apply date_of|done].
  - destruct (obj_get "due_date" raw) as [w|]; [|done]. rewrite (D7 w eq_refl). destruct (text_of w); [apply date_of|done].
  - destruct (obj_get "fields" raw) as [w|]; [|done]. cbn. unfold new_fields, members_of.
    destruct Hf as [m Hm]; [done|]. rewrite (D8 w eq_refl) in *. destruct (into_map None w) as [[m'|]|]; done.
Qed.

End edited.

End PatchProps.
