(* ===== verification/Evolve.v ===== *)
(** What other writers can do to the tables between two statements of a handler:
    mutations, respreads and workflow edits keep every item's identity, never lower
    a version, and only add configuration. *)
From S2P Require Import Prelude Utf8 Uuid Ltree Float Json Db Events Mutate StoreTree Store Problem Site Patch Workflow WorkflowProps.
Open Scope Z_scope.

Module Evolve.
Import Ltree Db Events Mutate StoreTree Store Problem Site Patch Workflow WorkflowProps.

(** * Identity of items *)

Record identity_of_item := mkIdent { id_workspace : uuid; id_project : uuid; id_key : string; id_type : uuid }.
Definition ident (i : Item) : identity_of_item := mkIdent (i_workspace i) (i_project i) (i_key i) (i_type i).
Definition idents (db : Db) : gmap uuid identity_of_item := ident <$> items db.

(** UNIQUE (workspace_id, key) *)
Definition keys_unique (m : gmap uuid identity_of_item) : Prop :=
  forall a b x y, m !! a = Some x -> m !! b = Some y -> id_workspace x = id_workspace y -> id_key x = id_key y -> a = b.

Definition ident_step (db db' : Db) : Prop :=
  idents db ⊆ idents db' /\ (keys_unique (idents db) -> keys_unique (idents db')).

#[export] Instance ident_step_refl : Reflexive ident_step.
Proof. intros db. split; [done|auto]. Qed.
#[export] Instance ident_step_trans : Transitive ident_step.
Proof. intros a b c [H1 U1] [H2 U2]. split; [by etransitivity|auto]. Qed.

Lemma ident_step_same db db' : idents db' = idents db -> ident_step db db'.
Proof. unfold ident_step. by intros ->. Qed.

Lemma idents_fmap (g : Item -> Item) db : (forall i, ident (g i) = ident i) -> ident <$> (g <$> items db) = idents db.
Proof. intros Hg. unfold idents. rewrite <- map_fmap_compose. apply map_fmap_ext. intros k i _. apply Hg. Qed.

Lemma ident_insert db db' id i i' :
  items db !! id = Some i -> ident i' = ident i -> items db' = <[id := i']> (items db) -> ident_step db db'.
Proof.
  intros Hi He Hd. apply ident_step_same. unfold idents. rewrite Hd, fmap_insert, He. apply insert_id.
  by rewrite lookup_fmap, Hi.
Qed.

Lemma ident_rank_change db db' : rank_change db db' -> ident_step db db'.
Proof.
  intros [_ Hr]. apply ident_step_same. unfold idents. apply map_eq. intros k. rewrite !lookup_fmap. specialize (Hr k).
  destruct (items db !! k), (items db' !! k); try done. by destruct Hr as (r & v & _ & ->).
Qed.

Lemma key_free_spec i db k j :
  key_free i db = true -> items db !! k = Some j -> k <> i_id i -> i_workspace j = i_workspace i -> i_key j = i_key i -> False.
Proof.
  unfold key_free. rewrite forallb_forall. intros Hf Hj Hk Hw He. specialize (Hf j).
  rewrite Hw, He, String.eqb_refl, bool_decide_true in Hf by done. discriminate Hf. apply list_elem_of_In.
  unfold other_items. apply list_elem_of_fmap. exists (k, j). split; [done|]. apply elem_of_map_to_list.
  by rewrite lookup_delete_ne.
Qed.

Lemma ident_insert_item i db db' : InsertItem i db = Ok db' -> ident_step db db'.
Proof.
  intros Hi. pose proof (InsertItem_inv _ _ _ Hi) as (Hn & _ & _ & ->).
  assert (Hk : key_free i db = true).
  { unfold InsertItem in Hi. destruct (item_path_check _ _ _); [|done]. destruct (title_ok _); [|done].
    destruct (numeric2 _ _); [|done]. case_bool_decide; [done|]. simpl in Hi. by destruct (key_free _ _). }
  assert (Hnew : idents db !! i_id i = None) by (unfold idents; by rewrite lookup_fmap, Hn).
  split; unfold idents in *; simpl; rewrite fmap_insert; [by apply insert_subseteq|].
  intros Hu a b x y Hx Hy Hw Hke. apply lookup_insert_Some in Hx as [[<- <-]|[Hna Hx]];
    apply lookup_insert_Some in Hy as [[<- <-]|[Hnb Hy]].
  - done.
  - exfalso. apply lookup_fmap_Some in Hy as (j & <- & Hj). by eapply (key_free_spec i db b j).
  - exfalso. apply lookup_fmap_Some in Hx as (j & <- & Hj). by eapply (key_free_spec i db a j).
  - by eapply Hu.
Qed.

Section steps.
Context `{UuidParse}.

Lemma apply_kind_ident m c seq s s' :
  tree_ok (tree (pr_db s)) -> not_hard (ch_kind c) = true -> apply_kind m c seq s = Ok s' -> ident_step (pr_db s) (pr_db s').
Proof.
  intros Hok Hh Ha. unfold apply_kind in Ha. destruct (ch_kind c); try done.
  - destruct (applyInsert _ _ _ _) as [[path db]|] eqn:E; [|done]. injection Ha as <-.
    apply applyInsert_inv in E as (row & db1 & Hdb & (ps & dbk & -> & Hrc & _) & Hins & _); [|by apply tree_ok_keyed].
    transitivity (set_projects ps (pr_db s)); [by apply ident_step_same|].
    transitivity db1; [by apply ident_rank_change|]. by eapply ident_insert_item.
  - destruct (applyUpdate _ _ _) as [[path db]|] eqn:E; [|done]. injection Ha as <-.
    apply applyUpdate_inv in E as (i & Hi & _ & -> & _). eapply (ident_insert _ _ (up_ID u) i); [exact Hi| |reflexivity]; done.
  - destruct (applyReparent _ _ _) as [[paths db]|] eqn:E; [|done]. injection Ha as <-.
    apply applyReparent_inv in E as (x & xids & nids & npp & rows & db1 & Hx & Hxp & _ & Hr & _ & _ & Hrc); [|done].
    apply ReparentSubtree_inv in Hr as (-> & _); [|by apply tree_ok_keyed]. simpl.
    etransitivity; [|by apply ident_rank_change]. apply ident_step_same. unfold idents. simpl.
    apply idents_fmap. intros i. unfold moved. by destruct (contained _ _).
  - destruct (sql _) as [[row db]|] eqn:E; [|done]. injection Ha as <-.
    apply sql_inv, SoftDeleteItem_inv in E as (i & Hi & _ & -> & ->). eapply (ident_insert _ _ (ch_item c) i); [exact Hi| |reflexivity]; done.
  - destruct (sql _) as [db|] eqn:E; [|done]. injection Ha as <-. apply sql_inv, InsertLink_inv in E as ->.
    by apply ident_step_same.
  - injection Ha as <-. by apply ident_step_same.
  - destruct (applyComment _ _ _) as [db|] eqn:E; [|done]. injection Ha as <-. apply applyComment_inv in E as [cs ->].
    by apply ident_step_same.
Qed.

Lemma apply_change_ident m seqs s c s' :
  tree_ok (tree (pr_db s)) -> not_hard (ch_kind c) = true -> apply_change m seqs s c = Ok s' -> ident_step (pr_db s) (pr_db s').
Proof.
  intros Hok Hh Ha. apply apply_change_inv in Ha as (s1 & Hk & Ht & _).
  pose proof (apply_kind_ident _ _ _ _ _ Hok Hh Hk) as H1. destruct (touches_version _); [|by rewrite Ht].
  etransitivity; [exact H1|]. apply TouchItem_inv in Ht as [[_ ->]|(i & Hi & ->)]; [done|].
  eapply (ident_insert _ _ (ch_item c) i); [exact Hi| |reflexivity]; done.
Qed.

(** The invariants a handler relies on. *)
Record db_ok (db : Db) : Prop := {
  ok_tree : tree_ok (tree db);
  ok_counters : counters_ok db;
  ok_keys : keys_unique (idents db)
}.

(** Tables a mutation leaves alone. *)
Definition config_of (db : Db) := (statuses db, item_types db, project_configs db, users db).

Definition row_kept : Db -> Db -> Prop := rows_step (fun _ => True).

Record db_step (db db' : Db) : Prop := {
  st_ok : db_ok db';
  st_rows : row_kept db db';
  st_ident : idents db ⊆ idents db'
}.

Lemma db_step_refl db : db_ok db -> db_step db db.
Proof. intros Hok. split; [done|unfold row_kept; reflexivity|done]. Qed.

Lemma db_step_trans a b c : db_step a b -> db_step b c -> db_step a c.
Proof.
  intros [_ R1 I1] [O2 R2 I2]. split; [done| |by etransitivity].
  unfold row_kept in *. by etransitivity.
Qed.

Lemma rows_step_weaken P db db' : rows_step P db db' -> row_kept db db'.
Proof.
  intros Hs k. specialize (Hs k). destruct (items db !! k), (items db' !! k); simpl in *; try done.
  destruct Hs as (? & ? & [Hr|[_ Hv]]); auto.
Qed.

Lemma Mutate_step ws vs os db r db' :
  db_ok db -> forallb api_verb vs = true -> Mutate ws (callback vs) (run_option <$> os) db = (r, db') ->
  db_step db db' /\ config_of db' = config_of db.
Proof.
  intros Hok Hvs Hm. pose proof Hok as [Ht Hc Hk].
  pose proof Hm as Hm'. apply Mutate_inv in Hm' as [(e & -> & ->)|(res & -> & Hf & _)]; [by split; [apply db_step_refl|]|].
  destruct (Mutate_rows _ _ _ _ _ _ Ht Hc Hvs Hm) as [Hr _].
  pose proof (flush_tree _ _ _ _ Ht Hf) as Ht'.
  apply flush_inv in Hf as (v0 & dbA & evs & s & Hfl).
  destruct (flushed_events _ _ _ _ _ _ _ _ Ht Hfl) as (_ & Hq & _).
  pose proof (Hc _ _ (fl_counter _ _ _ _ _ _ _ _ Hfl)) as Hv0.
  destruct Hfl as [_ HA _ _ Hs Hfin _].
  assert (Hids : tree_ok (tree (pr_db s)) /\ ident_step dbA (pr_db s)).
  { revert Hs. apply (foldM_inv _ (fun t => tree_ok (tree (pr_db t)) /\ ident_step dbA (pr_db t))).
    - intros t c t' Hin [H1 H2] Hap. split; [by eapply apply_change_tree|]. etransitivity; [exact H2|].
      eapply apply_change_ident; [done| |exact Hap]. pose proof (built_api ws vs os Hvs) as Hb.
      rewrite Forall_forall in Hb. by apply Hb.
    - subst dbA. by split. }
  destruct Hids as [_ Hids]. apply changes_tree in Hs as [_ Hst]; [|by subst dbA].
  assert (Hst' : statics (pr_db s) = statics dbA) by done. subst dbA. unfold statics in Hst'. injection Hst' as _ _ S1 S2 S3 S4.
  pose proof (finish_items _ _ _ _ Hfin) as Hitems.
  apply finish_inv in Hfin as (db1 & db2 & _ & _ & -> & _). split.
  - split; [split; [done| |]|by eapply rows_step_weaken|].
    + intros ws' v Hv. rewrite Hq in Hv. apply lookup_insert_Some in Hv as [[_ <-]|[_ Hv]]; [lia|by eapply Hc].
    + unfold idents. rewrite Hitems. apply Hids. exact Hk.
    + unfold idents. rewrite Hitems. apply Hids.
  - unfold config_of. simpl. simpl in *. by rewrite S1, S2, S3, S4.
Qed.

Lemma RebalanceProject_step ws p db r db' :
  db_ok db -> RebalanceProject ws p db = (r, db') -> db_step db db' /\ config_of db' = config_of db.
Proof.
  intros Hok. pose proof Hok as [Ht Hc Hk]. unfold RebalanceProject, rebalance_project.
  destruct (sql (AllocateSeq _ _ _)) as [[seq dbA]|e] eqn:Ea; [|intros [= <- <-]; by split; [apply db_step_refl|]].
  apply sql_inv, AllocateSeq_inv in Ea as (v0 & Hv0 & -> & HA).
  destruct (rebalanceProjectRanks _ _ _) as [db1|e] eqn:E; [|intros [= <- <-]; by split; [apply db_step_refl|]].
  intros [= <- <-]. apply rebalance_rank_change in E; [|subst dbA; by apply tree_ok_keyed].
  pose proof (rank_change_tree _ _ E) as Ht1. pose proof (ident_rank_change _ _ E) as [Hi1 Hk1].
  pose proof (rank_change_step (fun _ => True) _ _ E) as Hr1. destruct E as [Hd _].
  assert (Hq : seq_counter db1 = <[ws := v0 + 1]> (seq_counter db) /\ config_of db1 = config_of db) by (rewrite Hd; by subst dbA).
  destruct Hq as [Hq Hcf]. subst dbA. split; [|exact Hcf]. split; [split| |].
  - change (tree_ok (tree db1)). by rewrite Ht1.
  - intros ws' v Hv. simpl in Hv. rewrite Hq in Hv. apply lookup_insert_Some in Hv as [[_ <-]|[_ Hv]]; [|by eapply Hc].
    specialize (Hc _ _ Hv0). lia.
  - by apply Hk1.
  - exact Hr1.
  - exact Hi1.
Qed.

(** * The workflow editor *)

Lemma put_status_grows fresh p next acc st acc' :
  put_status fresh p next acc st = Ok acc' -> config_grows acc.2 acc'.2.
Proof.
  destruct acc as [[ids n] s]. unfold put_status. intros Hp.
  destruct (match ids !! ws_Key st with Some _ => _ | None => _ end) as [[ids1 s1]|] eqn:E; [|done].
  assert (H1 : config_grows s s1).
  { destruct (ids !! ws_Key st); [by injection E as _ <-|].
    destruct (insert_status _ _ _ _) as [s2|] eqn:E2; [|done]. injection E as _ <-. by apply insert_status_inv in E2 as (? & _). }
  destruct (ids1 !! ws_Key st) as [id|]; [|done].
  destruct (insert_config_status _ _ _ _ _) as [s2|] eqn:E2; [|done]. injection Hp as <-.
  apply insert_config_status_inv in E2 as (H2 & _). by transitivity s1.
Qed.

Lemma install_grows fresh who p d c s s' : install fresh who p d c s = Ok s' -> config_grows s s'.
Proof.
  unfold install. intros Hi. destruct (insert_config _ _ _ _) as [s1|] eqn:E1; [|done].
  apply insert_config_inv in E1 as (H1 & _).
  destruct (foldM (put_status _ _ _) _ _) as [[[ids n] s2]|] eqn:E2; [|done].
  destruct (foldM (put_type _ _ _ _ _) _ _) as [s3|] eqn:E3; [|done].
  transitivity s1; [done|]. transitivity s2; [|transitivity s3].
  - change (config_grows ((current_ids p (Version c) s, 0, s1) : gmap string uuid * Z * Site).2 (ids, n, s2).2).
    refine (foldM_inv _ (fun acc : gmap string uuid * Z * Site => config_grows s1 acc.2) _ _ _ _ _ E2); [|simpl; reflexivity].
    intros a x a' _ Ha Hx. etransitivity; [exact Ha|]. by eapply put_status_grows.
  - revert E3. apply (foldM_rel _ config_grows). intros t x t' Hp. unfold put_type in Hp.
    destruct (id_of _ _); [|done]. revert Hp. apply (foldM_rel _ config_grows).
    intros t1 y t1' Hy. by apply insert_config_type_inv in Hy as (? & _).
  - revert Hi. apply (foldM_rel _ config_grows). intros t x t' Hp. unfold put_arcs in Hp.
    revert Hp. apply (foldM_rel _ config_grows). intros t1 y t1' Hy. destruct (id_of _ _); [|done]. simpl in Hy.
    destruct (id_of _ _); [|done]. by apply insert_transition_inv in Hy as (? & _).
Qed.

Lemma updateWorkflow_grows low fresh r body s rep s' : updateWorkflow low fresh r body s = (rep, s') -> config_grows s s'.
Proof.
  intros [[-> _]|(p & v & d & c & Ha & _ & _)]%updateWorkflow_inv; [done|].
  destruct Ha as [_ _ _ _ _ _ Hi]. by eapply install_grows.
Qed.

(** * Other writers *)

Inductive other_step : Site -> Site -> Prop :=
  | other_mutate ws vs os s r s' :
      forallb api_verb vs = true -> mutate_site ws vs os s = (r, s') -> other_step s s'
  | other_rebalance ws p s r d : RebalanceProject ws p (s_db s) = (r, d) -> other_step s (set_db d s)
  | other_workflow low fresh r body s rep s' : updateWorkflow low fresh r body s = (rep, s') -> other_step s s'.

(** Any number of them. *)
Definition evolves : Site -> Site -> Prop := rtc other_step.

(** Tables none of them writes. *)
Definition fixed_tables (s : Site) :=
  (s_workspace s, s_project s, s_account s, s_membership s, s_type_name s, s_field_def s, item_types (s_db s), users (s_db s)).

Record site_step (s s' : Site) : Prop := {
  ss_db : db_step (s_db s) (s_db s');
  ss_fixed : fixed_tables s' = fixed_tables s;
  ss_statuses : statuses (s_db s) ⊆ statuses (s_db s');
  ss_configs : project_configs (s_db s) ⊆ project_configs (s_db s');
  ss_transition : s_config_transition s ⊆ s_config_transition s'
}.

Lemma site_step_trans a b c : site_step a b -> site_step b c -> site_step a c.
Proof.
  intros [D1 F1 S1 P1 T1] [D2 F2 S2 P2 T2]. split; [by eapply db_step_trans|congruence|by etransitivity..].
Qed.

Lemma set_db_step s d : db_step (s_db s) d -> config_of d = config_of (s_db s) -> site_step s (set_db d s).
Proof.
  intros Hd Hc. unfold config_of in Hc. injection Hc as H1 H2 H3 H4.
  split; simpl; [done| |by rewrite H1|by rewrite H3|done]. unfold fixed_tables. simpl. by rewrite H2, H4.
Qed.

Lemma mutate_site_step ws vs os s r s' :
  db_ok (s_db s) -> forallb api_verb vs = true -> mutate_site ws vs os s = (r, s') -> site_step s s'.
Proof.
  intros Hok Hvs. unfold mutate_site. destruct (Mutate _ _ _ _) as [r' d] eqn:E. intros [= _ <-].
  destruct (Mutate_step _ _ _ _ _ _ Hok Hvs E). by apply set_db_step.
Qed.

Lemma grows_step s s' : db_ok (s_db s) -> config_grows s s' -> site_step s s'.
Proof.
  intros Hok Hg. pose proof Hg as [U S1 _ P1 _ _ T1]. unfold untouched in U.
  injection U as U1 U2 U3 U4 U5 U6 U7 U8 U9 U10 U11 U12 U13 U14 U15.
  assert (Hid : idents (s_db s') = idents (s_db s)) by (unfold idents; by rewrite U2).
  split; [split| |done..].
  - destruct Hok as [Ht Hc Hk]. split; [by rewrite (tree_eq _ _ U2)|unfold counters_ok; by rewrite U1|by rewrite Hid].
  - by apply rows_step_same.
  - by rewrite Hid.
  - unfold fixed_tables. congruence.
Qed.

Lemma other_site_step s s' : db_ok (s_db s) -> other_step s s' -> site_step s s'.
Proof.
  intros Hok Hs. revert Hok. destruct Hs as [ws vs os s0 r s0' Hvs Hm|ws p s0 r d Hr|low fresh r body s0 rep s0' Hu]; intros Hok.
  - by eapply mutate_site_step.
  - destruct (RebalanceProject_step _ _ _ _ _ Hok Hr). by apply set_db_step.
  - apply grows_step; [done|]. by eapply updateWorkflow_grows.
Qed.

Lemma evolves_step s s' : db_ok (s_db s) -> evolves s s' -> site_step s s'.
Proof.
  intros Hok He. revert Hok. induction He as [s|s t s' Hs _ IH]; intros Hok.
  - by apply grows_step.
  - pose proof (other_site_step _ _ Hok Hs) as H1. eapply site_step_trans; [exact H1|]. apply IH, H1.
Qed.

(** A row that still has the version it was read at is the row that was read, up
    to its rank. *)
Lemma evolves_row s s' k i i' :
  site_step s s' -> items (s_db s) !! k = Some i -> items (s_db s') !! k = Some i' ->
  i_version i <= i_version i' /\ ident i' = ident i /\ (i_version i' = i_version i -> rank_only i i').
Proof.
  intros [[_ Hr Hi] _ _ _ _] Hk Hk'. specialize (Hr k). rewrite Hk, Hk' in Hr. destruct Hr as (_ & Hv & Hc).
  split; [done|]. split.
  - assert (Hl : idents (s_db s) !! k = Some (ident i)) by (unfold idents; by rewrite lookup_fmap, Hk).
    apply (lookup_weaken _ _ _ _ Hl) in Hi. unfold idents in Hi. rewrite lookup_fmap, Hk' in Hi. by apply (inj Some) in Hi.
  - intros He. destruct Hc as [Hc|[_ Hc]]; [done|lia].
Qed.

Lemma evolves_kept s s' k i :
  site_step s s' -> items (s_db s) !! k = Some i -> exists i', items (s_db s') !! k = Some i'.
Proof.
  intros [[_ Hr _] _ _ _ _] Hk. specialize (Hr k). rewrite Hk in Hr.
  destruct (items (s_db s') !! k) as [i'|]; [by exists i'|done].
Qed.

End steps.

End Evolve.
