(* ===== verification/EditProps.v ===== *)
(** What a successful edit or transition of an item did, with other writers at work
    between its reads and its mutation. *)
From S2P Require Import Prelude Utf8 Uuid Ltree DateTime Float Json Db Events Mutate StoreTree Store Problem Site Input Patch Workflow WorkflowProps PatchProps Evolve.
Open Scope Z_scope.

Module EditProps.
Import Ltree Db Events Mutate StoreTree Store Problem Site Input Patch Workflow WorkflowProps PatchProps Evolve.

Section edit.
Context `{UuidParse} `{UrlParse}.

(** * One update in a mutation *)

(** The event row of a described change. *)
Definition event_of (ws actor item : uuid) (fc : FieldChange) (e : Event) : Prop :=
  e = mkEvent ws (e_seq e) (Some item) (Some actor) (if String.eqb (fc_Kind fc) "" then EventFieldChanged else fc_Kind fc)
        (Some (fc_Field fc)) (fc_Old fc) (fc_New fc).

Record updated (ws actor id : uuid) (v : Z) (up : ItemUpdate) (evs : list FieldChange) (db db' : Db) (i : Item) (seq : Z) : Prop := {
  ud_row : items db !! id = Some i;
  ud_live : i_workspace i = ws /\ i_deleted i = false /\ i_version i = v;
  ud_items : items db' = <[id := update_row (update_params up seq) (v + 1) i]> (items db);
  ud_config : config_of db' = config_of db;
  ud_events : exists rows, events db' = events db ++ rows /\ Forall2 (event_of ws actor id) evs rows
}.

Lemma field_events_rows ws m id evs es : id <> uuid_nil -> m_has_actor m = true ->
  mapM' (fun fc => fieldEvent id fc m) evs = Ok es -> forall n,
  Forall2 (event_of ws (m_actor m) id) evs (map (event_row ws) (assign_seqs n es)).
Proof.
  intros Hid Ha He%mapM'_Forall2. induction He as [|fc e evs es Hx He IH]; intros n; simpl; [done|].
  constructor; [|apply IH]. unfold event_of, event_row. simpl.
  unfold fieldEvent in Hx. destruct (String.eqb (fc_Field fc) ""); [done|]. injection Hx as <-. simpl.
  by rewrite bool_decide_false, Ha by done.
Qed.

Lemma Mutate_update ws actor id v up evs db res db' :
  tree_ok (tree db) -> up_ID up = id -> id <> uuid_nil ->
  Mutate ws (callback [VUpdate up evs]) (run_option <$> [OActor actor; OExpected id v]) db = (Ok res, db') ->
  exists i seq, updated ws actor id v up evs db db' i seq.
Proof.
  intros Hok Hup Hid Hm. apply Mutate_inv in Hm as [(e & ? & _)|(res' & [= <-] & Hf & Hc)]; [done|].
  set (m0 := fold_left (fun m o => o m) (run_option <$> [OActor actor; OExpected id v]) (new_mutation ws)).
  assert (Hb : built ws [VUpdate up evs] [OActor actor; OExpected id v] = Update up evs m0) by done.
  rewrite Hb in *. unfold Update in Hc, Hf. destruct evs as [|fc evs']; [done|]. set (evs := fc :: evs') in *.
  destruct (mapM' _ evs) as [es|e] eqn:Ees; [|done]. rewrite Hup in Ees.
  apply flush_inv in Hf as (v0 & dbA & nevs & s & Hfl).
  destruct (flushed_events _ _ _ _ _ _ _ _ Hok Hfl) as (Hev & _ & _).
  destruct Hfl as [_ HA Hex Hnum Hs Hfin _]. simpl in *.
  destruct (Hex id v) as (i & Hi & Hw & Hd & Hv); [by rewrite lookup_insert_eq|].
  destruct (apply_change _ _ _ _) as [s1|] eqn:E; [|done]. injection Hs as ->.
  apply apply_change_inv in E as (s2 & Hk & Ht & _). simpl in Ht. unfold apply_kind in Hk. simpl in Hk.
  destruct (applyUpdate _ _ _) as [[path db2]|] eqn:Eu; [|done]. injection Hk as <-. simpl in Ht.
  apply applyUpdate_inv in Eu as (i2 & Hi2 & _ & -> & _). rewrite Hup in *. subst dbA. simpl in Hi2.
  rewrite Hi in Hi2. injection Hi2 as <-.
  pose proof (finish_items _ _ _ _ Hfin) as Hit.
  apply finish_inv in Hfin as (db1 & db3 & _ & _ & -> & _).
  exists i, (coalesce (item_seq nevs !! id) 0). split; [done|done| |by rewrite Ht|].
  - rewrite Hit, Ht. simpl. by rewrite Hv.
  - eexists. split; [exact Hev|]. rewrite Hnum. unfold all_events. simpl. rewrite app_nil_r.
    apply (field_events_rows ws m0 id evs es); done.
Qed.

(** * Reading an item *)

Lemma has_key_spec ws key i : has_key ws key i = true <-> i_workspace i = ws /\ i_key i = key.
Proof. unfold has_key. by rewrite andb_true_iff, bool_decide_eq_true, String.eqb_eq. Qed.

Lemma readItem_inv ws key s i d v :
  tree_ok (tree (s_db s)) -> readItem ws key s = Ok (i, d, v) ->
  items (s_db s) !! i_id i = Some i /\ i_workspace i = ws /\ i_key i = key /\ item_doc s i = Some d /\ v = i_version i.
Proof.
  intros Hok Hr. unfold readItem, query_row in Hr. destruct (omap _ _) as [|x l] eqn:E; [done|]. injection Hr as ->.
  assert (Hin : (i, d, v) ∈ (i, d, v) :: l) by left. rewrite <- E in Hin.
  apply list_elem_of_omap in Hin as (j & Hj & Hx). destruct (has_key ws key j) eqn:Hk; [|done].
  destruct (item_doc s j) as [d'|] eqn:Hd; [|done]. injection Hx as -> -> <-.
  apply has_key_spec in Hk as [? ?]. apply row_in in Hj as [k Hk].
  pose proof (tree_ok_keyed _ Hok _ _ Hk) as <-. done.
Qed.

Lemma keys_unique_row db a b i j :
  keys_unique (idents db) -> items db !! a = Some i -> items db !! b = Some j ->
  i_workspace i = i_workspace j -> i_key i = i_key j -> i = j.
Proof.
  intros Hu Ha Hb Hw Hk. assert (a = b) as ->; [|congruence].
  apply (Hu a b (ident i) (ident j)); [unfold idents; by rewrite lookup_fmap, ?Ha, ?Hb..|done|done].
Qed.

(** The custom fields of a row, as an object. *)
Definition custom (i : Item) : list (string * json) := match as_object (i_fields i) with Some o => o | None => [] end.

Lemma old_fields_doc s i d : item_doc s i = Some d -> old_fields d = custom i.
Proof. unfold item_doc. intros Hd. repeat case_match; try done. by injection Hd as <-. Qed.

(** * The mutation of an edit *)

Record committed (r : api_request) (id : uuid) (v : Z) (up : ItemUpdate) (evs : list FieldChange) (s s' : Site)
    (i : Item) (seq : Z) (st : Z) (et : option Z) (loc : option string) (doc : json) : Prop := {
  cm_updated : updated (WorkspaceID (rq_who r)) (ID (rq_who r)) id v up evs (s_db s) (s_db s') i seq;
  cm_site : s' = set_db (s_db s') s;
  cm_ok : db_ok (s_db s');
  cm_reply : i_key i = rq_param r ->
    st = 200 /\ et = Some (v + 1) /\ loc = None /\
    exists d, doc = JObj d /\ item_doc s' (update_row (update_params up seq) (v + 1) i) = Some d
}.

Lemma commit_inv r id v up evs sub s st et loc doc s' :
  db_ok (s_db s) -> id <> uuid_nil -> up_ID up = id ->
  commit r (mkPlan id v (VUpdate up evs) sub) s = (RDoc st et loc doc, s') ->
  exists i seq, committed r id v up evs s s' i seq st et loc doc.
Proof.
  intros Hok Hid Hup. unfold commit, mutate_site. simpl pl_verb. simpl pl_item. simpl pl_version.
  destruct (Mutate _ _ _ _) as [res d] eqn:Em. destruct res as [res|]; [|intros Hc; by simplify_eq].
  assert (Hvs : forallb api_verb [VUpdate up evs] = true) by (simpl; by rewrite Hup, bool_decide_false).
  destruct (Mutate_step _ _ _ _ _ _ Hok Hvs Em) as [[Hok' _ _] _].
  destruct (Mutate_update _ _ _ _ _ _ _ _ _ (ok_tree _ Hok) Hup Hid Em) as (i & seq & Hu).
  unfold item_reply. destruct (readItem _ _ _) as [[[i' dd] v']|] eqn:Er; intros Hc; simplify_eq.
  apply readItem_inv in Er as (Hi' & Hw' & Hk' & Hd & ->); [|apply Hok'].
  exists i, seq. split; [done|done|done|]. intros Hk.
  assert (Hl : items d !! up_ID up = Some (update_row (update_params up seq) (v + 1) i)).
  { rewrite (ud_items _ _ _ _ _ _ _ _ _ _ Hu). by rewrite lookup_insert_eq. }
  destruct (ud_live _ _ _ _ _ _ _ _ _ _ Hu) as (Hw & _ & _).
  simpl in Hi'. pose proof (keys_unique_row _ _ _ _ _ (ok_keys _ Hok') Hi' Hl) as He.
  rewrite He in * by (simpl; congruence). split_and!; try done. by exists dd.
Qed.

(** * PATCH *)

(** The change described for one key of the body, against the document that was
    read. *)
Definition change_of (raw doc : list (string * json)) (field : string) : list FieldChange :=
  if String.eqb field "fields" then field_events (old_fields doc) (members_of (field_of raw "fields"))
  else
    let old := field_of doc field in
    let old := if String.eqb field "assignee" then match old with JObj o => field_of o "id" | _ => old end else old in
    [mkFieldChange "" field (non_null old) (non_null (field_of raw field))].
Definition edit_changes (raw doc : list (string * json)) : list FieldChange :=
  concat (map (change_of raw doc) (sorted_keys raw)).

Lemma closed_changes id inp raw doc p :
  decoded raw inp -> closed id inp raw doc (sorted_keys raw) p -> pt_events p = edit_changes raw doc.
Proof.
  intros Hd Hc. rewrite (cl_events _ _ _ _ _ _ Hc). unfold edit_changes. f_equal. apply map_ext_in.
  intros k Hk%list_elem_of_In. unfold changes_of, change_of. destruct (String.eqb_spec k "fields") as [->|]; [|done].
  f_equal. unfold new_fields, members_of, field_of. apply sorted_keys_get in Hk as [w Hw]. rewrite Hw.
  rewrite (de_fields _ _ Hd w Hw). by destruct (into_map None w) as [[?|]|].
Qed.

Record update_planned (r : api_request) (s : Site) (p : plan) (raw : list (string * json)) (inp : itemInput) (i : Item)
    (d : list (string * json)) (q : patch) : Prop := {
  up_body : rq_body r = Ok (JObj raw);
  up_keys : forall k, k ∈ sorted_keys raw -> k ∈ editable;
  up_decoded : decoded raw inp;
  up_read : items (s_db s) !! i_id i = Some i /\ i_workspace i = WorkspaceID (rq_who r) /\ i_key i = rq_param r /\ item_doc s i = Some d;
  up_valid : validateInput (WorkspaceID (rq_who r)) (i_project i) inp (mem_str "title" (sorted_keys raw)) s = Ok tt;
  up_closed : closed (i_id i) inp raw d (sorted_keys raw) q;
  up_plan : exists v, expectedVersion r = Ok v /\ p = mkPlan (i_id i) v (VUpdate (pt_up q) (pt_events q)) (JObj raw)
}.

Lemma update_plan_inv r s p :
  tree_ok (tree (s_db s)) -> update_plan r s = Ok p -> exists raw inp i d q, update_planned r s p raw inp i d q.
Proof.
  intros Hok. unfold update_plan. destruct (rejectFields r); [|done].
  destruct (expectedVersion r) as [v|] eqn:Ev; [|done].
  destruct (decode_raw r) as [raw|] eqn:Er; [|done].
  destruct (sorted_keys raw) as [|k0 ks] eqn:Ek; [done|]. rewrite <- Ek in *.
  destruct (List.find _ _) as [f|] eqn:Ef; [done|].
  assert (Hkeys : forall k, k ∈ sorted_keys raw -> k ∈ editable).
  { intros k Hk%list_elem_of_In. pose proof (find_none _ _ Ef k Hk) as Hn. simpl in Hn.
    apply negb_false_iff in Hn. by apply mem_str_spec. }
  destruct (unmarshal_raw raw) as [inp|] eqn:Eu; [|done].
  destruct (readItem _ _ s) as [[[i d] v0]|] eqn:Ei; [|done]. cbn [read_problem].
  destruct (validateInput _ _ _ _ _) as [[]|] eqn:Eva; [|done]. cbn [request_check].
  destruct (patch_loop _ _ _ _ _) as [q|] eqn:Ep; [|done].
  destruct (pt_events q) as [|e0 es] eqn:Ee; [done|]. intros [= <-]. rewrite <- Ee.
  apply readItem_inv in Ei as (H1 & H2 & H3 & H4 & _); [|done].
  exists raw, inp, i, d, q. split; try done.
  - unfold decode_raw in Er. destruct (rq_body r) as [[| | | | | |m]|]; try done; injection Er as <-; done.
  - by apply unmarshal_decoded.
  - by eapply patch_loop_closed.
  - by exists v.
Qed.

(** No row has the nil identifier; [uuid.NewV7] never returns it. *)
Definition no_nil (db : Db) : Prop := items db !! uuid_nil = None.

Lemma real_id db i : no_nil db -> items db !! i_id i = Some i -> i_id i <> uuid_nil.
Proof. unfold no_nil. intros Hn Hi He. rewrite He in Hi. congruence. Qed.

(** The row an edit read and the row it was applied to. *)
Lemma committed_row s s' i0 i :
  site_step s s' -> items (s_db s) !! i_id i0 = Some i0 -> items (s_db s') !! i_id i0 = Some i ->
  i_id i = i_id i0 /\ i_project i = i_project i0 /\ i_workspace i = i_workspace i0 /\ i_key i = i_key i0 /\
  (i_version i = i_version i0 -> rank_only i0 i).
Proof.
  intros Hst Ha Hb. destruct (evolves_row _ _ _ _ _ Hst Ha Hb) as (_ & Hid & Hr). unfold ident in Hid. injection Hid as ? ? ? ?.
  split_and!; try done. apply (tree_ok_keyed _ (ok_tree _ (st_ok _ _ (ss_db _ _ Hst)))) in Hb. done.
Qed.

(** C8. An edit changes what its body says and nothing else, whatever other
    writers did between its reads and its mutation: a successful PATCH found the item
    live in the workspace at the version named by If-Match, replaced exactly the
    fields of the body (custom fields key by key), left every other column and every
    other row alone, logged one event per changed field with its old and new value,
    and answers with the new row and the next version. If the version it read was
    already the one of If-Match, the custom fields it merged into are those the row
    still had. *)
Theorem updateItem_exact r s s' st et loc doc s'' :
  db_ok (s_db s) -> no_nil (s_db s) -> evolves s s' -> updateItem_at r s s' = (RDoc st et loc doc, s'') ->
  exists raw i0 d0 i seq d,
    rq_body r = Ok (JObj raw) /\ (forall k, k ∈ sorted_keys raw -> k ∈ editable) /\
    readItem (WorkspaceID (rq_who r)) (rq_param r) s = Ok (i0, d0, i_version i0) /\
    items (s_db s') !! i_id i0 = Some i /\ i_deleted i = false /\ expectedVersion r = Ok (i_version i) /\
    items (s_db s'') = <[i_id i0 := edited raw (custom i0) None (i_version i + 1) seq i]> (items (s_db s')) /\
    (forall w k, obj_get "fields" raw = Some w ->
       obj_get k (custom (edited raw (custom i0) None (i_version i + 1) seq i)) =
       match obj_get k (members_of w) with Some x => Some x | None => obj_get k (custom i0) end) /\
    (exists rows, events (s_db s'') = events (s_db s') ++ rows /\
       Forall2 (event_of (WorkspaceID (rq_who r)) (ID (rq_who r)) (i_id i0)) (edit_changes raw d0) rows) /\
    item_doc s'' (edited raw (custom i0) None (i_version i + 1) seq i) = Some d /\
    st = 200 /\ et = Some (i_version i + 1) /\ loc = None /\ doc = JObj d /\
    (i_version i = i_version i0 -> custom i = custom i0).
Proof.
  intros Hok Hnil Hev Hu. unfold updateItem_at in Hu.
  destruct (update_plan r s) as [p|] eqn:Ep; [|done]. pose proof Ep as Ep'.
  apply update_plan_inv in Ep as (raw & inp & i0 & d0 & q & [Hb Hk Hd (Hi0 & Hw0 & Hk0 & Hd0) Hva Hc (v & Hv & ->)]); [|apply Hok].
  pose proof (evolves_step _ _ Hok Hev) as Hst.
  apply commit_inv in Hu as (i & seq & [Hup Hs'' Hok'' Hrep]);
    [|apply (ss_db _ _ Hst)|by eapply real_id|rewrite (cl_up _ _ _ _ _ _ Hc); done].
  destruct Hup as [Hi (Hw & Hdel & Hvi) Hitems _ Hevs].
  destruct (committed_row _ _ _ _ Hst Hi0 Hi) as (Hid & Hpr & _ & Hkey & Hsame).
  destruct (Hrep ltac:(congruence)) as (-> & -> & -> & d & -> & Hdoc).
  pose proof (update_row_edited (i_id i0) None inp raw d0 q seq (v + 1) i Hd Hc) as He. simpl in He.
  rewrite He, (old_fields_doc _ _ _ Hd0) in Hdoc, Hitems. rewrite (closed_changes _ _ _ _ _ Hd Hc) in Hevs. subst v.
  exists raw, i0, d0, i, seq, d. split_and!; try done.
  - unfold update_plan in Ep'. clear - Ep' Hi0 Hw0 Hk0 Hd0 Hok.
    destruct (readItem _ _ s) as [[[j dj] vj]|] eqn:Er; [|repeat case_match; done].
    apply readItem_inv in Er as (Hj & Hwj & Hkj & Hdj & ->); [|apply Hok].
    pose proof (keys_unique_row _ _ _ _ _ (ok_keys _ Hok) Hj Hi0) as He. rewrite He in * by congruence. congruence.
  - intros w k Hw'. unfold custom at 1, edited, given. simpl. rewrite Hw'. simpl. apply obj_get_merge.
  - intros Hvv. destruct (Hsame Hvv) as (rk & w & _ & ->). done.
Qed.

End edit.

End EditProps.
