(* ===== verification/TransitionProps.v ===== *)
(** What a successful transition of an item did. *)
From S2P Require Import Prelude Utf8 Uuid Ltree DateTime Float Json Db Events Mutate StoreTree Store Problem Site Input Patch Workflow WorkflowProps PatchProps Evolve EditProps.
Open Scope Z_scope.

Module TransitionProps.
Import Ltree Db Events Mutate StoreTree Store Problem Site Input Patch Workflow WorkflowProps PatchProps Evolve EditProps.

(** A required field has a value in the row. *)
Definition present (f : string) (i : Item) : bool :=
  if has_prefix f "fields." then match i_fields i with JObj m => negb (blank (field_of m (str_drop 7 f))) | _ => false end
  else if String.eqb f "title" then negb (String.eqb (i_title i) "")
  else if String.eqb f "body" then match i_body i with Some b => negb (String.eqb b "") | None => false end
  else if String.eqb f "assignee" then match i_assignee i with Some _ => true | None => false end
  else if String.eqb f "points" then match i_points i with Some _ => true | None => false end
  else if String.eqb f "start_date" then match i_start i with Some _ => true | None => false end
  else if String.eqb f "due_date" then match i_due i with Some _ => true | None => false end
  else true.

Lemma missing_none merged l :
  missing_fields merged l = Some [] -> forall f, f ∈ l -> exists v, required_value merged f = Some v /\ blank v = false.
Proof.
  induction l as [|g l IH]; simpl; intros Hm f Hf; [by apply not_elem_of_nil in Hf|].
  destruct (required_value merged g) as [v|] eqn:Er; [|done]. destruct (missing_fields merged l) as [missing|]; [|done].
  destruct (blank v) eqn:Eb; [done|]. apply elem_of_cons in Hf as [->|Hf]; [by exists v|].
  injection Hm as ->. by apply IH.
Qed.

Section transition.
Context `{UuidParse} `{UrlParse}.

(** The parts of [validateInput] the row depends on. *)
Lemma validateInput_inv ws project inp b s :
  validateInput ws project inp b s = Ok tt ->
  (forall a, ii_Assignee inp = Some a -> is_Some (uuid_parse a)) /\
  (forall t, ii_StartDate inp = Some t -> is_Some (parse_date t)) /\
  (forall t, ii_DueDate inp = Some t -> is_Some (parse_date t)) /\
  validateFields ws project (match ii_Fields inp with Some m => m | None => [] end) s = Ok tt.
Proof.
  unfold validateInput. intros Hv.
  destruct (negb (b && title_bad (ii_Title inp))); [|done].
  destruct (match ii_Body inp with Some _ => _ | None => _ end); [|done].
  destruct (match ii_Points inp with Some _ => _ | None => _ end); [|done].
  destruct (match ii_StartDate inp with Some _ => _ | None => _ end && _) eqn:Ed; [|done].
  destruct (match ii_Assignee inp with Some _ => _ | None => _ end) eqn:Ea; [|done].
  apply andb_true_iff in Ed as [Es Ed]. unfold is_date, date_ok in *. split_and!; [| | |done].
  - intros a Ha. rewrite Ha in Ea. unfold memberExists in Ea. destruct (uuid_parse a); [by eexists|done].
  - intros t Ht. rewrite Ht in Es. destruct (parse_date t); [by eexists|done].
  - intros t Ht. rewrite Ht in Ed. destruct (parse_date t); [by eexists|done].
Qed.

Lemma doc_field s i d k :
  item_doc s i = Some d -> k ∈ ["title"; "body"; "assignee"; "points"; "start_date"; "due_date"; "fields"] ->
  Some (field_of d k) = obj_get k [("title", JStr (i_title i)); ("body", opt_json JStr (i_body i));
    ("assignee", assignee_doc s (i_assignee i)); ("points", opt_json json_num (i_points i));
    ("start_date", opt_json json_date (i_start i)); ("due_date", opt_json json_date (i_due i)); ("fields", i_fields i)].
Proof.
  unfold item_doc. intros Hd Hk. repeat case_match; try done. injection Hd as <-.
  repeat (apply elem_of_cons in Hk as [->|Hk]; [done|]). by apply not_elem_of_nil in Hk.
Qed.

Lemma present_edited id inp raw d q s i i' to ver seq ws project b f v :
  closed id inp raw d (sorted_keys raw) q -> decoded raw inp -> validateInput ws project inp b s = Ok tt ->
  item_doc s i = Some d -> rank_only i i' ->
  required_value (pt_merged q) f = Some v -> blank v = false ->
  present f (edited raw (custom i) to ver seq i') = true.
Proof.
  intros Hc Hd (Va & Vs & Vd & _)%validateInput_inv Hdoc (rk & w & _ & ->) Hr Hb.
  unfold required_value in Hr. unfold present.
  assert (Hm : forall k x, obj_get k raw = x -> field_of (pt_merged q) k =
     match x with Some _ => new_value inp raw d k | None => field_of d k end).
  { intros k x <-. rewrite (cl_merged _ _ _ _ _ _ Hc), mem_sorted_keys. by destruct (obj_get k raw). }
  destruct (has_prefix f "fields.") eqn:Ef.
  { destruct (as_object _) as [o|] eqn:Eo; [|done]. injection Hr as <-. simpl. unfold given.
    destruct (obj_get "fields" raw) as [x|] eqn:Ex; rewrite (Hm "fields" _ Ex) in Eo.
    - unfold new_value in Eo. simpl in Eo. injection Eo as <-.
      rewrite (old_fields_doc _ _ _ Hdoc) in Hb. unfold new_fields in Hb. rewrite (de_fields _ _ Hd x Ex) in Hb.
      unfold members_of. destruct (into_map None x) as [[m|]|]; by rewrite Hb.
    - pose proof (doc_field s i d "fields" Hdoc ltac:(apply mem_str_spec; reflexivity)) as Hf. simpl in Hf. injection Hf as Hf.
      rewrite Hf in Eo. destruct (i_fields i); try done. simpl in Eo. injection Eo as ->. by rewrite Hb. }
  injection Hr as <-.
  assert (Hraw : forall k x, k <> "fields" -> obj_get k raw = Some x -> new_value inp raw d k = x).
  { intros k x Hk Hx. unfold new_value, field_of. rewrite Hx. by destruct (String.eqb_spec k "fields"). }
  repeat match goal with
  | |- (if String.eqb f ?k then _ else _) = true => destruct (String.eqb_spec f k) as [->|]
  end; simpl; unfold given; [| | | | | |done].
  all: match type of Hb with blank (field_of _ ?k) = _ =>
    pose proof (doc_field s i d k Hdoc ltac:(apply mem_str_spec; reflexivity)) as Hf; simpl in Hf; injection Hf as Hf;
    destruct (obj_get k raw) as [x|] eqn:Ex; rewrite (Hm k _ Ex) in Hb;
      [rewrite (Hraw k x ltac:(done) Ex) in Hb|rewrite Hf in Hb] end.
  all: try (destruct (de_text _ _ Hd _ _ Ex ltac:(apply mem_str_spec; reflexivity)) as [->|[t ->]]; [done|]).
  all: try (destruct (de_number _ _ Hd _ Ex) as [->|[g [-> Hg]]]; [done|]).
  - simpl in Hb. simpl. by rewrite Hb.
  - simpl in Hb. by rewrite Hb.
  - simpl in Hb. simpl. by rewrite Hb.
  - destruct (i_body i); [|done]. simpl in Hb. by rewrite Hb.
  - simpl. pose proof (de_assignee _ _ Hd _ Ex) as Ha. simpl in Ha. by destruct (Va _ Ha) as [u ->].
  - by destruct (i_assignee i).
  - simpl. by destruct g.
  - by destruct (i_points i).
  - simpl. pose proof (de_start _ _ Hd _ Ex) as Ha. simpl in Ha. by destruct (Vs _ Ha) as [u ->].
  - by destruct (i_start i).
  - simpl. pose proof (de_due _ _ Hd _ Ex) as Ha. simpl in Ha. by destruct (Vd _ Ha) as [u ->].
  - by destruct (i_due i).
Qed.

(** * The plan *)

Lemma live_item_inv ws key d i :
  live_item ws key d = Ok i -> exists k, items d !! k = Some i /\ i_workspace i = ws /\ i_key i = key /\ i_deleted i = false.
Proof.
  unfold live_item, query_row. destruct (List.filter _ _) as [|x l] eqn:E; [done|]. intros [= ->].
  assert (Hin : i ∈ i :: l) by left. rewrite <- E in Hin.
  apply list_elem_of_In, filter_In in Hin as [Hin Hb]. apply list_elem_of_In, row_in in Hin as [k Hk].
  apply andb_true_iff in Hb as [Hb Hd]. apply has_key_spec in Hb as [? ?]. apply negb_true_iff in Hd. by exists k.
Qed.

Lemma transition_rows_inv i to s st cv req :
  (st, cv, req) ∈ transition_rows i to s ->
  max_version (i_project i) (s_db s) = Some cv /\
  s_config_transition s !! (i_project i, cv, i_status i, st) = Some req /\
  exists row, statuses (s_db s) !! st = Some row /\ Db.s_project row = i_project i /\ s_key row = to.
Proof.
  unfold transition_rows. destruct (max_version _ _) as [v|]; [|by intros ?%not_elem_of_nil].
  intros ([id row] & Hin & Hx)%list_elem_of_omap. simpl in Hx. case_bool_decide as Hp; [|done]. simpl in Hx.
  destruct (String.eqb_spec (s_key row) to) as [Hk|]; [|done].
  destruct (s_config_transition s !! _) as [rq|] eqn:Et; [|done]. injection Hx as -> -> ->.
  apply elem_of_map_to_list in Hin. split; [done|]. split; [done|]. by exists row.
Qed.

Lemma itemPatch_inv ws project id d raw s q :
  itemPatch ws project id d raw s = Ok q ->
  exists inp b, decoded raw inp /\ validateInput ws project inp b s = Ok tt /\ closed id inp raw d (sorted_keys raw) q.
Proof.
  unfold itemPatch. destruct (unmarshal_raw raw) as [inp|] eqn:Eu; [|done].
  destruct (validateInput _ _ _ _ _) as [[]|] eqn:Ev; [|done].
  destruct (patch_loop _ _ _ _ _) as [q'|[| |]] eqn:Ep; try done. intros [= ->].
  apply patch_loop_closed in Ep. eexists inp, _. split; [|by split].
  apply unmarshal_decoded; [|done]. apply (cl_editable _ _ _ _ _ _ Ep).
Qed.

(** The change of status as the log describes it. *)
Definition status_change (doc : list (string * json)) (to : string) : FieldChange :=
  mkFieldChange EventStatusChanged "status"
    (non_null (match field_of doc "status" with JObj st => field_of st "key" | _ => JNull end)) (Some (JStr to)).

(** What the body of the request asks for: the key of a status and an edit. *)
Definition asks (r : api_request) (to : string) (raw : list (string * json)) : Prop :=
  exists m fields, struct_members ["to_status"; "fields"] r = Ok m /\ string_member "to_status" m = Ok to /\
    raw_member "fields" m = Ok fields /\ raw = match fields with Some f => f | None => [] end.

Record transition_planned (r : api_request) (s : Site) (p : plan) (raw : list (string * json)) (inp : itemInput) (i : Item)
    (d : list (string * json)) (q : patch) (to : string) (target : uuid) (cv : Z) (req : json) (requires : list string) : Prop := {
  tp_asks : asks r to raw;
  tp_read : items (s_db s) !! i_id i = Some i /\ i_workspace i = WorkspaceID (rq_who r) /\ i_key i = rq_param r /\
    item_doc s i = Some d /\ i_deleted i = false;
  tp_version : expectedVersion r = Ok (i_version i);
  tp_patch : exists b, decoded raw inp /\ validateInput (WorkspaceID (rq_who r)) (i_project i) inp b s = Ok tt /\
    closed (i_id i) inp raw d (sorted_keys raw) q;
  tp_arc : (target, cv, req) ∈ transition_rows i to s;
  tp_requires : options_of req = Some requires /\ missing_fields (pt_merged q) requires = Some [];
  tp_plan : exists sub, p = mkPlan (i_id i) (i_version i)
    (VUpdate (with_target (Some (target, cv)) (pt_up q)) (pt_events q ++ [status_change d to])) sub
}.

Lemma transition_plan_inv r s p :
  tree_ok (tree (s_db s)) -> keys_unique (idents (s_db s)) -> transition_plan r s = Ok p ->
  exists raw inp i d q to target cv req requires, transition_planned r s p raw inp i d q to target cv req requires.
Proof.
  intros Hok Hu. unfold transition_plan. destruct (rejectFields r); [|done].
  destruct (expectedVersion r) as [v|] eqn:Ev; [|done].
  destruct (struct_members _ r) as [m|] eqn:Em; [|done]. destruct (string_member _ m) as [to|] eqn:Eto; [|done].
  destruct (raw_member _ m) as [fields|] eqn:Efi; [|done].
  destruct (readItem _ _ s) as [[[i d] v0]|] eqn:Ei; [|done]. cbn [read_problem].
  destruct (Z.eqb_spec v0 v) as [->|]; [|done]. cbn [negb].
  apply readItem_inv in Ei as (H1 & H2 & H3 & H4 & ->); [|done].
  destruct (live_item _ _ _) as [j|e] eqn:El; [|by destruct e].
  apply live_item_inv in El as (k & Hj & Hwj & Hkj & Hdj).
  assert (Hji : j = i) by (eapply (keys_unique_row _ _ _ _ _ Hu Hj H1); congruence). subst j.
  destruct (query_row _) as [[[target cv] req]|e] eqn:Eq; [|by destruct e].
  assert (Harc : (target, cv, req) ∈ transition_rows i to s).
  { unfold query_row in Eq. destruct (transition_rows i to s) as [|x l]; [done|]. injection Eq as ->. left. }
  set (raw := match fields with Some f => f | None => [] end).
  destruct (itemPatch _ _ _ _ _ _) as [q|] eqn:Ep; [|done].
  apply itemPatch_inv in Ep as (inp & b & Hd & Hva & Hc).
  destruct (options_of req) as [requires|] eqn:Er; [|done].
  destruct (missing_fields _ _) as [[|? ?]|] eqn:Emi; try done.
  destruct (as_object (field_of d "status")) as [std|] eqn:Es; [|done]. intros [= <-].
  exists raw, inp, i, d, q, to, target, cv, req, requires. split; try done.
  - by exists m, fields.
  - by exists b.
  - eexists. unfold status_change. destruct (field_of d "status"); try done. injection Es as ->. done.
Qed.

(** C7. A transition follows the workflow, whatever other writers did between its
    reads and its mutation: a successful one found the item live at the version named
    by If-Match, and the configuration that was the latest when the request began
    has an arc from the status the item had to the one asked for, of the item's own
    project; the row differs from before exactly by the edit in the body and the new
    status and configuration version, every field the arc requires has a value in
    it, the change of status is logged last, and every other row is as it was. *)
Theorem transitionItem_legal r s s' st et loc doc s'' :
  db_ok (s_db s) -> no_nil (s_db s) -> evolves s s' -> transitionItem_at r s s' = (RDoc st et loc doc, s'') ->
  exists i raw d0 to target row cv req requires seq d,
    asks r to raw /\ expectedVersion r = Ok (i_version i) /\
    items (s_db s') !! i_id i = Some i /\ i_workspace i = WorkspaceID (rq_who r) /\ i_key i = rq_param r /\ i_deleted i = false /\
    max_version (i_project i) (s_db s) = Some cv /\
    statuses (s_db s'') !! target = Some row /\ Db.s_project row = i_project i /\ s_key row = to /\
    s_config_transition s'' !! (i_project i, cv, i_status i, target) = Some req /\ options_of req = Some requires /\
    let i' := edited raw (custom i) (Some (target, cv)) (i_version i + 1) seq i in
    items (s_db s'') = <[i_id i := i']> (items (s_db s')) /\
    (forall f, f ∈ requires -> present f i' = true) /\
    (exists rows, events (s_db s'') = events (s_db s') ++ rows /\
       Forall2 (event_of (WorkspaceID (rq_who r)) (ID (rq_who r)) (i_id i)) (edit_changes raw d0 ++ [status_change d0 to]) rows) /\
    st = 200 /\ et = Some (i_version i + 1) /\ loc = None /\ item_doc s'' i' = Some d /\ doc = JObj d.
Proof.
  intros Hok Hnil Hev Hu. unfold transitionItem_at in Hu.
  destruct (transition_plan r s) as [p|] eqn:Ep; [|done].
  apply transition_plan_inv in Ep as (raw & inp & i0 & d0 & q & to & target & cv & req & requires &
    [Hasks (Hi0 & Hw0 & Hk0 & Hd0 & Hdel0) Hver (b & Hd & Hva & Hc) Harc [Hreq Hmiss] [sub ->]]); [|apply Hok..].
  pose proof (evolves_step _ _ Hok Hev) as Hst.
  apply commit_inv in Hu as (i & seq & [Hup Hs'' Hok'' Hrep]);
    [|apply (ss_db _ _ Hst)|by eapply real_id|simpl; rewrite (cl_up _ _ _ _ _ _ Hc); done].
  destruct Hup as [Hi (Hw & Hdel & Hvi) Hitems Hcf Hevs].
  destruct (committed_row _ _ _ _ Hst Hi0 Hi) as (Hid & Hpr & _ & Hkey & Hsame).
  destruct (Hrep ltac:(congruence)) as (-> & -> & -> & d & -> & Hdoc).
  pose proof (update_row_edited (i_id i0) (Some (target, cv)) inp raw d0 q seq (i_version i0 + 1) i Hd Hc) as He.
  rewrite He, (old_fields_doc _ _ _ Hd0) in Hdoc, Hitems. rewrite (closed_changes _ _ _ _ _ Hd Hc) in Hevs.
  pose proof (Hsame Hvi) as Hro. pose proof Hro as (rk & w & _ & Hio).
  assert (Hcu : custom i0 = custom i /\ i_status i0 = i_status i) by (by rewrite Hio).
  destruct Hcu as [Hcu Hstat]. apply transition_rows_inv in Harc as (Hmax & Harc & row & Hrow & Hrp & Hrk).
  assert (Hs1 : statuses (s_db s') !! target = Some row) by (eapply lookup_weaken; [exact Hrow|apply Hst]).
  assert (Hs2 : s_config_transition s' !! (i_project i0, cv, i_status i0, target) = Some req)
    by (eapply lookup_weaken; [exact Harc|apply Hst]).
  assert (Hs3 : statuses (s_db s'') = statuses (s_db s') /\ s_config_transition s'' = s_config_transition s').
  { unfold config_of in Hcf. injection Hcf as Hcf _ _ _. split; [done|]. by rewrite Hs''. }
  destruct Hs3 as [Hs3 Hs4].
  exists i, raw, d0, to, target, row, cv, req, requires, seq, d. rewrite Hs3, Hs4, Hid, Hvi, <- Hcu, <- Hstat, Hpr.
  cbv zeta. split_and!; try done; try congruence.
  intros f Hf. destruct (missing_none _ _ Hmiss f Hf) as (v & Hv & Hb).
  eapply present_edited; [exact Hc|exact Hd|exact Hva|exact Hd0|exact Hro|exact Hv|exact Hb].
Qed.

End transition.

End TransitionProps.
