(* ===== verification/TypedFields.v ===== *)
(** Custom fields keep the types their project declares: validation implies the
    declared kind, and the handlers that write custom fields preserve it. *)
From S2P Require Import Prelude Utf8 Uuid Ltree DateTime Float Json Db Events Mutate StoreTree Store Problem Site Input Patch Items Workflow WorkflowProps PatchProps Evolve EditProps TransitionProps.
Open Scope Z_scope.

Module TypedFields.
Import Ltree Db Events Mutate StoreTree Store Problem Site Input Patch Items Workflow WorkflowProps PatchProps Evolve EditProps TransitionProps.

Section typed.
Context `{UuidParse} `{UrlParse}.

(** * Values of a declared kind *)

(** The values of a kind; of a user only that it is an identifier, since members
    come and go. *)
Definition conforms (kind : string) (options : list string) (v : json) : bool :=
  if String.eqb kind "text" then match v with JStr _ => true | _ => false end
  else if String.eqb kind "number" then match v with JNum _ => true | _ => false end
  else if String.eqb kind "bool" then match v with JBool _ => true | _ => false end
  else if String.eqb kind "date" then match v with JStr t => date_ok t | _ => false end
  else if String.eqb kind "url" then
    match v with
    | JStr t => match url_parse t with
                | Some (scheme, host) => negb (String.eqb host "") && mem_str scheme ["https"; "http"]
                | None => false
                end
    | _ => false
    end
  else if String.eqb kind "user" then match v with JStr id => match uuid_parse id with Some _ => true | None => false end | _ => false end
  else if String.eqb kind "select" then match v with JStr t => mem_str t options | _ => false end
  else if String.eqb kind "multiselect" then
    match v with JArr l => forallb (fun e => match e with JStr t => mem_str t options | _ => false end) l | _ => false end
  else false.

Lemma value_ok_conforms ws s kind options v : value_ok ws s kind options v = true -> conforms kind options v = true.
Proof.
  unfold value_ok, conforms. intros Hv.
  repeat match goal with |- (if String.eqb kind ?k then _ else _) = true => destruct (String.eqb kind k); [try exact Hv|] end.
  - destruct v as [| | | |t| |]; try done. destruct (url_parse t) as [[sc h]|]; [|done].
    apply andb_true_iff in Hv as [-> Hs]. apply orb_true_iff in Hs as [->%String.eqb_eq| ->%String.eqb_eq]; done.
  - destruct v as [| | | |t| |]; try done. unfold memberExists in Hv. by destruct (uuid_parse t).
  - done.
Qed.

Definition field_ok (s : Site) (project : uuid) (k : string) (v : json) : Prop :=
  exists kind raw options, s_field_def s !! (project, k) = Some (kind, raw) /\ options_of raw = Some options /\
    (v = JNull \/ conforms kind options v = true).

Definition object_ok (s : Site) (project : uuid) (m : list (string * json)) : Prop :=
  forall k v, obj_get k m = Some v -> field_ok s project k v.

(** Every item conforms to the fields of its project. *)
Definition fields_typed (s : Site) : Prop :=
  forall id i, items (s_db s) !! id = Some i -> object_ok s (i_project i) (custom i).

Lemma obj_get_In {A} k v (m : list (string * A)) : obj_get k m = Some v -> (k, v) ∈ m.
Proof.
  induction m as [|[k' v'] m IH]; simpl; [done|]. destruct (obj_get k m) as [w|].
  - intros [= ->]. right. by apply IH.
  - destruct (String.eqb_spec k k') as [->|]; [|done]. intros [= ->]. left.
Qed.

Lemma mapM'_elem {E A B} (f : A -> result E B) xs ys x :
  mapM' f xs = Ok ys -> x ∈ xs -> exists y, f x = Ok y /\ y ∈ ys.
Proof.
  intros Hm%mapM'_Forall2 Hx. apply list_elem_of_lookup in Hx as [n Hn].
  destruct (Forall2_lookup_l _ _ _ _ _ Hm Hn) as (y & Hy & Hf). exists y. split; [done|]. by eapply list_elem_of_lookup_2.
Qed.

Lemma mapM'_elem_of {E A B} (f : A -> result E B) xs ys y :
  mapM' f xs = Ok ys -> y ∈ ys -> exists x, f x = Ok y /\ x ∈ xs.
Proof.
  intros Hm%mapM'_Forall2 Hy. apply list_elem_of_lookup in Hy as [n Hn].
  destruct (Forall2_lookup_r _ _ _ _ _ Hm Hn) as (x & Hx & Hf). exists x. split; [done|]. by eapply list_elem_of_lookup_2.
Qed.

Lemma read_defs_inv project s defs key kind options :
  read_defs project s = Ok defs -> obj_get key defs = Some (kind, options) ->
  exists raw, s_field_def s !! (project, key) = Some (kind, raw) /\ options_of raw = Some options.
Proof.
  intros Hr Hg%obj_get_In. destruct (mapM'_elem_of _ _ _ _ Hr Hg) as ([k [kd raw]] & Hf & Hin). simpl in Hf.
  destruct (options_of raw) as [os|] eqn:Eo; [|done]. injection Hf as -> -> ->. exists raw. split; [|done].
  apply list_elem_of_omap in Hin as ([[p k'] [kd' raw']] & Hin & Hx). simpl in Hx. case_bool_decide as Hp; [|done].
  injection Hx as -> -> ->. simpl in Hp. subst p. by apply elem_of_map_to_list in Hin.
Qed.

(** What [validateInput] accepts conforms. *)
Lemma validateFields_ok ws project m s : validateFields ws project m s = Ok tt -> object_ok s project m.
Proof.
  intros Hv k v Hk. unfold validateFields in Hv. destruct m as [|kv m0] eqn:Em; [done|]. rewrite <- Em in *.
  destruct (read_defs project s) as [defs|] eqn:Er; [|done]. destruct (mapM' _ _) as [us|] eqn:Ec; [|done].
  destruct (mapM'_elem _ _ _ k Ec) as (u & Hu & _); [apply sorted_keys_get; by eexists|].
  unfold check_field in Hu. destruct (obj_get k defs) as [[kind options]|] eqn:Ed; [|done].
  destruct (read_defs_inv _ _ _ _ _ _ Er Ed) as (raw & Hd & Ho). exists kind, raw, options. split; [done|]. split; [done|].
  rewrite Hk in Hu. destruct v; [by left|right..];
    (destruct (value_ok _ _ _ _ _) eqn:Eok; [by eapply value_ok_conforms|done]).
Qed.

Lemma merge_ok s project old new : object_ok s project old -> object_ok s project new -> object_ok s project (merge_fields old new).
Proof.
  intros Ho Hn k v. rewrite obj_get_merge.
  destruct (obj_get k new) as [w|] eqn:E; [|apply Ho]. intros [= <-]. by apply Hn.
Qed.

Lemma object_ok_site s s' project m : s_field_def s' = s_field_def s -> object_ok s project m -> object_ok s' project m.
Proof. unfold object_ok, field_ok. by intros ->. Qed.

Lemma site_step_fields s s' : site_step s s' -> s_field_def s' = s_field_def s.
Proof. intros [_ Hf _ _ _]. unfold fixed_tables in Hf. congruence. Qed.

Lemma edited_ok inp raw i0 i to ver seq s s' ws b :
  decoded raw inp -> validateInput ws (i_project i0) inp b s = Ok tt -> i_project i = i_project i0 ->
  s_field_def s' = s_field_def s -> object_ok s (i_project i0) (custom i0) -> object_ok s' (i_project i) (custom i) ->
  object_ok s' (i_project (edited raw (custom i0) to ver seq i)) (custom (edited raw (custom i0) to ver seq i)).
Proof.
  intros Hd (_ & _ & _ & Hv)%validateInput_inv Hp Hf Ho Hn. simpl i_project. unfold custom at 1. simpl. unfold given.
  destruct (obj_get "fields" raw) as [w|] eqn:Ew; [|exact Hn]. simpl. rewrite Hp.
  eapply object_ok_site; [exact Hf|]. apply merge_ok; [done|].
  apply validateFields_ok in Hv. unfold members_of. rewrite (de_fields _ _ Hd w Ew) in Hv.
  by destruct (into_map None w) as [[m|]|].
Qed.

(** * The handlers *)

(** A commit left the tables alone or applied its update, whatever it answered. *)
Lemma commit_cases r id v up evs sub s rep s' :
  db_ok (s_db s) -> id <> uuid_nil -> up_ID up = id -> commit r (mkPlan id v (VUpdate up evs) sub) s = (rep, s') ->
  s' = s \/ exists i seq, updated (WorkspaceID (rq_who r)) (ID (rq_who r)) id v up evs (s_db s) (s_db s') i seq /\ s' = set_db (s_db s') s.
Proof.
  intros Hok Hid Hup. unfold commit, mutate_site. simpl pl_verb. simpl pl_item. simpl pl_version.
  destruct (Mutate _ _ _ _) as [res d] eqn:Em. destruct res as [res|e].
  - intros [= _ <-]. right. destruct (Mutate_update _ _ _ _ _ _ _ _ _ (ok_tree _ Hok) Hup Hid Em) as (i & seq & Hu).
    by exists i, seq.
  - apply Mutate_inv in Em as [(e' & _ & ->)|(res & ? & _)]; [|done]. intros [= _ <-]. left. by destruct s.
Qed.

Lemma commit_typed r v inp raw d q to evs sub s s' i0 rep s'' ws b :
  db_ok (s_db s) -> no_nil (s_db s) -> site_step s s' -> fields_typed s -> fields_typed s' ->
  items (s_db s) !! i_id i0 = Some i0 -> item_doc s i0 = Some d ->
  decoded raw inp -> validateInput ws (i_project i0) inp b s = Ok tt -> closed (i_id i0) inp raw d (sorted_keys raw) q ->
  commit r (mkPlan (i_id i0) v (VUpdate (with_target to (pt_up q)) evs) sub) s' = (rep, s'') -> fields_typed s''.
Proof.
  intros Hok Hnil Hst Hty Hty' Hi0 Hdoc Hd Hva Hc Hu.
  apply commit_cases in Hu as [->|(i & seq & [Hi (Hw & Hdel & Hvi) Hitems _ _] & Hs'')];
    [done| |apply (ss_db _ _ Hst)|by eapply real_id|destruct to as [[? ?]|]; simpl; by rewrite (cl_up _ _ _ _ _ _ Hc)].
  destruct (committed_row _ _ _ _ Hst Hi0 Hi) as (_ & Hpr & _).
  pose proof (site_step_fields _ _ Hst) as Hf. assert (Hf' : s_field_def s'' = s_field_def s') by (by rewrite Hs'').
  intros k j Hj. rewrite Hitems in Hj. apply lookup_insert_Some in Hj as [[_ <-]|[_ Hj]].
  - rewrite (update_row_edited _ to _ _ _ _ seq (v + 1) i Hd Hc), (old_fields_doc _ _ _ Hdoc).
    eapply edited_ok; [exact Hd|exact Hva|exact Hpr|congruence|by apply (Hty _ _ Hi0)|].
    eapply object_ok_site; [exact Hf'|]. by apply (Hty' _ _ Hi).
  - eapply object_ok_site; [exact Hf'|]. by eapply Hty'.
Qed.

(** What creating an item does to the custom fields of the rows. *)
Lemma Mutate_create_fields ws fresh inp os db res db' :
  tree_ok (tree db) -> Mutate ws (callback [VCreate fresh inp]) (run_option <$> os) db = (Ok res, db') ->
  forall k j, items db' !! k = Some j ->
    (exists i, items db !! k = Some i /\ rank_only i j) \/
    (i_project j = in_ProjectID inp /\ i_fields j = marshalFields (in_Fields inp)).
Proof.
  intros Hok Hm. apply Mutate_inv in Hm as [(e & ? & _)|(res' & [= <-] & Hf & Hc)]; [done|].
  unfold built in Hf, Hc. set (m0 := fold_left (fun m o => o m) (run_option <$> os) (new_mutation ws)) in *.
  simpl in Hf, Hc. unfold Create in Hf, Hc.
  destruct (String.eqb (in_Title inp) ""); [unfold check_mutation in Hc; simpl in Hc; by destruct (m_err m0)|].
  destruct (bool_decide (in_OriginID inp = uuid_nil)); [unfold check_mutation in Hc; simpl in Hc; by destruct (m_err m0)|].
  apply flush_inv in Hf as (v0 & dbA & nevs & s & [_ HA _ _ Hs Hfin _]).
  pose proof (proj2 (options_context ws os)) as Hcs. fold m0 in Hcs. simpl in Hs. rewrite Hcs in Hs. simpl in Hs.
  destruct (apply_change _ _ _ _) as [s1|] eqn:E; [|done]. injection Hs as ->.
  apply apply_change_inv in E as (s2 & Hk & Ht & _). simpl in Ht. unfold apply_kind in Hk. simpl in Hk.
  destruct (applyInsert _ _ _ _) as [[path db2]|] eqn:Eu; [|done]. injection Hk as <-. simpl in Ht.
  apply applyInsert_inv in Eu as (row & db1 & Hdb & (ps & dbk & -> & [_ Hrc] & _) & _ & _ & _ & _ & Hpr & _ & _ & _ & _ & Hfi);
    [|subst dbA; by apply tree_ok_keyed].
  apply finish_items in Hfin. intros k j Hj. rewrite Hfin, Ht, Hdb in Hj. simpl in Hj.
  apply lookup_insert_Some in Hj as [[_ <-]|[_ Hj]]; [by right|left].
  specialize (Hrc k). rewrite Hj in Hrc. subst dbA. simpl in Hrc.
  destruct (items db !! k) as [i|]; [by exists i|done].
Qed.

Lemma createItem_typed fresh r s rep s' :
  tree_ok (tree (s_db s)) -> fields_typed s -> createItem fresh r s = (rep, s') -> fields_typed s'.
Proof.
  intros Hok Hty. unfold createItem.
  destruct (rejectFields r); [|by intros [= _ <-]]. destruct (decode_input r) as [inp|]; [|by intros [= _ <-]].
  destruct (read_problem _) as [[[[[pid tid] sid] version] origin]|]; [|by intros [= _ <-]].
  destruct (validateInput _ _ _ _ _) as [[]|] eqn:Ev; [|by intros [= _ <-]]. cbn [request_check].
  destruct (match ii_Parent inp with None => _ | Some _ => _ end) as [parent|]; [|by intros [= _ <-]].
  set (ins := mkInsert _ _ _ _ _ _ _ _ _ _ _ _ _ _ _ _). unfold mutate_site.
  destruct (Mutate _ _ _ _) as [res d] eqn:Em. intros Hr.
  assert (Hs' : s' = set_db d s) by (repeat case_match; by simplify_eq). subst s'.
  apply validateInput_inv in Ev as (_ & _ & _ & Ev). apply validateFields_ok in Ev.
  destruct res as [res|e].
  2:{ apply Mutate_inv in Em as [(e' & _ & ->)|(res & ? & _)]; [|done]. by destruct s. }
  intros k j Hj. simpl in Hj. eapply object_ok_site; [done|].
  destruct (Mutate_create_fields _ _ _ _ _ _ _ Hok Em k j Hj) as [(i & Hi & (rk & w & _ & ->))|[-> Hfi]].
  - by apply (Hty _ _ Hi).
  - unfold custom. rewrite Hfi. simpl. by destruct (ii_Fields inp).
Qed.

(** C9. Custom fields are well typed: if every item's custom fields have the
    kinds and options its project declares, then so they have after any creation,
    edit or transition, whatever the request and the answer and whatever other
    writers did between the reads and the mutation of an edit or a transition. *)
Theorem fields_typed_kept r fresh s s' rep s'' :
  db_ok (s_db s) -> no_nil (s_db s) -> evolves s s' -> fields_typed s -> fields_typed s' ->
  updateItem_at r s s' = (rep, s'') \/ transitionItem_at r s s' = (rep, s'') \/ createItem fresh r s' = (rep, s'') ->
  fields_typed s''.
Proof.
  intros Hok Hnil Hev Hty Hty'. pose proof (evolves_step _ _ Hok Hev) as Hst.
  intros [Hu|[Hu|Hu]].
  - unfold updateItem_at in Hu. destruct (update_plan r s) as [p|] eqn:Ep; [|by injection Hu as _ <-].
    apply update_plan_inv in Ep as (raw & inp & i0 & d0 & q & [_ _ Hd (Hi0 & _ & _ & Hd0) Hva Hc (v & _ & ->)]); [|apply Hok].
    eapply (commit_typed r v inp raw d0 q None); done.
  - unfold transitionItem_at in Hu. destruct (transition_plan r s) as [p|] eqn:Ep; [|by injection Hu as _ <-].
    apply transition_plan_inv in Ep as (raw & inp & i0 & d0 & q & to & target & cv & req & requires &
      [_ (Hi0 & _ & _ & Hd0 & _) _ (b & Hd & Hva & Hc) _ _ [sub ->]]); [|apply Hok..].
    eapply (commit_typed r (i_version i0) inp raw d0 q (Some (target, cv))); done.
  - eapply createItem_typed; [|exact Hty'|exact Hu]. apply (ss_db _ _ Hst).
Qed.

End typed.

End TypedFields.
