(* ===== verification/MoveProps.v ===== *)
(** The checks of a move and those of the store agree. *)
From S2P Require Import Prelude Utf8 Uuid Ltree DateTime Float Json Rank Db Events Mutate StoreTree Store StoreRank Problem Site Input Patch Workflow WorkflowProps PatchProps Evolve EditProps TransitionProps.
Open Scope Z_scope.

Module MoveProps.
Import Ltree Db Events Mutate StoreTree Store StoreRank Problem Site Input Patch Workflow WorkflowProps PatchProps Evolve EditProps TransitionProps.

(** Items lie in projects of their workspace, and a workspace has one project of a
    key prefix. *)
Record places_ok (s : Site) : Prop := {
  po_item : forall id i, items (s_db s) !! id = Some i -> exists p, projects (s_db s) !! i_project i = Some p /\ p_workspace p = i_workspace i;
  po_prefix : forall a b p q, projects (s_db s) !! a = Some p -> projects (s_db s) !! b = Some q ->
    p_workspace p = p_workspace q -> p_key_prefix p = p_key_prefix q -> a = b
}.

(** * The rank of a moved item *)

Lemma scan_ranks_true item after lo l : is_Some (scan_ranks item after true lo l).
Proof. revert lo; induction l as [|[id r] l IH]; intros lo; simpl; [by eexists|]. case_bool_decide; [apply IH|by eexists]. Qed.

Lemma scan_ranks_found item a lo l : a <> item -> a ∈ l.*1 -> is_Some (scan_ranks item (Some a) false lo l).
Proof.
  intros Ha. revert lo; induction l as [|[id r] l IH]; intros lo Hin; simpl in *; [by apply not_elem_of_nil in Hin|].
  apply elem_of_cons in Hin as [<-|Hin].
  - rewrite bool_decide_false, bool_decide_true by done. apply scan_ranks_true.
  - case_bool_decide; [by apply IH|]. case_bool_decide; [apply scan_ranks_true|by apply IH].
Qed.

(** The sibling named is another row of the project. *)
Definition after_ok (item : Item) (after : option uuid) (db : Db) : Prop :=
  forall a, after = Some a -> a <> i_id item /\ exists j, items db !! a = Some j /\ i_project j = i_project item.

Lemma after_ok_change item after db db' : rank_change db db' -> after_ok item after db -> after_ok item after db'.
Proof.
  intros [_ Hr] Ha a Hs. destruct (Ha a Hs) as (Hne & j & Hj & Hp). split; [done|]. specialize (Hr a). rewrite Hj in Hr.
  destruct (items db' !! a) as [j'|]; [|done]. exists j'. split; [done|]. by destruct Hr as (? & ? & _ & ->).
Qed.

Lemma sql_not_move {A} (r : result dberr A) : sql r <> Err ErrInvalidMove.
Proof. by destruct r. Qed.

Lemma rebalance_not_move p ranks db : rebalanceProjectRanks p ranks db <> Err ErrInvalidMove.
Proof.
  unfold rebalanceProjectRanks. destruct ranks; [done|]. destruct (Rank.RankSequence _); [apply sql_not_move|done].
Qed.

Lemma reparent_rank_not_move n item after db :
  keyed (items db) -> after_ok item after db -> reparent_rank n item after db <> Err ErrInvalidMove.
Proof.
  revert db; induction n as [|n IH]; intros db Hk Ha; simpl; [done|].
  destruct (scan_ranks _ _ _ _ _) as [[lo hi]|] eqn:Es.
  - unfold rankBetween. destruct (Rank.RankBetween lo hi); try done.
    destruct (Rank.RankNeedsRebalance _); [|apply sql_not_move].
    destruct (rebalanceProjectRanks _ _ _) as [db1|e] eqn:E;
      [|intros [= ->]; by apply (rebalance_not_move (i_project item) (ListProjectRanks (i_project item) db) db)].
    apply rebalance_rank_change in E; [|done]. apply IH; [|by eapply after_ok_change].
    intros k j Hj. destruct E as [_ E]. specialize (E k). rewrite Hj in E.
    destruct (items db !! k) as [j0|] eqn:Hj0; [|done]. destruct E as (? & ? & _ & ->). simpl. by eapply Hk.
  - exfalso. destruct after as [a|].
    + destruct (Ha a eq_refl) as (Hne & j & Hj & Hp).
      destruct (scan_ranks_found (i_id item) a "" (ListProjectRanks (i_project item) db) Hne) as [x Hx]; [|congruence].
      apply list_elem_of_fmap. exists (a, i_rank j). split; [done|]. apply elem_ranks; [done|]. by exists j.
    + destruct (scan_ranks_true (i_id item) None "" (ListProjectRanks (i_project item) db)) as [x Hx]. congruence.
Qed.

(** * The store's checks *)

(** What the handler has established about the reparent it asks for. *)
Record move_checked (d : Db) (i : Item) (r : ItemReparent) : Prop := {
  mc_item : items d !! rp_ID r = Some i;
  mc_parent : forall p, rp_NewParentID r = Some p -> exists j, items d !! p = Some j /\ i_project j = i_project i /\
    i_deleted j = false /\ isDescendantOrSelf (i_path j) (i_path i) = false;
  mc_depth : exists h, subtree_height (i_path i) d = Some h /\
    (match rp_NewParentID r with
     | Some p => match items d !! p with Some j => S (count_byte dot (i_path j)) | None => 0 end
     | None => 0 end + h <= 8)%nat;
  mc_after : after_ok i (rp_RankAfter r) d
}.

Lemma applyReparent_checked d i r seq :
  tree_ok (tree d) -> move_checked d i r -> applyReparent r seq d <> Err ErrInvalidMove.
Proof.
  intros Hok [Hi Hp (h & Hh & Hle) Ha]. pose proof (tree_ok_keyed _ Hok) as Hk. unfold applyReparent, GetItem. rewrite Hi. cbn [sql].
  match goal with |- (match ?x with Ok _ => _ | Err _ => _ end) <> _ => destruct x as [npp|e] eqn:Enp end.
  2:{ intros [= ->]. destruct (rp_NewParentID r) as [p|]; [|done]. destruct (Hp p eq_refl) as (j & Hj & Hpr & Hd & Hdes).
    rewrite Hj in Enp. cbn [sql] in Enp. by rewrite Hpr, Hd, Hdes, bool_decide_true in Enp by done. }
  rewrite Hh.
  assert (Hdepth : ((if String.eqb npp "" then O else S (count_byte dot npp)) + h <= 8)%nat).
  { destruct (rp_NewParentID r) as [p|]; [|injection Enp as <-; simpl; lia].
    destruct (Hp p eq_refl) as (j & Hj & Hpr & Hd & Hdes). rewrite Hj in Enp, Hle. cbn [sql] in Enp.
    rewrite Hpr, Hd, Hdes, bool_decide_true in Enp by done. injection Enp as <-. destruct (String.eqb _ ""); lia. }
  rewrite (proj2 (Nat.ltb_ge _ _) Hdepth).
  destruct (sql (ReparentSubtree _ _ _ _ _ _)) as [[rows d1]|e] eqn:Er; [|intros [= ->]; by eapply sql_not_move].
  apply sql_inv, ReparentSubtree_inv in Er as (-> & _); [|done]. destruct (rp_SetRank r); [|done].
  destruct (reparent_rank _ _ _ _) as [d2|e] eqn:Err_; [done|]. intros [= ->]. revert Err_.
  apply reparent_rank_not_move; simpl.
  - intros k j Hj. rewrite lookup_fmap_Some in Hj. destruct Hj as (j0 & <- & Hj0). unfold moved.
    destruct (contained _ _); exact (Hk _ _ Hj0).
  - intros a Hs. destruct (Ha a Hs) as (Hne & j & Hj & Hpr). split; [done|]. simpl. rewrite lookup_fmap, Hj.
    eexists. split; [done|]. unfold moved. by destruct (contained _ _).
Qed.

Section moves.
Context `{UuidParse} `{UrlParse}.

Lemma foldM_not {E A S} (f : S -> A -> result E S) (e : E) xs s : (forall s x, f s x <> Err e) -> foldM f xs s <> Err e.
Proof.
  intros Hf. revert s; induction xs as [|x xs IH]; intros s; simpl; [done|].
  destruct (f s x) eqn:Ef; [apply IH|]. intros [= ->]. by eapply Hf.
Qed.

Lemma finish_not_move ws evs s : finish ws evs s <> Err ErrInvalidMove.
Proof.
  unfold finish. destruct (foldM _ _ _) as [d1|e] eqn:E1; [|intros [= ->]; revert E1; apply foldM_not; intros; apply sql_not_move].
  destruct (recomputeRollups _ _) as [d2|e] eqn:E2; [done|]. intros [= ->]. revert E2. apply foldM_not. intros. apply sql_not_move.
Qed.

Lemma options_no_error os : forall m, m_err m = None -> m_err (fold_left (fun m o => o m) (run_option <$> os) m) = None.
Proof. induction os as [|o os IH]; intros m Hm; simpl; [done|]. apply IH. by destruct o. Qed.

Definition one_reparent (ws : uuid) (r : ItemReparent) (os : list mutate_option) : Mutation := built ws [VReparent r] os.

Lemma one_reparent_changes ws r os : exists es, m_changes (one_reparent ws r os) = [mkChange (changeReparent r) (rp_ID r) es].
Proof.
  unfold one_reparent, built. simpl. unfold Reparent. simpl. rewrite (proj2 (options_context ws os)). simpl. by eexists.
Qed.

Lemma Mutate_reparent_not_move ws r os d i :
  tree_ok (tree d) -> move_checked d i r ->
  (Mutate ws (callback [VReparent r]) (run_option <$> os) d).1 <> Err ErrInvalidMove.
Proof.
  intros Hok Hm. unfold Mutate, callback. fold (built ws [VReparent r] os). fold (one_reparent ws r os).
  destruct (one_reparent_changes ws r os) as [es Hcs].
  assert (Hchk : check_mutation (one_reparent ws r os) <> Err ErrInvalidMove).
  { unfold check_mutation. rewrite Hcs. unfold one_reparent, built. simpl.
    pose proof (options_no_error os (new_mutation ws) eq_refl) as He.
    rewrite He. by destruct es. }
  destruct (check_mutation _) as [u|e]; [|intros He; apply Hchk; simpl in He; congruence].
  destruct (flush _ d) as [[res d']|e] eqn:Ef; [done|]. simpl. intros [= ->]. revert Ef. unfold flush.
  destruct (sql (AllocateSeq _ _ _)) as [[h dA]|e] eqn:Ea; [|intros [= ->]; by eapply sql_not_move].
  apply sql_inv, AllocateSeq_inv in Ea as (v0 & _ & _ & ->).
  destruct (forallb _ _); [|done]. rewrite Hcs. cbn [foldM]. unfold apply_change, apply_kind. cbn [ch_kind touches_version ch_item pr_db].
  destruct (applyReparent _ _ _) as [[ps d1]|e] eqn:Er.
  - destruct (finish _ _ _) as [d2|e] eqn:Efi; [done|].
    intros [= ->]. by eapply finish_not_move.
  - intros [= ->]. revert Er. apply (applyReparent_checked _ i); [done|]. destruct Hm as [M1 M2 M3 M4]. by split.
Qed.

(** * The handler's checks *)

Definition prefix_of (s : Site) (i : Item) : string :=
  match projects (s_db s) !! i_project i with Some p => p_key_prefix p | None => "" end.

Lemma same_prefix s a b i j :
  places_ok s -> items (s_db s) !! a = Some i -> items (s_db s) !! b = Some j -> i_workspace i = i_workspace j ->
  prefix_of s i = prefix_of s j -> i_project i = i_project j.
Proof.
  intros [Hp Hu] Hi Hj Hw He. destruct (Hp _ _ Hi) as (p & Hpi & Hpw), (Hp _ _ Hj) as (q & Hqi & Hqw).
  unfold prefix_of in He. rewrite Hpi, Hqi in He. apply (Hu _ _ p q); [done|done|congruence|done].
Qed.

Lemma move_parent_inv ws item k s np depth a :
  db_ok (s_db s) -> places_ok s -> items (s_db s) !! a = Some item -> i_workspace item = ws ->
  move_parent ws item k s = Ok (np, depth) ->
  match np with
  | Some p => exists j, items (s_db s) !! p = Some j /\ i_project j = i_project item /\ i_deleted j = false /\
      isDescendantOrSelf (i_path j) (i_path item) = false /\ depth = S (count_byte dot (i_path j))
  | None => depth = 0%nat
  end.
Proof.
  intros Hok Hpl Ha Hw. unfold move_parent. destruct k as [key|]; [|by intros [= <- <-]].
  destruct (live_item _ _ _) as [j|e] eqn:El; [|by destruct e].
  apply live_item_inv in El as (b & Hj & Hwj & _ & Hdj). fold (prefix_of s j). fold (prefix_of s item).
  destruct (String.eqb_spec (prefix_of s j) (prefix_of s item)) as [Hpr|]; [|done]. cbn [negb].
  destruct (String.eqb _ _ || _) eqn:Ed; [done|]. intros [= <- <-]. exists j.
  pose proof (tree_ok_keyed _ (ok_tree _ Hok) _ _ Hj) as Hid. rewrite Hid. split_and!; try done.
  eapply same_prefix; [done|exact Hj|exact Ha|congruence|done].
Qed.

Lemma move_after_inv ws item k s after a :
  db_ok (s_db s) -> places_ok s -> items (s_db s) !! a = Some item -> i_workspace item = ws ->
  move_after ws item k s = Ok after -> after_ok item after (s_db s).
Proof.
  intros Hok Hpl Ha Hw. unfold move_after. destruct k as [key|]; [|by intros [= <-]].
  destruct (live_item _ _ _) as [j|e] eqn:El; [|done].
  apply live_item_inv in El as (b & Hj & Hwj & _ & _). fold (prefix_of s j). fold (prefix_of s item).
  destruct (String.eqb_spec (prefix_of s j) (prefix_of s item)) as [Hpr|]; [|done]. cbn [negb].
  case_bool_decide as Hne; [done|]. intros [= <-] c [= <-]. split; [done|]. exists j.
  rewrite (tree_ok_keyed _ (ok_tree _ Hok) _ _ Hj). split; [done|].
  eapply same_prefix; [done|exact Hj|exact Ha|congruence|done].
Qed.

Lemma move_plan_inv r s p :
  db_ok (s_db s) -> places_ok s -> move_plan r s = Ok p ->
  exists i rp v sub, p = mkPlan (i_id i) v (VReparent rp) sub /\ rp_ID rp = i_id i /\ expectedVersion r = Ok v /\
    i_workspace i = WorkspaceID (rq_who r) /\ i_key i = rq_param r /\ move_checked (s_db s) i rp.
Proof.
  intros Hok Hpl. unfold move_plan. destruct (rejectFields r); [|done].
  destruct (expectedVersion r) as [v|] eqn:Ev; [|done]. destruct (struct_members _ r) as [m|]; [|done].
  destruct (obj_get "parent" m) as [parent|]; [|done]. destruct (key_member parent) as [pk|]; [|done].
  destruct (match obj_get "rank_after" m with Some v => key_member v | None => Ok None end) as [ak|]; [|done].
  destruct (live_item _ _ _) as [i|e] eqn:El; [|done]. cbn [read_problem].
  apply live_item_inv in El as (k & Hi & Hw & Hk & _). pose proof (tree_ok_keyed _ (ok_tree _ Hok) _ _ Hi) as <-.
  destruct (move_parent _ _ _ _) as [[np depth]|] eqn:Ep; [|done].
  destruct (subtree_height _ _) as [h|] eqn:Eh; [|done]. destruct (Nat.ltb_spec 8 (depth + h)) as [|Hle]; [done|].
  destruct (move_after _ _ _ _) as [after|] eqn:Ea; [|done]. intros [= <-].
  eapply move_parent_inv in Ep; [|done..|exact Hi|done]. eapply move_after_inv in Ea; [|done..|exact Hi|done].
  exists i. eexists _, v, _. split; [done|]. split; [done|]. split; [done|]. split; [done|]. split; [done|].
  split; simpl; [done| | |done].
  - intros q ->. destruct Ep as (j & ? & ? & ? & ? & _). by exists j.
  - exists h. split; [done|]. destruct np as [q|]; [|lia]. destruct Ep as (j & Hj & _ & _ & _ & ->). by rewrite Hj.
Qed.

Lemma mapM'_err {E A B} (f : A -> result E B) l e : mapM' f l = Err e -> exists x, f x = Err e.
Proof.
  induction l as [|x l IH]; simpl; [done|]. destruct (f x) eqn:Ef; [|intros [= <-]; by exists x].
  destruct (mapM' f l); [done|]. intros [= ->]. by apply IH.
Qed.

Lemma struct_members_err names r e : struct_members names r = Err e -> rq_body r = Err e \/ e = BadRequest.
Proof.
  unfold struct_members. destruct (rq_body r) as [b|b]; [|intros [= ->]; by left].
  destruct b as [| | | | | |l]; try (intros [= <-]; by right).
  intros [kv Hkv]%mapM'_err. right. case_match; congruence.
Qed.

Lemma db_not_move o : databaseProblem o <> move_problem.
Proof. destruct o as [[|c]|]; unfold databaseProblem; repeat case_match; done. Qed.

Lemma mutation_not_move ws key sub e s : mutationError ws key sub e s <> move_problem.
Proof.
  destruct e; try exact (db_not_move _). unfold mutationError.
  destruct (readItem _ _ _) as [[[? ?] ?]|]; [done|apply db_not_move].
Qed.

Lemma reply_not_move p : p <> move_problem -> RProblem p <> RProblem move_problem.
Proof. congruence. Qed.

(** The problems a plan can end in. *)
Lemma move_plan_problem r s e :
  (forall b, rq_body r = Err b -> Status b <> 422) -> move_plan r s = Err e -> e <> move_problem.
Proof.
  intros Hb Hp ->. unfold move_plan in Hp.
  pose proof db_not_move as Hdb.
  destruct (rejectFields r) as [|e] eqn:Er; [|unfold rejectFields in Er; case_match; by simplify_eq].
  destruct (expectedVersion r) as [v|e] eqn:Ev; [|unfold expectedVersion in Ev; repeat case_match; by simplify_eq].
  destruct (struct_members _ r) as [m|e] eqn:Em.
  2:{ injection Hp as ->. apply struct_members_err in Em as [Em|Em]; [by apply (Hb _ Em)|done]. }
  assert (Hkm : forall v e, key_member v = Err e -> e <> move_problem) by (intros v0 e; unfold key_member; destruct (into_string_ptr v0); intros Hk; [done|]; injection Hk as <-; discriminate).
  destruct (obj_get "parent" m) as [parent|]; [|done].
  destruct (key_member parent) as [pk|e] eqn:Ek; [|injection Hp as ->; by eapply Hkm].
  destruct (match obj_get "rank_after" m with Some v => key_member v | None => Ok None end) as [ak|e] eqn:Eak.
  2:{ injection Hp as ->. destruct (obj_get _ m); [by eapply Hkm|done]. }
  destruct (live_item _ _ _) as [i|e] eqn:El; [|apply (Hdb (Some e)); unfold read_problem in Hp; congruence]. cbn [read_problem] in Hp.
  destruct (move_parent _ _ _ _) as [[np depth]|e] eqn:Ep.
  2:{ injection Hp as ->. unfold move_parent in Ep. destruct pk as [key|]; [|done].
    destruct (live_item _ key _) as [j|[|c]]; [|done|apply (Hdb (Some (PgError c))); congruence].
    destruct (negb _); [done|]. by destruct (_ || _). }
  destruct (subtree_height _ _) as [h|]; [|done]. destruct (_ <? _)%nat; [done|].
  destruct (move_after _ _ _ _) as [after|e] eqn:Ea; [done|]. injection Hp as ->. unfold move_after in Ea.
  destruct ak as [key|]; [|done]. destruct (live_item _ key _); [|done]. destruct (negb _); [done|]. by case_bool_decide.
Qed.

(** A successful reparent. *)
Lemma Mutate_reparent ws actor id v rp d res d' i :
  tree_ok (tree d) -> rp_ID rp = id -> items d !! id = Some i ->
  Mutate ws (callback [VReparent rp]) (run_option <$> [OActor actor; OExpected id v]) d = (Ok res, d') ->
  i_workspace i = ws /\ i_deleted i = false /\ i_version i = v /\
  exists i', items d' !! id = Some i' /\ i_parent i' = rp_NewParentID rp /\ i_version i < i_version i'.
Proof.
  intros Hok Hid Hi Hm. apply Mutate_inv in Hm as [(e & ? & _)|(res' & [= <-] & Hf & _)]; [done|].
  fold (one_reparent ws rp [OActor actor; OExpected id v]) in Hf.
  apply flush_inv in Hf as (v0 & dbA & nevs & s & [_ HA Hex _ Hs Hfin _]).
  assert (Hm : m_workspace (one_reparent ws rp [OActor actor; OExpected id v]) = ws /\
               m_expected (one_reparent ws rp [OActor actor; OExpected id v]) !! id = Some v) by (split; [done|apply lookup_insert_eq]).
  destruct Hm as [Hmw Hme]. destruct (Hex _ _ Hme) as (j & Hj & Hw & Hd & Hv). rewrite Hi in Hj. injection Hj as <-.
  split; [congruence|]. split; [done|]. split; [done|].
  destruct (one_reparent_changes ws rp [OActor actor; OExpected id v]) as [es Hcs]. rewrite Hcs in Hs. cbn [foldM] in Hs.
  destruct (apply_change _ _ _ _) as [s1|] eqn:E; [|done]. injection Hs as ->.
  apply apply_change_inv in E as (s2 & Hk & Ht & _). unfold apply_kind in Hk. cbn [ch_kind touches_version] in Hk, Ht.
  destruct (applyReparent _ _ _) as [[ps d1]|] eqn:Er; [|done]. injection Hk as <-. cbn [pr_db] in Ht.
  apply applyReparent_inv in Er as (x & xids & nids & npp & rows & d2 & Hx & _ & _ & Hrs & _ & _ & [_ Hrc]); [|by subst dbA].
  apply ReparentSubtree_inv in Hrs as (-> & _); [|subst dbA; by apply tree_ok_keyed].
  apply finish_items in Hfin. rewrite Hfin, Ht. specialize (Hrc id). subst dbA. simpl in Hx, Hrc. rewrite Hid, Hi in Hx. injection Hx as <-.
  rewrite lookup_fmap, Hi in Hrc. simpl in Hrc. destruct (items d1 !! id) as [i'|]; [|done]. exists i'. split; [done|].
  destruct Hrc as (rk & w & Hw' & ->). unfold moved in *. assert (Hc : contained (i_path i) (i_path i) = true) by (by apply bool_decide_eq_true).
  rewrite Hc in *. simpl in *. rewrite (tree_ok_keyed _ Hok _ _ Hi), Hid, bool_decide_true by done. split; [done|]. lia.
Qed.

(** C10. The checks a move makes before its mutation are those of the store: when
    nobody else writes in between, a move is never answered with the problem that
    the hierarchy changed, whatever it asks for; and a move that is not answered with
    a problem has put the item, live until then at the version of If-Match, below the
    parent asked for: a live one of its project outside its own subtree that leaves
    the subtree within the depth limit. *)
Theorem moveItem_settled r s rep s' :
  db_ok (s_db s) -> places_ok s -> (forall b, rq_body r = Err b -> Status b <> 422) ->
  moveItem r s = (rep, s') ->
  rep <> RProblem move_problem /\
  (forall st et loc doc, rep = RDoc st et loc doc -> exists i rp i', expectedVersion r = Ok (i_version i) /\
     items (s_db s) !! i_id i = Some i /\ i_key i = rq_param r /\ i_workspace i = WorkspaceID (rq_who r) /\ i_deleted i = false /\
     move_checked (s_db s) i rp /\ rp_ID rp = i_id i /\
     items (s_db s') !! i_id i = Some i' /\ i_parent i' = rp_NewParentID rp /\ i_version i < i_version i').
Proof.
  intros Hok Hpl Hb. unfold moveItem, moveItem_at.
  destruct (move_plan r s) as [p|e] eqn:Ep; [|intros [= <- <-]; split; [intros [= He]; by eapply move_plan_problem|done]].
  apply move_plan_inv in Ep as (i & rp & v & sub & -> & Hid & Hv & Hw & Hk & Hmc); [|done..]. cbn [pl_item pl_version pl_verb pl_submitted].
  unfold mutate_site. destruct (Mutate _ _ _ _) as [res d] eqn:Em.
  pose proof (Mutate_reparent_not_move (WorkspaceID (rq_who r)) rp [OActor (ID (rq_who r)); OExpected (i_id i) v] _ i (ok_tree _ Hok) Hmc) as Hnm.
  rewrite Em in Hnm. simpl in Hnm. pose proof (mc_item _ _ _ Hmc) as Hi. rewrite Hid in Hi.
  destruct res as [res|e].
  - apply (Mutate_reparent _ _ _ _ _ _ _ _ i (ok_tree _ Hok) Hid Hi) in Em as (_ & Hd & <- & i' & Hi' & Hpa & Hlt).
    intros [= <- <-]. split; [|intros st et loc doc _; by exists i, rp, i'].
    unfold item_reply. destruct (readItem _ _ _) as [[[? ?] ?]|]; [done|apply reply_not_move, db_not_move].
  - assert (Hrep : forall rep', (match e with ErrInvalidMove => (RProblem move_problem, set_db d s)
        | _ => (RProblem (mutationError (WorkspaceID (rq_who r)) (rq_param r) sub e (set_db d s)), set_db d s) end) = (rep', s') ->
        rep' = RProblem (mutationError (WorkspaceID (rq_who r)) (rq_param r) sub e (set_db d s))) by (destruct e; congruence).
    intros Hr. apply Hrep in Hr as ->. split; [|done]. apply reply_not_move, mutation_not_move.
Qed.

End moves.

End MoveProps.
