(* ===== verification/EditDemo.v ===== *)
(** Edits, transitions and moves on the small site, for the witnesses of the
    properties of the item endpoints. *)
From S2P Require Import Prelude Utf8 Uuid Ltree DateTime Float Json Db Events Mutate Demo StoreTree Store Problem Site Input Patch Items Workflow WorkflowProps SiteDemo PatchProps Evolve EditProps TransitionProps TypedFields MoveProps.
Open Scope Z_scope.

Module EditDemo.
Import Db Events Mutate StoreTree Store Problem Site Input Patch Items Workflow WorkflowProps SiteDemo PatchProps Evolve EditProps TransitionProps TypedFields MoveProps.

(** Addresses with a scheme and a host. *)
#[export] Instance demo_urls : UrlParse :=
  {| url_parse s := if has_prefix s "https://" then Some ("https", str_drop 8 s) else None |}.

(** * The site is well-formed *)

Definition keys_uniqueb (db : Db) : bool :=
  forallb (fun a => forallb (fun b => bool_decide (a.1 = b.1) || negb (bool_decide (i_workspace a.2 = i_workspace b.2) && String.eqb (i_key a.2) (i_key b.2)))
    (map_to_list (items db))) (map_to_list (items db)).

Lemma keys_uniqueb_spec db : keys_uniqueb db = true -> keys_unique (idents db).
Proof.
  unfold keys_uniqueb. rewrite forallb_forall. intros Hb a b x y Hx Hy Hw Hk. unfold idents in Hx, Hy.
  apply lookup_fmap_Some in Hx as (i & <- & Hi), Hy as (j & <- & Hj).
  specialize (Hb (a, i)). rewrite <- list_elem_of_In, elem_of_map_to_list in Hb. specialize (Hb Hi).
  rewrite forallb_forall in Hb. specialize (Hb (b, j)). rewrite <- list_elem_of_In, elem_of_map_to_list in Hb. specialize (Hb Hj).
  simpl in *. apply orb_true_iff in Hb as [Hb%bool_decide_eq_true|Hb]; [done|].
  rewrite Hw, Hk, bool_decide_true, String.eqb_refl in Hb by done. discriminate Hb.
Qed.

Lemma db2_ok : db_ok Demo.db2.
Proof.
  split.
  - destruct (Mutate_inv _ _ _ _ _ _ run2_pair) as [(e & He & _)|(res & _ & Hf & _)]; [discriminate He|].
    exact (flush_tree _ _ _ _ db1_tree Hf).
  - intros ws v Hv. assert (Hc : seq_counter Demo.db2 = {[Demo.ws := 4]}) by (vm_compute; reflexivity).
    rewrite Hc in Hv. apply lookup_singleton_Some in Hv as [_ <-]. lia.
  - apply keys_uniqueb_spec. vm_compute. reflexivity.
Qed.

Lemma site0_db : db_ok (s_db site0).
Proof. exact db2_ok. Qed.
Lemma site0_no_nil : no_nil (s_db site0).
Proof. vm_compute. reflexivity. Qed.

(** Somebody else deletes the third item while a request is being prepared. *)
Definition later : Site := (mutate_site ws [VSoftDelete (U 12)] [OActor user] site0).2.
Lemma later_evolves : evolves site0 later.
Proof.
  apply rtc_once. apply (other_mutate ws [VSoftDelete (U 12)] [OActor user] site0 (mutate_site ws [VSoftDelete (U 12)] [OActor user] site0).1);
    [vm_compute; reflexivity|apply surjective_pairing].
Qed.

(** * An edit *)

Definition edit_request : api_request :=
  request (etag_text 1) "SRX-2" (JObj [("title", JStr "renamed"); ("points", JNum (fl "3.5")); ("fields", JObj [("area", JStr "api")])]).
Definition edited_site : reply * Site := updateItem_at edit_request site0 later.

Example edit_row :
  (reply_status edited_site.1,
   (fun i => (i_title i, i_points i, i_fields i, i_version i, i_status i)) <$> items (s_db edited_site.2) !! U 11)
  = (200, Some ("renamed", Some 350, JObj [("area", JStr "api")], 2, Demo.todo)).
Proof. vm_compute. reflexivity. Qed.
Example edit_log :
  (fun e => (e_seq e, e_field e, e_new e)) <$> List.filter (fun e => 5 <? e_seq e) (events (s_db edited_site.2))
  = [(6, Some "fields.area", Some (JStr "api")); (7, Some "points", Some (JNum (fl "3.5"))); (8, Some "title", Some (JStr "renamed"))].
Proof. vm_compute. reflexivity. Qed.
Example edit_stale : reply_status (updateItem edit_request edited_site.2).1 = 409.
Proof. vm_compute. reflexivity. Qed.
Example edit_unknown_field :
  reply_status (updateItem (request (etag_text 1) "SRX-2" (JObj [("fields", JObj [("colour", JStr "red")])])) site0).1 = 400.
Proof. vm_compute. reflexivity. Qed.

Definition doc_of (r : reply) : json := match r with RDoc _ _ _ d => d | RProblem _ => JNull end.
Lemma edit_reply : updateItem_at edit_request site0 later = (RDoc 200 (Some 2) None (doc_of edited_site.1), edited_site.2).
Proof. vm_compute. reflexivity. Qed.

Lemma updateItem_exact_witness : exists raw i0 i seq,
  items (s_db edited_site.2) = <[i_id i0 := edited raw (custom i0) None (i_version i + 1) seq i]> (items (s_db later)).
Proof.
  destruct (updateItem_exact _ _ _ _ _ _ _ _ site0_db site0_no_nil later_evolves edit_reply)
    as (raw & i0 & d0 & i & seq & d & _ & _ & _ & _ & _ & _ & Hi & _).
  exists raw, i0, i, seq. exact Hi.
Defined.

(** * A transition *)

Definition finish_request (fields : list (string * json)) : api_request :=
  request (etag_text 1) "SRX-2" (JObj [("to_status", JStr "done"); ("fields", JObj fields)]).
Definition full_fields : list (string * json) :=
  [("assignee", json_uuid user); ("fields", JObj [("area", JStr "web")])].
Definition finished : reply * Site := transitionItem_at (finish_request full_fields) site0 later.

Example finish_row :
  (reply_status finished.1, (fun i => (i_status i, i_assignee i, i_version i)) <$> items (s_db finished.2) !! U 11)
  = (200, Some (Demo.done_status, Some user, 2)).
Proof. vm_compute. reflexivity. Qed.
Example finish_missing :
  (transitionItem (finish_request [("assignee", json_uuid user)]) site0).1
  = RProblem (invalidChange "Required fields are missing: fields.area.").
Proof. vm_compute. reflexivity. Qed.
Example finish_no_arc :
  reply_status (transitionItem (request (etag_text 1) "SRX-2" (JObj [("to_status", JStr "todo")])) site0).1 = 422.
Proof. vm_compute. reflexivity. Qed.

Lemma finish_reply :
  transitionItem_at (finish_request full_fields) site0 later = (RDoc 200 (Some 2) None (doc_of finished.1), finished.2).
Proof. vm_compute. reflexivity. Qed.

Lemma transitionItem_legal_witness : exists i target cv req,
  items (s_db later) !! i_id i = Some i /\ i_version i = 1 /\
  s_config_transition finished.2 !! (i_project i, cv, i_status i, target) = Some req.
Proof.
  destruct (transitionItem_legal _ _ _ _ _ _ _ _ site0_db site0_no_nil later_evolves finish_reply)
    as (i & raw & d0 & to & target & row & cv & req & requires & seq & d & _ & Hv & Hi & _ & _ & _ & _ & _ & _ & _ & Ht & _).
  exists i, target, cv, req. split; [exact Hi|]. split; [|exact Ht]. vm_compute in Hv. by injection Hv.
Defined.

(** * Typed custom fields *)

Definition fields_typedb (s : Site) : bool :=
  forallb (fun a : uuid * Item => match custom a.2 with [] => true | _ => false end) (map_to_list (items (s_db s))).
Lemma fields_typedb_spec s : fields_typedb s = true -> fields_typed s.
Proof.
  unfold fields_typedb. rewrite forallb_forall. intros Hb id i Hi k v Hk. specialize (Hb (id, i)).
  rewrite <- list_elem_of_In, elem_of_map_to_list in Hb. specialize (Hb Hi). simpl in Hb. by destruct (custom i).
Qed.

Lemma fields_typed_kept_witness : field_ok edited_site.2 project "area" (JStr "api").
Proof.
  pose proof (fields_typed_kept edit_request (U 20) site0 later _ _ site0_db site0_no_nil later_evolves
    (fields_typedb_spec site0 ltac:(vm_compute; reflexivity)) (fields_typedb_spec later ltac:(vm_compute; reflexivity))
    (or_introl edit_reply)) as Ht.
  destruct (items (s_db edited_site.2) !! U 11) as [i|] eqn:Ei; [|vm_compute in Ei; discriminate Ei].
  pose proof (Ht _ _ Ei "area" (JStr "api")) as Hf. vm_compute in Ei. injection Ei as <-.
  apply Hf. vm_compute. reflexivity.
Defined.

(** * A move *)

Definition move_request : api_request :=
  request (etag_text 1) "SRX-2" (JObj [("parent", JNull); ("rank_after", JStr "SRX-1")]).
Definition moved_site : reply * Site := moveItem move_request site0.

Example move_row :
  (reply_status moved_site.1, (fun i => (i_parent i, i_path i)) <$> items (s_db moved_site.2) !! U 12)
  = (200, Some (Some (U 11), Ltree.path_of [U 11; U 12])).
Proof. vm_compute. reflexivity. Qed.
Example move_below_itself :
  (moveItem (request (etag_text 1) "SRX-1" (JObj [("parent", JStr "SRX-2")])) site0).1
  = RProblem (invalidChange "parent cannot be this item or one of its descendants.").
Proof. vm_compute. reflexivity. Qed.
(** With a writer in between the store's own checks answer. *)
Example move_hierarchy_changed :
  (moveItem_at (request (etag_text 1) "SRX-2" (JObj [("parent", JStr "SRX-3")]))
     (moveItem (request (etag_text 2) "SRX-3" (JObj [("parent", JNull)])) site0).2 site0).1 = RProblem move_problem.
Proof. vm_compute. reflexivity. Qed.

Lemma site0_places : places_ok site0.
Proof.
  split.
  - intros id i Hi. exists (mkProject ws "SRX" 4).
    assert (Hall : forallb (fun a : uuid * Item => bool_decide (i_project a.2 = project) && bool_decide (i_workspace a.2 = ws)) (map_to_list (items (s_db site0))) = true)
      by (vm_compute; reflexivity).
    rewrite forallb_forall in Hall. specialize (Hall (id, i)). rewrite <- list_elem_of_In, elem_of_map_to_list in Hall.
    specialize (Hall Hi). apply andb_true_iff in Hall as [H1%bool_decide_eq_true H2%bool_decide_eq_true]. simpl in H1, H2.
    rewrite H1, H2. split; [vm_compute; reflexivity|done].
  - intros a b p q Ha Hb. assert (Hp : projects (s_db site0) = {[project := mkProject ws "SRX" 4]}) by (vm_compute; reflexivity).
    rewrite Hp in Ha, Hb. apply lookup_singleton_Some in Ha as [<- _], Hb as [<- _]. done.
Qed.

Lemma move_reply : moveItem move_request site0 = (RDoc 200 (Some 2) None (doc_of moved_site.1), moved_site.2).
Proof. vm_compute. reflexivity. Qed.

Lemma move_body b : rq_body move_request = Err b -> Status b <> 422.
Proof. intros Hb. unfold move_request, request in Hb. simpl in Hb. discriminate Hb. Qed.

Lemma moveItem_settled_witness : exists i rp i', items (s_db site0) !! i_id i = Some i /\ move_checked (s_db site0) i rp /\
  items (s_db moved_site.2) !! i_id i = Some i' /\ i_parent i' = rp_NewParentID rp.
Proof.
  destruct (moveItem_settled _ _ _ _ site0_db site0_places move_body move_reply) as [_ Hm].
  destruct (Hm _ _ _ _ eq_refl) as (i & rp & i' & _ & Hi & _ & _ & _ & Hc & _ & Hi' & Hp & _).
  exists i, rp, i'. auto.
Defined.

End EditDemo.
