(* ===== verification/Listing.v ===== *)
(** The item list, [internal/api/sxq.go] with [itemFilterJoins] and
    [selectedFields] of [items.go]: the statement it builds, and keyset pagination
    over any sort order. *)
From S2P Require Import Prelude Utf8 DateTime Float Json Uuid Base64 Journal Db Problem SxqLexer SxqParser SxqCompile SxqProps Projection Cursor Paging.
Open Scope nat_scope.

Module Listing.
Import Problem Cursor.

(** * The joins of the filter *)

Definition is_word (c : ascii) : bool :=
  byte_in 48 57 c || byte_in 65 90 c || byte_in 97 122 c || Ascii.eqb c "_"%char.

(** [itemFilterAlias]: one of [s|t|par|u|r], then a period. *)
Definition alias_at (l : list ascii) : option string :=
  List.find (fun a => has_prefix (of_chars l) a) ["s."; "t."; "par."; "u."; "r."].

(** [FindAllString]: from left to right without overlap, each match at a word
    boundary; [skip] bytes still belong to the last match. *)
Fixpoint find_aliases (in_word : bool) (skip : nat) (l : list ascii) : list string :=
  match l with
  | [] => []
  | c :: l' =>
      match skip with
      | S k => find_aliases (is_word c) k l'
      | O => match (if in_word then None else alias_at l) with
             | Some a => a :: find_aliases (is_word c) (String.length a - 1) l'
             | None => find_aliases (is_word c) 0 l'
             end
      end
  end.

Definition join_pairs : list (string * string) :=
  [("s.", " JOIN status s ON s.id=i.status_id "); ("t.", " JOIN item_type t ON t.id=i.item_type_id ");
   ("par.", " LEFT JOIN item par ON par.id=i.parent_id "); ("u.", " LEFT JOIN user_account u ON u.id=i.assignee_id ");
   ("r.", " JOIN item_rollup r ON r.item_id=i.id ")].

Definition itemFilterJoins (sql : string) : string :=
  let aliases := find_aliases false 0 (chars sql) in
  fold_left (fun joins p => if mem_str p.1 aliases then joins +:+ p.2 else joins) join_pairs
    " FROM item i JOIN project p ON p.id=i.project_id ".

Definition itemJoins : string :=
  " FROM item i JOIN project p ON p.id=i.project_id JOIN status s ON s.id=i.status_id JOIN item_type t ON t.id=i.item_type_id LEFT JOIN item par ON par.id=i.parent_id LEFT JOIN user_account u ON u.id=i.assignee_id JOIN item_rollup r ON r.item_id=i.id ".

(** * The statement *)

(** [switch plan.OrderKind]: the cast of a bound sort value. *)
Definition sort_cast (kind : string) : string :=
  match Compile.assoc kind [("number", "::text::numeric"); ("uuid", "::text::uuid"); ("date", "::text::date");
                            ("timestamp", "::text::timestamptz"); ("text", "::text"); ("bool", "::boolean")] with
  | Some c => c
  | None => ""
  end.

(** Where a page starts: at the beginning, among the rows without a value, or past
    a value. *)
Inductive seek := SeekStart | SeekNull | SeekPast (v : sort_value).

Definition seek_of (c : Cursor_) : result Problem_ seek :=
  if String.eqb (After c) zeroID then Ok SeekStart
  else match Sort c with
       | [SNull] => Ok SeekNull
       | [v] => Ok (SeekPast v)
       | _ => Err (requestProblem "Invalid sort cursor; restart from the first page.")
       end.

(** [predicate]; [n] is the number of arguments when the value has been added. *)
Definition predicate (p : Compile.Plan) (n : nat) (sk : seek) : string :=
  let e := Compile.OrderExpr p in
  match sk with
  | SeekStart => "TRUE"
  | SeekNull => "(" +:+ e +:+ " IS NULL AND i.id>$2::uuid)"
  | SeekPast _ =>
      let placeholder := "$" +:+ itoa n +:+ sort_cast (Compile.OrderKind p) in
      let op := if Compile.Desc p then "<" else ">" in
      "(" +:+ e +:+ " " +:+ op +:+ " " +:+ placeholder +:+ " OR (" +:+ e +:+ "=" +:+ placeholder +:+
      " AND i.id>$2::uuid) OR " +:+ e +:+ " IS NULL)"
  end.

Definition direction (p : Compile.Plan) : string := if Compile.Desc p then " DESC" else " ASC".
Definition filterSQL (p : Compile.Plan) (pred : string) : string :=
  Compile.Where p +:+ " " +:+ pred +:+ " " +:+ Compile.OrderExpr p.

Definition selection (p : Compile.Plan) (pred : string) : string :=
  "SELECT i.id," +:+ Compile.OrderExpr p +:+ " AS sort_value" +:+ itemFilterJoins (filterSQL p pred) +:+
  "WHERE i.workspace_id=$1 AND $2::uuid IS NOT NULL AND i.id<=$3::uuid AND ($4='' OR p.key_prefix=$4) AND i.deleted_at IS NULL AND " +:+
  Compile.Where p +:+ " AND " +:+ pred +:+ " ORDER BY " +:+ Compile.OrderExpr p +:+ direction p +:+ " NULLS LAST,i.id ASC LIMIT $5".

Definition statement (p : Compile.Plan) (pred expression : string) : string :=
  "WITH selected_page AS MATERIALIZED (" +:+ selection p pred +:+
  ") SELECT hydrated.doc,page.id::text,to_jsonb(page.sort_value) FROM selected_page page JOIN LATERAL (SELECT " +:+
  expression +:+ " AS doc" +:+ itemJoins +:+ "WHERE i.id=page.id OFFSET 0) hydrated ON true ORDER BY page.sort_value" +:+
  direction p +:+ " NULLS LAST,page.id ASC".

(** The whole statement: [plan.Args] are bound from [$6] on, after them the custom
    fields of the projection, and last the sort value. *)
Definition query_text (p : Compile.Plan) (sk : seek) (expression : string) (params : list string) : string :=
  statement p (predicate p (5 + length (Compile.Args p) + length params + 1) sk) expression.

(** * What the database computes *)

(** An item with what its joins bring, as the conditions written into the statement
    see it. *)
Record row := mkRow { r_id : string; r_workspace : string; r_project : string; r_deleted : bool; r_cells : list (string * json) }.

(** PostgreSQL on the texts the handler composes: the values it sorts, a strict
    total order on those of one kind, JSON and back, and the expressions of a plan on
    a row, [args] bound from [$6] on. *)
Class Postgres := {
  pg_value : Type;
  pg_lt : pg_value -> pg_value -> bool;
  pg_lt_irrefl : forall a, pg_lt a a = false;
  pg_lt_trans : forall a b c, pg_lt a b = true -> pg_lt b c = true -> pg_lt a c = true;
  pg_lt_total : forall a b, pg_lt a b = false -> pg_lt b a = false -> a = b;
  pg_kind : pg_value -> string;
  to_jsonb : pg_value -> sort_value;
  to_jsonb_value : forall v, to_jsonb v <> SNull;
  of_param : string -> sort_value -> option pg_value;
  of_param_to_jsonb : forall v, of_param (pg_kind v) (to_jsonb v) = Some v;
  holds : string -> list Compile.arg -> row -> option bool;
  order_value : string -> list Compile.arg -> row -> option pg_value;
  hydrate : string -> list string -> row -> list (string * json)
}.

Section listing.
Context {UU : UuidParse} {PG : Postgres} {CR : Crypto} {CC : Codec Cursor_}.

(** [ORDER BY e NULLS LAST, i.id]: what is compared of a row. *)
Definition sort_key (p : Compile.Plan) (x : row) : option pg_value * string :=
  (order_value (Compile.OrderExpr p) (Compile.Args p) x, r_id x).

Definition value_lt (p : Compile.Plan) (a b : pg_value) : bool := if Compile.Desc p then pg_lt b a else pg_lt a b.
Definition key_lt (p : Compile.Plan) (a b : option pg_value * string) : bool :=
  match a.1, b.1 with
  | Some v, Some w => value_lt p v w || (negb (value_lt p w v) && str_lt a.2 b.2)
  | Some _, None => true
  | None, Some _ => false
  | None, None => str_lt a.2 b.2
  end.

(** A comparison with a value; null when the expression is. *)
Definition compare_value (f : pg_value -> bool) (v : option pg_value) : option bool := f <$> v.

(** The predicate on a row; [None] on the outside is a value the cast refuses. *)
Definition seek_holds (p : Compile.Plan) (after : string) (sk : seek) (x : row) : option (option bool) :=
  let e := order_value (Compile.OrderExpr p) (Compile.Args p) x in
  let is_null := Some (match e with None => true | Some _ => false end) in
  let past := Some (str_lt after (r_id x)) in
  match sk with
  | SeekStart => Some (Some true)
  | SeekNull => Some (SxqProps.and3 is_null past)
  | SeekPast v =>
      match of_param (Compile.OrderKind p) v with
      | None => None
      | Some w =>
          Some (SxqProps.or3
            (SxqProps.or3 (compare_value (fun a => value_lt p w a) e)
              (SxqProps.and3 (compare_value (fun a => negb (pg_lt a w) && negb (pg_lt w a)) e) past))
            is_null)
      end
  end.

Definition is_true (v : option bool) : bool := match v with Some true => true | _ => false end.

(** The other conditions of the [WHERE] clause. *)
Definition listed (p : Compile.Plan) (workspace upper project : string) (x : row) : bool :=
  String.eqb (r_workspace x) workspace && negb (str_lt upper (r_id x)) &&
  (String.eqb project "" || String.eqb (r_project x) project) && negb (r_deleted x) &&
  is_true (holds (Compile.Where p) (Compile.Args p) x).

(** The rows of the statement; [None] when the cast of the bound value fails. *)
Definition select (p : Compile.Plan) (workspace after upper project : string) (sk : seek) (limit : nat) (t : list row) : option (list row) :=
  if match sk with SeekPast v => match of_param (Compile.OrderKind p) v with None => true | Some _ => false end | _ => false end
  then None
  else Some (take limit (Paging.sorted (sort_key p) (key_lt p)
         (List.filter (fun x => match seek_holds p after sk x with Some b => is_true b | None => false end &&
                                listed p workspace upper project x) t))).

(** * The handler *)

(** A field definition with the prefix of its project. *)
Record field_row := mkFieldRow { f_key : string; f_type : string; f_project : string; f_prefix : string }.

(** What a request reads: the items, and the field definitions of its workspace. *)
Record world := mkWorld { items : list row; field_rows : list field_row }.

Definition or_bad {A} (m : result string A) : result Problem_ A :=
  match m with Ok a => Ok a | Err e => Err (requestProblem e) end.

Definition customFields (w : world) : list string := remove_dups (f_key <$> field_rows w).

Definition selectedFields (w : world) (q : query) (policy : Projection.Policy) : result Problem_ (list string) :=
  or_bad (Projection.Parse (q_get q "fields") (q_has q "fields") policy (customFields w)).

(** [ORDER BY p.id, f.key] *)
Definition field_le (a b : field_row) : Prop :=
  negb (str_lt (f_project b) (f_project a) || (String.eqb (f_project b) (f_project a) && str_lt (f_key b) (f_key a))) = true.
#[export] Instance field_le_dec : RelDecision field_le.
Proof. intros a b. unfold field_le. apply _. Defined.

(** Go's zero time. *)
Definition zero_time : Z := (days_of_civil 1 1 1 * ns_per_day)%Z.

Definition narrowing (r : request) (q : Parser.Query) : list string :=
  let project := q_get (Query r) "project" in
  if negb (String.eqb project "") && negb (String.eqb (Path r) "/api/v1/views") then [project] else Parser.ProjectKeys q.

(** [$2 IS NULL OR p.key_prefix = ANY($2)]: no narrowing is a null array. *)
Definition queryOptions (w : world) (r : request) (q : Parser.Query) (at_ start : Z) : Compile.Options :=
  let projects := narrowing r q in
  let rows := merge_sort field_le (List.filter (fun f => bool_decide (projects = []) || mem_str (f_prefix f) projects) (field_rows w)) in
  Compile.mkOptions (UserID r) (if (at_ =? zero_time)%Z then None else Some at_) start
    (fold_left (fun (m : gmap string (list Compile.CustomField)) f =>
       <[f_key f := match m !! f_key f with Some l => l | None => [] end ++ [Compile.mkCustom (f_project f) (f_type f)]]> m) rows ∅).

(** [SELECT id ... ORDER BY id DESC LIMIT 1] over the workspace. *)
Definition upper_bound (t : list row) (workspace : string) : string :=
  match last (Paging.sorted r_id str_lt (List.filter (fun x => String.eqb (r_workspace x) workspace) t)) with
  | Some x => r_id x
  | None => zeroID
  end.

Definition sort_of (p : Compile.Plan) (x : row) : sort_value :=
  match order_value (Compile.OrderExpr p) (Compile.Args p) x with Some v => to_jsonb v | None => SNull end.

Definition at_item (p : Compile.Plan) (c : Cursor_) (x : row) : Cursor_ :=
  mkCursor (Version c) (r_id x) [sort_of p x] (Upper c) (Scope_ c) (At c).

(** [rows.Next()], over at most one row more than the page holds. *)
Fixpoint collect (key : string) (limit : nat) (p : Compile.Plan) (doc : row -> json) (rows : list row) (c : Cursor_) (data : list json) : Page :=
  match rows with
  | [] => mkPage data None
  | x :: rows =>
      if length data =? limit then mkPage data (Some (EncodeCursor c key))
      else collect key limit p doc rows (at_item p c x) (data ++ [doc x])
  end.

(** The cursor the request brings, or a new one that fixes the bound and the time. *)
Definition start_cursor (key : string) (w : world) (now : Z) (r : request) : result Problem_ Cursor_ :=
  let token := q_get (Query r) "cursor" in
  if String.eqb token "" then
    Ok (mkCursor 0 zeroID [] (upper_bound (items w) (WorkspaceID r)) (cursorScope r) (format_timestamp now))
  else or_bad (DecodeCursor token key (cursorScope r)).

Definition plan_at (w : world) (now : Z) (r : request) (q : Parser.Query) (at_ : Z) : result Problem_ Compile.Plan :=
  or_bad (Compile.Compile now (queryOptions w r q at_ 6) q).

(** [now] is the clock; [None] from [Projection.SQL] is its panic. *)
Definition listItems (key : string) (w : world) (now : Z) (r : request) : result Problem_ Page :=
  let* fields := selectedFields w (Query r) Projection.Required in
  let* limit := or_bad (PageLimit (Query r)) in
  let* q := or_bad (Parser.Parse (q_get (Query r) "q")) in
  let* c := start_cursor key w now r in
  match parse_timestamp (At c) with
  | None => Err (requestProblem "Invalid query cursor; restart from the first page.")
  | Some at_ =>
      let* p := plan_at w now r q at_ in
      match Projection.SQL fields (Z.of_nat (5 + length (Compile.Args p)) + 1) with
      | None => Err InternalError
      | Some (expression, params) =>
          let* sk := seek_of c in
          match select p (WorkspaceID r) (After c) (Upper c) (q_get (Query r) "project") sk (limit + 1) (items w) with
          | None => Err (databaseProblem (Some (Db.PgError "22P02")))
          | Some rows =>
              Ok (collect key limit p (fun x => JObj (Projection.Apply (hydrate expression params x) fields)) rows c [])
          end
      end
  end.

(** The completion of a partial query. *)
Definition completeSXQ (w : world) (now : Z) (r : request) : result Problem_ (list string) :=
  if q_has (Query r) "fields" then Err (with_detail "fields is not supported for this endpoint; remove it." BadRequest)
  else or_bad (Compile.Complete (q_get (Query r) "partial")
                 (Compile.Custom (queryOptions w r (Parser.mkQuery None "" false) now 1))).

End listing.

Example joins_ex :
  itemFilterJoins "(s.category = $6) AND stats.x AND fields.y TRUE par.key" =
  " FROM item i JOIN project p ON p.id=i.project_id  JOIN status s ON s.id=i.status_id  LEFT JOIN item par ON par.id=i.parent_id ".
Proof. vm_compute. reflexivity. Qed.
Example predicate_ex :
  predicate (Compile.mkPlan "TRUE" "i.points" "number" true []) 6 (SeekPast (SNumber "3")) =
  "(i.points < $6::text::numeric OR (i.points=$6::text::numeric AND i.id>$2::uuid) OR i.points IS NULL)".
Proof. vm_compute. reflexivity. Qed.

End Listing.
