(* ===== verification/ListingProps.v ===== *)
(** What the item list promises: following its cursors yields every matching item
    once, in the order asked for, and the statement joins every table the query
    reads. *)
From S2P Require Import Prelude Utf8 DateTime Float Json Uuid Base64 Journal JournalDemo Db Problem SxqLexer SxqParser SxqCompile SxqProps Projection ProjectionProps Cursor Paging CursorProps Listing.
Open Scope nat_scope.
#[local] Set Warnings "-clear-no-such-hyp".

Module ListingProps.
Import Problem Cursor CursorProps Listing.

Section order.
Context {PG : Postgres}.
Implicit Types (p : Compile.Plan) (x z : row).

(** * The order of the list *)

Lemma value_lt_irrefl p a : value_lt p a a = false.
Proof. unfold value_lt. destruct (Compile.Desc p); apply pg_lt_irrefl. Qed.
Lemma value_lt_trans p a b c : value_lt p a b = true -> value_lt p b c = true -> value_lt p a c = true.
Proof. unfold value_lt. destruct (Compile.Desc p); eauto using pg_lt_trans. Qed.
Lemma value_lt_total p a b : value_lt p a b = false -> value_lt p b a = false -> a = b.
Proof. unfold value_lt. destruct (Compile.Desc p); eauto using pg_lt_total. Qed.
Lemma value_lt_asym p a b : value_lt p a b = true -> value_lt p b a = false.
Proof. exact (Paging.lt_asym (value_lt p) (value_lt_irrefl p) (value_lt_trans p) a b). Qed.

Lemma key_lt_some p v w i j :
  key_lt p (Some v, i) (Some w, j) = true <-> value_lt p v w = true \/ v = w /\ str_lt i j = true.
Proof.
  unfold key_lt. cbn [fst snd]. rewrite orb_true_iff, andb_true_iff, negb_true_iff. split.
  - intros [Hv|[Hw Hi]]; [by left|]. destruct (value_lt p v w) eqn:E; [by left|]. right. split; [|done]. by apply (value_lt_total p).
  - intros [Hv|[-> Hi]]; [by left|]. right. split; [apply value_lt_irrefl|done].
Qed.

Lemma key_lt_irrefl p k : key_lt p k k = false.
Proof.
  destruct k as [[v|] i]; cbn [key_lt fst snd]; [|apply str_lt_irrefl].
  unfold key_lt. cbn [fst snd]. rewrite value_lt_irrefl. apply str_lt_irrefl.
Qed.

Lemma key_lt_trans p a b c : key_lt p a b = true -> key_lt p b c = true -> key_lt p a c = true.
Proof.
  destruct a as [[u|] i], b as [[v|] j], c as [[w|] l]; try (unfold key_lt; cbn [fst snd]; done).
  - rewrite !key_lt_some. intros [H1|[-> H1]] [H2|[-> H2]]; eauto using value_lt_trans, str_lt_trans.
  - apply str_lt_trans.
Qed.

Lemma key_lt_total p a b : key_lt p a b = false -> key_lt p b a = false -> a = b.
Proof.
  destruct a as [[u|] i], b as [[v|] j]; unfold key_lt; cbn [fst snd]; try done.
  - rewrite !orb_false_iff, !andb_false_iff, !negb_false_iff. intros [H1 [H2|H2]] [H3 [H4|H4]]; try congruence.
    rewrite (value_lt_total p _ _ H1 H3), (str_lt_total _ _ H2 H4). done.
  - intros H1 H2. by rewrite (str_lt_total _ _ H1 H2).
Qed.

(** The predicate of the statement is the order: past a row with its own values
    lies what sorts after it. *)
Lemma seek_past p z x sk :
  (forall v, order_value (Compile.OrderExpr p) (Compile.Args p) z = Some v -> pg_kind v = Compile.OrderKind p) ->
  sk = match sort_of p z with SNull => SeekNull | v => SeekPast v end ->
  match seek_holds p (r_id z) sk x with Some b => is_true b | None => false end = key_lt p (sort_key p z) (sort_key p x).
Proof.
  intros Hkind ->. unfold sort_of, sort_key.
  destruct (order_value (Compile.OrderExpr p) (Compile.Args p) z) as [v|] eqn:Ez.
  - specialize (Hkind v eq_refl). pose proof (to_jsonb_value v) as Hv.
    assert (E : match to_jsonb v with SNull => SeekNull | v => SeekPast v end = SeekPast (to_jsonb v)) by (by destruct (to_jsonb v)).
    rewrite E. unfold seek_holds. rewrite <- Hkind, of_param_to_jsonb. unfold compare_value.
    destruct (order_value (Compile.OrderExpr p) (Compile.Args p) x) as [w|]; [|by destruct (str_lt (r_id z) (r_id x))]. cbn [fmap option_fmap option_map key_lt fst snd].
    destruct (value_lt p v w) eqn:Evw; [done|]. cbn [orb].
    destruct (str_lt (r_id z) (r_id x)); rewrite ?andb_true_r, ?andb_false_r.
    2: { unfold SxqProps.and3, SxqProps.or3. destruct (negb (pg_lt w v) && negb (pg_lt v w)); done. }
    unfold value_lt in *. destruct (Compile.Desc p); rewrite Evw; [destruct (pg_lt v w)|destruct (pg_lt w v)]; done.
  - unfold seek_holds. destruct (order_value (Compile.OrderExpr p) (Compile.Args p) x); unfold key_lt; cbn [fst snd];
      destruct (str_lt (r_id z) (r_id x)); done.
Qed.

Lemma select_past p workspace z upper project limit t :
  (forall v, order_value (Compile.OrderExpr p) (Compile.Args p) z = Some v -> pg_kind v = Compile.OrderKind p) ->
  select p workspace (r_id z) upper project (match sort_of p z with SNull => SeekNull | v => SeekPast v end) limit t =
  Some (take limit (Paging.sorted (sort_key p) (key_lt p)
    (List.filter (fun x => key_lt p (sort_key p z) (sort_key p x)) (List.filter (listed p workspace upper project) t)))).
Proof.
  intros Hkind. unfold select. set (sk := match sort_of p z with SNull => SeekNull | v => SeekPast v end).
  replace (match sk with SeekPast v => _ | _ => false end) with false; cycle 1.
  { unfold sk, sort_of. destruct (order_value _ _ z) as [v|] eqn:Ez; [|done]. specialize (Hkind v eq_refl).
    pose proof (of_param_to_jsonb v) as Hof. rewrite Hkind in Hof. pose proof (to_jsonb_value v).
    destruct (to_jsonb v); try done; by rewrite Hof. }
  rewrite <- Paging.filter_and. do 3 f_equal. apply filter_ext. intros x. f_equal. by apply seek_past.
Qed.

Lemma upper_bound_in t ws : upper_bound t ws = zeroID \/ exists y, y ∈ t /\ upper_bound t ws = r_id y.
Proof.
  unfold upper_bound. set (l := Paging.sorted r_id str_lt _). destruct (last l) as [y|] eqn:E; [|by left]. right. exists y. split; [|done].
  assert (Hy : y ∈ l) by (apply last_Some in E as [l' ->]; set_solver). unfold l in Hy. rewrite (Paging.sorted_perm r_id str_lt) in Hy.
  apply list_elem_of_In, List.filter_In in Hy as [Hy _]. by apply list_elem_of_In.
Qed.

(** Nothing of the workspace lies past the bound. *)
Lemma upper_bound_max t ws x : NoDup (r_id <$> t) -> x ∈ t -> r_workspace x = ws -> str_lt (upper_bound t ws) (r_id x) = false.
Proof.
  intros Hnd Hx Hw. unfold upper_bound. set (f := fun x => String.eqb (r_workspace x) ws).
  pose proof (Paging.sorted_before r_id str_lt str_lt_irrefl str_lt_trans str_lt_total (List.filter f t) (Paging.filter_nodup r_id f t Hnd)) as Hs.
  assert (Hin : x ∈ Paging.sorted r_id str_lt (List.filter f t)).
  { rewrite (Paging.sorted_perm r_id str_lt). apply list_elem_of_In, List.filter_In. split; [by apply list_elem_of_In|].
    unfold f. rewrite Hw. apply String.eqb_refl. }
  revert Hs Hin. generalize (Paging.sorted r_id str_lt (List.filter f t)). intros l Hs Hin.
  destruct (last l) as [y|] eqn:El; [|apply last_None in El; subst; by apply elem_of_nil in Hin].
  apply last_Some in El as [l' ->]. apply elem_of_app in Hin as [Hin|Hin%list_elem_of_singleton].
  - apply str_lt_asym. apply (Paging.before_split r_id str_lt l' [y] x y Hs Hin). by apply list_elem_of_singleton.
  - subst. apply str_lt_irrefl.
Qed.

End order.

(** A plan does not depend on the clock when the time is given. *)
Lemma compile_clock `{UuidParse} c1 c2 o q : Compile.Now o <> None -> Compile.Compile c1 o q = Compile.Compile c2 o q.
Proof.
  intros Hn. assert (Hv : forall v kind, Compile.value c1 o v kind = Compile.value c2 o v kind).
  { intros v kind. unfold Compile.value, Compile.now. by destruct (Compile.Now o). }
  assert (Hp : forall fname kind vs args, Compile.params_of c1 o fname kind vs args = Compile.params_of c2 o fname kind vs args).
  { intros fname kind vs. induction vs as [|v vs IH]; intros args; [done|]. cbn [Compile.params_of]. rewrite Hv.
    destruct (Compile.value c2 o v kind) as [a|]; [|done]. destruct (Compile.param o a args) as [s args']. by rewrite IH. }
  assert (He : forall e args, Compile.expr c1 o e args = Compile.expr c2 o e args).
  { induction e as [l IHl r IHr|l IHl r IHr|e IH|fname op vs]; intros args; cbn [Compile.expr].
    - rewrite IHl. destruct (Compile.expr c2 o l args) as [[a args']|]; [|done]. by rewrite IHr.
    - rewrite IHl. destruct (Compile.expr c2 o l args) as [[a args']|]; [|done]. by rewrite IHr.
    - by rewrite IH.
    - unfold Compile.comparison. destruct (Compile.field o fname args) as [[f args']|]; [|done]. destruct vs as [|v vs]; [done|].
      by rewrite Hp. }
  unfold Compile.Compile. destruct (Parser.q_Expr q) as [e|]; [|done]. by rewrite He.
Qed.

(** * One page *)

Section walk.
Context {UU : UuidParse} {PG : Postgres} {CR : Crypto} {CC : Codec Cursor_}.
Context (hmac_length : forall k m, length (hmac_sha256 k m) = 32).

(** Following [next_cursor] until there is none; [page k] answers the [k]-th request. *)
Fixpoint follow (page : nat -> request -> result Problem_ Page) (fuel k : nat) (r : request) : option (list json) :=
  match fuel with
  | O => None
  | S fuel =>
      match page k r with
      | Err _ => None
      | Ok pg =>
          match NextCursor pg with
          | None => Some (Data pg)
          | Some token => match follow page fuel (S k) (with_cursor r token) with
                          | Some rest => Some (Data pg ++ rest)
                          | None => None
                          end
          end
      end
  end.

Definition cursor_at (p : Compile.Plan) (c : Cursor_) (rows : list row) : Cursor_ :=
  match last rows with Some x => at_item p c x | None => c end.

Lemma collect_item_spec key limit p doc rows : forall c data,
  length data <= limit ->
  collect key limit p doc rows c data =
  let m := limit - length data in
  if length rows <=? m then mkPage (data ++ (doc <$> rows)) None
  else mkPage (data ++ (doc <$> take m rows)) (Some (EncodeCursor (cursor_at p c (take m rows)) key)).
Proof.
  induction rows as [|x rows IH]; intros c data Hd; cbn [collect]; [by rewrite app_nil_r|].
  destruct (Nat.eqb_spec (length data) limit) as [E|Hne].
  - rewrite E, Nat.sub_diag. cbn [length Nat.leb take fmap list_fmap]. by rewrite app_nil_r.
  - rewrite IH by (rewrite length_app; simpl; lia). rewrite length_app. cbn [length].
    replace (limit - length data) with (S (limit - (length data + 1))) by lia. cbn [Nat.leb take].
    rewrite !fmap_cons, <- !app_assoc. cbn [app].
    replace (cursor_at p (at_item p c x) (take (limit - (length data + 1)) rows)) with (cursor_at p c (x :: take (limit - (length data + 1)) rows)); [done|].
    unfold cursor_at. rewrite last_cons. by destruct (last (take _ rows)).
Qed.

(** * The walk *)

Context (key : string) (tables : nat -> world) (now : nat -> Z) (r0 : request).
Context (fields : list string) (limit : nat) (q : Parser.Query) (p : Compile.Plan).

(** The bound and the time the first page fixes. *)
Definition upper0 : string := upper_bound (items (tables 0)) (WorkspaceID r0).
Definition cursor0 : Cursor_ := mkCursor 0 zeroID [] upper0 (cursorScope r0) (format_timestamp (now 0)).

Context (Hfields : selectedFields (tables 0) (Query r0) Projection.Required = Ok fields).
Context (Hlimit : PageLimit (Query r0) = Ok limit) (Hq : Parser.Parse (q_get (Query r0) "q") = Ok q).
Context (Hfirst : q_get (Query r0) "cursor" = "") (Hyears : in_years (now 0) = true) (Hclock : now 0 <> zero_time).
Context (Hplan : plan_at (tables 0) (now 0) r0 q (now 0) = Ok p).
Context (Hkind : forall x v, order_value (Compile.OrderExpr p) (Compile.Args p) x = Some v -> pg_kind v = Compile.OrderKind p).
Context (Hids : NoDup (r_id <$> items (tables 0))) (Hpos : forall x, x ∈ items (tables 0) -> str_lt zeroID (r_id x) = true).
Context (Hdefs : forall k, field_rows (tables k) = field_rows (tables 0)).
Context (Hstable : forall k, List.filter (fun x => negb (str_lt upper0 (r_id x))) (items (tables k)) ≡ₚ
                             List.filter (fun x => negb (str_lt upper0 (r_id x))) (items (tables 0))).
Context (Hfit : forall x, x ∈ items (tables 0) ->
  (Z.of_nat (String.length (EncodeCursor (at_item p cursor0 x) key)) <= 8192)%Z /\ marshal (signed (at_item p cursor0 x)) <> []).

Definition matching (x : row) : bool := listed p (WorkspaceID r0) upper0 (q_get (Query r0) "project") x.
(** What is listed, in order. *)
Definition rows0 : list row := Paging.sorted (sort_key p) (key_lt p) (List.filter matching (items (tables 0))).

Lemma matching_items k : List.filter matching (items (tables k)) ≡ₚ List.filter matching (items (tables 0)).
Proof.
  assert (H : forall t, List.filter matching t = List.filter matching (List.filter (fun x => negb (str_lt upper0 (r_id x))) t)).
  { intros t. rewrite <- Paging.filter_and. apply filter_ext. intros x. unfold matching, listed.
    destruct (negb (str_lt upper0 (r_id x))); [by rewrite !andb_true_r|]. by rewrite !andb_false_r. }
  rewrite (H (items (tables k))), (H (items (tables 0))). apply Paging.filter_perm, Hstable.
Qed.

Lemma keys_distinct : NoDup (sort_key p <$> List.filter matching (items (tables 0))).
Proof.
  apply (NoDup_fmap_1 snd). rewrite <- list_fmap_compose. change (snd ∘ sort_key p) with r_id. by apply Paging.filter_nodup.
Qed.

Lemma filter_true {A} (l : list A) : List.filter (fun _ => true) l = l.
Proof. induction l as [|a l IH]; [done|]. cbn [List.filter]. by rewrite IH. Qed.

Lemma rows0_items x : x ∈ rows0 -> x ∈ items (tables 0).
Proof.
  unfold rows0. rewrite (Paging.sorted_perm (sort_key p) (key_lt p)). intros [Hin _]%list_elem_of_In%List.filter_In. by apply list_elem_of_In.
Qed.

(** A page sorts the same rows whatever order the table has them in. *)
Lemma sorted_items f k :
  Paging.sorted (sort_key p) (key_lt p) (List.filter f (List.filter matching (items (tables k)))) =
  Paging.sorted (sort_key p) (key_lt p) (List.filter f (List.filter matching (items (tables 0)))).
Proof.
  symmetry. apply (Paging.sorted_congr _ _ (key_lt_irrefl p) (key_lt_trans p) (key_lt_total p)).
  - apply Paging.filter_nodup, keys_distinct.
  - apply Paging.filter_perm. symmetry. apply matching_items.
Qed.

(** What the [k]-th statement returns. *)
Lemma select_rest k pre rest c sk n :
  rows0 = pre ++ rest -> c = cursor_at p cursor0 pre \/ c = signed (cursor_at p cursor0 pre) -> seek_of c = Ok sk ->
  select p (WorkspaceID r0) (After c) (Upper c) (q_get (Query r0) "project") sk n (items (tables k)) = Some (take n rest).
Proof.
  intros Hsplit Hc Hsk. assert (Hc' : After c = After (cursor_at p cursor0 pre) /\ Upper c = upper0 /\ Sort c = Sort (cursor_at p cursor0 pre)).
  { unfold cursor_at in *. destruct Hc as [-> | ->]; by destruct (last pre). }
  destruct Hc' as (Ha & Hu & Hs). unfold seek_of in Hsk. rewrite Ha, Hs in Hsk. rewrite Ha, Hu. unfold cursor_at in *.
  destruct (last pre) as [z|] eqn:El.
  - cbn [at_item After Sort] in *. apply last_Some in El as [pre' ->].
    assert (Hz : z ∈ rows0) by (rewrite Hsplit; set_solver). pose proof (Hpos z (rows0_items z Hz)) as Hp.
    destruct (String.eqb_spec (r_id z) zeroID) as [E|_]; [by rewrite E, str_lt_irrefl in Hp|].
    assert (E : sk = match sort_of p z with SNull => SeekNull | v => SeekPast v end) by (destruct (sort_of p z); by injection Hsk).
    rewrite E, select_past by apply Hkind. fold matching. rewrite sorted_items.
    rewrite <- app_assoc in Hsplit. by rewrite (Paging.sorted_past _ _ (key_lt_irrefl p) (key_lt_trans p) (key_lt_total p) _ _ _ _ keys_distinct Hsplit).
  - cbn [cursor0 After] in *. rewrite String.eqb_refl in Hsk. injection Hsk as <-. apply last_None in El as ->. unfold select.
    cbn [seek_holds is_true andb]. fold matching. pose proof (sorted_items (fun _ => true) k) as Hs'. rewrite !filter_true in Hs'.
    rewrite Hs'. fold rows0. by rewrite Hsplit.
Qed.

(** * Requests that differ in their cursor *)

Definition like (r : request) : Prop :=
  WorkspaceID r = WorkspaceID r0 /\ UserID r = UserID r0 /\ Path r = Path r0 /\
  (forall k, k <> "cursor" -> q_all (Query r) k = q_all (Query r0) k /\ q_has (Query r) k = q_has (Query r0) k) /\
  PageLimit (Query r) = Ok limit /\ cursorScope r = cursorScope r0.

Lemma like_self : like r0.
Proof. split_and!; done. Qed.

Lemma like_next r token : like r -> like (with_cursor r token).
Proof.
  intros (Hw & Hu & Hp & Hk & Hl & Hs). split_and!; try done.
  - intros k Hne. destruct (Hk k Hne) as [<- <-]. unfold q_all, q_has, with_cursor. cbn [Query].
    by rewrite obj_get_set, (proj2 (String.eqb_neq _ _) Hne).
  - by apply with_cursor_limit.
  - by rewrite with_cursor_scope.
Qed.

Lemma like_get r k : like r -> k <> "cursor" -> q_get (Query r) k = q_get (Query r0) k.
Proof. intros (_ & _ & _ & Hk & _) Hne. unfold q_get. by rewrite (proj1 (Hk k Hne)). Qed.

Lemma like_fields k r : like r -> selectedFields (tables k) (Query r) Projection.Required = Ok fields.
Proof.
  intros Hr. rewrite <- Hfields. unfold selectedFields, customFields. rewrite (like_get r "fields" Hr) by done.
  destruct Hr as (_ & _ & _ & Hk & _). by rewrite (proj2 (Hk "fields" ltac:(done))), Hdefs.
Qed.

(** The time of the first page is the time of every page. *)
Lemma like_plan k r : like r -> plan_at (tables k) (now k) r q (now 0) = Ok p.
Proof.
  intros Hr. pose proof (like_get r "project" Hr ltac:(done)) as Hp. destruct Hr as (_ & Hu & Hpath & _).
  rewrite <- Hplan. unfold plan_at. f_equal.
  assert (E : queryOptions (tables k) r q (now 0) 6 = queryOptions (tables 0) r0 q (now 0) 6).
  { unfold queryOptions, narrowing. by rewrite Hp, Hu, Hpath, Hdefs. }
  rewrite E. apply compile_clock. unfold queryOptions. cbn [Compile.Now]. by rewrite (proj2 (Z.eqb_neq _ _) Hclock).
Qed.

(** * The pages *)

Lemma limit_positive : 0 < limit.
Proof. exact (PageLimit_pos (Query r0) limit Hlimit). Qed.

(** Where the [k]-th request stands: at the start, or past the last row sent. *)
Definition at_page (k : nat) (r : request) (pre : list row) : Prop :=
  like r /\ (k = 0 /\ r = r0 /\ pre = [] \/
            exists x, last pre = Some x /\ q_get (Query r) "cursor" = EncodeCursor (at_item p cursor0 x) key).

Lemma page_cursor k r pre rest :
  rows0 = pre ++ rest -> at_page k r pre ->
  exists c, start_cursor key (tables k) (now k) r = Ok c /\ (c = cursor_at p cursor0 pre \/ c = signed (cursor_at p cursor0 pre)).
Proof.
  intros Hsplit [Hr Hcur]. unfold start_cursor. destruct Hcur as [(-> & -> & ->)|(x & El & ->)].
  - rewrite Hfirst. cbn [String.eqb]. eexists. split; [done|]. by left.
  - assert (Hx : x ∈ items (tables 0)) by (apply rows0_items; rewrite Hsplit; apply last_Some in El as [l ->]; set_solver).
    destruct (Hfit x Hx) as [Hlen Hne]. pose proof (Hpos x Hx) as Hz. destruct Hr as (_ & _ & _ & _ & _ & Hs). rewrite Hs.
    assert (Ha : r_id x <> "") by (intros E; rewrite E in Hz; discriminate Hz).
    assert (Hup : upper0 <> "").
    { intros E. destruct (upper_bound_in (items (tables 0)) (WorkspaceID r0)) as [Eu|(y & Hy & Eu)]; fold upper0 in Eu; rewrite E in Eu; [done|].
      pose proof (Hpos y Hy) as Hzy. rewrite <- Eu in Hzy. discriminate Hzy. }
    pose proof (cursor_decode_encode hmac_length (at_item p cursor0 x) key (cursorScope r0) Hlen Hne) as D.
    cbn [at_item cursor0 Scope_ After Upper] in D. rewrite String.eqb_refl, (proj2 (String.eqb_neq _ _) Ha), (proj2 (String.eqb_neq _ _) Hup) in D.
    cbn [negb orb] in D. destruct (String.eqb_spec (EncodeCursor (at_item p cursor0 x) key) "") as [E|_].
    { rewrite E in D. discriminate D. }
    rewrite D. eexists. split; [done|]. right. unfold cursor_at. by rewrite El.
Qed.

Lemma at_parsed c pre : c = cursor_at p cursor0 pre \/ c = signed (cursor_at p cursor0 pre) -> parse_timestamp (At c) = Some (now 0).
Proof.
  intros Hc. rewrite <- (parse_format_timestamp (now 0) Hyears). f_equal. unfold cursor_at in Hc. destruct Hc as [-> | ->]; by destruct (last pre).
Qed.

Lemma encode_signed c : EncodeCursor (signed c) key = EncodeCursor c key.
Proof. done. Qed.

Context (expression : string) (params : list string).
Context (Hsql : Projection.SQL fields (Z.of_nat (5 + length (Compile.Args p)) + 1) = Some (expression, params)).

Definition shown (x : row) : json := JObj (Projection.Apply (hydrate expression params x) fields).

(** One answer in the middle of the walk. *)
Lemma page_spec k r pre rest :
  rows0 = pre ++ rest -> at_page k r pre ->
  listItems key (tables k) (now k) r =
  Ok (if length rest <=? limit then mkPage (shown <$> rest) None
      else mkPage (shown <$> take limit rest) (Some (EncodeCursor (cursor_at p cursor0 (take limit rest)) key))).
Proof.
  intros Hsplit Hat. destruct (page_cursor k r pre rest Hsplit Hat) as (c & Hc & Hcc). pose proof Hat as [Hr _].
  unfold listItems. rewrite like_fields by done. pose proof Hr as (Hw & _ & _ & _ & Hl & _). rewrite Hl. cbn [or_bad].
  rewrite (like_get r "q") by done. rewrite Hq. cbn [or_bad]. rewrite Hc, (at_parsed c pre Hcc), like_plan by done. rewrite Hsql.
  destruct (seek_of c) as [sk|e] eqn:Esk; cycle 1.
  { exfalso. unfold cursor_at in Hcc. unfold seek_of in Esk. destruct (last pre) as [x|] eqn:El.
    - destruct Hcc as [-> | ->]; cbn [signed at_item After Sort] in Esk; repeat case_match; congruence.
    - destruct Hcc as [-> | ->]; cbn [signed cursor0 After Sort] in Esk; by rewrite String.eqb_refl in Esk. }
  rewrite (like_get r "project") by done. rewrite Hw, (select_rest k pre rest c sk (limit + 1) Hsplit Hcc Esk).
  f_equal. fold shown. rewrite collect_item_spec by (simpl; lia). cbn [length app]. rewrite Nat.sub_0_r, length_take. cbv zeta.
  destruct (Nat.leb_spec (length rest) limit).
  - rewrite (proj2 (Nat.leb_le _ _)) by lia. by rewrite take_ge by lia.
  - rewrite (proj2 (Nat.leb_gt _ _)) by lia. rewrite take_take, Nat.min_l by lia. do 2 f_equal.
    unfold cursor_at in Hcc |- *. destruct (last (take limit rest)) as [x|] eqn:El.
    + destruct Hcc as [-> | ->]; by destruct (last pre).
    + exfalso. apply last_None in El. pose proof limit_positive. destruct rest; [simpl in *; lia|]. destruct limit; [lia|done].
Qed.

Lemma follow_rest fuel : forall k r pre rest,
  rows0 = pre ++ rest -> length rest < fuel -> at_page k r pre ->
  follow (fun k r => listItems key (tables k) (now k) r) fuel k r = Some (shown <$> rest).
Proof.
  induction fuel as [|fuel IH]; intros k r pre rest Hsplit Hfuel Hat; [lia|]. cbn [follow]. rewrite (page_spec k r pre rest Hsplit Hat).
  destruct (Nat.leb_spec (length rest) limit) as [Hle|Hgt]; cbn [NextCursor Data]; [done|]. pose proof limit_positive as Hpos'.
  destruct (last (take limit rest)) as [x|] eqn:El.
  2:{ exfalso. apply last_None in El. destruct rest; [simpl in *; lia|]. destruct limit; [lia|done]. }
  rewrite (IH (S k) _ (pre ++ take limit rest) (drop limit rest)).
  - f_equal. rewrite <- fmap_app. by rewrite take_drop.
  - by rewrite <- app_assoc, take_drop.
  - rewrite length_drop. lia.
  - split; [by apply like_next, Hat|]. right. exists x. split; [by rewrite last_app, El|].
    unfold with_cursor, q_get, q_all. cbn [Query]. rewrite obj_get_set. cbn [String.eqb Ascii.eqb Bool.eqb]. unfold cursor_at. by rewrite El.
Qed.

End walk.

(** * The list *)

Section complete.
Context {UU : UuidParse} {PG : Postgres} {CR : Crypto} {CC : Codec Cursor_}.

(** The items a request asks for. *)
Definition wanted (p : Compile.Plan) (r : request) (x : row) : bool :=
  String.eqb (r_workspace x) (WorkspaceID r) &&
  (String.eqb (q_get (Query r) "project") "" || String.eqb (r_project x) (q_get (Query r) "project")) && negb (r_deleted x) &&
  is_true (holds (Compile.Where p) (Compile.Args p) x).

Definition document (p : Compile.Plan) (fields : list string) (x : row) : json :=
  match Projection.SQL fields (Z.of_nat (5 + length (Compile.Args p)) + 1) with
  | Some (expression, params) => JObj (Projection.Apply (hydrate expression params x) fields)
  | None => JNull
  end.

(** A request without a cursor that is well formed, and a workspace in which, while
    its pages are read, no item there was at the start changes (others may appear
    with higher identifiers) and no field is defined; the cursors fit in a request. *)
Record list_run (key : string) (tables : nat -> world) (now : nat -> Z) (r : request)
    (fields : list string) (limit : nat) (q : Parser.Query) (p : Compile.Plan) : Prop := {
  lr_fields : selectedFields (tables 0) (Query r) Projection.Required = Ok fields;
  lr_limit : PageLimit (Query r) = Ok limit;
  lr_query : Parser.Parse (q_get (Query r) "q") = Ok q;
  lr_first : q_get (Query r) "cursor" = "";
  lr_plan : plan_at (tables 0) (now 0) r q (now 0) = Ok p;
  lr_years : in_years (now 0) = true;
  lr_clock : now 0 <> zero_time;
  lr_kind x v : order_value (Compile.OrderExpr p) (Compile.Args p) x = Some v -> pg_kind v = Compile.OrderKind p;
  lr_ids : NoDup (r_id <$> items (tables 0));
  lr_pos x : x ∈ items (tables 0) -> str_lt zeroID (r_id x) = true;
  lr_defs k : field_rows (tables k) = field_rows (tables 0);
  lr_items k : List.filter (fun x => negb (str_lt (upper0 tables r) (r_id x))) (items (tables k)) ≡ₚ
               List.filter (fun x => negb (str_lt (upper0 tables r) (r_id x))) (items (tables 0));
  lr_fit x : x ∈ items (tables 0) ->
    (Z.of_nat (String.length (EncodeCursor (at_item p (cursor0 tables now r) x) key)) <= 8192)%Z /\
    marshal (signed (at_item p (cursor0 tables now r) x)) <> []
}.

Lemma matching_wanted tables r p :
  NoDup (r_id <$> items (tables 0)) -> List.filter (matching tables r p) (items (tables 0)) = List.filter (wanted p r) (items (tables 0)).
Proof.
  intros Hnd. apply filter_ext_in. intros x Hx. apply list_elem_of_In in Hx. unfold matching, listed, wanted.
  destruct (String.eqb_spec (r_workspace x) (WorkspaceID r)) as [E|]; [|done]. unfold upper0.
  by rewrite (upper_bound_max _ _ x Hnd Hx E).
Qed.

(** C11. The item list is complete and in order whatever it is sorted by: starting
    without a cursor and following each page's [next_cursor] to the end yields the
    document of every item of the workspace and project that the query accepts,
    each exactly once, in the order of the sort expression (nulls last, ties by
    identifier), and no request on the way is refused. Every page evaluates
    [now()] at the time of the first, so the pages agree on the filter. *)
Theorem list_complete key tables now r fields limit q p :
  (forall k m, length (hmac_sha256 k m) = 32) -> list_run key tables now r fields limit q p ->
  follow (fun k r => listItems key (tables k) (now k) r) (S (length (items (tables 0)))) 0 r =
  Some (document p fields <$> Paging.sorted (sort_key p) (key_lt p) (List.filter (wanted p r) (items (tables 0)))).
Proof.
  intros Hmac []. assert (Hsql : is_Some (Projection.SQL fields (Z.of_nat (5 + length (Compile.Args p)) + 1))).
  { unfold selectedFields, or_bad in lr_fields0. destruct (Projection.Parse _ _ _ _) as [fs|] eqn:E; [|done]. injection lr_fields0 as <-.
    by apply (ProjectionProps.SQL_total _ _ _ _ _ _ E). }
  destruct Hsql as [[expression params] Hsql].
  rewrite (follow_rest Hmac key tables now r fields limit q p lr_fields0 lr_limit0 lr_query0 lr_first0 lr_years0 lr_clock0 lr_plan0
    lr_kind0 lr_ids0 lr_pos0 lr_defs0 lr_items0 lr_fit0 expression params Hsql _ 0 r [] (rows0 tables r p)); try done.
  - unfold rows0. rewrite matching_wanted by done. f_equal. apply list_fmap_ext. intros i x _. unfold document. by rewrite Hsql.
  - unfold rows0. rewrite (Paging.sorted_perm (sort_key p) (key_lt p)).
    pose proof (filter_length_le (matching tables r p) (items (tables 0))). lia.
  - split; [by apply like_self|]. left. done.
Qed.

(** A cursor over 8192 bytes, which a long enough sort value makes, is refused by the
    server that issued it. *)
Lemma long_cursor_refused c key scope :
  (8192 < Z.of_nat (String.length (EncodeCursor c key)))%Z -> is_ok (DecodeCursor (EncodeCursor c key) key scope) = false.
Proof. intros H. unfold DecodeCursor. by rewrite (proj2 (Z.ltb_lt _ _) H). Qed.

End complete.

(** * The joins of the filter *)

Definition table_aliases : list string := join_pairs.*1.

(** An alias that starts a word inside a text. *)
Definition inside (a text : string) : Prop :=
  exists pre c post, chars text = pre ++ c :: chars a ++ post /\ is_word c = false.

Lemma inside_app a l m r : inside a m -> inside a (l +:+ m +:+ r).
Proof.
  intros (pre & c & post & E & Hc). exists (chars l ++ pre), c, (post ++ chars r). split; [|done].
  rewrite !chars_app, E. by rewrite <- !app_assoc, <- app_comm_cons, <- !app_assoc.
Qed.
Lemma inside_l a m r : inside a m -> inside a (m +:+ r).
Proof. intros H. exact (inside_app a "" m r H). Qed.
Lemma inside_r a l m : inside a m -> inside a (l +:+ m).
Proof. intros H. rewrite <- (str_app_nil_r m). by apply inside_app. Qed.

(** Text that starts with the alias, after a character that is not part of a word. *)
Lemma inside_prefix a c m r : is_word c = false -> has_prefix m a = true -> inside a (String c (m +:+ r)).
Proof.
  intros Hc [t ->]%has_prefix_spec. exists [], c, (chars t ++ chars r). split; [|done]. cbn [chars app]. by rewrite !chars_app, <- app_assoc.
Qed.

Lemma alias_here a post : a ∈ table_aliases -> alias_at (chars a ++ post) = Some a.
Proof.
  intros H. unfold table_aliases, join_pairs in H. cbn [fmap list_fmap fst] in H.
  repeat (apply elem_of_cons in H as [->|H]; [reflexivity|]). by apply elem_of_nil in H.
Qed.

(** A match ends before the alias that follows it. *)
Lemma alias_before b pre a post :
  alias_at (pre ++ chars a ++ post) = Some b -> match last pre with Some c => is_word c = false | None => False end ->
  String.length b <= length pre.
Proof.
  intros Hb Hlast. apply List.find_some in Hb as [Hin Hpre]. apply has_prefix_spec in Hpre as [t E].
  apply (f_equal chars) in E. rewrite chars_of_chars, chars_app in E.
  assert (Hc : exists w, chars b = w ++ ["."%char] /\ forallb is_word w = true /\ String.length b = S (length w)).
  { cbn [In] in Hin. destruct Hin as [<-|[<-|[<-|[<-|[<-|[]]]]]];
      [exists ["s"%char]|exists ["t"%char]|exists ["p"%char; "a"%char; "r"%char]|exists ["u"%char]|exists ["r"%char]]; done. }
  destruct Hc as (w & Ew & Hw & Hl). rewrite Hl. destruct (Nat.le_gt_cases (S (length w)) (length pre)) as [|Hlt]; [done|]. exfalso.
  destruct (last pre) as [c|] eqn:El; [|done]. apply last_Some in El as [pre' ->]. rewrite length_app in Hlt. simpl in Hlt.
  rewrite Ew, <- !app_assoc in E. apply (f_equal (fun l => l !! length pre')) in E.
  rewrite lookup_app_r, Nat.sub_diag in E by done. cbn in E. rewrite lookup_app_l in E by lia.
  rewrite forallb_forall in Hw. specialize (Hw c). rewrite Hw in Hlast; [done|].
  apply list_elem_of_In. symmetry in E. by apply list_elem_of_lookup_2 in E.
Qed.

Lemma find_aliases_complete a post : a ∈ table_aliases -> forall pre w skip,
  skip <= length pre -> match last pre with Some c => is_word c = false | None => w = false end ->
  a ∈ find_aliases w skip (pre ++ chars a ++ post).
Proof.
  intros Ha. induction pre as [|c pre IH]; intros w skip Hskip Hlast.
  - cbn [length] in Hskip. replace skip with 0 by lia. cbn [last] in Hlast. subst w. cbn [app].
    pose proof (alias_here a post Ha) as Hat. destruct (chars a ++ post) as [|c l]; [done|]. cbn [find_aliases]. rewrite Hat. apply list_elem_of_here.
  - assert (Hnext : match last pre with Some c' => is_word c' = false | None => is_word c = false end).
    { rewrite last_cons in Hlast. by destruct (last pre). }
    cbn [app find_aliases length] in *. destruct skip as [|k]; [|apply IH; [lia|done]].
    destruct w; [apply IH; [lia|done]|]. destruct (alias_at (c :: pre ++ chars a ++ post)) as [b|] eqn:Eb; [|apply IH; [lia|done]].
    apply list_elem_of_further, IH; [|done]. pose proof (alias_before b (c :: pre) a post Eb) as Hb. cbn [length] in Hb.
    rewrite last_cons in Hb. destruct (last pre); specialize (Hb Hnext); lia.
Qed.

(** The clause of an alias. *)
Definition joined (a sql : string) : Prop :=
  exists clause l r, (a, clause) ∈ join_pairs /\ itemFilterJoins sql = l +:+ clause +:+ r.

Lemma inside_joined a sql : a ∈ table_aliases -> inside a sql -> joined a sql.
Proof.
  intros Ha (pre & c & post & E & Hc).
  assert (Hf : mem_str a (find_aliases false 0 (chars sql)) = true).
  { apply mem_str_spec. rewrite E. replace (pre ++ c :: chars a ++ post) with ((pre ++ [c]) ++ chars a ++ post) by (by rewrite <- app_assoc).
    apply find_aliases_complete; [done|lia|]. by rewrite last_snoc. }
  unfold joined, itemFilterJoins, table_aliases in *. apply list_elem_of_fmap in Ha as ([a' clause] & -> & Hin). cbn [fst] in Hf. exists clause.
  set (found := find_aliases false 0 (chars sql)) in *. generalize " FROM item i JOIN project p ON p.id=i.project_id " as start_.
  cbn [fst]. enough (forall ps j, (a', clause) ∈ ps -> exists l r,
      fold_left (fun joins p => if mem_str p.1 found then joins +:+ p.2 else joins) ps j = l +:+ clause +:+ r) as H.
  { intros j. destruct (H join_pairs j Hin) as (l & r & ->). by exists l, r. }
  assert (Hgrow : forall ps j, exists r, fold_left (fun joins p => if mem_str p.1 found then joins +:+ p.2 else joins) ps j = j +:+ r).
  { induction ps as [|[b cl] ps IH]; intros j; [exists ""; by rewrite str_app_nil_r|]. cbn [fold_left fst snd].
    destruct (mem_str b found); [|apply IH]. destruct (IH (j +:+ cl)) as [r ->]. exists (cl +:+ r). by rewrite str_app_assoc. }
  induction ps as [|[b cl] ps IH]; intros j; [by intros ?%elem_of_nil|]. intros [E2|H]%elem_of_cons; [|by apply IH].
  injection E2 as <- <-. cbn [fold_left fst snd]. rewrite Hf. destruct (Hgrow ps (j +:+ clause)) as [r ->].
  exists j, r. by rewrite str_app_assoc.
Qed.

(** The fields a condition names. *)
Fixpoint fields_of (e : Parser.Expr) : list string :=
  match e with
  | Parser.EAnd l r | Parser.EOr l r => fields_of l ++ fields_of r
  | Parser.ENot e => fields_of e
  | Parser.ECmp f _ _ => [f]
  end.
Definition query_fields (q : Parser.Query) : list string :=
  match Parser.q_Expr q with Some e => fields_of e | None => [] end ++ [Parser.q_Order q].

Section compiled.
Context {UU : UuidParse} (clock : Z) (o : Compile.Options).

Lemma fixed_field name f g args args' :
  Compile.assoc name Compile.Fields = Some f -> Compile.field o name args = Ok (g, args') -> g = f.
Proof. intros Hf. unfold Compile.field. rewrite Hf. congruence. Qed.

Lemma comparison_inside name f a op vs args s args' :
  Compile.assoc name Compile.Fields = Some f -> has_prefix (Compile.SQL f) a = true ->
  Compile.comparison clock o name op vs args = Ok (s, args') -> inside a s.
Proof.
  intros Hf Ha. unfold Compile.comparison. destruct (Compile.field o name args) as [[g args1]|] eqn:Eg; [|done].
  rewrite (fixed_field _ _ _ _ _ Hf Eg). assert (Hin : forall r, inside a ("(" +:+ (Compile.SQL f +:+ r))).
  { intros r. exact (inside_prefix a "("%char _ r eq_refl Ha). }
  destruct vs as [|v vs]; [done|]. destruct (_ || _).
  - destruct (negb _); [done|]. destruct (Parser.Literal v); try done. destruct (Compile.param _ _ _) as [pl args2]. intros E. injection E as <- <-.
    destruct (String.eqb name "text"); [apply Hin|].
    apply inside_r, inside_l. exact (inside_r a "to_tsvector('english',coalesce" _ (Hin ",''))")).
  - destruct (String.eqb _ _); [done|]. destruct (_ || _ || _).
    + destruct (negb _); [done|]. destruct (_ || _); intros E; injection E as <- <-; apply Hin.
    + destruct (Compile.is_null v); [done|]. destruct (String.eqb _ _); [done|]. destruct (Compile.sql_op op) as [sop|]; [|done].
      destruct (Compile.params_of _ _ _ _ _ _) as [[ps args2]|]; [|done]. destruct (_ || _); intros E; injection E as <- <-; apply Hin.
Qed.

Lemma expr_inside name f a e : forall args s args',
  name ∈ fields_of e -> Compile.assoc name Compile.Fields = Some f -> has_prefix (Compile.SQL f) a = true ->
  Compile.expr clock o e args = Ok (s, args') -> inside a s.
Proof.
  induction e as [l IHl r IHr|l IHl r IHr|e IH|fname op vs]; intros args s args' Hn Hf Ha; cbn [Compile.expr fields_of] in *.
  1,2: destruct (Compile.expr clock o l args) as [[sl args1]|] eqn:El; [|done]; destruct (Compile.expr clock o r args1) as [[sr args2]|] eqn:Er; [|done];
    intros E; injection E as <- <-; apply elem_of_app in Hn as [Hn|Hn];
    [apply inside_app, (IHl _ _ _ Hn Hf Ha El)|apply inside_r, inside_r, inside_app, (IHr _ _ _ Hn Hf Ha Er)].
  - destruct (Compile.expr clock o e args) as [[s1 args1]|] eqn:E1; [|done]. intros E. injection E as <- <-. apply inside_app, (IH _ _ _ Hn Hf Ha E1).
  - apply list_elem_of_singleton in Hn as ->. intros E. by apply (comparison_inside fname f a op vs args s args' Hf Ha).
Qed.

(** The statement joins every table it reads: for each built-in field a
    compiled query names, in its conditions or as its order, the [FROM] clause that
    [itemFilterJoins] finds in the text has the join of the field's table,
    whichever page is read. *)
Theorem filter_joins_cover q p sk n name f a :
  Compile.Compile clock o q = Ok p -> name ∈ query_fields q -> Compile.assoc name Compile.Fields = Some f ->
  a ∈ table_aliases -> has_prefix (Compile.SQL f) a = true ->
  joined a (filterSQL p (predicate p n sk)).
Proof.
  intros Hp Hn Hf Ha Hpre. apply inside_joined; [done|]. unfold Compile.Compile in Hp.
  destruct (match Parser.q_Expr q with Some e => Compile.expr clock o e [] | None => Ok ("TRUE", []) end) as [[w args]|] eqn:Ew; [|done].
  destruct (Compile.field o (Parser.q_Order q) args) as [[g args']|] eqn:Eg; [|done]. destruct (_ || _); [done|]. injection Hp as <-.
  unfold filterSQL. cbn [Compile.Where Compile.OrderExpr]. unfold query_fields in Hn. apply elem_of_app in Hn as [Hn|Hn%list_elem_of_singleton].
  - destruct (Parser.q_Expr q) as [e|]; [|by apply elem_of_nil in Hn]. apply inside_l. by apply (expr_inside name f a e [] w args).
  - subst name. rewrite (fixed_field _ _ _ _ _ Hf Eg). apply inside_r, inside_r, inside_r.
    rewrite <- (str_app_nil_r (Compile.SQL f)). exact (inside_prefix a " "%char _ _ eq_refl Hpre).
Qed.

End compiled.
End ListingProps.

(** A workspace listed by parent in pages of two, against an evaluator of the few
    expressions it uses. *)
Open Scope nat_scope.

Module ListingDemo.
Import JournalDemo Problem Cursor CursorProps Listing ListingProps.

Definition cell (k : string) (x : row) : option string :=
  match obj_get k (r_cells x) with Some (JStr s) => Some s | _ => None end.

(** Text values with the byte order; the expressions of the query below. *)
#[local] Instance text_postgres : Postgres.
Proof.
  refine {| pg_value := string; pg_lt := str_lt; pg_kind _ := "text"; to_jsonb := SText;
            of_param _ v := match v with SText s => Some s | _ => None end;
            holds text args x :=
              if String.eqb text "(s.key <> $6)"
              then match cell "status" x, args with Some s, [Compile.AStr v] => Some (negb (String.eqb s v)) | _, _ => None end
              else None;
            order_value text _ x := if String.eqb text "par.key" then cell "parent" x else None;
            hydrate _ _ x := r_cells x |}.
  - apply str_lt_irrefl.
  - apply str_lt_trans.
  - apply str_lt_total.
  - done.
  - done.
Defined.

Definition item_row (id project : string) (deleted : bool) (status : string) (parent : json) : row :=
  mkRow id "w" project deleted [("key", JStr id); ("status", JStr status); ("parent", parent)].

Definition some_rows : list row :=
  [item_row "0b" "A" false "todo" (JStr "A-1"); item_row "0a" "A" false "todo" JNull; item_row "0c" "A" false "doing" (JStr "A-1");
   item_row "0d" "A" false "todo" (JStr "A-9"); item_row "0e" "A" false "done" (JStr "A-2"); item_row "0f" "A" true "todo" JNull;
   item_row "0g" "B" false "todo" (JStr "A-2"); item_row "0h" "A" false "todo" JNull; item_row "0i" "A" false "todo" (JStr "A-3")].

Definition worlds (k : nat) : world :=
  mkWorld (if k =? 0 then some_rows else item_row "0z" "A" false "todo" (JStr "A-0") :: rev some_rows) [mkFieldRow "impact" "number" "p1" "A"].
Definition clock_at (k : nat) : Z := (20714 * ns_per_day + Z.of_nat k * ns_per_s)%Z.
Definition list_request : request :=
  mkRequest "w" "01994ed4-0000-7000-8000-000000000001" "/api/v1/items"
    [("fields", ["key"]); ("limit", ["2"]); ("project", ["A"]); ("q", ["status != done order by parent desc"])].
Definition list_query : Parser.Query := match Parser.Parse "status != done order by parent desc" with Ok q => q | Err _ => Parser.mkQuery None "" false end.
Definition list_plan : Compile.Plan := Compile.mkPlan "(s.key <> $6)" "par.key" "text" true [Compile.AStr "done"].

Definition row_fits (x : row) : bool :=
  let c := at_item list_plan (@cursor0 wide_crypto worlds clock_at list_request) x in
  (Z.of_nat (String.length (@EncodeCursor wide_crypto _ c "k")) <=? 8192)%Z && negb (length (marshal (signed c)) =? 0).

Lemma rows_fit : forallb row_fits some_rows = true.
Proof. vm_compute. reflexivity. Qed.
Lemma rows_positive : forallb (fun x => str_lt zeroID (r_id x)) some_rows = true.
Proof. vm_compute. reflexivity. Qed.
Lemma rows_distinct : NoDup (r_id <$> some_rows).
Proof. refine (proj1 (bool_decide_eq_true _) _). vm_compute. reflexivity. Qed.
Lemma parents_text x v : order_value (Compile.OrderExpr list_plan) (Compile.Args list_plan) x = Some v -> pg_kind v = Compile.OrderKind list_plan.
Proof. done. Qed.

Lemma demo_run : @list_run _ _ wide_crypto _ "k" worlds clock_at list_request ["key"] 2 list_query list_plan.
Proof.
  split.
  - vm_compute. reflexivity.
  - vm_compute. reflexivity.
  - vm_compute. reflexivity.
  - reflexivity.
  - vm_compute. reflexivity.
  - vm_compute. reflexivity.
  - vm_compute. discriminate.
  - exact parents_text.
  - exact rows_distinct.
  - intros x Hx. pose proof rows_positive as H. rewrite forallb_forall in H. by apply H, list_elem_of_In.
  - intros [|k]; reflexivity.
  - intros [|k]; [done|].
    assert (E0 : List.filter (fun x => negb (str_lt (upper0 worlds list_request) (r_id x))) (items (worlds 0)) = some_rows) by (vm_compute; reflexivity).
    assert (E1 : List.filter (fun x => negb (str_lt (upper0 worlds list_request) (r_id x))) (items (worlds (S k))) = rev some_rows) by (vm_compute; reflexivity).
    rewrite E0, E1. symmetry. apply Permutation_rev.
  - intros x Hx. pose proof rows_fit as H. rewrite forallb_forall in H. specialize (H x (proj1 (list_elem_of_In _ _) Hx)).
    unfold row_fits in H. apply andb_prop in H as [H1 H2]. split; [by apply Z.leb_le|]. intros E. rewrite E in H2. discriminate H2.
Qed.

Lemma list_complete_witness :
  @follow (fun k r => @listItems _ _ wide_crypto _ "k" (worlds k) (clock_at k) r) (S (length some_rows)) 0 list_request =
  Some ((fun id => JObj [("key", JStr id)]) <$> ["0d"; "0i"; "0b"; "0c"; "0a"; "0h"]).
Proof.
  pose proof (@list_complete _ _ wide_crypto _ "k" worlds clock_at list_request ["key"] 2 list_query list_plan wide_length demo_run) as H.
  etransitivity; [exact H|]. vm_compute. reflexivity.
Defined.

Lemma filter_joins_cover_witness :
  joined "par." (filterSQL list_plan (predicate list_plan 7 (SeekPast (SText "A-1")))) /\ joined "s." (filterSQL list_plan "TRUE").
Proof.
  assert (Hp : Compile.Compile 0 (Compile.mkOptions "" (Some 0%Z) 6 ∅) list_query = Ok list_plan) by (vm_compute; reflexivity).
  pose proof (fun sk n name f a => filter_joins_cover 0 _ list_query list_plan sk n name f a Hp) as H. split.
  - apply (H (SeekPast (SText "A-1")) 7 "parent" (Compile.mkField "par.key" "text")); try reflexivity; apply mem_str_spec; reflexivity.
  - apply (H SeekStart 0 "status" (Compile.mkField "s.key" "text")); try reflexivity; apply mem_str_spec; reflexivity.
Defined.

End ListingDemo.
