(* ===== verification/Http.v ===== *)
(** The HTTP layer every answer passes: [internal/api/compress.go],
    [middleware.go], [cache.go], the conditional answers of [config.go] and the
    asset handler of [documents.go]. *)
From S2P Require Import Prelude Utf8 Float Json Journal Problem.
From Stdlib Require Import Floats.SpecFloat.
Open Scope Z_scope.

Module Http.
Import Problem.

(** * Headers and net/http's writer *)

(** [http.Header] under canonical names: the values of each, in order. *)
Definition headers := list (string * list string).
Definition h_values (k : string) (h : headers) : list string := match obj_get k h with Some l => l | None => [] end.
Definition h_get (k : string) (h : headers) : string := match h_values k h with v :: _ => v | [] => "" end.
Definition h_set (k v : string) (h : headers) : headers := obj_set k [v] h.
Definition h_add (k v : string) (h : headers) : headers := obj_set k (h_values k h ++ [v]) h.
Definition h_del (k : string) (h : headers) : headers := obj_del k h.

(** [http.ResponseWriter]: the header map, what the first final [WriteHeader] sent,
    and the body. *)
Record writer := mkWriter { header : headers; sent : option (Z * headers); sent_body : bytes }.
Definition new_writer : writer := mkWriter [] None [].

Definition map_header (f : headers -> headers) (w : writer) : writer := mkWriter (f (header w)) (sent w) (sent_body w).

(** Informational statuses do not end the header, and only the first of the others
    counts. *)
Definition WriteHeader (status : Z) (w : writer) : writer :=
  if status <? 200 then w
  else match sent w with Some _ => w | None => mkWriter (header w) (Some (status, header w)) (sent_body w) end.

(** No body follows a HEAD request or the statuses 204 and 304. *)
Definition bodiless (head : bool) (status : Z) : bool := head || (status =? 204) || (status =? 304).

Definition Write (head : bool) (b : bytes) (w : writer) : writer :=
  let w := match sent w with Some _ => w | None => WriteHeader 200 w end in
  match sent w with
  | Some (status, _) => if bodiless head status then w else mkWriter (header w) (sent w) (sent_body w ++ b)
  | None => w
  end.

(** What the client gets when the handler returns. *)
Definition answer_of (w : writer) : Z * headers * bytes :=
  match sent w with Some (status, h) => (status, h, sent_body w) | None => (200, header w, sent_body w) end.

(** What a handler does with its writer. *)
Inductive op := OSet (k v : string) | OAdd (k v : string) | ODel (k : string) | OWriteHeader (status : Z) | OWrite (b : bytes).

Definition writer_op (head : bool) (w : writer) (o : op) : writer :=
  match o with
  | OSet k v => map_header (h_set k v) w
  | OAdd k v => map_header (h_add k v) w
  | ODel k => map_header (h_del k) w
  | OWriteHeader status => WriteHeader status w
  | OWrite b => Write head b w
  end.
Definition run_plain (head : bool) (w : writer) (ops : list op) : writer := fold_left (writer_op head) ops w.

(** * Choosing an encoding *)

(** [strings.ToLower] as far as the four names compared with are concerned: besides
    ASCII, the dotted capital I becomes an i. *)
Fixpoint lower_name (l : list ascii) : list ascii :=
  match l with
  | a :: ((b :: l) as rest) =>
      if byte_in 196 196 a && byte_in 176 176 b then "i"%char :: lower_name l else lower_char a :: lower_name rest
  | [a] => [lower_char a]
  | [] => []
  end.

(** [strings.Cut] *)
Fixpoint cut_chars (sep : ascii) (l : list ascii) : list ascii * option (list ascii) :=
  match l with
  | [] => ([], None)
  | c :: l => if Ascii.eqb c sep then ([], Some l) else let '(a, b) := cut_chars sep l in (c :: a, b)
  end.

Definition f_zero : float64 := S754_zero false.
Definition f_one : float64 := of_decimal false 1 0.

(** The quality after one parameter. *)
Definition parameter_quality (quality : float64) (parameter : string) : float64 :=
  match cut_chars "="%char (chars (trim_space parameter)) with
  | (key, Some value) =>
      if String.eqb (of_chars key) "q" || String.eqb (of_chars key) "Q" then
        match parse_float (of_chars value) with
        | Some q => if f_lt q f_zero || f_lt f_one q || match q with S754_nan => true | _ => false end then f_zero else q
        | None => f_zero
        end
      else quality
  | (_, None) => quality
  end.

(** One element of the header. *)
Definition add_quality (values : gmap string float64) (part : string) : gmap string float64 :=
  match str_split ";"%char part with
  | [] => values
  | piece :: parameters =>
      let name := of_chars (lower_name (chars (trim_space piece))) in
      if String.eqb name "" then values else <[name := fold_left parameter_quality parameters f_one]> values
  end.
Definition qualities (accept : string) : gmap string float64 := fold_left add_quality (str_split ","%char accept) ∅.

Definition quality_of (values : gmap string float64) (name : string) : float64 :=
  match values !! name with Some q => q | None => match values !! "*" with Some q => q | None => f_zero end end.

(** The loop over [br] and [gzip]. *)
Definition best_of (values : gmap string float64) : string * float64 :=
  fold_left (fun (best : string * float64) name =>
    let q := quality_of values name in if f_lt best.2 q then (name, q) else best) ["br"; "gzip"] ("", f_zero).

Definition encodingChoice (accept : string) : string * bool :=
  let values := qualities accept in
  let '(best, bestQ) := best_of values in
  if match values !! "identity" with Some q => f_lt bestQ q | None => false end then ("", true)
  else if negb (String.eqb best "") then (best, true)
  else match values !! "identity" with
       | Some q => ("", f_lt f_zero q)
       | None => match values !! "*" with
                 | Some q => if f_eq q f_zero then ("", false) else ("", true)
                 | None => ("", true)
                 end
       end.

Example choice_ex :
  encodingChoice <$> ["gzip, br"; "gzip;q=0.8, br;q=0.5"; ""; "identity;q=0, *;q=0"; "*"; "br;q=0, *;q=0.1"; "identity, br;q=0.9"; "br;q=x"; "deflate"; "*;q=0"; "br ; Q=0.3 ;q=1.5"]
  = [("br", true); ("gzip", true); ("", true); ("", false); ("br", true); ("gzip", true); ("", true); ("", true); ("", true); ("", false); ("", true)].
Proof. vm_compute. reflexivity. Qed.

(** * The compressed writer *)

(** The encoders: what they make of the chunks written, and their inverse. *)
Class Encoders := {
  encode : string -> list bytes -> bytes;
  decode : string -> bytes -> option bytes;
  decode_encode : forall e chunks, e = "br" \/ e = "gzip" -> decode e (encode e chunks) = Some (concat chunks)
}.

(** [compressedWriter]; [encoder] holds the coding and what was written to it. *)
Record compressedWriter := mkCompressed {
  under : writer; encoding : string; encoder : option (string * list bytes); wrote : bool; head : bool }.

Definition compressible (content : string) : bool :=
  has_prefix content "text/" || has_prefix content "application/json" || has_prefix content "application/problem+json" ||
  has_prefix content "application/javascript" || has_prefix content "image/svg+xml".

Definition c_WriteHeader (status : Z) (w : compressedWriter) : compressedWriter :=
  if status <? 200 then mkCompressed (WriteHeader status (under w)) (encoding w) (encoder w) (wrote w) (head w)
  else if wrote w then w
  else
    let h := header (under w) in
    if negb (head w) && negb (status =? 204) && negb (status =? 304) && compressible (h_get "Content-Type" h) &&
       negb (String.eqb (encoding w) "") && String.eqb (h_get "Content-Encoding" h) ""
    then
      let u := map_header (fun h => h_del "Content-Length" (h_set "Content-Encoding" (encoding w) h)) (under w) in
      mkCompressed (WriteHeader status u) (encoding w) (Some (if String.eqb (encoding w) "br" then "br" else "gzip", [])) true (head w)
    else mkCompressed (WriteHeader status (under w)) (encoding w) (encoder w) true (head w).

Definition c_Write (b : bytes) (w : compressedWriter) : compressedWriter :=
  let w := if wrote w then w else c_WriteHeader 200 w in
  if head w then w
  else match encoder w with
       | Some (e, chunks) => mkCompressed (under w) (encoding w) (Some (e, chunks ++ [b])) (wrote w) (head w)
       | None => mkCompressed (Write (head w) b (under w)) (encoding w) (encoder w) (wrote w) (head w)
       end.

Definition compressed_op (w : compressedWriter) (o : op) : compressedWriter :=
  let on f := mkCompressed (map_header f (under w)) (encoding w) (encoder w) (wrote w) (head w) in
  match o with
  | OSet k v => on (h_set k v)
  | OAdd k v => on (h_add k v)
  | ODel k => on (h_del k)
  | OWriteHeader status => c_WriteHeader status w
  | OWrite b => c_Write b w
  end.

Section http.
Context {EN : Encoders}.

(** The deferred [Close]: the encoder's output follows the header. *)
Definition close (w : compressedWriter) : writer :=
  match encoder w with Some (e, chunks) => Write (head w) (encode e chunks) (under w) | None => under w end.

(** * The middleware *)

(** A request as the middleware reads it. *)
Record http_request := mkHttp { Method : string; URLPath : string; AcceptEncoding : list string; IfNoneMatch : string }.
Definition is_head (r : http_request) : bool := String.eqb (Method r) "HEAD".

(** What a handler does, and whether it ends in a panic. *)
Definition handler : Type := list op * bool.

Context (problem_text : Problem_ -> bytes).
Definition write_problem (p : Problem_) : list op :=
  [OSet "Content-Type" "application/problem+json"; OSet "Cache-Control" "no-store"; OWriteHeader (Status p); OWrite (problem_text p)].

Definition exempt (path : string) : bool := has_prefix path "/api/v1/auth/" || has_prefix path "/assets/".

(** The writer after the wrapped handler, and whether it panicked. *)
Definition compression (r : http_request) (next : handler) (w : writer) : writer * bool :=
  if exempt (URLPath r) then (run_plain (is_head r) w next.1, next.2)
  else
    let w := map_header (h_add "Vary" "Accept-Encoding") w in
    let '(encoding, ok) := encodingChoice (str_join "," (AcceptEncoding r)) in
    if negb ok then (run_plain (is_head r) w (write_problem NotAcceptable), false)
    else (close (fold_left compressed_op next.1 (mkCompressed w encoding None false (is_head r))), next.2).

Definition http_error : list op :=
  [ODel "Content-Length"; OSet "Content-Type" "text/plain; charset=utf-8"; OSet "X-Content-Type-Options" "nosniff"; OWriteHeader 503;
   OWrite (chars "Service unavailable pending operator recovery verification." ++ [newline])].

(** [requestLog] around [compression]: nothing is served unless the lifecycle check
    passes, and a panic before anything was sent is a problem. *)
Definition serve (lifecycle_ok : bool) (r : http_request) (next : handler) : Z * headers * bytes :=
  if negb lifecycle_ok then answer_of (run_plain (is_head r) new_writer http_error)
  else
    let '(w, panicked) := compression r next new_writer in
    answer_of (if panicked && match sent w with None => true | Some _ => false end
            then run_plain (is_head r) w (write_problem InternalError) else w).

(** What a client makes of an answer: the body, decoded as its header says. *)
Definition read_body (answer : Z * headers * bytes) : option bytes :=
  let e := h_get "Content-Encoding" answer.1.2 in
  if String.eqb e "" then Some answer.2 else decode e answer.2.

(** * Conditional answers *)

Definition trim_weak (s : string) : string := if has_prefix s "W/" then str_drop 2 s else s.
Definition etagMatches (header_ etag : string) : bool :=
  existsb (fun value => let value := trim_space value in String.eqb value "*" || String.eqb (trim_weak value) (trim_weak etag))
    (str_split ","%char header_).

Context {CR : Crypto}.

Definition dq : string := String (Ascii.ascii_of_nat 34) "".
Definition body_etag (body : bytes) : string := "W/" +:+ dq +:+ hex (sha256 body) +:+ dq.

(** [writeCachedJSON], and the end of [projectConfig]. *)
Definition writeCachedJSON (r : http_request) (body : bytes) : list op :=
  let etag := body_etag body in
  [OSet "ETag" etag; OSet "Cache-Control" "private, no-cache"; OSet "Content-Type" "application/json"] ++
  (if etagMatches (IfNoneMatch r) etag then [OWriteHeader 304] else [OWrite (body ++ [newline])]).

(** * Assets *)

(** [strings.Contains(path, "..")] *)
Fixpoint two_dots (l : list ascii) : bool :=
  match l with
  | a :: ((b :: _) as rest) => (Ascii.eqb a "."%char && Ascii.eqb b "."%char) || two_dots rest
  | _ => false
  end.

Definition not_found : list op :=
  [ODel "Content-Length"; OSet "Content-Type" "text/plain; charset=utf-8"; OSet "X-Content-Type-Options" "nosniff"; OWriteHeader 404;
   OWrite (chars "404 page not found" ++ [newline])].

(** [files] is the embedded directory the build writes. *)
Definition asset (files : string -> option bytes) (r : http_request) : list op :=
  let path := "dist" +:+ URLPath r in
  if two_dots (chars path) || negb (has_suffix path ".js" || has_suffix path ".css") then not_found
  else match files path with
  | None => not_found
  | Some content =>
      [OSet "Content-Type" (if has_suffix path ".js" then "text/javascript; charset=utf-8" else "text/css; charset=utf-8");
       OSet "Cache-Control" "public, max-age=31536000, immutable"; OSet "Vary" "Accept-Encoding"; OSet "X-Content-Type-Options" "nosniff"] ++
      let '(coding, ok) := encodingChoice (match AcceptEncoding r with v :: _ => v | [] => "" end) in
      if negb ok then [OWriteHeader 406]
      else match (if String.eqb coding "" then None else files (path +:+ (if String.eqb coding "gzip" then ".gz" else ".br"))) with
           | Some compressed => [OSet "Content-Encoding" coding; OWrite compressed]
           | None => [OWrite content]
           end
  end.

End http.
End Http.
