(* ===== verification/HttpProps.v ===== *)
(** What the HTTP layer promises: the encoding chosen is acceptable and preferred,
    and compression does not change what a client reads. *)
From S2P Require Import Prelude Utf8 Float Json Journal Problem Http.
From Stdlib Require Import Floats.SpecFloat.
Open Scope Z_scope.
#[local] Set Warnings "-clear-no-such-hyp".

Module HttpProps.
Import Problem Http.

(** * The encoding chosen *)

Definition all_nonneg (values : gmap string float64) : Prop := forall name q, values !! name = Some q -> nonneg q = true.

Lemma parameter_nonneg quality parameter : nonneg quality = true -> nonneg (parameter_quality quality parameter) = true.
Proof.
  intros Hq. unfold parameter_quality. destruct (cut_chars _ _) as [key [value|]]; [|done]. destruct (_ || _); [|done].
  destruct (parse_float _) as [q|]; [|done]. destruct (_ || _) eqn:E; [done|].
  rewrite !orb_false_iff in E. destruct E as [[E1 E2] E3]. destruct q as [|[]| |[]]; done.
Qed.

Lemma parameters_nonneg parameters : forall quality, nonneg quality = true -> nonneg (fold_left parameter_quality parameters quality) = true.
Proof. induction parameters as [|p l IH]; intros quality Hq; [done|]. cbn [fold_left]. by apply IH, parameter_nonneg. Qed.

Lemma qualities_nonneg accept : all_nonneg (qualities accept).
Proof.
  unfold qualities. enough (H : forall parts values, all_nonneg values -> all_nonneg (fold_left add_quality parts values)) by (by apply H).
  induction parts as [|part parts IH]; intros values Hv; [done|]. cbn [fold_left]. apply IH. unfold add_quality.
  destruct (str_split _ part) as [|piece parameters]; [done|]. destruct (String.eqb _ _); [done|].
  intros name q. rewrite lookup_insert_Some. intros [[_ <-]|[_ Hl]]; [by apply parameters_nonneg|by apply (Hv name)].
Qed.

Lemma quality_nonneg values name : all_nonneg values -> nonneg (quality_of values name) = true.
Proof.
  intros Hv. unfold quality_of. destruct (values !! name) eqn:E; [by apply (Hv name)|]. destruct (values !! "*") eqn:E2; [by apply (Hv "*")|done].
Qed.

(** What a header says of a coding: whether it may be used, and how much it is
    wanted. An identity that is not named is acceptable unless [*] excludes it, and
    is wanted least. *)
Definition accepts (values : gmap string float64) (name : string) : bool :=
  if String.eqb name "identity" then
    match values !! "identity" with
    | Some q => f_lt f_zero q
    | None => match values !! "*" with Some q => f_lt f_zero q | None => true end
    end
  else f_lt f_zero (quality_of values name).
Definition preference (values : gmap string float64) (name : string) : float64 :=
  if String.eqb name "identity" then match values !! "identity" with Some q => q | None => f_zero end else quality_of values name.

Definition codings : list string := ["br"; "gzip"; "identity"].
Definition coding_name (e : string) : string := if String.eqb e "" then "identity" else e.

Lemma zero_or_positive q : nonneg q = true -> f_eq q f_zero = negb (f_lt f_zero q).
Proof. by destruct q as [[]| | |[]]. Qed.
Lemma nothing_below_zero q : nonneg q = true -> f_lt q f_zero = false.
Proof. by destruct q as [[]| | |[]]. Qed.
Lemma f_lt_asym a b : nonneg a = true -> nonneg b = true -> f_lt a b = true -> f_lt b a = false.
Proof. intros Ha Hb H. destruct (f_lt b a) eqn:E; [|done]. by rewrite <- (f_lt_irrefl a), (f_lt_trans a b a). Qed.

(** The better of [br] and [gzip], if either is wanted. *)
Lemma best_spec values best q (qb := quality_of values "br") (qg := quality_of values "gzip") :
  nonneg qb = true -> nonneg qg = true -> best_of values = (best, q) ->
  nonneg q = true /\ f_lt q qb = false /\ f_lt q qg = false /\
  (best = "br" /\ q = qb /\ f_lt f_zero qb = true \/ best = "gzip" /\ q = qg /\ f_lt f_zero qg = true \/
   best = "" /\ q = f_zero /\ f_lt f_zero qb = false /\ f_lt f_zero qg = false).
Proof.
  unfold best_of. cbn [fold_left snd]. cbv zeta. fold qb qg. clearbody qb qg. intros Hb Hg.
  destruct (f_lt f_zero qb) eqn:E1; cbn [snd].
  - destruct (f_lt qb qg) eqn:E2; intros E; injection E as <- <-.
    + assert (f_lt f_zero qg = true) by (by apply (f_lt_trans f_zero qb qg)). split_and!; try done; [by apply f_lt_asym|apply f_lt_irrefl|tauto].
    + split_and!; try done; [apply f_lt_irrefl|tauto].
  - destruct (f_lt f_zero qg) eqn:E2; intros E; injection E as <- <-.
    + split_and!; try done; [|apply f_lt_irrefl|tauto]. destruct (f_lt qg qb) eqn:E3; [|done]. by rewrite (f_lt_trans f_zero qg qb) in E1.
    + split_and!; try done. tauto.
Qed.

(** The encoding of an answer is one the request accepts, none the request wants
    more is passed over, and an answer is refused exactly when the request accepts
    no encoding the server has. *)
Theorem encodingChoice_spec accept (values := qualities accept) (e := (encodingChoice accept).1) (ok := (encodingChoice accept).2) :
  ok = existsb (accepts values) codings /\
  (ok = true -> coding_name e ∈ codings /\ accepts values (coding_name e) = true /\
    forall other, other ∈ codings -> f_lt (preference values (coding_name e)) (preference values other) = false).
Proof.
  pose proof (qualities_nonneg accept) as Hv. fold values in Hv.
  pose proof (quality_nonneg values "br" Hv) as Hb. pose proof (quality_nonneg values "gzip" Hv) as Hg.
  unfold ok, e, encodingChoice. fold values. destruct (best_of values) as [best q] eqn:Ebest.
  destruct (best_spec values best q Hb Hg Ebest) as (Hq & Hqb & Hqg & Hcase).
  unfold codings. cbn [existsb]. unfold accepts, preference.
  cbn [String.eqb Ascii.eqb Bool.eqb]. set (qb := quality_of values "br") in *. set (qg := quality_of values "gzip") in *.
  assert (Hall : forall (P : string -> Prop), P "br" -> P "gzip" -> P "identity" -> forall other, other ∈ ["br"; "gzip"; "identity"] -> P other).
  { intros P H1 H2 H3 other Ho. repeat (apply elem_of_cons in Ho as [->|Ho]; [done|]). by apply elem_of_nil in Ho. }
  assert (Hz : f_lt q f_zero = false) by (by apply nothing_below_zero).
  assert (Hname : best <> "" -> coding_name best = best /\ (best = "br" \/ best = "gzip") /\ f_lt f_zero q = true /\
                  (f_lt f_zero qb = true \/ f_lt f_zero qg = true)).
  { intros Hne. destruct Hcase as [(-> & -> & ->)|[(-> & -> & ->)|(-> & _)]]; split_and!; tauto || done. }
  destruct (values !! "identity") as [qi|] eqn:Ei.
  - pose proof (Hv _ _ Ei) as Hi. destruct (f_lt q qi) eqn:Eq; cbn [fst snd coding_name String.eqb].
    + assert (Hpos : f_lt f_zero qi = true).
      { destruct (f_lt f_zero qi) eqn:E; [done|]. by rewrite (f_lt_le_trans q f_zero qi) in Eq. }
      rewrite Hpos, !orb_true_r. split; [done|]. intros _. split; [set_solver|]. split; [done|].
      apply Hall; cbn [String.eqb Ascii.eqb Bool.eqb]; [| |apply f_lt_irrefl]; (eapply (f_lt_le_trans _ q); [done..|by apply f_lt_asym|done]).
    + destruct (String.eqb_spec best "") as [->|Hne]; cbn [negb fst snd].
      * destruct Hcase as [(? & _)|[(? & _)|(_ & -> & -> & ->)]]; [done..|]. rewrite Eq. split; [done|]. discriminate.
      * destruct (Hname Hne) as (-> & Hor & Hqpos & Hsome). split; [destruct Hsome as [-> | ->]; by rewrite ?orb_true_r|]. intros _.
        destruct Hor as [-> | ->]; destruct Hcase as [(? & Eqq & _)|[(? & Eqq & _)|(? & _)]]; try done; cbn [String.eqb Ascii.eqb Bool.eqb];
          fold qb qg; rewrite <- Eqq; (split; [set_solver|]); (split; [done|]); apply Hall; cbn [String.eqb Ascii.eqb Bool.eqb]; done.
  - destruct (String.eqb_spec best "") as [->|Hne]; cbn [negb fst snd].
    + destruct Hcase as [(? & _)|[(? & _)|(_ & -> & Eb & Eg)]]; [done..|]. rewrite Eb, Eg. cbn [orb].
      destruct (values !! "*") as [qs|] eqn:Es; cbn [fst snd].
      * rewrite (zero_or_positive qs (Hv _ _ Es)), orb_false_r. destruct (f_lt f_zero qs) eqn:Eqs; cbn [negb fst snd]; split; try done.
        intros _. split; [set_solver|]. split; [by rewrite ?Eqs|]. apply Hall; cbn [String.eqb Ascii.eqb Bool.eqb]; [done..|apply f_lt_irrefl].
      * split; [done|]. intros _. split; [set_solver|]. split; [done|]. apply Hall; cbn [String.eqb Ascii.eqb Bool.eqb]; [done..|apply f_lt_irrefl].
    + destruct (Hname Hne) as (-> & Hor & Hqpos & Hsome). split; [destruct Hsome as [-> | ->]; by rewrite ?orb_true_r|]. intros _.
      destruct Hor as [-> | ->]; destruct Hcase as [(? & Eqq & _)|[(? & Eqq & _)|(? & _)]]; try done; cbn [String.eqb Ascii.eqb Bool.eqb];
        fold qb qg; rewrite <- Eqq; (split; [set_solver|]); (split; [done|]); apply Hall; cbn [String.eqb Ascii.eqb Bool.eqb]; done.
Qed.
(** * Compression is transparent *)

(** Headers that differ at most under some names. *)
Definition agree (names : list string) (h h' : headers) : Prop := forall k, (k ∉ names) -> h_values k h = h_values k h'.

Lemma h_values_set k k' v h : h_values k (h_set k' v h) = if String.eqb k k' then [v] else h_values k h.
Proof. unfold h_values, h_set. rewrite obj_get_set. by destruct (String.eqb k k'). Qed.
Lemma h_values_add k k' v h : h_values k (h_add k' v h) = if String.eqb k k' then h_values k' h ++ [v] else h_values k h.
Proof. unfold h_add. unfold h_values at 1. rewrite obj_get_set. by destruct (String.eqb k k'). Qed.
Lemma h_values_del k k' h : h_values k (h_del k' h) = if String.eqb k k' then [] else h_values k h.
Proof. unfold h_values, h_del. rewrite obj_get_del. by destruct (String.eqb k k'). Qed.

Lemma agree_set names k v h h' : agree names h h' -> agree names (h_set k v h) (h_set k v h').
Proof. intros H j Hj. rewrite !h_values_set. destruct (String.eqb j k); [done|by apply H]. Qed.
Lemma agree_add names k v h h' : agree names h h' -> agree names (h_add k v h) (h_add k v h').
Proof. intros H j Hj. rewrite !h_values_add. destruct (String.eqb_spec j k) as [->|]; [by rewrite (H k Hj)|by apply H]. Qed.
Lemma agree_del names k h h' : agree names h h' -> agree names (h_del k h) (h_del k h').
Proof. intros H j Hj. rewrite !h_values_del. destruct (String.eqb j k); [done|by apply H]. Qed.
#[local] Hint Resolve agree_set agree_add agree_del : core.

Lemma agree_get names k h h' : (k ∉ names) -> agree names h h' -> h_get k h = h_get k h'.
Proof. intros Hk H. unfold h_get. by rewrite (H k Hk). Qed.

(** A writer that compresses against one that does not, after the same operations. *)
Inductive sim (hd : bool) (enc : string) : writer -> compressedWriter -> Prop :=
  | SimOpen h h' :
      agree ["Vary"] h h' -> sim hd enc (mkWriter h None []) (mkCompressed (mkWriter h' None []) enc None false hd)
  | SimPlain h h' status hs hs' body :
      agree ["Vary"] hs hs' ->
      sim hd enc (mkWriter h (Some (status, hs)) body) (mkCompressed (mkWriter h' (Some (status, hs')) body) enc None true hd)
  | SimEncoded h h' status hs hs' chunks :
      agree ["Vary"; "Content-Encoding"; "Content-Length"] hs hs' -> h_get "Content-Encoding" hs = "" ->
      h_values "Content-Encoding" hs' = [enc] -> bodiless hd status = false -> enc = "br" \/ enc = "gzip" ->
      sim hd enc (mkWriter h (Some (status, hs)) (concat chunks))
        (mkCompressed (mkWriter h' (Some (status, hs')) []) enc (Some (enc, chunks)) true hd).

Lemma sim_header hd enc status pw cw :
  enc ∈ [""; "br"; "gzip"] -> sim hd enc pw cw -> sim hd enc (WriteHeader status pw) (c_WriteHeader status cw).
Proof.
  intros Henc H. unfold c_WriteHeader. unfold WriteHeader. destruct (Z.ltb_spec status 200) as [Hst|Hst];
    [destruct H; cbn [under encoding encoder wrote head]; by constructor|].
  destruct H as [h h' Ha|h h' st hs hs' body Ha|h h' st hs hs' chunks Ha Hce Hv Hb He]; cbn [sent wrote under header head encoding encoder sent_body].
  2,3: by constructor.
  destruct (_ && _) eqn:E; [|by constructor].
  rewrite !andb_true_iff, !negb_true_iff in E. destruct E as [[[[[Hh H204] H304] _] Hne] Hce]. apply String.eqb_eq in Hce. apply String.eqb_neq in Hne.
  assert (He : enc = "br" \/ enc = "gzip") by (repeat (apply elem_of_cons in Henc as [->|Henc]; [tauto|]); by apply elem_of_nil in Henc).
  replace (if String.eqb enc "br" then "br" else "gzip") with enc by (destruct He as [-> | ->]; done).
  cbn [map_header sent header sent_body]. change (@nil ascii) with (concat (@nil (list ascii))) at 1. constructor.
  - intros k Hk. rewrite h_values_del, h_values_set. rewrite (proj2 (String.eqb_neq k "Content-Length")) by set_solver.
    rewrite (proj2 (String.eqb_neq k "Content-Encoding")) by set_solver. apply Ha. set_solver.
  - etransitivity; [|exact Hce]. apply (agree_get ["Vary"]); [set_solver|done].
  - by rewrite h_values_del, h_values_set.
  - unfold bodiless. by rewrite Hh, H204, H304.
  - done.
Qed.

Lemma sim_write hd enc b pw cw : enc ∈ [""; "br"; "gzip"] -> sim hd enc pw cw -> sim hd enc (Write hd b pw) (c_Write b cw).
Proof.
  intros Henc H.
  assert (Hopen : exists pw' cw', sim hd enc pw' cw' /\ wrote cw' = true /\ sent pw' <> None /\ Write hd b pw = Write hd b pw' /\ c_Write b cw = c_Write b cw').
  { pose proof (sim_header hd enc 200 pw cw Henc H) as H2. destruct H as [h h' Ha| |]; [|do 2 eexists; split; [by constructor|done]..].
    exists (WriteHeader 200 (mkWriter h None [])), (c_WriteHeader 200 (mkCompressed (mkWriter h' None []) enc None false hd)).
    split; [done|]. split; [|split; [done|split; [done|]]].
    - unfold c_WriteHeader. cbn [wrote Z.ltb Z.compare Pos.compare Pos.compare_cont]. by destruct (_ && _).
    - unfold c_Write. cbn [wrote]. unfold c_WriteHeader. cbn [wrote Z.ltb Z.compare Pos.compare Pos.compare_cont]. by destruct (_ && _). }
  destruct Hopen as (pw' & cw' & Hs & Hw & Hne & -> & ->). unfold Write, c_Write. rewrite Hw.
  destruct Hs as [|h h' st hs hs' body Ha|h h' st hs hs' chunks Ha Hce Hv Hb He]; [done| |]; cbn [sent header sent_body head encoder under encoding wrote].
  - destruct hd; [by apply SimPlain|].
    replace (Write false b (mkWriter h' (Some (st, hs')) body)) with (if bodiless false st then mkWriter h' (Some (st, hs')) body else mkWriter h' (Some (st, hs')) (body ++ b))
      by done. destruct (bodiless false st); by apply SimPlain.
  - assert (hd = false) as -> by (by destruct hd). rewrite Hb. replace (concat chunks ++ b) with (concat (chunks ++ [b])); [by constructor|].
    by rewrite concat_app; cbn [concat]; rewrite app_nil_r.
Qed.

Lemma sim_op hd enc pw cw o : enc ∈ [""; "br"; "gzip"] -> sim hd enc pw cw -> sim hd enc (writer_op hd pw o) (compressed_op cw o).
Proof.
  intros Henc H. destruct o as [k v|k v|k|status|b]; cbn [writer_op compressed_op]; [| | |by apply sim_header|by apply sim_write];
    destruct H; unfold map_header; cbn [header sent sent_body under encoding encoder wrote head]; constructor; eauto.
Qed.

Lemma sim_run hd enc ops : enc ∈ [""; "br"; "gzip"] -> forall pw cw, sim hd enc pw cw -> sim hd enc (run_plain hd pw ops) (fold_left compressed_op ops cw).
Proof. intros Henc. unfold run_plain. induction ops as [|o ops IH]; intros pw cw H; [done|]. cbn [fold_left]. by apply IH, sim_op. Qed.

Lemma choice_codes accept : (encodingChoice accept).1 ∈ [""; "br"; "gzip"].
Proof.
  unfold encodingChoice. destruct (best_of _) as [best q] eqn:E.
  assert (Hb : best ∈ [""; "br"; "gzip"]).
  { unfold best_of in E. cbn [fold_left] in E. cbv zeta in E. repeat case_match; injection E as <- <-; set_solver. }
  repeat case_match; cbn [fst]; set_solver.
Qed.

Section transparent.
Context {EN : Encoders} (problem_text : Problem_ -> bytes).

Lemma sim_close hd enc pw cw :
  sim hd enc pw cw ->
  (answer_of (close cw)).1.1 = (answer_of pw).1.1 /\ read_body (answer_of (close cw)) = read_body (answer_of pw) /\
  agree ["Vary"; "Content-Encoding"; "Content-Length"] (answer_of pw).1.2 (answer_of (close cw)).1.2 /\
  (h_get "Content-Encoding" (answer_of (close cw)).1.2 = h_get "Content-Encoding" (answer_of pw).1.2 \/
   h_get "Content-Encoding" (answer_of (close cw)).1.2 = enc).
Proof.
  assert (Hw : forall h h' : headers, agree ["Vary"] h h' -> agree ["Vary"; "Content-Encoding"; "Content-Length"] h h' /\
                h_get "Content-Encoding" h' = h_get "Content-Encoding" h).
  { intros h h' Ha. split; [intros k Hk; apply Ha; set_solver|]. symmetry. apply (agree_get ["Vary"]); [set_solver|done]. }
  destruct 1 as [h h' Ha|h h' st hs hs' body Ha|h h' st hs hs' chunks Ha Hce Hv Hb He]; unfold close; cbn [encoder under head].
  1,2: destruct (Hw _ _ Ha) as [H1 H2]; unfold answer_of, read_body; cbn [sent fst snd header sent_body]; rewrite H2; auto.
  unfold Write. cbn [sent]. rewrite Hb. unfold answer_of, read_body. cbn [sent header sent_body fst snd app].
  assert (Hg : h_get "Content-Encoding" hs' = enc) by (unfold h_get; by rewrite Hv). rewrite Hg, Hce. cbn [String.eqb].
  split; [done|]. split; [|split; [done|by right]]. destruct (String.eqb_spec enc "") as [E|_]; [destruct He; congruence|]. by apply decode_encode.
Qed.

(** C39. Compression is transparent: unless a request accepts no encoding, an answer
    has the status the handler sent and the body a client reads is the one the
    handler wrote, whatever mixture of header changes, status and writes produced
    it (HEAD requests and answers without a body included); the headers differ only
    in [Vary], [Content-Length] and [Content-Encoding], which is the handler's own
    or the encoding chosen. *)
Theorem compression_transparent r ops
    (plain := answer_of (run_plain (is_head r) new_writer ops)) (answer := serve problem_text true r (ops, false)) :
  exempt (URLPath r) || (encodingChoice (str_join "," (AcceptEncoding r))).2 = true ->
  answer.1.1 = plain.1.1 /\ read_body answer = read_body plain /\
  agree ["Vary"; "Content-Encoding"; "Content-Length"] plain.1.2 answer.1.2 /\
  (h_get "Content-Encoding" answer.1.2 = h_get "Content-Encoding" plain.1.2 \/
   h_get "Content-Encoding" answer.1.2 = (encodingChoice (str_join "," (AcceptEncoding r))).1).
Proof.
  unfold answer, serve, compression, plain. cbn [negb fst snd andb]. destruct (exempt (URLPath r)); [intros _; cbn [andb]; split_and!; [done..|by left]|].
  pose proof (choice_codes (str_join "," (AcceptEncoding r))) as Hc. destruct (encodingChoice _) as [e ok]. cbn [fst snd orb] in *.
  intros ->. cbn [negb andb]. apply (sim_close (is_head r)). apply sim_run; [done|]. apply SimOpen. intros k Hk. rewrite h_values_add.
  by rewrite (proj2 (String.eqb_neq k "Vary")) by set_solver.
Qed.

End transparent.

(** * Runs *)

(** Encoders that mark their output and keep the chunks apart by nothing. *)
#[local] Instance marked : Encoders.
Proof.
  refine {| encode e chunks := chars e ++ concat chunks; decode e b := Some (drop (String.length e) b) |}.
  intros e chunks _. by rewrite <- length_chars, drop_app_length.
Defined.

Definition page_request (m accept : string) : http_request := mkHttp m "/api/v1/items" [accept] "".
Definition page_ops : list op :=
  [OSet "Content-Type" "application/json"; OSet "Content-Length" "7"; OWriteHeader 200; OWrite (chars "{a:"); OSet "X-Late" "1"; OWrite (chars " 42}")].

Example serve_ex :
  (fun p => serve (fun _ => []) true p (page_ops, false)) <$> [page_request "GET" "gzip;q=0.5"; page_request "HEAD" "br"] =
  [(200, [("Vary", ["Accept-Encoding"]); ("Content-Type", ["application/json"]); ("Content-Encoding", ["gzip"])], chars "gzip{a: 42}");
   (200, [("Vary", ["Accept-Encoding"]); ("Content-Type", ["application/json"]); ("Content-Length", ["7"])], [])].
Proof. vm_compute. reflexivity. Qed.

Lemma compression_transparent_witness :
  let answer := serve (fun _ => []) true (page_request "GET" "br, gzip") (page_ops, false) in
  h_get "Content-Encoding" answer.1.2 = "br" /\ read_body answer = Some (chars "{a: 42}").
Proof.
  pose proof (compression_transparent (fun _ => []) (page_request "GET" "br, gzip") page_ops ltac:(vm_compute; reflexivity)) as (_ & H & _ & Hce).
  split; [destruct Hce as [Hce|Hce]; [discriminate Hce|rewrite Hce; vm_compute; reflexivity]|]. etransitivity; [exact H|]. vm_compute. reflexivity.
Defined.

End HttpProps.
