(* ===== verification/Projects.v ===== *)
(** Projects and workspace settings: [internal/api/projects.go], [settings.go] and
    the configuration a new project starts with, [internal/store/seed/install.go]
    with [config.sql]. *)
From S2P Require Import Prelude Utf8 Uuid Float Json Journal Db Problem Site Workflow Cursor.
Open Scope Z_scope.

Module Projects.
Import Db Problem Site Workflow.

(** * The configuration of a new project *)

Definition default_statuses : list workflowStatus :=
  [Workflow.mkStatus "todo" "To Do" "open"; Workflow.mkStatus "doing" "In Progress" "active"; Workflow.mkStatus "review" "In Review" "active";
   Workflow.mkStatus "done" "Done" "done"; Workflow.mkStatus "dropped" "Dropped" "cancelled"].
(** Key, name and level; none is an idea. *)
Definition default_types : list (string * string * Z) :=
  [("initiative", "Initiative", 3); ("epic", "Epic", 2); ("story", "Story", 1); ("bug", "Bug", 1)].
Definition default_fields : list (string * (string * json)) :=
  [("impact", ("number", JArr [])); ("component", ("select", JArr [JStr "api"; JStr "web"; JStr "infra"]))].
Definition default_orders : list (string * Z) := [("todo", 1); ("doing", 2); ("review", 3); ("done", 4); ("dropped", 5)].
Definition default_arcs : list (string * string * list string) :=
  [("todo", "doing", ["assignee"]); ("doing", "review", []); ("review", "done", ["assignee"])].

Definition set_types (d : Db) types names fields (s : Site) : Site :=
  mkSite (mkDb (seq_counter d) (items d) (rollups d) (links d) (comments d) (events d) (projects d) (statuses d) types (project_configs d) (users d))
    (s_workspace s) (s_project s) (s_account s) (s_membership s) (s_status_name s) names fields
    (s_config_status s) (s_config_type s) (s_config_transition s).

(** INSERT INTO project_config(project_id,version) VALUES($1,1) *)
Definition insert_first_config (p : uuid) (s : Site) : result dberr Site :=
  let d := s_db s in
  guard* negb (bool_decide ((p, 1) ∈ project_configs d)) else unique_violation in
  Ok (set_db (mkDb (seq_counter d) (items d) (rollups d) (links d) (comments d) (events d) (projects d) (statuses d)
                (item_types d) ({[(p, 1)]} ∪ project_configs d) (users d)) s).

(** INSERT INTO item_type *)
Definition insert_type (id p : uuid) (t : string * string * Z) (s : Site) : result dberr Site :=
  let '(key, name, level) := t in
  guard* negb (bool_decide (is_Some (item_types (s_db s) !! id))) else unique_violation in
  Ok (set_types (s_db s) (<[id := mkItemType p key level false]> (item_types (s_db s))) (<[id := name]> (s_type_name s)) (s_field_def s) s).

(** INSERT INTO field_def *)
Definition insert_field (p : uuid) (s : Site) (f : string * (string * json)) : result dberr Site :=
  guard* negb (bool_decide (is_Some (s_field_def s !! (p, f.1)))) else unique_violation in
  guard* mem_str f.2.1 ["text"; "number"; "date"; "select"; "multiselect"; "user"; "url"; "bool"] else check_violation in
  Ok (set_types (s_db s) (item_types (s_db s)) (s_type_name s) (<[(p, f.1) := f.2]> (s_field_def s)) s).

(** [JOIN status s ON s.project_id = $1 AND s.key = ...] *)
Definition status_ids (p : uuid) (ok : string -> bool) (s : Site) : list uuid :=
  (List.filter (fun r : uuid * Db.Status => bool_decide (Db.s_project r.2 = p) && ok (s_key r.2)) (map_to_list (statuses (s_db s)))).*1.
Definition type_ids (p : uuid) (s : Site) : list uuid :=
  (List.filter (fun r : uuid * ItemType => bool_decide (t_project r.2 = p)) (map_to_list (item_types (s_db s)))).*1.

Definition put_order (p : uuid) (v : Z) (s : Site) (ko : string * Z) : result dberr Site :=
  foldM (fun s id => insert_config_status p v id ko.2 s) (status_ids p (String.eqb ko.1) s) s.
Definition put_initial (p : uuid) (v : Z) (s : Site) : result dberr Site :=
  foldM (insert_config_type p v) (list_prod (type_ids p s) (status_ids p (String.eqb "todo") s)) s.
(** The joins of an INSERT ... SELECT read the statuses as they are before it. *)
Definition put_arc (p : uuid) (v : Z) (s : Site) (a : string * string * list string) : result dberr Site :=
  let '(from, to, req) := a in
  foldM (fun s (ft : uuid * uuid) => insert_transition p v ft.1 ft.2 req s)
    (list_prod (status_ids p (String.eqb from) s) (status_ids p (String.eqb to) s)) s.
Definition put_dropped (p : uuid) (v : Z) (s : Site) : result dberr Site :=
  foldM (fun s (ft : uuid * uuid) => insert_transition p v ft.1 ft.2 [] s)
    (list_prod (status_ids p (fun k => negb (String.eqb k "dropped")) s) (status_ids p (String.eqb "dropped") s)) s.

(** [config.sql] for version 1; [fresh] and [fresh_type] are the identifiers the
    database gives to the new statuses and types. *)
Definition configSQL (fresh fresh_type : string -> uuid) (p : uuid) (s : Site) : result dberr Site :=
  let* s := foldM (fun s st => insert_status (fresh (ws_Key st)) p st s) default_statuses s in
  let* s := foldM (fun s t => insert_type (fresh_type t.1.1) p t s) default_types s in
  let* s := foldM (insert_field p) default_fields s in
  let* s := foldM (put_order p 1) default_orders s in
  let* s := put_initial p 1 s in
  let* s := foldM (put_arc p 1) default_arcs s in
  put_dropped p 1 s.

Definition InstallConfig (fresh fresh_type : string -> uuid) (p : uuid) (s : Site) : result dberr Site :=
  let* s := insert_first_config p s in
  configSQL fresh fresh_type p s.

(** * Documents *)

(** [Project]; the two timestamps are not kept. *)
Definition owner_json (s : Site) (o : option uuid) : json := assignee_doc s o.
Definition project_json (s : Site) (p : uuid) (prefix : string) (row : project_row) : json :=
  JObj [("id", json_uuid p); ("key_prefix", JStr prefix); ("name", JStr (pj_name row)); ("kind", JStr (pj_kind row));
        ("owner", owner_json s (pj_owner row)); ("version", JInt (pj_version row))].

Definition set_project (d : Db) pj (s : Site) : Site :=
  mkSite d (s_workspace s) pj (s_account s) (s_membership s) (s_status_name s) (s_type_name s) (s_field_def s)
    (s_config_status s) (s_config_type s) (s_config_transition s).

Definition upper_char_ok (c : ascii) : bool := byte_in 65 90 c.
(** [^[A-Z][A-Z0-9]{1,9}$] *)
Definition prefix_ok (k : string) : bool :=
  match chars k with
  | c :: l => upper_char_ok c && forallb (fun c => upper_char_ok c || byte_in 48 57 c) l && (1 <=? length l)%nat && (length l <=? 9)%nat
  | [] => false
  end.

Definition ReservedPrefixes : list string :=
  ["API"; "LOGIN"; "BOARD"; "VIEWS"; "SETTINGS"; "ADMIN"; "ROADMAP"; "PROJECTS"; "ASSETS"; "PRIVACY"; "COPYRIGHT"; "THIRD-PARTY"].

Definition name_bad (name : string) : bool := String.eqb (trim_space name) "" || (200 <? rune_count name)%nat.
Definition kind_ok (kind : string) : bool := mem_str kind ["delivery"; "discovery"; "portfolio"].

Record projectInput := mkProjectInput { in_KeyPrefix : string; in_Name : string; in_Kind : string; in_OwnerID : option string }.

Section projects.
Context `{UuidParse}.

(** The check on a named owner: the identifier must be a uuid, and its account an
    active member. *)
Definition owner_of (ws : uuid) (owner : option string) (s : Site) : result Problem_ (option uuid) :=
  match owner with
  | None => Ok None
  | Some id =>
      match uuid_parse id with
      | None => Err (databaseProblem (Some (PgError "22P02")))
      | Some u => if active_member ws u s then Ok (Some u) else Err (requestProblem "owner_id must identify an active member of this workspace.")
      end
  end.

(** UNIQUE (workspace_id, key_prefix) *)
Definition prefix_taken (ws : uuid) (prefix : string) (d : Db) : bool :=
  existsb (fun r : uuid * Project => bool_decide (p_workspace r.2 = ws) && String.eqb (p_key_prefix r.2) prefix) (map_to_list (projects d)).

Definition insert_project (id ws : uuid) (inp : projectInput) (owner : option uuid) (s : Site) : result dberr Site :=
  let d := s_db s in
  guard* storable (in_KeyPrefix inp) && storable (in_Name inp) && storable (in_Kind inp) else bad_text in
  guard* prefix_ok (in_KeyPrefix inp) && kind_ok (in_Kind inp) else check_violation in
  guard* negb (bool_decide (is_Some (projects d !! id)) || prefix_taken ws (in_KeyPrefix inp) d) else unique_violation in
  guard* bool_decide (is_Some (s_workspace s !! ws)) &&
         match owner with Some u => bool_decide (is_Some (s_membership s !! (ws, u))) | None => true end else fk_violation in
  Ok (set_project (mkDb (seq_counter d) (items d) (rollups d) (links d) (comments d) (events d)
                     (<[id := mkProject ws (in_KeyPrefix inp) 1]> (projects d)) (statuses d) (item_types d) (project_configs d) (users d))
        (<[id := mkProjectRow (in_Name inp) (in_Kind inp) owner false 1]> (s_project s)) s).

Definition create_project (id : uuid) (fresh fresh_type : string -> uuid) (r : api_request) (body : result Problem_ projectInput) (s : Site) :
    result Problem_ Site :=
  let who := rq_who r in
  let* _ := rejectFields r in
  if negb (String.eqb (Role who) "admin") then Err Forbidden
  else
    let* inp := match body with Ok i => Ok i | Err p => Err p end in
    if negb (prefix_ok (in_KeyPrefix inp)) then Err (requestProblem "key_prefix must match ^[A-Z][A-Z0-9]{1,9}$. Choose an uppercase prefix.")
    else if mem_str (in_KeyPrefix inp) ReservedPrefixes
    then Err (requestProblem ("key_prefix is reserved. Avoid: " +:+ str_join ", " ReservedPrefixes +:+ "."))
    else if name_bad (in_Name inp) || negb (kind_ok (in_Kind inp))
    then Err (requestProblem "Provide a name of 1–200 characters and kind delivery, discovery or portfolio.")
    else
      let* owner := owner_of (WorkspaceID who) (in_OwnerID inp) s in
      let* s := db_problem (insert_project id (WorkspaceID who) inp owner s) in
      db_problem (InstallConfig fresh fresh_type id s).

(** POST /projects *)
Definition createProject (id : uuid) (fresh fresh_type : string -> uuid) (r : api_request) (body : result Problem_ projectInput) (s : Site) : reply * Site :=
  match create_project id fresh fresh_type r body s with
  | Err e => (RProblem e, s)
  | Ok s' =>
      match projects (s_db s') !! id, s_project s' !! id with
      | Some p, Some row => (RDoc 201 None (Some ("/api/v1/projects/" +:+ p_key_prefix p)) (project_json s' id (p_key_prefix p) row), s')
      | _, _ => (RProblem (databaseProblem (Some NoRows)), s)
      end
  end.

(** A project with its metadata, [projectSelect]. *)
Definition project_named (ws : uuid) (prefix : string) (s : Site) : result dberr (uuid * Project * project_row) :=
  query_row (omap (fun r : uuid * Project =>
      if bool_decide (p_workspace r.2 = ws) && String.eqb (p_key_prefix r.2) prefix
      then match s_project s !! r.1 with Some row => Some (r, row) | None => None end else None)
    (map_to_list (projects (s_db s)))).

(** GET /projects/{key} *)
Definition getProject (r : api_request) (s : Site) : reply :=
  match (let* _ := rejectFields r in db_problem (project_named (WorkspaceID (rq_who r)) (rq_param r) s)) with
  | Err e => RProblem e
  | Ok (id, p, row) => RDoc 200 (Some (pj_version row)) None (project_json s id (p_key_prefix p) row)
  end.

(** * Editing a project *)

(** [strconv.Atoi] of the quoted version. *)
Definition project_version (r : api_request) : result Problem_ Z :=
  let refused := requestProblem "If-Match must contain the quoted current project version." in
  if String.eqb (rq_IfMatch r) "" then Err PreconditionRequired
  else match quoted_text (rq_IfMatch r) with
       | None => Err refused
       | Some t => match parse_int64 t with Some n => if n <? 1 then Err refused else Ok n | None => Err refused end
       end.

(** What a body changes: the name, and the owner if it is present (null clears it). *)
Record projectPatch := mkPatch { pt_name : option string; pt_owner : option (option string) }.

Definition read_patch (m : list (string * json)) : result Problem_ projectPatch :=
  match m with
  | [] => Err (requestProblem "Provide name or owner_id to update.")
  | _ =>
      if negb (forallb (fun k => mem_str k ["name"; "owner_id"]) (obj_keys m)) then Err (requestProblem "Only name and owner_id can be updated.")
      else
        let* name := match obj_get "name" m with
                     | None => Ok None
                     | Some v =>
                         match v with
                         | JStr n => if name_bad n then Err (requestProblem "name must contain 1–200 characters.") else Ok (Some n)
                         | _ => Err (requestProblem "name must contain 1–200 characters.")
                         end
                     end in
        let* owner := match obj_get "owner_id" m with
                      | None => Ok None
                      | Some JNull => Ok (Some None)
                      | Some (JStr o) => if String.eqb o "" then Err (requestProblem "owner_id must be a member ID or null.") else Ok (Some (Some o))
                      | Some _ => Err (requestProblem "owner_id must be a member ID or null.")
                      end in
        Ok (mkPatch name owner)
  end.

Definition submitted_json (pt : projectPatch) : json :=
  JObj (match pt_name pt with Some n => [("name", JStr n)] | None => [] end ++
        match pt_owner pt with Some o => [("owner_id", opt_json JStr o)] | None => [] end).

(** The 409 carries [current_project] and [submitted_project]. *)
Definition project_conflict (current : json) (pt : projectPatch) : Problem_ :=
  mkProblem "urn:sierx:project-conflict" "Conflict" 409
    "This project changed. Compare the current metadata with your edits and retry using its version." (Some current) (Some (submitted_json pt)).

(** UPDATE project SET name, owner_id, version=version+1 *)
Definition patched_row (row : project_row) (name : option string) (owner : option (option uuid)) : project_row :=
  mkProjectRow (match name with Some n => n | None => pj_name row end) (pj_kind row)
    (match owner with Some o => o | None => pj_owner row end) (pj_archived row) (pj_version row + 1).

Definition update_project (r : api_request) (s : Site) : result Problem_ (uuid * Project * project_row * Site) :=
  let who := rq_who r in
  let* _ := rejectFields r in
  if negb (String.eqb (Role who) "admin") then Err Forbidden
  else
    let* expected := project_version r in
    let* m := decode_raw r in
    let* pt := read_patch m in
    let* (id, p, row) := db_problem (project_named (WorkspaceID who) (rq_param r) s) in
    if negb (pj_version row =? expected) then Err (project_conflict (project_json s id (p_key_prefix p) row) pt)
    else
      let* owner := match pt_owner pt with
                    | None => Ok None
                    | Some o => let* u := owner_of (WorkspaceID who) o s in Ok (Some u)
                    end in
      let row' := patched_row row (pt_name pt) owner in
      if negb (match pt_name pt with Some n => storable n | None => true end) then Err (databaseProblem (Some bad_text))
      else if negb (in_int32 (pj_version row')) then Err (databaseProblem (Some (PgError "22003")))
      else Ok (id, p, row', set_project (s_db s) (<[id := row']> (s_project s)) s).

(** PATCH /projects/{key} *)
Definition updateProject (r : api_request) (s : Site) : reply * Site :=
  match update_project r s with
  | Err e => (RProblem e, s)
  | Ok (id, p, row, s') => (RDoc 200 (Some (pj_version row)) None (project_json s' id (p_key_prefix p) row), s')
  end.

(** * Workspace settings *)

Definition settings_json (id : uuid) (w : workspace_row) : json :=
  JObj [("id", json_uuid id); ("slug", JStr (w_slug w)); ("name", JStr (w_name w)); ("version", JInt (w_version w))].

Definition workspaceSettings (r : api_request) (s : Site) : reply :=
  match (let* _ := rejectFields r in
         match s_workspace s !! WorkspaceID (rq_who r) with Some w => Ok w | None => Err (databaseProblem (Some NoRows)) end) with
  | Err e => RProblem e
  | Ok w => RDoc 200 (Some (w_version w)) None (settings_json (WorkspaceID (rq_who r)) w)
  end.

Definition set_workspace ws (s : Site) : Site :=
  mkSite (s_db s) ws (s_project s) (s_account s) (s_membership s) (s_status_name s) (s_type_name s) (s_field_def s)
    (s_config_status s) (s_config_type s) (s_config_transition s).

(** [body] is the decoded name. The 409 carries [current_workspace]. *)
Definition updateWorkspaceSettings (r : api_request) (body : result Problem_ string) (s : Site) : reply * Site :=
  let id := WorkspaceID (rq_who r) in
  match (let* _ := rejectFields r in
         if negb (String.eqb (Role (rq_who r)) "admin") then Err Forbidden
         else
           let* version := expectedVersion r in
           let* name := match body with Ok n => Ok n | Err p => Err p end in
           let name := trim_space name in
           if String.eqb name "" || (200 <? rune_count name)%nat then Err (requestProblem "Workspace name must contain 1–200 characters.")
           else match s_workspace s !! id with
           | None => Err (databaseProblem (Some NoRows))
           | Some w =>
               if negb (w_version w =? version)
               then Err (mkProblem "about:blank" "Conflict" 409 "Workspace settings changed. Compare the latest name before applying your draft." (Some (settings_json id w)) None)
               else if negb (storable name) then Err (databaseProblem (Some bad_text))
               else if negb (in_int32 (w_version w + 1)) then Err (databaseProblem (Some (PgError "22003")))
               else Ok (mkWorkspaceRow (w_slug w) name (w_version w + 1) (w_origin w))
           end) with
  | Err e => (RProblem e, s)
  | Ok w => (RDoc 200 (Some (w_version w)) None (settings_json id w), set_workspace (<[id := w]> (s_workspace s)) s)
  end.

End projects.
End Projects.
