(* ===== verification/ProjectsProps.v ===== *)
(** What creating and editing a project guarantees: a new project has the default
    workflow and disturbs no other, and no edit of its metadata is lost. *)
From S2P Require Import Prelude Utf8 Uuid Float Json Db Problem Site Workflow WorkflowProps SiteDemo Projects.
Open Scope Z_scope.

Module ProjectsProps.
Import Db Problem Site Workflow WorkflowProps Projects.

#[local] Set Warnings "-clear-no-such-hyp".

(** * Lists with one element *)

Lemma singleton_list {A} (l : list A) a : NoDup l -> (forall x, x ∈ l <-> x = a) -> l = [a].
Proof.
  intros Hnd Hl. destruct l as [|x [|y l]].
  - exfalso. assert (Ha : a ∈ []) by (by apply Hl). by apply elem_of_nil in Ha.
  - f_equal. apply Hl. by left.
  - exfalso. apply NoDup_cons in Hnd as [Hn _]. apply Hn. rewrite (proj1 (Hl x)), (proj1 (Hl y)); set_solver.
Qed.

(** * The inserts on fresh identifiers *)

Definition with_statuses (m : gmap uuid Db.Status) (names : gmap uuid string) (s : Site) : Site :=
  set_config (mkDb (seq_counter (s_db s)) (items (s_db s)) (rollups (s_db s)) (links (s_db s)) (comments (s_db s)) (events (s_db s))
                (projects (s_db s)) m (item_types (s_db s)) (project_configs (s_db s)) (users (s_db s)))
    names (s_config_status s) (s_config_type s) (s_config_transition s) s.
Definition with_cs cs (s : Site) : Site := set_config (s_db s) (s_status_name s) cs (s_config_type s) (s_config_transition s) s.
Definition with_ct ct (s : Site) : Site := set_config (s_db s) (s_status_name s) (s_config_status s) ct (s_config_transition s) s.
Definition with_tr tr (s : Site) : Site := set_config (s_db s) (s_status_name s) (s_config_status s) (s_config_type s) tr s.

Section inserts.
Context (p : uuid).

Lemma insert_statuses_ok (fresh : string -> uuid) l : forall s,
  NoDup (fresh <$> (ws_Key <$> l)) -> (forall k, k ∈ ws_Key <$> l -> statuses (s_db s) !! fresh k = None) ->
  forallb (fun st => mem_str (ws_Category st) ["open"; "active"; "done"; "cancelled"]) l = true ->
  exists m names, foldM (fun s st => insert_status (fresh (ws_Key st)) p st s) l s = Ok (with_statuses m names s) /\
    (forall id row, m !! id = Some row <-> statuses (s_db s) !! id = Some row \/
       exists st, st ∈ l /\ id = fresh (ws_Key st) /\ row = Db.mkStatus p (ws_Key st) (ws_Category st)) /\
    (forall id, id ∉ fresh <$> (ws_Key <$> l) -> names !! id = s_status_name s !! id) /\
    (forall st, st ∈ l -> names !! fresh (ws_Key st) = Some (ws_Name st)).
Proof.
  induction l as [|st l IH]; intros s Hnd Hfree Hcat; cbn [foldM fmap list_fmap forallb] in *.
  { exists (statuses (s_db s)), (s_status_name s). split; [by destruct s as [[]]|]. split; [|split; [done|by intros ? ?%elem_of_nil]].
    intros id row. split; [by left|]. intros [|(st & Hst & _)]; [done|by apply elem_of_nil in Hst]. }
  apply NoDup_cons in Hnd as [Hn Hnd]. apply andb_prop in Hcat as [Hc Hcat].
  assert (Hnone : statuses (s_db s) !! fresh (ws_Key st) = None) by (apply Hfree; by left).
  unfold insert_status at 1. rewrite Hnone, bool_decide_eq_false_2 by (by intros [? ?]). cbn [negb]. rewrite Hc.
  set (s1 := set_config _ _ _ _ _ _). destruct (IH s1 Hnd) as (m & names & E & Hm & Hname & Hnew); [|done|].
  { intros k Hk. unfold s1. cbn. rewrite lookup_insert_ne; [apply Hfree; by right|]. intros E. apply Hn. rewrite E. by apply list_elem_of_fmap_2. }
  exists m, names. split; [rewrite E; by destruct s as [[]]|]. split; [|split].
  - intros id row. rewrite Hm. unfold s1. cbn. rewrite lookup_insert_Some. split.
    + intros [[[<- <-]|[_ Hs]]|(st' & Hst & Hx)]; [right; exists st; split; [by left|done]|by left|right; exists st'; split; [by right|done]].
    + intros [Hs|(st' & [->|Hst]%elem_of_cons & -> & ->)]; [left; right; split; [congruence|done]|by left; left|right; by exists st'].
  - intros id Hid. apply not_elem_of_cons in Hid as [Hne Hid]. rewrite Hname by done. unfold s1. cbn. by rewrite lookup_insert_ne.
  - intros st' [->|Hst]%elem_of_cons; [|by apply Hnew]. rewrite Hname by done. unfold s1. cbn. by rewrite lookup_insert_eq.
Qed.

Lemma insert_types_ok (fresh : string -> uuid) l : forall s,
  NoDup (fresh <$> (l.*1.*1)) -> (forall k, k ∈ l.*1.*1 -> item_types (s_db s) !! fresh k = None) ->
  exists m names, foldM (fun s t => insert_type (fresh t.1.1) p t s) l s = Ok (set_types (s_db s) m names (s_field_def s) s) /\
    (forall id row, m !! id = Some row <-> item_types (s_db s) !! id = Some row \/
       exists t, t ∈ l /\ id = fresh t.1.1 /\ row = mkItemType p t.1.1 t.2 false) /\
    (forall id, id ∉ fresh <$> (l.*1.*1) -> names !! id = s_type_name s !! id) /\
    (forall t, t ∈ l -> names !! fresh t.1.1 = Some t.1.2).
Proof.
  induction l as [|[[key name] level] l IH]; intros s Hnd Hfree; cbn [foldM fmap list_fmap fst snd] in *.
  { exists (item_types (s_db s)), (s_type_name s). split; [by destruct s as [[]]|]. split; [|split; [done|by intros ? ?%elem_of_nil]].
    intros id row. split; [by left|]. intros [|(t & Ht & _)]; [done|by apply elem_of_nil in Ht]. }
  apply NoDup_cons in Hnd as [Hn Hnd]. assert (Hnone : item_types (s_db s) !! fresh key = None) by (apply Hfree; by left).
  unfold insert_type at 1. rewrite Hnone, bool_decide_eq_false_2 by (by intros [? ?]). cbn [negb].
  set (s1 := set_types _ _ _ _ _). destruct (IH s1 Hnd) as (m & names & E & Hm & Hname & Hnew).
  { intros k Hk. unfold s1. cbn. rewrite lookup_insert_ne; [apply Hfree; by right|]. intros E. apply Hn. rewrite E. by apply list_elem_of_fmap_2. }
  exists m, names. split; [rewrite E; by destruct s as [[]]|]. split; [|split].
  - intros id row. rewrite Hm. unfold s1. cbn. rewrite lookup_insert_Some. split.
    + intros [[[<- <-]|[_ Hs]]|(t & Ht & Hx)]; [right; exists (key, name, level); split; [by left|done]|by left|right; exists t; split; [by right|done]].
    + intros [Hs|(t & [->|Ht]%elem_of_cons & -> & ->)]; [left; right; split; [congruence|done]|by left; left|right; by exists t].
  - intros id Hid. apply not_elem_of_cons in Hid as [Hne Hid]. rewrite Hname by done. unfold s1. cbn. by rewrite lookup_insert_ne.
  - intros t [->|Ht]%elem_of_cons; [|by apply Hnew]. cbn. rewrite Hname by done. unfold s1. cbn. by rewrite lookup_insert_eq.
Qed.

Lemma insert_fields_ok l : forall s,
  NoDup l.*1 -> (forall k, k ∈ l.*1 -> s_field_def s !! (p, k) = None) ->
  forallb (fun f : string * (string * json) => mem_str f.2.1 ["text"; "number"; "date"; "select"; "multiselect"; "user"; "url"; "bool"]) l = true ->
  exists m, foldM (insert_field p) l s = Ok (set_types (s_db s) (item_types (s_db s)) (s_type_name s) m s) /\
    (forall q k f, m !! (q, k) = Some f <-> s_field_def s !! (q, k) = Some f \/ q = p /\ (k, f) ∈ l).
Proof.
  induction l as [|[key def] l IH]; intros s Hnd Hfree Hty; cbn [foldM fmap list_fmap forallb fst snd] in *.
  { exists (s_field_def s). split; [by destruct s as [[]]|]. intros q k f. split; [by left|]. intros [|[_ Hx]]; [done|by apply elem_of_nil in Hx]. }
  apply NoDup_cons in Hnd as [Hn Hnd]. apply andb_prop in Hty as [Ht Hty].
  assert (Hnone : s_field_def s !! (p, key) = None) by (apply Hfree; by left).
  unfold insert_field at 1. cbn [fst snd]. rewrite Hnone, bool_decide_eq_false_2 by (by intros [? ?]). cbn [negb]. rewrite Ht.
  set (s1 := set_types _ _ _ _ _). destruct (IH s1 Hnd) as (m & E & Hm); [|done|].
  { intros k Hk. unfold s1. cbn. rewrite lookup_insert_ne; [apply Hfree; by right|]. intros E. injection E as ->. done. }
  exists m. split; [rewrite E; by destruct s as [[]]|]. intros q k f. rewrite Hm. unfold s1. cbn. rewrite lookup_insert_Some. split.
  - intros [[[E2 <-]|[_ Hs]]|[-> Hx]]; [injection E2 as <- <-; right; split; [done|by left]|by left|right; split; [done|by right]].
  - intros [Hs|[-> [E2|Hx]%elem_of_cons]]; [left; right; split; [congruence|done]|injection E2 as -> ->; by left; left|by right].
Qed.

Lemma insert_initials_ok v rows : forall s,
  NoDup rows.*1 -> (forall t, t ∈ rows.*1 -> s_config_type s !! (p, v, t) = None) ->
  exists m, foldM (insert_config_type p v) rows s = Ok (with_ct m s) /\
    (forall q w t st, m !! (q, w, t) = Some st <-> s_config_type s !! (q, w, t) = Some st \/ (q, w) = (p, v) /\ (t, st) ∈ rows).
Proof.
  induction rows as [|[t0 st0] rows IH]; intros s Hnd Hfree; cbn [foldM fmap list_fmap fst] in *.
  { exists (s_config_type s). split; [by destruct s|]. intros q w t st. split; [by left|]. intros [|[_ Hx]]; [done|by apply elem_of_nil in Hx]. }
  apply NoDup_cons in Hnd as [Hn Hnd]. assert (Hnone : s_config_type s !! (p, v, t0) = None) by (apply Hfree; by left).
  unfold insert_config_type at 1. cbn [fst snd]. rewrite Hnone, bool_decide_eq_false_2 by (by intros [? ?]). cbn [negb].
  set (s1 := set_config _ _ _ _ _ _). destruct (IH s1 Hnd) as (m & E & Hm).
  { intros t Ht. unfold s1. cbn. rewrite lookup_insert_ne; [apply Hfree; by right|]. intros E. injection E as ->. done. }
  exists m. split; [by rewrite E|]. intros q w t st. rewrite Hm. unfold s1. cbn. rewrite lookup_insert_Some. split.
  - intros [[[E2 <-]|[_ Hs]]|[E2 Hx]]; [injection E2 as <- <- <-; right; split; [done|by left]|by left|right; split; [done|by right]].
  - intros [Hs|[E2 [E3|Hx]%elem_of_cons]]; [left; right; split; [congruence|done]|injection E2 as -> ->; injection E3 as -> ->; by left; left|by right].
Qed.

Lemma insert_arcs_ok v req rows : forall s,
  NoDup rows -> (forall f t, (f, t) ∈ rows -> s_config_transition s !! (p, v, f, t) = None) ->
  exists m, foldM (fun s (ft : uuid * uuid) => insert_transition p v ft.1 ft.2 req s) rows s = Ok (with_tr m s) /\
    (forall q w f t r, m !! (q, w, f, t) = Some r <->
       s_config_transition s !! (q, w, f, t) = Some r \/ (q, w) = (p, v) /\ (f, t) ∈ rows /\ r = JArr (map JStr req)).
Proof.
  induction rows as [|[f0 t0] rows IH]; intros s Hnd Hfree; cbn [foldM fst snd] in *.
  { exists (s_config_transition s). split; [by destruct s|]. intros q w f t r. split; [by left|].
    intros [|(_ & Hx & _)]; [done|by apply elem_of_nil in Hx]. }
  apply NoDup_cons in Hnd as [Hn Hnd]. assert (Hnone : s_config_transition s !! (p, v, f0, t0) = None) by (apply Hfree; by left).
  unfold insert_transition at 1. rewrite Hnone, bool_decide_eq_false_2 by (by intros [? ?]). cbn [negb].
  set (s1 := set_config _ _ _ _ _ _). destruct (IH s1 Hnd) as (m & E & Hm).
  { intros f t Ht. unfold s1. cbn. rewrite lookup_insert_ne; [apply Hfree; by right|]. intros E. injection E as -> ->. done. }
  exists m. split; [by rewrite E|]. intros q w f t r. rewrite Hm. unfold s1. cbn. rewrite lookup_insert_Some. split.
  - intros [[[E2 <-]|[_ Hs]]|(E2 & Hx & ->)]; [injection E2 as <- <- <- <-; right; split; [done|]; split; [by left|done]|by left|].
    right. split; [done|]. split; [by right|done].
  - intros [Hs|(E2 & [E3|Hx]%elem_of_cons & ->)]; [left; right; split; [congruence|done]|injection E2 as -> ->; injection E3 as -> ->; by left; left|by right].
Qed.

End inserts.

(** * The joins of the later statements *)

Lemma elem_status_ids p ok s id :
  id ∈ status_ids p ok s <-> exists row, statuses (s_db s) !! id = Some row /\ Db.s_project row = p /\ ok (s_key row) = true.
Proof.
  unfold status_ids. rewrite list_elem_of_fmap. split.
  - intros ([id' row] & -> & Hin). apply list_elem_of_In, List.filter_In in Hin as [Hin Hb]. apply list_elem_of_In, elem_of_map_to_list in Hin.
    apply andb_prop in Hb as [Hb Hk]. apply bool_decide_eq_true in Hb. by exists row.
  - intros (row & Hr & Hp & Hk). exists (id, row). split; [done|]. apply list_elem_of_In, List.filter_In. split; [by apply list_elem_of_In, elem_of_map_to_list|].
    cbn [snd]. by rewrite bool_decide_true, Hk.
Qed.

Lemma elem_type_ids p s id : id ∈ type_ids p s <-> exists row, item_types (s_db s) !! id = Some row /\ t_project row = p.
Proof.
  unfold type_ids. rewrite list_elem_of_fmap. split.
  - intros ([id' row] & -> & Hin). apply list_elem_of_In, List.filter_In in Hin as [Hin Hb]. apply list_elem_of_In, elem_of_map_to_list in Hin.
    apply bool_decide_eq_true in Hb. by exists row.
  - intros (row & Hr & Hp). exists (id, row). split; [done|]. apply list_elem_of_In, List.filter_In. split; [by apply list_elem_of_In, elem_of_map_to_list|].
    by apply bool_decide_eq_true.
Qed.

Lemma NoDup_filter_keys `{Countable K} {A} (f : K * A -> bool) (m : gmap K A) : NoDup (List.filter f (map_to_list m)).*1.
Proof.
  pose proof (NoDup_fst_map_to_list m) as Hm. revert Hm. generalize (map_to_list m). intros l. induction l as [|[k a] l IH]; [done|].
  cbn [fmap list_fmap fst List.filter]. intros [Hn Hnd]%NoDup_cons. destruct (f (k, a)); [|by apply IH]. cbn [fmap list_fmap fst].
  apply NoDup_cons. split; [|by apply IH]. intros Hin. apply Hn. apply list_elem_of_fmap in Hin as (b & -> & Hb). apply list_elem_of_fmap.
  exists b. split; [done|]. apply list_elem_of_In, List.filter_In in Hb as [Hb _]. by apply list_elem_of_In.
Qed.

Section orders.
Context (fresh : string -> uuid) (p : uuid) (v : Z).

(** The status of a key is the one just inserted. *)
Definition only_status (k : string) (s : Site) : Prop := status_ids p (String.eqb k) s = [fresh k].

Lemma put_orders_ok l : forall s,
  NoDup (fresh <$> l.*1) -> (forall k, k ∈ l.*1 -> only_status k s /\ s_config_status s !! (p, v, fresh k) = None) ->
  exists m, foldM (put_order p v) l s = Ok (with_cs m s) /\
    (forall q w st n, m !! (q, w, st) = Some n <->
       s_config_status s !! (q, w, st) = Some n \/ (q, w) = (p, v) /\ exists k, (k, n) ∈ l /\ st = fresh k).
Proof.
  induction l as [|[k0 n0] l IH]; intros s Hnd Hk; cbn [foldM fmap list_fmap fst] in *.
  { exists (s_config_status s). split; [by destruct s|]. intros q w st n. split; [by left|].
    intros [|(_ & k & Hx & _)]; [done|by apply elem_of_nil in Hx]. }
  apply NoDup_cons in Hnd as [Hn Hnd]. destruct (Hk k0 ltac:(by left)) as [H0 Hnone].
  unfold put_order at 1. cbn [fst snd]. rewrite H0. cbn [foldM]. unfold insert_config_status at 1.
  rewrite Hnone, bool_decide_eq_false_2 by (by intros [? ?]). cbn [negb]. set (s1 := set_config _ _ _ _ _ _).
  destruct (IH s1 Hnd) as (m & E & Hm).
  { intros k Hin. destruct (Hk k ltac:(by right)) as [H1 H2]. split; [exact H1|]. unfold s1. cbn. rewrite lookup_insert_ne; [done|].
    intros E. injection E as E. apply Hn. rewrite E. by apply list_elem_of_fmap_2. }
  exists m. split; [by rewrite E|]. intros q w st n. rewrite Hm. unfold s1. cbn. rewrite lookup_insert_Some. split.
  - intros [[[E2 <-]|[_ Hs]]|(E2 & k & Hx & ->)]; [injection E2 as <- <- <-; right; split; [done|]; exists k0; split; [by left|done]|by left|].
    right. split; [done|]. exists k. split; [by right|done].
  - intros [Hs|(E2 & k & [E3|Hx]%elem_of_cons & ->)]; [left; right; split; [congruence|done]|injection E2 as -> ->; injection E3 as -> ->; by left; left|].
    right. split; [done|]. by exists k.
Qed.

Definition arc_ends (a : string * string * list string) : uuid * uuid := (fresh a.1.1, fresh a.1.2).

Lemma put_arcs_ok l : forall s,
  NoDup (arc_ends <$> l) ->
  (forall a, a ∈ l -> only_status a.1.1 s /\ only_status a.1.2 s /\ s_config_transition s !! (p, v, fresh a.1.1, fresh a.1.2) = None) ->
  exists m, foldM (put_arc p v) l s = Ok (with_tr m s) /\
    (forall q w f t r, m !! (q, w, f, t) = Some r <->
       s_config_transition s !! (q, w, f, t) = Some r \/
       (q, w) = (p, v) /\ exists a, a ∈ l /\ f = fresh a.1.1 /\ t = fresh a.1.2 /\ r = JArr (map JStr a.2)).
Proof.
  induction l as [|[[k1 k2] req] l IH]; intros s Hnd Hk; cbn [foldM fmap list_fmap] in *.
  { exists (s_config_transition s). split; [by destruct s|]. intros q w f t r. split; [by left|].
    intros [|(_ & a & Hx & _)]; [done|by apply elem_of_nil in Hx]. }
  apply NoDup_cons in Hnd as [Hn Hnd]. destruct (Hk _ ltac:(by left)) as (H1 & H2 & Hnone). cbn [fst snd] in *.
  unfold put_arc at 1. rewrite H1, H2. cbn [list_prod map app foldM fst snd]. unfold insert_transition at 1.
  rewrite Hnone, bool_decide_eq_false_2 by (by intros [? ?]). cbn [negb]. set (s1 := set_config _ _ _ _ _ _).
  destruct (IH s1 Hnd) as (m & E & Hm).
  { intros a Hin. destruct (Hk a ltac:(by right)) as (H3 & H4 & H5). split; [exact H3|]. split; [exact H4|]. unfold s1. cbn.
    rewrite lookup_insert_ne; [done|]. intros E. injection E as E1 E2. apply Hn. unfold arc_ends at 1. cbn [fst snd]. rewrite E1, E2.
    apply list_elem_of_fmap. by exists a. }
  exists m. split; [by rewrite E|]. intros q w f t r. rewrite Hm. unfold s1. cbn. rewrite lookup_insert_Some. split.
  - intros [[[E2 <-]|[_ Hs]]|(E2 & a & Hx & Hy)]; [injection E2 as <- <- <- <-; right; split; [done|]; exists (k1, k2, req); split; [by left|done]|by left|].
    right. split; [done|]. exists a. split; [by right|done].
  - intros [Hs|(E2 & a & [->|Hx]%elem_of_cons & -> & -> & ->)]; [left; right; split; [congruence|done]|injection E2 as -> ->; by left; left|].
    right. split; [done|]. by exists a.
Qed.

End orders.

(** * The default configuration *)

(** Nothing refers to the project yet. *)
Record blank (p : uuid) (s : Site) : Prop := {
  bl_status id row : statuses (s_db s) !! id = Some row -> Db.s_project row <> p;
  bl_type id row : item_types (s_db s) !! id = Some row -> t_project row <> p;
  bl_config v : (p, v) ∉ project_configs (s_db s);
  bl_field k : s_field_def s !! (p, k) = None;
  bl_cs v st : s_config_status s !! (p, v, st) = None;
  bl_ct v t : s_config_type s !! (p, v, t) = None;
  bl_tr v f t : s_config_transition s !! (p, v, f, t) = None
}.

(** The identifiers the database gives are new and distinct. *)
Record new_ids (fresh fresh_type : string -> uuid) (s : Site) : Prop := {
  ni_statuses : NoDup (fresh <$> (ws_Key <$> default_statuses));
  ni_status k : k ∈ ws_Key <$> default_statuses -> statuses (s_db s) !! fresh k = None;
  ni_types : NoDup (fresh_type <$> default_types.*1.*1);
  ni_type k : k ∈ default_types.*1.*1 -> item_types (s_db s) !! fresh_type k = None
}.

(** The arcs of the default workflow. *)
Definition all_arcs : list (string * string * list string) :=
  default_arcs ++ map (fun k => (k, "dropped", [])) ["todo"; "doing"; "review"; "done"].

Definition db_rest (s : Site) :=
  (seq_counter (s_db s), items (s_db s), rollups (s_db s), links (s_db s), comments (s_db s), events (s_db s), projects (s_db s), users (s_db s),
   (s_workspace s, s_project s, s_account s, s_membership s)).

(** What the installation adds. *)
Record defaulted (fresh fresh_type : string -> uuid) (p : uuid) (s s' : Site) : Prop := {
  df_rest : db_rest s' = db_rest s;
  df_status id row : statuses (s_db s') !! id = Some row <-> statuses (s_db s) !! id = Some row \/
    exists st, st ∈ default_statuses /\ id = fresh (ws_Key st) /\ row = Db.mkStatus p (ws_Key st) (ws_Category st);
  df_name id : (id ∉ fresh <$> (ws_Key <$> default_statuses)) -> s_status_name s' !! id = s_status_name s !! id;
  df_new_name st : st ∈ default_statuses -> s_status_name s' !! fresh (ws_Key st) = Some (ws_Name st);
  df_type id row : item_types (s_db s') !! id = Some row <-> item_types (s_db s) !! id = Some row \/
    exists t, t ∈ default_types /\ id = fresh_type t.1.1 /\ row = mkItemType p t.1.1 t.2 false;
  df_config : project_configs (s_db s') = {[(p, 1)]} ∪ project_configs (s_db s);
  df_field q k f : s_field_def s' !! (q, k) = Some f <-> s_field_def s !! (q, k) = Some f \/ q = p /\ (k, f) ∈ default_fields;
  df_cs q v st n : s_config_status s' !! (q, v, st) = Some n <->
    s_config_status s !! (q, v, st) = Some n \/ (q, v) = (p, 1) /\ exists k, (k, n) ∈ default_orders /\ st = fresh k;
  df_ct q v t st : s_config_type s' !! (q, v, t) = Some st <->
    s_config_type s !! (q, v, t) = Some st \/ (q, v) = (p, 1) /\ st = fresh "todo" /\ exists ty, ty ∈ default_types /\ t = fresh_type ty.1.1;
  df_tr q v f t r : s_config_transition s' !! (q, v, f, t) = Some r <->
    s_config_transition s !! (q, v, f, t) = Some r \/
    (q, v) = (p, 1) /\ exists a, a ∈ all_arcs /\ f = fresh a.1.1 /\ t = fresh a.1.2 /\ r = JArr (map JStr a.2)
}.

Lemma prod_single {A B} (l : list A) (b : B) : list_prod l [b] = (fun a => (a, b)) <$> l.
Proof. induction l as [|a l IH]; [done|]. cbn [list_prod map app]. by rewrite IH. Qed.

Section install.
Context (fresh fresh_type : string -> uuid) (p : uuid).

Lemma fresh_inj s k1 k2 :
  new_ids fresh fresh_type s -> k1 ∈ ws_Key <$> default_statuses -> k2 ∈ ws_Key <$> default_statuses -> fresh k1 = fresh k2 -> k1 = k2.
Proof.
  intros [Hnd _ _ _] H1 H2 E. apply list_elem_of_lookup in H1 as [i Hi], H2 as [j Hj].
  assert (i = j) as ->; [|congruence]. eapply (NoDup_lookup _ _ _ _ Hnd); rewrite list_lookup_fmap; [by rewrite Hi|]. rewrite Hj. simpl. by rewrite E.
Qed.

(** The statuses of the project after they were inserted. *)
Definition has_defaults (s s1 : Site) : Prop :=
  forall id row, statuses (s_db s1) !! id = Some row <-> statuses (s_db s) !! id = Some row \/
    exists st, st ∈ default_statuses /\ id = fresh (ws_Key st) /\ row = Db.mkStatus p (ws_Key st) (ws_Category st).

Lemma defaults_ids s s1 ok id :
  blank p s -> has_defaults s s1 -> id ∈ status_ids p ok s1 <-> exists k, k ∈ ws_Key <$> default_statuses /\ ok k = true /\ id = fresh k.
Proof.
  intros Hb Hd. rewrite elem_status_ids. split.
  - intros (row & Hr & Hp & Hk). apply Hd in Hr as [Hr|(st & Hst & -> & ->)]; [by destruct (bl_status _ _ Hb _ _ Hr)|].
    exists (ws_Key st). split; [by apply list_elem_of_fmap_2|done].
  - intros (k & Hin & Hk & ->). apply list_elem_of_fmap in Hin as (st & -> & Hst).
    exists (Db.mkStatus p (ws_Key st) (ws_Category st)). split; [|done]. apply Hd. right. by exists st.
Qed.

Lemma defaults_only s s1 k :
  blank p s -> has_defaults s s1 -> k ∈ ws_Key <$> default_statuses -> only_status fresh p k s1.
Proof.
  intros Hb Hd Hk. apply singleton_list; [apply NoDup_filter_keys|]. intros id. rewrite (defaults_ids s) by done. split.
  - intros (k' & _ & E & ->). apply String.eqb_eq in E. by subst.
  - intros ->. exists k. split; [done|]. split; [apply String.eqb_refl|done].
Qed.

(** The rows of statuses, types and fields. *)
Record rows_added (s s4 : Site) : Prop := {
  ra_rest : db_rest s4 = db_rest s;
  ra_status : has_defaults s s4;
  ra_name id : (id ∉ fresh <$> (ws_Key <$> default_statuses)) -> s_status_name s4 !! id = s_status_name s !! id;
  ra_new_name st : st ∈ default_statuses -> s_status_name s4 !! fresh (ws_Key st) = Some (ws_Name st);
  ra_type id row : item_types (s_db s4) !! id = Some row <-> item_types (s_db s) !! id = Some row \/
    exists t, t ∈ default_types /\ id = fresh_type t.1.1 /\ row = mkItemType p t.1.1 t.2 false;
  ra_config : project_configs (s_db s4) = {[(p, 1)]} ∪ project_configs (s_db s);
  ra_field q k f : s_field_def s4 !! (q, k) = Some f <-> s_field_def s !! (q, k) = Some f \/ q = p /\ (k, f) ∈ default_fields;
  ra_cs : s_config_status s4 = s_config_status s;
  ra_ct : s_config_type s4 = s_config_type s;
  ra_tr : s_config_transition s4 = s_config_transition s
}.

Definition install_rows (s : Site) : result dberr Site :=
  let* s := insert_first_config p s in
  let* s := foldM (fun s st => insert_status (fresh (ws_Key st)) p st s) default_statuses s in
  let* s := foldM (fun s t => insert_type (fresh_type t.1.1) p t s) default_types s in
  foldM (insert_field p) default_fields s.
Definition install_config (s : Site) : result dberr Site :=
  let* s := foldM (put_order p 1) default_orders s in
  let* s := put_initial p 1 s in
  let* s := foldM (put_arc p 1) default_arcs s in
  put_dropped p 1 s.
Lemma install_halves s : InstallConfig fresh fresh_type p s = (let* s := install_rows s in install_config s).
Proof. unfold InstallConfig, configSQL, install_rows. do 3 (case_match; [|done]). done. Qed.

Lemma install_rows_ok s : blank p s -> new_ids fresh fresh_type s -> exists s4, install_rows s = Ok s4 /\ rows_added s s4.
Proof.
  intros Hb Hids. unfold install_rows. unfold insert_first_config. rewrite bool_decide_eq_false_2 by apply (bl_config _ _ Hb).
  cbn [negb]. set (s1 := set_db _ s).
  destruct (insert_statuses_ok p fresh default_statuses s1 (ni_statuses _ _ _ Hids)) as (m2 & names2 & E2 & Hm2 & Hn2 & Hn2'); [apply (ni_status _ _ _ Hids)|done|].
  rewrite E2. set (s2 := with_statuses m2 names2 s1) in *.
  destruct (insert_types_ok p fresh_type default_types s2 (ni_types _ _ _ Hids)) as (m3 & names3 & E3 & Hm3 & Hn3 & Hn3'); [apply (ni_type _ _ _ Hids)|].
  rewrite E3. set (s3 := set_types _ m3 names3 _ _) in *.
  destruct (insert_fields_ok p default_fields s3) as (m4 & E4 & Hm4); [|intros k Hk; apply (bl_field _ _ Hb)|done|].
  { refine (proj1 (bool_decide_eq_true _) _). vm_compute. reflexivity. }
  exists (set_types (s_db s3) (item_types (s_db s3)) (s_type_name s3) m4 s3). by split.
Qed.

(** The arcs to [dropped]. *)
Lemma put_dropped_ok s s7 m7 s6 :
  blank p s -> new_ids fresh fresh_type s -> has_defaults s s7 -> s7 = with_tr m7 s6 ->
  (forall f t r, m7 !! (p, 1, f, t) = Some r -> exists a, a ∈ default_arcs /\ t = fresh a.1.2) ->
  exists m8, put_dropped p 1 s7 = Ok (with_tr m8 s7) /\
    (forall q v f t r, m8 !! (q, v, f, t) = Some r <-> m7 !! (q, v, f, t) = Some r \/
       (q, v) = (p, 1) /\ exists k, k ∈ ["todo"; "doing"; "review"; "done"] /\ f = fresh k /\ t = fresh "dropped" /\ r = JArr []).
Proof.
  intros Hb Hids Hd E7 Hold. pose proof (fresh_inj s) as Hinj.
  assert (Hk : forall k, mem_str k (ws_Key <$> default_statuses) = true -> k ∈ ws_Key <$> default_statuses) by (intros k; apply mem_str_spec).
  unfold put_dropped. rewrite (defaults_only s s7 "dropped") by (done || by apply Hk). rewrite prod_single. set (others := status_ids p _ s7).
  destruct (insert_arcs_ok p 1 [] ((fun f => (f, fresh "dropped")) <$> others) s7) as (m8 & E8 & Hm8).
  { apply NoDup_fmap_2; [by intros a b E; injection E|apply NoDup_filter_keys]. }
  { intros f t Hin. apply list_elem_of_fmap in Hin as (f' & E & _). injection E as _ ->. rewrite E7. cbn.
    destruct (m7 !! (p, 1, f, fresh "dropped")) eqn:El; [|done]. exfalso. apply Hold in El as (a & Ha & Et).
    apply Hinj in Et; [|done|by apply Hk|]; unfold default_arcs in Ha;
      repeat (apply elem_of_cons in Ha as [->|Ha]; [try done; by apply Hk|]); by apply elem_of_nil in Ha. }
  exists m8. split; [exact E8|]. intros q v f t r. etransitivity; [apply Hm8|]. rewrite E7. apply or_iff_compat_l. split.
  - intros (E & Hin & ->). split; [done|]. apply list_elem_of_fmap in Hin as (f' & E' & Hin). injection E' as -> ->.
    apply (defaults_ids s) in Hin as (k & Hkin & Hne & ->); [|done..]. exists k. split; [|done].
    unfold default_statuses in Hkin. cbn [fmap list_fmap ws_Key] in Hkin.
    repeat (apply elem_of_cons in Hkin as [->|Hkin]; [try done; apply mem_str_spec; reflexivity|]). by apply elem_of_nil in Hkin.
  - intros (E & k & Hkin & -> & -> & ->). split; [done|]. split; [|done]. apply list_elem_of_fmap. exists (fresh k). split; [done|].
    apply (defaults_ids s); [done..|]. exists k. split; [|split; [|done]];
      repeat (apply elem_of_cons in Hkin as [->|Hkin]; [try reflexivity; apply Hk; reflexivity|]); by apply elem_of_nil in Hkin.
Qed.

Lemma default_arcs_ends a : a ∈ default_arcs -> (a.1.1 ∈ ws_Key <$> default_statuses) /\ (a.1.2 ∈ ws_Key <$> default_statuses).
Proof.
  intros Ha. assert (Hends : forallb (fun a : string * string * list string => mem_str a.1.1 (ws_Key <$> default_statuses) && mem_str a.1.2 (ws_Key <$> default_statuses)) default_arcs = true) by (vm_compute; reflexivity).
  rewrite forallb_forall in Hends. specialize (Hends a (proj1 (list_elem_of_In _ _) Ha)). apply andb_prop in Hends as [H1 H2].
  split; by apply mem_str_spec.
Qed.

Lemma default_arcs_distinct s : new_ids fresh fresh_type s -> NoDup (arc_ends fresh <$> default_arcs).
Proof.
  intros Hids. assert (Hne : forall a b, mem_str a (ws_Key <$> default_statuses) = true -> mem_str b (ws_Key <$> default_statuses) = true -> a <> b -> fresh a <> fresh b).
  { intros a b Ha Hb Hab E. apply Hab. apply (fresh_inj s); [done|by apply mem_str_spec..|done]. }
  unfold default_arcs, arc_ends. cbn [fmap list_fmap fst snd]. repeat apply NoDup_cons_2; [| | |apply NoDup_nil_2];
    rewrite ?not_elem_of_cons; split_and?; try apply not_elem_of_nil; intros E; injection E as E1 _; revert E1; by apply Hne.
Qed.

(** A project nothing refers to gets the default configuration, and nothing can go
    wrong. *)
Lemma InstallConfig_ok s : blank p s -> new_ids fresh fresh_type s -> exists s', InstallConfig fresh fresh_type p s = Ok s' /\ defaulted fresh fresh_type p s s'.
Proof.
  intros Hb Hids. rewrite install_halves. destruct (install_rows_ok s Hb Hids) as (s4 & -> & [R1 Hd R3 R4 R5 R6 R7 R8 R9 R10]). unfold install_config.
  destruct (put_orders_ok fresh p 1 default_orders s4) as (m5 & E5 & Hm5).
  { exact (ni_statuses _ _ _ Hids). }
  { intros k Hin. split; [by apply (defaults_only s)|rewrite R8; apply (bl_cs _ _ Hb)]. }
  rewrite E5. set (s5 := with_cs m5 s4) in *. unfold put_initial. rewrite (defaults_only s s5 "todo") by (done || by apply mem_str_spec).
  rewrite prod_single. destruct (insert_initials_ok p 1 ((fun t => (t, fresh "todo")) <$> type_ids p s5) s5) as (m6 & E6 & Hm6).
  { rewrite <- list_fmap_compose. cbn [compose fst]. rewrite list_fmap_id. apply NoDup_filter_keys. }
  { intros t _. unfold s5. cbn. rewrite R9. apply (bl_ct _ _ Hb). }
  rewrite E6. set (s6 := with_ct m6 s5) in *.
  destruct (put_arcs_ok fresh p 1 default_arcs s6 (default_arcs_distinct s Hids)) as (m7 & E7 & Hm7).
  { intros a Ha. destruct (default_arcs_ends a Ha). split_and!; [by apply (defaults_only s)..|]. unfold s6, s5. cbn. rewrite R10. apply (bl_tr _ _ Hb). }
  rewrite E7. set (s7 := with_tr m7 s6) in *.
  destruct (put_dropped_ok s s7 m7 s6 Hb Hids Hd eq_refl) as (m8 & E8 & Hm8).
  { intros f t r Hl. apply Hm7 in Hl as [Hl|(_ & a & Ha & _ & -> & _)]; [|by exists a]. unfold s6, s5 in Hl. cbn in Hl. rewrite R10 in Hl.
    by rewrite (bl_tr _ _ Hb) in Hl. }
  exists (with_tr m8 s7). split; [exact E8|]. split; try done.
  - intros q v st n. rewrite <- R8. apply Hm5.
  - intros q v t st. rewrite <- R9. etransitivity; [apply Hm6|]. apply or_iff_compat_l. split.
    + intros [E Hin]. apply list_elem_of_fmap in Hin as (t' & E' & Hin). injection E' as -> ->. split; [done|]. split; [done|].
      apply elem_type_ids in Hin as (row & Hr & Hp). apply R5 in Hr as [Hr|(ty & Hty & -> & _)]; [by destruct (bl_type _ _ Hb _ _ Hr)|by exists ty].
    + intros (E & -> & ty & Hty & ->). split; [done|]. apply list_elem_of_fmap. eexists. split; [done|]. apply elem_type_ids.
      eexists. split; [apply R5; right; by exists ty|done].
  - intros q v f t r. rewrite <- R10. etransitivity; [apply Hm8|]. etransitivity; [apply or_iff_compat_r, Hm7|].
    etransitivity; [symmetry; apply (or_assoc _ _ _)|]. apply or_iff_compat_l. unfold all_arcs. split.
    + intros [(E & a & Ha & Hx)|(E & k & Hk & -> & -> & ->)]; (split; [done|]); [exists a; split; [apply elem_of_app; by left|done]|].
      exists (k, "dropped", []). split; [|done]. apply elem_of_app. right. apply list_elem_of_In, in_map_iff. exists k. split; [done|]. by apply list_elem_of_In.
    + intros (E & a & Ha & -> & -> & ->). apply elem_of_app in Ha as [Ha|Ha]; [left; split; [done|]; by exists a|]. right. split; [done|].
      apply list_elem_of_In, in_map_iff in Ha as (k & <- & Hk). exists k. split; [by apply list_elem_of_In|done].
Qed.

End install.
End ProjectsProps.
