(* ===== verification/ProjectReady.v ===== *)
(** A new project is ready to use: whatever valid request creates it, its latest
    configuration is the default workflow, the invariants of the configuration hold,
    and no other project is disturbed. *)
From S2P Require Import Prelude Utf8 Uuid Float Json Db Problem Site Workflow WorkflowProps SiteDemo Projects ProjectsProps.
Open Scope Z_scope.

Module ProjectReady.
Import Db Problem Site Workflow WorkflowProps Projects ProjectsProps.

#[local] Set Warnings "-clear-no-such-hyp".

(** * Foreign keys to [project] *)

(** Configuration rows refer to existing projects. *)
Record refs_ok (s : Site) : Prop := {
  ro_status id row : statuses (s_db s) !! id = Some row -> is_Some (projects (s_db s) !! Db.s_project row);
  ro_type id row : item_types (s_db s) !! id = Some row -> is_Some (projects (s_db s) !! t_project row);
  ro_config p v : (p, v) ∈ project_configs (s_db s) -> is_Some (projects (s_db s) !! p);
  ro_field p k f : s_field_def s !! (p, k) = Some f -> is_Some (projects (s_db s) !! p)
}.

(** Under the invariants nothing refers to a project that does not exist. *)
Lemma unknown_blank p s : config_ok s -> refs_ok s -> projects (s_db s) !! p = None -> blank p s.
Proof.
  intros Hok Hr Hp. assert (Hno : ~ is_Some (projects (s_db s) !! p)) by (rewrite Hp; by intros [? ?]).
  assert (Hv : forall v st, in_version s p v st -> False).
  { intros v st Hin. apply Hno. destruct (co_status _ Hok _ _ _ Hin) as [Hc _]. by eapply ro_config. }
  split.
  - intros id row E <-. by eapply Hno, ro_status.
  - intros id row E <-. by eapply Hno, ro_type.
  - intros v Hin. by eapply Hno, ro_config.
  - intros k. destruct (s_field_def s !! (p, k)) eqn:E; [|done]. exfalso. by eapply Hno, ro_field.
  - intros v st. destruct (s_config_status s !! (p, v, st)) eqn:E; [|done]. exfalso. apply (Hv v st). by eexists.
  - intros v t. destruct (s_config_type s !! (p, v, t)) eqn:E; [|done]. exfalso. by eapply Hv, (co_type _ Hok).
  - intros v f t. destruct (s_config_transition s !! (p, v, f, t)) eqn:E; [|done]. exfalso. by eapply Hv, (co_arc _ Hok).
Qed.

(** * The default configuration keeps the invariants *)

Section ready.
Context (fresh fresh_type : string -> uuid) (p : uuid) (s s' : Site).
Context (Hb : blank p s) (Hids : new_ids fresh fresh_type s) (Hdf : defaulted fresh fresh_type p s s').

Lemma default_key_mem k : mem_str k (ws_Key <$> default_statuses) = true -> k ∈ ws_Key <$> default_statuses.
Proof. apply mem_str_spec. Qed.

Lemma order_keys k n : (k, n) ∈ default_orders -> k ∈ ws_Key <$> default_statuses.
Proof.
  intros Hk. unfold default_orders in Hk. repeat (apply elem_of_cons in Hk as [Hk|Hk]; [injection Hk as -> _; by apply default_key_mem|]). by apply elem_of_nil in Hk.
Qed.

Lemma keys_ordered k : k ∈ ws_Key <$> default_statuses -> exists n, (k, n) ∈ default_orders.
Proof.
  intros Hk. unfold default_statuses in Hk. cbn [fmap list_fmap ws_Key] in Hk.
  repeat (apply elem_of_cons in Hk as [->|Hk]; [eexists; unfold default_orders; repeat first [apply list_elem_of_here|apply list_elem_of_further]|]).
  by apply elem_of_nil in Hk.
Qed.

Lemma default_row k : k ∈ ws_Key <$> default_statuses -> exists st, st ∈ default_statuses /\ ws_Key st = k /\
  statuses (s_db s') !! fresh k = Some (Db.mkStatus p k (ws_Category st)) /\ workflow_status s' (fresh k) = Some st.
Proof using All.
  intros Hk. apply list_elem_of_fmap in Hk as (st & -> & Hst). exists st.
  assert (Hrow : statuses (s_db s') !! fresh (ws_Key st) = Some (Db.mkStatus p (ws_Key st) (ws_Category st))).
  { apply (df_status _ _ _ _ _ Hdf). right. by exists st. }
  split_and!; try done. unfold workflow_status. rewrite Hrow, (df_new_name _ _ _ _ _ Hdf) by done. by destruct st.
Qed.

Lemma ready_in_version q v st :
  in_version s' q v st <-> in_version s q v st \/ (q, v) = (p, 1) /\ exists k, k ∈ ws_Key <$> default_statuses /\ st = fresh k.
Proof using All.
  unfold in_version. split.
  - intros [n Hn]. apply (df_cs _ _ _ _ _ Hdf) in Hn as [Hn|(E & k & Hk & ->)]; [left; by exists n|]. right. split; [done|].
    exists k. split; [by eapply order_keys|done].
  - intros [[n Hn]|(E & k & Hk & ->)].
    + exists n. apply (df_cs _ _ _ _ _ Hdf). by left.
    + apply keys_ordered in Hk as [n Hn]. exists n. apply (df_cs _ _ _ _ _ Hdf). right. split; [done|]. by exists k.
Qed.

Lemma not_p_version v st : ~ in_version s p v st.
Proof using Hb. intros [n Hn]. by rewrite (bl_cs _ _ Hb) in Hn. Qed.

Lemma all_arcs_ends a : a ∈ all_arcs -> (a.1.1 ∈ ws_Key <$> default_statuses) /\ (a.1.2 ∈ ws_Key <$> default_statuses) /\ a.1.1 <> a.1.2.
Proof.
  intros Ha.
  assert (Hends : forallb (fun a : string * string * list string => mem_str a.1.1 (ws_Key <$> default_statuses) && mem_str a.1.2 (ws_Key <$> default_statuses) &&
    negb (String.eqb a.1.1 a.1.2)) all_arcs = true) by (vm_compute; reflexivity).
  rewrite forallb_forall in Hends. specialize (Hends a (proj1 (list_elem_of_In _ _) Ha)). apply andb_prop in Hends as [[H1 H2]%andb_prop H3].
  split_and!; try by apply mem_str_spec. intros E. apply negb_true_iff, String.eqb_neq in H3. done.
Qed.

Lemma new_config q v : (q, v) ∈ project_configs (s_db s') <-> (q, v) = (p, 1) \/ (q, v) ∈ project_configs (s_db s).
Proof using Hdf. rewrite (df_config _ _ _ _ _ Hdf), elem_of_union, elem_of_singleton. done. Qed.

(** A row of [s] is a row of [s'], and its name is not that of a new status. *)
Lemma old_status id row : statuses (s_db s) !! id = Some row -> statuses (s_db s') !! id = Some row /\ s_status_name s' !! id = s_status_name s !! id.
Proof using All.
  intros Hr. split; [apply (df_status _ _ _ _ _ Hdf); by left|]. apply (df_name _ _ _ _ _ Hdf). intros Hin.
  apply list_elem_of_fmap in Hin as (k & -> & Hk). by rewrite (ni_status _ _ _ Hids _ Hk) in Hr.
Qed.

Lemma default_key_id k1 k2 : k1 ∈ ws_Key <$> default_statuses -> k2 ∈ ws_Key <$> default_statuses -> fresh k1 = fresh k2 -> k1 = k2.
Proof using Hids. apply (fresh_inj fresh fresh_type s _ _ Hids). Qed.

Lemma ready_config_ok : config_ok s -> config_ok s'.
Proof using All.
  intros Hok. split.
  - intros q v st [Hin|([= -> ->] & k & Hk & ->)]%ready_in_version.
    + destruct (co_status _ Hok _ _ _ Hin) as (Hc & row & Hr & Hp & Hn). split; [apply new_config; by right|]. exists row.
      destruct (old_status _ _ Hr) as [Hr' ->]. done.
    + split; [apply new_config; by left|]. destruct (default_row k Hk) as (st & Hst & <- & Hr & _). eexists. split; [exact Hr|].
      split; [done|]. rewrite (df_new_name _ _ _ _ _ Hdf) by done. by eexists.
  - intros q v a b ra rb Ha Hb' Era Erb Ek. apply ready_in_version in Ha as [Ha|([= -> ->] & k1 & Hk1 & ->)].
    + apply ready_in_version in Hb' as [Hb'|([= -> ->] & _)]; [|by apply not_p_version in Ha].
      destruct (co_status _ Hok _ _ _ Ha) as (_ & ra' & Hra & _), (co_status _ Hok _ _ _ Hb') as (_ & rb' & Hrb & _).
      apply old_status in Hra as [Hra' _] , Hrb as [Hrb' _].
      destruct (co_status _ Hok _ _ _ Ha) as (_ & ra2 & Hra & _), (co_status _ Hok _ _ _ Hb') as (_ & rb2 & Hrb & _).
      eapply (co_key _ Hok q v a b ra2 rb2); try done.
      pose proof (old_status _ _ Hra) as [? _]. pose proof (old_status _ _ Hrb) as [? _]. congruence.
    + apply ready_in_version in Hb' as [Hb'|(_ & k2 & Hk2 & ->)]; [by apply not_p_version in Hb'|].
      destruct (default_row k1 Hk1) as (st1 & _ & _ & R1 & _), (default_row k2 Hk2) as (st2 & _ & _ & R2 & _).
      rewrite R1 in Era. rewrite R2 in Erb. injection Era as <-. injection Erb as <-. cbn in Ek. by rewrite Ek.
  - intros q v t st Hl. apply (df_ct _ _ _ _ _ Hdf) in Hl as [Hl|([= -> ->] & -> & ty & Hty & ->)].
    + destruct (co_type _ Hok _ _ _ _ Hl) as [Hin [row Hrow]]. split; [apply ready_in_version; by left|]. exists row.
      apply (df_type _ _ _ _ _ Hdf). by left.
    + split; [apply ready_in_version; right; split; [done|]; exists "todo"; split; [by apply default_key_mem|done]|].
      eexists. apply (df_type _ _ _ _ _ Hdf). right. by exists ty.
  - intros q v f t req Hl. apply (df_tr _ _ _ _ _ Hdf) in Hl as [Hl|([= -> ->] & a & Ha & -> & -> & ->)].
    + destruct (co_arc _ Hok _ _ _ _ _ Hl) as (Hf & Ht & Hne & Hr). split_and!; try done; apply ready_in_version; by left.
    + destruct (all_arcs_ends a Ha) as (H1 & H2 & Hne). split_and!.
      * apply ready_in_version. right. split; [done|]. by exists a.1.1.
      * apply ready_in_version. right. split; [done|]. by exists a.1.2.
      * intros E. by apply Hne, default_key_id.
      * rewrite requires_strings. by eexists.
  - intros q v v' st Hle Hc Hin. apply ready_in_version in Hin as [Hin|([= -> ->] & Hk)].
    + apply new_config in Hc as [[= -> ->]|Hc]; [by apply not_p_version in Hin|]. apply ready_in_version. left. by eapply (co_retained _ Hok).
    + apply new_config in Hc as [[= ->]|Hc]; [apply ready_in_version; by right|]. by apply (bl_config _ _ Hb) in Hc.
Qed.

Lemma ready_refs_ok : is_Some (projects (s_db s) !! p) -> refs_ok s -> refs_ok s'.
Proof using All.
  intros Hp Hr. assert (E : projects (s_db s') = projects (s_db s)).
  { pose proof (df_rest _ _ _ _ _ Hdf) as Hrest. unfold db_rest in Hrest. congruence. }
  split; rewrite E.
  - intros id row Hl. apply (df_status _ _ _ _ _ Hdf) in Hl as [Hl|(st & _ & _ & ->)]; [by eapply ro_status|done].
  - intros id row Hl. apply (df_type _ _ _ _ _ Hdf) in Hl as [Hl|(st & _ & _ & ->)]; [by eapply ro_type|done].
  - intros q v [[= -> ->]|Hc]%new_config; [done|by eapply ro_config].
  - intros q k f Hl. apply (df_field _ _ _ _ _ Hdf) in Hl as [Hl|(-> & _)]; [by eapply ro_field|done].
Qed.

(** * What is read back *)

Lemma ready_max : max_version p (s_db s') = Some 1.
Proof using Hb Hdf.
  apply max_version_spec. split; [apply new_config; by left|]. intros v [[= ->]|Hc]%new_config; [done|]. by apply (bl_config _ _ Hb) in Hc.
Qed.

Lemma ready_status_rows x : x ∈ status_rows p 1 s' <-> x ∈ numbered (fun st => fresh (ws_Key st)) 1 default_statuses.
Proof using All.
  destruct x as [st n]. rewrite elem_status_rows, (df_cs _ _ _ _ _ Hdf). rewrite (bl_cs _ _ Hb). unfold default_orders, default_statuses. cbn [numbered ws_Key].
  split.
  - intros [|(_ & k & Hk & ->)]; [done|]. repeat (apply elem_of_cons in Hk as [Hk|Hk]; [injection Hk as -> ->; repeat first [apply list_elem_of_here|apply list_elem_of_further]|]).
    by apply elem_of_nil in Hk.
  - intros Hx. right. split; [done|].
    repeat (apply elem_of_cons in Hx as [Hx|Hx]; [injection Hx as -> ->; eexists; split; [|reflexivity]; repeat first [apply list_elem_of_here|apply list_elem_of_further]|]).
    by apply elem_of_nil in Hx.
Qed.

Lemma ready_statuses : c_Statuses (resolved_at p 1 s') = default_statuses.
Proof using All.
  cbn [c_Statuses resolved_at]. rewrite (sort_numbered (fun st => fresh (ws_Key st)) default_statuses 1); [|apply NoDup_status_rows|apply ready_status_rows].
  assert (Hw : forall st, st ∈ default_statuses -> workflow_status s' (fresh (ws_Key st)) = Some st).
  { intros st Hst. unfold workflow_status.
    rewrite (proj2 (df_status _ _ _ _ _ Hdf _ (Db.mkStatus p (ws_Key st) (ws_Category st)))) by (right; by exists st).
    rewrite (df_new_name _ _ _ _ _ Hdf) by done. by destruct st. }
  revert Hw. generalize 1. generalize default_statuses. induction l as [|st l IH]; intros n Hw; [done|].
  cbn [numbered omap list_omap fst]. rewrite (Hw st) by (by left). f_equal. apply IH. intros st' Hst. apply Hw. by right.
Qed.

Lemma ready_key k : k ∈ ws_Key <$> default_statuses -> status_key s' (fresh k) = Some k.
Proof using All. intros Hk. destruct (default_row k Hk) as (st & _ & _ & Hr & _). unfold status_key. by rewrite Hr. Qed.

Lemma ready_arcs from a : (from, a) ∈ c_Transitions (resolved_at p 1 s') <-> (from, arc_To a, arc_Requires a) ∈ all_arcs.
Proof using All.
  cbn [c_Transitions resolved_at]. rewrite list_elem_of_omap. split.
  - intros ([[f t] req] & Hr & Hx). apply elem_arc_rows, (df_tr _ _ _ _ _ Hdf) in Hr as [Hr|(_ & a0 & Ha & -> & -> & ->)]; [by rewrite (bl_tr _ _ Hb) in Hr|].
    destruct (all_arcs_ends a0 Ha) as (H1 & H2 & _). rewrite (ready_key _ H1), (ready_key _ H2), requires_strings in Hx. injection Hx as <- <-.
    by destruct a0 as [[]].
  - intros Ha. exists (fresh from, fresh (arc_To a), JArr (map JStr (arc_Requires a))). split.
    + apply elem_arc_rows, (df_tr _ _ _ _ _ Hdf). right. split; [done|]. by exists (from, arc_To a, arc_Requires a).
    + destruct (all_arcs_ends _ Ha) as (H1 & H2 & _). cbn [fst snd] in H1, H2. rewrite (ready_key _ H1), (ready_key _ H2), requires_strings. by destruct a.
Qed.

Lemma ready_types t k : (t, k) ∈ c_Types (resolved_at p 1 s') <-> (t ∈ default_types.*1.*1) /\ k = "todo".
Proof using All.
  cbn [c_Types resolved_at]. rewrite list_elem_of_omap.
  assert (Htodo : status_key s' (fresh "todo") = Some "todo") by (by apply ready_key, default_key_mem).
  assert (Hrow : forall ty, ty ∈ default_types -> item_types (s_db s') !! fresh_type ty.1.1 = Some (mkItemType p ty.1.1 ty.2 false)).
  { intros ty Hty. apply (df_type _ _ _ _ _ Hdf). right. by exists ty. }
  split.
  - intros ([x st] & Hr & Hx). apply elem_type_rows, (df_ct _ _ _ _ _ Hdf) in Hr as [Hr|(_ & -> & ty & Hty & ->)]; [by rewrite (bl_ct _ _ Hb) in Hr|].
    cbn [fst snd] in Hx. rewrite (Hrow _ Hty), Htodo in Hx. injection Hx as <- <-. split; [|done]. by apply list_elem_of_fmap_2, list_elem_of_fmap_2.
  - intros [Ht ->]. apply list_elem_of_fmap in Ht as (kn & -> & Ht). apply list_elem_of_fmap in Ht as (ty & -> & Hty).
    exists (fresh_type ty.1.1, fresh "todo"). split; [apply elem_type_rows, (df_ct _ _ _ _ _ Hdf); right; split; [done|]; split; [done|]; by exists ty|].
    cbn [fst snd]. by rewrite (Hrow _ Hty), Htodo.
Qed.

Lemma ready_fields k : k ∈ c_Fields (resolved_at p 1 s') <-> k ∈ default_fields.*1.
Proof using All.
  cbn [c_Fields resolved_at]. rewrite list_elem_of_omap, list_elem_of_fmap. split.
  - intros ([[q k'] f] & Hin & Hx). apply elem_of_map_to_list in Hin. cbn [fst snd] in Hx. case_bool_decide; [|done]. injection Hx as ->. subst q.
    apply (df_field _ _ _ _ _ Hdf) in Hin as [Hin|[_ Hin]]; [by rewrite (bl_field _ _ Hb) in Hin|]. by exists (k, f).
  - intros ([k' f] & -> & Hin). exists ((p, k'), f). split; [|cbn [fst snd]; by rewrite bool_decide_true].
    apply elem_of_map_to_list, (df_field _ _ _ _ _ Hdf). by right.
Qed.

End ready.

(** * Creating a project *)

(** A request the handler accepts: an administrator, no field selection, and a name,
    kind, key prefix and owner that pass every check, the handler's and that of the
    database, which holds no U+0000. *)
Record valid_project `{UuidParse} (r : api_request) (inp : projectInput) (owner : option uuid) (s : Site) : Prop := {
  vp_fields : rejectFields r = Ok tt;
  vp_admin : Role (rq_who r) = "admin";
  vp_prefix : prefix_ok (in_KeyPrefix inp) = true;
  vp_free : mem_str (in_KeyPrefix inp) ReservedPrefixes = false;
  vp_unused : prefix_taken (WorkspaceID (rq_who r)) (in_KeyPrefix inp) (s_db s) = false;
  vp_name : name_bad (in_Name inp) = false;
  vp_storable : storable (in_Name inp) = true;
  vp_kind : kind_ok (in_Kind inp) = true;
  vp_owner : owner_of (WorkspaceID (rq_who r)) (in_OwnerID inp) s = Ok owner;
  vp_workspace : is_Some (s_workspace s !! WorkspaceID (rq_who r))
}.

(** Everything that belongs to project [q] is as it was. *)
Record undisturbed (q : uuid) (s s' : Site) : Prop := {
  ud_project : projects (s_db s') !! q = projects (s_db s) !! q;
  ud_row : s_project s' !! q = s_project s !! q;
  ud_versions v : (q, v) ∈ project_configs (s_db s') <-> (q, v) ∈ project_configs (s_db s);
  ud_cs v st : s_config_status s' !! (q, v, st) = s_config_status s !! (q, v, st);
  ud_ct v t : s_config_type s' !! (q, v, t) = s_config_type s !! (q, v, t);
  ud_tr v f t : s_config_transition s' !! (q, v, f, t) = s_config_transition s !! (q, v, f, t);
  ud_field k : s_field_def s' !! (q, k) = s_field_def s !! (q, k);
  ud_statuses id row : Db.s_project row = q -> statuses (s_db s') !! id = Some row <-> statuses (s_db s) !! id = Some row;
  ud_types id row : t_project row = q -> item_types (s_db s') !! id = Some row <-> item_types (s_db s) !! id = Some row
}.

(** The latest configuration is the default one. *)
Record default_config (c : workflowConfig) : Prop := {
  dc_version : Version c = 1;
  dc_statuses : c_Statuses c = default_statuses;
  dc_types t k : (t, k) ∈ c_Types c <-> (t ∈ default_types.*1.*1) /\ k = "todo";
  dc_arcs from a : (from, a) ∈ c_Transitions c <-> (from, arc_To a, arc_Requires a) ∈ all_arcs;
  dc_fields k : k ∈ c_Fields c <-> k ∈ default_fields.*1
}.

Lemma option_iff {A} (o o' : option A) : (forall a, o = Some a <-> o' = Some a) -> o = o'.
Proof. intros Ho. destruct o as [a|]; [symmetry; by apply Ho|]. destruct o' as [a|]; [|done]. by apply Ho. Qed.

Lemma defaulted_undisturbed fresh fresh_type p s s' q : defaulted fresh fresh_type p s s' -> q <> p -> undisturbed q s s'.
Proof.
  intros Hd Hq. pose proof (df_rest _ _ _ _ _ Hd) as Hrest. unfold db_rest in Hrest.
  split; try congruence.
  - intros v. rewrite (df_config _ _ _ _ _ Hd), elem_of_union, elem_of_singleton. split; [|by right]. intros [E|]; [|done]. congruence.
  - intros v st. apply option_iff. intros n. rewrite (df_cs _ _ _ _ _ Hd). split; [|by left]. intros [|[E _]]; [done|]. congruence.
  - intros v t. apply option_iff. intros n. rewrite (df_ct _ _ _ _ _ Hd). split; [|by left]. intros [|[E _]]; [done|]. congruence.
  - intros v f t. apply option_iff. intros n. rewrite (df_tr _ _ _ _ _ Hd). split; [|by left]. intros [|[E _]]; [done|]. congruence.
  - intros k. apply option_iff. intros n. rewrite (df_field _ _ _ _ _ Hd). split; [|by left]. intros [|[E _]]; [done|]. congruence.
  - intros id row Hr. rewrite (df_status _ _ _ _ _ Hd). split; [|by left]. intros [|(st & _ & _ & ->)]; [done|]. by subst q.
  - intros id row Hr. rewrite (df_type _ _ _ _ _ Hd). split; [|by left]. intros [|(t & _ & _ & ->)]; [done|]. by subst q.
Qed.

Section create.
Context `{UuidParse}.

(** A member named as owner has a membership row. *)
Lemma owner_member ws o s owner : owner_of ws o s = Ok owner ->
  match owner with Some u => active_member ws u s = true | None => True end.
Proof.
  unfold owner_of. destruct o as [id|]; [|by intros [= <-]]. destruct (uuid_parse id) as [u|]; [|done].
  destruct (active_member ws u s) eqn:E; [|done]. by intros [= <-].
Qed.

Lemma member_row ws u s : active_member ws u s = true -> is_Some (s_membership s !! (ws, u)).
Proof. unfold active_member. destruct (s_membership s !! (ws, u)); [by eexists|done]. Qed.

Definition inserted (id ws : uuid) (inp : projectInput) (owner : option uuid) (s : Site) : Site :=
  let d := s_db s in
  set_project (mkDb (seq_counter d) (items d) (rollups d) (links d) (comments d) (events d)
                 (<[id := mkProject ws (in_KeyPrefix inp) 1]> (projects d)) (statuses d) (item_types d) (project_configs d) (users d))
    (<[id := mkProjectRow (in_Name inp) (in_Kind inp) owner false 1]> (s_project s)) s.

Lemma storable_bytes (f : ascii -> bool) s : f Ascii.zero = false -> forallb f (chars s) = true -> storable s = true.
Proof.
  intros Hz. unfold storable. rewrite !forallb_forall. intros Hf c Hc. specialize (Hf c Hc). apply negb_true_iff, Ascii.eqb_neq. intros ->. congruence.
Qed.
Lemma prefix_storable k : prefix_ok k = true -> storable k = true.
Proof.
  unfold prefix_ok. intros Hp. apply (storable_bytes (fun c => upper_char_ok c || byte_in 48 57 c)); [done|].
  destruct (chars k) as [|c l]; [done|]. rewrite !andb_true_iff in Hp. destruct Hp as [[[Hc Hl] _] _]. cbn [forallb]. by rewrite Hc, Hl.
Qed.
Lemma kind_storable k : kind_ok k = true -> storable k = true.
Proof. unfold kind_ok. rewrite mem_str_spec, !elem_of_cons. intros [->|[->|[->|[]%elem_of_nil]]]; done. Qed.

Lemma insert_project_ok id r inp owner s :
  valid_project r inp owner s -> projects (s_db s) !! id = None ->
  insert_project id (WorkspaceID (rq_who r)) inp owner s = Ok (inserted id (WorkspaceID (rq_who r)) inp owner s).
Proof.
  intros [_ _ H1 _ H3 _ Ht H5 H6 H7] Hid. unfold insert_project. rewrite (prefix_storable _ H1), Ht, (kind_storable _ H5), H1, H5, Hid, H3, bool_decide_eq_false_2 by (by intros [? ?]). cbn [andb orb negb].
  rewrite bool_decide_eq_true_2 by done. apply owner_member in H6.
  replace (match owner with Some u => _ | None => true end) with true; [done|]. destruct owner as [u|]; [|done].
  symmetry. apply bool_decide_eq_true_2. by eapply member_row.
Qed.

Lemma inserted_invariants id ws inp owner s : projects (s_db s) !! id = None -> config_ok s -> refs_ok s ->
  config_ok (inserted id ws inp owner s) /\ refs_ok (inserted id ws inp owner s) /\ blank id (inserted id ws inp owner s).
Proof.
  intros Hid Hok Hr. split_and!.
  - destruct Hok as [O1 O2 O3 O4 O5]. by split.
  - assert (Hm : forall q, is_Some (projects (s_db s) !! q) -> is_Some (projects (s_db (inserted id ws inp owner s)) !! q)).
    { intros q Hq. cbn. destruct (decide (q = id)) as [->|]; [rewrite lookup_insert_eq; by eexists|by rewrite lookup_insert_ne]. }
    split; intros; apply Hm; [by eapply ro_status|by eapply ro_type|by eapply ro_config|by eapply ro_field].
  - destruct (unknown_blank id s Hok Hr Hid) as [B1 B2 B3 B4 B5 B6 B7]. by split.
Qed.

Lemma inserted_undisturbed id ws inp owner s q : q <> id -> undisturbed q s (inserted id ws inp owner s).
Proof. intros Hq. split; try done; cbn; by rewrite lookup_insert_ne. Qed.

Lemma undisturbed_trans q s1 s2 s3 : undisturbed q s1 s2 -> undisturbed q s2 s3 -> undisturbed q s1 s3.
Proof.
  intros [A1 A2 A3 A4 A5 A6 A7 A8 A9] [B1 B2 B3 B4 B5 B6 B7 B8 B9]. split; intros; try congruence.
  - by rewrite B3.
  - by rewrite B8, A8.
  - by rewrite B9, A9.
Qed.

(** A project nothing refers to has the default configuration once it is installed. *)
Lemma installed_ready fresh fresh_type id s1 :
  config_ok s1 -> refs_ok s1 -> blank id s1 -> new_ids fresh fresh_type s1 -> is_Some (projects (s_db s1) !! id) ->
  exists s', InstallConfig fresh fresh_type id s1 = Ok s' /\ defaulted fresh fresh_type id s1 s' /\ config_ok s' /\ refs_ok s' /\
    resolved_config id s' = Ok (resolved_at id 1 s') /\ default_config (resolved_at id 1 s').
Proof.
  intros Hok1 Hr1 Hb1 Hids1 Hp. destruct (InstallConfig_ok fresh fresh_type id s1 Hb1 Hids1) as (s' & Ei & Hd). exists s'. split_and!; try done.
  - by eapply (ready_config_ok fresh fresh_type id s1).
  - by eapply (ready_refs_ok fresh fresh_type id s1).
  - unfold resolved_config. by rewrite (ready_max fresh fresh_type id s1 s' Hb1 Hd).
  - split; [done| | | |]; intros.
    + by eapply (ready_statuses fresh fresh_type id s1).
    + by eapply (ready_types fresh fresh_type id s1).
    + by eapply (ready_arcs fresh fresh_type id s1).
    + by eapply (ready_fields fresh fresh_type id s1).
Qed.

(** C32. Creating a project always succeeds on a valid request, whose name has no U+0000
    (the one thing the handler lets through that the database refuses), and leaves a
    project that is ready to use: the answer is 201 with its location and document, its latest
    configuration is version 1 with the five default statuses in their order, the
    default types starting at [todo], the default arcs and fields; the invariants of
    the configuration tables still hold, and every other project keeps all its rows. *)
Theorem createProject_ready id fresh fresh_type r inp owner s :
  config_ok s -> refs_ok s -> new_ids fresh fresh_type s -> projects (s_db s) !! id = None -> valid_project r inp owner s ->
  exists s' row c, createProject id fresh fresh_type r (Ok inp) s =
      (RDoc 201 None (Some ("/api/v1/projects/" +:+ in_KeyPrefix inp)) (project_json s' id (in_KeyPrefix inp) row), s') /\
    row = mkProjectRow (in_Name inp) (in_Kind inp) owner false 1 /\ s_project s' !! id = Some row /\
    projects (s_db s') !! id = Some (mkProject (WorkspaceID (rq_who r)) (in_KeyPrefix inp) 1) /\
    config_ok s' /\ refs_ok s' /\
    resolved_config id s' = Ok c /\ default_config c /\
    (forall q, q <> id -> undisturbed q s s').
Proof.
  intros Hok Hr Hids Hid Hv. set (s1 := inserted id (WorkspaceID (rq_who r)) inp owner s).
  destruct (inserted_invariants id (WorkspaceID (rq_who r)) inp owner s Hid Hok Hr) as (Hok1 & Hr1 & Hb1).
  assert (Hids1 : new_ids fresh fresh_type s1) by (destruct Hids; by split).
  destruct (installed_ready fresh fresh_type id s1 Hok1 Hr1 Hb1 Hids1) as (s' & Ei & Hd & Hok' & Hr' & Hc & Hdc);
    [cbn; rewrite lookup_insert_eq; by eexists|].
  pose proof (df_rest _ _ _ _ _ Hd) as Hrest. unfold db_rest in Hrest.
  assert (Hp : projects (s_db s') !! id = Some (mkProject (WorkspaceID (rq_who r)) (in_KeyPrefix inp) 1)).
  { replace (projects (s_db s')) with (projects (s_db s1)) by congruence. apply lookup_insert_eq. }
  assert (Hrow : s_project s' !! id = Some (mkProjectRow (in_Name inp) (in_Kind inp) owner false 1)).
  { replace (s_project s') with (s_project s1) by congruence. apply lookup_insert_eq. }
  exists s', (mkProjectRow (in_Name inp) (in_Kind inp) owner false 1), (resolved_at id 1 s'). split_and!; try done.
  - unfold createProject, create_project. rewrite (vp_fields _ _ _ _ Hv), (vp_admin _ _ _ _ Hv), String.eqb_refl. cbn [negb].
    rewrite (vp_prefix _ _ _ _ Hv), (vp_free _ _ _ _ Hv), (vp_name _ _ _ _ Hv), (vp_kind _ _ _ _ Hv), (vp_owner _ _ _ _ Hv).
    cbn [negb orb]. rewrite (insert_project_ok id r inp owner s Hv Hid). cbn [db_problem]. fold s1. rewrite Ei. cbn [db_problem].
    by rewrite Hp, Hrow.
  - intros q Hq. eapply undisturbed_trans; [by apply inserted_undisturbed|]. by eapply defaulted_undisturbed.
Qed.

End create.

End ProjectReady.

(** Editing the metadata of a project never loses an edit: what an accepted request
    changes, and what the next one with the same version is told. Also the witnesses
    of the properties of projects on the small site. *)
From S2P Require Import Prelude Utf8 Uuid Float Json Db Demo Cursor Problem Site Workflow WorkflowProps SiteDemo Projects ProjectsProps.
Open Scope Z_scope.

Module ProjectEdits.
Import Db Problem Site Workflow WorkflowProps SiteDemo Projects ProjectsProps ProjectReady.

#[local] Set Warnings "-clear-no-such-hyp".

Section edits.
Context `{UuidParse}.

Definition named_rows (ws : uuid) (prefix : string) (s : Site) : list (uuid * Project * project_row) :=
  omap (fun r : uuid * Project =>
      if bool_decide (p_workspace r.2 = ws) && String.eqb (p_key_prefix r.2) prefix
      then match s_project s !! r.1 with Some row => Some (r, row) | None => None end else None)
    (map_to_list (projects (s_db s))).

Lemma project_named_rows ws prefix s : project_named ws prefix s = query_row (named_rows ws prefix s).
Proof. done. Qed.

Lemma project_named_inv ws prefix s id p row : project_named ws prefix s = Ok (id, p, row) ->
  projects (s_db s) !! id = Some p /\ p_workspace p = ws /\ p_key_prefix p = prefix /\ s_project s !! id = Some row.
Proof.
  rewrite project_named_rows. unfold query_row. destruct (named_rows ws prefix s) as [|x l] eqn:E; [done|]. intros [= ->].
  assert (Hin : (id, p, row) ∈ named_rows ws prefix s) by (rewrite E; by left).
  unfold named_rows in Hin. apply list_elem_of_omap in Hin as ([id' p'] & Hin & Hx). apply elem_of_map_to_list in Hin. cbn [fst snd] in Hx.
  destruct (bool_decide _) eqn:Hw; [|done]. destruct (String.eqb_spec (p_key_prefix p') prefix); [|done]. cbn [andb] in Hx.
  destruct (s_project s !! id') eqn:Hr; [|done]. injection Hx as -> -> ->. by apply bool_decide_eq_true in Hw.
Qed.

Lemma read_patch_name m pt n : read_patch m = Ok pt -> pt_name pt = Some n -> name_bad n = false.
Proof.
  unfold read_patch. destruct m as [|kv m]; [done|]. destruct (negb _); [done|].
  destruct (obj_get "name" _) as [v|].
  - destruct v; try done. destruct (name_bad s) eqn:Hb; [done|].
    destruct (obj_get "owner_id" _) as [[]|]; try (destruct (String.eqb _ _)); try done; intros [= <-] [= <-]; done.
  - destruct (obj_get "owner_id" _) as [[]|]; try (destruct (String.eqb _ _)); try done; intros [= <-]; done.
Qed.

(** Replacing the row of the project that is found does not change which one is found. *)
Lemma project_named_update ws prefix s id p row row' : project_named ws prefix s = Ok (id, p, row) ->
  project_named ws prefix (set_project (s_db s) (<[id := row']> (s_project s)) s) = Ok (id, p, row').
Proof.
  intros Hn. destruct (project_named_inv _ _ _ _ _ _ Hn) as (_ & _ & _ & Hr). revert Hn.
  unfold project_named. cbn [s_db set_project s_project].
  induction (map_to_list (projects (s_db s))) as [|[q pq] l IH]; [done|]. cbn [omap list_omap fst snd].
  destruct (bool_decide _ && _); [|exact IH]. destruct (decide (q = id)) as [->|Hne].
  - rewrite lookup_insert_eq, Hr. cbn [query_row]. by intros [= <-].
  - rewrite lookup_insert_ne by done. destruct (s_project s !! q) as [x|]; [|exact IH]. cbn [query_row]. by intros [= -> _].
Qed.

(** What an accepted edit means: who asked, for which project, with which changes. *)
Record edited (r : api_request) (s s' : Site) (id : uuid) (p : Project) (row row' : project_row) (pt : projectPatch) (owner : option (option uuid)) : Prop := {
  ed_admin : Role (rq_who r) = "admin";
  ed_version : project_version r = Ok (pj_version row);
  ed_patch : exists m, decode_raw r = Ok m /\ read_patch m = Ok pt;
  ed_found : project_named (WorkspaceID (rq_who r)) (rq_param r) s = Ok (id, p, row);
  ed_owner : match pt_owner pt with
             | None => owner = None
             | Some o => exists u, owner_of (WorkspaceID (rq_who r)) o s = Ok u /\ owner = Some u
             end;
  ed_row : row' = patched_row row (pt_name pt) owner;
  ed_bound : pj_version row' <= 2 ^ 31 - 1;
  ed_state : s' = set_project (s_db s) (<[id := row']> (s_project s)) s
}.

Lemma update_project_inv r s id p row' s' :
  update_project r s = Ok (id, p, row', s') -> exists row pt owner, edited r s s' id p row row' pt owner.
Proof.
  unfold update_project. destruct (rejectFields r); [|done]. destruct (String.eqb_spec (Role (rq_who r)) "admin"); [|done]. cbn [negb].
  destruct (project_version r) as [v|] eqn:Ev; [|done]. destruct (decode_raw r) as [m|] eqn:Em; [|done].
  destruct (read_patch m) as [pt|] eqn:Ept; [|done].
  destruct (project_named _ _ s) as [[[id0 p0] row]|] eqn:En; [|done]. cbn [db_problem].
  destruct (Z.eqb_spec (pj_version row) v) as [<-|]; [|done]. cbn [negb].
  set (ow := match pt_owner pt with None => _ | Some _ => _ end). destruct ow as [owner|] eqn:Eo; [|done].
  destruct (negb (match pt_name pt with Some n => storable n | None => true end)); [done|].
  destruct (in_int32 _) eqn:Eb; [|done]. cbn [negb]. intros [= <- <- <- <-]. exists row, pt, owner. split; try done; [by exists m| |].
  - unfold ow in Eo. destruct (pt_owner pt) as [o|]; [|by injection Eo as <-].
    destruct (owner_of _ o s) as [u|]; [|done]. injection Eo as <-. by exists u.
  - unfold in_int32 in Eb. lia.
Qed.

(** C35. No edit of a project's metadata is lost. A 200 answer means that an
    administrator named the stored version; then exactly that project's row changes,
    by the submitted name and owner (an active member of the workspace or null), its
    version grows by one without overflow, and the answer carries the new row and
    version. A second edit that still names the old version is refused: with any
    body that passes its checks the answer is the 409 that holds the row just
    written next to what was submitted, and nothing is stored. *)
Theorem updateProject_exact r s et loc doc s' :
  updateProject r s = (RDoc 200 et loc doc, s') ->
  exists id p row row' pt owner, edited r s s' id p row row' pt owner /\
    pj_version row' = pj_version row + 1 /\ et = Some (pj_version row') /\ doc = project_json s' id (p_key_prefix p) row' /\
    (forall n, pt_name pt = Some n -> pj_name row' = n /\ name_bad n = false) /\
    (forall u, pt_owner pt <> None -> pj_owner row' = Some u -> active_member (WorkspaceID (rq_who r)) u s = true) /\
    (forall r2 m2 pt2, rq_who r2 = rq_who r -> rq_param r2 = rq_param r -> rejectFields r2 = Ok tt -> project_version r2 = Ok (pj_version row) ->
       decode_raw r2 = Ok m2 -> read_patch m2 = Ok pt2 -> updateProject r2 s' = (RProblem (project_conflict doc pt2), s')).
Proof.
  unfold updateProject at 1. destruct (update_project r s) as [[[[id p] row'] s1]|] eqn:E; [|done]. intros [= <- <- <- <-].
  apply update_project_inv in E as (row & pt & owner & He). exists id, p, row, row', pt, owner. split; [done|].
  destruct He as [Ha Hv (m & Hm & Hpt) Hf Ho -> Hb ->]. split_and!; try done.
  - intros n Hn. cbn. rewrite Hn. split; [done|]. eapply read_patch_name; done.
  - intros u Hne Hu. cbn in Hu. destruct (pt_owner pt) as [o|]; [|done]. destruct Ho as (u' & Ho & ->). subst u'. by apply owner_member in Ho.
  - intros r2 m2 pt2 Hw Hp Hr Hv2 Hm2 Hpt2. unfold updateProject, update_project. rewrite Hr, Hw, Ha, Hv2, Hm2, Hpt2, Hp, String.eqb_refl. cbn [negb].
    rewrite (project_named_update _ _ _ _ _ _ _ Hf). cbn [db_problem patched_row pj_version].
    by replace (pj_version row + 1 =? pj_version row) with false by lia.
Qed.

End edits.

(** * On the small site *)

Definition new_status (k : string) : uuid := U (1000 + 256 * N.of_nat (String.length k) + match k with String c _ => Ascii.N_of_ascii c | EmptyString => 0 end).
Definition fresh_type (k : string) : uuid := U (300 + N.of_nat (String.length k)).
Definition new_input : projectInput := mkProjectInput "OPS" "Operations" "delivery" None.
Definition new_project : uuid := U 500.

(** The foreign keys, by computation. *)
Definition refs_okb (s : Site) : bool :=
  all_entries (fun e => is_some (projects (s_db s) !! Db.s_project e.2)) (statuses (s_db s)) &&
  all_entries (fun e => is_some (projects (s_db s) !! t_project e.2)) (item_types (s_db s)) &&
  forallb (fun pv => is_some (projects (s_db s) !! pv.1)) (elements (project_configs (s_db s))) &&
  all_entries (fun e => is_some (projects (s_db s) !! e.1.1)) (s_field_def s).

Lemma refs_okb_spec s : refs_okb s = true -> refs_ok s.
Proof.
  unfold refs_okb. rewrite !andb_true_iff. intros [[[H1 H2] H3] H4]. split.
  - intros id row Hl. apply is_some_spec. exact (all_entries_spec _ _ _ _ H1 Hl).
  - intros id row Hl. apply is_some_spec. exact (all_entries_spec _ _ _ _ H2 Hl).
  - intros p v Hin. apply is_some_spec. rewrite forallb_forall in H3. apply (H3 (p, v)). by rewrite <- list_elem_of_In, elem_of_elements.
  - intros p k f Hl. apply is_some_spec. exact (all_entries_spec _ _ _ _ H4 Hl).
Qed.

Lemma site0_refs : refs_ok site0.
Proof. apply refs_okb_spec. vm_compute. reflexivity. Qed.

Lemma site0_new_ids : new_ids new_status fresh_type site0.
Proof.
  split.
  - refine (proj1 (bool_decide_eq_true _) _). vm_compute. reflexivity.
  - intros k Hk. unfold default_statuses in Hk. cbn [fmap list_fmap ws_Key] in Hk.
    repeat (apply elem_of_cons in Hk as [->|Hk]; [vm_compute; reflexivity|]). by apply elem_of_nil in Hk.
  - refine (proj1 (bool_decide_eq_true _) _). vm_compute. reflexivity.
  - intros k Hk. unfold default_types in Hk. cbn [fmap list_fmap fst] in Hk.
    repeat (apply elem_of_cons in Hk as [->|Hk]; [vm_compute; reflexivity|]). by apply elem_of_nil in Hk.
Qed.

Lemma new_input_valid : valid_project (request "" "" JNull) new_input None site0.
Proof. split; try (vm_compute; reflexivity). eexists. vm_compute. reflexivity. Qed.

Lemma new_project_free : projects (s_db site0) !! new_project = None.
Proof. vm_compute. reflexivity. Qed.

Lemma createProject_ready_witness :
  exists s' c, reply_status (createProject new_project new_status fresh_type (request "" "" JNull) (Ok new_input) site0).1 = 201 /\
    (createProject new_project new_status fresh_type (request "" "" JNull) (Ok new_input) site0).2 = s' /\
    resolved_config new_project s' = Ok c /\ c_Statuses c = default_statuses /\ undisturbed project site0 s'.
Proof.
  destruct (createProject_ready new_project new_status fresh_type (request "" "" JNull) new_input None site0 site0_ok site0_refs
    site0_new_ids new_project_free new_input_valid) as (s' & row & c & E & _ & _ & _ & _ & _ & Hc & Hd & Hu).
  exists s', c. rewrite E. split; [reflexivity|]. split; [reflexivity|]. split; [exact Hc|]. split; [exact (dc_statuses _ Hd)|].
  apply Hu. refine (proj1 (bool_decide_eq_false _) _). vm_compute. reflexivity.
Defined.

Definition rename : api_request := request (etag_text 1) "SRX" (JObj [("name", JStr "Sierx"); ("owner_id", JStr (uuid_string user))]).

Definition renamed : reply * Site := updateProject rename site0.

Lemma renamed_reply : match renamed.1 with RDoc st _ _ _ => st | RProblem _ => 0 end = 200.
Proof. vm_compute. reflexivity. Qed.
Lemma renamed_name : pj_name <$> s_project renamed.2 !! project = Some "Sierx".
Proof. vm_compute. reflexivity. Qed.

Lemma updateProject_exact_witness :
  exists et loc doc s', updateProject rename site0 = (RDoc 200 et loc doc, s') /\
    (pj_name <$> s_project s' !! project) = Some "Sierx" /\
    updateProject rename s' = (RProblem (project_conflict doc (mkPatch (Some "Sierx") (Some (Some (uuid_string user))))), s').
Proof.
  pose proof renamed_reply as Hs. pose proof renamed_name as Hn. unfold renamed in *.
  destruct (updateProject rename site0) as [[pr|st et loc doc] s'] eqn:E; cbn [fst snd] in Hs, Hn; [discriminate Hs|subst st].
  destruct (updateProject_exact rename site0 _ _ _ _ E) as (id & p & row & row' & pt & owner & He & _ & _ & _ & _ & _ & H2).
  exists et, loc, doc, s'. split; [done|]. split; [done|].
  eapply H2; try reflexivity. rewrite <- (ed_version _ _ _ _ _ _ _ _ _ He). reflexivity.
Defined.

End ProjectEdits.
