(* ===== verification/Operator.v ===== *)
(** The operator's lifecycle commands, [cmd/sierxctl/lifecycle.go] and
    [retention.go], on the journal of [Journal.v] and the database functions
    [sierx_lifecycle_plan] and [sierx_lifecycle_apply]. *)
From S2P Require Import Prelude Utf8 Uuid Journal.
Open Scope Z_scope.

Module Operator.
Import Journal.

(** * The lifecycle tables *)

(** [operator_lifecycle_hold] *)
Record hold := mkHold {
  h_workspace : uuid; h_case : uuid; h_authority : uuid; h_started : string; h_review : string; h_released : option (string * uuid) }.

(** The rest of the database, which the two functions read and change: which rows a
    decision covers, given the holds ([None]: a check fails), what applying it does
    to them, whether its times are in order. *)
Class Content (C : Type) := {
  stamp_ok : string -> bool;
  review_later : string -> string -> bool;
  enumerate : C -> gmap uuid hold -> Action -> option (list string * list string * list string);
  effect : C -> gmap uuid hold -> Action -> option C
}.

(** [operator_lifecycle_event] *)
Inductive outcome := Applied | Blocked.
#[export] Instance outcome_eq_dec : EqDecision outcome.
Proof. solve_decision. Defined.
Record audit_event := mkEvent { e_case : uuid; e_outcome : outcome; e_sequence : option Z; e_decision : Action }.

(** The state row, the holds, the origin of each workspace, the audit, and the rest. *)
Record LifecycleDb (C : Type) := mkLdb {
  l_instance : uuid; l_sequence : Z; l_head : string;
  l_holds : gmap uuid hold; l_origin : gmap uuid uuid; l_events : list audit_event; l_content : C }.
Arguments mkLdb {C}. Arguments l_instance {C}. Arguments l_sequence {C}. Arguments l_head {C}.
Arguments l_holds {C}. Arguments l_origin {C}. Arguments l_events {C}. Arguments l_content {C}.

(** [a - 'correction'] *)
Definition without_correction (a : Action) : Action :=
  mkAction (Kind a) (CaseRef a) (WorkspaceID a) (TargetID a) (ReplacementID a) (AuthorityRef a) (ReviewAt a) (Cutoff a)
    "" (EventSeq a) (At a) (a_InstanceID a) (WorkspaceOrigin a) (ItemIDs a) (CommentIDs a) (ViewIDs a).

(** [a || jsonb_build_object(...)] *)
Definition materialized (a : Action) (inst origin : string) (ids : list string * list string * list string) : Action :=
  mkAction (Kind a) (CaseRef a) (WorkspaceID a) (TargetID a) (ReplacementID a) (AuthorityRef a) (ReviewAt a) (Cutoff a)
    (Correction a) (EventSeq a) (At a) inst origin ids.1.1 ids.1.2 ids.2.

(** The kinds a hold on the workspace blocks, and all kinds. *)
Definition destructive : list string :=
  ["redact-item"; "redact-comment"; "redact-view"; "redact-history"; "correct-history"; "retention"; "remove-member"; "anonymize-account"].
Definition kinds : list string := ["hold-create"; "hold-release"; "takedown"; "restore-content"; "cleanup"] ++ destructive.

(** [p_head ~ '^[0-9a-f]{64}$'] *)
Definition hex64 (s : string) : bool :=
  forallb (fun c => byte_in 48 57 c || byte_in 97 102 c) (chars s) && (String.length s =? 64)%nat.

Definition bounded (ids : list string * list string * list string) : bool :=
  (Z.of_nat (length ids.1.1) <=? 512) && (Z.of_nat (length ids.1.2) <=? 10000) && (Z.of_nat (length ids.2) <=? 512).

Section database.
Context {C : Type} `{UuidParse} `{Content C}.

(** [NULLIF(s,'')::uuid]; the outer [None] is a failed cast. *)
Definition sql_uuid (s : string) : option (option uuid) :=
  if String.eqb s "" then Some None else option_map Some (uuid_parse s).

Definition held (w : uuid) (d : LifecycleDb C) : bool :=
  existsb (fun r : uuid * hold => bool_decide (h_workspace r.2 = w) && match h_released r.2 with None => true | Some _ => false end)
    (map_to_list (l_holds d)).
Definition hold_blocks (a : Action) (w : option uuid) (d : LifecycleDb C) : bool :=
  mem_str (Kind a) destructive && match w with Some w => held w d | None => false end.

Definition active_hold (t : uuid) (w : option uuid) (d : LifecycleDb C) : bool :=
  match l_holds d !! t with
  | Some h => bool_decide (Some (h_workspace h) = w) && match h_released h with None => true | Some _ => false end
  | None => false
  end.

(** [sierx_lifecycle_plan]; [None] is an exception. *)
Definition targets (a : Action) (w : option uuid) (d : LifecycleDb C) : option (list string * list string * list string) :=
  match sql_uuid (TargetID a) with
  | None => None
  | Some t =>
      if String.eqb (Kind a) "hold-create" then
        match t, uuid_parse (AuthorityRef a) with
        | Some t, Some _ =>
            if review_later (At a) (ReviewAt a) && negb (bool_decide (is_Some (l_holds d !! t))) then Some ([], [], []) else None
        | _, _ => None
        end
      else if String.eqb (Kind a) "hold-release" then
        match t with Some t => if active_hold t w d then Some ([], [], []) else None | None => None end
      else if String.eqb (Kind a) "cleanup" then Some ([], [], [])
      else if mem_str (Kind a) kinds then enumerate (l_content d) (l_holds d) a
      else None
  end.

Definition sierx_lifecycle_plan (d : LifecycleDb C) (a : Action) : option Action :=
  match sql_uuid (WorkspaceID a), uuid_parse (CaseRef a) with
  | Some w, Some _ =>
      if negb (stamp_ok (At a)) then None
      else
        match match w with
              | Some w => option_map uuid_string (l_origin d !! w)
              | None => if String.eqb (Kind a) "cleanup" then Some "" else None
              end with
        | None => None
        | Some origin =>
            if hold_blocks a w d then None
            else match targets a w d with
                 | Some ids => if bounded ids then Some (materialized a (uuid_string (l_instance d)) origin ids) else None
                 | None => None
                 end
        end
  | _, _ => None
  end.

(** What the decision does to the table of holds; [None] is an exception. *)
Definition apply_holds (a : Action) (w : option uuid) (c : uuid) (d : LifecycleDb C) : option (gmap uuid hold) :=
  match sql_uuid (TargetID a) with
  | None => None
  | Some t =>
      if String.eqb (Kind a) "hold-create" then
        match t, w, uuid_parse (AuthorityRef a) with
        | Some t, Some w, Some auth =>
            if bool_decide (is_Some (l_holds d !! t)) || negb (review_later (At a) (ReviewAt a)) then None
            else Some (<[t := mkHold w c auth (At a) (ReviewAt a) None]> (l_holds d))
        | _, _, _ => None
        end
      else if String.eqb (Kind a) "hold-release" then
        match t with
        | Some t =>
            if active_hold t w d
            then Some (alter (fun h => mkHold (h_workspace h) (h_case h) (h_authority h) (h_started h) (h_review h) (Some (At a, c))) t (l_holds d))
            else Some (l_holds d)
        | None => Some (l_holds d)
        end
      else Some (l_holds d)
  end.

(** [sierx_lifecycle_apply] on the action and the three values of a record. *)
Definition sierx_lifecycle_apply (d : LifecycleDb C) (r : Record_) : option (LifecycleDb C) :=
  let a := r_Action (body r) in
  match sql_uuid (WorkspaceID a), uuid_parse (CaseRef a) with
  | Some w, Some c =>
      if negb (bool_decide (uuid_parse (a_InstanceID a) = Some (l_instance d))) ||
         negb (r_Sequence (body r) =? l_sequence d + 1) || negb (String.eqb (Previous (body r)) (l_head d)) || negb (hex64 (r_Hash r))
      then None
      else if match w with
              | Some w => negb (bool_decide (is_Some (l_origin d !! w) /\ l_origin d !! w = uuid_parse (WorkspaceOrigin a)))
              | None => false
              end then None
      else if hold_blocks a w d then None
      else if negb (bounded (ItemIDs a, CommentIDs a, ViewIDs a)) || negb (mem_str (Kind a) kinds) then None
      else
        match apply_holds a w c d with
        | None => None
        | Some holds =>
            match effect (l_content d) holds a with
            | None => None
            | Some content =>
                Some (mkLdb (l_instance d) (r_Sequence (body r)) (r_Hash r) holds (l_origin d)
                        (l_events d ++ [mkEvent c Applied (Some (r_Sequence (body r))) (without_correction a)]) content)
            end
        end
  | _, _ => None
  end.

(** [sierx_lifecycle_blocked] *)
Definition sierx_lifecycle_blocked (d : LifecycleDb C) (a : Action) : option (LifecycleDb C) :=
  match uuid_parse (CaseRef a) with
  | Some c => Some (mkLdb (l_instance d) (l_sequence d) (l_head d) (l_holds d) (l_origin d)
                      (l_events d ++ [mkEvent c Blocked None (without_correction a)]) (l_content d))
  | None => None
  end.

(** [ApplyRecord] *)
Definition ApplyRecord (d : LifecycleDb C) (r : Record_) : result string (LifecycleDb C) :=
  match sierx_lifecycle_apply d r with
  | Some d => Ok d
  | None => Err "lifecycle decision could not be applied; application access stays blocked until reconciliation"
  end.

Definition DatabaseHead (d : LifecycleDb C) : Head_ := mkHead (uuid_string (l_instance d)) (l_sequence d) (l_head d) "".

End database.

(** * sierxctl lifecycle *)

Record Paths := mkPaths { p_Journal : string; p_Key : string; p_Checkpoint : string }.

Definition EnvironmentPaths (getenv : string -> string) : result string Paths :=
  let p := mkPaths (getenv "SIERX_LIFECYCLE_JOURNAL") (getenv "SIERX_LIFECYCLE_KEY_FILE") (getenv "SIERX_LIFECYCLE_CHECKPOINT") in
  if String.eqb (p_Journal p) "" || String.eqb (p_Key p) "" || String.eqb (p_Checkpoint p) "" ||
     String.eqb (p_Journal p) (p_Key p) || String.eqb (p_Journal p) (p_Checkpoint p) || String.eqb (p_Key p) (p_Checkpoint p)
  then Err "distinct SIERX_LIFECYCLE_JOURNAL, SIERX_LIFECYCLE_KEY_FILE and SIERX_LIFECYCLE_CHECKPOINT paths are required"
  else Ok p.

(** The modes; the action of [plan] and [apply] is the one read from the file. *)
Inductive mode := MInit | MPlan (a : Action) | MApply (a : Action) | MReplay | MVerify | MReconcile.

(** What becomes of a COMMIT: an error leaves it open whether it took effect. *)
Inductive commit := Committed | CommitLost | CommitUnknown.

Section command.
Context {C : Type} `{UuidParse} `{Content C} {CR : Crypto} {CH : Codec Head_} {CB : Codec Body} {CE : Codec envelope}.

Record World := mkWorld { w_fs : fs; w_db : LifecycleDb C }.

Definition end_transaction (o : commit) (s : fs) (before after : LifecycleDb C) : result string Z * World :=
  let failed := Err "database commit uncertain; verify and replay before application access" in
  match o with
  | Committed => (Ok (l_sequence after), mkWorld s after)
  | CommitLost => (failed, mkWorld s before)
  | CommitUnknown => (failed, mkWorld s after)
  end.

(** The part of [runLifecycle] that has the journal: [h0] is the head of the database
    as it was first read, [s] the files. *)
Definition with_journal (m : mode) (h0 : Head_) (o : commit) (nonce : bytes) (j : Journal_) (s : fs) (d : LifecycleDb C) :
    result string Z * World :=
  let w := mkWorld s d in
  match Prefix j h0 with
  | None => (Err "index out of range", w)
  | Some false => (Err "database is not an authenticated prefix of this instance journal", w)
  | Some true =>
      match m with
      | MReplay =>
          match Prefix j (DatabaseHead d) with
          | None => (Err "index out of range", w)
          | Some false => (Err "restored database does not match journal prefix", w)
          | Some true =>
              match foldM ApplyRecord (List.filter (fun r => l_sequence d <? r_Sequence (body r)) (Records j)) d with
              | Err e => (Err e, w)
              | Ok d' => end_transaction o s d d'
              end
          end
      | MApply a =>
          if negb (Matches j (DatabaseHead d)) then (Err "replay the pending journal decisions before adding an operation", w)
          else
            match sierx_lifecycle_plan d a with
            | None =>
                match sierx_lifecycle_blocked d a with
                | None => (Err "operation refused; blocked-attempt audit failed", w)
                | Some d' => (Err "operation refused by lifecycle validation (check hold, target, scope, prerequisite and bounds)", mkWorld s d')
                end
            | Some p =>
                match Append s j p nonce with
                | Err e => (Err e, w)
                | Ok (r, _, s') =>
                    match ApplyRecord d r with
                    | Err e => (Err e, mkWorld s' d)
                    | Ok d' => end_transaction o s' d d'
                    end
                end
            end
      | _ =>
          if Matches j h0 then (Ok (Sequence h0), w)
          else (Err "journal is verified; database replay is required before application access", w)
      end
  end.

(** The plan of a decision is worked out in a transaction that is rolled back. *)
Definition planLifecycle (a : Action) (d : LifecycleDb C) : result string Action :=
  match sierx_lifecycle_plan d a with
  | None => Err "plan refused (check target, hold, scope, prerequisite and bounds)"
  | Some p => Ok p
  end.

(** [runLifecycle]; [verification] is the path of the key file [Init] puts beside the
    checkpoint, [key] its random key. The lock directory beside the journal keeps
    other commands out (see [Lock]). *)
Definition runLifecycle (getenv : string -> string) (verification : string) (m : mode) (h0 : Head_) (o : commit) (key nonce : bytes) (w : World) :
    result string Z * World :=
  match m with
  | MPlan a =>
      match planLifecycle a (w_db w) with
      | Err e => (Err e, w)
      | Ok _ => (Ok (l_sequence (w_db w)), w)
      end
  | _ =>
      match EnvironmentPaths getenv with
      | Err e => (Err e, w)
      | Ok p =>
          match m with
          | MInit =>
              if negb (Sequence h0 =? 0) || negb (String.eqb (Hash h0) "")
              then (Err "cannot initialize over existing decisions; recover the original journal and key", w)
              else match Init (w_fs w) (p_Journal p) (p_Key p) (p_Checkpoint p) verification (InstanceID h0) key with
                   | Err e => (Err e, w)
                   | Ok (_, s) => (Ok 0, mkWorld s (w_db w))
                   end
          | MReconcile =>
              match RecoverCheckpoint (w_fs w) (p_Journal p) (p_Key p) (p_Checkpoint p) with
              | Err e => (Err e, w)
              | Ok (j, s) => with_journal m h0 o nonce j s (w_db w)
              end
          | _ =>
              match Load (w_fs w) (p_Journal p) (p_Key p) (p_Checkpoint p) with
              | Err e => (Err e, w)
              | Ok j => with_journal m h0 o nonce j (w_fs w) (w_db w)
              end
          end
      end
  end.

(** * The operator's request file *)

(** [canonicalUUID] *)
Definition canonicalUUID (s : string) : bool :=
  let l := chars s in
  let hex_any c := byte_in 48 57 c || byte_in 97 102 c || byte_in 65 70 c in
  (length l =? 36)%nat &&
  forallb (fun ic => if existsb (Nat.eqb ic.1) [8; 13; 18; 23]%nat then Ascii.eqb ic.2 "-" else hex_any ic.2) (combine (seq 0 36) l).

(** [readLifecycleAction] after the file was decoded; [fresh] is the identifier of a
    new hold, [now] the time. *)
Definition readLifecycleAction (f : option file) (decoded : result string Action) (fresh now : string) : result string Action :=
  match f with
  | None => Err "action must be a bounded regular JSON file"
  | Some f =>
      if negb (regular f) || (32768 <? size (data f)) then Err "action must be a bounded regular JSON file"
      else if negb (owner_only f) then Err "action file must have owner-only permissions"
      else
        let* a := decoded in
        let empty {A} (l : list A) := (length l =? 0)%nat in
        if negb (canonicalUUID (CaseRef a)) || negb (String.eqb (a_InstanceID a) "") || negb (String.eqb (WorkspaceOrigin a) "") ||
           negb (empty (ItemIDs a)) || negb (empty (CommentIDs a)) || negb (empty (ViewIDs a))
        then Err "case UUID required; materialized internal decision fields are not accepted"
        else if negb (forallb (fun id => String.eqb id "" || canonicalUUID id) [WorkspaceID a; TargetID a; ReplacementID a; AuthorityRef a])
        then Err "all identifiers must be canonical UUIDs"
        else
          let target := if String.eqb (Kind a) "hold-create" && String.eqb (TargetID a) "" then fresh else TargetID a in
          Ok (mkAction (Kind a) (CaseRef a) (WorkspaceID a) target (ReplacementID a) (AuthorityRef a) (ReviewAt a) (Cutoff a)
                (Correction a) (EventSeq a) now (a_InstanceID a) (WorkspaceOrigin a) (ItemIDs a) (CommentIDs a) (ViewIDs a))
  end.

(** * sierxctl lifecycle maintain *)

Record retentionPolicy := mkPolicy { rp_Enabled : bool; rp_CaseRef : string; rp_Workspaces : list (string * Z) }.

(** The loop over the workspaces; [seen] are the identifiers so far. *)
Fixpoint workspaces_ok (seen : list string) (l : list (string * Z)) : bool :=
  match l with
  | [] => true
  | (id, days) :: l => canonicalUUID id && (1 <=? days) && (days <=? 365000) && negb (mem_str id seen) && workspaces_ok (id :: seen) l
  end.
Definition check_policy (p : retentionPolicy) : result string unit :=
  if negb (canonicalUUID (rp_CaseRef p)) || (128 <? length (rp_Workspaces p))%nat
  then Err "policy requires a case UUID and at most 128 workspaces"
  else if negb (workspaces_ok [] (rp_Workspaces p))
  then Err "each workspace requires a unique UUID and explicit positive deleted-content duration"
  else Ok tt.

Definition maintenance_action (kind case ws cutoff at_ : string) : Action :=
  mkAction kind case ws "" "" "" "" cutoff "" 0 at_ "" "" [] [] [].

(** One call of [apply]: the nonce, the clock and what becomes of the COMMIT. *)
Record turn := mkTurn { t_nonce : bytes; t_now : string; t_commit : commit }.

(** [runLifecycleMaintenance] on a policy that was read: one retention decision per
    workspace, then a cleanup; a refused one does not stop the others. [cutoff] is
    the time the given number of days ago. *)
Definition maintain_one (getenv : string -> string) (verification case : string) (cutoff : string -> Z -> string)
    (acc : nat * World) (x : turn * option (string * Z)) : nat * World :=
  let '(failures, w) := acc in
  let '(t, ws) := x in
  let a := match ws with
           | Some (id, days) => maintenance_action "retention" case id (cutoff (t_now t) days) (t_now t)
           | None => maintenance_action "cleanup" case "" "" (t_now t)
           end in
  match runLifecycle getenv verification (MApply a) (DatabaseHead (w_db w)) (t_commit t) [] (t_nonce t) w with
  | (Ok _, w') => (failures, w')
  | (Err _, w') => (S failures, w')
  end.

Definition runLifecycleMaintenance (getenv : string -> string) (verification : string) (cutoff : string -> Z -> string)
    (p : retentionPolicy) (turns : nat -> turn) (w : World) : result string nat * World :=
  if negb (rp_Enabled p) then (Ok 0%nat, w)
  else match check_policy p with
  | Err e => (Err e, w)
  | Ok _ =>
      let jobs := map Some (rp_Workspaces p) ++ [None] in
      let '(failures, w) := fold_left (maintain_one getenv verification (rp_CaseRef p) cutoff) (combine (map turns (seq 0 (length jobs))) jobs) (0%nat, w) in
      (if (0 <? failures)%nat then Err "lifecycle maintenance operation(s) refused; review holds and restricted audit" else Ok 0%nat, w)
  end.

End command.
Arguments World : clear implicits.

End Operator.
