(* ===== verification/OperatorProps.v ===== *)
(** What the lifecycle commands guarantee: whatever crashes, lost COMMITs and restored
    backups happen, every database has applied exactly a prefix of the journal's
    decisions, and replaying brings any of them back to where requests are let in. *)
From S2P Require Import Prelude Utf8 Uuid Journal JournalProps Guard Operator.
Open Scope nat_scope.

Module OperatorProps.
Import Journal JournalProps Operator.

#[local] Set Warnings "-clear-no-such-hyp".

(** * A journal in a chain *)

(** The head hash after [n] records. *)
Definition hash_at (rs : list Record_) (n : nat) : string :=
  match n with O => "" | S n => match rs !! n with Some r => r_Hash r | None => "" end end.

Record chained (h : Head_) (rs : list Record_) : Prop := {
  ch_sequence k r : rs !! k = Some r -> r_Sequence (body r) = Z.of_nat (S k);
  ch_previous k r : rs !! k = Some r -> Previous (body r) = hash_at rs k;
  ch_instance r : r ∈ rs -> a_InstanceID (r_Action (body r)) = InstanceID h;
  ch_length : Sequence h = Z.of_nat (length rs);
  ch_hash : Hash h = hash_at rs (length rs)
}.

Lemma hash_at_app rs rs' n : n <= length rs -> hash_at (rs ++ rs') n = hash_at rs n.
Proof. destruct n as [|n]; [done|]. intros Hn. cbn [hash_at]. by rewrite lookup_app_l by lia. Qed.

Lemma chained_snoc h rs r :
  chained h rs -> r_Sequence (body r) = Z.of_nat (S (length rs)) -> Previous (body r) = Hash h -> a_InstanceID (r_Action (body r)) = InstanceID h ->
  forall h', InstanceID h' = InstanceID h -> Sequence h' = r_Sequence (body r) -> Hash h' = r_Hash r -> chained h' (rs ++ [r]).
Proof.
  intros [H1 H2 H3 H4 H5] Hs Hp Ha h' Hi Hs' Hh'. split.
  - intros k x [Hk|[Hk E]]%lookup_app_Some; [by apply H1|]. apply list_lookup_singleton_Some in E as [E <-]. rewrite Hs. lia.
  - intros k x [Hk|[Hk E]]%lookup_app_Some.
    + rewrite hash_at_app; [by apply H2|]. apply lookup_lt_Some in Hk. lia.
    + apply list_lookup_singleton_Some in E as [E <-]. assert (k = length rs) as -> by lia. rewrite hash_at_app by lia. congruence.
  - intros x [Hx|Hx]%elem_of_app; [rewrite Hi; by apply H3|]. apply list_elem_of_singleton in Hx as ->. congruence.
  - rewrite Hs', Hs, length_app. simpl. lia.
  - rewrite Hh', length_app. cbn [length]. rewrite Nat.add_1_r. cbn [hash_at]. by rewrite lookup_app_r, Nat.sub_diag by lia.
Qed.

Section chain.
Context {CR : Crypto} {CH : Codec Head_} {CB : Codec Body} {CE : Codec envelope}.

Lemma load_chained s path keyPath checkpoint tail j : load s path keyPath checkpoint tail = Ok j -> chained (Head j) (Records j).
Proof.
  intros Hl. destruct (load_inv _ _ _ _ _ _ Hl) as (key & hb & saved & d & st & _ & _ & _ & _ & _ & _ & Hd & Hf & _ & _ & _ & -> & Hio).
  cbn [Head Records]. pose proof (lines_bound _ _ _ Hd) as Hb. unfold file_limit in Hb.
  refine (proj2 (proj2 (foldM_inv_prefix (load_line key saved)
    (fun pre st => (Z.of_nat (length pre) < 2 ^ 63)%Z -> InstanceID (rd_Head st) = InstanceID saved /\ length (rd_Records st) = length pre /\ chained (rd_Head st) (rd_Records st))
    (lines d) (reading0 saved) st _ _ Hf ltac:(lia)))).
  - intros pre st0 x st1 IH _ E Hlen. rewrite length_app in Hlen. cbn [length] in Hlen. destruct (IH ltac:(lia)) as (Hi & Hlen' & Hc).
    apply load_line_inv in E as (_ & e & plain & b & _ & _ & _ & _ & _ & Hseq & Hprev & Ha & ->). cbn [rd_Head rd_Records InstanceID].
    split; [done|]. split; [rewrite !length_app, Hlen'; done|]. rewrite (ch_length _ _ Hc), Hlen', wrap64_id in Hseq by lia.
    eapply chained_snoc; [exact Hc| | | | | |]; cbn [body r_Hash InstanceID Sequence Hash]; try done; [rewrite Hseq, Hlen'; lia|by rewrite Ha].
  - intros _. cbn. split; [done|]. split; [done|]. split; try done. intros ? Hx. by apply elem_of_nil in Hx.
Qed.

(** The records that follow the first [n]. *)
Lemma pending_drop h rs n : chained h rs -> List.filter (fun r => (Z.of_nat n <? r_Sequence (body r))%Z) rs = drop n rs.
Proof.
  intros Hc. assert (Hs : forall k r, rs !! k = Some r -> r_Sequence (body r) = Z.of_nat (S (0 + k))) by (intros k r; apply (ch_sequence _ _ Hc)).
  clear Hc. revert Hs. replace (drop n rs) with (drop (n - 0) rs) by (f_equal; lia). generalize 0 as i. induction rs as [|r rs IH]; intros i Hs; [by rewrite drop_nil|].
  cbn [List.filter]. rewrite (Hs 0 r eq_refl), Nat.add_0_r.
  assert (Hs' : forall k r, rs !! k = Some r -> r_Sequence (body r) = Z.of_nat (S (S i + k))) by (intros k x Hk; rewrite (Hs (S k) x Hk); f_equal; lia).
  rewrite (IH (S i) Hs'). destruct (Z.ltb_spec (Z.of_nat n) (Z.of_nat (S i))).
  - replace (n - i) with 0 by lia. replace (n - S i) with 0 by lia. by rewrite !drop_0.
  - replace (n - i) with (S (n - S i)) by lia. done.
Qed.

Lemma Prefix_chained j h : chained (Head j) (Records j) ->
  Prefix j h = Some (bool_decide (InstanceID h = InstanceID (Head j) /\ (0 <= Sequence h <= Sequence (Head j))%Z /\ Hash h = hash_at (Records j) (Z.to_nat (Sequence h)))).
Proof.
  intros Hc. unfold Prefix. pose proof (ch_length _ _ Hc) as Hl.
  destruct (String.eqb_spec (InstanceID h) (InstanceID (Head j))) as [Hi|Hi]; cbn [negb orb]; [|rewrite bool_decide_eq_false_2; [done|by intros (? & _)]].
  destruct (Z.ltb_spec (Sequence h) 0); cbn [orb]; [rewrite bool_decide_eq_false_2; [done|intros (_ & ? & _); lia]|].
  destruct (Z.ltb_spec (Sequence (Head j)) (Sequence h)); [rewrite bool_decide_eq_false_2; [done|intros (_ & ? & _); lia]|].
  destruct (Z.eqb_spec (Sequence h) 0) as [E|E].
  - f_equal. rewrite E. cbn [Z.to_nat hash_at]. destruct (String.eqb_spec (Hash h) ""); [rewrite bool_decide_eq_true_2; [done|split_and!; [done|lia|lia|done]]|].
    rewrite bool_decide_eq_false_2; [done|]. by intros (_ & _ & ?).
  - assert (Hlt : Z.to_nat (Sequence h - 1) < length (Records j)) by lia. apply lookup_lt_is_Some in Hlt as [r Hr]. rewrite Hr. f_equal.
    replace (Z.to_nat (Sequence h)) with (S (Z.to_nat (Sequence h - 1))) by lia. cbn [hash_at]. rewrite Hr.
    destruct (String.eqb_spec (r_Hash r) (Hash h)) as [<-|Hne].
    + rewrite bool_decide_eq_true_2; [done|]. split_and!; [done|lia|lia|done].
    + rewrite bool_decide_eq_false_2; [done|]. intros (_ & _ & E'). by apply Hne.
Qed.

(** A reading whose last record is the saved one has met it. *)
Lemma last_matched key saved ls h rs m :
  Sequence h = Sequence saved -> foldM (load_line key saved) ls (reading0 saved) = Ok (mkReading h rs m) -> Hash h = Hash saved -> m = true.
Proof.
  intros Hs Hf Hh. revert Hf. destruct ls as [|x ls _] using rev_ind.
  - cbn [foldM]. intros [= <- <- <-]. cbn [Sequence Hash] in *. by rewrite <- Hs, <- Hh.
  - rewrite foldM_app. destruct (foldM _ ls _) as [st0|]; [|done]. cbn [foldM]. destruct (load_line _ _ _ _) as [st1|] eqn:E; [|done].
    intros [= ->]. apply load_line_inv in E as (_ & e & plain & b & _ & _ & _ & _ & _ & _ & _ & _ & E). injection E as -> -> ->.
    cbn [Sequence Hash] in *. by rewrite Hs, Hh, Z.eqb_refl, String.eqb_refl, orb_true_r.
Qed.

(** Recovering the checkpoint makes the journal load again. *)
Lemma recover_loads s path keyPath checkpoint j :
  distinct path keyPath checkpoint -> load s path keyPath checkpoint true = Ok j -> (size (head_bytes j) <= file_limit)%Z ->
  Load (writeHead s j) path keyPath checkpoint = Ok j.
Proof.
  intros (D1 & D2 & D3) Hl Hsz.
  destruct (load_inv _ _ _ _ _ _ Hl) as (key & hb & saved & d & st & Hk & Hhb & Hsv & Hmac & Hi & H0 & Hd & Hf & Hu & Hm & _ & -> & Hio).
  set (j := mkJournal path checkpoint key (rd_Head st) (rd_Records st)) in *.
  set (saved' := mkHead (InstanceID (rd_Head st)) (Sequence (rd_Head st)) (Hash (rd_Head st)) (authenticate (rd_Head st) (guardKey key))).
  unfold Load, load, writeHead. cbn [Checkpoint j]. rewrite key_other, Hk by done. rewrite private_written by done.
  rewrite head_bytes_read. cbn [Head Key j]. fold saved'.
  assert (Hm' : MAC saved' = authenticate saved' (guardKey key)) by done. rewrite Hm', String.eqb_refl. cbn [negb orb].
  rewrite (proj2 (String.eqb_neq _ _)) by (cbn [InstanceID saved']; by rewrite (io_instance _ _ _ Hio)).
  assert (Hpos : (Sequence saved' <? 0)%Z = false) by (apply Z.ltb_ge; cbn [Sequence saved']; rewrite (io_sequence _ _ _ Hio); lia).
  rewrite Hpos. cbn [orb]. rewrite private_other by done. rewrite Hd.
  assert (Hii : InstanceID saved = InstanceID saved') by (symmetry; apply Hio).
  destruct (load_lines_saved key saved saved' (lines d) (reading0 saved) st (matched (reading0 saved')) Hii Hf) as (m' & Hf' & _).
  assert (E0 : mkReading (rd_Head (reading0 saved)) (rd_Records (reading0 saved)) (matched (reading0 saved')) = reading0 saved').
  { unfold reading0. cbn [rd_Head rd_Records]. by rewrite Hii. }
  rewrite E0 in Hf'. rewrite Hf', Hu. cbn [matched rd_Head rd_Records].
  assert (Hm2 : m' = true) by (by eapply last_matched; [|exact Hf'|]). rewrite Hm2. cbn [negb orb andb Sequence Hash saved'].
  by rewrite Z.eqb_refl, String.eqb_refl.
Qed.

End chain.

(** * A database that has applied a prefix *)

Section prefix.
Context {C : Type} `{UuidParse} `{Content C}.

(** The audit row of a decision. *)
Definition event_of (r : Record_) : option audit_event :=
  option_map (fun c => mkEvent c Applied (Some (r_Sequence (body r))) (without_correction (r_Action (body r)))) (uuid_parse (CaseRef (r_Action (body r)))).
Definition applied_events (d : LifecycleDb C) : list audit_event := List.filter (fun e => bool_decide (e_outcome e = Applied)) (l_events d).

(** [d] belongs to the journal's instance and has applied its first [n] decisions. *)
Record has_prefix (j : Journal_) (d : LifecycleDb C) (n : nat) : Prop := {
  hp_bound : n <= length (Records j);
  hp_instance : uuid_string (l_instance d) = InstanceID (Head j);
  hp_sequence : l_sequence d = Z.of_nat n;
  hp_head : l_head d = hash_at (Records j) n;
  hp_events : Some <$> applied_events d = event_of <$> take n (Records j)
}.

Lemma prefix_grows j j' d n rs : has_prefix j d n -> InstanceID (Head j') = InstanceID (Head j) -> Records j' = Records j ++ rs -> has_prefix j' d n.
Proof.
  intros [H1 H2 H3 H4 H5] Hi Hr. split.
  - rewrite Hr, length_app. lia.
  - congruence.
  - done.
  - rewrite Hr, hash_at_app; done.
  - rewrite H5, Hr, take_app_le; done.
Qed.

Lemma apply_inv d r d' : sierx_lifecycle_apply d r = Some d' ->
  l_instance d' = l_instance d /\ r_Sequence (body r) = (l_sequence d + 1)%Z /\ Previous (body r) = l_head d /\
  l_sequence d' = r_Sequence (body r) /\ l_head d' = r_Hash r /\ l_origin d' = l_origin d /\
  exists e, event_of r = Some e /\ l_events d' = l_events d ++ [e].
Proof.
  unfold sierx_lifecycle_apply, event_of. destruct (sql_uuid _) as [w|]; [|done]. destruct (uuid_parse (CaseRef _)) as [c|]; [|done].
  destruct (_ || _ || _ || _) eqn:Hg; [done|].
  repeat match goal with |- (if ?b then None else _) = Some _ -> _ => destruct b; [done|] end.
  destruct (apply_holds _ _ _ _) as [holds|]; [|done].
  destruct (effect _ _ _) as [content|]; [|done]. intros [= <-]. rewrite !orb_false_iff, !negb_false_iff in Hg.
  destruct Hg as (((_ & Hs%Z.eqb_eq) & Hp%String.eqb_eq) & _). cbn. split_and!; try done. by eexists.
Qed.

Lemma applied_snoc d d' e : l_events d' = l_events d ++ [e] -> e_outcome e = Applied -> applied_events d' = applied_events d ++ [e].
Proof. intros E He. unfold applied_events. rewrite E, List.filter_app. cbn [List.filter]. by rewrite bool_decide_eq_true_2. Qed.

Lemma apply_prefix j d n r d' : chained (Head j) (Records j) -> has_prefix j d n -> Records j !! n = Some r -> ApplyRecord d r = Ok d' -> has_prefix j d' (S n).
Proof.
  intros Hc [H1 H2 H3 H4 H5] Hr Ha. unfold ApplyRecord in Ha. destruct (sierx_lifecycle_apply d r) as [d1|] eqn:E; [|done]. injection Ha as ->.
  apply apply_inv in E as (Ei & Es & Ep & Es' & Eh & Eo & e & Ee & Eev). split.
  - by apply lookup_lt_Some in Hr.
  - congruence.
  - rewrite Es'. by apply (ch_sequence _ _ Hc).
  - cbn [hash_at]. by rewrite Hr.
  - assert (He : e_outcome e = Applied) by (unfold event_of in Ee; destruct (uuid_parse _); [|done]; by injection Ee as <-).
    rewrite (applied_snoc d d' e Eev He), (take_S_r _ _ _ Hr), !fmap_app, H5. cbn [fmap list_fmap]. by rewrite Ee.
Qed.

(** Replaying the pending decisions. *)
Lemma replay_prefix j d n : chained (Head j) (Records j) -> has_prefix j d n ->
  forall d', foldM ApplyRecord (drop n (Records j)) d = Ok d' -> has_prefix j d' (length (Records j)).
Proof.
  intros Hc Hp. remember (length (Records j) - n) as k eqn:Hk. revert d n Hk Hp. induction k as [|k IH]; intros d n Hk Hp d' Hf.
  - rewrite drop_ge in Hf by (pose proof (hp_bound _ _ _ Hp); lia). injection Hf as <-.
    replace (length (Records j)) with n by (pose proof (hp_bound _ _ _ Hp); lia). done.
  - assert (Hlt : n < length (Records j)) by lia. apply lookup_lt_is_Some in Hlt as [r Hr]. rewrite (drop_S _ _ _ Hr) in Hf. cbn [foldM] in Hf.
    destruct (ApplyRecord d r) as [d1|] eqn:E; [|done]. eapply (IH d1 (S n)); [lia| |exact Hf]. by eapply apply_prefix.
Qed.

Lemma prefix_head j d n : chained (Head j) (Records j) -> has_prefix j d n -> Prefix j (DatabaseHead d) = Some true.
Proof.
  intros Hc [H1 H2 H3 H4 H5]. rewrite Prefix_chained by done. f_equal. apply bool_decide_eq_true_2. cbn [DatabaseHead InstanceID Sequence Hash].
  rewrite (ch_length _ _ Hc), H3. split_and!; [done|lia|lia|]. by rewrite Nat2Z.id.
Qed.

Lemma prefix_matches j d n : chained (Head j) (Records j) -> has_prefix j d n -> Matches j (DatabaseHead d) = bool_decide (n = length (Records j)).
Proof.
  intros Hc [H1 H2 H3 H4 H5]. unfold Matches. cbn [DatabaseHead InstanceID Sequence Hash]. rewrite <- H2, String.eqb_refl, (ch_length _ _ Hc), H3.
  destruct (Z.eqb_spec (Z.of_nat (length (Records j))) (Z.of_nat n)) as [E|E]; cbn [andb].
  - assert (n = length (Records j)) as -> by lia. rewrite (ch_hash _ _ Hc), H4, String.eqb_refl. by rewrite bool_decide_eq_true_2.
  - rewrite bool_decide_eq_false_2; [done|]. intros ->. by apply E.
Qed.

End prefix.

(** * A planned decision applies *)

(** What the rest of the database owes the commands: in a state it keeps to, a decision
    whose plan went through applies to the same state, given what the plan does not
    look at and applying does ([foreseen]). *)
Definition own_kinds : list string := ["hold-create"; "hold-release"; "cleanup"].
Class Applies (C : Type) `{UuidParse} `{Content C} := {
  content_ok : C -> Prop;
  foreseen : C -> Action -> bool;
  planned_applies c h h' a ids inst origin :
    content_ok c -> foreseen c a = true -> stamp_ok (At a) = true -> mem_str (Kind a) kinds = true ->
    is_Some (sql_uuid (WorkspaceID a)) -> is_Some (sql_uuid (TargetID a)) -> is_Some (uuid_parse (CaseRef a)) ->
    (if mem_str (Kind a) own_kinds then ids = ([], [], []) else enumerate c h a = Some ids /\ h' = h) ->
    is_Some (effect c h' (materialized a inst origin ids));
  effect_ok c h a c' : content_ok c -> effect c h a = Some c' -> content_ok c'
}.

Lemma hex_hex64 b : length b = 32 -> hex64 (hex b) = true.
Proof.
  intros Hb. unfold hex64, hex. rewrite chars_of_chars. apply andb_true_iff. split.
  - apply forallb_forall. intros c Hc. apply in_concat in Hc as (l & Hl & Hc). apply in_map_iff in Hl as (x & <- & _).
    assert (Hd : forall n, (n < 16) -> byte_in 48 57 (hex_digit n) || byte_in 97 102 (hex_digit n) = true).
    { intros n Hn. do 16 (destruct n as [|n]; [reflexivity|]). lia. }
    pose proof (byte_of_lt x) as Hx. destruct Hc as [<-|[<-|[]]]; apply Hd; [apply Nat.Div0.div_lt_upper_bound; lia|apply Nat.mod_upper_bound; lia].
  - rewrite <- length_chars, chars_of_chars. assert (E : forall l : bytes, length (concat (map (fun c => [hex_digit (byte_of c / 16); hex_digit (byte_of c mod 16)]) l)) = 2 * length l).
    { induction l as [|c l IH]; [done|]. cbn [map concat]. rewrite length_app, IH. cbn. lia. }
    by rewrite E, Hb.
Qed.

Section applies.
Context {C : Type} `{UuidParse} `{Content C} `{!Applies C}.

(** Databases that differ in the audit only. *)
Definition core (d : LifecycleDb C) : LifecycleDb C := mkLdb (l_instance d) (l_sequence d) (l_head d) (l_holds d) (l_origin d) [] (l_content d).

Lemma core_fields (d e : LifecycleDb C) : core d = core e -> exists l, e = mkLdb (l_instance d) (l_sequence d) (l_head d) (l_holds d) (l_origin d) l (l_content d).
Proof. destruct d, e. intros [= <- <- <- <- <- <-]. by eexists. Qed.

Lemma ApplyRecord_core (d e : LifecycleDb C) r d' : core d = core e -> ApplyRecord d r = Ok d' -> exists e', ApplyRecord e r = Ok e' /\ core d' = core e'.
Proof.
  intros [l ->]%core_fields. unfold ApplyRecord, sierx_lifecycle_apply, hold_blocks, held, apply_holds, active_hold. cbn [l_instance l_sequence l_head l_holds l_origin l_events l_content].
  destruct (sql_uuid _) as [w|]; [|done]. destruct (uuid_parse _) as [c|]; [|done].
  repeat match goal with |- (match (if ?b then None else _) with _ => _ end) = _ -> _ => destruct b; [done|] end.
  match goal with |- (match (match ?x with _ => _ end) with _ => _ end) = _ -> _ => destruct x as [holds|]; [|done] end.
  destruct (effect _ _ _); [|done]. intros [= <-]. by eexists.
Qed.

Lemma replay_core rs (d e d' : LifecycleDb C) : core d = core e -> foldM ApplyRecord rs d = Ok d' -> exists e', foldM ApplyRecord rs e = Ok e' /\ core d' = core e'.
Proof.
  revert d e. induction rs as [|r rs IH]; intros d e He Hf; cbn [foldM] in *; [injection Hf as <-; by exists e|].
  destruct (ApplyRecord d r) as [d1|] eqn:E; [|done]. destruct (ApplyRecord_core _ _ _ _ He E) as (e1 & -> & He1). by apply (IH d1).
Qed.

Lemma apply_content_ok (d : LifecycleDb C) r d' : content_ok (l_content d) -> ApplyRecord d r = Ok d' -> content_ok (l_content d').
Proof.
  intros Hd. unfold ApplyRecord, sierx_lifecycle_apply. destruct (sql_uuid _) as [w|]; [|done]. destruct (uuid_parse _) as [c|]; [|done].
  repeat match goal with |- (match (if ?b then None else _) with _ => _ end) = _ -> _ => destruct b; [done|] end.
  destruct (apply_holds _ _ _ _) as [holds|]; [|done]. destruct (effect _ _ _) eqn:E; [|done]. intros [= <-]. by eapply effect_ok.
Qed.

(** The parts of a plan. *)
Lemma plan_inv (d : LifecycleDb C) a q : sierx_lifecycle_plan d a = Some q ->
  exists w c origin ids, sql_uuid (WorkspaceID a) = Some w /\ uuid_parse (CaseRef a) = Some c /\ stamp_ok (At a) = true /\
    match w with Some w => option_map uuid_string (l_origin d !! w) = Some origin | None => Kind a = "cleanup" end /\
    hold_blocks a w d = false /\ targets a w d = Some ids /\ bounded ids = true /\ q = materialized a (uuid_string (l_instance d)) origin ids.
Proof.
  unfold sierx_lifecycle_plan. destruct (sql_uuid (WorkspaceID a)) as [w|]; [|done]. destruct (uuid_parse (CaseRef a)) as [c|]; [|done].
  destruct (stamp_ok (At a)); [|done]. cbn [negb]. destruct (match w with Some _ => _ | None => _ end) as [origin|] eqn:Eo; [|done].
  destruct (hold_blocks a w d) eqn:Eh; [done|]. destruct (targets a w d) as [ids|] eqn:Et; [|done]. destruct (bounded ids) eqn:Eb; [|done].
  intros [= <-]. exists w, c, origin, ids. split_and!; try done. destruct w; [done|]. by destruct (String.eqb_spec (Kind a) "cleanup").
Qed.

(** What the plan finds is what applying needs. *)
Lemma targets_inv a w (d : LifecycleDb C) ids c inst origin : targets a w d = Some ids -> (w = None -> Kind a = "cleanup") ->
  is_Some (sql_uuid (TargetID a)) /\ mem_str (Kind a) kinds = true /\
  exists holds, apply_holds (materialized a inst origin ids) w c d = Some holds /\
    if mem_str (Kind a) own_kinds then ids = ([], [], []) else enumerate (l_content d) (l_holds d) a = Some ids /\ holds = l_holds d.
Proof.
  unfold targets, apply_holds. cbn [materialized TargetID Kind AuthorityRef ReviewAt At]. destruct (sql_uuid (TargetID a)) as [t|]; [|done]. intros Ht Hw.
  split; [done|]. destruct (String.eqb_spec (Kind a) "hold-create") as [E|N1].
  { rewrite E in *. split; [reflexivity|]. destruct t as [t|]; [|done]. destruct (uuid_parse (AuthorityRef a)); [|done].
    destruct (review_later _ _); [|done]. destruct (bool_decide _); [done|]. cbn in Ht. injection Ht as <-. destruct w as [w|]; [|by specialize (Hw eq_refl)].
    cbn. by eexists. }
  destruct (String.eqb_spec (Kind a) "hold-release") as [E|N2].
  { rewrite E in *. split; [reflexivity|]. destruct t as [t|]; [|done]. destruct (active_hold t w d); [|done]. injection Ht as <-. by eexists. }
  destruct (String.eqb_spec (Kind a) "cleanup") as [E|N3].
  { rewrite E in *. split; [reflexivity|]. injection Ht as <-. by eexists. }
  destruct (mem_str (Kind a) kinds); [|done]. split; [done|]. eexists. split; [done|].
  assert (mem_str (Kind a) own_kinds = false) as ->; [|done]. apply not_true_iff_false. unfold own_kinds. rewrite mem_str_spec, !elem_of_cons.
  intros [?|[?|[?|[]%elem_of_nil]]]; done.
Qed.

Lemma plan_applies (d : LifecycleDb C) a q r : content_ok (l_content d) -> foreseen (l_content d) a = true -> sierx_lifecycle_plan d a = Some q ->
  r_Action (body r) = q -> r_Sequence (body r) = (l_sequence d + 1)%Z -> Previous (body r) = l_head d -> hex64 (r_Hash r) = true ->
  exists d', ApplyRecord d r = Ok d'.
Proof.
  intros Hok Hfore Hplan Ha Hs Hp Hh. destruct (plan_inv _ _ _ Hplan) as (w & c & origin & ids & Ew & Ec & Est & Eo & Eh & Et & Eb & ->).
  destruct (targets_inv a w d ids c (uuid_string (l_instance d)) origin Et) as (Htid & Hk & holds & Eholds & Hids); [by intros ->|].
  destruct (planned_applies (l_content d) (l_holds d) holds a ids (uuid_string (l_instance d)) origin) as [content Eff]; try done.
  unfold ApplyRecord, sierx_lifecycle_apply. rewrite Ha. cbn [materialized WorkspaceID CaseRef a_InstanceID WorkspaceOrigin ItemIDs CommentIDs ViewIDs Kind].
  rewrite Ew, Ec, uuid_parse_string, bool_decide_eq_true_2, Hs, Hp, Hh, Z.eqb_refl, String.eqb_refl by done. cbn [negb orb].
  assert (Hor : match w with Some w => negb (bool_decide (is_Some (l_origin d !! w) /\ l_origin d !! w = uuid_parse origin)) | None => false end = false).
  { destruct w as [w|]; [|done]. destruct (l_origin d !! w) as [o|]; [|done]. injection Eo as <-. rewrite uuid_parse_string, bool_decide_eq_true_2; done. }
  rewrite Hor. change (hold_blocks (materialized a (uuid_string (l_instance d)) origin ids) w d) with (hold_blocks a w d). rewrite Eh.
  destruct ids as [[ids1 ids2] ids3]. cbn [fst snd] in *. rewrite Eb, Hk. cbn [negb orb]. rewrite Eholds, Eff. by eexists.
Qed.

End applies.

End OperatorProps.
