(* ===== verification/Recovery.v ===== *)
(** Any run of the lifecycle commands, with crashes, lost COMMITs, restored backups and
    ordinary writes in between: no database gets ahead of the journal or out of its
    order, and every one can be brought back. *)
From S2P Require Import Prelude Utf8 Uuid Journal JournalProps Guard Operator OperatorProps.
Open Scope nat_scope.

Module Recovery.
Import Journal JournalProps Guard Operator OperatorProps.

#[local] Set Warnings "-clear-no-such-hyp".

Section recovery.
Context {C : Type} `{UuidParse} `{Content C} {CR : Crypto} {CH : Codec Head_} {CB : Codec Body} {CE : Codec envelope}.
Context (getenv : string -> string) (p : Paths) (verification : string).

(** The files, the database, and every state it was ever in. *)
Record State := mkState { s_fs : fs; s_db : LifecycleDb C; s_past : list (LifecycleDb C) }.

(** The two limits of the journal's files: a checkpoint that can be read, and no line
    of exactly the limit, which [Load] refuses. *)
Record fits (s : fs) : Prop := {
  fit_checkpoint f : s !! p_Checkpoint p = Some f -> (size (data f) <= file_limit)%Z;
  fit_lines f l : s !! p_Journal p = Some f -> l ∈ lines (data f) -> size l <> record_limit
}.

Inductive step : State -> State -> Prop :=
  | step_command m d0 o key nonce s d past res s' d' :
      d0 ∈ d :: past -> length key = 32 -> length nonce = 12 -> fits s' ->
      runLifecycle getenv verification m (DatabaseHead d0) o key nonce (mkWorld s d) = (res, mkWorld s' d') ->
      step (mkState s d past) (mkState s' d' (d :: past))
  | step_crash a q j nonce s d past r j' s' :
      (* apply is killed after it wrote the record and before it wrote the checkpoint *)
      length nonce = 12 -> Load s (p_Journal p) (p_Key p) (p_Checkpoint p) = Ok j -> Matches j (DatabaseHead d) = true ->
      sierx_lifecycle_plan d a = Some q -> append_intent s j q nonce = Ok (r, j', s') -> fits s' ->
      step (mkState s d past) (mkState s' d past)
  | step_restore s d past d0 :
      (* a backup is restored *)
      d0 ∈ past -> step (mkState s d past) (mkState s d0 (d :: past))
  | step_write s d past d' :
      (* anything else the program writes leaves the lifecycle tables alone *)
      l_instance d' = l_instance d -> l_sequence d' = l_sequence d -> l_head d' = l_head d -> l_events d' = l_events d ->
      step (mkState s d past) (mkState s d' (d :: past)).

Definition paths4 : list string := [p_Journal p; p_Key p; p_Checkpoint p; verification].

(** A database nothing was decided for yet. *)
Record untouched (inst : uuid) (d : LifecycleDb C) : Prop := {
  ut_instance : l_instance d = inst;
  ut_sequence : l_sequence d = 0%Z;
  ut_head : l_head d = "";
  ut_events : applied_events d = []
}.

Record journaled (s : fs) (ds : list (LifecycleDb C)) (j : Journal_) : Prop := {
  jn_load : load s (p_Journal p) (p_Key p) (p_Checkpoint p) true = Ok j;
  jn_verification : exists f, s !! verification = Some f /\ data f = guardKey (Key j) /\ owner_only f = true;
  jn_prefix d : d ∈ ds -> exists n, has_prefix j d n
}.

Definition sound (inst : uuid) (st : State) : Prop :=
  let ds := s_db st :: s_past st in
  ((forall q, q ∈ paths4 -> s_fs st !! q = None) /\ forall d, d ∈ ds -> untouched inst d) \/ exists j, journaled (s_fs st) ds j.

Context (Henv : EnvironmentPaths getenv = Ok p).

Lemma paths_distinct : distinct (p_Journal p) (p_Key p) (p_Checkpoint p).
Proof using Henv.
  unfold EnvironmentPaths in Henv. set (q := mkPaths _ _ _) in Henv. destruct (_ || _) eqn:E in Henv; [discriminate Henv|]. injection Henv as <-.
  rewrite !orb_false_iff, !String.eqb_neq in E. destruct E as ((((_ & _) & E1) & E2) & E3). exact (conj E1 (conj E2 E3)).
Qed.

(** ** Each command *)

Lemma lines_of_append s j a nonce r j' s' :
  Load s (p_Journal p) (p_Key p) (p_Checkpoint p) = Ok j -> append_intent s j a nonce = Ok (r, j', s') -> fits s' ->
  size (next_line j a nonce) <> record_limit.
Proof using Henv.
  intros Hl Ha Hf. destruct (load_inv _ _ _ _ _ _ Hl) as (key & hb & saved & d & st & _ & _ & _ & _ & _ & _ & Hd & _ & Hu & _ & _ & Hj & _).
  destruct (append_intent_inv _ _ _ _ _ _ _ Ha) as (_ & _ & _ & _ & d0 & Hd0 & _ & ->).
  assert (HP : Path j = p_Journal p) by by rewrite Hj. rewrite HP in *. rewrite Hd in Hd0. injection Hd0 as <-.
  eapply (fit_lines _ Hf); [apply lookup_insert_eq|]. cbn [data]. rewrite lines_app by done. apply elem_of_app. right.
  rewrite lines_line; [by left|]. apply (marshal_line (A := envelope)).
Qed.

Lemma append_intent_other s j a nonce r j' s' q : append_intent s j a nonce = Ok (r, j', s') -> q <> Path j -> s' !! q = s !! q.
Proof. intros Ha Hq. apply append_intent_inv in Ha as (_ & _ & _ & _ & d & _ & _ & ->). by rewrite lookup_insert_ne. Qed.

Lemma load_paths s a b c tail j : load s a b c tail = Ok j -> Path j = a /\ Checkpoint j = c.
Proof. intros Hl. by destruct (load_inv _ _ _ _ _ _ Hl) as (? & ? & ? & ? & ? & _ & _ & _ & _ & _ & _ & _ & _ & _ & _ & _ & -> & _). Qed.

Lemma append_key s j a nonce r j' s' : append_intent s j a nonce = Ok (r, j', s') -> Key j' = Key j /\ InstanceID (Head j') = InstanceID (Head j) /\ Records j' = Records j ++ [r] /\ Checkpoint j' = Checkpoint j.
Proof. intros Ha. by apply append_intent_inv in Ha as (_ & _ & -> & -> & _). Qed.

Lemma head_fits s j c : fits (writeHead s j) -> Checkpoint j = c -> c = p_Checkpoint p -> (size (head_bytes j) <= file_limit)%Z.
Proof. intros Hf <- Hc. refine (fit_checkpoint _ Hf (mkFile true true (head_bytes j)) _). unfold writeHead. rewrite <- Hc. apply lookup_insert_eq. Qed.

(** What an extension of the journal keeps. *)
Lemma journaled_grows s ds j s' j' rs :
  journaled s ds j -> load s' (p_Journal p) (p_Key p) (p_Checkpoint p) true = Ok j' -> s' !! verification = s !! verification -> Key j' = Key j ->
  InstanceID (Head j') = InstanceID (Head j) -> Records j' = Records j ++ rs -> journaled s' ds j'.
Proof.
  intros [H1 H2 H3] Hl Hv Hk Hi Hr. split; [done|by rewrite Hv, Hk|]. intros d Hd. destruct (H3 d Hd) as [n Hn]. exists n. by eapply prefix_grows.
Qed.

Lemma journaled_more s ds d j n : journaled s ds j -> has_prefix j d n -> journaled s (d :: ds) j.
Proof. intros [H1 H2 H3] Hd. split; [done..|]. intros d0 [->|Hin]%elem_of_cons; [by exists n|by apply H3]. Qed.

(** The limits before the checkpoint follow from those after it. *)
Lemma append_line_fits s j a nonce r j' s1 :
  Load s (p_Journal p) (p_Key p) (p_Checkpoint p) = Ok j -> append_intent s j a nonce = Ok (r, j', s1) -> fits (writeHead s1 j') ->
  size (next_line j a nonce) <> record_limit.
Proof using Henv.
  intros Hl Ha Hf. destruct (append_key _ _ _ _ _ _ _ Ha) as (_ & _ & _ & HC). destruct (load_paths _ _ _ _ _ _ Hl) as [HP HC'].
  destruct paths_distinct as (D1 & D2 & D3). eapply lines_of_append; [exact Hl|exact Ha|]. split.
  - intros f Hs. destruct (load_inv _ _ _ _ _ _ Hl) as (key & hb & saved & d1 & st & _ & Hhb & _).
    rewrite (append_intent_other _ _ _ _ _ _ _ _ Ha) in Hs by (rewrite HP; congruence).
    unfold privateFile in Hhb. rewrite Hs in Hhb. destruct (negb (regular f)); [discriminate Hhb|]. destruct (negb (owner_only f)); [discriminate Hhb|].
    destruct (Z.ltb_spec file_limit (size (data f))); [discriminate Hhb|done].
  - intros f l Hs. eapply (fit_lines _ Hf). unfold writeHead. rewrite lookup_insert_ne by congruence. exact Hs.
Qed.

Context (Hver : (verification ∉ [p_Journal p; p_Key p; p_Checkpoint p])).

(** Appending a decision, with or without its checkpoint. *)
Lemma append_journaled s ds j a nonce r j' s' :
  journaled s ds j -> Load s (p_Journal p) (p_Key p) (p_Checkpoint p) = Ok j -> length nonce = 12 ->
  append_intent s j a nonce = Ok (r, j', s') ->
  (fits s' -> journaled s' ds j') /\ (fits (writeHead s' j') -> size (next_line j a nonce) <> record_limit -> journaled (writeHead s' j') ds j').
Proof using Henv Hver.
  intros Hj Hl Hn Ha. destruct (load_paths _ _ _ _ _ _ Hl) as [HP HC]. destruct (append_key _ _ _ _ _ _ _ Ha) as (Hk & Hi & Hr & HC').
  rewrite !not_elem_of_cons in Hver. destruct Hver as (V1 & V2 & V3 & _).
  assert (Hv : s' !! verification = s !! verification) by (eapply append_intent_other; [done|by rewrite HP]). split.
  - intros Hf. eapply journaled_grows; [exact Hj| |exact Hv|exact Hk|exact Hi|exact Hr].
    apply (interrupted_load _ _ _ _ _ _ _ _ _ _ paths_distinct Hl Hn (lines_of_append _ _ _ _ _ _ _ Hl Ha Hf) Ha true).
  - intros Hf Hsz. eapply journaled_grows; [exact Hj| | |exact Hk|exact Hi|exact Hr].
    + apply strict_tail. eapply append_loads; [exact paths_distinct|exact Hl|exact Hn|exact Hsz|exact Ha|]. eapply head_fits; [exact Hf|done|congruence].
    + unfold writeHead. rewrite lookup_insert_ne by congruence. exact Hv.
Qed.

(** A refused or blocked operation adds an audit row only. *)
Lemma blocked_prefix j (d : LifecycleDb C) n a d' : sierx_lifecycle_blocked d a = Some d' -> has_prefix j d n -> has_prefix j d' n.
Proof.
  unfold sierx_lifecycle_blocked. destruct (uuid_parse _); [|done]. intros [= <-] [H1 H2 H3 H4 H5]. split; try done.
  rewrite <- H5. unfold applied_events. cbn [l_events]. rewrite List.filter_app. cbn [List.filter e_outcome].
  rewrite bool_decide_eq_false_2 by done. by rewrite app_nil_r.
Qed.

Definition with_past (s : fs) (ds : list (LifecycleDb C)) (w : World C) : Prop := exists j, journaled (w_fs w) (w_db w :: ds) j.

Lemma end_sound s ds j o (d d' : LifecycleDb C) n n' : journaled s ds j -> has_prefix j d n -> has_prefix j d' n' -> with_past s ds (end_transaction o s d d').2.
Proof. intros Hj Hd Hd'. exists j. destruct o; cbn [end_transaction snd w_fs w_db]; eapply journaled_more; eassumption. Qed.

(** The part of a command that has the journal. *)
Lemma with_journal_sound m h0 o nonce j s d ds n w :
  length nonce = 12 -> journaled s ds j -> Load s (p_Journal p) (p_Key p) (p_Checkpoint p) = Ok j -> has_prefix j d n ->
  w = (with_journal m h0 o nonce j s d).2 -> fits (w_fs w) -> with_past s ds w.
Proof using Henv Hver.
  intros Hn Hj Hl Hd Hw Hf. assert (Hsame : with_past s ds (mkWorld s d)) by (exists j; eapply journaled_more; eassumption).
  pose proof (load_chained _ _ _ _ _ _ Hl) as Hc. revert Hw. unfold with_journal.
  destruct (Prefix j h0) as [[]|]; [|intros ->; exact Hsame..].
  assert (Hrest : forall (r1 r2 : result string Z) (b : bool), w = (if b then (r1, mkWorld s d) else (r2, mkWorld s d)).2 -> with_past s ds w) by (intros ? ? [] ->; exact Hsame).
  destruct m as [|a|a| | |]; try exact (Hrest _ _ _).
  - rewrite (prefix_matches j d n Hc Hd). destruct (bool_decide_reflect (n = length (Records j))) as [->|]; cbn [negb]; [|intros ->; exact Hsame].
    destruct (sierx_lifecycle_plan d a) as [q|].
    + unfold Append. destruct (append_intent s j q nonce) as [[[r j'] s1]|] eqn:Ha; [|intros ->; exact Hsame].
      destruct (append_journaled _ _ _ _ _ _ _ _ Hj Hl Hn Ha) as [_ Happ]. destruct (append_key _ _ _ _ _ _ _ Ha) as (Hk & Hi & Hr & HC).
      assert (Hfits : w_fs w = writeHead s1 j' -> journaled (writeHead s1 j') ds j' /\ has_prefix j' d (length (Records j)) /\ chained (Head j') (Records j')).
      { intros E. rewrite E in Hf. specialize (Happ Hf (append_line_fits _ _ _ _ _ _ _ Hl Ha Hf)). split; [exact Happ|].
        split; [by eapply prefix_grows|]. exact (load_chained _ _ _ _ _ _ (jn_load _ _ _ Happ)). }
      destruct (ApplyRecord d r) as [d'|] eqn:E; intros ->.
      * destruct Hfits as (Hj' & Hd' & Hc'); [by destruct o|].
        assert (Hnth : Records j' !! length (Records j) = Some r) by (rewrite Hr; by rewrite lookup_app_r, Nat.sub_diag by lia).
        pose proof (apply_prefix _ _ _ _ _ Hc' Hd' Hnth E) as Hd2.
        destruct (end_sound (writeHead s1 j') ds j' o d d' _ _ Hj' Hd' Hd2) as [j2 Hj2]. by exists j2.
      * destruct Hfits as (Hj' & Hd' & _); [done|]. exists j'. by eapply journaled_more.
    + destruct (sierx_lifecycle_blocked d a) as [d'|] eqn:E; intros ->; [|exact Hsame]. exists j. eapply journaled_more; [exact Hj|]. by eapply blocked_prefix.
  - rewrite (prefix_head j d n Hc Hd), (hp_sequence _ _ _ Hd), (pending_drop _ _ _ Hc).
    destruct (foldM ApplyRecord _ d) as [d'|] eqn:E; intros ->; [|exact Hsame].
    eapply end_sound; [exact Hj|exact Hd|]. by eapply replay_prefix.
Qed.

(** A new journal for an instance nothing was decided for. *)
Lemma init_sound s inst (ds : list (LifecycleDb C)) key j s' :
  (forall d, d ∈ ds -> untouched inst d) -> length key = 32 ->
  Init s (p_Journal p) (p_Key p) (p_Checkpoint p) verification (uuid_string inst) key = Ok (j, s') -> fits s' -> journaled s' ds j.
Proof using Henv Hver.
  intros Hds Hkey Hi Hf. destruct paths_distinct as (D1 & D2 & D3). rewrite !not_elem_of_cons in Hver. destruct Hver as (V1 & V2 & V3 & _).
  unfold Init in Hi. destruct (_ || _) eqn:Hne in Hi; [done|]. destruct (existsb _ _); [done|]. injection Hi as <- <-.
  rewrite !orb_false_iff in Hne. destruct Hne as [_ Hne%String.eqb_neq].
  set (j := mkJournal _ _ _ _ _) in *. set (s1 := <[verification := _]> _) in *.
  split.
  - apply strict_tail. unfold Load, load, writeHead. cbn [Checkpoint j].
    assert (Hk : keyFile (<[p_Checkpoint p := mkFile true true (head_bytes j)]> s1) (p_Key p) = Ok key).
    { rewrite key_other by done. unfold s1. rewrite key_other by done. unfold keyFile. rewrite private_other by done. rewrite private_written; [by rewrite Hkey|].
      unfold size. rewrite Hkey. done. }
    rewrite Hk, private_written by (eapply head_fits; [exact Hf|done|done]). rewrite head_bytes_read. cbn [Head Key j InstanceID Sequence Hash MAC].
    unfold authenticate at 1 2. cbn [InstanceID Sequence Hash]. rewrite String.eqb_refl. cbn [negb orb]. rewrite (proj2 (String.eqb_neq _ _)) by done.
    cbn [orb Z.ltb Z.compare]. rewrite private_other by done. unfold s1. rewrite private_other by congruence. rewrite private_written by done. reflexivity.
  - exists (mkFile true true (guardKey key)). unfold writeHead, s1. cbn [Checkpoint j]. rewrite lookup_insert_ne by congruence. by rewrite lookup_insert_eq.
  - intros d Hd. destruct (Hds d Hd) as [U1 U2 U3 U4]. exists 0. split; cbn [j Records Head InstanceID length take]; [lia|by rewrite U1|by rewrite U2|by rewrite U3|by rewrite U4].
Qed.

(** Every command. *)
Lemma command_sound inst m d0 o key nonce s d past w :
  sound inst (mkState s d past) -> d0 ∈ d :: past -> length key = 32 -> length nonce = 12 ->
  w = (runLifecycle getenv verification m (DatabaseHead d0) o key nonce (mkWorld s d)).2 -> fits (w_fs w) ->
  sound inst (mkState (w_fs w) (w_db w) (d :: past)).
Proof using Henv Hver.
  intros Hs Hd0 Hk Hn Hw Hf.
  assert (Hsame : sound inst (mkState s d (d :: past))).
  { destruct Hs as [[H1 H2]|(j & Hj)]; [left; split; [done|]|right; exists j; destruct (jn_prefix _ _ _ Hj d ltac:(by left)) as [n Hp]; by eapply journaled_more].
    intros x [->|Hx]%elem_of_cons; apply H2; [by left|done]. }
  assert (Hload : forall j, load s (p_Journal p) (p_Key p) (p_Checkpoint p) true = Ok j -> exists n, journaled s (d :: past) j /\ has_prefix j d n).
  { intros j Hl. destruct Hs as [[H1 _]|(j' & Hj')].
    - exfalso. unfold load, keyFile, privateFile in Hl. cbn [s_fs] in H1. rewrite (H1 (p_Key p)) in Hl by (unfold paths4; set_solver). discriminate Hl.
    - pose proof (jn_load _ _ _ Hj') as Hl'. cbn [s_fs] in Hl'. rewrite Hl in Hl'. injection Hl' as <-.
      destruct (jn_prefix _ _ _ Hj' d ltac:(by left)) as [n Hp]. by exists n. }
  assert (Hjournal : forall m', (let r := match Load s (p_Journal p) (p_Key p) (p_Checkpoint p) with
            | Err e => (Err e, mkWorld s d) | Ok j => with_journal m' (DatabaseHead d0) o nonce j s d end in w = r.2) -> sound inst (mkState (w_fs w) (w_db w) (d :: past))).
  { intros m'. cbn zeta. destruct (Load s _ _ _) as [j|e] eqn:Hl; intros E; [|rewrite E; exact Hsame].
    destruct (Hload j (strict_tail _ _ _ _ _ Hl)) as (n & Hj & Hp). right.
    exact (with_journal_sound _ _ _ _ _ _ _ _ _ _ Hn Hj Hl Hp E Hf). }
  revert Hw. unfold runLifecycle. destruct m as [|a|a| | |]; rewrite ?Henv; try exact (Hjournal _); cbn [w_fs w_db].
  - destruct (_ || _) eqn:E0; [intros ->; exact Hsame|]. destruct (Init s _ _ _ _ _ _) as [[j s']|] eqn:Ei; intros ->; [|exact Hsame].
    cbn [w_fs w_db snd] in *. destruct Hs as [[H1 H2]|(j' & Hj')].
    + right. exists j. pose proof (H2 d0 Hd0) as [U _ _ _]. cbn [DatabaseHead InstanceID] in Ei. rewrite U in Ei.
      eapply init_sound; [|exact Hk|exact Ei|exact Hf]. intros x [->|Hx]%elem_of_cons; apply H2; [by left|done].
    + exfalso. unfold Init in Ei. destruct (_ || _) in Ei; [done|]. destruct (load_inv _ _ _ _ _ _ (jn_load _ _ _ Hj')) as (key' & ? & ? & ? & ? & Hkf & _).
      unfold keyFile, privateFile in Hkf. cbn [s_fs] in Hkf. cbn [existsb] in Ei. destruct (s !! p_Key p); [|done]. by rewrite !orb_true_r in Ei.
  - destruct (planLifecycle a d); intros ->; exact Hsame.
  - unfold RecoverCheckpoint. destruct (load s _ _ _ true) as [j|] eqn:Hl; [|intros ->; exact Hsame].
    destruct (Hload j eq_refl) as (n & Hj & Hp). intros Hw. assert (E : w = mkWorld (writeHead s j) d).
    { subst w. unfold with_journal. destruct (Prefix _ _) as [[]|]; [|done..]. by destruct (Matches _ _). }
    clear Hw. subst w. cbn [w_fs w_db] in *. right. exists j. destruct (load_paths _ _ _ _ _ _ Hl) as [_ HC].
    assert (Hj2 : journaled (writeHead s j) (d :: past) j).
    { eapply (journaled_grows _ _ _ _ j []); [exact Hj| | |done|done|by rewrite app_nil_r].
      - eapply strict_tail, recover_loads; [exact paths_distinct|exact Hl|]. eapply head_fits; [exact Hf|exact HC|done].
      - unfold writeHead. rewrite !not_elem_of_cons in Hver. rewrite lookup_insert_ne; [done|]. rewrite HC. by destruct Hver as (_ & _ & ? & _). }
    eapply journaled_more; [exact Hj2|exact Hp].
Qed.

Lemma step_sound inst st st' : step st st' -> sound inst st -> sound inst st'.
Proof using Henv Hver.
  intros [m d0 o key nonce s d past res s' d' Hd0 Hk Hn Hf Hr|a q j nonce s d past r j' s' Hn Hl Hm Hp Ha Hf|s d past d0 Hd0|s d past d' E1 E2 E3 E4] Hs.
  - apply (command_sound inst m d0 o key nonce s d past (mkWorld s' d') Hs Hd0 Hk Hn); [by rewrite Hr|exact Hf].
  - right. exists j'. destruct Hs as [[H1 _]|(j0 & Hj)].
    + exfalso. unfold Load, load, keyFile, privateFile in Hl. cbn [s_fs] in H1. rewrite (H1 (p_Key p)) in Hl by (unfold paths4; set_solver). discriminate Hl.
    + pose proof (jn_load _ _ _ Hj) as Hl'. cbn [s_fs] in Hl'. rewrite (strict_tail _ _ _ _ _ Hl) in Hl'. injection Hl' as <-.
      by apply (proj1 (append_journaled _ _ _ _ _ _ _ _ Hj Hl Hn Ha)).
  - destruct Hs as [[H1 H2]|(j & Hj)].
    + left. split; [done|]. intros x [->|Hx]%elem_of_cons; apply H2; [by right|done].
    + right. exists j. destruct (jn_prefix _ _ _ Hj d0 ltac:(by right)) as [n Hp]. by eapply journaled_more.
  - destruct Hs as [[H1 H2]|(j & Hj)].
    + left. split; [done|]. intros x [->|Hx]%elem_of_cons; [|by apply H2]. destruct (H2 d ltac:(by left)) as [U1 U2 U3 U4]. split; cbn [s_db]; try congruence.
      unfold applied_events in *. by rewrite E4.
    + right. exists j. destruct (jn_prefix _ _ _ Hj d ltac:(by left)) as [n [P1 P2 P3 P4 P5]]. eapply journaled_more; [exact Hj|].
      cbn [s_db]. split; [done|by rewrite E1|by rewrite E2|by rewrite E3|]. rewrite <- P5. unfold applied_events. by rewrite E4.
Qed.

Lemma reach_sound inst st st' : rtc step st st' -> sound inst st -> sound inst st'.
Proof using Henv Hver. induction 1; [done|]. intros Hs. by eapply IHrtc, step_sound. Qed.

(** ** The guard *)

(** What the guard sees of the files. *)
Definition shows (s : fs) (n : snapshot) : Prop :=
  exists i k f g, s !! p_Checkpoint p = Some f /\ s !! verification = Some g /\ n = mkSnapshot (Some (i, f)) (Some (k, g)) /\
    Size k = size (data g) /\ IsRegular k = regular g /\ infos n <> None.

Lemma guard_reads s ds j n :
  journaled s ds j -> shows s n -> exists hb saved, privateFile s (p_Checkpoint p) = Ok hb /\ unmarshal hb = Ok saved /\ verified_read n = Ok saved.
Proof.
  intros [Hl (g0 & Hg0 & Hgd & Hgo) _] (i & k & f & g & Hf & Hg & -> & Hk & Hreg & Hinf). rewrite Hg in Hg0. injection Hg0 as <-.
  destruct (load_inv _ _ _ _ _ _ Hl) as (key & hb & saved & d & st & _ & Hhb & Hsv & Hmac & Hi & H1 & _ & _ & _ & _ & _ & -> & _).
  exists hb, saved. split; [done|]. split; [done|]. unfold verified_read.
  assert (Hc : privateFile (fs_of (mkSnapshot (Some (i, f)) (Some (k, g)))) "checkpoint" = Ok hb).
  { unfold privateFile in *. unfold fs_of. cbn [sn_Checkpoint sn_Key]. rewrite lookup_insert_eq. by rewrite Hf in Hhb. }
  assert (Hkey : keyFile (fs_of (mkSnapshot (Some (i, f)) (Some (k, g)))) "key" = Ok (guardKey key)).
  { unfold infos in Hinf. cbn [sn_Checkpoint sn_Key] in Hinf. destruct (_ || _) in Hinf; [done|].
    destruct (IsRegular k) eqn:Ereg; cbn [negb orb] in Hinf; [|done]. destruct (Z.eqb_spec (Size k) 32) as [E32|]; cbn [negb] in Hinf; [|done].
    unfold keyFile, privateFile, fs_of. cbn [sn_Checkpoint sn_Key]. rewrite lookup_insert_ne by done. rewrite lookup_insert_eq, <- Hreg, Hgo. cbn [negb].
    rewrite Hk in E32. destruct (Z.ltb_spec file_limit (size (data g))); [rewrite E32 in *; done|]. rewrite Hgd in *. cbn [Key] in *.
    unfold size in E32. destruct (Nat.eqb_spec (length (guardKey key)) 32); [done|lia]. }
  rewrite Hkey, Hc, Hsv. rewrite (proj2 (String.eqb_neq _ _)) by done. rewrite (proj2 (Z.ltb_ge _ _)) by done. cbn [orb].
  by rewrite Hmac, String.eqb_refl.
Qed.

Lemma load_saved s j hb saved : Load s (p_Journal p) (p_Key p) (p_Checkpoint p) = Ok j -> privateFile s (p_Checkpoint p) = Ok hb -> unmarshal hb = Ok saved ->
  InstanceID saved = InstanceID (Head j) /\ Sequence saved = Sequence (Head j) /\ Hash saved = Hash (Head j).
Proof.
  intros Hl Hhb Hsv. destruct (load_inv _ _ _ _ _ _ Hl) as (key & hb' & saved' & d & st & _ & Hhb' & Hsv' & _ & _ & _ & _ & _ & _ & _ & Hend & -> & Hio).
  rewrite Hhb in Hhb'. injection Hhb' as <-. rewrite Hsv in Hsv'. injection Hsv' as <-. destruct (Hend eq_refl) as [E1 E2]. cbn [Head].
  split; [symmetry; apply Hio|by split].
Qed.

(** With a journal that loads, the guard lets requests in exactly when the database
    has applied every decision. *)
Lemma guard_complete s ds j n (d : LifecycleDb C) k :
  journaled s ds j -> Load s (p_Journal p) (p_Key p) (p_Checkpoint p) = Ok j -> shows s n -> has_prefix j d k ->
  check_uncached n (Some (DatabaseHead d)) = Ok tt <-> k = length (Records j).
Proof.
  intros Hj Hl Hs Hp. destruct (guard_reads _ _ _ _ Hj Hs) as (hb & saved & Hhb & Hsv & Hr). destruct (load_saved _ _ _ _ Hl Hhb Hsv) as (E1 & E2 & E3).
  pose proof (load_chained _ _ _ _ _ _ Hl) as Hc. pose proof (prefix_matches _ _ _ Hc Hp) as Hm. unfold Matches in Hm. cbn [DatabaseHead InstanceID Sequence Hash] in Hm.
  assert (Hchk : check_uncached n (Some (DatabaseHead d)) = if bool_decide (k = length (Records j)) then Ok tt else Err (SComparison, "lifecycle recovery replay required before application access")).
  { rewrite <- Hm. unfold check_uncached, Check_, checkpoint. destruct Hs as (i & kk & f & g & _ & _ & -> & _ & _ & Hinf).
    destruct (infos _) as [latest|]; [|done]. cbn [NewGuard head]. rewrite Hr. cbn [fst DatabaseHead InstanceID Sequence Hash]. rewrite E1, E2, E3.
    rewrite (String.eqb_sym (uuid_string _)), (Z.eqb_sym (l_sequence d)), (String.eqb_sym (l_head d)).
    destruct (String.eqb _ _), (Z.eqb _ _), (String.eqb _ _); done. }
  rewrite Hchk. destruct (bool_decide_reflect (k = length (Records j))); done.
Qed.

(** A fresh installation: no journal, and a database nothing was decided for. *)
Definition installed (inst : uuid) (s : fs) (d : LifecycleDb C) : Prop := (forall q, q ∈ paths4 -> s !! q = None) /\ untouched inst d.

(** C26. No database ever gets ahead of the journal or out of its order. From a fresh
    installation, after any sequence of operator commands, crashes in the middle of
    an append, COMMITs whose outcome is lost, restored backups and ordinary writes,
    either there is no journal and nothing was decided, or the journal
    authenticates and every state the database ever had is an exact prefix of it:
    its audit holds the first decisions of the journal, in order and once each.
    When the journal loads, the guard lets requests in exactly if the database has
    applied all of them. *)
Theorem lifecycle_prefix inst s0 d0 s d past :
  installed inst s0 d0 -> rtc step (mkState s0 d0 []) (mkState s d past) ->
  ((forall q, q ∈ paths4 -> s !! q = None) /\ forall x, x ∈ d :: past -> applied_events x = []) \/
  exists j, load s (p_Journal p) (p_Key p) (p_Checkpoint p) true = Ok j /\
    (forall x, x ∈ d :: past -> exists k, k <= length (Records j) /\ l_sequence x = Z.of_nat k /\ Some <$> applied_events x = event_of <$> take k (Records j)) /\
    (forall n, Load s (p_Journal p) (p_Key p) (p_Checkpoint p) = Ok j -> shows s n ->
       check_uncached n (Some (DatabaseHead d)) = Ok tt <-> Some <$> applied_events d = event_of <$> Records j).
Proof using Henv Hver.
  intros [Hs0 Hd0] Hr. assert (Hsound0 : sound inst (mkState s0 d0 [])).
  { left. split; [done|]. intros x [->|Hx]%elem_of_cons; [done|]. by apply elem_of_nil in Hx. }
  destruct (reach_sound inst _ _ Hr Hsound0) as [[H1 H2]|(j & Hj)]; [left; split; [done|]; intros x Hx; apply (H2 x Hx)|right].
  exists j. split; [apply Hj|]. split.
  - intros x Hx. destruct (jn_prefix _ _ _ Hj x Hx) as [k Hk]. exists k. split; [apply Hk|]. split; apply Hk.
  - intros n Hl Hsh. destruct (jn_prefix _ _ _ Hj d ltac:(by left)) as [k Hk]. rewrite (guard_complete _ _ _ _ _ _ Hj Hl Hsh Hk), (hp_events _ _ _ Hk).
    split; [intros ->; by rewrite take_ge|]. intros E. pose proof (hp_bound _ _ _ Hk). apply (f_equal length) in E. rewrite !length_fmap, length_take in E. lia.
Qed.

(** ** Recovery *)

(** What a replay needs to succeed, from any state of any history: that the pending
    decisions apply. It changes nothing otherwise. *)
Lemma recovery_outcome inst s d past j o key nonce :
  sound inst (mkState s d past) -> load s (p_Journal p) (p_Key p) (p_Checkpoint p) true = Ok j -> (size (head_bytes j) <= file_limit)%Z ->
  let recovered := mkWorld (writeHead s j) d in
  (runLifecycle getenv verification MReconcile (DatabaseHead d) o key nonce (mkWorld s d)).2 = recovered /\
  match foldM ApplyRecord (drop (Z.to_nat (l_sequence d)) (Records j)) d with
  | Ok d' =>
      let replayed := mkWorld (writeHead s j) d' in
      runLifecycle getenv verification MReplay (DatabaseHead d) Committed key nonce recovered = (Ok (l_sequence d'), replayed) /\
      Some <$> applied_events d' = event_of <$> Records j /\
      runLifecycle getenv verification MVerify (DatabaseHead d') o key nonce replayed = (Ok (l_sequence d'), replayed) /\
      (forall n, shows (writeHead s j) n -> check_uncached n (Some (DatabaseHead d')) = Ok tt)
  | Err e => runLifecycle getenv verification MReplay (DatabaseHead d) Committed key nonce recovered = (Err e, recovered)
  end.
Proof using Henv Hver.
  intros Hsound Hl Hsz. cbn zeta.
  assert (Hj : journaled s (d :: past) j).
  { destruct Hsound as [[H1 _]|(j' & Hj)].
    - exfalso. unfold load, keyFile, privateFile in Hl. cbn [s_fs] in H1. rewrite (H1 (p_Key p)) in Hl by (unfold paths4; set_solver). discriminate Hl.
    - pose proof (jn_load _ _ _ Hj) as Hl'. cbn [s_fs] in Hl'. rewrite Hl in Hl'. by injection Hl' as <-. }
  destruct (jn_prefix _ _ _ Hj d ltac:(by left)) as [k Hk]. pose proof (load_chained _ _ _ _ _ _ Hl) as Hc.
  assert (Hl2 : Load (writeHead s j) (p_Journal p) (p_Key p) (p_Checkpoint p) = Ok j) by (apply recover_loads; [exact paths_distinct|exact Hl|exact Hsz]).
  pose proof (prefix_head _ _ _ Hc Hk) as Hpre. rewrite (hp_sequence _ _ _ Hk), Nat2Z.id. split.
  { unfold runLifecycle. rewrite Henv. unfold RecoverCheckpoint. cbn [w_fs w_db]. rewrite Hl. unfold with_journal. rewrite Hpre. by destruct (Matches j (DatabaseHead d)). }
  assert (Hrun : runLifecycle getenv verification MReplay (DatabaseHead d) Committed key nonce (mkWorld (writeHead s j) d) =
    match foldM ApplyRecord (drop k (Records j)) d with Ok d' => (Ok (l_sequence d'), mkWorld (writeHead s j) d') | Err e => (Err e, mkWorld (writeHead s j) d) end).
  { unfold runLifecycle. rewrite Henv. cbn [w_fs w_db]. rewrite Hl2. unfold with_journal. rewrite !Hpre, (hp_sequence _ _ _ Hk), (pending_drop _ _ _ Hc).
    by destruct (foldM ApplyRecord _ d). }
  rewrite Hrun. destruct (foldM ApplyRecord _ d) as [d'|e] eqn:Hf; [|done].
  pose proof (replay_prefix _ _ _ Hc Hk _ Hf) as Hk'. pose proof (prefix_head _ _ _ Hc Hk') as Hpre'.
  pose proof (prefix_matches _ _ _ Hc Hk') as Hmat. rewrite bool_decide_eq_true_2 in Hmat by done. split_and!; [done| | |].
  - rewrite (hp_events _ _ _ Hk'). by rewrite take_ge.
  - unfold runLifecycle. rewrite Henv. cbn [w_fs w_db]. rewrite Hl2. unfold with_journal. rewrite Hpre', Hmat. done.
  - intros n Hsh. eapply (guard_complete (writeHead s j) (d' :: d :: past)); [|exact Hl2|exact Hsh|exact Hk'|done].
    eapply journaled_more; [|exact Hk'].
    eapply (journaled_grows _ _ _ _ j []); [exact Hj|by apply strict_tail| |done|done|by rewrite app_nil_r].
    destruct (load_paths _ _ _ _ _ _ Hl) as [_ HC]. rewrite !not_elem_of_cons in Hver. unfold writeHead. rewrite lookup_insert_ne; [done|].
    rewrite HC. by destruct Hver as (_ & _ & ? & _).
Qed.

(** SHA-256 digests have 32 bytes, and the rest of the database applies what it let be
    planned. *)
Context `{!Applies C} (Hsha : forall b, length (sha256 b) = 32).

(** Histories in which the rest of the program writes only while no decision is
    pending, as the guard has it for every request it lets in, and only backups taken
    since the last such write are restored. *)
Inductive orderly : State -> State -> Prop :=
  | orderly_command m d0 o key nonce s d past res s' d' :
      d0 ∈ d :: past -> length key = 32 -> length nonce = 12 -> fits s' -> (forall a, m = MApply a -> foreseen (l_content d) a = true) ->
      runLifecycle getenv verification m (DatabaseHead d0) o key nonce (mkWorld s d) = (res, mkWorld s' d') ->
      orderly (mkState s d past) (mkState s' d' (d :: past))
  | orderly_crash a q j nonce s d past r j' s' :
      length nonce = 12 -> Load s (p_Journal p) (p_Key p) (p_Checkpoint p) = Ok j -> Matches j (DatabaseHead d) = true ->
      foreseen (l_content d) a = true ->
      sierx_lifecycle_plan d a = Some q -> append_intent s j q nonce = Ok (r, j', s') -> fits s' ->
      orderly (mkState s d past) (mkState s' d past)
  | orderly_restore s d past d0 : d0 ∈ past -> orderly (mkState s d past) (mkState s d0 (d :: past))
  | orderly_write s d past d' :
      (forall j, load s (p_Journal p) (p_Key p) (p_Checkpoint p) true = Ok j -> Matches j (DatabaseHead d) = true) ->
      l_instance d' = l_instance d -> l_sequence d' = l_sequence d -> l_head d' = l_head d -> l_events d' = l_events d ->
      content_ok (l_content d') -> orderly (mkState s d past) (mkState s d' []).

(** Replaying the journal brings every database of a list to the same state. *)
Definition reaches (j : Journal_) (e x : LifecycleDb C) : Prop :=
  exists x', foldM ApplyRecord (drop (Z.to_nat (l_sequence x)) (Records j)) x = Ok x' /\ core x' = core e.
Definition together (ds : list (LifecycleDb C)) (j : Journal_) (e : LifecycleDb C) : Prop :=
  content_ok (l_content e) /\ forall x, x ∈ ds -> reaches j e x.

Lemma reaches_core j (e x y : LifecycleDb C) : core x = core y -> reaches j e x -> reaches j e y.
Proof.
  intros Hxy (x' & Hf & He). destruct (replay_core _ _ _ _ Hxy Hf) as (y' & Hy & Hc). exists y'.
  assert (l_sequence y = l_sequence x) as -> by (apply core_fields in Hxy as [l ->]; done). split; [exact Hy|congruence].
Qed.

Lemma together_more ds j (e x : LifecycleDb C) : together ds j e -> reaches j e x -> together (x :: ds) j e.
Proof. intros [H1 H2] Hx. split; [done|]. intros y [->|Hy]%elem_of_cons; [done|by apply H2]. Qed.

(** A database at the end is where all come to. *)
Lemma reaches_end j (d e : LifecycleDb C) : has_prefix j d (length (Records j)) -> reaches j e d <-> core d = core e.
Proof.
  intros Hp. unfold reaches. rewrite (hp_sequence _ _ _ Hp), Nat2Z.id, drop_ge by done. cbn [foldM]. split; [by intros (? & [= ->] & ?)|by exists d].
Qed.

Lemma matching_prefix j (d : LifecycleDb C) n : chained (Head j) (Records j) -> has_prefix j d n -> Matches j (DatabaseHead d) = true -> n = length (Records j).
Proof. intros Hc Hp. rewrite (prefix_matches _ _ _ Hc Hp). by intros ?%bool_decide_eq_true. Qed.

(** A decision that was planned and appended applies to all of them. *)
Lemma append_together s ds (d e : LifecycleDb C) j a q nonce r j' s' :
  journaled s (d :: ds) j -> together (d :: ds) j e -> chained (Head j') (Records j') -> Matches j (DatabaseHead d) = true -> foreseen (l_content d) a = true ->
  sierx_lifecycle_plan d a = Some q -> append_intent s j q nonce = Ok (r, j', s') ->
  exists d', ApplyRecord d r = Ok d' /\ together (d' :: d :: ds) j' d'.
Proof using Hsha.
  intros Hj [Hok Hall] Hc' Hm Hfore Hplan Ha. pose proof (load_chained _ _ _ _ _ _ (jn_load _ _ _ Hj)) as Hc.
  destruct (jn_prefix _ _ _ Hj d ltac:(by left)) as [n Hp]. pose proof (matching_prefix _ _ _ Hc Hp Hm) as ->.
  pose proof (proj1 (reaches_end j d e Hp) (Hall d ltac:(by left))) as Hcore.
  assert (Hokd : content_ok (l_content d)) by (apply core_fields in Hcore as [l ->]; exact Hok).
  destruct (append_key _ _ _ _ _ _ _ Ha) as (_ & Hi & Hr & _). assert (Hnth : Records j' !! length (Records j) = Some r) by (rewrite Hr; by rewrite lookup_app_r, Nat.sub_diag by lia).
  destruct (plan_applies d a q r Hokd Hfore Hplan) as [d' Hd'].
  - by apply append_intent_inv in Ha as (_ & _ & -> & _).
  - rewrite (ch_sequence _ _ Hc' _ _ Hnth), (hp_sequence _ _ _ Hp). lia.
  - by rewrite (ch_previous _ _ Hc' _ _ Hnth), Hr, hash_at_app, (hp_head _ _ _ Hp).
  - apply append_intent_inv in Ha as (_ & _ & -> & _). apply hex_hex64, Hsha.
  - exists d'. split; [done|]. assert (Hp' : has_prefix j' d' (length (Records j'))).
    { replace (length (Records j')) with (S (length (Records j))) by (rewrite Hr, length_app; cbn; lia).
      eapply apply_prefix; [exact Hc'| |exact Hnth|exact Hd']. by eapply prefix_grows. }
    split; [by eapply apply_content_ok|]. intros x [->|Hx]%elem_of_cons; [by apply reaches_end|].
    destruct (Hall x Hx) as (x' & Hf & Hx'). destruct (ApplyRecord_core d x' r d') as (x2 & Hx2 & Hcx); [congruence|exact Hd'|].
    exists x2. split; [|done]. destruct (jn_prefix _ _ _ Hj x Hx) as [m Hm']. pose proof (hp_bound _ _ _ Hm').
    rewrite Hr, drop_app_le by (rewrite (hp_sequence _ _ _ Hm'); lia). rewrite foldM_app, Hf. cbn [foldM]. by rewrite Hx2.
Qed.

Lemma together_sub ds ds' j e : (forall x, x ∈ ds' -> x ∈ ds) -> together ds j e -> together ds' j e.
Proof. intros Hsub [H1 H2]. split; [done|]. intros x Hx. by apply H2, Hsub. Qed.

Lemma blocked_core (d : LifecycleDb C) a d' : sierx_lifecycle_blocked d a = Some d' -> core d = core d'.
Proof. unfold sierx_lifecycle_blocked. destruct (uuid_parse _); [|done]. by intros [= <-]. Qed.

Definition kept_together (ds : list (LifecycleDb C)) (w : World C) : Prop :=
  exists j e, load (w_fs w) (p_Journal p) (p_Key p) (p_Checkpoint p) true = Ok j /\ together (w_db w :: ds) j e.

Lemma with_journal_together m h0 o nonce j s (d e : LifecycleDb C) ds w :
  length nonce = 12 -> journaled s (d :: ds) j -> Load s (p_Journal p) (p_Key p) (p_Checkpoint p) = Ok j -> together (d :: ds) j e ->
  (forall a, m = MApply a -> foreseen (l_content d) a = true) ->
  w = (with_journal m h0 o nonce j s d).2 -> fits (w_fs w) -> kept_together (d :: ds) w.
Proof using Henv Hver Hsha.
  intros Hn Hj Hl Ht Hfore Hw Hf. pose proof (strict_tail _ _ _ _ _ Hl) as Hlt. pose proof (load_chained _ _ _ _ _ _ Hl) as Hc.
  destruct (jn_prefix _ _ _ Hj d ltac:(by left)) as [n Hd]. pose proof (proj2 Ht d ltac:(by left)) as Hrd.
  assert (Hsame : kept_together (d :: ds) (mkWorld s d)) by (exists j, e; split; [done|]; by apply together_more).
  revert Hw. unfold with_journal. destruct (Prefix j h0) as [[]|]; [|intros ->; exact Hsame..].
  assert (Hrest : forall (r1 r2 : result string Z) (b : bool), w = (if b then (r1, mkWorld s d) else (r2, mkWorld s d)).2 -> kept_together (d :: ds) w) by (intros ? ? [] ->; exact Hsame).
  destruct m as [|a|a| | |]; try exact (Hrest _ _ _).
  - destruct (Matches j (DatabaseHead d)) eqn:Em; cbn [negb]; [|intros ->; exact Hsame].
    destruct (sierx_lifecycle_plan d a) as [q|] eqn:Eq.
    + unfold Append. destruct (append_intent s j q nonce) as [[[r j'] s1]|] eqn:Ha; [|intros ->; exact Hsame].
      intros Hw. assert (Hfs : w_fs w = writeHead s1 j') by (subst w; destruct (ApplyRecord d r); [destruct o|]; done).
      rewrite Hfs in Hf. destruct (append_journaled _ _ _ _ _ _ _ _ Hj Hl Hn Ha) as [_ Happ].
      specialize (Happ Hf (append_line_fits _ _ _ _ _ _ _ Hl Ha Hf)). pose proof (jn_load _ _ _ Happ) as Hl'.
      destruct (append_together s ds d e j a q nonce r j' s1 Hj Ht (load_chained _ _ _ _ _ _ Hl') Em (Hfore a eq_refl) Eq Ha) as (d' & Hd' & Ht').
      rewrite Hd' in Hw. exists j', d'. subst w. destruct o; (split; [exact Hl'|]); try exact Ht'.
      eapply together_sub; [|exact Ht']. intros x Hx. apply elem_of_cons. right. apply elem_of_cons in Hx as [->|Hx]; [by left|exact Hx].
    + destruct (sierx_lifecycle_blocked d a) as [d'|] eqn:E; intros ->; [|exact Hsame]. exists j, e. split; [done|]. apply together_more; [done|].
      eapply reaches_core; [by eapply blocked_core|exact Hrd].
  - rewrite (prefix_head j d n Hc Hd), (hp_sequence _ _ _ Hd), (pending_drop _ _ _ Hc).
    destruct (foldM ApplyRecord _ d) as [d'|] eqn:E; intros ->; [|exact Hsame]. exists j, e. split; [by destruct o|].
    assert (Hrd' : reaches j e d').
    { apply reaches_end; [by eapply replay_prefix|]. destruct Hrd as (x' & Hx & He). rewrite (hp_sequence _ _ _ Hd), Nat2Z.id, E in Hx. by injection Hx as <-. }
    destruct o; by apply together_more.
Qed.

(** In good order: nothing decided, or all databases lead to the same state. *)
Definition no_files (s : fs) : Prop := forall q, q ∈ paths4 -> s !! q = None.
Definition recoverable (st : State) : Prop :=
  let ds := s_db st :: s_past st in
  (no_files (s_fs st) /\ exists e, content_ok (l_content e) /\ forall x, x ∈ ds -> core x = core e) \/
  exists j e, load (s_fs st) (p_Journal p) (p_Key p) (p_Checkpoint p) true = Ok j /\ together ds j e.

Lemma no_files_load s j : no_files s -> load s (p_Journal p) (p_Key p) (p_Checkpoint p) true = Ok j -> False.
Proof. intros Hs Hl. unfold load, keyFile, privateFile in Hl. rewrite (Hs (p_Key p)) in Hl by (unfold paths4; set_solver). discriminate Hl. Qed.

Lemma sound_journaled inst s (d : LifecycleDb C) past j : sound inst (mkState s d past) -> load s (p_Journal p) (p_Key p) (p_Checkpoint p) true = Ok j -> journaled s (d :: past) j.
Proof.
  intros [[H1 _]|(j' & Hj)] Hl; [by destruct (no_files_load _ _ H1 Hl)|]. pose proof (jn_load _ _ _ Hj) as Hl'. cbn [s_fs] in Hl'. rewrite Hl in Hl'. by injection Hl' as <-.
Qed.

Lemma recoverable_more s d past x : recoverable (mkState s d past) -> x ∈ d :: past -> recoverable (mkState s x (d :: past)).
Proof.
  intros [(H1 & e & H2 & H3)|(j & e & H1 & H2)] Hx; [left; split; [done|]; exists e; split; [done|]|right; exists j, e; split; [done|]].
  - intros y [->|Hy]%elem_of_cons; by apply H3.
  - apply together_more; [exact H2|]. by apply H2.
Qed.

(** A journal just created has no decisions. *)
Lemma init_together s inst key j s' (ds : list (LifecycleDb C)) e :
  content_ok (l_content e) -> (forall x, x ∈ ds -> core x = core e) ->
  Init s (p_Journal p) (p_Key p) (p_Checkpoint p) verification inst key = Ok (j, s') -> together ds j e.
Proof.
  intros He Hds Hi. unfold Init in Hi. destruct (_ || _) in Hi; [done|]. destruct (existsb _ _); [done|]. injection Hi as <- <-.
  split; [done|]. intros x Hx. exists x. cbn [Records]. rewrite drop_nil. split; [done|]. by apply Hds.
Qed.

Lemma command_recoverable inst m d0 o key nonce s (d : LifecycleDb C) past w :
  sound inst (mkState s d past) -> recoverable (mkState s d past) -> d0 ∈ d :: past -> length key = 32 -> length nonce = 12 ->
  (forall a, m = MApply a -> foreseen (l_content d) a = true) ->
  w = (runLifecycle getenv verification m (DatabaseHead d0) o key nonce (mkWorld s d)).2 -> fits (w_fs w) ->
  recoverable (mkState (w_fs w) (w_db w) (d :: past)).
Proof using Henv Hver Hsha.
  intros Hs Hrec Hd0 Hk Hn Hfore Hw Hf. pose proof (recoverable_more s d past d Hrec ltac:(by left)) as Hsame.
  assert (Hjournal : forall m', (forall a, m' = MApply a -> foreseen (l_content d) a = true) ->
            (let r := match Load s (p_Journal p) (p_Key p) (p_Checkpoint p) with
            | Err e => (Err e, mkWorld s d) | Ok j => with_journal m' (DatabaseHead d0) o nonce j s d end in w = r.2) -> recoverable (mkState (w_fs w) (w_db w) (d :: past))).
  { intros m' Hm'. cbn zeta. destruct (Load s _ _ _) as [j|] eqn:Hl; intros E; [|rewrite E; exact Hsame].
    pose proof (strict_tail _ _ _ _ _ Hl) as Hlt. pose proof (sound_journaled _ _ _ _ _ Hs Hlt) as Hj.
    destruct Hrec as [[H1 _]|(j' & e & H1 & H2)]; [by destruct (no_files_load _ _ H1 Hlt)|]. cbn [s_fs] in H1. rewrite Hlt in H1. injection H1 as <-.
    right. exact (with_journal_together _ _ _ _ _ _ _ _ _ _ Hn Hj Hl H2 Hm' E Hf). }
  pose proof (command_sound inst m d0 o key nonce s d past w Hs Hd0 Hk Hn Hw Hf) as Hsound'.
  revert Hw. unfold runLifecycle. destruct m as [|a|a| | |]; rewrite ?Henv; try (apply Hjournal; done); cbn [w_fs w_db].
  - destruct (_ || _) eqn:E0; [intros ->; exact Hsame|]. destruct (Init s _ _ _ _ _ _) as [[j s']|] eqn:Ei; intros ->; [|exact Hsame].
    cbn [w_fs w_db snd] in *. assert (Hno : no_files s).
    { destruct Hs as [[H1 _]|(j' & Hj')]; [done|]. exfalso. unfold Init in Ei. destruct (_ || _) in Ei; [done|]. destruct (load_inv _ _ _ _ _ _ (jn_load _ _ _ Hj')) as (key' & ? & ? & ? & ? & Hkf & _).
      unfold keyFile, privateFile in Hkf. cbn [s_fs] in Hkf. cbn [existsb] in Ei. destruct (s !! p_Key p); [|done]. by rewrite !orb_true_r in Ei. }
    destruct Hsame as [(_ & e & H2 & H3)|(j' & e & H1 & _)]; [|by destruct (no_files_load _ _ Hno H1)].
    destruct Hs as [[_ H4]|(j' & Hj')]; [|by destruct (no_files_load _ _ Hno (jn_load _ _ _ Hj'))].
    right. exists j, e. split; [|by eapply init_together].
    pose proof (H4 d0 Hd0) as [U _ _ _]. cbn [DatabaseHead InstanceID] in Ei. rewrite U in Ei.
    refine (jn_load _ [] _ (init_sound s inst [] key j s' _ Hk Ei Hf)). by intros x ?%elem_of_nil.
  - destruct (planLifecycle a d); intros ->; exact Hsame.
  - unfold RecoverCheckpoint. destruct (load s _ _ _ true) as [j|] eqn:Hl; [|intros ->; exact Hsame].
    intros Hw. destruct (jn_prefix _ _ _ (sound_journaled _ _ _ _ _ Hs Hl) d ltac:(by left)) as [n Hp].
    assert (E : w = mkWorld (writeHead s j) d).
    { subst w. unfold with_journal. destruct (Prefix _ _) as [[]|]; [|done..]. by destruct (Matches _ _). }
    clear Hw. subst w. cbn [w_fs w_db] in *. destruct (load_paths _ _ _ _ _ _ Hl) as [_ HC].
    destruct Hsame as [[H1 _]|(j' & e & H1 & H2)]; [by destruct (no_files_load _ _ H1 Hl)|]. cbn [s_fs] in H1. rewrite Hl in H1. injection H1 as <-.
    right. exists j, e. split; [|done]. apply strict_tail, recover_loads; [exact paths_distinct|exact Hl|]. eapply head_fits; [exact Hf|exact HC|done].
Qed.

Lemma orderly_kept inst st st' : orderly st st' -> sound inst st /\ recoverable st -> sound inst st' /\ recoverable st'.
Proof using Henv Hver Hsha.
  intros Hstep [Hs Hr]. destruct Hstep as [m d0 o key nonce s d past res s' d' Hd0 Hk Hn Hf Hfore Hrun|a q j nonce s d past r j' s' Hn Hl Hm Hfore Hp Ha Hf|s d past d0 Hd0|s d past d' Hw E1 E2 E3 E4 Hok].
  - split.
    + apply (command_sound inst m d0 o key nonce s d past (mkWorld s' d') Hs Hd0 Hk Hn); [by rewrite Hrun|exact Hf].
    + apply (command_recoverable inst m d0 o key nonce s d past (mkWorld s' d') Hs Hr Hd0 Hk Hn Hfore); [by rewrite Hrun|exact Hf].
  - assert (Hs' : sound inst (mkState s' d past)) by (eapply step_sound; [by eapply step_crash|done]). split; [done|].
    pose proof (strict_tail _ _ _ _ _ Hl) as Hlt. pose proof (sound_journaled _ _ _ _ _ Hs Hlt) as Hj.
    destruct Hr as [[H1 _]|(j1 & e & H1 & H2)]; [by destruct (no_files_load _ _ H1 Hlt)|]. cbn [s_fs] in H1. rewrite Hlt in H1. injection H1 as <-.
    destruct (append_journaled _ _ _ _ _ _ _ _ Hj Hl Hn Ha) as [Happ _]. pose proof (jn_load _ _ _ (Happ Hf)) as Hl'.
    destruct (append_together s past d e j a q nonce r j' s' Hj H2 (load_chained _ _ _ _ _ _ Hl') Hm Hfore Hp Ha) as (d' & _ & Ht).
    right. exists j', d'. split; [exact Hl'|]. eapply together_sub; [|exact Ht]. intros x Hx. apply elem_of_cons. by right.
  - split; [eapply step_sound; [by apply step_restore|done]|]. apply recoverable_more; [done|]. apply elem_of_cons. by right.
  - assert (Hs' : sound inst (mkState s d' (d :: past))) by (eapply step_sound; [by apply step_write|done]). split.
    + destruct Hs' as [[H1 H2]|(j & Hj)]; [left; split; [done|]; intros x Hx; apply H2; set_solver|right; exists j].
      destruct Hj as [J1 J2 J3]. split; [done..|]. intros x Hx. apply J3. set_solver.
    + destruct Hr as [(H1 & _)|(j & e & H1 & H2)].
      * left. split; [done|]. exists d'. split; [done|]. by intros x ->%list_elem_of_singleton.
      * right. exists j, d'. split; [done|]. split; [done|]. intros x ->%list_elem_of_singleton.
        pose proof (sound_journaled _ _ _ _ _ Hs' H1) as Hj. destruct (jn_prefix _ _ _ Hj d' ltac:(by left)) as [n Hp].
        pose proof (load_chained _ _ _ _ _ _ H1) as Hc. assert (Hm : Matches j (DatabaseHead d') = true).
        { rewrite <- (Hw j H1). unfold Matches, DatabaseHead. cbn. by rewrite E1, E2, E3. }
        pose proof (matching_prefix _ _ _ Hc Hp Hm) as ->. by apply reaches_end.
Qed.

(** C27. Recovery works: wherever operator commands, crashes in the middle of an append,
    lost COMMITs and restored backups leave things, there is no journal yet, or the
    journal authenticates, and reconciling the checkpoint and replaying bring the
    database to its end, with every decision applied once; verification succeeds then,
    and the guard lets requests in again. That the pending decisions can still be
    applied is part of the claim. The histories are those where the rest of the program
    writes only while nothing is pending, and a backup that is restored was taken since
    its last write; a decision is one whose plan saw everything that applying checks
    ([foreseen]). From any other state the replay either succeeds likewise or changes
    nothing and reports why ([recovery_outcome]). *)
Theorem lifecycle_recovers inst s0 d0 s d past o key nonce :
  installed inst s0 d0 -> content_ok (l_content d0) -> rtc orderly (mkState s0 d0 []) (mkState s d past) ->
  no_files s \/ exists j, load s (p_Journal p) (p_Key p) (p_Checkpoint p) true = Ok j /\
    ((size (head_bytes j) <= file_limit)%Z -> exists d',
      let recovered := mkWorld (writeHead s j) d in
      let replayed := mkWorld (writeHead s j) d' in
      (runLifecycle getenv verification MReconcile (DatabaseHead d) o key nonce (mkWorld s d)).2 = recovered /\
      runLifecycle getenv verification MReplay (DatabaseHead d) Committed key nonce recovered = (Ok (l_sequence d'), replayed) /\
      Some <$> applied_events d' = event_of <$> Records j /\
      runLifecycle getenv verification MVerify (DatabaseHead d') o key nonce replayed = (Ok (l_sequence d'), replayed) /\
      (forall n, shows (writeHead s j) n -> check_uncached n (Some (DatabaseHead d')) = Ok tt)).
Proof using Henv Hver Hsha.
  intros [Hs0 Hd0] Hok Hr. assert (Hend : sound inst (mkState s d past) /\ recoverable (mkState s d past)).
  { revert Hr. generalize (mkState s d past) as st'. intros st' Hr.
    assert (Hstart : sound inst (mkState s0 d0 []) /\ recoverable (mkState s0 d0 [])).
    { split; left; (split; [exact Hs0|]); [|exists d0; split; [done|]]; by intros x ->%list_elem_of_singleton. }
    revert Hstart. induction Hr as [|x y z Hxy _ IH]; [done|]. intros Hx. by eapply IH, orderly_kept. }
  destruct Hend as [Hs [[Hno _]|(j & e & Hl & Ht)]]; [by left|right]. exists j. split; [exact Hl|]. intros Hsz.
  pose proof (recovery_outcome inst s d past j o key nonce Hs Hl Hsz) as [H1 H2]. destruct (proj2 Ht d ltac:(by left)) as (d' & Hf & _).
  cbn [s_db] in Hf. rewrite Hf in H2. exists d'. cbn zeta. by split.
Qed.

End recovery.

(** * Holds *)

Section holds.
Context {C : Type} `{UuidParse} `{Content C} {CR : Crypto} {CH : Codec Head_} {CB : Codec Body} {CE : Codec envelope}.
Context (getenv : string -> string) (verification : string).

Lemma blocked_plan (d : LifecycleDb C) a w : sql_uuid (WorkspaceID a) = Some (Some w) -> held w d = true -> mem_str (Kind a) destructive = true -> sierx_lifecycle_plan d a = None.
Proof.
  intros Hw Hh Hk. unfold sierx_lifecycle_plan. rewrite Hw. destruct (uuid_parse (CaseRef a)); [|done]. destruct (negb (stamp_ok (At a))); [done|].
  destruct (option_map _ _); [|done]. unfold hold_blocks. by rewrite Hk, Hh.
Qed.

Lemma blocked_apply (d : LifecycleDb C) r w : sql_uuid (WorkspaceID (r_Action (body r))) = Some (Some w) -> held w d = true -> mem_str (Kind (r_Action (body r))) destructive = true ->
  sierx_lifecycle_apply d r = None.
Proof.
  intros Hw Hh Hk. unfold sierx_lifecycle_apply. rewrite Hw. destruct (uuid_parse (CaseRef _)); [|done].
  repeat match goal with |- (if ?b then None else _) = None => destruct b eqn:?; [done|] end.
  unfold hold_blocks in *. by rewrite Hk, Hh in *.
Qed.

(** A hold stays active until a decision releases that very hold. *)
Lemma hold_kept (d d' : LifecycleDb C) r t w : sierx_lifecycle_apply d r = Some d' -> active_hold t (Some w) d = true ->
  active_hold t (Some w) d' = true \/ Kind (r_Action (body r)) = "hold-release" /\ sql_uuid (TargetID (r_Action (body r))) = Some (Some t).
Proof.
  unfold sierx_lifecycle_apply. set (a := r_Action (body r)). destruct (sql_uuid (WorkspaceID a)) as [w'|]; [|done]. destruct (uuid_parse (CaseRef a)) as [c|]; [|done].
  repeat match goal with |- (if ?b then None else _) = Some _ -> _ => destruct b; [done|] end.
  destruct (apply_holds a w' c d) as [holds|] eqn:Eh; [|done]. destruct (effect _ _ _); [|done]. intros [= <-] Ha. unfold active_hold in *. cbn [l_holds].
  unfold apply_holds in Eh. destruct (sql_uuid (TargetID a)) as [t'|]; [|done].
  destruct (String.eqb_spec (Kind a) "hold-create").
  - destruct t' as [t'|]; [|done]. destruct w' as [w'|]; [|done]. destruct (uuid_parse (AuthorityRef a)); [|done].
    destruct (bool_decide_reflect (is_Some (l_holds d !! t'))); cbn [orb] in Eh; [done|]. destruct (negb _); [done|]. injection Eh as <-.
    left. destruct (decide (t = t')) as [->|]; [|by rewrite lookup_insert_ne]. destruct (l_holds d !! t'); [|done]. exfalso. apply n. by eexists.
  - destruct (String.eqb_spec (Kind a) "hold-release"); [|injection Eh as <-; by left].
    destruct t' as [t'|]; [|injection Eh as <-; by left]. destruct (decide (t' = t)) as [->|Hne]; [by right|]. left.
    match type of Eh with (if ?b then _ else _) = _ => destruct b end; injection Eh as <-; [by rewrite lookup_alter_ne|done].
Qed.

Lemma active_held t w (d : LifecycleDb C) : active_hold t (Some w) d = true -> held w d = true.
Proof.
  unfold active_hold, held. destruct (l_holds d !! t) as [h|] eqn:E; [|done]. intros Ha. apply existsb_exists. exists (t, h).
  split; [by apply list_elem_of_In, elem_of_map_to_list|]. apply andb_prop in Ha as [Hb Hr]. apply bool_decide_eq_true in Hb. injection Hb as <-.
  cbn [snd]. rewrite bool_decide_eq_true_2 by done. exact Hr.
Qed.

(** C6. A hold protects a workspace. While one is active, no redaction, retention,
    history edit, removal of a member or anonymisation of the workspace gets
    anywhere: the command is refused, journal and checkpoint stay as they were, the
    database only notes the attempt, and no record of such a decision can be
    applied, in a replay either. The hold itself stays active through every
    decision but its own release. *)
Theorem hold_protects t w a m0 o key nonce s (d : LifecycleDb C) res s' d' :
  active_hold t (Some w) d = true -> sql_uuid (WorkspaceID a) = Some (Some w) -> mem_str (Kind a) destructive = true ->
  runLifecycle getenv verification (MApply a) m0 o key nonce (mkWorld s d) = (res, mkWorld s' d') ->
  is_ok res = false /\ s' = s /\ (d' = d \/ sierx_lifecycle_blocked d a = Some d') /\
  (forall r, r_Action (body r) = a -> is_ok (ApplyRecord d r) = false) /\
  (forall r d2, ApplyRecord d r = Ok d2 -> active_hold t (Some w) d2 = true \/
     Kind (r_Action (body r)) = "hold-release" /\ sql_uuid (TargetID (r_Action (body r))) = Some (Some t)).
Proof.
  intros Ha Hw Hk Hr. pose proof (active_held _ _ _ Ha) as Hh.
  assert (Hcmd : is_ok res = false /\ s' = s /\ (d' = d \/ sierx_lifecycle_blocked d a = Some d')).
  { revert Hr. unfold runLifecycle. destruct (EnvironmentPaths getenv) as [q|]; [|intros [= <- <- <-]; by split_and!; [..|left]].
    cbn [w_fs w_db]. destruct (Load _ _ _ _) as [j|]; [|intros [= <- <- <-]; by split_and!; [..|left]].
    unfold with_journal. destruct (Prefix j m0) as [[]|]; [|intros [= <- <- <-]; by split_and!; [..|left]..].
    destruct (negb _); [intros [= <- <- <-]; by split_and!; [..|left]|]. rewrite (blocked_plan _ _ _ Hw Hh Hk).
    destruct (sierx_lifecycle_blocked d a) as [d1|]; intros [= <- <- <-]; split_and!; try done; [by right|by left]. }
  destruct Hcmd as (H1 & H2 & H3). split_and!; try done.
  - intros r <-. unfold ApplyRecord. by rewrite (blocked_apply d r w).
  - intros r d2 E. unfold ApplyRecord in E. destruct (sierx_lifecycle_apply d r) eqn:Er; [|done]. injection E as ->. by eapply hold_kept.
Qed.

End holds.

End Recovery.
