(* ===== verification/OperatorDemo.v ===== *)
(** The lifecycle commands on a small installation, for the witnesses: a journal is
    created, a hold is applied, a takedown is interrupted in the middle of its append,
    and an earlier backup is restored. *)
From S2P Require Import Prelude Utf8 Uuid Journal JournalProps JournalDemo Guard Operator OperatorProps Recovery.
Open Scope nat_scope.

Module OperatorDemo.
Import Journal JournalProps JournalDemo Guard Operator OperatorProps Recovery.

(** Digests of 32 bytes. *)
Definition digest (b : bytes) : bytes := checksum b ++ repeat "x"%char 31.
#[local] Instance wide : Crypto.
Proof.
  refine {| sha256 := digest; hmac_sha256 k m := digest (k ++ m); gcm_seal k n p ad := ad ++ p;
            gcm_open k n c ad := if decide (take (length ad) c = ad) then Some (drop (length ad) c) else None |}.
  intros k n p ad _ _. rewrite take_app_length, decide_True by done. by rewrite drop_app_length.
Defined.

(** The content is the list of what was done to it. *)
#[local] Instance demo_content : Content (list string) :=
  {| stamp_ok s := negb (String.eqb s ""); review_later a b := str_lt a b;
     enumerate _ _ a := Some ([TargetID a], [], []); effect c _ a := Some (c ++ [Kind a]) |}.

Definition env (k : string) : string :=
  if String.eqb k "SIERX_LIFECYCLE_JOURNAL" then "j" else if String.eqb k "SIERX_LIFECYCLE_KEY_FILE" then "k"
  else if String.eqb k "SIERX_LIFECYCLE_CHECKPOINT" then "d/c" else "".
Definition p : Paths := mkPaths "j" "k" "d/c".
Definition verification : string := "d/verification.key".

Definition ws : uuid := U 1.
Definition inst : uuid := U 7.
Definition d0 : LifecycleDb (list string) := mkLdb inst 0 "" ∅ {[ws := U 9]} [] [].
Definition act (kind target authority review : string) : Action :=
  mkAction kind (uuid_string (U 20)) (uuid_string ws) target "" authority review "" "" 0 "2026-01-01" "" "" [] [] [].
Definition hold_action : Action := act "hold-create" (uuid_string (U 30)) (uuid_string (U 31)) "2026-06-01".
Definition takedown : Action := act "takedown" (uuid_string (U 40)) "" "".
Definition redaction : Action := act "redact-item" (uuid_string (U 40)) "" "".

Abbreviation W := (World (list string)).
Definition w0 : W := mkWorld ∅ d0.
Definition command m (d : LifecycleDb (list string)) (w : W) := runLifecycle env verification m (DatabaseHead d) Committed demo_key nonce1 w.
Definition r1 := command MInit d0 w0.
Definition r2 := command (MApply hold_action) d0 r1.2.
Definition no_action : Action := act "" "" "" "".
Definition planned : Action := match sierx_lifecycle_plan (w_db r2.2) takedown with Some a => a | None => no_action end.
Definition j2 : Journal_ := got no_journal (Load (w_fs r2.2) "j" "k" "d/c").
Definition crash : Record_ * Journal_ * fs := got (no_record, no_journal, ∅) (append_intent (w_fs r2.2) j2 planned nonce1).

Example commands_ex : (r1.1, r2.1, l_sequence (w_db r2.2), held ws (w_db r2.2)) = (Ok 0%Z, Ok 1%Z, 1%Z, true).
Proof. vm_compute. reflexivity. Qed.

(** ** The limits, by computation *)

Definition fitsb (s : fs) : bool :=
  match s !! "d/c" with Some f => (size (data f) <=? file_limit)%Z | None => true end &&
  match s !! "j" with Some f => forallb (fun l => negb (size l =? record_limit)%Z) (lines (data f)) | None => true end.
Lemma fitsb_spec s : fitsb s = true -> fits p s.
Proof.
  unfold fitsb. intros [H1 H2]%andb_prop. split.
  - intros f Hf. change (p_Checkpoint p) with "d/c" in Hf. rewrite Hf in H1. by apply Z.leb_le.
  - intros f l Hf Hl. change (p_Journal p) with "j" in Hf. rewrite Hf in H2. rewrite forallb_forall in H2. specialize (H2 l).
    rewrite <- list_elem_of_In in H2. specialize (H2 Hl). apply negb_true_iff, Z.eqb_neq in H2. done.
Qed.

Lemma pair_eta {A B} (x : A * World B) : x = (x.1, mkWorld (w_fs x.2) (w_db x.2)).
Proof. by destruct x as [? []]. Qed.

Abbreviation state := (mkState (C := list string)).

Lemma step1 : step env p verification (state ∅ d0 []) (state (w_fs r1.2) (w_db r1.2) [d0]).
Proof.
  apply (step_command env p verification MInit d0 Committed demo_key nonce1 ∅ d0 [] r1.1 (w_fs r1.2) (w_db r1.2)); [by left|done|done| |apply pair_eta].
  apply fitsb_spec. vm_compute. reflexivity.
Qed.
Lemma r1_db : w_db r1.2 = d0.
Proof. vm_compute. reflexivity. Qed.
Lemma step2 : step env p verification (state (w_fs r1.2) (w_db r1.2) [d0]) (state (w_fs r2.2) (w_db r2.2) [w_db r1.2; d0]).
Proof.
  apply (step_command env p verification (MApply hold_action) d0 Committed demo_key nonce1 (w_fs r1.2) (w_db r1.2) [d0] r2.1 (w_fs r2.2) (w_db r2.2)); [by right; left|done|done| |].
  - apply fitsb_spec. vm_compute. reflexivity.
  - unfold r2, command. rewrite <- pair_eta. by destruct r1.2.
Qed.

Lemma crash_ok : append_intent (w_fs r2.2) j2 planned nonce1 = Ok (crash.1.1, crash.1.2, crash.2).
Proof. rewrite <- triple. apply got_ok. vm_compute. reflexivity. Qed.
Lemma j2_loads : Load (w_fs r2.2) "j" "k" "d/c" = Ok j2.
Proof. apply got_ok. vm_compute. reflexivity. Qed.
Lemma planned_ok : sierx_lifecycle_plan (w_db r2.2) takedown = Some planned.
Proof. vm_compute. reflexivity. Qed.
Lemma step3 : step env p verification (state (w_fs r2.2) (w_db r2.2) [w_db r1.2; d0]) (state crash.2 (w_db r2.2) [w_db r1.2; d0]).
Proof.
  eapply (step_crash env p verification takedown planned j2 nonce1 _ _ _ crash.1.1 crash.1.2); [done|exact j2_loads| |exact planned_ok|exact crash_ok|].
  - vm_compute. reflexivity.
  - apply fitsb_spec. vm_compute. reflexivity.
Qed.
Lemma step4 : step env p verification (state crash.2 (w_db r2.2) [w_db r1.2; d0]) (state crash.2 d0 [w_db r2.2; w_db r1.2; d0]).
Proof. apply step_restore. by right; left. Qed.

Lemma steps : rtc (step env p verification) (state ∅ d0 []) (state crash.2 d0 [w_db r2.2; w_db r1.2; d0]).
Proof. eapply rtc_l; [exact step1|]. eapply rtc_l; [exact step2|]. eapply rtc_l; [exact step3|]. apply rtc_once, step4. Qed.

Lemma env_ok : EnvironmentPaths env = Ok p.
Proof. reflexivity. Qed.
Lemma verification_apart : verification ∉ [p_Journal p; p_Key p; p_Checkpoint p].
Proof. refine (proj1 (bool_decide_eq_false _) _). vm_compute. reflexivity. Qed.
Lemma fresh_installation : installed p verification inst ∅ d0.
Proof. split; [intros q _; apply lookup_empty|by split]. Qed.

Lemma crash_loads : load crash.2 "j" "k" "d/c" true = Ok crash.1.2.
Proof. vm_compute. reflexivity. Qed.


Lemma key_there : bool_decide (is_Some (crash.2 !! "k")) = true.
Proof. vm_compute. reflexivity. Qed.
Lemma crash_records : length (Records crash.1.2) = 2.
Proof. vm_compute. reflexivity. Qed.

(** The theorems there. *)
Lemma lifecycle_prefix_witness :
  exists j, load crash.2 "j" "k" "d/c" true = Ok j /\ length (Records j) = 2 /\
    exists k, l_sequence (w_db r2.2) = Z.of_nat k /\ Some <$> applied_events (w_db r2.2) = event_of <$> take k (Records j).
Proof.
  destruct (lifecycle_prefix env p verification env_ok verification_apart inst ∅ d0 _ _ _ fresh_installation steps) as [[Hno _]|(j & Hl & Hp & _)].
  - exfalso. pose proof (Hno "k" (list_elem_of_further _ _ _ (list_elem_of_here _ _))) as Hn. pose proof key_there as Hk. rewrite Hn in Hk. discriminate Hk.
  - exists j. split; [exact Hl|]. split.
    + rewrite <- (Ok_inj _ _ (eq_trans (eq_sym crash_loads) Hl)). exact crash_records.
    + destruct (Hp (w_db r2.2) (list_elem_of_further _ _ _ (list_elem_of_here _ _))) as (k & _ & H1 & H2). exists k. split; [exact H1|exact H2].
Defined.

(** The same history step by step: nothing but the commands wrote. *)
#[local] Instance demo_applies : Applies (list string).
Proof. refine {| content_ok _ := True; foreseen _ _ := true |}; [by intros; eexists|done]. Defined.

Lemma d0_ok : content_ok (l_content d0).
Proof. exact I. Qed.
Lemma orderly1 : orderly env p verification (state ∅ d0 []) (state (w_fs r1.2) (w_db r1.2) [d0]).
Proof.
  apply (orderly_command env p verification MInit d0 Committed demo_key nonce1 ∅ d0 [] r1.1 (w_fs r1.2) (w_db r1.2)); [by left|done|done| |done|apply pair_eta].
  apply fitsb_spec. vm_compute. reflexivity.
Qed.
Lemma orderly2 : orderly env p verification (state (w_fs r1.2) (w_db r1.2) [d0]) (state (w_fs r2.2) (w_db r2.2) [w_db r1.2; d0]).
Proof.
  apply (orderly_command env p verification (MApply hold_action) d0 Committed demo_key nonce1 (w_fs r1.2) (w_db r1.2) [d0] r2.1 (w_fs r2.2) (w_db r2.2)); [by right; left|done|done| |done|].
  - apply fitsb_spec. vm_compute. reflexivity.
  - unfold r2, command. rewrite <- pair_eta. by destruct r1.2.
Qed.
Lemma orderly3 : orderly env p verification (state (w_fs r2.2) (w_db r2.2) [w_db r1.2; d0]) (state crash.2 (w_db r2.2) [w_db r1.2; d0]).
Proof.
  eapply (orderly_crash env p verification takedown planned j2 nonce1 _ _ _ crash.1.1 crash.1.2); [done|exact j2_loads| |done|exact planned_ok|exact crash_ok|].
  - vm_compute. reflexivity.
  - apply fitsb_spec. vm_compute. reflexivity.
Qed.
Lemma orderly_steps : rtc (orderly env p verification) (state ∅ d0 []) (state crash.2 d0 [w_db r2.2; w_db r1.2; d0]).
Proof.
  eapply rtc_l; [exact orderly1|]. eapply rtc_l; [exact orderly2|]. eapply rtc_l; [exact orderly3|]. apply rtc_once, orderly_restore. by right; left.
Qed.
Lemma digest_length b : length (sha256 b) = 32.
Proof. reflexivity. Qed.

(** The backup comes back with the hold and the takedown applied. *)
Lemma lifecycle_recovers_witness :
  exists d', runLifecycle env verification MReplay (DatabaseHead d0) Committed demo_key nonce1 (mkWorld (writeHead crash.2 crash.1.2) d0) =
    (Ok (l_sequence d'), mkWorld (writeHead crash.2 crash.1.2) d') /\
  Some <$> applied_events d' = event_of <$> Records crash.1.2 /\ length (Records crash.1.2) = 2.
Proof.
  destruct (lifecycle_recovers env p verification env_ok verification_apart digest_length inst ∅ d0 crash.2 d0 _ Committed demo_key nonce1
    fresh_installation d0_ok orderly_steps) as [Hno|(j & Hl & Hj)].
  - exfalso. pose proof (Hno "k" (list_elem_of_further _ _ _ (list_elem_of_here _ _))) as Hn. pose proof key_there as Hk. rewrite Hn in Hk. discriminate Hk.
  - assert (crash.1.2 = j) as <- by exact (Ok_inj _ _ (eq_trans (eq_sym crash_loads) Hl)).
    destruct Hj as (d' & _ & H2 & H3 & _); [vm_compute; discriminate|]. exists d'. split; [exact H2|]. split; [exact H3|exact crash_records].
Defined.

Definition refused := runLifecycle env verification (MApply redaction) (DatabaseHead (w_db r2.2)) Committed demo_key nonce1 r2.2.

Lemma hold_protects_witness : is_ok refused.1 = false /\ w_fs refused.2 = w_fs r2.2.
Proof.
  destruct (hold_protects env verification (U 30) ws redaction (DatabaseHead (w_db r2.2)) Committed demo_key nonce1 (w_fs r2.2) (w_db r2.2)
    refused.1 (w_fs refused.2) (w_db refused.2)) as (H1 & H2 & _).
  - vm_compute. reflexivity.
  - vm_compute. reflexivity.
  - reflexivity.
  - rewrite <- pair_eta. unfold refused. by destruct r2.2.
  - split; [exact H1|exact H2].
Defined.

End OperatorDemo.
