(* ===== verification/Lock.v ===== *)
(** The lock of the journal ([Lock] in [lifecycle/journal.go]): operator commands run
    as processes that each take the directory beside the journal, read the files and
    write them in steps that others interleave with. A process may stop at any of
    them and leave the directory behind. *)
From S2P Require Import Prelude Utf8 Journal JournalProps JournalDemo Operator OperatorProps.
Open Scope Z_scope.

Module Lock.
Import Journal JournalProps JournalDemo Operator OperatorProps.
#[local] Set Warnings "-clear-no-such-hyp".

(** * Lock *)

Definition lock_dir (path : string) : string := path +:+ ".lock".

(** [os.Mkdir] fails on a name that is there, and when the parent is not. *)
Definition Lock (parent : bool) (path : string) (dirs : gset string) : result string (gset string) :=
  if negb parent || bool_decide (lock_dir path ∈ dirs)
  then Err "journal is locked or its protected directory is missing"
  else Ok ({[lock_dir path]} ∪ dirs).
(** The function it returns; the error of [os.Remove] is dropped. *)
Definition unlock (removed : bool) (path : string) (dirs : gset string) : gset string :=
  if removed then dirs ∖ {[lock_dir path]} else dirs.

Section processes.
Context {CR : Crypto} {CH : Codec Head_} {CB : Codec Body} {CE : Codec envelope}.
Context (path keyPath checkpoint verification : string).

(** Where a process that has the lock stands: it has read nothing yet, it has the
    journal in memory, or it has written a record and not yet the checkpoint. *)
Inductive phase := Holding | Loaded (j : Journal_) | Pending (j : Journal_).

(** [ps_all] holds the processes between [Lock] and the end of the command. *)
Record system := mkSystem { ps_dirs : gset string; ps_files : fs; ps_all : gmap nat phase }.

(** What [Append_Load] excludes of an append. *)
Definition ordinary (j : Journal_) (a : Action) (nonce : bytes) (j' : Journal_) : Prop :=
  length nonce = 12%nat /\ size (next_line j a nonce) <> record_limit /\ size (head_bytes j') <= file_limit.

Inductive step : system -> system -> Prop :=
  | do_lock p parent σ dirs : ps_all σ !! p = None -> Lock parent path (ps_dirs σ) = Ok dirs ->
      step σ (mkSystem dirs (ps_files σ) (<[p := Holding]> (ps_all σ)))
  | do_init p σ inst key j s : ps_all σ !! p = Some Holding -> Init (ps_files σ) path keyPath checkpoint verification inst key = Ok (j, s) ->
      step σ (mkSystem (ps_dirs σ) s (ps_all σ))
  | do_load p σ j : ps_all σ !! p = Some Holding -> Load (ps_files σ) path keyPath checkpoint = Ok j ->
      step σ (mkSystem (ps_dirs σ) (ps_files σ) (<[p := Loaded j]> (ps_all σ)))
  | do_recover p σ j s : ps_all σ !! p = Some Holding -> RecoverCheckpoint (ps_files σ) path keyPath checkpoint = Ok (j, s) ->
      size (head_bytes j) <= file_limit -> step σ (mkSystem (ps_dirs σ) s (<[p := Loaded j]> (ps_all σ)))
  | do_record p σ j a nonce r j' s : ps_all σ !! p = Some (Loaded j) -> append_intent (ps_files σ) j a nonce = Ok (r, j', s) -> ordinary j a nonce j' ->
      step σ (mkSystem (ps_dirs σ) s (<[p := Pending j']> (ps_all σ)))
  | do_checkpoint p σ j : ps_all σ !! p = Some (Pending j) ->
      step σ (mkSystem (ps_dirs σ) (writeHead (ps_files σ) j) (<[p := Loaded j]> (ps_all σ)))
  (** The command returns, with an error or without. *)
  | do_unlock p removed σ : is_Some (ps_all σ !! p) -> step σ (mkSystem (unlock removed path (ps_dirs σ)) (ps_files σ) (delete p (ps_all σ)))
  (** The process is killed. *)
  | do_crash p σ : is_Some (ps_all σ !! p) -> step σ (mkSystem (ps_dirs σ) (ps_files σ) (delete p (ps_all σ)))
  (** The operator removes a lock after confirming that no process owns it. *)
  | do_clear σ : ps_all σ = ∅ -> step σ (mkSystem (ps_dirs σ ∖ {[lock_dir path]}) (ps_files σ) (ps_all σ)).

(** * Mutual exclusion *)

Record exclusive (σ : system) : Prop := {
  ex_one : forall p q, is_Some (ps_all σ !! p) -> is_Some (ps_all σ !! q) -> p = q;
  ex_dir : forall p, is_Some (ps_all σ !! p) -> lock_dir path ∈ ps_dirs σ
}.

(** What a process has in memory is what is on disk. *)
Definition in_step (s : fs) (ph : phase) : Prop :=
  match ph with
  | Holding => True
  | Loaded j => Load s path keyPath checkpoint = Ok j
  | Pending j => load s path keyPath checkpoint true = Ok j /\ size (head_bytes j) <= file_limit /\
      Checkpoint j = checkpoint
  end.
Definition coherent (σ : system) : Prop := exclusive σ /\ forall p ph, ps_all σ !! p = Some ph -> in_step (ps_files σ) ph.

Lemma exclusive_same σ dirs s p ph : exclusive σ -> is_Some (ps_all σ !! p) -> lock_dir path ∈ dirs ->
  exclusive (mkSystem dirs s (<[p := ph]> (ps_all σ))).
Proof.
  intros [H1 H2] Hp Hd. split; simpl; [|done]. intros q q' Hq Hq'. apply H1.
  - apply lookup_insert_is_Some in Hq as [<-|[_ ?]]; done.
  - apply lookup_insert_is_Some in Hq' as [<-|[_ ?]]; done.
Qed.
Lemma exclusive_delete σ dirs s p : exclusive σ -> is_Some (ps_all σ !! p) -> exclusive (mkSystem dirs s (delete p (ps_all σ))).
Proof.
  intros [H1 _] Hp.
  assert (Hno : forall q, ~ is_Some (delete p (ps_all σ) !! q)).
  { intros q [Hne Hq]%lookup_delete_is_Some. by apply Hne, H1. }
  split; simpl; [intros q q' Hq|intros q Hq]; by destruct (Hno q).
Qed.

(** The only process. *)
Lemma coherent_replace σ dirs s p ph :
  coherent σ -> is_Some (ps_all σ !! p) -> dirs = ps_dirs σ -> in_step s ph -> coherent (mkSystem dirs s (<[p := ph]> (ps_all σ))).
Proof.
  intros [He Hc] Hp -> Hi. split; [apply exclusive_same; [done..|by eapply ex_dir]|]. simpl. intros q ph' Hq.
  destruct (decide (p = q)) as [<-|Hne]; [by rewrite lookup_insert_eq in Hq; injection Hq as <-|].
  rewrite lookup_insert_ne in Hq by done. destruct Hne. apply (ex_one _ He); [done|by eexists].
Qed.

Context (Hdis : distinct path keyPath checkpoint).

Lemma step_coherent σ σ' : coherent σ -> step σ σ' -> coherent σ'.
Proof.
  intros Hcoh Hs. revert Hcoh. destruct Hs; intros [He Hc]; simpl.
  - unfold Lock in *. destruct (negb parent); [done|]. simpl in *. case_bool_decide as Hd; [done|]. simplify_eq.
    assert (Hnone : forall q, ps_all σ !! q = None).
    { intros q. destruct (ps_all σ !! q) eqn:E; [|done]. destruct Hd. by eapply ex_dir. }
    split.
    + assert (Honly : forall q, is_Some (<[p := Holding]> (ps_all σ) !! q) -> q = p).
      { intros q [<-|[_ [ph Hq]]]%lookup_insert_is_Some; [done|]. by rewrite Hnone in Hq. }
      split; simpl; [|set_solver]. intros q q' Hq Hq'. by rewrite (Honly _ Hq), (Honly _ Hq').
    + simpl. intros q ph [[<- <-]|[_ Hq]]%lookup_insert_Some; [done|]. by rewrite Hnone in Hq.
  - split; [by destruct He; split|]. simpl. intros q ph Hq. replace q with p in Hq; [by simplify_eq|].
    apply (ex_one _ He); by eexists.
  - by eapply coherent_replace; [split|eexists| |].
  - eapply coherent_replace; [by split|by eexists|done|]. unfold RecoverCheckpoint in *.
    destruct (load _ _ _ _ true) as [j0|] eqn:El; [|done]. simplify_eq. by apply recover_loads.
  - match goal with H : ordinary _ _ _ _ |- _ => destruct H as (Hn & Hsz & Hh) end.
    match goal with H : ps_all σ !! p = Some (Loaded j) |- _ => pose proof (Hc _ _ H) as Hl end. simpl in Hl.
    eapply coherent_replace; [by split|by eexists|done|]. simpl. split_and!; [|done|].
    + match goal with H : append_intent _ _ _ _ = _ |- _ => exact (interrupted_load _ _ _ _ _ _ _ _ _ _ Hdis Hl Hn Hsz H true) end.
    + match goal with H : append_intent _ _ _ _ = _ |- _ => apply append_intent_inv in H as (_ & _ & _ & -> & _) end. simpl.
      apply load_inv in Hl as (? & ? & ? & ? & ? & _ & _ & _ & _ & _ & _ & _ & _ & _ & _ & _ & -> & _). done.
  - match goal with H : ps_all σ !! p = Some (Pending j) |- _ => pose proof (Hc _ _ H) as (Hl & Hh & Hcp) end.
    eapply coherent_replace; [by split|by eexists|done|]. by apply recover_loads.
  - split; [by apply exclusive_delete|]. simpl. intros q ph [_ Hq]%lookup_delete_Some. by eapply Hc.
  - split; [by apply exclusive_delete|]. simpl. intros q ph [_ Hq]%lookup_delete_Some. by eapply Hc.
  - assert (Hnone : forall q ph, ps_all σ !! q <> Some ph).
    { intros q ph. match goal with H : ps_all σ = ∅ |- _ => rewrite H end. by rewrite lookup_empty. }
    split; [split|]; simpl; [intros q q' [ph Hq]|intros q [ph Hq]|intros q ph Hq]; by destruct (Hnone _ _ Hq).
Qed.

(** * The journal under interleaving *)

(** What can be read back, if need be after recovering the checkpoint. *)
Definition decisions (s : fs) : option (list Record_) :=
  match load s path keyPath checkpoint true with Ok j => Some (Records j) | Err _ => None end.

Lemma decisions_loaded s j : Load s path keyPath checkpoint = Ok j -> decisions s = Some (Records j).
Proof. intros Hl. unfold decisions. by rewrite (strict_tail _ _ _ _ _ Hl). Qed.

(** A step leaves the decisions or, recording, adds one. *)
Lemma step_decisions σ σ' rs : coherent σ -> step σ σ' -> decisions (ps_files σ) = Some rs ->
  exists l, decisions (ps_files σ') = Some (rs ++ l) /\ (length l <= 1)%nat.
Proof.
  intros Hcoh Hs Hrs.
  assert (Hsame : ps_files σ' = ps_files σ -> exists l, decisions (ps_files σ') = Some (rs ++ l) /\ (length l <= 1)%nat).
  { intros ->. exists []. rewrite app_nil_r. split; [done|simpl; lia]. }
  revert Hcoh Hrs Hsame. destruct Hs; intros [He Hc] Hrs Hsame; simpl in *; try (by apply Hsame).
  - exfalso. unfold decisions in Hrs. destruct (load _ _ _ _ true) as [j0|] eqn:El; [|done].
    apply load_inv in El as (k & ? & ? & ? & ? & Hk & _). match goal with H : Init _ _ _ _ _ _ _ = _ |- _ => unfold Init in H; rename H into Hi end.
    destruct (String.eqb path keyPath || _ || _ || _); [done|]. cbn [existsb] in Hi.
    unfold keyFile, privateFile in Hk. destruct (ps_files σ !! keyPath); [|done]. by rewrite orb_true_r in Hi.
  - unfold RecoverCheckpoint in *. unfold decisions in Hrs. destruct (load _ _ _ _ true) as [j0|] eqn:El; [|done]. simplify_eq.
    exists []. rewrite app_nil_r. split; [by apply decisions_loaded, recover_loads|simpl; lia].
  - match goal with H : ordinary _ _ _ _ |- _ => destruct H as (Hn & Hsz & Hh) end.
    match goal with H : ps_all σ !! p = Some (Loaded j) |- _ => pose proof (Hc _ _ H) as Hl end. simpl in Hl.
    match goal with H : append_intent _ _ _ _ = _ |- _ => rename H into Ha end.
    rewrite (decisions_loaded _ _ Hl) in Hrs. injection Hrs as <-. exists [r]. split; [|simpl; lia].
    unfold decisions. rewrite (interrupted_load _ _ _ _ _ _ _ _ _ _ Hdis Hl Hn Hsz Ha true).
    by apply append_intent_inv in Ha as (_ & _ & -> & -> & _).
  - match goal with H : ps_all σ !! p = Some (Pending j) |- _ => pose proof (Hc _ _ H) as (Hl & Hh & Hcp) end.
    unfold decisions in Hrs. rewrite Hl in Hrs. injection Hrs as <-. exists []. rewrite app_nil_r.
    split; [by apply decisions_loaded, recover_loads|simpl; lia].
Qed.

Lemma reachable_coherent σ σ' : coherent σ -> rtc step σ σ' -> coherent σ'.
Proof. intros Hc. induction 1 as [|x y z Hs _ IH]; [done|]. by apply IH, (step_coherent x). Qed.

(** C40. Commands that interleave at every step, and may be killed at any, exclude each
    other: at most one has the lock, what it has in memory is the journal on disk, and
    no decision that was recorded is lost. *)
Theorem lock_serializes dirs s σ :
  rtc step (mkSystem dirs s ∅) σ ->
  (forall p q, is_Some (ps_all σ !! p) -> is_Some (ps_all σ !! q) -> p = q) /\
  (forall p j, ps_all σ !! p = Some (Loaded j) -> Load (ps_files σ) path keyPath checkpoint = Ok j) /\
  (forall rs, decisions s = Some rs -> exists l, decisions (ps_files σ) = Some (rs ++ l)).
Proof.
  intros Hr. assert (H0 : coherent (mkSystem dirs s ∅)).
  { split; [split|]; simpl; [intros ? ? [? ?]|intros ? [? ?]|intros ? ? ?]; by rewrite lookup_empty in *. }
  destruct (reachable_coherent _ _ H0 Hr) as [He Hc]. split; [apply He|]. split; [intros p j Hp; by apply (Hc _ _ Hp)|].
  clear He Hc. change s with (ps_files (mkSystem dirs s ∅)) at 1. revert H0.
  induction Hr as [x|x y z Hs _ IH]; intros Hx rs Hrs; [exists []; by rewrite app_nil_r|].
  destruct (step_decisions _ _ _ Hx Hs Hrs) as (l & Hl & _). destruct (IH (step_coherent _ _ Hx Hs) _ Hl) as (l' & Hl').
  exists (l ++ l'). by rewrite app_assoc.
Qed.

(** A lock left behind keeps everyone out, until the operator removes it. *)
Lemma stale_lock_refuses parent dirs : lock_dir path ∈ dirs -> is_ok (Lock parent path dirs) = false.
Proof. intros Hd. unfold Lock. rewrite (bool_decide_true _ Hd). by rewrite orb_true_r. Qed.
Lemma cleared_lock_grants dirs : Lock true path (dirs ∖ {[lock_dir path]}) = Ok ({[lock_dir path]} ∪ dirs ∖ {[lock_dir path]}).
Proof. unfold Lock. rewrite bool_decide_false by set_solver. done. Qed.

End processes.

(** * Two commands *)

(** One process records a decision and is killed before the checkpoint; the lock is
    cleared, and another recovers the checkpoint. *)
Definition start : system := mkSystem ∅ s1 ∅.
Definition killed : system := mkSystem {[lock_dir "j"]} intent2.2 ∅.

Lemma killed_reachable : rtc (step "j" "k" "c" "v") start killed.
Proof.
  eapply rtc_l; [by eapply (do_lock _ _ _ _ 1 true)|].
  eapply rtc_l; [by eapply (do_load _ _ _ _ 1 _ j1)|].
  eapply rtc_l; [eapply (do_record _ _ _ _ 1); [done|exact intent2_ok|]|].
  { split; [reflexivity|]. split; [exact line2_short|vm_compute; discriminate]. }
  eapply rtc_l; [by eapply (do_crash _ _ _ _ 1)|]. simpl. apply rtc_refl.
Qed.

Lemma lock_serializes_witness : exists l, decisions "j" "k" "c" (ps_files killed) = Some (Records j1 ++ l).
Proof.
  destruct (lock_serializes "j" "k" "c" "v" names ∅ s1 killed killed_reachable) as (_ & _ & H).
  apply H. unfold decisions. vm_compute. reflexivity.
Defined.

End Lock.
