(* ===== verification/Reads.v ===== *)
(** The endpoints that read: the history of an item ([internal/api/history.go]),
    its place in the tree ([hierarchy.go]), the item itself, its links and comments
    ([items.go], [links.go], [comments.go]), projects and members ([projects.go]), and
    the configuration of a project ([config.go]). *)
From S2P Require Import Prelude Utf8 Uuid Ltree Float Json Base64 Journal Db Problem Site Patch Workflow Items Projects Projection Cursor Paging Listing Http.
Open Scope Z_scope.

Module Reads.
Import Db Problem Site Patch Workflow Items.

(** A GET: the caller, the path and query of the URL, and the value of [{key}]. *)
Record read_request := mkRead { rr_who : identity; rr_path : string; rr_query : Cursor.query; rr_param : string }.

(** The same for the pagination. *)
Definition page_request (r : read_request) : Cursor.request :=
  Cursor.mkRequest (uuid_string (WorkspaceID (rr_who r))) (uuid_string (ID (rr_who r))) (rr_path r) (rr_query r).

Definition no_fields (r : read_request) : result Problem_ unit :=
  if Cursor.q_has (rr_query r) "fields"
  then Err (with_detail "fields is not supported for this endpoint; remove it." BadRequest)
  else Ok tt.

(** PostgreSQL's [ILIKE] on a text and a pattern, and the value of a projection's
    expression at a row with its joins. *)
Class ReadSql := { ilike : string -> string -> bool; hydrate : string -> list string -> Site -> Item -> list (string * json) }.

Section reads.
Context {CR : Crypto} {CC : Codec Cursor.Cursor_} {UU : UuidParse} {SQ : ReadSql}.

(** The part the list handlers share: a cursor, read from the request or made for
    its first page, and the rows it selects. *)
Definition paged (limit : nat) (key : string) (r : read_request) (first : Cursor.Cursor_)
    (rows : string -> string -> nat -> result Problem_ Cursor.table) : result Problem_ Cursor.Page :=
  let q := page_request r in
  let token := Cursor.q_get (rr_query r) "cursor" in
  let* c := if String.eqb token "" then Ok first else Listing.or_bad (Cursor.DecodeCursor token key (Cursor.cursorScope q)) in
  let* rows := rows (Cursor.After c) (Cursor.Upper c) (limit + 1)%nat in
  Ok (Cursor.collect key limit rows c []).

Definition page_limit (r : read_request) : result Problem_ nat := Listing.or_bad (Cursor.PageLimit (rr_query r)).

(** * History *)

Definition item_events (ws id : uuid) (d : Db) : list Event :=
  List.filter (fun e => bool_decide (e_workspace e = ws) && bool_decide (e_item e = Some id)) (events d).

(** [coalesce(max(seq),0)] *)
Definition max_seq (l : list Event) : Z :=
  match e_seq <$> l with [] => 0 | v :: vs => fold_right Z.max v vs end.

Definition newer (a b : Z) : bool := b <? a.

(** [e.seq<=$3 AND e.seq<$4 ORDER BY e.seq DESC] *)
Definition history_rows (upper after : Z) (l : list Event) : list Event :=
  Paging.sorted e_seq newer (List.filter (fun e => (e_seq e <=? upper) && (e_seq e <? after)) l).

(** The document of an event; its time is not kept. *)
Definition event_doc (s : Site) (e : Event) : json :=
  JObj [("seq", JInt (e_seq e)); ("kind", JStr (e_kind e)); ("actor", assignee_doc s (e_actor e));
        ("field", opt_json JStr (e_field e)); ("old_value", opt_json id (e_old e)); ("new_value", opt_json id (e_new e))].
Definition log_row (s : Site) (e : Event) : string * json := (z_text (e_seq e), event_doc s e).

Definition bad_history : Problem_ := requestProblem "Invalid history cursor.".

Definition history_query (s : Site) (l : list Event) (after upper : string) (n : nat) : result Problem_ Cursor.table :=
  match parse_int64 upper, parse_int64 after with
  | Some u, Some a => Ok (log_row s <$> take n (history_rows u a l))
  | _, _ => Err bad_history
  end.

Definition history_start (l : list Event) (r : read_request) : Cursor.Cursor_ :=
  Cursor.mkCursor 0 "9223372036854775807" [] (z_text (max_seq l)) (Cursor.cursorScope (page_request r)) "".

(** GET /items/{key}/history; the item may be deleted. *)
Definition itemHistory (key : string) (r : read_request) (s : Site) : result Problem_ Cursor.Page :=
  let ws := WorkspaceID (rr_who r) in
  let* _ := no_fields r in
  let* limit := page_limit r in
  let* i := db_problem (item_by_key ws (rr_param r) (s_db s)) in
  let l := item_events ws (i_id i) (s_db s) in
  paged limit key r (history_start l r) (history_query s l).

(** * Items and their tree *)

(** [customFields] and [selectedFields] *)
Definition field_keys (ws : uuid) (s : Site) : list string :=
  remove_dups ((fun f : uuid * string * (string * json) => f.1.2) <$>
    List.filter (fun f : uuid * string * (string * json) =>
        match projects (s_db s) !! f.1.1 with Some p => bool_decide (p_workspace p = ws) | None => false end)
      (map_to_list (s_field_def s))).
Definition chosen_fields (policy : Projection.Policy) (r : read_request) (s : Site) : result Problem_ (list string) :=
  Listing.or_bad (Projection.Parse (Cursor.q_get (rr_query r) "fields") (Cursor.q_has (rr_query r) "fields") policy
                    (field_keys (WorkspaceID (rr_who r)) s)).

(** [itemJoins]: the inner joins of a row find their partners. *)
Definition with_joins (s : Site) (i : Item) : bool := match item_doc s i with Some _ => true | None => false end.

(** [projection.SQL] panics on a field it does not know. *)
Definition select_fields (fields : list string) (start : Z) : result Problem_ (string * list string) :=
  match Projection.SQL fields start with Some e => Ok e | None => Err InternalError end.

Definition projected (fields : list string) (e : string * list string) (s : Site) (i : Item) : json :=
  JObj (Projection.Apply (hydrate e.1 e.2 s i) fields).

(** GET /items/{key}, before [writeCachedJSON] *)
Definition getItem (r : read_request) (s : Site) : result Problem_ json :=
  let ws := WorkspaceID (rr_who r) in
  let* fields := chosen_fields Projection.Optional r s in
  let* e := select_fields fields 3 in
  let* i := db_problem (query_row (List.filter (fun i => has_key ws (rr_param r) i && with_joins s i) (map_to_list (items (s_db s))).*2)) in
  Ok (projected fields e s i).

(** The descendants of a path to a depth, live and joined. *)
Definition below_path (ws : uuid) (path : string) (depth : nat) (s : Site) (i : Item) : bool :=
  bool_decide (i_workspace i = ws) && Ltree.contained (i_path i) path && negb (String.eqb (i_path i) path) &&
  (Ltree.nlevel (i_path i) <=? Ltree.nlevel path + depth)%nat && negb (i_deleted i) && with_joins s i.
Definition hierarchy_rows (ws : uuid) (path : string) (depth : nat) (s : Site) : list Item :=
  List.filter (below_path ws path depth s) (map_to_list (items (s_db s))).*2.

Definition hierarchy_depth (children : bool) (r : read_request) : result Problem_ nat :=
  let refused := Err (requestProblem "depth must be between 1 and 8 and is supported only on descendants.") in
  let* depth :=
    if Cursor.q_has (rr_query r) "depth" then
      match parse_int64 (Cursor.q_get (rr_query r) "depth") with
      | Some d => if children || (d <? 1) || (8 <? d) then refused else Ok (Z.to_nat d)
      | None => refused
      end
    else Ok 8%nat in
  Ok (if children then 1%nat else depth).

Definition item_table (doc : Item -> json) (l : list Item) : Cursor.table := (fun i => (uuid_string (i_id i), doc i)) <$> l.

(** GET /items/{key}/children and /descendants *)
Definition hierarchy (key : string) (children : bool) (r : read_request) (s : Site) : result Problem_ Cursor.Page :=
  let ws := WorkspaceID (rr_who r) in
  let* fields := chosen_fields Projection.Required r s in
  let* depth := hierarchy_depth children r in
  let* i := db_problem (live_item ws (rr_param r) (s_db s)) in
  let* e := select_fields fields 4 in
  Listing.or_bad (Cursor.jsonPage key (item_table (projected fields e s) (hierarchy_rows ws (i_path i) depth s)) (page_request r)).

(** GET /items/{key}/rollup *)
Definition itemRollup (r : read_request) (s : Site) : result Problem_ json :=
  let* _ := no_fields r in
  let* (_, doc, _) := db_problem (readItem (WorkspaceID (rr_who r)) (rr_param r) s) in
  Ok (field_of doc "rollup").

(** * Links and comments *)

(** GET /items/{key}/links *)
Definition listLinks (key : string) (r : read_request) (s : Site) : result Problem_ Cursor.Page :=
  let ws := WorkspaceID (rr_who r) in
  let* _ := no_fields r in
  let* id := itemID ws (rr_param r) s in
  let rows := omap (fun l : uuid * Link =>
                if bool_decide (l_from l.2 = id) || bool_decide (l_to l.2 = id)
                then (fun d => (uuid_string l.1, d)) <$> link_doc ws l.1 s else None) (map_to_list (links (s_db s))) in
  Listing.or_bad (Cursor.jsonPage key rows (page_request r)).

(** GET /comments?item= *)
Definition listComments (key : string) (r : read_request) (s : Site) : result Problem_ Cursor.Page :=
  let ws := WorkspaceID (rr_who r) in
  let* _ := no_fields r in
  let* id := itemID ws (Cursor.q_get (rr_query r) "item") s in
  let rows := omap (fun c : uuid * Comment =>
                if bool_decide (c_item c.2 = id) then (fun d => (uuid_string c.1, d)) <$> comment_doc ws c.1 s else None)
                (map_to_list (comments (s_db s))) in
  Listing.or_bad (Cursor.jsonPage key rows (page_request r)).

(** * Projects and members *)

Definition containing (search : string) : string := "%" +:+ search +:+ "%".
Definition too_long (search : string) : bool := (100 <? String.length search)%nat.

Definition project_matches (search : string) (p : Project) (row : project_row) : bool :=
  String.eqb search "" || ilike (p_key_prefix p) (containing search) || ilike (pj_name row) (containing search).

(** The projects of a workspace a search finds, archived ones only if asked for. *)
Definition project_rows (ws : uuid) (archived : bool) (search : string) (s : Site) : Cursor.table :=
  omap (fun p : uuid * Project =>
      match s_project s !! p.1 with
      | Some row => if bool_decide (p_workspace p.2 = ws) && (archived || negb (pj_archived row)) && project_matches search p.2 row
                    then Some (uuid_string p.1, Projects.project_json s p.1 (p_key_prefix p.2) row) else None
      | None => None
      end) (map_to_list (projects (s_db s))).

(** A cursor for the first page up to the highest row. *)
Definition start_of (t : Cursor.table) (r : read_request) : Cursor.Cursor_ :=
  Cursor.mkCursor 0 Cursor.zeroID [] (Cursor.max_id t) (Cursor.cursorScope (page_request r)) "".
Definition rows_between (t : Cursor.table) (after upper : string) (n : nat) : result Problem_ Cursor.table :=
  Ok (take n (Cursor.between t after upper)).

(** GET /projects *)
Definition listProjects (key : string) (r : read_request) (s : Site) : result Problem_ Cursor.Page :=
  let ws := WorkspaceID (rr_who r) in
  let q := rr_query r in
  let* _ := no_fields r in
  let* limit := page_limit r in
  let archived := Cursor.q_get q "archived" in
  if Cursor.q_has q "archived" && negb (String.eqb archived "true") && negb (String.eqb archived "false")
  then Err (requestProblem "archived must be true or false.")
  else
    let search := trim_space (Cursor.q_get q "search") in
    if too_long search then Err (requestProblem "search must be at most 100 characters.")
    else paged limit key r (start_of (project_rows ws true search s) r)
           (rows_between (project_rows ws (String.eqb archived "true") search s)).

(** The active members of a workspace a search finds: identifier and name, nothing
    else of the account. *)
Definition member_doc (u : uuid) (name : string) : json := JObj [("id", json_uuid u); ("display_name", JStr name)].
Definition member_rows (ws : uuid) (search : string) (s : Site) : Cursor.table :=
  omap (fun m : uuid * uuid * string =>
      match s_account s !! m.1.2 with
      | Some a => if bool_decide (m.1.1 = ws) && ac_is_active a && ilike (ac_display_name a) (containing search)
                  then Some (uuid_string m.1.2, member_doc m.1.2 (ac_display_name a)) else None
      | None => None
      end) (map_to_list (s_membership s)).

(** GET /members *)
Definition listMembers (key : string) (r : read_request) (s : Site) : result Problem_ Cursor.Page :=
  let ws := WorkspaceID (rr_who r) in
  let* _ := no_fields r in
  let* limit := page_limit r in
  let search := trim_space (Cursor.q_get (rr_query r) "q") in
  if too_long search then Err (requestProblem "q must be at most 100 characters.")
  else paged limit key r (start_of (member_rows ws search s) r) (rows_between (member_rows ws search s)).

End reads.
(** * config.go *)

Section config.
Context {CR : Crypto}.
(** The names of the custom fields, a column [Site] does not have, and the text
    PostgreSQL gives a [jsonb]. *)
Context (field_name : uuid -> string -> string) (jsonb_bytes : json -> bytes).

(** [resolvedConfigSQL] in full *)
Definition type_before (a b : Z * string) : bool := (b.1 <? a.1) || ((a.1 =? b.1) && str_lt a.2 b.2).
Definition typed (s : Site) (r : uuid * uuid) : option ((Z * string) * json) :=
  match item_types (s_db s) !! r.1, s_type_name s !! r.1, status_key s r.2 with
  | Some t, Some name, Some initial =>
      Some ((t_level t, t_key t), JObj [("key", JStr (t_key t)); ("name", JStr name); ("level", JInt (t_level t)); ("is_idea", JBool (t_is_idea t));
                                        ("initial_status", JStr initial)])
  | _, _, _ => None
  end.
Definition arc (s : Site) (r : uuid * uuid * json) : option (string * (string * json)) :=
  match status_key s r.1.1, status_key s r.1.2 with
  | Some from, Some to => Some (from, (to, JObj [("to_key", JStr to); ("requires", r.2)]))
  | _, _ => None
  end.
(** [jsonb_object_agg] of the arcs grouped by their start *)
Definition grouped (l : list (string * (string * json))) : list (string * json) :=
  (fun from => (from, JArr (snd <$> Paging.sorted fst str_lt (snd <$> List.filter (fun a => String.eqb a.1 from) l))))
    <$> sort_strings (remove_dups l.*1).
Definition resolved_json (p : uuid) (v : Z) (s : Site) : json :=
  JObj [("version", JInt v);
        ("statuses", JArr (status_json <$> c_Statuses (resolved_at p v s)));
        ("types", JArr (snd <$> Paging.sorted fst type_before (omap (typed s) (type_rows p v s))));
        ("transitions", JObj (grouped (omap (arc s) (arc_rows p v s))));
        ("fields", JArr (snd <$> Paging.sorted fst str_lt
          ((fun f : string * (string * json) =>
              (f.1, JObj [("key", JStr f.1); ("name", JStr (field_name p f.1)); ("data_type", JStr f.2.1); ("options", f.2.2)]))
             <$> omap (fun r : (uuid * string) * (string * json) => if bool_decide (r.1.1 = p) then Some (r.1.2, r.2) else None) (map_to_list (s_field_def s)))))].

(** GET /projects/{key}/config; [h] is the request as the middleware reads it. *)
Definition projectConfig (r : api_request) (h : Http.http_request) (s : Site) : result Problem_ (list Http.op) :=
  let* _ := rejectFields r in
  let* (p, _) := db_problem (project_by_key (WorkspaceID (rq_who r)) (rq_param r) s) in
  match max_version p (s_db s) with
  | None => Err (databaseProblem (Some NoRows))
  | Some v => Ok (Http.writeCachedJSON h (jsonb_bytes (resolved_json p v s)))
  end.

End config.
End Reads.
