(* ===== verification/ReadsProps.v ===== *)
(** What the reading endpoints promise: the tree they show is the one the parent
    references make, and following the pages of a history or a list shows every
    entry once. *)
From S2P Require Import Prelude Utf8 Uuid Ltree Float Json Base64 Journal Db Problem Site Patch Workflow Items Projects Projection Cursor Paging Listing Http.
From S2P Require Import StoreTree Store JournalProps JournalDemo CursorProps Reads.
Open Scope Z_scope.
#[local] Set Warnings "-clear-no-such-hyp".

Module ReadsProps.
Import Db Problem Site Ltree StoreTree Store CursorProps Reads.

(** * Descendants *)

(** [i] is [n] steps below [p], following parent references. *)
Inductive descends (m : gmap uuid Item) (p : uuid) : nat -> Item -> Prop :=
  | child i : i_parent i = Some p -> descends m p 1 i
  | below n j i : i_parent i = Some (i_id j) -> m !! i_id j = Some j -> descends m p n j -> descends m p (S n) i.

Section tree.
Context (d : Db) (Hok : tree_ok (tree d)).

Lemma row_node id i : items d !! id = Some i -> exists ids, node_ok (tree d) id (tview i) ids.
Proof using Hok. intros Hi. exact (Hok id _ (tree_lookup d id i Hi)). Qed.

Lemma parent_path id i ids p pi pids :
  items d !! id = Some i -> node_ok (tree d) id (tview i) ids -> i_parent i = Some p ->
  items d !! p = Some pi -> node_ok (tree d) p (tview pi) pids -> ids = pids ++ [p].
Proof using Type.
  intros Hi [_ _ _ Hpar] Hp Hpi [_ Hpath _ _]. cbn [tview tv_parent] in Hpar. rewrite Hp in Hpar.
  destruct Hpar as (q & Hq & Hne & Hqp & _). apply tree_lookup_inv in Hq as (pi' & Hpi' & ->). rewrite Hpi in Hpi'. injection Hpi' as <-.
  rewrite Hpath in Hqp. apply path_of_inj in Hqp; [done|by destruct pids|done].
Qed.

Lemma parent_row id i ids : items d !! id = Some i -> node_ok (tree d) id (tview i) ids ->
  match i_parent i with Some p => exists pi, items d !! p = Some pi /\ i_id pi = p | None => ids = [] end.
Proof using Hok.
  intros Hi [_ _ _ Hpar]. cbn [tview tv_parent] in Hpar. destruct (i_parent i) as [p|]; [|done].
  destruct Hpar as (q & Hq & _). apply tree_lookup_inv in Hq as (pi & Hpi & ->). exists pi. split; [done|].
  destruct (row_node p pi Hpi) as [? [Hid _ _ _]]. done.
Qed.

Context (p : uuid) (pi : Item) (pids : list uuid) (Hp : items d !! p = Some pi) (Hnp : node_ok (tree d) p (tview pi) pids).

Lemma descends_suffix n i id ids : items d !! id = Some i -> node_ok (tree d) id (tview i) ids -> descends (items d) p n i ->
  exists suf, ids ++ [id] = (pids ++ [p]) ++ suf /\ length suf = n.
Proof using Hok Hp Hnp.
  intros Hi Hn Hd. revert id ids Hi Hn. induction Hd as [i Hpar|n j i Hpar Hj Hd IH]; intros id ids Hi Hn.
  - rewrite (parent_path id i ids p pi pids Hi Hn Hpar Hp Hnp). by exists [id].
  - destruct (row_node _ _ Hj) as [jids Hnj]. destruct (IH _ _ Hj Hnj) as (suf & E & <-).
    rewrite (parent_path id i ids _ j jids Hi Hn Hpar Hj Hnj), E. exists (suf ++ [id]). by rewrite <- app_assoc, length_app, Nat.add_comm.
Qed.

Lemma suffix_descends suf : forall i id ids, items d !! id = Some i -> node_ok (tree d) id (tview i) ids ->
  ids ++ [id] = (pids ++ [p]) ++ suf -> suf <> [] -> descends (items d) p (length suf) i.
Proof using Hok Hp Hnp.
  induction suf as [|x suf IH] using rev_ind; intros i id ids Hi Hn E Hne; [done|]. clear Hne. rewrite app_assoc in E.
  apply app_inj_tail in E as [-> <-]. pose proof (parent_row _ _ _ Hi Hn) as Hpar.
  destruct (i_parent i) as [q|] eqn:Eq; [|by destruct pids]. destruct Hpar as (j & Hj & Hjid).
  destruct (row_node _ _ Hj) as [jids Hnj]. pose proof (parent_path id i _ q j jids Hi Hn Eq Hj Hnj) as E. rewrite length_app. cbn [length].
  destruct (decide (suf = [])) as [->|Hne].
  - rewrite app_nil_r in E. apply app_inj_tail in E as [_ <-]. by apply child.
  - rewrite Nat.add_1_r. rewrite <- Hjid in Hj, Hnj, Eq. apply (below _ _ _ j i Eq Hj). apply (IH j (i_id j) jids Hj Hnj); [|done]. by rewrite E, Hjid.
Qed.

(** Being strictly below a path, at most [depth] deeper. *)
Lemma path_descends i id depth : items d !! id = Some i ->
  contained (i_path i) (i_path pi) && negb (String.eqb (i_path i) (i_path pi)) && (nlevel (i_path i) <=? nlevel (i_path pi) + depth)%nat = true <->
  exists n, (n <= depth)%nat /\ descends (items d) p n i.
Proof using Hok Hp Hnp.
  intros Hi. destruct (row_node _ _ Hi) as [ids Hn].
  pose proof (node_path _ _ _ _ Hn) as Ei. pose proof (node_path _ _ _ _ Hnp) as Ep. cbn [tview tv_path] in Ei, Ep.
  assert (Hni : ids ++ [id] <> []) by (by destruct ids). assert (Hnpi : pids ++ [p] <> []) by (by destruct pids).
  rewrite Ei, Ep, contained_path_of, !nlevel_path_of by done.
  rewrite !andb_true_iff, bool_decide_eq_true, negb_true_iff, String.eqb_neq, Nat.leb_le. split.
  - intros [[[suf E] Hne] Hlen]. assert (suf <> []) by (intros ->; rewrite app_nil_r in E; by rewrite E in Hne).
    exists (length suf). split; [rewrite E, length_app in Hlen; lia|]. by apply (suffix_descends suf i id ids).
  - intros (n & Hle & Hd). destruct (descends_suffix n i id ids Hi Hn Hd) as (suf & E & <-). rewrite E. split_and!.
    + by exists suf.
    + intros E'. apply path_of_inj in E'; [|by destruct pids|by destruct pids]. rewrite <- (app_nil_r (pids ++ [p])) in E' at 2.
      apply app_inv_head in E' as ->. inversion Hd.
    + rewrite length_app. lia.
Qed.

End tree.

(** C36. The tree a client reads is the tree of parent references: when paths and parents
    agree (which every mutation keeps), the rows [descendants] pages through are
    the live items of the workspace whose parent chain reaches the item within
    [depth] steps, and those of [children] the ones whose parent it is. *)
Theorem hierarchy_exact {SQ : ReadSql} ws depth s p pi id i :
  tree_ok (tree (s_db s)) -> items (s_db s) !! p = Some pi -> items (s_db s) !! id = Some i ->
  (i ∈ hierarchy_rows ws (i_path pi) depth s <->
   i_workspace i = ws /\ i_deleted i = false /\ with_joins s i = true /\ exists n, (n <= depth)%nat /\ descends (items (s_db s)) p n i) /\
  (i ∈ hierarchy_rows ws (i_path pi) 1 s <->
   i_workspace i = ws /\ i_deleted i = false /\ with_joins s i = true /\ i_parent i = Some p).
Proof.
  intros Hok Hp Hi. destruct (row_node _ Hok _ _ Hp) as [pids Hnp].
  assert (Hrow : forall k, i ∈ hierarchy_rows ws (i_path pi) k s <-> below_path ws (i_path pi) k s i = true).
  { intros k. unfold hierarchy_rows. rewrite list_elem_of_In, List.filter_In, <- list_elem_of_In, row_in. naive_solver. }
  assert (Hall : forall k, i ∈ hierarchy_rows ws (i_path pi) k s <->
     i_workspace i = ws /\ i_deleted i = false /\ with_joins s i = true /\ exists n, (n <= k)%nat /\ descends (items (s_db s)) p n i).
  { intros k. rewrite Hrow, <- (path_descends (s_db s) Hok p pi pids Hp Hnp i id k Hi). unfold below_path.
    rewrite !andb_true_iff, bool_decide_eq_true, !negb_true_iff. tauto. }
  split; [apply Hall|]. rewrite Hall. split; intros (-> & -> & -> & H); split_and!; try done.
  - destruct H as (n & Hn & Hd). destruct Hd as [i Hpar|n j i _ _ Hd]; [done|]. assert (n = 0)%nat as -> by lia. inversion Hd.
  - exists 1%nat. split; [done|]. by apply child.
Qed.

(** * History *)

Lemma itoa_aux_value f : forall n acc, (n < f)%nat -> digits_value (chars (itoa_aux f n acc)) 0 = digits_value (chars acc) (Z.of_nat n).
Proof.
  induction f as [|f IH]; intros n acc Hf; [lia|]. cbn [itoa_aux].
  assert (Hd : forall m, (m < 10)%nat -> is_digit_char (digit_char m) = true /\ Z.of_nat (byte_of (digit_char m)) = 48 + Z.of_nat m).
  { intros m Hm. do 10 (destruct m as [|m]; [by vm_compute|]). lia. }
  pose proof (Nat.mod_upper_bound n 10 ltac:(done)) as Hmod. destruct (Hd (n mod 10)%nat Hmod) as [D1 D2].
  destruct (Nat.ltb_spec n 10) as [Hlt|Hge].
  - cbn [chars digits_value]. rewrite D1, D2, Nat.mod_small by done. f_equal. lia.
  - rewrite IH by (apply Nat.Div0.div_lt_upper_bound; lia). cbn [chars digits_value]. rewrite D1, D2. f_equal.
    pose proof (Nat.div_mod n 10 ltac:(done)). lia.
Qed.

Lemma itoa_aux_ne f n acc : itoa_aux (S f) n acc <> "".
Proof.
  revert n acc. induction f as [|f IH]; intros n acc; cbn [itoa_aux]; [by destruct (n <? 10)%nat|].
  destruct (n <? 10)%nat; [done|]. apply IH.
Qed.

Lemma z_text_ne z : z_text z <> "".
Proof. unfold z_text. destruct (z <? 0); [done|]. apply itoa_aux_ne. Qed.

(** A sequence number is read back from a cursor. *)
Lemma parse_z_text z : 0 <= z -> in_int64 z = true -> parse_int64 (z_text z) = Some z.
Proof.
  intros Hz Hi. unfold z_text. destruct (Z.ltb_spec z 0); [lia|]. unfold parse_int64.
  pose proof (itoa_aux_value (S (Z.to_nat z)) (Z.to_nat z) "" ltac:(lia)) as Hv. fold (itoa (Z.to_nat z)) in Hv.
  cbn [chars digits_value] in Hv. rewrite Z2Nat.id in Hv by done.
  pose proof (itoa_aux_ne (Z.to_nat z) (Z.to_nat z) "") as Hne. fold (itoa (Z.to_nat z)) in Hne.
  destruct (itoa (Z.to_nat z)) as [|c l]; [done|]. cbn [chars] in *. cbn [digits_value] in Hv.
  destruct (is_digit_char c) eqn:Ec; [|discriminate Hv].
  destruct (Ascii.eqb_spec c "-"%char) as [->|_]; [discriminate Ec|]. destruct (Ascii.eqb_spec c "+"%char) as [->|_]; [discriminate Ec|].
  cbn [digits_value]. rewrite Ec, Hv. cbn beta iota. by rewrite Hi.
Qed.

Lemma newer_irrefl k : newer k k = false.
Proof. unfold newer. lia. Qed.
Lemma newer_trans a b c : newer a b = true -> newer b c = true -> newer a c = true.
Proof. unfold newer. lia. Qed.
Lemma newer_total a b : newer a b = false -> newer b a = false -> a = b.
Proof. unfold newer. lia. Qed.

Definition older (a b : Event) : Prop := e_seq a < e_seq b.

Lemma seqZ_sorted lo n (l : list Event) : map e_seq l = seqZ lo n -> StronglySorted older l.
Proof.
  revert lo n. induction l as [|e l IH]; intros lo n E; [constructor|].
  destruct (Z.le_gt_cases n 0) as [Hn|Hn]; [by rewrite seqZ_nil in E by lia|]. rewrite seqZ_cons in E by lia. injection E as Ee El.
  constructor; [by apply (IH _ _ El)|]. apply Forall_forall. intros e' He'. apply (list_elem_of_fmap_2 e_seq) in He'. change (e_seq <$> l) with (map e_seq l) in He'.
  rewrite El in He'. apply elem_of_seqZ in He'. unfold older. lia.
Qed.

Lemma filter_sorted (f : Event -> bool) l : StronglySorted older l -> StronglySorted older (List.filter f l).
Proof.
  induction 1 as [|e l _ IH Hl]; [constructor|]. cbn [List.filter]. destruct (f e); [|done]. constructor; [done|].
  rewrite Forall_forall in *. intros e' He'. apply Hl. apply list_elem_of_In, List.filter_In in He' as [He' _]. by apply list_elem_of_In.
Qed.

Lemma rev_sorted l : StronglySorted older l -> StronglySorted (Paging.before e_seq newer) (rev l).
Proof.
  induction 1 as [|e l _ IH Hl]; [constructor|]. cbn [rev]. rewrite Forall_forall in Hl.
  assert (H : forall a, a ∈ rev l -> Paging.before e_seq newer a e).
  { intros a Ha. apply list_elem_of_In, in_rev, list_elem_of_In in Ha. specialize (Hl a Ha). unfold Paging.before, newer, older in *. lia. }
  revert IH H. generalize (rev l). clear. induction l as [|a l IH]; intros Hs H; [constructor; constructor|].
  apply StronglySorted_inv in Hs as [Hs Ha]. cbn [app]. constructor; [apply IH; [done|]; intros; apply H; by constructor|].
  apply Forall_app. split; [done|]. constructor; [apply H; constructor|constructor].
Qed.

Lemma older_nodup l : StronglySorted older l -> NoDup (e_seq <$> l).
Proof.
  induction 1 as [|e l _ IH Hl]; [constructor|]. cbn [fmap list_fmap]. apply NoDup_cons. split; [|done].
  intros Hin. apply list_elem_of_fmap in Hin as (e' & E & He'). rewrite Forall_forall in Hl. specialize (Hl e' He'). unfold older in Hl. lia.
Qed.

(** In sequence order, newest first is backwards. *)
Lemma newest_first l : StronglySorted older l -> Paging.sorted e_seq newer l = rev l.
Proof.
  intros Hs. apply (Paging.before_unique e_seq newer newer_irrefl newer_trans).
  - by apply Paging.sorted_before; [exact newer_irrefl|exact newer_trans|exact newer_total|apply older_nodup].
  - by apply rev_sorted.
  - rewrite Paging.sorted_perm. apply Permutation_rev.
Qed.

Lemma max_seq_le l e : e ∈ l -> e_seq e <= max_seq l.
Proof.
  unfold max_seq. intros Hin. apply (list_elem_of_fmap_2 e_seq) in Hin. destruct (e_seq <$> l) as [|v vs]; [by apply elem_of_nil in Hin|].
  assert (Hall : forall x, x ∈ v :: vs -> x <= fold_right Z.max v vs); [|by apply Hall]. clear Hin.
  induction vs as [|w vs IH]; cbn [fold_right]; intros x Hx; [apply list_elem_of_singleton in Hx; lia|].
  pose proof (IH v ltac:(constructor)). apply elem_of_cons in Hx as [->|[->|Hx]%elem_of_cons]; [lia|lia|]. pose proof (IH x ltac:(by constructor)). lia.
Qed.
Lemma max_seq_in l : l <> [] -> exists e, e ∈ l /\ max_seq l = e_seq e.
Proof.
  unfold max_seq. intros Hne. destruct l as [|e l]; [done|]. cbn [fmap list_fmap]. clear Hne. induction l as [|e' l IH]; cbn [fmap list_fmap fold_right].
  - exists e. split; [constructor|done].
  - destruct IH as (x & Hx & Ex). destruct (Z.max_spec (e_seq e') (fold_right Z.max (e_seq e) (e_seq <$> l))) as [[_ ->]|[_ ->]].
    + exists x. split; [|done]. apply elem_of_cons in Hx as [->|Hx]; [by constructor|]. by do 2 constructor.
    + exists e'. split; [|done]. constructor. constructor.
Qed.

Lemma item_events_ws ws id d : item_events ws id d = List.filter (fun e => bool_decide (e_item e = Some id)) (ws_events ws (events d)).
Proof.
  unfold item_events, ws_events. induction (events d) as [|e l IH]; [done|]. cbn [List.filter].
  destruct (bool_decide (e_workspace e = ws)); cbn [andb List.filter]; [|done]. destruct (bool_decide (e_item e = Some id)); [by rewrite IH|done].
Qed.

Section history.
Context {CR : Crypto} {CC : Codec Cursor.Cursor_} {UU : UuidParse}.
Context (hmac_length : forall k m, length (hmac_sha256 k m) = 32%nat).
Context (key : string) (sites : nat -> Site) (r : read_request) (limit : nat) (id : uuid) (v : Z).

Abbreviation ws := (WorkspaceID (rr_who r)).
Definition db_at (k : nat) : Db := s_db (sites k).
Definition log0 : list Event := item_events ws id (db_at 0).

Context (Hgap : forall k, gap_free (db_at k)) (Hcounters : forall k, is_Some (seq_counter (db_at k) !! ws)).
Context (Hv : seq_counter (db_at 0) !! ws = Some v) (Hmax : v < 2 ^ 63 - 1).
Context (Hgrow : forall k, exists more, events (db_at k) = events (db_at 0) ++ more).

Lemma log0_seqs e : e ∈ log0 -> 1 <= e_seq e <= v.
Proof.
  unfold log0. rewrite item_events_ws. intros He. apply list_elem_of_In, List.filter_In in He as [He _]. apply list_elem_of_In in He.
  apply (list_elem_of_fmap_2 e_seq) in He. destruct (Hgap 0 ws v Hv) as [_ E]. change (e_seq <$> ?l) with (map e_seq l) in He. rewrite E in He.
  apply elem_of_seqZ in He. lia.
Qed.

Lemma log0_sorted : StronglySorted older log0.
Proof.
  unfold log0. rewrite item_events_ws. apply filter_sorted. destruct (Hgap 0 ws v Hv) as [_ E]. by apply seqZ_sorted in E.
Qed.

(** What is logged later is numbered after the workspace's counter. *)
Lemma log_grows k : exists new, item_events ws id (db_at k) = log0 ++ new /\ Forall (fun e => v < e_seq e) new.
Proof.
  destruct (Hgrow k) as [more Em]. destruct (Hcounters k) as [v' Hv']. destruct (Hgap 0 ws v Hv) as [Hv0 E0], (Hgap k ws v' Hv') as [Hv'0 Ek].
  unfold log0. rewrite !item_events_ws, Em. unfold ws_events in *. rewrite !List.filter_app. eexists. split; [done|].
  rewrite Em, List.filter_app, map_app, E0 in Ek. apply Forall_forall. intros e He. apply list_elem_of_In, List.filter_In in He as [He _]. apply list_elem_of_In in He.
  apply (list_elem_of_fmap_2 e_seq) in He. change (e_seq <$> ?l) with (map e_seq l) in He.
  set (later := map e_seq (List.filter (fun e => bool_decide (e_workspace e = ws)) more)) in *.
  assert (Hlen : v <= v').
  { apply (f_equal length) in Ek. rewrite length_app, !length_seqZ in Ek. lia. }
  replace v' with (v + (v' - v)) in Ek by lia. rewrite seqZ_app in Ek by lia. apply app_inv_head in Ek. rewrite Ek in He. apply elem_of_seqZ in He. lia.
Qed.

(** The rows of a later page: those older than the last one sent. *)
Lemma history_rows_rest k pre rest after : rev log0 = pre ++ rest ->
  (forall e, e ∈ rest -> e_seq e < after) -> (forall e, e ∈ pre -> after <= e_seq e) ->
  history_rows (max_seq log0) after (item_events ws id (db_at k)) = rest.
Proof.
  intros Hsplit Hrest Hpre. destruct (log_grows k) as (new & -> & Hnew). unfold history_rows. rewrite List.filter_app.
  replace (List.filter _ new) with (@nil Event); cycle 1.
  { rewrite Forall_forall in Hnew. assert (Hm : max_seq log0 <= v).
    { destruct (decide (log0 = [])) as [->|Hne]; [|destruct (max_seq_in log0 Hne) as (e & He & ->); by apply log0_seqs].
      destruct (Hgap 0 ws v Hv). done. }
    symmetry. induction new as [|e new IH]; [done|]. cbn [List.filter]. pose proof (Hnew e ltac:(constructor)).
    destruct (Z.leb_spec (e_seq e) (max_seq log0)); [lia|]. apply IH. intros; apply Hnew; by constructor. }
  rewrite app_nil_r, Paging.sorted_filter, newest_first by first [exact log0_sorted | exact newer_irrefl | exact newer_trans | exact newer_total | apply older_nodup, log0_sorted].
  rewrite Hsplit. assert (Hin : forall e, e ∈ pre ++ rest -> e ∈ log0).
  { intros e He. rewrite <- Hsplit in He. by apply list_elem_of_In, in_rev, list_elem_of_In. }
  apply Paging.filter_split.
  - intros e He. apply andb_false_iff. right. specialize (Hpre e He). lia.
  - intros e He. pose proof (Hrest e He). pose proof (max_seq_le log0 e (Hin e ltac:(set_solver))). lia.
Qed.

Context (Hfields : Cursor.q_has (rr_query r) "fields" = false) (Hlimit : Cursor.PageLimit (rr_query r) = Ok limit).
Context (Hfirst : Cursor.q_get (rr_query r) "cursor" = "").
Context (Hitem : forall k, exists i, item_by_key ws (rr_param r) (db_at k) = Ok i /\ i_id i = id).
Context (Hnames : forall k, s_account (sites k) = s_account (sites 0)).

(** The endpoint at the time of a request, as a client calls it. *)
Definition history_page (k : nat) (q : Cursor.request) : result Problem_ Cursor.Page :=
  itemHistory key (mkRead (rr_who r) (rr_path r) (Cursor.Query q) (rr_param r)) (sites k).
Definition history_rows0 : Cursor.table := log_row (sites 0) <$> rev log0.
Definition start0 : Cursor.Cursor_ := history_start log0 r.
Definition history_fetch (k : nat) (after upper : string) : Cursor.table :=
  match parse_int64 upper, parse_int64 after with
  | Some u, Some a => log_row (sites k) <$> history_rows u a (item_events ws id (db_at k))
  | _, _ => []
  end.

Context (Hfit : forall row, row ∈ history_rows0 ->
  Z.of_nat (String.length (Cursor.EncodeCursor (cursor_at start0 row) key)) <= 8192 /\ marshal (cursor_at start0 row) <> []).

Lemma log0_bound : 0 <= max_seq log0 <= v.
Proof.
  destruct (decide (log0 = [])) as [->|Hne]; [destruct (Hgap 0 ws v Hv); cbn; lia|].
  destruct (max_seq_in log0 Hne) as (e & He & ->). pose proof (log0_seqs e He). lia.
Qed.

Lemma upper_parses : parse_int64 (z_text (max_seq log0)) = Some (max_seq log0).
Proof. pose proof log0_bound. apply parse_z_text; [lia|]. unfold in_int64. lia. Qed.

Lemma seq_parses e : e ∈ log0 -> parse_int64 (z_text (e_seq e)) = Some (e_seq e).
Proof. intros He. pose proof (log0_seqs e He). apply parse_z_text; [lia|]. unfold in_int64. lia. Qed.

Lemma event_row_stable k e : log_row (sites k) e = log_row (sites 0) e.
Proof. unfold log_row, event_doc, assignee_doc. by rewrite Hnames. Qed.

Lemma fetch_rest k pre rest : history_rows0 = pre ++ rest -> (pre = [] -> k = 0%nat) ->
  history_fetch k (Cursor.After (at_row start0 pre)) (Cursor.Upper start0) = rest.
Proof.
  intros Hsplit _. unfold history_rows0 in Hsplit. apply fmap_app_inv in Hsplit as (epre & erest & -> & -> & Hsplit).
  unfold history_fetch. cbn [start0 history_start Cursor.Upper]. rewrite upper_parses.
  assert (Hin : forall e, e ∈ epre ++ erest -> e ∈ log0) by (intros e; rewrite <- Hsplit, !list_elem_of_In; apply in_rev).
  pose proof (rev_sorted log0 log0_sorted) as Hs. rewrite Hsplit in Hs.
  assert (Hafter : exists a, parse_int64 (Cursor.After (at_row start0 (log_row (sites 0) <$> epre))) = Some a /\
            (forall e, e ∈ erest -> e_seq e < a) /\ (forall e, e ∈ epre -> a <= e_seq e)).
  { unfold at_row. rewrite fmap_last. destruct (last epre) as [z|] eqn:El; cbn [fmap option_fmap option_map].
    - apply last_Some in El as [l ->]. exists (e_seq z). cbn [log_row fst Cursor.After]. rewrite seq_parses by (apply Hin; set_solver). split_and!; [done| |].
      + intros e He. pose proof (Paging.before_split e_seq newer (l ++ [z]) erest z e Hs ltac:(set_solver) He) as Hb. unfold Paging.before, newer in Hb. lia.
      + intros e [He|He%list_elem_of_singleton]%elem_of_app; [|by subst]. rewrite <- app_assoc in Hs.
        pose proof (Paging.before_split e_seq newer l ([z] ++ erest) e z Hs He ltac:(set_solver)) as Hb. unfold Paging.before, newer in Hb. lia.
    - apply last_None in El as ->. exists (2 ^ 63 - 1). split; [by vm_compute|]. split; [|by intros e ?%elem_of_nil].
      intros e He. pose proof (log0_seqs e (Hin e ltac:(set_solver))). lia. }
  destruct Hafter as (a & -> & Hrest & Hpre). rewrite (history_rows_rest k epre erest a Hsplit Hrest Hpre).
  apply list_fmap_ext. intros; apply event_row_stable.
Qed.

Lemma history_page_ok k q : Cursor.PageLimit (Cursor.Query q) = Ok limit -> Cursor.q_has (Cursor.Query q) "fields" = false ->
  history_page k q = paged limit key (mkRead (rr_who r) (rr_path r) (Cursor.Query q) (rr_param r))
    (history_start (item_events ws id (db_at k)) (mkRead (rr_who r) (rr_path r) (Cursor.Query q) (rr_param r)))
    (history_query (sites k) (item_events ws id (db_at k))).
Proof.
  intros Hl Hf. unfold history_page, itemHistory, no_fields, page_limit. cbn [rr_query rr_who rr_param rr_path]. rewrite Hf, Hl. cbn [Listing.or_bad].
  destruct (Hitem k) as (i & E & <-). unfold db_at in E |- *. by rewrite E.
Qed.

(** What a page reads from a cursor of this walk. *)
Lemma query_fetch k after u a : parse_int64 (z_text (max_seq log0)) = Some u -> parse_int64 after = Some a ->
  history_query (sites k) (item_events ws id (db_at k)) after (z_text (max_seq log0)) (limit + 1) =
  Ok (take (limit + 1) (history_fetch k after (z_text (max_seq log0)))).
Proof. intros Hu Ha. unfold history_query, history_fetch. by rewrite Hu, Ha, fmap_take. Qed.

Lemma history_walk : walk history_page (page_request r) (S (length log0)) 0 "" = Some (event_doc (sites 0) <$> rev log0).
Proof.
  assert (Hdocs : event_doc (sites 0) <$> rev log0 = history_rows0.*2) by (unfold history_rows0; by rewrite <- list_fmap_compose).
  rewrite Hdocs. eapply (walk_rows hmac_length history_page (page_request r) key limit start0 history_fetch).
  - by apply (PageLimit_pos (rr_query r)).
  - rewrite history_page_ok by done. unfold paged. cbn [page_request Cursor.Query rr_query]. rewrite Hfirst. cbn [String.eqb].
    assert (Hbig : parse_int64 "9223372036854775807" = Some (2 ^ 63 - 1)) by (by vm_compute).
    cbn [start0 history_start Cursor.After Cursor.Upper]. pose proof (query_fetch 0 _ _ _ upper_parses Hbig) as Hq. unfold log0 in Hq |- *. by rewrite Hq.
  - intros k token row Hrow Hne Hd. pose proof (with_cursor_other (page_request r) token "fields" eq_refl) as [_ Hf].
    rewrite history_page_ok by (first [by apply with_cursor_limit | by rewrite Hf]). unfold paged. cbn [rr_query].
    rewrite with_cursor_get, (proj2 (String.eqb_neq _ _) Hne).
    change (Cursor.cursorScope _) with (Cursor.cursorScope (with_cursor (page_request r) token)). rewrite with_cursor_scope.
    change (Cursor.cursorScope (page_request r)) with (Cursor.Scope_ start0). rewrite Hd. cbn [Listing.or_bad].
    apply list_elem_of_fmap in Hrow as (e & -> & He). assert (He0 : e ∈ log0) by (by apply list_elem_of_In, in_rev, list_elem_of_In).
    cbn [cursor_at Cursor.After Cursor.Upper log_row fst start0 history_start]. 
    by rewrite (query_fetch k _ _ (e_seq e) upper_parses (seq_parses e He0)).
  - exact fetch_rest.
  - cbn. apply z_text_ne.
  - intros row Hrow. split; [|by apply Hfit]. apply list_elem_of_fmap in Hrow as (e & -> & _). apply z_text_ne.
  - unfold history_rows0. rewrite length_fmap, length_rev. lia.
Qed.

End history.

(** A history is read whole: while the log grows as [Mutate] makes it grow (gap-free,
    rows only appended), starting without a cursor and following each page's
    [next_cursor] to the end yields every event the item had at the start, once
    each, newest first. *)
Theorem history_complete {CR : Crypto} {CC : Codec Cursor.Cursor_} {UU : UuidParse} key (sites : nat -> Site) r limit id v :
  (forall k m, length (hmac_sha256 k m) = 32%nat) ->
  (forall k, gap_free (s_db (sites k)) /\ is_Some (seq_counter (s_db (sites k)) !! WorkspaceID (rr_who r)) /\
     exists more, events (s_db (sites k)) = events (s_db (sites 0%nat)) ++ more) ->
  seq_counter (s_db (sites 0%nat)) !! WorkspaceID (rr_who r) = Some v -> v < 2 ^ 63 - 1 ->
  (forall k, s_account (sites k) = s_account (sites 0%nat) /\
     exists i, item_by_key (WorkspaceID (rr_who r)) (rr_param r) (s_db (sites k)) = Ok i /\ i_id i = id) ->
  Cursor.q_has (rr_query r) "fields" = false -> Cursor.PageLimit (rr_query r) = Ok limit -> Cursor.q_get (rr_query r) "cursor" = "" ->
  (forall row, row ∈ history_rows0 sites r id ->
     Z.of_nat (String.length (Cursor.EncodeCursor (cursor_at (start0 sites r id) row) key)) <= 8192 /\
     marshal (cursor_at (start0 sites r id) row) <> []) ->
  let log := item_events (WorkspaceID (rr_who r)) id (s_db (sites 0%nat)) in
  walk (history_page key sites r) (page_request r) (S (length log)) 0 "" = Some (event_doc (sites 0%nat) <$> rev log).
Proof.
  intros Hh Hdb Hv Hm Hs Hf Hl Hc Hfit.
  apply (history_walk Hh key sites r limit id v); try done; intros k; destruct (Hdb k) as (? & ? & ?), (Hs k); done.
Qed.

(** * Members *)

#[local] Existing Instance Cursor.by_id_dec.

Lemma NoDup_omap_key {A} (f : A -> option (string * json)) l :
  NoDup l -> (forall x y rx ry, x ∈ l -> y ∈ l -> f x = Some rx -> f y = Some ry -> rx.1 = ry.1 -> x = y) -> NoDup (omap f l).*1.
Proof.
  induction 1 as [|x l Hx Hnd IH]; intros Hinj; [constructor|]. cbn [omap list_omap].
  assert (Hl : NoDup (omap f l).*1) by (apply IH; intros; eapply Hinj; eauto; by constructor).
  destruct (f x) as [rx|] eqn:Ex; [|done]. cbn [fmap list_fmap]. apply NoDup_cons. split; [|done].
  intros Hin. apply list_elem_of_fmap in Hin as (ry & E & Hy). apply list_elem_of_omap in Hy as (y & Hy & Ey).
  apply Hx. rewrite (Hinj x y rx ry); [done|constructor|by constructor|done..].
Qed.

Lemma walk_or_bad (page : nat -> Cursor.request -> result string Cursor.Page) r0 fuel : forall k token,
  walk (fun k q => Listing.or_bad (page k q)) r0 fuel k token = walk page r0 fuel k token.
Proof.
  induction fuel as [|fuel IH]; intros k token; [done|]. cbn [walk]. destruct (page k (request_at r0 token)) as [p|e]; [|done].
  cbn [Listing.or_bad]. destruct (Cursor.NextCursor p) as [t|]; [|done]. by rewrite IH.
Qed.

Lemma walk_ext {E} (page page' : nat -> Cursor.request -> result E Cursor.Page) r0 fuel : forall k token,
  (forall k q, q = r0 \/ (exists t, q = with_cursor r0 t) -> page k q = page' k q) ->
  walk page r0 fuel k token = walk page' r0 fuel k token.
Proof.
  induction fuel as [|fuel IH]; intros k token H; [done|]. cbn [walk]. rewrite H.
  - destruct (page' k (request_at r0 token)) as [p|e]; [|done]. destruct (Cursor.NextCursor p) as [t|]; [|done]. by rewrite IH.
  - unfold request_at. destruct (String.eqb token ""); [by left|right; by exists token].
Qed.

Section members.
Context {CR : Crypto} {CC : Codec Cursor.Cursor_} {UU : UuidParse} {SQ : ReadSql}.

Lemma member_rows_spec ws search s row :
  row ∈ member_rows ws search s <->
  exists u role a, s_membership s !! (ws, u) = Some role /\ s_account s !! u = Some a /\ ac_is_active a = true /\
    ilike (ac_display_name a) (containing search) = true /\ row = (uuid_string u, member_doc u (ac_display_name a)).
Proof using Type.
  unfold member_rows. rewrite list_elem_of_omap. split.
  - intros ([[w u] role] & Hm & E). apply elem_of_map_to_list in Hm. cbn [fst snd] in E. destruct (s_account s !! u) as [a|] eqn:Ea; [|done].
    destruct (bool_decide (w = ws)) eqn:Ew; [|done]. apply bool_decide_eq_true in Ew as ->. cbn [andb] in E.
    destruct (ac_is_active a) eqn:Eact; [|done]. destruct (ilike _ _) eqn:Ei; [|done]. injection E as <-. by exists u, role, a.
  - intros (u & role & a & Hm & Ha & Hact & Hi & ->). exists (ws, u, role). split; [by apply elem_of_map_to_list|]. cbn [fst snd].
    by rewrite Ha, bool_decide_eq_true_2, Hact, Hi.
Qed.

Lemma member_rows_nodup ws search s : NoDup (member_rows ws search s).*1.
Proof using Type.
  apply NoDup_omap_key; [apply NoDup_map_to_list|]. intros [[w u] role] [[w' u'] role'] rx ry Hx Hy Ex Ey E.
  apply elem_of_map_to_list in Hx, Hy. cbn [fst snd] in Ex, Ey. destruct (s_account s !! u), (s_account s !! u'); try done.
  destruct (bool_decide (w = ws)) eqn:Ew, (bool_decide (w' = ws)) eqn:Ew'; try done. apply bool_decide_eq_true in Ew as ->, Ew' as ->.
  cbn [andb] in Ex, Ey. destruct (ac_is_active a && _), (ac_is_active a0 && _); try done. injection Ex as <-. injection Ey as <-.
  cbn [fst] in E. apply (inj uuid_string) in E as <-. rewrite Hx in Hy. injection Hy as <-. done.
Qed.

(** Without a refused parameter the handler pages through the members like any other
    list. *)
Lemma listMembers_page key r s : Cursor.q_has (rr_query r) "fields" = false ->
  too_long (trim_space (Cursor.q_get (rr_query r) "q")) = false ->
  listMembers key r s =
  Listing.or_bad (Cursor.jsonPage key (member_rows (WorkspaceID (rr_who r)) (trim_space (Cursor.q_get (rr_query r) "q")) s) (page_request r)).
Proof using Type.
  intros Hf Hq. unfold listMembers, no_fields, page_limit, Cursor.jsonPage, Cursor.projectedPage. rewrite Hf, Hq. cbn [page_request Cursor.Query].
  destruct (Cursor.PageLimit (rr_query r)) as [limit|e]; [|done]. cbn [Listing.or_bad]. unfold paged. cbn [page_request Cursor.Query].
  destruct (String.eqb (Cursor.q_get (rr_query r) "cursor") "").
  - unfold start_of, rows_between. cbn [Cursor.After Cursor.Upper Listing.or_bad page_request]. do 2 f_equal. rewrite <- (list_fmap_id (take _ _)) at 1. apply list_fmap_ext. by intros ? [].
  - destruct (Cursor.DecodeCursor _ key _) as [c|e]; [|done]. cbn [Listing.or_bad rows_between]. do 2 f_equal.
    rewrite <- (list_fmap_id (take _ _)) at 1. apply list_fmap_ext. by intros ? [].
Qed.

Definition members_page (key : string) (sites : nat -> Site) (r : read_request) (k : nat) (q : Cursor.request) : result Problem_ Cursor.Page :=
  listMembers key (mkRead (rr_who r) (rr_path r) (Cursor.Query q) (rr_param r)) (sites k).

End members.

(** The member list is complete and tells no more than names: following its pages
    to the end yields, by identifier and once each, every active member of the
    workspace whose display name the search finds, as an identifier and a display
    name, whoever joins behind the first page's bound meanwhile. *)
Theorem listMembers_complete {CR : Crypto} {CC : Codec Cursor.Cursor_} {UU : UuidParse} {SQ : ReadSql} key (sites : nat -> Site) r limit :
  let search := trim_space (Cursor.q_get (rr_query r) "q") in
  let rows k := member_rows (WorkspaceID (rr_who r)) search (sites k) in
  let upto k := List.filter (fun row => Cursor.id_le row.1 (Cursor.max_id (rows 0%nat))) (rows k) in
  (forall k m, length (hmac_sha256 k m) = 32%nat) ->
  Cursor.q_has (rr_query r) "fields" = false -> too_long search = false ->
  Cursor.PageLimit (rr_query r) = Ok limit -> Cursor.q_get (rr_query r) "cursor" = "" ->
  (forall k, upto k = upto 0%nat) -> (forall row, row ∈ rows 0%nat -> str_lt Cursor.zeroID row.1 = true) ->
  (forall row, row ∈ rows 0%nat ->
     Z.of_nat (String.length (Cursor.EncodeCursor (cursor_at (first_cursor rows (page_request r)) row) key)) <= 8192 /\
     marshal (cursor_at (first_cursor rows (page_request r)) row) <> []) ->
  exists page, walk (members_page key sites r) (page_request r) (S (length (rows 0%nat))) 0 "" = Some page.*2 /\ NoDup page.*1 /\
    forall row, row ∈ page <->
      exists u role a, s_membership (sites 0%nat) !! (WorkspaceID (rr_who r), u) = Some role /\ s_account (sites 0%nat) !! u = Some a /\
        ac_is_active a = true /\ ilike (ac_display_name a) (containing search) = true /\
        row = (uuid_string u, member_doc u (ac_display_name a)).
Proof.
  intros search rows upto Hh Hf Hq Hl Hc Hst Hpos Hfit. exists (merge_sort Cursor.by_id (rows 0%nat)). split_and!.
  - rewrite (walk_ext _ (fun k q => Listing.or_bad (Cursor.projectedPage key (fun d => d) (rows k) q))).
    + rewrite walk_or_bad, (walk_complete Hh key (fun d => d) rows (page_request r) limit) by (try done; apply member_rows_nodup).
      f_equal. apply list_fmap_id.
    + intros k q Hq'. set (r' := mkRead (rr_who r) (rr_path r) (Cursor.Query q) (rr_param r)).
      assert (Hsame : forall name, String.eqb name "cursor" = false ->
                Cursor.q_get (rr_query r') name = Cursor.q_get (rr_query r) name /\ Cursor.q_has (rr_query r') name = Cursor.q_has (rr_query r) name).
      { intros name Hn. destruct Hq' as [->|[t ->]]; [done|]. by apply (with_cursor_other (page_request r)). }
      unfold members_page. fold r'. rewrite listMembers_page; rewrite ?(proj2 (Hsame "fields" eq_refl)), ?(proj1 (Hsame "q" eq_refl)); try done.
      unfold Cursor.jsonPage. fold search. unfold page_request at 1. cbn [r' rr_who rr_path rr_query]. by destruct Hq' as [->|[t ->]].
  - rewrite (merge_sort_Permutation Cursor.by_id). apply member_rows_nodup.
  - intros row. rewrite (merge_sort_Permutation Cursor.by_id). apply member_rows_spec.
Qed.
(** * The configuration of a project *)

Section config.
Context {CR : Crypto} (field_name : uuid -> string -> string) (jsonb_bytes : json -> bytes).

Lemma body_etag_inj a b : Http.trim_weak (Http.body_etag a) = Http.trim_weak (Http.body_etag b) -> a = b \/ JournalProps.collision.
Proof.
  intros E. assert (Hb : forall x, chars (Http.trim_weak (Http.body_etag x)) = dquote :: chars (Journal.hex (Journal.sha256 x)) ++ [dquote]).
  { intros x. change (chars (of_chars (drop 2 (chars ("W/" +:+ Http.dq +:+ Journal.hex (Journal.sha256 x) +:+ Http.dq)))) = dquote :: chars (Journal.hex (Journal.sha256 x)) ++ [dquote]).
    by rewrite chars_of_chars, !chars_app. }
  apply (f_equal chars) in E. rewrite !Hb in E. injection E as E. apply app_inj_tail in E as [E _]. apply chars_inj, JournalProps.hex_inj in E.
  destruct (decide (a = b)) as [|Hne]; [by left|]. right. by exists a, b.
Qed.

(** What a client gets is the current configuration, or word that it has it: if the
    tags it sent are those of texts it has, the current one is among them, unless two
    texts have one digest. *)
Theorem projectConfig_current r h s ops :
  projectConfig field_name jsonb_bytes r h s = Ok ops ->
  exists p row v, project_by_key (WorkspaceID (rq_who r)) (rq_param r) s = Ok (p, row) /\ max_version p (s_db s) = Some v /\
    let text := jsonb_bytes (resolved_json field_name p v s) in
    (Http.etagMatches (Http.IfNoneMatch h) (Http.body_etag text) = false /\ last ops = Some (Http.OWrite (text ++ [Journal.newline]))) \/
    (last ops = Some (Http.OWriteHeader 304) /\ forall known : list bytes,
       (forall v, v ∈ str_split ","%char (Http.IfNoneMatch h) -> exists b, b ∈ known /\ trim_space v = Http.body_etag b) ->
       text ∈ known \/ JournalProps.collision).
Proof.
  unfold projectConfig, Workflow.db_problem. destruct (rejectFields r); [|done].
  destruct (project_by_key _ _ _) as [[p row]|]; [|done]. destruct (max_version p (s_db s)) as [v|] eqn:Hv; [|done].
  intros E%Ok_inj. exists p, row, v. split; [done|]. split; [done|]. cbv zeta. set (text := jsonb_bytes _) in *. rewrite <- E. unfold Http.writeCachedJSON.
  destruct (Http.etagMatches _ _) eqn:Em;
  [right|left; split; [done|reflexivity]]. split; [reflexivity|]. intros known Hk.
  unfold Http.etagMatches in Em. apply existsb_exists in Em as (x & Hx%list_elem_of_In & Hx2). destruct (Hk x Hx) as (b & Hb & Hxb).
  cbv zeta in Hx2. rewrite Hxb in Hx2. destruct (String.eqb_spec (Http.trim_weak (Http.body_etag b)) (Http.trim_weak (Http.body_etag text))) as [Hw|].
  - apply body_etag_inj in Hw as [->|Hc]; auto.
  - rewrite orb_false_r in Hx2. by apply String.eqb_eq in Hx2.
Qed.

End config.

End ReadsProps.

(** Witnesses for the properties of the reading endpoints, on the small site. *)
From S2P Require Import Events Mutate Demo SiteDemo EditDemo Evolve.
Open Scope Z_scope.

Module ReadsDemo.
Import Db Mutate Problem Site StoreTree Store JournalDemo SiteDemo EditDemo CursorProps Reads ReadsProps.

#[local] Existing Instance wide_crypto.

#[local] Existing Instance Cursor.by_id_dec.

Definition has_part (s p : string) : bool := existsb (fun n => has_prefix (str_drop n s) p) (seq 0 (S (String.length s))).

(** A pattern matches the texts that contain what it encloses; a projection is the
    document itself. *)
#[local] Instance demo_sql : ReadSql := {|
  ilike := fun s p => has_part s (of_chars (removelast (drop 1 (chars p))));
  hydrate := fun _ _ s i => match item_doc s i with Some d => d | None => [] end |}.

Definition get (param : string) (q : Cursor.query) : read_request := mkRead admin ("/api/v1/items/" +:+ param) q param.

Definition keys_of (p : result Problem_ Cursor.Page) : list (option json) :=
  match p with Ok p => (fun d => match d with JObj m => obj_get "key" m | _ => None end) <$> Cursor.Data p | Err _ => [] end.

Definition named : Cursor.query := [("fields", ["key,title"])].

Example descendants_ex :
  (keys_of (hierarchy "k" false (get "SRX-1" named) site0), keys_of (hierarchy "k" true (get "SRX-1" named) site0),
   keys_of (hierarchy "k" false (get "SRX-1" named) later), keys_of (hierarchy "k" false (get "SRX-1" (("depth", ["1"]) :: named)) site0))
  = ([Some (JStr "SRX-2"); Some (JStr "SRX-3")], [Some (JStr "SRX-2")], [Some (JStr "SRX-2")], [Some (JStr "SRX-2")]).
Proof. vm_compute. reflexivity. Qed.
Example depth_ex :
  (is_ok (hierarchy "k" false (get "SRX-1" (("depth", ["9"]) :: named)) site0), is_ok (hierarchy "k" true (get "SRX-1" (("depth", ["1"]) :: named)) site0),
   is_ok (hierarchy "k" false (get "SRX-7" named) site0))
  = (false, false, false).
Proof. vm_compute. reflexivity. Qed.

Lemma hierarchy_exact_witness : exists pi i,
  items (s_db site0) !! U 10 = Some pi /\ items (s_db site0) !! U 12 = Some i /\
  (i ∈ hierarchy_rows ws (i_path pi) 2 site0 <->
   i_workspace i = ws /\ i_deleted i = false /\ with_joins site0 i = true /\ exists n, (n <= 2)%nat /\ descends (items (s_db site0)) (U 10) n i).
Proof.
  destruct (items (s_db site0) !! U 10) as [pi|] eqn:Ep; [|vm_compute in Ep; discriminate Ep].
  destruct (items (s_db site0) !! U 12) as [i|] eqn:Ei; [|vm_compute in Ei; discriminate Ei].
  exists pi, i. split; [reflexivity|]. split; [reflexivity|].
  exact (proj1 (hierarchy_exact ws 2 site0 (U 10) pi (U 12) i (Evolve.ok_tree _ site0_db) Ep Ei)).
Defined.

(** * A history in two pages, the item deleted between them *)

Definition history_sites (k : nat) : Site := if (k =? 0)%nat then site0 else later.
Definition history_get : read_request := get "SRX-3" [("limit", ["1"])].

Definition gap_freeb (d : Db) : bool :=
  all_entries (fun wv : uuid * Z => (0 <=? wv.2) && bool_decide (map e_seq (ws_events wv.1 (events d)) = seqZ 1 wv.2)) (seq_counter d).
Lemma gap_freeb_spec d : gap_freeb d = true -> gap_free d.
Proof.
  intros Hb w v Hv. pose proof (all_entries_spec _ _ _ _ Hb Hv) as H. cbn [fst snd] in H.
  apply andb_prop in H as [H1%Z.leb_le H2%bool_decide_eq_true]. by split.
Qed.

Definition fits (c : Cursor.Cursor_) : bool :=
  (Z.of_nat (String.length (Cursor.EncodeCursor c "k")) <=? 8192) && negb (length (marshal c) =? 0)%nat.
Lemma fits_spec c : fits c = true -> Z.of_nat (String.length (Cursor.EncodeCursor c "k")) <= 8192 /\ marshal c <> [].
Proof. unfold fits. intros [H1%Z.leb_le H2]%andb_prop. split; [done|]. intros E. by rewrite E in H2. Qed.
Lemma read_rows_fit c0 rows : forallb (fun row => fits (cursor_at c0 row)) rows = true ->
  forall row, row ∈ rows -> Z.of_nat (String.length (Cursor.EncodeCursor (cursor_at c0 row) "k")) <= 8192 /\ marshal (cursor_at c0 row) <> [].
Proof. rewrite forallb_forall. intros H row Hrow. by apply fits_spec, H, list_elem_of_In. Qed.

Lemma history_log k : gap_free (s_db (history_sites k)) /\ is_Some (seq_counter (s_db (history_sites k)) !! ws) /\
  exists more, events (s_db (history_sites k)) = events (s_db site0) ++ more.
Proof.
  unfold history_sites. destruct (k =? 0)%nat.
  - split; [apply gap_freeb_spec; vm_compute; reflexivity|]. split; [exists 4; vm_compute; reflexivity|]. exists []. by rewrite app_nil_r.
  - split; [apply gap_freeb_spec; vm_compute; reflexivity|]. split; [exists 5; vm_compute; reflexivity|].
    exists (drop 4 (events (s_db later))). vm_compute. reflexivity.
Qed.

Lemma history_item k : s_account (history_sites k) = s_account site0 /\
  exists i, item_by_key ws "SRX-3" (s_db (history_sites k)) = Ok i /\ i_id i = U 12.
Proof.
  unfold history_sites. destruct (k =? 0)%nat; (split; [vm_compute; reflexivity|]).
  - destruct (item_by_key ws "SRX-3" (s_db site0)) as [i|] eqn:E; [|vm_compute in E; discriminate E].
    exists i. split; [done|]. apply (f_equal (fun r => match r with Ok i => i_id i | Err _ => U 0 end)) in E. vm_compute in E. symmetry. exact E.
  - destruct (item_by_key ws "SRX-3" (s_db later)) as [i|] eqn:E; [|vm_compute in E; discriminate E].
    exists i. split; [done|]. apply (f_equal (fun r => match r with Ok i => i_id i | Err _ => U 0 end)) in E. vm_compute in E. symmetry. exact E.
Qed.

Example history_ex :
  ((fun d => match d with JObj m => obj_get "kind" m | _ => None end) <$>
   match itemHistory "k" history_get site0 with Ok p => Cursor.Data p | Err _ => [] end)
  = [Some (JStr "status_changed")].
Proof. vm_compute. reflexivity. Qed.

Lemma history_complete_witness :
  let log := item_events ws (U 12) (s_db site0) in
  walk (history_page "k" history_sites history_get) (page_request history_get) (S (length log)) 0 "" = Some (event_doc site0 <$> rev log).
Proof.
  assert (Hfit : forallb (fun row => fits (cursor_at (start0 history_sites history_get (U 12)) row)) (history_rows0 history_sites history_get (U 12)) = true)
    by (vm_compute; reflexivity).
  apply (history_complete "k" history_sites history_get 1 (U 12) 4 wide_length history_log).
  - vm_compute. reflexivity.
  - lia.
  - exact history_item.
  - reflexivity.
  - reflexivity.
  - reflexivity.
  - exact (read_rows_fit _ _ Hfit).
Defined.

(** * Members *)

Definition crowd (k : nat) : Site :=
  mkSite (s_db site0) (s_workspace site0) (s_project site0)
    (<[U 7 := mkAccountRow "Anna" true]> (<[U 8 := mkAccountRow "Anton" false]> (<[U 9 := mkAccountRow "Bo" true]>
      (if (k =? 0)%nat then s_account site0 else <[U 20 := mkAccountRow "Annika" true]> (s_account site0)))))
    (<[(ws, U 7) := "member"]> (<[(ws, U 8) := "member"]> (<[(ws, U 9) := "member"]>
      (if (k =? 0)%nat then s_membership site0 else <[(ws, U 20) := "member"]> (s_membership site0)))))
    (s_status_name site0) (s_type_name site0) (s_field_def site0) (s_config_status site0) (s_config_type site0) (s_config_transition site0).
Definition members_get : read_request := mkRead admin "/api/v1/members" [("q", ["An"]); ("limit", ["1"])] "".
Definition crowd_rows (k : nat) : Cursor.table := member_rows ws "An" (crowd k).

Example members_ex : (merge_sort Cursor.by_id (crowd_rows 0)).*2 = [member_doc (U 6) "Ann"; member_doc (U 7) "Anna"].
Proof. vm_compute. reflexivity. Qed.

Lemma crowd_steady k : List.filter (fun row => Cursor.id_le row.1 (Cursor.max_id (crowd_rows 0))) (crowd_rows k) =
  List.filter (fun row => Cursor.id_le row.1 (Cursor.max_id (crowd_rows 0))) (crowd_rows 0).
Proof. destruct k; vm_compute; reflexivity. Qed.

Lemma listMembers_complete_witness :
  exists page, walk (members_page "k" crowd members_get) (page_request members_get) (S (length (crowd_rows 0))) 0 "" = Some page.*2 /\ NoDup page.*1 /\
    forall row, row ∈ page <->
      exists u role a, s_membership (crowd 0) !! (ws, u) = Some role /\ s_account (crowd 0) !! u = Some a /\
        ac_is_active a = true /\ ilike (ac_display_name a) (containing "An") = true /\ row = (uuid_string u, member_doc u (ac_display_name a)).
Proof.
  assert (Hpos : forallb (fun row => str_lt Cursor.zeroID row.1) (crowd_rows 0) = true) by (vm_compute; reflexivity).
  assert (Hfit : forallb (fun row => fits (cursor_at (first_cursor crowd_rows (page_request members_get)) row)) (crowd_rows 0) = true)
    by (vm_compute; reflexivity).
  apply (listMembers_complete "k" crowd members_get 1 wide_length).
  - reflexivity.
  - vm_compute. reflexivity.
  - reflexivity.
  - reflexivity.
  - exact crowd_steady.
  - intros row Hrow. rewrite forallb_forall in Hpos. by apply Hpos, list_elem_of_In.
  - exact (read_rows_fit _ _ Hfit).
Defined.

End ReadsDemo.
