(* ===== verification/Accounts.v ===== *)
(** Accounts and what belongs to them: the member list and provisioning for
    administrators ([internal/api/admin_members.go] with
    [migrations/0016_admin_members.sql]), a user's own settings ([me.go],
    [themes.go]), saved views ([views.go]) and the operator command that suspends and
    reactivates an account ([cmd/sierxctl/accounts.go] with
    [migrations/0012_account_lifecycle.sql]). The accounts are those of [Auth.v]. *)
From S2P Require Import Prelude Utf8 Uuid DateTime Float Json Base64 Journal Auth Db Problem Operator SxqParser SxqCompile Cursor Paging Listing Reads.
Open Scope nat_scope.

Module Accounts.
Import Db Problem.

(** * themes.go *)

Definition appearanceThemes : list string :=
  ["swiss"; "quiet"; "ledger"; "commander"; "platinum"; "blueprint"; "eink"; "eink-dark"; "ticker"; "plain"; "brutal"; "civic"; "dusk";
   "cockpit"; "chart"; "appliance"; "redlight"; "celadon"; "riso"; "vellum"; "kraft"; "indigo"; "indexcard"].
Definition legacyThemes : list string := ["system"; "light"; "dark"; "light-hc"; "dark-hc"].
Definition validTheme (theme : string) : bool := mem_str theme appearanceThemes || mem_str theme legacyThemes.
Definition canonicalTheme (theme : string) : string :=
  if String.eqb theme "light" then "quiet"
  else if String.eqb theme "dark" then "dusk"
  else if String.eqb theme "light-hc" then "eink"
  else if String.eqb theme "dark-hc" then "eink-dark"
  else if validTheme theme then theme else "system".

(** * me.go *)

(** A request with a body, which [decodeJSON] has read. *)
Record post := mkPost { po_who : Auth.Identity; po_query : Cursor.query; po_body : result Problem_ json }.

Definition reject_fields (q : Cursor.query) : result Problem_ unit :=
  if Cursor.q_has q "fields" then Err (with_detail "fields is not supported for this endpoint; remove it." BadRequest) else Ok tt.
Definition raw_members (body : result Problem_ json) : result Problem_ (list (string * json)) :=
  let* v := body in
  match v with JObj m => Ok m | JNull => Ok [] | _ => Err BadRequest end.

(** [json.Unmarshal] of a present member into a string: null leaves it empty. *)
Definition string_of (v : json) : option string := match v with JStr s => Some s | JNull => Some "" | _ => None end.
Definition motion_of (v : json) : option (option bool) := match v with JBool b => Some (Some b) | JNull => Some None | _ => None end.

(** What a body sets. *)
Record settings := mkSettings { st_theme : option string; st_name : option string; st_motion : option (option bool) }.

Definition read_settings (m : list (string * json)) : result Problem_ settings :=
  match m with
  | [] => Err (requestProblem "Provide theme, reduced_motion or display_name.")
  | _ =>
      match List.find (fun k => negb (mem_str k ["theme"; "reduced_motion"; "display_name"])) (obj_keys m) with
      | Some k => Err (requestProblem ("Field " +:+ k +:+ " cannot be changed here. Use the account security flow."))
      | None =>
          let* theme := match obj_get "theme" m with
                        | None => Ok None
                        | Some v => match string_of v with
                                    | Some t => if validTheme t then Ok (Some t) else Err (requestProblem "theme must be system or a named Sierx appearance.")
                                    | None => Err (requestProblem "theme must be system or a named Sierx appearance.")
                                    end
                        end in
          let* name := match obj_get "display_name" m with
                       | None => Ok None
                       | Some v => match string_of v with
                                   | Some n => if String.eqb (trim_space n) "" || (200 <? rune_count n)
                                               then Err (requestProblem "display_name must contain 1-200 characters.") else Ok (Some n)
                                   | None => Err (requestProblem "display_name must contain 1-200 characters.")
                                   end
                       end in
          let* motion := match obj_get "reduced_motion" m with
                         | None => Ok None
                         | Some v => match motion_of v with
                                     | Some b => Ok (Some b)
                                     | None => Err (requestProblem "reduced_motion must be true, false or null.")
                                     end
                         end in
          Ok (mkSettings theme name motion)
      end
  end.

(** UPDATE user_account SET theme, display_name, reduced_motion *)
Definition set_settings (x : settings) (a : Auth.Account) : Auth.Account :=
  Auth.mkAccount (Auth.Email a) (default (Auth.DisplayName a) (st_name x)) (Auth.password_hash a) (Auth.totp_secret a) (Auth.is_active a)
    (Auth.members a) (default (Auth.Theme a) (st_theme x)) (default (Auth.ReducedMotion a) (st_motion x)).

(** PATCH /me: the identity with what the row holds afterwards. *)
Definition updateMe (p : post) (db : Auth.Db) : result Problem_ (Auth.Identity * Auth.Db) :=
  let who := po_who p in
  let* _ := reject_fields (po_query p) in
  let* m := raw_members (po_body p) in
  let* x := read_settings m in
  match Auth.accounts db !! Auth.i_ID who with
  | None => Err (databaseProblem (Some NoRows))
  | Some a =>
      let a' := set_settings x a in
      Ok (Auth.mkIdentity (Auth.i_ID who) (Auth.i_Email who) (Auth.DisplayName a') (Auth.i_WorkspaceID who) (Auth.i_Role who) (Auth.Theme a') (Auth.ReducedMotion a'),
          Auth.save_account db (Auth.i_ID who) a')
  end.

(** * admin_members.go *)

Definition forbidden_sql : dberr := PgError "42501".
Definition invalid_sql : dberr := PgError "22023".

(** The scope a request sets on its transaction: the caller must be an active
    administrator there, whatever the request says. *)
Definition workspace_admin (who : Auth.Identity) (db : Auth.Db) : bool :=
  String.eqb (Auth.i_Role who) "admin" &&
  match Auth.accounts db !! Auth.i_ID who with
  | Some a => bool_decide ((Auth.i_WorkspaceID who, "admin") ∈ Auth.members a) && Auth.is_active a
  | None => false
  end.

(** [btrim]: spaces only. *)
Definition is_blank (c : ascii) : bool := Ascii.eqb c " "%char.
Definition btrimmed (s : string) : bool :=
  match chars s, last (chars s) with
  | c :: _, Some c' => negb (is_blank c) && negb (is_blank c')
  | _, _ => true
  end.

Definition sql_space (c : ascii) : bool := byte_in 9 13 c || byte_in 32 32 c.
(** [^[^[:space:]@]+@[^[:space:]@]+$] *)
Definition sql_address (s : string) : bool :=
  match str_split "@"%char s with
  | [a; b] => negb (String.eqb a "") && negb (String.eqb b "") && forallb (fun c => negb (sql_space c)) (chars s)
  | _ => false
  end.
Definition base64_char (c : ascii) : bool := byte_in 65 90 c || byte_in 97 122 c || byte_in 48 57 c || mem_str (of_chars [c]) ["+"; "/"].
(** The pattern of an Argon2id hash with its fixed parameters. *)
Definition sql_hash (s : string) : bool :=
  has_prefix s Auth.scheme &&
  match str_split "$"%char (str_drop (String.length Auth.scheme) s) with
  | [a; b] => (String.length a =? 22) && forallb base64_char (chars a) && (String.length b =? 43) && forallb base64_char (chars b)
  | _ => false
  end.

(** The checks on the inputs; [length] counts characters. *)
Definition member_inputs (email name hash : string) : bool :=
  (rune_count email <=? 320) && btrimmed email && sql_address email &&
  (1 <=? rune_count name) && (rune_count name <=? 200) && btrimmed name && sql_hash hash.

(** UNIQUE (email), a citext *)
Definition email_taken (email : string) (db : Auth.Db) : bool :=
  existsb (fun a => String.eqb (to_lower (Auth.Email a)) (to_lower email)) (map_to_list (Auth.accounts db)).*2.

Definition new_member (ws email name hash : string) : Auth.Account :=
  Auth.mkAccount email name (Some hash) [] true [(ws, "member")] "system" None.

(** [sierx_admin_add_member]; the identifier is the database's. *)
Definition sierx_admin_add_member (who : Auth.Identity) (id email name hash : string) (db : Auth.Db) : result dberr Auth.Db :=
  guard* storable email && storable name && storable hash else bad_text in
  guard* workspace_admin who db else forbidden_sql in
  guard* member_inputs email name hash else invalid_sql in
  guard* negb (email_taken email db || bool_decide (is_Some (Auth.accounts db !! id))) else unique_violation in
  Ok (Auth.save_account db id (new_member (Auth.i_WorkspaceID who) email name hash)).

(** A character of an address's atoms ([net/mail]): printable ASCII without specials,
    or a byte of a multi-byte character. *)
Definition atext (c : ascii) : bool :=
  (byte_in 33 126 c || (128 <=? byte_of c)) && negb (mem_str (of_chars [c]) ["("; ")"; "<"; ">"; "["; "]"; ":"; ";"; "@"; "\"; ","]) &&
  negb (Ascii.eqb c dquote).
(** A dot-atom: no empty part between dots. *)
Definition dot_atom (s : string) : bool :=
  forallb (fun w => negb (String.eqb w "")) (str_split "."%char s) && forallb atext (chars s).

(** [err == nil && address.Address == s] after [mail.ParseAddress(s)]: the text is an
    address and nothing more; [literal] are the domains in brackets it accepts. *)
Definition plain_address (literal : string -> bool) (s : string) : bool :=
  valid_utf8 s &&
  match str_split "@"%char s with
  | [local; domain] => dot_atom local && (dot_atom domain || literal domain)
  | _ => false
  end.

(** [strings.IndexFunc(s, unicode.IsSpace) >= 0] on valid UTF-8 *)
Fixpoint has_space (l : list ascii) : bool :=
  match l with [] => false | c :: l' => negb (space_len l =? 0) || has_space l' end.

Record memberInput := mkMember { mb_DisplayName : string; mb_Email : string; mb_Password : string }.

Definition member_json (id : string) (a : Auth.Account) (role : string) : json :=
  JObj [("id", JStr id); ("display_name", JStr (Auth.DisplayName a)); ("email", JStr (Auth.Email a)); ("role", JStr role); ("is_active", JBool (Auth.is_active a))].

Section members.
Context {AC : AuthCrypto} {SQ : Reads.ReadSql} {CR : Crypto} {CC : Codec Cursor.Cursor_}.
(** [strings.ToLower], and the domains in brackets. *)
Context (lower : string -> string) (literal : string -> bool).

(** The checks on a decoded body, up to the hash of its password. *)
Definition member_checks (inp : memberInput) : result Problem_ (string * string) :=
  let name := trim_space (mb_DisplayName inp) in
  let email := lower (trim_space (mb_Email inp)) in
  if negb (plain_address literal email) || (320 <? String.length email) || negb (length (str_split "@"%char email) =? 2) || has_space (chars email) ||
     (rune_count name <? 1) || (200 <? rune_count name)
  then Err (requestProblem "Enter a valid email address and a display name of 1–200 characters.")
  else match Auth.ValidatePassword (mb_Password inp) with
       | Ok _ => Ok (name, email)
       | Err _ => Err (requestProblem "Generate an initial password of 12–1024 bytes.")
       end.

Definition add_member_problem (e : dberr) : Problem_ :=
  match e with
  | PgError code =>
      if String.eqb code "23505" then problem 409 "Member could not be added" "That email cannot be added. Check the member list or contact the operator."
      else if String.eqb code "42501" then Forbidden else databaseProblem (Some e)
  | _ => databaseProblem (Some e)
  end.

(** POST /admin/members. [busy]: the slot for password work is taken; [id] and [salt]
    are the database's identifier and random bytes. *)
Definition addAdminMember (local_mode busy : bool) (id : string) (salt : bytes) (who : Auth.Identity) (q : Cursor.query)
    (body : result Problem_ memberInput) (db : Auth.Db) : reply * Auth.Db :=
  let added :=
    if negb (String.eqb (Auth.i_Role who) "admin") then Err Forbidden
    else if negb local_mode
    then Err (requestProblem "Member creation is available for local sign-in. Proxy identities require operator provisioning.")
    else
      let* _ := reject_fields q in
      let* inp := body in
      let* (name, email) := member_checks inp in
      if busy then Err RateLimited
      else match Auth.HashPassword (mb_Password inp) salt with
           | Err _ => Err Unavailable
           | Ok hash =>
               match sierx_admin_add_member who id email name hash db with
               | Err e => Err (add_member_problem e)
               | Ok db' => Ok (name, email, hash, db')
               end
           end in
  match added with
  | Err e => (RProblem e, db)
  | Ok (name, email, hash, db') => (RDoc 201 None None (member_json id (new_member (Auth.i_WorkspaceID who) email name hash) "member"), db')
  end.

(** [sierx_admin_list_members]: the members of the caller's workspace a search finds. *)
Definition admin_rows (ws search : string) (db : Auth.Db) : Cursor.table :=
  omap (fun ka : string * Auth.Account =>
      match List.find (fun m : string * string => String.eqb m.1 ws) (Auth.members ka.2) with
      | Some m => if Reads.ilike (Auth.DisplayName ka.2) (Reads.containing search) || Reads.ilike (Auth.Email ka.2) (Reads.containing search)
                  then Some (ka.1, member_json ka.1 ka.2 m.2) else None
      | None => None
      end) (map_to_list (Auth.accounts db)).

Definition sierx_admin_list_members (who : Auth.Identity) (after upper search : string) (limit : nat) (db : Auth.Db) : result dberr Cursor.table :=
  guard* workspace_admin who db else forbidden_sql in
  guard* (1 <=? limit) && (limit <=? 201) && (rune_count search <=? 100) else invalid_sql in
  Ok (take limit (Cursor.between (admin_rows (Auth.i_WorkspaceID who) search db) after upper)).

(** The highest member of the workspace, found by the search or not. *)
Definition member_ids (ws : string) (db : Auth.Db) : Cursor.table :=
  (fun ka : string * Auth.Account => (ka.1, JNull)) <$>
    List.filter (fun ka : string * Auth.Account => existsb (fun m : string * string => String.eqb m.1 ws) (Auth.members ka.2)) (map_to_list (Auth.accounts db)).

(** GET /admin/members *)
Definition listAdminMembers (key : string) (who : Auth.Identity) (path : string) (q : Cursor.query) (db : Auth.Db) : result Problem_ Cursor.Page :=
  if negb (String.eqb (Auth.i_Role who) "admin") then Err Forbidden
  else
    let* _ := reject_fields q in
    let* limit := Listing.or_bad (Cursor.PageLimit q) in
    let search := trim_space (Cursor.q_get q "q") in
    if Reads.too_long search then Err (requestProblem "q must be at most 100 characters.")
    else
      let scope := Cursor.cursorScope (Cursor.mkRequest (Auth.i_WorkspaceID who) (Auth.i_ID who) path q) in
      let token := Cursor.q_get q "cursor" in
      let* c := if String.eqb token "" then Ok (Cursor.mkCursor 0 Cursor.zeroID [] (Cursor.max_id (member_ids (Auth.i_WorkspaceID who) db)) scope "")
                else Listing.or_bad (Cursor.DecodeCursor token key scope) in
      match sierx_admin_list_members who (Cursor.After c) (Cursor.Upper c) search (limit + 1) db with
      | Err e => Err (databaseProblem (Some e))
      | Ok rows => Ok (Cursor.collect key limit rows c [])
      end.

End members.

(** * views.go *)

Record view := mkView { vw_workspace : string; vw_owner : string; vw_name : string; vw_query : string; vw_layout : string; vw_shared : bool }.
Abbreviation views := (gmap string view).

Definition layout_ok (l : string) : bool := mem_str l ["list"; "board"; "timeline"; "grid"].
(** [viewSelect]: what a user may see. *)
Definition visible_view (ws user : string) (v : view) : bool := String.eqb (vw_workspace v) ws && (vw_shared v || String.eqb (vw_owner v) user).
Definition view_doc (id : string) (v : view) : json :=
  JObj [("id", JStr id); ("name", JStr (vw_name v)); ("query", JStr (vw_query v)); ("layout", JStr (vw_layout v)); ("shared", JBool (vw_shared v));
        ("owner_id", JStr (vw_owner v))].
Definition view_rows (ws user : string) (t : views) : Cursor.table :=
  omap (fun kv : string * view => if visible_view ws user kv.2 then Some (kv.1, view_doc kv.1 kv.2) else None) (map_to_list t).

Record viewInput := mkViewInput { vi_Name : string; vi_Query : string; vi_Layout : string; vi_Shared : bool }.

Section views.
Context {UU : UuidParse} {CR : Crypto} {CC : Codec Cursor.Cursor_}.

(** GET /views *)
Definition listViews (key : string) (r : Cursor.request) (t : views) : result Problem_ Cursor.Page :=
  let* _ := reject_fields (Cursor.Query r) in
  Listing.or_bad (Cursor.jsonPage key (view_rows (Cursor.WorkspaceID r) (Cursor.UserID r) t) r).

(** The query of a view must parse and compile for its author. *)
Definition check_query (w : Listing.world) (now : Z) (r : Cursor.request) (text : string) : result Problem_ unit :=
  let* q := Listing.or_bad (Parser.Parse text) in
  let* _ := Listing.or_bad (Compile.Compile now (Listing.queryOptions w r q now 1) q) in
  Ok tt.

Definition insert_view (id : string) (v : view) (t : views) : result dberr views :=
  guard* layout_ok (vw_layout v) else check_violation in
  guard* negb (bool_decide (is_Some (t !! id))) else unique_violation in
  Ok (<[id := v]> t).

(** POST /views *)
Definition createView (id : string) (now : Z) (w : Listing.world) (r : Cursor.request) (body : result Problem_ viewInput) (t : views) : reply * views :=
  let created :=
    let* _ := reject_fields (Cursor.Query r) in
    let* inp := body in
    if String.eqb (trim_space (vi_Name inp)) "" || (200 <? rune_count (vi_Name inp)) then Err (requestProblem "name must contain 1-200 characters.")
    else if negb (layout_ok (vi_Layout inp)) then Err (requestProblem "layout must be list, board, timeline or grid.")
    else
      let* _ := check_query w now r (vi_Query inp) in
      let v := mkView (Cursor.WorkspaceID r) (Cursor.UserID r) (vi_Name inp) (vi_Query inp) (vi_Layout inp) (vi_Shared inp) in
      match insert_view id v t with
      | Err e => Err (databaseProblem (Some e))
      | Ok t' => Ok (v, t')
      end in
  match created with
  | Err e => (RProblem e, t)
  | Ok (v, t') => (RDoc 201 None None (view_doc id v), t')
  end.

End views.

(** * accounts.go *)

(** [operator_account_action] *)
Record action := mkAction { ac_case : string; ac_user : string; ac_before : bool; ac_after : bool; ac_revoked : nat }.
Record ops_db := mkOps { op_auth : Auth.Db; op_actions : list action }.

Definition set_active (active : bool) (a : Auth.Account) : Auth.Account :=
  Auth.mkAccount (Auth.Email a) (Auth.DisplayName a) (Auth.password_hash a) (Auth.totp_secret a) active (Auth.members a) (Auth.Theme a) (Auth.ReducedMotion a).

(** [sierx_set_account_active] *)
Definition sierx_set_account_active (user : string) (active : bool) (case_ref : string) (d : ops_db) : result dberr (action * ops_db) :=
  let db := op_auth d in
  match Auth.accounts db !! user with
  | None => Err (PgError "P0002")
  | Some a =>
      let revoked := size (Auth.sessions db) - size (Auth.sessions (Auth.sign_out db user)) in
      let act := mkAction case_ref user (Auth.is_active a) active revoked in
      Ok (act, mkOps (Auth.sign_out (Auth.save_account db user (set_active active a)) user) (op_actions d ++ [act]))
  end.

(** The [flag] package on text flags: the values given and what follows them. *)
Definition flag_body (a : string) : option (string * option string) :=
  let name := if has_prefix a "--" then str_drop 2 a else str_drop 1 a in
  match chars name with
  | [] => None
  | c :: _ =>
      if Ascii.eqb c "-"%char || Ascii.eqb c "="%char then None
      else match str_split "="%char name with
           | [n] => Some (n, None)
           | n :: rest => Some (n, Some (str_join "=" rest))
           | [] => None
           end
  end.
Fixpoint parse_flags (names : list string) (args : list string) (acc : list (string * string)) (pending : option string) : option (list (string * string) * list string) :=
  match args with
  | [] => match pending with Some _ => None | None => Some (acc, []) end
  | a :: args' =>
      match pending with
      | Some n => parse_flags names args' (obj_set n a acc) None
      | None =>
          if String.eqb a "--" then Some (acc, args')
          else if negb (has_prefix a "-") || String.eqb a "-" then Some (acc, args)
          else match flag_body a with
               | None => None
               | Some (n, v) =>
                   if negb (mem_str n names) then None
                   else match v with
                        | Some v => parse_flags names args' (obj_set n v acc) None
                        | None => parse_flags names args' acc (Some n)
                        end
               end
      end
  end.
Definition flag_value (n : string) (l : list (string * string)) : string := match obj_get n l with Some v => v | None => "" end.

(** [runAccountLifecycle]: the account, the case and whether it becomes active. *)
Definition account_request (args : list string) : result string (string * string * bool) :=
  match args with
  | verb :: rest =>
      if negb (mem_str verb ["suspend"; "reactivate"]) then Err "usage: sierxctl accounts suspend|reactivate --user UUID --case UUID"
      else match parse_flags ["user"; "case"] rest [] None with
           | None => Err "flag provided but not defined"
           | Some (l, pos) =>
               let user := flag_value "user" l in
               let case := flag_value "case" l in
               if negb (bool_decide (pos = [])) || negb (Operator.canonicalUUID user) || negb (Operator.canonicalUUID case)
               then Err "--user and --case must be canonical UUIDs; no positional arguments are accepted"
               else Ok (user, case, String.eqb verb "reactivate")
           end
  | [] => Err "usage: sierxctl accounts suspend|reactivate --user UUID --case UUID"
  end.

(** [dsn] is the maintenance connection; identifiers are compared in lower case. *)
Definition runAccountLifecycle (args : list string) (dsn : string) (d : ops_db) : result string (action * ops_db) :=
  let* (user, case, active) := account_request args in
  if String.eqb dsn "" then Err "SIERX_MAINTENANCE_DATABASE_URL is unset"
  else match sierx_set_account_active (to_lower user) active (to_lower case) d with
       | Ok r => Ok r
       | Err _ => Err "account lifecycle action failed (check case authorization and account UUID)"
       end.

End Accounts.
