(* ===== verification/AccountsProps.v ===== *)
(** What account handling promises: who is added as a member and how it signs in,
    that a suspended account stays out, and whose views and settings are whose. *)
From S2P Require Import Prelude Utf8 Uuid DateTime Float Json Base64 Journal Auth AuthProps JournalDemo Db Problem SxqParser SxqCompile Cursor Paging Listing Reads Accounts.
Open Scope nat_scope.
#[local] Set Warnings "-clear-no-such-hyp".

Module AccountsProps.
Import Db Problem AuthProps Accounts.

(** * Text *)

Lemma count_runes_le fuel : forall l, count_runes fuel l <= fuel.
Proof. induction fuel as [|fuel IH]; intros [|c l]; cbn [count_runes]; try lia. specialize (IH (drop (Nat.max 1 (rune_len (c :: l))) (c :: l))). lia. Qed.
Lemma rune_count_le s : rune_count s <= String.length s.
Proof. apply count_runes_le. Qed.

Lemma sql_space_len c l : sql_space c = true -> space_len (c :: l) = 1.
Proof. unfold sql_space, space_len. intros ->. done. Qed.

Lemma no_space l : has_space l = false -> forallb (fun c => negb (sql_space c)) l = true.
Proof.
  induction l as [|c l IH]; [done|]. cbn [has_space forallb]. intros [Hc Hl]%orb_false_iff.
  rewrite IH by done. destruct (sql_space c) eqn:E; [|done]. rewrite (sql_space_len c l E) in Hc. discriminate Hc.
Qed.

Lemma blank_space c : is_blank c = true -> sql_space c = true.
Proof. unfold is_blank. intros ->%Ascii.eqb_eq. done. Qed.

Lemma last_in {A} (l : list A) x : last l = Some x -> x ∈ l.
Proof. intros [l' ->]%last_Some. set_solver. Qed.

Lemma btrimmed_no_space s : has_space (chars s) = false -> btrimmed s = true.
Proof.
  intros H%no_space. rewrite forallb_forall in H. unfold btrimmed. destruct (chars s) as [|c l] eqn:E; [done|].
  destruct (last (c :: l)) as [c'|] eqn:El; [|done].
  assert (Hb : forall x, x ∈ c :: l -> is_blank x = false).
  { intros x Hx. destruct (is_blank x) eqn:Eb; [|done]. apply blank_space in Eb. specialize (H x (proj1 (list_elem_of_In _ _) Hx)). by rewrite Eb in H. }
  by rewrite (Hb c ltac:(constructor)), (Hb c' (last_in _ _ El)).
Qed.

(** What [strings.TrimSpace] leaves neither starts nor ends with a space. *)
Lemma trim_left_space fuel : forall l, length l <= fuel -> space_len (trim_left fuel l) = 0.
Proof.
  induction fuel as [|fuel IH]; intros l Hl; cbn [trim_left]; [destruct l; [done|simpl in Hl; lia]|].
  destruct (space_len l) as [|n] eqn:E; [done|]. apply IH. rewrite length_drop. destruct l; [done|]. simpl in *. lia.
Qed.

Lemma all_space_blank c : is_blank c = true -> all_space 1 [c] = true.
Proof. unfold is_blank. intros ->%Ascii.eqb_eq. done. Qed.

Lemma trim_right_last l c : last (trim_right l) = Some c -> is_blank c = false.
Proof.
  induction l as [|a l IH]; cbn [trim_right]; [by destruct (all_space _ _)|].
  destruct (all_space (length (a :: l)) (a :: l)) eqn:Ea; [done|]. rewrite last_cons.
  destruct (last (trim_right l)) as [d|] eqn:El; [intros [= <-]; by apply IH|]. intros [= <-].
  apply last_None in El. destruct (is_blank a) eqn:Eb; [|done]. exfalso.
  assert (Hl : all_space (length l) l = true).
  { destruct l as [|b l]; [done|]. cbn [trim_right] in El. by destruct (all_space (length (b :: l)) (b :: l)). }
  cbn [length all_space] in Ea. rewrite (sql_space_len a l (blank_space a Eb)) in Ea. change (drop 1 (a :: l)) with l in Ea. by rewrite Hl in Ea.
Qed.

Lemma trim_right_head l c l' : trim_right l = c :: l' -> exists l0, l = c :: l0.
Proof. destruct l as [|a l]; cbn [trim_right]; [by destruct (all_space _ _)|]. destruct (all_space _ _); [done|]. intros [= -> _]. by exists l. Qed.

Lemma btrimmed_trim s : btrimmed (trim_space s) = true.
Proof.
  unfold trim_space, btrimmed. rewrite chars_of_chars. destruct (trim_right _) as [|c l'] eqn:E; [done|].
  rewrite <- E. destruct (last (trim_right _)) as [c'|] eqn:El; [|done]. rewrite (trim_right_last _ _ El).
  apply trim_right_head in E as [l0 E]. pose proof (trim_left_space (length (chars s)) (chars s) ltac:(lia)) as Hs. rewrite E in Hs.
  destruct (is_blank c) eqn:Eb; [|done]. by rewrite (sql_space_len c l0 (blank_space c Eb)) in Hs.
Qed.

(** * Hashes *)

Lemma base64_chars b : forallb base64_char (chars (Base64.encode Base64.std b)) = true.
Proof.
  unfold Base64.encode. rewrite chars_of_chars. apply forallb_forall. intros c Hc. apply in_map_iff in Hc as (n & <- & _).
  unfold Base64.enc6. assert (H : forallb base64_char Base64.std = true) by (vm_compute; reflexivity). rewrite forallb_forall in H.
  destruct (Nat.ltb_spec n (length Base64.std)) as [Hn|Hn]; [by apply H, nth_In|]. by rewrite nth_overflow.
Qed.

Lemma groups_length l : length (Base64.encode_groups l) = (4 * length l + 2) / 3.
Proof.
  induction l as [|a|a b|a b c l IH] using Base64.three_ind; [done..|]. cbn [Base64.encode_groups length]. rewrite IH.
  replace (4 * S (S (S (length l))) + 2) with (4 * length l + 2 + 4 * 3) by lia. rewrite Nat.div_add by done. lia.
Qed.
Lemma base64_length b : String.length (Base64.encode Base64.std b) = (4 * length b + 2) / 3.
Proof. unfold Base64.encode. rewrite <- length_chars, chars_of_chars, length_map, groups_length, length_map. done. Qed.

Section members.
Context {AC : AuthCrypto} {SQ : Reads.ReadSql} {CR : Crypto} {CC : Codec Cursor.Cursor_} {CT : Codec Auth.totpState}.
Context (lower : string -> string) (literal : string -> bool) (service_key : bytes).
(** A domain in brackets is not empty. *)
Context (literal_ok : forall d, literal d = true -> d <> "").

Lemma HashPassword_sql password salt h : length salt = 16 -> Auth.HashPassword password salt = Ok h -> sql_hash h = true.
Proof using Type.
  intros Hs. unfold Auth.HashPassword. destruct (Auth.ValidatePassword password) as [u|]; [|done]. intros [= <-].
  unfold sql_hash. set (e1 := Base64.encode Base64.std salt). set (e2 := Base64.encode Base64.std _).
  assert (Hp : has_prefix (Auth.scheme +:+ e1 +:+ "$" +:+ e2) Auth.scheme = true) by (apply has_prefix_spec; by eexists). rewrite Hp. cbn [andb].
  assert (Hd : str_drop (String.length Auth.scheme) (Auth.scheme +:+ e1 +:+ "$" +:+ e2) = str_join (String "$" "") [e1; e2]).
  { unfold str_drop. rewrite chars_app, <- length_chars, drop_app_length. apply of_chars_chars. }
  rewrite Hd, str_split_join; [|done|repeat (apply Forall_cons_2; [apply base64_no_dollar|]); constructor].
  unfold e1, e2. rewrite !base64_chars, !base64_length, argon2id_length, Hs. done.
Qed.

Lemma HashPassword_storable password salt h : length salt = 16 -> Auth.HashPassword password salt = Ok h -> storable h = true.
Proof using Type.
  intros Hs. unfold Auth.HashPassword. destruct (Auth.ValidatePassword password) as [u|]; [|done]. intros [= <-].
  unfold storable. rewrite !chars_app, !forallb_app.
  assert (Hb : forall b, forallb (fun c => negb (Ascii.eqb c Ascii.zero)) (chars (Base64.encode Base64.std b)) = true).
  { intros b. apply forallb_forall. intros c Hc. pose proof (base64_chars b) as Hf. rewrite forallb_forall in Hf. specialize (Hf c Hc).
    apply negb_true_iff, Ascii.eqb_neq. intros ->. discriminate Hf. }
  by rewrite !Hb.
Qed.

(** ** The checks of the handler are at least those of the database *)

Lemma dot_atom_ne s : dot_atom s = true -> s <> "".
Proof using Type. intros H ->. discriminate H. Qed.

Lemma member_checks_ok inp name email salt h : length salt = 16 ->
  member_checks lower literal inp = Ok (name, email) -> Auth.HashPassword (mb_Password inp) salt = Ok h -> member_inputs email name h = true.
Proof using literal_ok.
  intros Hs Hc Hh. unfold member_checks in Hc. destruct (_ || _) eqn:E in Hc; [discriminate Hc|].
  destruct (Auth.ValidatePassword (mb_Password inp)); [|discriminate Hc]. injection Hc as <- <-.
  set (email := lower _) in *. repeat (apply orb_false_iff in E as [E ?]). apply negb_false_iff in E.
  unfold member_inputs. rewrite (HashPassword_sql _ _ _ Hs Hh), btrimmed_trim, (btrimmed_no_space email) by done.
  assert (Ha : sql_address email = true).
  { unfold plain_address in E. apply andb_prop in E as [_ E]. unfold sql_address. destruct (str_split _ email) as [|x [|b [|]]]; try discriminate E.
    apply andb_prop in E as [Ea Eb]. rewrite (proj2 (String.eqb_neq x "") (dot_atom_ne x Ea)).
    assert (Hb : b <> "") by (apply orb_prop in Eb as [?|?]; [by apply dot_atom_ne|by apply literal_ok]).
    by rewrite (proj2 (String.eqb_neq b "") Hb), no_space. }
  rewrite Ha. pose proof (rune_count_le email). rewrite !andb_true_r, !andb_true_iff, !Nat.leb_le. repeat match goal with H : (_ <? _) = false |- _ => apply Nat.ltb_ge in H end.
  split_and!; lia.
Qed.

(** ** Adding a member *)

Definition taken (id email : string) (db : Auth.Db) : bool := email_taken email db || bool_decide (is_Some (Auth.accounts db !! id)).

(** The whole answer of the handler once its own checks pass. *)
Lemma addAdminMember_answer busy id salt who q inp name email db :
  length salt = 16 -> Auth.i_Role who = "admin" -> Cursor.q_has q "fields" = false -> member_checks lower literal inp = Ok (name, email) ->
  addAdminMember lower literal true busy id salt who q (Ok inp) db =
  if busy then (RProblem RateLimited, db)
  else if negb (storable email && storable name) then (RProblem Unavailable, db)
  else if negb (workspace_admin who db) then (RProblem Forbidden, db)
  else if taken id email db then (RProblem (add_member_problem unique_violation), db)
  else match Auth.HashPassword (mb_Password inp) salt with
       | Ok h => let a := new_member (Auth.i_WorkspaceID who) email name h in
                 (RDoc 201 None None (member_json id a "member"), Auth.save_account db id a)
       | Err _ => (RProblem Unavailable, db)
       end.
Proof using literal_ok.
  intros Hs Hr Hf Hc. unfold addAdminMember, reject_fields, taken. rewrite Hr, Hf. cbn [String.eqb Ascii.eqb Bool.eqb negb]. cbv beta iota zeta.
  rewrite Hc. destruct busy; [done|].
  assert (Hv : is_ok (Auth.ValidatePassword (mb_Password inp)) = true).
  { unfold member_checks in Hc. destruct (_ || _) in Hc; [discriminate Hc|]. by destruct (Auth.ValidatePassword (mb_Password inp)). }
  destruct (Auth.HashPassword (mb_Password inp) salt) as [h|e] eqn:Eh; cycle 1.
  { unfold Auth.HashPassword in Eh. destruct (Auth.ValidatePassword (mb_Password inp)); [discriminate Eh|discriminate Hv]. }
  unfold sierx_admin_add_member. rewrite (HashPassword_storable _ _ _ Hs Eh), andb_true_r. destruct (storable email && storable name); cbn [negb]; [|done].
  destruct (workspace_admin who db); cbn [negb]; [|done].
  rewrite (member_checks_ok _ _ _ _ _ Hs Hc Eh). destruct (_ || _); done.
Qed.

Lemma email_free email db id a : email_taken email db = false -> Auth.accounts db !! id = Some a -> to_lower (Auth.Email a) <> to_lower email.
Proof using Type.
  unfold email_taken. intros H Ha E. assert (Ht : existsb (fun a => String.eqb (to_lower (Auth.Email a)) (to_lower email)) (map_to_list (Auth.accounts db)).*2 = true).
  { apply existsb_exists. exists a. split; [|by apply String.eqb_eq]. apply list_elem_of_In, list_elem_of_fmap. exists (id, a). split; [done|]. by apply elem_of_map_to_list. }
  by rewrite H in Ht.
Qed.

(** The new account is the only one of its address. *)
Lemma by_email_new db id a : email_taken (Auth.Email a) db = false -> Auth.is_active a = true -> Auth.members a <> [] ->
  Auth.by_email (Auth.save_account db id a) (Auth.Email a) = Some (id, a).
Proof using Type.
  intros Hfree Hact Hm. unfold Auth.by_email. set (f := fun ka : string * Auth.Account => _).
  assert (Hin : (id, a) ∈ map_to_list (Auth.accounts (Auth.save_account db id a))) by (apply elem_of_map_to_list, lookup_insert_eq).
  assert (Hf : f (id, a) = true) by (unfold f; cbn [fst snd]; rewrite String.eqb_refl, Hact; by destruct (Auth.members a)).
  destruct (List.find f (map_to_list (Auth.accounts (Auth.save_account db id a)))) as [[k b]|] eqn:E.
  - apply List.find_some in E as [Hk Hfk]. apply list_elem_of_In, elem_of_map_to_list in Hk. cbn [Auth.save_account Auth.accounts] in Hk.
    destruct (decide (k = id)) as [->|Hne]; [rewrite lookup_insert_eq in Hk; by injection Hk as <-|]. rewrite lookup_insert_ne in Hk by done.
    unfold f in Hfk. cbn [snd] in Hfk. apply andb_prop in Hfk as [[He%String.eqb_eq _]%andb_prop _]. by apply (email_free _ _ _ _ Hfree) in Hk.
  - pose proof (List.find_none _ _ E _ (proj1 (list_elem_of_In _ _) Hin)) as Hn. by rewrite Hf in Hn.
Qed.

Lemma new_member_signs_in db id ws email name password salt h code now nonce raw :
  length salt = 16 -> Auth.HashPassword password salt = Ok h -> email_taken email db = false ->
  exists token db', Auth.Login service_key (Auth.save_account db id (new_member ws email name h)) email password code now nonce raw = Ok (token, db') /\
    Auth.sessions db' !! hex (sha256 (chars token)) = Some (Auth.mkSession id (now + Auth.lifetime)).
Proof using Type.
  intros Hs Hh Hfree. unfold Auth.Login.
  assert (Hb : Auth.by_email (Auth.save_account db id (new_member ws email name h)) email = Some (id, new_member ws email name h))
    by (by apply (by_email_new db id (new_member ws email name h))). rewrite Hb. cbn [new_member Auth.password_hash].
  rewrite (VerifyPassword_HashPassword password password salt h Hs Hh), bool_decide_eq_true_2, andb_true_r by done.
  assert (Hlen : (String.length password <=? 1024) = true).
  { unfold Auth.HashPassword, Auth.ValidatePassword in Hh. destruct (_ || _) eqn:E in Hh; [discriminate Hh|]. apply orb_false_iff in E as [_ E%Nat.ltb_ge]. by apply Nat.leb_le. }
  rewrite Hlen. unfold Auth.checkSecondFactor, Auth.locked. cbn [Auth.save_account Auth.accounts]. rewrite lookup_insert_eq. cbn [new_member Auth.is_active Auth.totp_secret].
  change (Auth.open_ service_key id []) with (@Ok Auth.auth_err _ Auth.no_totp). cbn [Auth.no_totp Auth.Active]. unfold Auth.issueSession.
  cbn [Auth.save_account Auth.accounts]. rewrite lookup_insert_eq. cbn [new_member Auth.is_active]. do 2 eexists. split; [done|]. cbn [Auth.sessions]. apply lookup_insert_eq.
Qed.

End members.

(** C19. Provisioning a member, whole: once the handler accepts the address, name and
    password, the checks of the database function never refuse them. The answer, on a
    database that can be reached, is 429 while password work is going on, 503 when the
    name or the address has a U+0000, which the handler lets through and no text of the
    database can hold, 403 unless the caller is at that moment an active administrator
    of the workspace, 409 when the address is taken, and otherwise a 201 that adds one
    account and nothing else: an active member (never an administrator) of that
    workspace under the trimmed, lower-case address, which can sign in with the initial
    password. *)
Theorem addAdminMember_exact {AC : AuthCrypto} {CR : Crypto} {CT : Codec Auth.totpState}
    lower literal service_key busy id salt who q inp name email db r db' :
  (forall d, literal d = true -> d <> "") -> length salt = 16 -> Auth.i_Role who = "admin" -> Cursor.q_has q "fields" = false ->
  member_checks lower literal inp = Ok (name, email) ->
  addAdminMember lower literal true busy id salt who q (Ok inp) db = (r, db') ->
  (reply_status r = 429 /\ busy = true /\ db' = db)%Z \/
  (reply_status r = 503 /\ storable email && storable name = false /\ db' = db)%Z \/
  (reply_status r = 403 /\ workspace_admin who db = false /\ db' = db)%Z \/
  (reply_status r = 409 /\ taken id email db = true /\ db' = db)%Z \/
  (reply_status r = 201%Z /\ storable email && storable name = true /\ workspace_admin who db = true /\ taken id email db = false /\
   exists h, let a := new_member (Auth.i_WorkspaceID who) email name h in
     db' = Auth.mkDb (<[id := a]> (Auth.accounts db)) (Auth.sessions db) /\ Auth.members a = [(Auth.i_WorkspaceID who, "member")] /\
     forall code now nonce raw, exists token db2,
       Auth.Login service_key db' email (mb_Password inp) code now nonce raw = Ok (token, db2) /\
       Auth.sessions db2 !! hex (sha256 (chars token)) = Some (Auth.mkSession id (now + Auth.lifetime))).
Proof.
  intros Hlit Hs Hr Hf Hc. rewrite (addAdminMember_answer _ _ Hlit busy id salt who q inp name email db Hs Hr Hf Hc).
  destruct busy; [intros [= <- <-]; by left|]. destruct (storable email && storable name) eqn:Ex; cbn [negb]; [|intros [= <- <-]; right; by left].
  destruct (workspace_admin who db) eqn:Ew; cbn [negb]; [|intros [= <- <-]; right; right; by left].
  destruct (taken id email db) eqn:Et; [intros [= <- <-]; right; right; right; by left|].
  destruct (Auth.HashPassword (mb_Password inp) salt) as [h|e] eqn:Eh; cycle 1.
  { exfalso. unfold member_checks in Hc. destruct (_ || _) in Hc; [discriminate Hc|]. unfold Auth.HashPassword in Eh. by destruct (Auth.ValidatePassword (mb_Password inp)). }
  intros [= <- <-]. do 4 right. split_and!; try done. exists h. split_and!; [done..|]. intros code now nonce raw.
  apply orb_false_iff in Et as [Et _]. exact (new_member_signs_in service_key db id _ email name _ salt h code now nonce raw Hs Eh Et).
Qed.

(** * Suspension *)

Section suspension.
Context {AC : AuthCrypto} {CR : Crypto} {CT : Codec Auth.totpState} (service_key : bytes).
Context (lower : string -> string) (literal : string -> bool).

(** What can change accounts and sessions, except an operator who reactivates [u]. *)
Inductive account_step (u : string) : Auth.Db -> Auth.Db -> Prop :=
  | step_login db email password code now nonce raw token db' :
      Auth.Login service_key db email password code now nonce raw = Ok (token, db') -> account_step u db db'
  | step_logout db token : account_step u db (Auth.Logout db token)
  | step_enroll db id password now secret nonce shown db' :
      Auth.Enroll service_key db id password now secret nonce = Ok (shown, db') -> account_step u db db'
  | step_confirm db id code now codes nonce shown db' :
      Auth.Confirm service_key db id code now codes nonce = Ok (shown, db') -> account_step u db db'
  | step_disable db id password code now db' :
      Auth.Disable service_key db id password code now = Ok db' -> account_step u db db'
  | step_settings db p who db' : updateMe p db = Ok (who, db') -> account_step u db db'
  | step_member db local_mode busy id salt who q body r db' :
      addAdminMember lower literal local_mode busy id salt who q body db = (r, db') -> account_step u db db'
  | step_operator db v active case act d' actions :
      v <> u \/ active = false ->
      sierx_set_account_active v active case (mkOps db actions) = Ok (act, d') -> account_step u db (op_auth d').

(** Locked out: inactive, and named by no session. *)
Definition out (u : string) (db : Auth.Db) : Prop :=
  (exists a, Auth.accounts db !! u = Some a /\ Auth.is_active a = false) /\
  forall k s, Auth.sessions db !! k = Some s -> Auth.s_user s <> u.

Lemma out_other u db id a' : out u db -> u <> id -> out u (Auth.save_account db id a').
Proof. intros [(a & Ha & Hi) Hs] Hne. split; [|done]. exists a. split; [|done]. cbn. by rewrite lookup_insert_ne. Qed.

Lemma out_sign_out u db id : out u db -> out u (Auth.sign_out db id).
Proof. intros [Ha Hs]. split; [done|]. cbn. intros k s [H _]%map_lookup_filter_Some. by apply (Hs k). Qed.

Lemma locked_other u db id a : out u db -> Auth.locked db id = Ok a -> u <> id.
Proof.
  intros [(b & Hb & Hi) _] Hl E. unfold Auth.locked in Hl. rewrite <- E, Hb, Hi in Hl. discriminate Hl.
Qed.

Lemma issue_out u db id raw now token db' : out u db -> Auth.issueSession db id raw now = Ok (token, db') -> out u db'.
Proof.
  intros Hout E. unfold Auth.issueSession in E. destruct (Auth.accounts db !! id) as [a|] eqn:Ha; [|done]. destruct (Auth.is_active a) eqn:Hact; [|done].
  injection E as _ <-. destruct Hout as [(b & Hb & Hi) Hs]. split; [by exists b|]. cbn. intros k s Hk.
  apply lookup_insert_Some in Hk as [[_ <-]|[_ Hk]]; [|by apply (Hs k)]. cbn. intros ->. rewrite Ha in Hb. injection Hb as ->. by rewrite Hact in Hi.
Qed.

Lemma Login_found db email password code now nonce raw r : Auth.Login service_key db email password code now nonce raw = Ok r ->
  exists id, Auth.checkSecondFactor service_key db id code now nonce raw = Ok r.
Proof.
  unfold Auth.Login. destruct (Auth.by_email db email) as [[id a]|]; [|done]. destruct (Auth.password_hash a) as [h|]; [|done].
  destruct (Auth.VerifyPassword h password); [|done]. by exists id.
Qed.

Lemma second_factor_out u db id code now nonce raw token db' : out u db ->
  Auth.checkSecondFactor service_key db id code now nonce raw = Ok (token, db') -> out u db' /\ u <> id.
Proof.
  intros Hout E. unfold Auth.checkSecondFactor in E. destruct (Auth.locked db id) as [a|] eqn:Hl; [|done]. pose proof (locked_other _ _ _ _ Hout Hl) as Hne.
  split; [|done]. destruct (Auth.open_ service_key id (Auth.totp_secret a)) as [st|]; [|done]. destruct (Auth.Active st).
  - destruct (Auth.consumeCode st code now true) as [st'|]; [|done]. by apply (issue_out u _ _ _ _ _ _ (out_other u db id _ Hout Hne) E).
  - by apply (issue_out u _ _ _ _ _ _ Hout E).
Qed.

Lemma account_step_out u db db' : out u db -> account_step u db db' -> out u db'.
Proof.
  intros Hout Hstep. destruct Hstep as [db email password code now nonce raw token db' E|db token|db id password now secret nonce shown db' E
      |db id code now codes nonce shown db' E|db id password code now db' E|db p who db' E|db local_mode busy id salt who q body r db' E|db v active case act d' actions Hv E].
  - apply Login_found in E as [id E]. by apply (second_factor_out u _ _ _ _ _ _ _ _ Hout) in E as [? _].
  - destruct Hout as [Ha Hs]. split; [done|]. cbn. intros k s [_ H]%lookup_delete_Some. by apply (Hs k).
  - unfold Auth.Enroll in E. destruct (Auth.locked db id) as [a|] eqn:Hl; [|done]. pose proof (locked_other _ _ _ _ Hout Hl) as Hne.
    destruct (Auth.password_hash a); [|done]. destruct (negb _); [done|]. destruct (Auth.open_ _ _ _) as [st|]; [|done]. destruct (Auth.Active st); [done|].
    injection E as _ <-. by apply out_other.
  - unfold Auth.Confirm in E. destruct (Auth.locked db id) as [a|] eqn:Hl; [|done]. pose proof (locked_other _ _ _ _ Hout Hl) as Hne.
    destruct (Auth.open_ _ _ _) as [st|]; [|done]. destruct (_ || _); [done|]. destruct (Auth.consumeCode _ _ _ _); [|done].
    injection E as _ <-. by apply out_sign_out, out_other.
  - unfold Auth.Disable in E. destruct (Auth.locked db id) as [a|] eqn:Hl; [|done]. pose proof (locked_other _ _ _ _ Hout Hl) as Hne.
    destruct (Auth.password_hash a); [|done]. destruct (negb _); [done|]. destruct (Auth.open_ _ _ _) as [st|]; [|done]. destruct (negb _); [done|].
    destruct (Auth.consumeCode _ _ _ _); [|done]. injection E as <-. by apply out_sign_out, out_other.
  - unfold updateMe in E. destruct (reject_fields _); [|done]. destruct (raw_members _) as [m|]; [|done]. destruct (read_settings m) as [x|]; [|done].
    destruct (Auth.accounts db !! Auth.i_ID (po_who p)) as [row|] eqn:Ha; [|done]. injection E as _ <-.
    destruct (decide (u = Auth.i_ID (po_who p))) as [->|Hne]; [|by apply out_other]. destruct Hout as [(b & Hb & Hi) Hs]. rewrite Ha in Hb. injection Hb as ->.
    split; [|done]. exists (set_settings x b). split; [apply lookup_insert_eq|done].
  - unfold addAdminMember in E. destruct (if negb _ then _ else _) as [[[[name email] hash] db2]|e] eqn:Hadd; injection E as _ <-; [|done].
    destruct (negb (String.eqb _ _)); [done|]. destruct (negb local_mode); [done|]. destruct (reject_fields q); [|done]. destruct body as [inp|]; [|done].
    destruct (member_checks lower literal inp) as [[n e]|]; [|done]. destruct busy; [done|]. destruct (Auth.HashPassword _ _) as [h|]; [|done].
    destruct (sierx_admin_add_member _ _ _ _ _ _) as [db3|] eqn:Hsql; [|done]. injection Hadd as <- <- <- <-.
    unfold sierx_admin_add_member in Hsql. destruct (_ && storable _); [|done]. destruct (workspace_admin _ _); [|done]. destruct (member_inputs _ _ _); [|done].
    destruct (negb (_ || _)) eqn:Hfree; [|done]. injection Hsql as <-. apply out_other; [done|]. intros ->.
    apply negb_true_iff, orb_false_iff in Hfree as [_ Hfree%bool_decide_eq_false]. apply Hfree. destruct Hout as [(b & Hb & _) _]. by exists b.
  - unfold sierx_set_account_active in E. cbn [op_auth] in E. destruct (Auth.accounts db !! v) as [a|] eqn:Ha; [|done]. injection E as _ <-. cbn [op_auth].
    apply out_sign_out. destruct (decide (u = v)) as [->|Hne]; [|by apply out_other]. destruct Hv as [Hv| ->]; [done|].
    destruct Hout as [_ Hs]. split; [|done]. exists (set_active false a). split; [apply lookup_insert_eq|done].
Qed.

Lemma suspend_out u case d act d' : sierx_set_account_active u false case d = Ok (act, d') -> out u (op_auth d').
Proof.
  unfold sierx_set_account_active. destruct (Auth.accounts (op_auth d) !! u) as [a|]; [|done]. intros [= _ <-]. cbn [op_auth]. split.
  - exists (set_active false a). split; [apply lookup_insert_eq|done].
  - cbn. by intros k s [_ H]%map_lookup_filter_Some.
Qed.

Lemma out_refused u db : out u db ->
  (forall token now who, Auth.Session db token now = Ok who -> Auth.i_ID who <> u) /\
  (forall peer emails trusted who, Auth.Proxy db peer emails trusted = Ok who -> Auth.i_ID who <> u) /\
  (forall email password code now nonce raw token db', Auth.Login service_key db email password code now nonce raw = Ok (token, db') ->
     forall k s, Auth.sessions db' !! k = Some s -> Auth.s_user s <> u).
Proof.
  intros Hout. split_and!.
  - intros token now who E. unfold Auth.Session in E. destruct (negb _); [done|]. destruct (Auth.sessions db !! _) as [s|] eqn:Hs; [|done].
    destruct (Auth.accounts db !! Auth.s_user s) as [a|]; [|done]. destruct (Auth.members a) as [|m l]; [done|]. destruct (_ && _); [|done].
    injection E as <-. cbn. by apply (proj2 Hout _ _ Hs).
  - intros peer emails trusted who E. unfold Auth.Proxy in E. destruct peer as [p|]; [|done]. destruct (negb _); [done|].
    destruct emails as [|email [|]]; [done| |done]. destruct (_ || _); [done|]. destruct (Auth.by_email db _) as [[id a]|] eqn:Hb; [|done].
    destruct (Auth.password_hash a); [done|]. destruct (Auth.members a) as [|m l]; [done|]. injection E as <-. cbn.
    apply by_email_spec in Hb as (Ha & _ & Hact & _). intros ->. destruct Hout as [(b & Hb' & Hi) _]. rewrite Ha in Hb'. injection Hb' as ->. by rewrite Hact in Hi.
  - intros email password code now nonce raw token db' E. apply Login_found in E as [id E]. apply (second_factor_out u _ _ _ _ _ _ _ _ Hout) in E as [[_ H] _]. done.
Qed.

(** C18. A suspended account is out until an operator lets it back in: suspending it
    ends all its sessions, and whatever sign-ins, sign-outs, second-factor changes,
    settings, new members and operator actions on it or on others follow, as long as none
    reactivates it, no session token and no proxy header is taken for it and no
    sign-in opens a session for it. Reactivating it gives no old session back. *)
Theorem suspended_locked_out u active case d act d' :
  sierx_set_account_active u active case d = Ok (act, d') ->
  (forall k s, Auth.sessions (op_auth d') !! k = Some s -> Auth.s_user s <> u) /\
  (active = false -> forall db, rtc (account_step u) (op_auth d') db ->
     (forall token now who, Auth.Session db token now = Ok who -> Auth.i_ID who <> u) /\
     (forall peer emails trusted who, Auth.Proxy db peer emails trusted = Ok who -> Auth.i_ID who <> u) /\
     (forall email password code now nonce raw token db', Auth.Login service_key db email password code now nonce raw = Ok (token, db') ->
        forall k s, Auth.sessions db' !! k = Some s -> Auth.s_user s <> u)).
Proof.
  intros E. split.
  - unfold sierx_set_account_active in E. destruct (Auth.accounts (op_auth d) !! u) as [a|]; [|done]. injection E as _ <-. cbn.
    by intros k s [_ H]%map_lookup_filter_Some.
  - intros -> db Hrun. apply out_refused. apply suspend_out in E. clear -E Hrun.
    induction Hrun as [x|x y z Hxy _ IH]; [done|]. apply IH. by apply (account_step_out u x y).
Qed.

End suspension.

(** * Settings and views *)

(** A user changes only the named settings of the own account, and only to valid
    ones. *)
Theorem updateMe_exact p db who db' : updateMe p db = Ok (who, db') ->
  exists a x, Auth.accounts db !! Auth.i_ID (po_who p) = Some a /\
    Auth.accounts db' = <[Auth.i_ID (po_who p) := set_settings x a]> (Auth.accounts db) /\ Auth.sessions db' = Auth.sessions db /\
    (forall t, st_theme x = Some t -> validTheme t = true) /\
    (forall n, st_name x = Some n -> trim_space n <> "" /\ rune_count n <= 200) /\
    (st_theme x, st_name x, st_motion x) <> (None, None, None) /\
    Auth.i_ID who = Auth.i_ID (po_who p) /\ Auth.i_Role who = Auth.i_Role (po_who p) /\ Auth.i_WorkspaceID who = Auth.i_WorkspaceID (po_who p).
Proof.
  unfold updateMe. destruct (reject_fields _); [|done]. destruct (raw_members _) as [m|]; [|done]. destruct (read_settings m) as [x|] eqn:Ex; [|done].
  destruct (Auth.accounts db !! _) as [row|] eqn:Ha; [|done]. intros [= <- <-]. exists row, x. unfold read_settings in Ex. destruct m as [|[k v] m']; [done|].
  destruct (List.find _ _) as [|] eqn:Hfind; [done|].
  repeat first [ progress cbn [st_theme st_name st_motion] in * | match goal with
    | H : context [match string_of ?v with _ => _ end] |- _ => destruct (string_of v) eqn:?; try discriminate H
    | H : context [if validTheme ?t then _ else _] |- _ => destruct (validTheme t) eqn:?; try discriminate H
    | H : context [match obj_get ?k0 ?m0 with _ => _ end] |- _ => destruct (obj_get k0 m0) eqn:?; try discriminate H
    | H : context [match motion_of ?v with _ => _ end] |- _ => destruct (motion_of v) eqn:?; try discriminate H
    | H : context [if ?a || ?b then _ else _] |- _ => destruct (a || b) eqn:?; try discriminate H end ].
  all: injection Ex as <-; cbn [st_theme st_name st_motion]; split_and!; try done; try (intros ? [= <-]); try done.
  all: try match goal with H : _ || _ = false |- _ => apply orb_false_iff in H as [?%String.eqb_neq ?%Nat.ltb_ge]; split; [done|lia] end.
  (* a body with members sets something *)
  intros _. assert (Hsome : obj_get k ((k, v) :: m') <> None) by (cbn [obj_get]; rewrite String.eqb_refl; by destruct (obj_get k m')).
  pose proof (List.find_none _ _ Hfind k ltac:(by left)) as Hk. apply negb_false_iff, mem_str_spec in Hk.
  repeat (apply elem_of_cons in Hk as [->|Hk]; [congruence|]). by apply elem_of_nil in Hk.
Qed.

(** A new view is the author's, was checked, and is seen by the author and, only when
    shared, by the rest of the workspace. *)
Theorem createView_listed {UU : UuidParse} id now w r body t st e l d t' :
  createView id now w r body t = (RDoc st e l d, t') ->
  exists inp q plan, body = Ok inp /\ t !! id = None /\
    Parser.Parse (vi_Query inp) = Ok q /\ Compile.Compile now (Listing.queryOptions w r q now 1) q = Ok plan /\
    t' = <[id := mkView (Cursor.WorkspaceID r) (Cursor.UserID r) (vi_Name inp) (vi_Query inp) (vi_Layout inp) (vi_Shared inp)]> t /\
    forall ws user, (id, d) ∈ view_rows ws user t' <-> ws = Cursor.WorkspaceID r /\ (vi_Shared inp = true \/ user = Cursor.UserID r).
Proof.
  unfold createView. destruct (reject_fields _); [|done]. destruct body as [inp|]; [|done]. destruct (_ || _); [done|]. destruct (negb _); [done|].
  unfold check_query. destruct (Parser.Parse (vi_Query inp)) as [q|] eqn:Eq; [|done]. cbn [Listing.or_bad].
  destruct (Compile.Compile now (Listing.queryOptions w r q now 1) q) as [plan|] eqn:Ep; [|done]. cbn [Listing.or_bad].
  unfold insert_view. destruct (layout_ok _); [|done]. destruct (negb (bool_decide (is_Some (t !! id)))) eqn:Efree; [|done].
  set (v := mkView _ _ _ _ _ _). intros [= <- <- <- <- <-]. apply negb_true_iff, bool_decide_eq_false, eq_None_not_Some in Efree.
  exists inp, q, plan. split_and!; try done. intros ws user. unfold view_rows. rewrite list_elem_of_omap. split.
  - intros ([k v'] & Hin & Hv). cbn [fst snd] in Hv. destruct (visible_view ws user v') eqn:Evis; [|discriminate Hv]. assert (Ek : k = id) by exact (f_equal (fun o : option (string * json) => default "" (fst <$> o)) Hv).
    apply elem_of_map_to_list in Hin. rewrite Ek, lookup_insert_eq in Hin. assert (v = v') as <- by congruence. clear Hv.
    unfold visible_view in Evis. apply andb_prop in Evis as [E1%String.eqb_eq E2]. cbn [v vw_workspace vw_shared vw_owner] in E1, E2. split; [done|].
    apply orb_prop in E2 as [?|?%String.eqb_eq]; [by left|by right].
  - intros [-> Hvis]. exists (id, v). split; [apply elem_of_map_to_list, lookup_insert_eq|]. cbn [fst snd]. unfold visible_view. cbn [v vw_workspace vw_shared vw_owner].
    rewrite String.eqb_refl. destruct Hvis as [->| ->]; [done|]. by rewrite String.eqb_refl, orb_true_r.
Qed.

(** * Examples *)

Import JournalDemo.

Definition demo_admin : Auth.Identity := Auth.mkIdentity "u" "Ada@Example.org" "Ada" "w" "admin" "system" None.
Definition demo_input : memberInput := mkMember " Grace Hopper " " Grace@Example.org " "a long password".
Definition no_literal (d : string) : bool := false.
Definition demo_added : reply * Auth.Db :=
  addAdminMember to_lower no_literal true false "v" demo_salt demo_admin [] (Ok demo_input) demo_db.

Example added_ex : (reply_status demo_added.1, (fun a => (Auth.Email a, Auth.DisplayName a, Auth.members a)) <$> Auth.accounts demo_added.2 !! "v")
  = (201%Z, Some ("grace@example.org", "Grace Hopper", [("w", "member")])).
Proof. vm_compute. reflexivity. Qed.
Example refused_ex :
  (reply_status (addAdminMember to_lower no_literal true false "v" demo_salt demo_admin [] (Ok (mkMember "Ada" "ADA@example.org" "a long password")) demo_db).1,
   reply_status (addAdminMember to_lower no_literal true false "v" demo_salt demo_admin [] (Ok (mkMember "Eve" "a b@example.org" "a long password")) demo_db).1,
   reply_status (addAdminMember to_lower no_literal true false "w" demo_salt (Auth.mkIdentity "v" "" "" "w" "admin" "system" None) [] (Ok (mkMember "Eve" "eve@example.org" "a long password")) demo_added.2).1)
  = (409, 400, 403)%Z.
Proof. vm_compute. reflexivity. Qed.

Lemma addAdminMember_exact_witness :
  reply_status demo_added.1 = 201%Z /\
  exists h, let a := new_member "w" "grace@example.org" "Grace Hopper" h in
    demo_added.2 = Auth.mkDb (<["v" := a]> (Auth.accounts demo_db)) (Auth.sessions demo_db) /\ Auth.members a = [("w", "member")] /\
    forall code now nonce raw, exists token db2,
      Auth.Login demo_key demo_added.2 "grace@example.org" "a long password" code now nonce raw = Ok (token, db2) /\
      Auth.sessions db2 !! hex (sha256 (chars token)) = Some (Auth.mkSession "v" (now + Auth.lifetime)).
Proof.
  assert (Hst : reply_status demo_added.1 = 201%Z) by (vm_compute; reflexivity). split; [exact Hst|].
  destruct (addAdminMember_exact to_lower no_literal demo_key false "v" demo_salt demo_admin [] demo_input "Grace Hopper" "grace@example.org" demo_db
    demo_added.1 demo_added.2) as [[H _]|[[H _]|[[H _]|[[H _]|(_ & _ & _ & _ & h & H)]]]]; try (rewrite Hst in H; discriminate H).
  - intros d H. discriminate H.
  - reflexivity.
  - reflexivity.
  - reflexivity.
  - vm_compute. reflexivity.
  - apply surjective_pairing.
  - exists h. exact H.
Defined.

(** A display name with U+0000 passes the checks of the handler. *)
Definition demo_nul : memberInput := mkMember ("a" +:+ String Ascii.zero "b") "zoe@example.org" "a long password".
Example added_nul_ex :
  is_ok (member_checks to_lower no_literal demo_nul) = true /\
  reply_status (addAdminMember to_lower no_literal true false "z" demo_salt demo_admin [] (Ok demo_nul) demo_db).1 = 503%Z.
Proof. vm_compute. done. Qed.

Definition demo_suspended : action * ops_db :=
  match sierx_set_account_active "u" false "case" (mkOps demo_db []) with Ok r => r | Err _ => (mkAction "" "" false false 0, mkOps demo_db []) end.
Example suspended_ex : (ac_revoked demo_suspended.1, is_ok (Auth.Login demo_key (op_auth demo_suspended.2) "ada@example.org" demo_password good_code 3060 nonce1 (repeat "r"%char 32)))
  = (1, false).
Proof. vm_compute. reflexivity. Qed.

Lemma suspended_locked_out_witness :
  (forall k s, Auth.sessions (op_auth demo_suspended.2) !! k = Some s -> Auth.s_user s <> "u") /\
  forall token now who, Auth.Session (op_auth demo_suspended.2) token now = Ok who -> Auth.i_ID who <> "u".
Proof.
  destruct (suspended_locked_out demo_key to_lower no_literal "u" false "case" (mkOps demo_db []) demo_suspended.1 demo_suspended.2) as [H1 H2].
  - vm_compute. reflexivity.
  - split; [exact H1|]. exact (proj1 (H2 eq_refl _ (rtc_refl _ _))).
Defined.
End AccountsProps.
