(* ===== verification/Scope.v ===== *)
(** The way into the endpoints: who a request acts for ([requireAuth] of
    [internal/api/auth.go]), the transaction its queries run in ([db.go]), reading a
    JSON body ([decodeJSON]), signing out and the second-factor handlers ([auth.go],
    [totp.go]), and the routes ([ConfigureAuth], [server.go], [metrics.go]). *)
From S2P Require Import Prelude Utf8 Uuid Float Json Base64 Journal Auth Throttle Db Problem Cursor Accounts.
Open Scope Z_scope.

Module Scope.
Import Db Problem.

(** * db.go *)

(** What the database answers to the statements around a handler; [None] is an
    error that is no [*pgconn.PgError]. *)
Definition attempt_ := result (option dberr) unit.

Record connection := mkConnection { cn_pool : bool; cn_begin : attempt_; cn_scope : attempt_; cn_commit : attempt_ }.

(** What a handler leaves: its answer, the state of its transaction, and whether it
    has committed the transaction itself, successfully or not. *)
Inductive committing := Later | Committed | RolledBack.
Record outcome (S : Type) := mkOutcome { oc_reply : reply; oc_state : S; oc_commit : committing }.
Arguments mkOutcome {S}. Arguments oc_reply {S}. Arguments oc_state {S}. Arguments oc_commit {S}.

Section scope.
Context {S : Type}.

(** [withRequestScope]: the answer is the handler's, written before the commit; an
    error of the commit is logged. *)
Definition withRequestScope (cn : connection) (who : Auth.Identity) (next : Auth.Identity -> S -> outcome S) (s : S) : reply * S :=
  if negb (cn_pool cn) then (RProblem Unavailable, s)
  else match cn_begin cn with
  | Err e => (RProblem (databaseProblem e), s)
  | Ok _ =>
      match cn_scope cn with
      | Err e => (RProblem (databaseProblem e), s)
      | Ok _ =>
          let out := next who s in
          (oc_reply out, match oc_commit out with
                         | Committed => oc_state out
                         | RolledBack => s
                         | Later => match cn_commit cn with Ok _ => oc_state out | Err _ => s end
                         end)
      end
  end.

(** A handler that leaves the commit to the scope, as all but [addAdminMember] do. *)
Definition scoped (h : Auth.Identity -> S -> reply * S) (who : Auth.Identity) (s : S) : outcome S :=
  let '(r, s') := h who s in mkOutcome r s' Later.

(** [addAdminMember] commits before it answers 201. *)
Definition commits_first (commit : attempt_) (h : Auth.Identity -> S -> reply * S) (who : Auth.Identity) (s : S) : outcome S :=
  let '(r, s') := h who s in
  match r with
  | RProblem _ => mkOutcome r s' Later
  | RDoc _ _ _ _ => match commit with
                    | Ok _ => mkOutcome r s' Committed
                    | Err e => mkOutcome (RProblem (databaseProblem e)) s' RolledBack
                    end
  end.

End scope.

(** [requestDB]: outside a request scope every query fails. *)
Definition requestDB {A} (tx : option A) : result string A :=
  match tx with Some t => Ok t | None => Err "database query requires an authenticated request scope" end.

(** * requireAuth *)

(** What [requireAuth] reads of a request: the method, [Origin], the session cookie,
    and for a proxy the peer's address and the values of its header. *)
Record incoming := mkIncoming {
  in_method : string; in_Origin : option string; in_cookie : option string; in_peer : option Auth.addr; in_emails : list string }.
Record auth_config := mkAuthConfig { cf_proxy : bool; cf_BaseURL : string; cf_trusted : list Auth.prefix }.

Section auth.
Context {CR : Crypto} {AC : AuthCrypto} {CT : Codec Auth.totpState}.
Context (cf : auth_config).

Definition auth_problem (e : Auth.auth_err) : Problem_ :=
  match e with Auth.ErrCredentials => Unauthorized | _ => Unavailable end.

(** The identity of a request, in seconds [now]. *)
Definition identify (db : Auth.Db) (now : Z) (r : incoming) : result Problem_ Auth.Identity :=
  if negb (mem_str (in_method r) ["GET"; "HEAD"]) && negb (Throttle.validOrigin (cf_BaseURL cf) (in_Origin r)) then Err Forbidden
  else
    let found :=
      if cf_proxy cf then Ok (Auth.Proxy db (in_peer r) (in_emails r) (cf_trusted cf))
      else match in_cookie r with
           | None => Err Unauthorized
           | Some token => Ok (Auth.Session db token now)
           end in
    let* found := found in
    match found with Ok who => Ok who | Err e => Err (auth_problem e) end.

Definition requireAuth {S} (cn : connection) (db : Auth.Db) (now : Z) (next : Auth.Identity -> S -> outcome S) (r : incoming) (s : S) : reply * S :=
  match identify db now r with
  | Err p => (RProblem p, s)
  | Ok who => withRequestScope cn who next s
  end.

(** * decodeJSON *)

(** One value from the front of the input ([json.Decoder.Decode] into a Go value):
    the value and what follows, a syntax or type error, or an unfinished value. *)
Inductive decoded (A : Type) := Value (a : A) (rest : bytes) | Malformed | Unfinished.
Arguments Value {A}. Arguments Malformed {A}. Arguments Unfinished {A}.

Definition json_space (c : ascii) : bool := byte_in 32 32 c || byte_in 9 10 c || byte_in 13 13 c.
Definition max_body : nat := Nat.pow 2 20.

(** [media]: the media type of the request, [None] if it does not parse. *)
Definition decodeJSON {A} (decode : bytes -> decoded A) (media : option string) (body : bytes) : result Problem_ A :=
  match media with
  | Some m =>
      if negb (String.eqb m "application/json") then Err UnsupportedMediaType
      else
        let too_big := (max_body <? length body)%nat in
        match decode (take max_body body) with
        | Malformed => Err BadRequest
        | Unfinished => Err (if too_big then TooLarge else BadRequest)
        | Value a rest => if too_big || negb (forallb json_space rest) then Err BadRequest else Ok a
        end
  | None => Err UnsupportedMediaType
  end.

(** * Signing out and the second factor *)

(** [logout]: no body; the cookie is cleared. *)
Definition logout (token : string) (db : Auth.Db) : reply * Auth.Db :=
  if cf_proxy cf then (RProblem Forbidden, db) else (RDoc 204 None None JNull, Auth.Logout db token).

Context (service_key : bytes).

Definition throttled (a : Throttle.answer) : reply :=
  match a with
  | Throttle.Problem 403 => RProblem Forbidden
  | Throttle.Limited _ => RProblem RateLimited
  | _ => RProblem BadRequest
  end.

(** The frame of the three handlers: the throttle, the body, the service, whose work
    holds the one slot for passwords. *)
Definition totp_handler {A B} (m : Throttle.attempts) (who : Auth.Identity) (now_ns : Z) (busy : bool) (body : result Problem_ A)
    (work : A -> result Auth.auth_err (B * Auth.Db)) (answer : B -> json) (db : Auth.Db) : reply * Throttle.attempts * Auth.Db :=
  match Throttle.totpAllowed (negb (cf_proxy cf)) m (Auth.i_ID who) now_ns busy with
  | (Some a, m) => (throttled a, m, db)
  | (None, m) =>
      match body with
      | Err p => (RProblem p, m, db)
      | Ok inp => match work inp with
                  | Err e => (RProblem (auth_problem e), m, db)
                  | Ok (b, db') => (RDoc 200 None None (answer b), m, db')
                  end
      end
  end.

Definition seconds (now_ns : Z) : Z := now_ns / 10 ^ 9.

(** [enrollment]: the document of a new secret. *)
Definition totpEnroll (enrollment : bytes -> json) m who now_ns busy (body : result Problem_ string) (secret nonce : bytes) (db : Auth.Db) :=
  totp_handler m who now_ns busy body
    (fun password => Auth.Enroll service_key db (Auth.i_ID who) password (seconds now_ns) secret nonce) enrollment db.
Definition totpConfirm m who now_ns busy (body : result Problem_ string) (codes : list string) (nonce : bytes) (db : Auth.Db) :=
  totp_handler m who now_ns busy body
    (fun code => Auth.Confirm service_key db (Auth.i_ID who) code (seconds now_ns) codes nonce)
    (fun codes => JObj [("enabled", JBool true); ("recovery_codes", JArr (JStr <$> codes)); ("sign_in_required", JBool true)]) db.
Definition totpDisable m who now_ns busy (body : result Problem_ (string * string)) (db : Auth.Db) :=
  totp_handler m who now_ns busy body
    (fun pc => let* db' := Auth.Disable service_key db (Auth.i_ID who) pc.1 pc.2 (seconds now_ns) in Ok (tt, db'))
    (fun _ => JObj [("enabled", JBool false); ("sign_in_required", JBool true)]) db.

End auth.

(** * Health and metrics *)

(** [health]: 200 or 503 with the state of the database. *)
Definition health (reachable : bool) : Z * json :=
  (if reachable then 200 else 503,
   JObj [("alive", JBool true); ("database", JStr (if reachable then "reachable" else "unavailable"))]).

Record counters := mkCounters { ct_requests : Z; ct_inflight : Z; ct_seconds : string; ct_total : Z; ct_acquired : Z }.
Definition newline_ : string := String newline "".
Definition metric (name kind help value : string) : string :=
  "# HELP " +:+ name +:+ " " +:+ help +:+ newline_ +:+ "# TYPE " +:+ name +:+ " " +:+ kind +:+ newline_ +:+ name +:+ " " +:+ value +:+ newline_.
Definition metrics (who : Auth.Identity) (q : Cursor.query) (c : counters) : result Problem_ string :=
  if negb (String.eqb (Auth.i_Role who) "admin") then Err Forbidden
  else
    let* _ := Accounts.reject_fields q in
    Ok (metric "sierx_http_requests_total" "counter" "Completed HTTP requests including failed requests." (z_text (ct_requests c)) +:+
        metric "sierx_http_requests_in_flight" "gauge" "HTTP requests currently being handled including this scrape." (z_text (ct_inflight c)) +:+
        metric "sierx_http_request_duration_seconds_total" "counter" "Total elapsed time of completed HTTP requests in seconds." (ct_seconds c) +:+
        metric "sierx_database_connections" "gauge" "Total connections in the application database pool." (z_text (ct_total c)) +:+
        metric "sierx_database_connections_acquired" "gauge" "Connections currently acquired from the application database pool." (z_text (ct_acquired c))).

(** * Routes *)

Record route := mkRoute { rt_method : string; rt_pattern : string; rt_guarded : bool; rt_handler : string }.
Definition guarded (method pattern handler : string) : route := mkRoute method pattern true handler.

(** [New] and [ConfigureAuth] *)
Definition routes : list route :=
  [mkRoute "GET" "/api/v1/healthz" false "health"; mkRoute "POST" "/api/v1/auth/login" false "login";
   guarded "POST" "/api/v1/auth/logout" "logout"; guarded "GET" "/api/v1/me" "me"; guarded "PATCH" "/api/v1/me" "updateMe";
   guarded "POST" "/api/v1/auth/totp/enroll" "totpEnroll"; guarded "POST" "/api/v1/auth/totp/verify" "totpConfirm";
   guarded "POST" "/api/v1/auth/totp/disable" "totpDisable"; guarded "GET" "/api/v1/projects" "listProjects";
   guarded "POST" "/api/v1/projects" "createProject"; guarded "GET" "/api/v1/members" "listMembers";
   guarded "GET" "/api/v1/admin/members" "listAdminMembers"; guarded "POST" "/api/v1/admin/members" "addAdminMember";
   guarded "GET" "/api/v1/projects/{key}" "getProject"; guarded "PATCH" "/api/v1/projects/{key}" "updateProject";
   guarded "GET" "/api/v1/projects/{key}/config" "projectConfig"; guarded "PUT" "/api/v1/projects/{key}/config" "updateWorkflow";
   guarded "GET" "/api/v1/workspace" "workspaceSettings"; guarded "PATCH" "/api/v1/workspace" "updateWorkspaceSettings";
   guarded "GET" "/api/v1/items" "listItems"; guarded "POST" "/api/v1/items" "createItem"; guarded "GET" "/api/v1/items/{key}" "getItem";
   guarded "PATCH" "/api/v1/items/{key}" "updateItem"; guarded "DELETE" "/api/v1/items/{key}" "deleteItem";
   guarded "POST" "/api/v1/items/{key}/transition" "transitionItem"; guarded "POST" "/api/v1/items/{key}/move" "moveItem";
   guarded "GET" "/api/v1/items/{key}/links" "listLinks"; guarded "POST" "/api/v1/items/{key}/links" "createLink";
   guarded "DELETE" "/api/v1/links/{id}" "deleteLink"; guarded "GET" "/api/v1/comments" "listComments";
   guarded "POST" "/api/v1/comments" "createComment"; guarded "PATCH" "/api/v1/comments/{id}" "changeComment";
   guarded "DELETE" "/api/v1/comments/{id}" "changeComment"; guarded "GET" "/api/v1/items/{key}/children" "children";
   guarded "GET" "/api/v1/items/{key}/descendants" "descendants"; guarded "GET" "/api/v1/items/{key}/rollup" "itemRollup";
   guarded "GET" "/api/v1/items/{key}/history" "itemHistory"; guarded "GET" "/api/v1/sxq/complete" "completeSXQ";
   guarded "GET" "/api/v1/views" "listViews"; guarded "POST" "/api/v1/views" "createView"; guarded "GET" "/api/v1/changes" "changes";
   guarded "GET" "/api/v1/metrics" "metrics"].

Section router.
(** The router's match of a pattern and a path. *)
Context (matches : string -> string -> bool).

(** The route of a request; 404 and 405 otherwise. *)
Definition dispatch (method path : string) : result Problem_ route :=
  match List.find (fun rt => String.eqb (rt_method rt) method && matches (rt_pattern rt) path) routes with
  | Some rt => Ok rt
  | None => if existsb (fun rt => matches (rt_pattern rt) path) routes then Err MethodNotAllowed else Err NotFound
  end.

End router.

(** A request to the API: guarded routes run their handler behind [requireAuth]. *)
Section api.
Context {CR : Crypto} {AC : AuthCrypto} {CT : Codec Auth.totpState} {S : Type}.
Context (matches : string -> string -> bool) (cf : auth_config) (open_handler : string -> S -> reply * S) (handler : string -> Auth.Identity -> S -> outcome S).

Definition serve_api (cn : connection) (db : Auth.Db) (now : Z) (path : string) (r : incoming) (s : S) : reply * S :=
  match dispatch matches (in_method r) path with
  | Err p => (RProblem p, s)
  | Ok rt => if rt_guarded rt then requireAuth cf cn db now (handler (rt_handler rt)) r s else open_handler (rt_handler rt) s
  end.

End api.
End Scope.
