(* ===== verification/ScopeProps.v ===== *)
(** What the way into the endpoints promises: no guarded handler runs but for an
    active member with the role the account has, and when an answer is durable. *)
From S2P Require Import Prelude Utf8 Uuid Float Json Base64 Journal Auth AuthProps JournalDemo Throttle Db Problem Cursor Accounts Scope.
Open Scope Z_scope.
#[local] Set Warnings "-clear-no-such-hyp".

Module ScopeProps.
Import Db Problem AuthProps JournalDemo Scope.

Section props.
Context {CR : Crypto} {AC : AuthCrypto} {CT : Codec Auth.totpState}.

(** The account of an identity: active, with the workspace and role it names. *)
Definition authentic (db : Auth.Db) (who : Auth.Identity) : Prop :=
  exists a, Auth.accounts db !! Auth.i_ID who = Some a /\ Auth.is_active a = true /\
    (Auth.i_WorkspaceID who, Auth.i_Role who) ∈ Auth.members a.

Lemma Session_authentic db token now who : Auth.Session db token now = Ok who ->
  authentic db who /\ exists s, Auth.sessions db !! hex (sha256 (chars token)) = Some s /\ Auth.s_user s = Auth.i_ID who /\ now < Auth.expires_at s.
Proof.
  unfold Auth.Session. destruct (negb _); [done|]. destruct (Auth.sessions db !! _) as [s|] eqn:Hs; [|done].
  destruct (Auth.accounts db !! Auth.s_user s) as [a|] eqn:Ha; [|done]. destruct (Auth.members a) as [|m l] eqn:Hm; [done|].
  destruct (_ && _) eqn:E; [|done]. apply andb_prop in E as [Hnow%Z.ltb_lt Hact]. intros [= <-]. split.
  - exists a. split_and!; [done..|]. cbn. rewrite Hm, <- surjective_pairing. constructor.
  - by exists s.
Qed.

Lemma Proxy_authentic db peer emails trusted who : Auth.Proxy db peer emails trusted = Ok who ->
  authentic db who /\ exists p, peer = Some p /\ existsb (fun t => Auth.contains t (Auth.unmap p)) trusted = true.
Proof.
  unfold Auth.Proxy. destruct peer as [p|]; [|done]. destruct (existsb _ trusted) eqn:Et; cbn [negb]; [|done].
  destruct emails as [|email [|]]; [done| |done]. destruct (_ || _); [done|]. destruct (Auth.by_email db _) as [[id a]|] eqn:Hb; [|done].
  destruct (Auth.password_hash a); [done|]. destruct (Auth.members a) as [|m l] eqn:Hm; [done|]. intros [= <-].
  apply by_email_spec in Hb as (Ha & _ & Hact & _). split.
  - exists a. split_and!; [done..|]. cbn. rewrite Hm, <- surjective_pairing. constructor.
  - by exists p.
Qed.

(** An identity is only ever given to a same-origin or reading request that carries
    the token of a session that has not expired or comes through a trusted proxy. *)
Lemma identify_authentic cf db now r who : identify cf db now r = Ok who ->
  authentic db who /\
  (in_method r = "GET" \/ in_method r = "HEAD" \/ Throttle.validOrigin (cf_BaseURL cf) (in_Origin r) = true) /\
  if cf_proxy cf then exists p, in_peer r = Some p /\ existsb (fun t => Auth.contains t (Auth.unmap p)) (cf_trusted cf) = true
  else exists token s, in_cookie r = Some token /\ Auth.sessions db !! hex (sha256 (chars token)) = Some s /\
         Auth.s_user s = Auth.i_ID who /\ now < Auth.expires_at s.
Proof.
  unfold identify. destruct (negb (mem_str _ _) && negb _) eqn:Em; [done|]. intros E.
  assert (Horigin : in_method r = "GET" \/ in_method r = "HEAD" \/ Throttle.validOrigin (cf_BaseURL cf) (in_Origin r) = true).
  { apply andb_false_iff in Em as [Em%negb_false_iff|Em%negb_false_iff]; [|auto]. apply mem_str_spec in Em.
    apply elem_of_cons in Em as [->|Em%list_elem_of_singleton]; auto. }
  destruct (cf_proxy cf).
  - destruct (Auth.Proxy _ _ _ _) as [w|] eqn:Ep; [|done]. injection E as <-. apply Proxy_authentic in Ep as [? ?]. done.
  - destruct (in_cookie r) as [token|]; [|done]. destruct (Auth.Session db token now) as [w|] eqn:Es; [|done]. injection E as <-.
    apply Session_authentic in Es as [? (s & ?)]. split_and!; [done..|]. by exists token, s.
Qed.

(** C23. Nothing is answered and nothing is changed for a stranger: on every route but
    health and sign-in, either the answer is a problem and the state is as it was,
    or the handler ran for the identity of an active account, in a workspace and
    role that account has at that moment, after a check of the origin of a
    changing request; and the state is then the handler's or as it was. *)
Theorem serve_api_authentic {S : Type} matches cf (open_handler : string -> S -> reply * S) handler cn db now path r s rep s' rt :
  serve_api matches cf open_handler handler cn db now path r s = (rep, s') -> dispatch matches (in_method r) path = Ok rt ->
  rt_handler rt <> "health" -> rt_handler rt <> "login" ->
  (s' = s /\ exists p, rep = RProblem p) \/
  exists who, identify cf db now r = Ok who /\ authentic db who /\
    (in_method r = "GET" \/ in_method r = "HEAD" \/ Throttle.validOrigin (cf_BaseURL cf) (in_Origin r) = true) /\
    let out := handler (rt_handler rt) who s in rep = oc_reply out /\ (s' = s \/ s' = oc_state out).
Proof.
  unfold serve_api. intros E Hrt Hh Hl. rewrite Hrt in E.
  assert (Hg : rt_guarded rt = true).
  { unfold dispatch in Hrt. destruct (List.find _ routes) as [rt'|] eqn:Hf; [|by destruct (existsb _ routes)]. injection Hrt as ->.
    apply List.find_some in Hf as [Hin _].
    assert (Hall : forallb (fun rt => rt_guarded rt || String.eqb (rt_handler rt) "health" || String.eqb (rt_handler rt) "login") routes = true) by reflexivity.
    rewrite forallb_forall in Hall. specialize (Hall rt Hin). by rewrite (proj2 (String.eqb_neq _ _) Hh), (proj2 (String.eqb_neq _ _) Hl), !orb_false_r in Hall. }
  rewrite Hg in E. unfold requireAuth in E. destruct (identify cf db now r) as [who|p] eqn:Eid; cycle 1.
  { injection E as <- <-. left. eauto. }
  destruct (identify_authentic cf db now r who Eid) as (Ha & Ho & _). unfold withRequestScope in E.
  destruct (negb (cn_pool cn)); [injection E as <- <-; left; eauto|]. destruct (cn_begin cn) as [|e]; [|injection E as <- <-; left; eauto].
  destruct (cn_scope cn) as [|e]; [|injection E as <- <-; left; eauto]. injection E as <- <-. right. exists who. split_and!; try done.
  destruct (oc_commit _); [destruct (cn_commit cn)|..]; auto.
Qed.

(** ** When an answer is durable *)

Definition ready (commit : attempt_) : connection := mkConnection true (Ok tt) (Ok tt) commit.

(** A handler that leaves the commit to the scope answers the same whether the
    transaction is then committed or lost. *)
Theorem answered_before_commit {S : Type} (h : Auth.Identity -> S -> reply * S) who s e :
  withRequestScope (ready (Ok tt)) who (scoped h) s = h who s /\
  withRequestScope (ready (Err e)) who (scoped h) s = ((h who s).1, s).
Proof. unfold withRequestScope, scoped. cbn. by destruct (h who s). Qed.

(** One that commits first answers 201 for what is in the database, and only for
    that. *)
Theorem committed_before_answer {S : Type} (h : Auth.Identity -> S -> reply * S) who s commit last st et loc doc s' :
  withRequestScope (ready last) who (commits_first commit h) s = (RDoc st et loc doc, s') ->
  commit = Ok tt /\ h who s = (RDoc st et loc doc, s').
Proof.
  unfold withRequestScope, commits_first. cbn. destruct (h who s) as [[p|st' et' loc' doc'] s2]; [done|].
  destruct commit as [[]|e]; cbn; [|done]. intros [= <- <- <- <- <-]. done.
Qed.

End props.

(** * Examples *)

Definition demo_config : auth_config := mkAuthConfig false "https://sierx.example/" [].
Definition same_path (pattern path : string) : bool := String.eqb pattern path.
Definition open_demo (h : string) (s : nat) : reply * nat := (RDoc 200 None None JNull, s).
Definition demo_handler (h : string) (who : Auth.Identity) (s : nat) : outcome nat := mkOutcome (RDoc 201 None None (JStr (Auth.i_Role who))) (s + 1)%nat Later.
Definition signed_in : Auth.Db := demo_login.2.
Definition incoming_post (origin : string) (token : string) : incoming := mkIncoming "POST" (Some origin) (Some token) None [].
Definition serve_demo (r : incoming) : reply * nat :=
  serve_api same_path demo_config open_demo demo_handler (ready (Ok tt)) signed_in 4000 "/api/v1/projects" r 7%nat.

Example serve_api_ex :
  let show r := let '(rep, s) := serve_demo r in (reply_status rep, s) in
  (show (incoming_post "https://sierx.example" demo_login.1), show (incoming_post "https://evil.example" demo_login.1),
   show (incoming_post "https://sierx.example" "stolen")) = ((201, 8%nat), (403, 7%nat), (401, 7%nat)).
Proof. vm_compute. reflexivity. Qed.

Lemma serve_api_authentic_witness :
  let r := incoming_post "https://sierx.example" demo_login.1 in
  ((serve_demo r).2 = 7%nat /\ exists p, (serve_demo r).1 = RProblem p) \/
  exists who, identify demo_config signed_in 4000 r = Ok who /\ authentic signed_in who /\
    (in_method r = "GET" \/ in_method r = "HEAD" \/ Throttle.validOrigin (cf_BaseURL demo_config) (in_Origin r) = true) /\
    let out := demo_handler "createProject" who 7%nat in (serve_demo r).1 = oc_reply out /\ ((serve_demo r).2 = 7%nat \/ (serve_demo r).2 = oc_state out).
Proof.
  apply (serve_api_authentic same_path demo_config open_demo demo_handler (ready (Ok tt)) signed_in 4000 "/api/v1/projects"
           (incoming_post "https://sierx.example" demo_login.1) 7%nat _ _ (guarded "POST" "/api/v1/projects" "createProject")).
  - apply surjective_pairing.
  - reflexivity.
  - discriminate.
  - discriminate.
Defined.

End ScopeProps.
