(* ===== verification/Env.v ===== *)
(** The configuration of the server process ([internal/config/env.go]) and its
    start-up ([cmd/sierx/main.go]): which environments [Load] accepts, what it reads
    from them, and what has been verified by the time requests are served. *)
From S2P Require Import Prelude Utf8 Journal Auth Throttle Guard Scope.
Open Scope Z_scope.

Module Env.

(** * What Load calls *)

(** [*url.URL] through the fields and methods used: [User] with [Username] and
    [Password], [Hostname], [Port]. *)
Record URL := mkURL {
  Scheme : string; User : option (string * option string); Hostname : string; Port : string; Path : string;
  RawQuery : string; Fragment : string }.

Definition cidr_ok (p : Auth.prefix) : Prop :=
  0 <= Auth.p_bits p <= match Auth.p_addr p with Auth.V4 _ => 32 | Auth.V6 _ => 128 end.

(** The parsers, [None] for an error; a parsed prefix has a length its address has. *)
Class EnvLib := {
  url_Parse : string -> option URL;
  pgxpool_ParseConfig : string -> bool;
  ParsePrefix : string -> option Auth.prefix;
  ParseDuration : string -> option Z;
  SplitHostPort : string -> option (string * string);
  ResolveTCPAddr : string -> bool;
  ParsePrefix_ok : forall s p, ParsePrefix s = Some p -> cidr_ok p
}.

(** [netip.Prefix.Masked]: the bits below the prefix are cleared. *)
Definition Masked (p : Auth.prefix) : Auth.prefix :=
  let clear width z := Z.shiftl (Z.shiftr z (width - Auth.p_bits p)) (width - Auth.p_bits p) in
  match Auth.p_addr p with
  | Auth.V4 z => Auth.mkPrefix (Auth.V4 (clear 32 z)) (Auth.p_bits p)
  | Auth.V6 z => Auth.mkPrefix (Auth.V6 (clear 128 z)) (Auth.p_bits p)
  end.

(** * Env and Load *)

(** The notices a workspace shows are texts under their variables' names. *)
Record Env := mkEnv {
  RuntimeDatabaseURL : string; AuthDatabaseURL : string; AuthMode : string; RegistrationMode : string;
  TrustedProxies : list Auth.prefix; BaseURL : string; SessionKey : string; ListenAddr : string;
  LifecycleCheckTimeout : Z;
  OperatorName : string; PrivacyContact : string; PrivacyRetention : string; PrivacyBackups : string;
  PrivacyServices : string; PrivacyVersion : string; PrivacyEffectiveDate : string;
  CopyrightAgent : string; CopyrightContact : string; CopyrightNotice : string; CopyrightCounterNotice : string;
  RepeatInfringerPolicy : string }.

Definition Second : Z := 10 ^ 9.

(** The environment as it is read, before anything is checked. *)
Definition read_env (get : string -> string) (registration : string) (timeout : Z) (proxies : list Auth.prefix) (listen : string) : Env :=
  mkEnv (get "SIERX_RUNTIME_DATABASE_URL") (get "SIERX_AUTH_DATABASE_URL") (get "SIERX_AUTH_MODE") registration
    proxies (get "SIERX_BASE_URL") (get "SIERX_SESSION_KEY") listen timeout
    (get "SIERX_OPERATOR_NAME") (get "SIERX_PRIVACY_CONTACT") (get "SIERX_PRIVACY_RETENTION") (get "SIERX_PRIVACY_BACKUPS")
    (get "SIERX_PRIVACY_SERVICES") (get "SIERX_PRIVACY_VERSION") (get "SIERX_PRIVACY_EFFECTIVE_DATE")
    (get "SIERX_COPYRIGHT_AGENT") (get "SIERX_COPYRIGHT_CONTACT") (get "SIERX_COPYRIGHT_NOTICE_PROCESS")
    (get "SIERX_COPYRIGHT_COUNTER_NOTICE_PROCESS") (get "SIERX_REPEAT_INFRINGER_POLICY").

Definition is_empty (s : string) : bool := String.eqb s "".

Section load.
Context {EL : EnvLib}.

Definition postgres_url (u : URL) : bool :=
  negb (negb (String.eqb (Scheme u) "postgres") && negb (String.eqb (Scheme u) "postgresql") ||
        is_empty (Hostname u) || is_empty (Path u) || String.eqb (Path u) "/").
Definition parse_postgres (name raw : string) : result string URL :=
  match url_Parse raw with
  | Some u => if postgres_url u then Ok u else Err (name +:+ " must be a PostgreSQL URL")
  | None => Err (name +:+ " must be a PostgreSQL URL")
  end.
Definition check_settings (name raw : string) : result string unit :=
  if pgxpool_ParseConfig raw then Ok tt else Err (name +:+ " is malformed; check its connection settings").

Definition username (u : URL) : option string := fst <$> User u.
Definition has_password (u : URL) : bool :=
  match User u with Some (_, Some p) => negb (is_empty p) | _ => false end.
Definition port_or_default (u : URL) : string := if is_empty (Port u) then "5432" else Port u.
Definition same_target (u a : URL) : bool :=
  String.eqb (Hostname u) (Hostname a) && String.eqb (port_or_default u) (port_or_default a) && String.eqb (Path u) (Path a).

Definition origin_url (u : URL) : bool :=
  negb (negb (String.eqb (Scheme u) "http") && negb (String.eqb (Scheme u) "https") || is_empty (Hostname u) ||
        match User u with Some _ => true | None => false end || negb (is_empty (RawQuery u)) || negb (is_empty (Fragment u)) ||
        negb (is_empty (Path u)) && negb (String.eqb (Path u) "/")).

Definition check_timeout (get : string -> string) : result string Z :=
  let raw := trim_space (get "SIERX_LIFECYCLE_CHECK_TIMEOUT") in
  if is_empty raw then Ok Second
  else match ParseDuration raw with
       | Some v => if (v <? Second) || (10 * Second <? v)
                   then Err "SIERX_LIFECYCLE_CHECK_TIMEOUT must be a duration from 1s through 10s" else Ok v
       | None => Err "SIERX_LIFECYCLE_CHECK_TIMEOUT must be a duration from 1s through 10s"
       end.
Definition check_registration (get : string -> string) : result string string :=
  let raw := trim_space (get "SIERX_REGISTRATION_MODE") in
  let m := if is_empty raw then "private" else raw in
  if negb (String.eqb m "private") && negb (String.eqb m "invitation") && negb (String.eqb m "public")
  then Err "SIERX_REGISTRATION_MODE must be private, invitation, or public"
  else if negb (String.eqb m "private")
  then Err ("SIERX_REGISTRATION_MODE=" +:+ m +:+ " is not available: account admission routes and required safeguards are not implemented")
  else Ok m.

Definition required : list string :=
  ["SIERX_RUNTIME_DATABASE_URL"; "SIERX_AUTH_DATABASE_URL"; "SIERX_AUTH_MODE"; "SIERX_BASE_URL"; "SIERX_SESSION_KEY"].
Definition check_required (get : string -> string) : result string unit :=
  match List.find (fun name => is_empty (trim_space (get name))) required with
  | Some name => Err (name +:+ " is required; set the environment variable")
  | None => Ok tt
  end.

(** The two database URLs, in the order of their checks. *)
Definition check_databases (get : string -> string) : result string unit :=
  let runtime := get "SIERX_RUNTIME_DATABASE_URL" in
  let auth := get "SIERX_AUTH_DATABASE_URL" in
  let* u := parse_postgres "SIERX_RUNTIME_DATABASE_URL" runtime in
  let* _ := check_settings "SIERX_RUNTIME_DATABASE_URL" runtime in
  let* _ := check_settings "SIERX_AUTH_DATABASE_URL" auth in
  let* a := parse_postgres "SIERX_AUTH_DATABASE_URL" auth in
  if negb (bool_decide (username u = Some "sierx_runtime") && bool_decide (username a = Some "sierx_auth"))
  then Err "SIERX_RUNTIME_DATABASE_URL and SIERX_AUTH_DATABASE_URL must use the dedicated sierx_runtime and sierx_auth roles"
  else if negb (has_password u && has_password a)
  then Err "SIERX_RUNTIME_DATABASE_URL and SIERX_AUTH_DATABASE_URL must include their dedicated role passwords"
  else if negb (same_target u a)
  then Err "SIERX_RUNTIME_DATABASE_URL and SIERX_AUTH_DATABASE_URL must target the same database"
  else Ok tt.

Definition check_origin (get : string -> string) : result string unit :=
  match url_Parse (get "SIERX_BASE_URL") with
  | Some u => if origin_url u then Ok tt else Err "SIERX_BASE_URL must be an HTTP or HTTPS origin"
  | None => Err "SIERX_BASE_URL must be an HTTP or HTTPS origin"
  end.

Fixpoint parse_prefixes (l : list string) : result string (list Auth.prefix) :=
  match l with
  | [] => Ok []
  | raw :: l =>
      match ParsePrefix (trim_space raw) with
      | None => Err "SIERX_TRUSTED_PROXIES must be comma-separated CIDRs"
      | Some p => let* ps := parse_prefixes l in Ok (Masked p :: ps)
      end
  end.
Definition check_proxies (get : string -> string) : result string (list Auth.prefix) :=
  if String.eqb (get "SIERX_AUTH_MODE") "proxy" then
    if is_empty (trim_space (get "SIERX_TRUSTED_PROXIES")) then Err "SIERX_TRUSTED_PROXIES is required in proxy mode"
    else parse_prefixes (str_split "," (get "SIERX_TRUSTED_PROXIES"))
  else Ok [].

Definition check_listen (get : string -> string) : result string string :=
  let addr := if is_empty (get "SIERX_LISTEN_ADDR") then ":8080" else get "SIERX_LISTEN_ADDR" in
  match SplitHostPort addr with
  | Some (_, port) =>
      if is_empty port then Err "SIERX_LISTEN_ADDR must be host:port"
      else if ResolveTCPAddr addr then Ok addr else Err "SIERX_LISTEN_ADDR is invalid"
  | None => Err "SIERX_LISTEN_ADDR must be host:port"
  end.

Definition Load (get : string -> string) : result string Env :=
  let* timeout := check_timeout get in
  let* registration := check_registration get in
  let* _ := check_required get in
  let* _ := check_databases get in
  let* _ := if negb (String.eqb (get "SIERX_AUTH_MODE") "local") && negb (String.eqb (get "SIERX_AUTH_MODE") "proxy")
            then Err "SIERX_AUTH_MODE must be local or proxy" else Ok tt in
  let* _ := check_origin get in
  let* _ := if (String.length (get "SIERX_SESSION_KEY") <? 32)%nat
            then Err "SIERX_SESSION_KEY must contain at least 32 bytes; generate a random secret" else Ok tt in
  let* proxies := check_proxies get in
  let* listen := check_listen get in
  Ok (read_env get registration timeout proxies listen).

(** * main *)

(** [auth.New] derives the service's key from the session key; [ConfigureAuth] takes
    the mode, the origin and the proxies. *)
Definition auth_config_of (c : Env) : Scope.auth_config :=
  Scope.mkAuthConfig (String.eqb (AuthMode c) "proxy") (BaseURL c) (TrustedProxies c).
Definition service_key {CR : Crypto} (c : Env) : bytes := sha256 (chars ("sierx-totp-v1:" +:+ SessionKey c)).

(** [lifecycle.NewGuard]: the files it will read. *)
Definition NewGuard (get : string -> string) : result string (string * string) :=
  let c := get "SIERX_LIFECYCLE_CHECKPOINT" in
  let k := get "SIERX_LIFECYCLE_GUARD_KEY_FILE" in
  if is_empty c || is_empty k || String.eqb c k
  then Err "SIERX_LIFECYCLE_CHECKPOINT and SIERX_LIFECYCLE_GUARD_KEY_FILE are required before serving"
  else Ok (c, k).

(** What the process meets while it starts: whether each pool can be created, the
    guard's files as [Lstat] and a read see them, the database's head, whether the
    address can be listened on, and whether [Serve] ends without an error. *)
Record surroundings := mkSurroundings {
  su_runtime : bool; su_auth : bool; su_files : string -> option (Guard.FileInfo * Journal.file);
  su_head : option Journal.Head_; su_listen : bool; su_serve : bool }.

(** A server that runs: its configuration and its guard after the first check. *)
Record server := mkServer { sv_env : Env; sv_auth : Scope.auth_config; sv_timeout : Z; sv_guard : Guard.Guard_ }.

(** [main]: the log, the exit code and the server it ran. *)
Definition main_ {CR : Crypto} {CH : Codec Journal.Head_} (get : string -> string) (su : surroundings) : list string * Z * option server :=
  match Load get with
  | Err e => (["configuration rejected"; e], 1, None)
  | Ok c =>
      if negb (su_runtime su) then (["runtime database pool could not be created; check SIERX_RUNTIME_DATABASE_URL"], 1, None)
      else if negb (su_auth su) then (["authentication database pool could not be created; check SIERX_AUTH_DATABASE_URL"], 1, None)
      else match NewGuard get with
      | Err _ => (["lifecycle recovery configuration is required"], 1, None)
      | Ok (checkpoint, key) =>
          match Guard.Check_ Guard.NewGuard (Guard.mkSnapshot (su_files su checkpoint) (su_files su key)) (su_head su) with
          | (Err _, _) => (["lifecycle recovery verification failed; reconcile before serving"], 1, None)
          | (Ok _, g) =>
              if negb (su_listen su) then (["server could not listen; check SIERX_LISTEN_ADDR"], 1, None)
              else
                let s := mkServer c (auth_config_of c) (LifecycleCheckTimeout c) g in
                if su_serve su then (["server ready"; "server stopped"], 0, Some s)
                else (["server ready"; "server stopped with an error"], 1, Some s)
          end
      end
  end.

End load.

End Env.
