(* ===== verification/EnvProps.v ===== *)
(** Which environments are accepted, what an error can say, and what a serving
    process has verified. *)
From S2P Require Import Prelude Utf8 Json Journal Auth Throttle Guard Scope JournalDemo AuthProps Env.
Open Scope Z_scope.

Module EnvProps.
Import Env JournalDemo.

Lemma is_empty_spec s : is_empty s = true <-> s = "".
Proof. apply String.eqb_eq. Qed.
Lemma is_empty_false s : is_empty s = false <-> s <> "".
Proof. unfold is_empty. by rewrite String.eqb_neq. Qed.
Ltac flags := rewrite ?negb_orb, ?andb_true_iff, ?orb_true_iff, ?orb_false_iff, ?negb_involutive, ?negb_true_iff, ?negb_false_iff,
  ?andb_false_iff, ?String.eqb_eq, ?String.eqb_neq, ?is_empty_spec, ?is_empty_false, ?bool_decide_eq_true, ?Z.ltb_lt, ?Z.ltb_ge.

(** * Masking *)

Lemma shift_clear z k : 0 <= k -> Z.shiftr (Z.shiftl (Z.shiftr z k) k) k = Z.shiftr z k.
Proof. intros Hk. rewrite Z.shiftr_shiftl_l by done. by rewrite Z.sub_diag, Z.shiftl_0_r. Qed.
Lemma Masked_contains p a : cidr_ok p -> Auth.contains (Masked p) a = Auth.contains p a.
Proof.
  intros Hp. unfold cidr_ok in Hp. unfold Masked, Auth.contains. destruct (Auth.p_addr p) as [z|z]; cbn [Auth.p_addr Auth.p_bits];
    destruct a; rewrite ?shift_clear by lia; done.
Qed.

Ltac ok_step v H :=
  match goal with |- match ?x with Ok _ => _ | Err _ => _ end = _ -> _ => destruct x as [v|] eqn:H; [|done] end.

Section load.
Context {EL : EnvLib}.

Lemma parse_prefixes_spec l ps :
  parse_prefixes l = Ok ps <-> Forall2 (fun raw p => exists q, ParsePrefix (trim_space raw) = Some q /\ p = Masked q) l ps.
Proof.
  revert ps. induction l as [|raw l IH]; intros ps; cbn [parse_prefixes].
  - split; [intros [= <-]; constructor|by inversion 1].
  - destruct (ParsePrefix (trim_space raw)) as [q|] eqn:E.
    + split.
      * destruct (parse_prefixes l) as [qs|]; cbn; [|discriminate]. intros [= <-]. constructor; [by exists q|by apply IH].
      * inversion 1 as [|? p ? qs (q' & Hq & ->) Hr]; subst. apply IH in Hr. rewrite Hr. cbn. congruence.
    + split; [discriminate|]. inversion 1 as [|? p ? qs (q' & Hq & ->) Hr]; subst. congruence.
Qed.

(** * Accepted environments *)

(** A PostgreSQL URL of the role [role] with its password. *)
Record database_url (role raw : string) (u : URL) : Prop := {
  du_parsed : url_Parse raw = Some u;
  du_settings : pgxpool_ParseConfig raw = true;
  du_scheme : Scheme u = "postgres" \/ Scheme u = "postgresql";
  du_host : Hostname u <> "";
  du_database : Path u <> "" /\ Path u <> "/";
  du_role : exists pw, User u = Some (role, Some pw) /\ pw <> ""
}.

(** What [Load] demands of the environment and what it makes of it. *)
Record accepted (get : string -> string) (c : Env) : Prop := {
  ac_read : c = read_env get "private" (LifecycleCheckTimeout c) (TrustedProxies c) (ListenAddr c);
  ac_registration : trim_space (get "SIERX_REGISTRATION_MODE") = "" \/ trim_space (get "SIERX_REGISTRATION_MODE") = "private";
  ac_timeout : let raw := trim_space (get "SIERX_LIFECYCLE_CHECK_TIMEOUT") in
               if is_empty raw then LifecycleCheckTimeout c = Second
               else ParseDuration raw = Some (LifecycleCheckTimeout c) /\ Second <= LifecycleCheckTimeout c <= 10 * Second;
  ac_required : forall name, name ∈ required -> trim_space (get name) <> "";
  ac_databases : exists u a, database_url "sierx_runtime" (RuntimeDatabaseURL c) u /\ database_url "sierx_auth" (AuthDatabaseURL c) a /\
                             Hostname u = Hostname a /\ port_or_default u = port_or_default a /\ Path u = Path a;
  ac_mode : AuthMode c = "local" \/ AuthMode c = "proxy";
  ac_origin : exists u, url_Parse (BaseURL c) = Some u /\ (Scheme u = "http" \/ Scheme u = "https") /\ Hostname u <> "" /\
                        User u = None /\ RawQuery u = "" /\ Fragment u = "" /\ (Path u = "" \/ Path u = "/");
  ac_key : (32 <= String.length (SessionKey c))%nat;
  ac_proxies : if String.eqb (AuthMode c) "proxy"
               then trim_space (get "SIERX_TRUSTED_PROXIES") <> "" /\
                    Forall2 (fun raw p => exists q, ParsePrefix (trim_space raw) = Some q /\ p = Masked q)
                      (str_split "," (get "SIERX_TRUSTED_PROXIES")) (TrustedProxies c)
               else TrustedProxies c = [];
  ac_listen : ListenAddr c = (if is_empty (get "SIERX_LISTEN_ADDR") then ":8080" else get "SIERX_LISTEN_ADDR") /\
              ResolveTCPAddr (ListenAddr c) = true /\
              exists host port, SplitHostPort (ListenAddr c) = Some (host, port) /\ port <> ""
}.

Lemma check_timeout_spec get v :
  check_timeout get = Ok v <->
  let raw := trim_space (get "SIERX_LIFECYCLE_CHECK_TIMEOUT") in
  if is_empty raw then v = Second else ParseDuration raw = Some v /\ Second <= v <= 10 * Second.
Proof.
  unfold check_timeout. cbv zeta. destruct (is_empty _); [split; [by intros [= <-]|by intros ->]|].
  destruct (ParseDuration _) as [w|]; [|split; [discriminate|by intros [? _]]].
  destruct (_ || _) eqn:E; revert E; flags; intros E; (split; [|]).
  - discriminate.
  - intros [[= ->] ?]. lia.
  - intros [= <-]. split; [done|lia].
  - by intros [[= ->] _].
Qed.
Lemma check_registration_spec get m :
  check_registration get = Ok m <->
  m = "private" /\ (trim_space (get "SIERX_REGISTRATION_MODE") = "" \/ trim_space (get "SIERX_REGISTRATION_MODE") = "private").
Proof.
  unfold check_registration. cbv zeta. set (raw := trim_space _). destruct (is_empty raw) eqn:E.
  - apply is_empty_spec in E. cbn. split; [intros [= <-]; auto|by intros [-> _]].
  - apply is_empty_false in E. destruct (String.eqb raw "private") eqn:E2; cbn.
    + apply String.eqb_eq in E2. split; [intros [= <-]; auto|by intros [-> _]; rewrite E2].
    + apply String.eqb_neq in E2. split; [by destruct (negb _ && _)|intros [_ [?|?]]; contradiction].
Qed.
Lemma check_required_spec get u : check_required get = Ok u <-> forall name, name ∈ required -> trim_space (get name) <> "".
Proof.
  unfold check_required. destruct (List.find _ _) as [name|] eqn:E.
  - apply List.find_some in E as [Hin Hn]. apply is_empty_spec in Hn. apply list_elem_of_In in Hin.
    split; [discriminate|]. intros Hall. by destruct (Hall name Hin).
  - destruct u. split; [|done]. intros _ name Hin. apply is_empty_false.
    exact (List.find_none _ _ E name (proj1 (list_elem_of_In _ _) Hin)).
Qed.

Lemma postgres_url_spec u :
  postgres_url u = true <-> (Scheme u = "postgres" \/ Scheme u = "postgresql") /\ Hostname u <> "" /\ Path u <> "" /\ Path u <> "/".
Proof.
  unfold postgres_url. rewrite negb_true_iff, !orb_false_iff, andb_false_iff, !negb_false_iff, !is_empty_false, String.eqb_neq, !String.eqb_eq.
  tauto.
Qed.
Lemma parse_postgres_spec name raw u :
  parse_postgres name raw = Ok u <->
  url_Parse raw = Some u /\ (Scheme u = "postgres" \/ Scheme u = "postgresql") /\ Hostname u <> "" /\ Path u <> "" /\ Path u <> "/".
Proof.
  unfold parse_postgres. rewrite <- postgres_url_spec. destruct (url_Parse raw) as [v|]; [|split; [done|by intros [? _]]].
  destruct (postgres_url v) eqn:E; split; try discriminate; [by intros [= <-]|by intros [[= <-] _]|].
  intros [[= <-] ?]. congruence.
Qed.
Lemma role_spec (u : URL) role : username u = Some role /\ has_password u = true <-> exists pw, User u = Some (role, Some pw) /\ pw <> "".
Proof.
  unfold username, has_password. split.
  - intros [Hn Hp]. destruct (User u) as [[n [pw|]]|]; cbn in *; try done. simplify_eq. exists pw. split; [done|].
    apply is_empty_false. by destruct (is_empty pw).
  - intros (pw & -> & Hp). cbn. split; [done|]. by rewrite (proj2 (is_empty_false pw)).
Qed.
Lemma same_target_spec u a :
  same_target u a = true <-> Hostname u = Hostname a /\ port_or_default u = port_or_default a /\ Path u = Path a.
Proof. unfold same_target. rewrite !andb_true_iff, !String.eqb_eq. tauto. Qed.

Lemma check_databases_spec get t :
  check_databases get = Ok t <->
  exists u a, database_url "sierx_runtime" (get "SIERX_RUNTIME_DATABASE_URL") u /\ database_url "sierx_auth" (get "SIERX_AUTH_DATABASE_URL") a /\
              Hostname u = Hostname a /\ port_or_default u = port_or_default a /\ Path u = Path a.
Proof.
  unfold check_databases, check_settings. cbv zeta. split.
  - destruct (parse_postgres _ (get "SIERX_RUNTIME_DATABASE_URL")) as [u|] eqn:Hu; cbn; [|done].
    destruct (pgxpool_ParseConfig _) eqn:Hc1; cbn; [|done]. destruct (pgxpool_ParseConfig (get "SIERX_AUTH_DATABASE_URL")) eqn:Hc2; cbn; [|done].
    destruct (parse_postgres _ (get "SIERX_AUTH_DATABASE_URL")) as [a|] eqn:Ha; cbn; [|done].
    match goal with |- (if ?b then _ else _) = _ -> _ => destruct b eqn:Hr; [done|] end.
    match goal with |- (if ?b then _ else _) = _ -> _ => destruct b eqn:Hp; [done|] end.
    match goal with |- (if ?b then _ else _) = _ -> _ => destruct b eqn:Hs; [done|] end. intros _.
    apply negb_false_iff, andb_true_iff in Hr as [H1%bool_decide_eq_true H2%bool_decide_eq_true].
    apply negb_false_iff, andb_true_iff in Hp as [H3 H4]. apply negb_false_iff, same_target_spec in Hs.
    apply parse_postgres_spec in Hu as (? & ? & ? & ? & ?), Ha as (? & ? & ? & ? & ?).
    exists u, a. split_and!; try (split; try done; by apply role_spec). all: apply Hs.
  - intros (u & a & [] & [] & Hs). rewrite (proj2 (parse_postgres_spec _ _ u)) by tauto. cbn. rewrite du_settings0, du_settings1. cbn.
    rewrite (proj2 (parse_postgres_spec _ _ a)) by tauto. cbn.
    apply role_spec in du_role0 as [-> ->], du_role1 as [-> ->]. rewrite !bool_decide_true by done. cbn.
    rewrite (proj2 (same_target_spec u a)) by tauto. by destruct t.
Qed.

Lemma check_origin_spec get t :
  check_origin get = Ok t <->
  exists u, url_Parse (get "SIERX_BASE_URL") = Some u /\ (Scheme u = "http" \/ Scheme u = "https") /\ Hostname u <> "" /\
            User u = None /\ RawQuery u = "" /\ Fragment u = "" /\ (Path u = "" \/ Path u = "/").
Proof.
  unfold check_origin. destruct t, (url_Parse _) as [u|]; [|split; [done|by intros (? & ? & _)]].
  assert (Hs : origin_url u = true <-> (Scheme u = "http" \/ Scheme u = "https") /\ Hostname u <> "" /\ User u = None /\
                 RawQuery u = "" /\ Fragment u = "" /\ (Path u = "" \/ Path u = "/")).
  { unfold origin_url. rewrite negb_true_iff, !orb_false_iff, !andb_false_iff, !negb_false_iff, is_empty_false, !is_empty_spec, !String.eqb_eq.
    destruct (User u); intuition done. }
  destruct (origin_url u); split; try done; [intros _; exists u; by split; [|apply Hs]|].
  intros (v & [= <-] & Hv). by apply Hs in Hv.
Qed.

Lemma check_proxies_spec get ps :
  check_proxies get = Ok ps <->
  if String.eqb (get "SIERX_AUTH_MODE") "proxy"
  then trim_space (get "SIERX_TRUSTED_PROXIES") <> "" /\
       Forall2 (fun raw p => exists q, ParsePrefix (trim_space raw) = Some q /\ p = Masked q) (str_split "," (get "SIERX_TRUSTED_PROXIES")) ps
  else ps = [].
Proof.
  unfold check_proxies. destruct (String.eqb _ _); [|split; [by intros [= <-]|by intros ->]].
  rewrite <- is_empty_false, <- parse_prefixes_spec. destruct (is_empty _); [split; [done|by intros [? _]]|tauto].
Qed.

Lemma check_listen_spec get a :
  check_listen get = Ok a <->
  a = (if is_empty (get "SIERX_LISTEN_ADDR") then ":8080" else get "SIERX_LISTEN_ADDR") /\ ResolveTCPAddr a = true /\
  exists host port, SplitHostPort a = Some (host, port) /\ port <> "".
Proof.
  unfold check_listen. cbv zeta. set (addr := if is_empty _ then _ else _). split.
  - destruct (SplitHostPort addr) as [[host port]|] eqn:Es; [|done]. destruct (is_empty port) eqn:Ep; [done|].
    destruct (ResolveTCPAddr addr) eqn:Er; [|done]. intros [= <-]. split_and!; [done|done|]. exists host, port. split; [done|by apply is_empty_false].
  - intros (-> & Hr & host & port & -> & Hp). by rewrite (proj2 (is_empty_false port) Hp), Hr.
Qed.

Lemma ensure {E} (b : bool) (e : E) t : (if b then Err e else Ok tt) = Ok t <-> b = false.
Proof. destruct b, t; by split. Qed.

Lemma Load_accepted get c : Load get = Ok c -> accepted get c.
Proof.
  unfold Load.
  ok_step t Ht. ok_step r Hr. ok_step x0 Hq. ok_step x1 Hd. ok_step x2 Hm. ok_step x3 Ho. ok_step x4 Hk. ok_step ps Hp.
  ok_step a Ha. intros [= <-].
  apply check_registration_spec in Hr as [-> Hr]. rewrite ensure in Hm, Hk. apply Nat.ltb_ge in Hk.
  rewrite andb_false_iff, !negb_false_iff, !String.eqb_eq in Hm.
  split; cbn; [done|done|by apply check_timeout_spec|by eapply check_required_spec|by eapply check_databases_spec|tauto|
               by eapply check_origin_spec|done|by apply check_proxies_spec|by apply check_listen_spec].
Qed.
Lemma accepted_Load get c : accepted get c -> Load get = Ok c.
Proof.
  unfold Load.
  intros []. rewrite ac_read0 in ac_databases0, ac_mode0, ac_origin0, ac_key0, ac_proxies0.
  cbn [read_env RuntimeDatabaseURL AuthDatabaseURL AuthMode BaseURL SessionKey TrustedProxies] in *.
  assert (Hm : negb (String.eqb (get "SIERX_AUTH_MODE") "local") && negb (String.eqb (get "SIERX_AUTH_MODE") "proxy") = false)
    by by destruct ac_mode0 as [-> | ->].
  rewrite (proj2 (check_timeout_spec get _) ac_timeout0), (proj2 (check_registration_spec get "private")) by done.
  rewrite (proj2 (check_required_spec get tt) ac_required0), (proj2 (check_databases_spec get tt) ac_databases0), Hm,
    (proj2 (check_origin_spec get tt) ac_origin0), (proj2 (Nat.ltb_ge _ _) ac_key0), (proj2 (check_proxies_spec get _) ac_proxies0),
    (proj2 (check_listen_spec get _) ac_listen0).
  by rewrite <- ac_read0.
Qed.

(** [Load] accepts an environment exactly when it meets every demand of
    [accepted], and returns exactly what it read, with the defaults filled in: only
    private registration, two URLs of the dedicated roles with their passwords on
    one database, an origin without path or credentials, a session key of 32 bytes,
    a guard timeout of one to ten seconds, proxies (masked) only in proxy mode and at
    least one there, and an address with a port. *)
Theorem Load_exact get c : Load get = Ok c <-> accepted get c.
Proof. split; [apply Load_accepted|apply accepted_Load]. Qed.

(** In proxy mode the addresses trusted are those the operator wrote: masking
    changes no answer. *)
Theorem trusted_as_written get c a :
  Load get = Ok c -> AuthMode c = "proxy" ->
  existsb (fun p => Auth.contains p a) (TrustedProxies c) =
  existsb (fun raw => match ParsePrefix (trim_space raw) with Some q => Auth.contains q a | None => false end)
    (str_split "," (get "SIERX_TRUSTED_PROXIES")).
Proof.
  intros Hl Hm. apply Load_accepted in Hl. pose proof (ac_proxies _ _ Hl) as Hp. rewrite Hm in Hp. destruct Hp as [_ Hf].
  induction Hf as [|raw p l ps (q & Hq & ->) _ IH]; [done|]. cbn [existsb]. rewrite Hq, IH.
  by rewrite Masked_contains by by eapply ParsePrefix_ok.
Qed.

(** * What an error can say *)

Definition listed_error (e : string) : bool := mem_str e
  (((fun name => name +:+ " is required; set the environment variable") <$> required) ++
   ["SIERX_LIFECYCLE_CHECK_TIMEOUT must be a duration from 1s through 10s";
    "SIERX_REGISTRATION_MODE must be private, invitation, or public";
    "SIERX_REGISTRATION_MODE=invitation is not available: account admission routes and required safeguards are not implemented";
    "SIERX_REGISTRATION_MODE=public is not available: account admission routes and required safeguards are not implemented";
    "SIERX_RUNTIME_DATABASE_URL must be a PostgreSQL URL"; "SIERX_AUTH_DATABASE_URL must be a PostgreSQL URL";
    "SIERX_RUNTIME_DATABASE_URL is malformed; check its connection settings";
    "SIERX_AUTH_DATABASE_URL is malformed; check its connection settings";
    "SIERX_RUNTIME_DATABASE_URL and SIERX_AUTH_DATABASE_URL must use the dedicated sierx_runtime and sierx_auth roles";
    "SIERX_RUNTIME_DATABASE_URL and SIERX_AUTH_DATABASE_URL must include their dedicated role passwords";
    "SIERX_RUNTIME_DATABASE_URL and SIERX_AUTH_DATABASE_URL must target the same database";
    "SIERX_AUTH_MODE must be local or proxy"; "SIERX_BASE_URL must be an HTTP or HTTPS origin";
    "SIERX_SESSION_KEY must contain at least 32 bytes; generate a random secret";
    "SIERX_TRUSTED_PROXIES is required in proxy mode"; "SIERX_TRUSTED_PROXIES must be comma-separated CIDRs";
    "SIERX_LISTEN_ADDR must be host:port"; "SIERX_LISTEN_ADDR is invalid"]).

Definition says_listed {A} (r : result string A) : Prop := forall e, r = Err e -> listed_error e = true.
Lemma says_ok {A} (x : A) : says_listed (Ok x).
Proof. done. Qed.
Lemma says_err {A} e : listed_error e = true -> says_listed (Err (A := A) e).
Proof. by intros H e' [= <-]. Qed.
Lemma says_bind {A B} (m : result string A) (k : A -> result string B) :
  says_listed m -> (forall x, says_listed (k x)) -> says_listed (let* x := m in k x).
Proof. intros Hm Hk. destruct m as [x|e]; [apply Hk|]. intros e' [= <-]. by apply Hm. Qed.
Ltac listed_err := apply says_err; vm_compute; reflexivity.
Ltac listed_step :=
  first [apply says_bind; [|intros ?] | apply says_ok | listed_err
        | match goal with |- says_listed (match ?x with _ => _ end) => destruct x eqn:? end].

Lemma registration_listed get : says_listed (check_registration get).
Proof.
  unfold check_registration. cbv zeta. set (m := if is_empty _ then _ else _). clearbody m.
  destruct (negb (String.eqb m "private") && _ && _) eqn:E; [listed_err|]. destruct (negb (String.eqb m "private")) eqn:E2; [|apply says_ok].
  rewrite andb_true_l, andb_false_iff, !negb_false_iff, !String.eqb_eq in E. destruct E as [-> | ->]; listed_err.
Qed.
Lemma required_listed get : says_listed (check_required get).
Proof.
  unfold check_required. destruct (List.find _ _) as [name|] eqn:E; [|apply says_ok]. apply List.find_some in E as [Hin _].
  unfold required in Hin. cbn in Hin. repeat destruct Hin as [<- | Hin]; try listed_err. done.
Qed.
Lemma prefixes_listed l : says_listed (parse_prefixes l).
Proof. induction l as [|raw l IH]; cbn [parse_prefixes]; repeat first [exact IH|listed_step]. Qed.
Lemma databases_listed get : says_listed (check_databases get).
Proof. unfold check_databases, parse_postgres, check_settings. cbv zeta. repeat listed_step. Qed.

(** Whatever the environment holds, an error of [Load] is one of a fixed list of
    texts: it names variables and never quotes a URL, a password, a key or any other
    value. *)
Theorem Load_errors_listed get e : Load get = Err e -> listed_error e = true.
Proof.
  revert e. change (says_listed (Load get)). unfold Load, check_timeout, check_origin, check_proxies, check_listen. cbv zeta.
  repeat first [apply registration_listed|apply required_listed|apply prefixes_listed|apply databases_listed|listed_step].
Qed.

(** * Start-up *)

Context {CR : Crypto} {CH : Codec Journal.Head_}.

(** A process that serves has an accepted environment and a guard whose files were
    read and authenticated, and found to name the database's head; one that does not
    serve exits with an error, and a clean exit means it served. *)
Theorem main_verified get su log code run :
  main_ get su = (log, code, run) ->
  match run with
  | None => code = 1
  | Some s =>
      Load get = Ok (sv_env s) /\ sv_auth s = auth_config_of (sv_env s) /\ sv_timeout s = LifecycleCheckTimeout (sv_env s) /\
      exists checkpoint key, NewGuard get = Ok (checkpoint, key) /\
        Guard.check_uncached (Guard.mkSnapshot (su_files su checkpoint) (su_files su key)) (su_head su) = Ok tt
  end.
Proof.
  unfold main_. destruct (Load get) as [c|]; [|by intros [= <- <- <-]]. destruct (negb (su_runtime su)); [by intros [= <- <- <-]|].
  destruct (negb (su_auth su)); [by intros [= <- <- <-]|]. destruct (NewGuard get) as [[checkpoint key]|]; [|by intros [= <- <- <-]].
  destruct (Guard.Check_ _ _ _) as [[[]|e] g] eqn:Eg; [|by intros [= <- <- <-]].
  destruct (negb (su_listen su)); [by intros [= <- <- <-]|].
  assert (Hc : Guard.check_uncached (Guard.mkSnapshot (su_files su checkpoint) (su_files su key)) (su_head su) = Ok tt)
    by (unfold Guard.check_uncached; by rewrite Eg).
  destruct (su_serve su); intros [= <- <- <-]; split_and!; try done; by exists checkpoint, key.
Qed.

End load.

(** * A run *)

Definition demo_url (host : string) (user : option (string * option string)) (scheme path : string) : URL :=
  mkURL scheme user host "" path "" "".
#[local] Program Instance demo_lib : EnvLib := {
  url_Parse s :=
    if String.eqb s "postgres://sierx_runtime:a@db/sierx" then Some (demo_url "db" (Some ("sierx_runtime", Some "a")) "postgres" "/sierx")
    else if String.eqb s "postgres://sierx_auth:b@db/sierx" then Some (demo_url "db" (Some ("sierx_auth", Some "b")) "postgres" "/sierx")
    else if String.eqb s "https://sierx.example.test" then Some (demo_url "sierx.example.test" None "https" "") else None;
  pgxpool_ParseConfig _ := true;
  ParsePrefix s := if String.eqb s "10.1.2.3/8" then Some (Auth.mkPrefix (Auth.V4 167838211) 8) else None;
  ParseDuration s := if String.eqb s "1500ms" then Some 1500000000 else if String.eqb s "1m" then Some 60000000000 else None;
  SplitHostPort s := if String.eqb s ":8080" then Some ("", "8080") else None;
  ResolveTCPAddr _ := true
}.
Next Obligation. intros s p. cbn. destruct (String.eqb _ _); [|done]. intros [= <-]. unfold cidr_ok. cbn. lia. Qed.

Definition proxied (timeout : string) (k : string) : string :=
  default "" (obj_get k
    [("SIERX_RUNTIME_DATABASE_URL", "postgres://sierx_runtime:a@db/sierx"); ("SIERX_AUTH_DATABASE_URL", "postgres://sierx_auth:b@db/sierx");
     ("SIERX_AUTH_MODE", "proxy"); ("SIERX_BASE_URL", "https://sierx.example.test"); ("SIERX_SESSION_KEY", "0123456789abcdef0123456789abcdef");
     ("SIERX_TRUSTED_PROXIES", " 10.1.2.3/8"); ("SIERX_LIFECYCLE_CHECK_TIMEOUT", timeout);
     ("SIERX_LIFECYCLE_CHECKPOINT", "checkpoint"); ("SIERX_LIFECYCLE_GUARD_KEY_FILE", "key")]).
Definition loaded : Env := read_env (proxied "1500ms") "private" 1500000000 [Auth.mkPrefix (Auth.V4 167772160) 8] ":8080".

Example load_ex :
  (Load (proxied "1500ms"), Load (proxied "1m")) =
  (Ok loaded, Err "SIERX_LIFECYCLE_CHECK_TIMEOUT must be a duration from 1s through 10s").
Proof. vm_compute. reflexivity. Qed.

(** The guard finds the files of its own run, then a database that fell behind. *)
Definition around (head : option Journal.Head_) : surroundings :=
  mkSurroundings true true
    (fun p => if String.eqb p "checkpoint" then Guard.sn_Checkpoint Guard.moment1 else Guard.sn_Key Guard.moment1)
    head true true.
Example start_ex :
  let '(log, code, run) := main_ (proxied "") (around (Guard.db_head 1 "aa")) in
  let '(log', code', run') := main_ (proxied "") (around (Guard.db_head 0 "")) in
  (log, code, bool_decide (is_Some run), log', code', bool_decide (is_Some run')) =
  (["server ready"; "server stopped"], 0, true, ["lifecycle recovery verification failed; reconcile before serving"], 1, false).
Proof. vm_compute. reflexivity. Qed.

End EnvProps.
