(* ===== verification/Bootstrap.v ===== *)
(** The installation's first workspace: [internal/bootstrap/bootstrap.go] and the
    command [sierxctl bootstrap] ([cmd/sierxctl/bootstrap.go]). Its tables are those
    of [Site.v] and, for the administrator's sign-in, the accounts of [Auth.v]. *)
From S2P Require Import Prelude Utf8 Uuid Json Journal Auth Db Problem Operator Site Workflow Projects Accounts.
Open Scope Z_scope.

Module Bootstrap.
Import Db Site.

Record Options := mkOptions {
  Slug : string; Name : string; Email : string; DisplayName : string; Password : string; AuthMode : string;
  ProjectPrefix : string; ProjectName : string }.
Record Result := mkResult { r_WorkspaceID : string; r_UserID : string; r_ProjectID : string; r_Existing : bool }.

(** [errors.New] texts, errors of a statement, of the COMMIT and of the password. *)
Inductive boot_err := Refused (s : string) | Database (e : dberr) | CommitFailed | BadPassword (e : Auth.auth_err).

Record world := mkWorld { b_site : Site; b_auth : Auth.Db }.

(** ** The checks before the transaction *)

Definition slug_char (c : ascii) : bool := byte_in 97 122 c || byte_in 48 57 c || Ascii.eqb c "-"%char.
(** [^[a-z][a-z0-9-]{0,62}$] *)
Definition slug_ok (s : string) : bool :=
  match chars s with c :: l => byte_in 97 122 c && forallb slug_char l && (length l <=? 62)%nat | [] => false end.

Definition reserved : list string := ["API"; "LOGIN"; "BOARD"; "VIEWS"; "SETTINGS"; "ADMIN"; "ROADMAP"; "PROJECTS"; "ASSETS"].

Definition check_options (literal : string -> bool) (o : Options) : result boot_err unit :=
  if negb (slug_ok (Slug o)) || String.eqb (trim_space (Name o)) "" then Err (Refused "set a valid workspace slug and name")
  else if negb (Accounts.plain_address literal (Email o)) || String.eqb (DisplayName o) ""
  then Err (Refused "set a valid administrator email and display name")
  else if negb (Projects.prefix_ok (ProjectPrefix o)) || String.eqb (ProjectName o) ""
  then Err (Refused "set a valid initial project prefix and name")
  else if mem_str (ProjectPrefix o) reserved then Err (Refused "initial project prefix is reserved")
  else if negb (String.eqb (AuthMode o) "local") && negb (String.eqb (AuthMode o) "proxy")
  then Err (Refused "SIERX_AUTH_MODE must be local or proxy")
  else Ok tt.

(** ** The statements *)

(** [WHERE m.workspace_id=$1 AND m.role='admin' AND u.email=$2 AND p.key_prefix=$3] *)
Definition existing_rows (ws : uuid) (o : Options) (w : world) : list (string * string) :=
  list_prod
    (List.filter (fun ka : string * Auth.Account =>
        String.eqb (to_lower (Auth.Email ka.2)) (to_lower (Email o)) && bool_decide ((uuid_string ws, "admin") ∈ Auth.members ka.2))
      (map_to_list (Auth.accounts (b_auth w)))).*1
    (uuid_string <$> (List.filter (fun r : uuid * Project => bool_decide (p_workspace r.2 = ws) && String.eqb (p_key_prefix r.2) (ProjectPrefix o))
      (map_to_list (projects (s_db (b_site w))))).*1).

(** INSERT INTO workspace; the trigger inserts its [seq_counter]. *)
Definition insert_workspace (ws origin : uuid) (o : Options) (w : world) : result dberr world :=
  let s := b_site w in
  let d := s_db s in
  guard* storable (Slug o) && storable (Name o) else bad_text in
  guard* negb (bool_decide (is_Some (s_workspace s !! ws)) || existsb (fun x => String.eqb (w_slug x) (Slug o)) (map_to_list (s_workspace s)).*2)
    else unique_violation in
  Ok (mkWorld (mkSite (set_seq_counter (<[ws := 0]> (seq_counter d)) d) (<[ws := mkWorkspaceRow (Slug o) (Name o) 1 origin]> (s_workspace s))
                 (s_project s) (s_account s) (s_membership s) (s_status_name s) (s_type_name s) (s_field_def s)
                 (s_config_status s) (s_config_type s) (s_config_transition s)) (b_auth w)).

Definition with_users (x : gset uuid) (d : Db) : Db :=
  mkDb (seq_counter d) (items d) (rollups d) (links d) (comments d) (events d) (projects d) (statuses d) (item_types d) (project_configs d) x.

(** INSERT INTO user_account *)
Definition insert_account (u : uuid) (o : Options) (hash : option string) (w : world) : result dberr world :=
  let s := b_site w in
  let d := s_db s in
  guard* storable (Email o) && storable (DisplayName o) else bad_text in
  guard* negb (Accounts.email_taken (Email o) (b_auth w) || bool_decide (is_Some (Auth.accounts (b_auth w) !! uuid_string u))) else unique_violation in
  Ok (mkWorld (mkSite (with_users ({[u]} ∪ users d) d) (s_workspace s) (s_project s) (<[u := mkAccountRow (DisplayName o) true]> (s_account s))
                 (s_membership s) (s_status_name s) (s_type_name s) (s_field_def s) (s_config_status s) (s_config_type s) (s_config_transition s))
        (Auth.save_account (b_auth w) (uuid_string u) (Auth.mkAccount (Email o) (DisplayName o) hash [] true [] "system" None))).

(** INSERT INTO membership *)
Definition insert_admin (ws u : uuid) (w : world) : result dberr world :=
  let s := b_site w in
  guard* negb (bool_decide (is_Some (s_membership s !! (ws, u)))) else unique_violation in
  match Auth.accounts (b_auth w) !! uuid_string u with
  | Some a =>
      guard* bool_decide (is_Some (s_workspace s !! ws)) else fk_violation in
      Ok (mkWorld (mkSite (s_db s) (s_workspace s) (s_project s) (s_account s) (<[(ws, u) := "admin"]> (s_membership s))
                     (s_status_name s) (s_type_name s) (s_field_def s) (s_config_status s) (s_config_type s) (s_config_transition s))
            (Auth.save_account (b_auth w) (uuid_string u)
               (Auth.mkAccount (Auth.Email a) (Auth.DisplayName a) (Auth.password_hash a) (Auth.totp_secret a) (Auth.is_active a)
                  (Auth.members a ++ [(uuid_string ws, "admin")]) (Auth.Theme a) (Auth.ReducedMotion a))))
  | None => Err fk_violation
  end.

(** INSERT INTO project and the default configuration *)
Definition insert_first_project (p ws : uuid) (fresh fresh_type : string -> uuid) (o : Options) (w : world) : result dberr world :=
  let* s := Projects.insert_project p ws (Projects.mkProjectInput (ProjectPrefix o) (ProjectName o) "delivery" None) None (b_site w) in
  let* s := Projects.InstallConfig fresh fresh_type p s in
  Ok (mkWorld s (b_auth w)).

Definition database {A} (r : result dberr A) : result boot_err A := match r with Ok x => Ok x | Err e => Err (Database e) end.

(** ** Run *)

(** What the database supplies: the identifiers of the new rows. *)
Record new_rows := mkNewRows {
  n_workspace : uuid; n_origin : uuid; n_user : uuid; n_project : uuid; n_status : string -> uuid; n_type : string -> uuid }.

Section run.
Context {AC : AuthCrypto} (literal : string -> bool).

(** The body of the transaction; [locked]: whether it begins and gets the lock. *)
Definition create (n : new_rows) (salt : bytes) (o : Options) (w : world) : result boot_err (Result * world) :=
  let* hash := if String.eqb (AuthMode o) "local"
               then match Auth.HashPassword (Password o) salt with Ok h => Ok (Some h) | Err e => Err (BadPassword e) end
               else Ok None in
  let* w := database (insert_workspace (n_workspace n) (n_origin n) o w) in
  let* w := database (insert_account (n_user n) o hash w) in
  let* w := database (insert_admin (n_workspace n) (n_user n) w) in
  let* w := database (insert_first_project (n_project n) (n_workspace n) (n_status n) (n_type n) o w) in
  Ok (mkResult (uuid_string (n_workspace n)) (uuid_string (n_user n)) (uuid_string (n_project n)) false, w).

Definition transaction (n : new_rows) (salt : bytes) (o : Options) (w : world) : result boot_err (Result * world) :=
  match map_to_list (s_workspace (b_site w)) with
  | [] => create n salt o w
  | [(ws, row)] =>
      if negb (String.eqb (w_slug row) (Slug o)) then Err (Refused "a different workspace already exists; refusing to create another")
      else match existing_rows ws o w with
           | (user, project) :: _ => Ok (mkResult (uuid_string ws) user project true, w)
           | [] => Err (Refused "workspace already exists with different bootstrap inputs; no changes made")
           end
  | _ => Err (Refused "a different workspace already exists; refusing to create another")
  end.

(** [bootstrap.Run]; [begin] is what the database answers to BEGIN and the advisory
    lock, [c] what becomes of the COMMIT. *)
Definition Run (n : new_rows) (salt : bytes) (begin : result dberr unit) (c : Operator.commit) (o : Options) (w : world) :
    result boot_err Result * world :=
  match (let* _ := check_options literal o in let* _ := database begin in transaction n salt o w) with
  | Err e => (Err e, w)
  | Ok (r, w') =>
      match c with
      | Operator.Committed => (Ok r, w')
      | Operator.CommitLost => (Err CommitFailed, w)
      | Operator.CommitUnknown => (Err CommitFailed, w')
      end
  end.

(** [runBootstrap]: [args] are the arguments after the command; [reachable]: whether
    the URL makes a pool. The output is the result as JSON. *)
Definition bootstrap_options (get : string -> string) : Options :=
  mkOptions (get "SIERX_BOOTSTRAP_WORKSPACE_SLUG") (get "SIERX_BOOTSTRAP_WORKSPACE_NAME") (get "SIERX_BOOTSTRAP_ADMIN_EMAIL")
    (get "SIERX_BOOTSTRAP_ADMIN_NAME") (get "SIERX_BOOTSTRAP_ADMIN_PASSWORD") (get "SIERX_AUTH_MODE")
    (get "SIERX_BOOTSTRAP_PROJECT_PREFIX") (get "SIERX_BOOTSTRAP_PROJECT_NAME").
Definition result_json (r : Result) : json :=
  JObj [("workspace_id", JStr (r_WorkspaceID r)); ("user_id", JStr (r_UserID r)); ("project_id", JStr (r_ProjectID r)); ("existing", JBool (r_Existing r))].

Definition runBootstrap (get : string -> string) (args : list string) (reachable : bool) (n : new_rows) (salt : bytes)
    (begin : result dberr unit) (c : Operator.commit) (w : world) : result string json * world :=
  if negb (length args =? 0)%nat then (Err "bootstrap takes environment variables, not arguments", w)
  else if String.eqb (get "DATABASE_URL") "" then (Err "DATABASE_URL is required", w)
  else if String.eqb (get "SIERX_AUTH_MODE") "local" &&
          match Auth.ValidatePassword (get "SIERX_BOOTSTRAP_ADMIN_PASSWORD") with Ok _ => false | Err _ => true end
  then (Err "SIERX_BOOTSTRAP_ADMIN_PASSWORD is invalid: password must contain 12 to 1024 bytes", w)
  else if negb reachable then (Err "DATABASE_URL is malformed", w)
  else match Run n salt begin c (bootstrap_options get) w with
       | (Ok r, w') => (Ok (result_json r), w')
       | (Err _, w') => (Err "bootstrap failed; check inputs and database availability (no partial workspace was created)", w')
       end.

End run.

End Bootstrap.
