(* ===== verification/BootstrapProps.v ===== *)
(** The first installation: what it leaves, and that it happens once. *)
From S2P Require Import Prelude Utf8 Uuid Json Journal Auth AuthProps JournalDemo Db Problem Operator Site Workflow WorkflowProps Projects ProjectsProps.
From S2P Require Import ProjectReady Accounts AccountsProps Bootstrap.
Open Scope Z_scope.

Module BootstrapProps.
Import JournalDemo AuthProps Db Site Workflow WorkflowProps Projects ProjectsProps ProjectReady Bootstrap.

(** * Frames *)

(** A relation every statement of the installation is in, is one the installation is
    in. *)
Definition within (R : relation Site) (f : Site -> result dberr Site) : Prop := forall s s', f s = Ok s' -> R s s'.

Record writes_within (R : relation Site) : Prop := {
  wi_status id p st : within R (insert_status id p st);
  wi_type id p t : within R (insert_type id p t);
  wi_field p f : within R (fun s => insert_field p s f);
  wi_config_status p v id o : within R (insert_config_status p v id o);
  wi_config_type p v ts : within R (fun s => insert_config_type p v s ts);
  wi_transition p v f t req : within R (insert_transition p v f t req)
}.

Section within.
Context (R : relation Site) `{!PreOrder R}.

Lemma within_fold {A} (f : Site -> A -> result dberr Site) l : (forall a, within R (fun s => f s a)) -> within R (foldM f l).
Proof.
  intros Hf s s'. apply (foldM_inv f (R s)); [|reflexivity]. intros s0 a s1 _ E H. transitivity s0; [exact E|exact (Hf a s0 s1 H)].
Qed.
Lemma within_bind f g : within R f -> within R g -> within R (fun s => let* x := f s in g x).
Proof. intros Hf Hg s s' H. destruct (f s) as [x|] eqn:E; [|done]. transitivity x; [by apply Hf|by apply Hg]. Qed.

Lemma order_within p v ko : writes_within R -> within R (fun s => put_order p v s ko).
Proof. intros Hw s s'. apply (within_fold (fun s id => insert_config_status p v id ko.2 s)). intros id. apply (wi_config_status _ Hw). Qed.
Lemma initial_within p v : writes_within R -> within R (put_initial p v).
Proof. intros Hw s s'. apply (within_fold (insert_config_type p v)). intros ts. apply (wi_config_type _ Hw). Qed.
Lemma arc_within p v a : writes_within R -> within R (fun s => put_arc p v s a).
Proof.
  intros Hw. destruct a as [[from to] req]. intros s s'. apply (within_fold (fun s ft => insert_transition p v ft.1 ft.2 req s)).
  intros ft. apply (wi_transition _ Hw).
Qed.
Lemma dropped_within p v : writes_within R -> within R (put_dropped p v).
Proof. intros Hw s s'. apply (within_fold (fun s ft => insert_transition p v ft.1 ft.2 [] s)). intros ft. apply (wi_transition _ Hw). Qed.

Lemma configSQL_within fresh fresh_type p : writes_within R -> within R (configSQL fresh fresh_type p).
Proof.
  intros Hw. unfold configSQL.
  apply (within_bind (foldM _ _)); [apply within_fold; intros st; apply (wi_status _ Hw)|].
  apply (within_bind (foldM _ _)); [apply within_fold; intros t; apply (wi_type _ Hw)|].
  apply (within_bind (foldM _ _)); [apply within_fold; intros fd; apply (wi_field _ Hw)|].
  apply (within_bind (foldM _ _)); [apply within_fold; intros ko; by apply order_within|].
  apply (within_bind (put_initial _ _)); [by apply initial_within|].
  apply (within_bind (foldM _ _)); [apply within_fold; intros a; by apply arc_within|by apply dropped_within].
Qed.
End within.

(** Installing a configuration touches the configuration tables only, and takes no
    status away. *)
Definition configured (s s' : Site) : Prop := db_rest s' = db_rest s /\ statuses (s_db s) ⊆ statuses (s_db s').
#[export] Instance configured_preorder : PreOrder configured.
Proof. split; [by intros s|]. intros a b c [E1 H1] [E2 H2]. split; [by rewrite E2|by transitivity (statuses (s_db b))]. Qed.

Ltac configured_write := intros ? ? Hwrite; inv_ok Hwrite; subst; by split.
Lemma writes_configured : writes_within configured.
Proof.
  split.
  - intros id p st s s' Hw. unfold insert_status in Hw. inv_ok Hw. subst s'. split; [done|]. cbn. apply insert_subseteq.
    rewrite negb_true_iff, bool_decide_eq_false in G. by apply eq_None_not_Some.
  - intros id p [[key name] l]. unfold insert_type. configured_write.
  - intros p f. unfold insert_field. configured_write.
  - intros p v id o. unfold insert_config_status. configured_write.
  - intros p v [t st]. unfold insert_config_type. configured_write.
  - intros p v f t req. unfold insert_transition. configured_write.
Qed.
Lemma first_config_within p : within configured (insert_first_config p).
Proof. unfold insert_first_config. configured_write. Qed.

Lemma InstallConfig_framed fresh fresh_type p s s' : InstallConfig fresh fresh_type p s = Ok s' -> db_rest s' = db_rest s.
Proof.
  intros H. eapply (within_bind configured (insert_first_config p)); [apply first_config_within| |exact H].
  apply configSQL_within, writes_configured. apply _.
Qed.

(** The one key of a map whose row a filter finds. *)
Lemma filter_inserted `{Countable K} {A} (f : K * A -> bool) (m : gmap K A) k x :
  f (k, x) = true -> (forall k' y, m !! k' = Some y -> f (k', y) = false) -> (List.filter f (map_to_list (<[k := x]> m))).*1 = [k].
Proof.
  intros Hx Hm. apply singleton_list; [apply NoDup_filter_keys|]. intros k'. rewrite list_elem_of_fmap. split.
  - intros ([k1 y] & -> & Hin). apply list_elem_of_In, List.filter_In in Hin as [Hin Hf]. apply list_elem_of_In, elem_of_map_to_list in Hin.
    destruct (decide (k1 = k)) as [->|Hne]; [done|]. rewrite lookup_insert_ne in Hin by done. apply Hm in Hin. congruence.
  - intros ->. exists (k, x). split; [done|]. apply list_elem_of_In, List.filter_In. split; [|done]. apply list_elem_of_In, elem_of_map_to_list, lookup_insert_eq.
Qed.

Lemma existsb_rows `{Countable K} {A} (f : K * A -> bool) (m : gmap K A) k y : existsb f (map_to_list m) = false -> m !! k = Some y -> f (k, y) = false.
Proof.
  intros Hf Hk. destruct (f (k, y)) eqn:E; [|done]. rewrite <- not_true_iff_false in Hf. destruct Hf. apply existsb_exists. exists (k, y).
  split; [|done]. by apply list_elem_of_In, elem_of_map_to_list.
Qed.
Lemma existsb_values `{Countable K} {A} (f : A -> bool) (m : gmap K A) k y : existsb f (map_to_list m).*2 = false -> m !! k = Some y -> f y = false.
Proof.
  intros Hf Hk. refine (existsb_rows (fun kv => f kv.2) m k y _ Hk). rewrite <- Hf. clear. induction (map_to_list m) as [|kv l IH]; [done|].
  cbn. by rewrite IH.
Qed.

(** * A successful creation *)

Section run.
Context {AC : AuthCrypto} (literal : string -> bool).

Definition hash_of (salt : bytes) (o : Options) (h : option string) : Prop :=
  if String.eqb (AuthMode o) "local" then exists p, Auth.HashPassword (Password o) salt = Ok p /\ h = Some p else h = None.

(** The administrator's account. *)
Definition admin_account (n : new_rows) (o : Options) (h : option string) : Auth.Account :=
  Auth.mkAccount (Email o) (DisplayName o) h [] true [(uuid_string (n_workspace n), "admin")] "system" None.
Definition result_of (n : new_rows) : Result :=
  mkResult (uuid_string (n_workspace n)) (uuid_string (n_user n)) (uuid_string (n_project n)) false.

(** The tables the new workspace, account and project are in. *)
Record created (n : new_rows) (o : Options) (h : option string) (w w' : world) : Prop := {
  cr_workspace : s_workspace (b_site w') = <[n_workspace n := mkWorkspaceRow (Slug o) (Name o) 1 (n_origin n)]> (s_workspace (b_site w));
  cr_counter : seq_counter (s_db (b_site w')) = <[n_workspace n := 0]> (seq_counter (s_db (b_site w)));
  cr_accounts : Auth.accounts (b_auth w') = <[uuid_string (n_user n) := admin_account n o h]> (Auth.accounts (b_auth w));
  cr_sessions : Auth.sessions (b_auth w') = Auth.sessions (b_auth w);
  cr_members : s_membership (b_site w') = <[(n_workspace n, n_user n) := "admin"]> (s_membership (b_site w));
  cr_account : s_account (b_site w') = <[n_user n := mkAccountRow (DisplayName o) true]> (s_account (b_site w));
  cr_projects : projects (s_db (b_site w')) = <[n_project n := mkProject (n_workspace n) (ProjectPrefix o) 1]> (projects (s_db (b_site w)));
  cr_project : s_project (b_site w') = <[n_project n := mkProjectRow (ProjectName o) "delivery" None false 1]> (s_project (b_site w));
  cr_items : items (s_db (b_site w')) = items (s_db (b_site w))
}.

(** The site before the project is inserted. *)
Definition with_admin (n : new_rows) (o : Options) (s : Site) : Site :=
  let d := s_db s in
  mkSite (with_users ({[n_user n]} ∪ users d) (set_seq_counter (<[n_workspace n := 0]> (seq_counter d)) d))
    (<[n_workspace n := mkWorkspaceRow (Slug o) (Name o) 1 (n_origin n)]> (s_workspace s)) (s_project s)
    (<[n_user n := mkAccountRow (DisplayName o) true]> (s_account s)) (<[(n_workspace n, n_user n) := "admin"]> (s_membership s))
    (s_status_name s) (s_type_name s) (s_field_def s) (s_config_status s) (s_config_type s) (s_config_transition s).

Definition project_input (o : Options) : projectInput := mkProjectInput (ProjectPrefix o) (ProjectName o) "delivery" None.

Lemma insert_project_inv id ws inp s s' : insert_project id ws inp None s = Ok s' ->
  prefix_taken ws (in_KeyPrefix inp) (s_db s) = false /\ s' = inserted id ws inp None s.
Proof.
  unfold insert_project. intros Hi. inv_ok Hi. split; [|by subst].
  rewrite negb_true_iff, orb_false_iff in G1. by destruct G1.
Qed.

Lemma insert_project_fresh id ws inp s :
  prefix_ok (in_KeyPrefix inp) = true -> storable (in_Name inp) = true -> kind_ok (in_Kind inp) = true -> projects (s_db s) !! id = None ->
  prefix_taken ws (in_KeyPrefix inp) (s_db s) = false -> is_Some (s_workspace s !! ws) -> insert_project id ws inp None s = Ok (inserted id ws inp None s).
Proof.
  intros Hp Hn Hk Hid Ht Hw. unfold insert_project. rewrite (prefix_storable _ Hp), Hn, (kind_storable _ Hk), Hp, Hk, Hid, Ht, bool_decide_eq_false_2 by (by intros [? ?]). cbn [andb orb negb].
  by rewrite bool_decide_eq_true_2.
Qed.

Lemma create_inv n salt o w r w' : create n salt o w = Ok (r, w') ->
  r = result_of n /\ Accounts.email_taken (Email o) (b_auth w) = false /\
  prefix_taken (n_workspace n) (ProjectPrefix o) (s_db (b_site w)) = false /\
  exists h, hash_of salt o h /\ created n o h w w' /\
    InstallConfig (n_status n) (n_type n) (n_project n) (inserted (n_project n) (n_workspace n) (project_input o) None (with_admin n o (b_site w))) = Ok (b_site w').
Proof.
  unfold create. destruct (if String.eqb _ _ then _ else _) as [h|] eqn:Hh; [|done].
  destruct (insert_workspace _ _ _ _) as [w1|] eqn:E1; [cbn [database]|done]. destruct (insert_account _ _ _ w1) as [w2|] eqn:E2; [cbn [database]|done].
  destruct (insert_admin _ _ w2) as [w3|] eqn:E3; [cbn [database]|done].
  destruct (insert_first_project _ _ _ _ _ w3) as [w4|] eqn:E4; [cbn [database]|done].
  intros [= <- <-]. unfold insert_workspace in E1. inv_ok E1. subst w1. unfold insert_account in E2. inv_ok E2. subst w2.
  unfold insert_admin in E3. inv_ok E3. cbn in E. rewrite lookup_insert_eq in E. injection E as <-. subst w3.
  unfold insert_first_project in E4. inv_ok E4. subst w4. cbn in E, E0.
  apply insert_project_inv in E as [Hp ->]. pose proof (InstallConfig_framed _ _ _ _ _ E0) as Hf. unfold db_rest in Hf. cbn in Hf.
  rewrite negb_true_iff, orb_false_iff in G2. destruct G2 as [He _]. split_and!; [done|done|exact Hp|]. exists h. split_and!; [| |exact E0].
  - unfold hash_of. destruct (String.eqb (AuthMode o) "local"); [|by injection Hh]. destruct (Auth.HashPassword _ _) as [p|] eqn:Ep; [|done].
    exists p. split; [done|by injection Hh].
  - cbn. split; cbn; try congruence. by rewrite insert_insert_eq.
Qed.

(** The account and the project are what a later run looks for. *)
Lemma created_found n salt o w r w' o' :
  create n salt o w = Ok (r, w') -> to_lower (Email o') = to_lower (Email o) -> ProjectPrefix o' = ProjectPrefix o ->
  existing_rows (n_workspace n) o' w' = [(r_UserID r, r_ProjectID r)].
Proof.
  intros (-> & He & Hp & h & _ & Hc & _)%create_inv Heq Hpe. unfold existing_rows. rewrite (cr_accounts _ _ _ _ _ Hc), (cr_projects _ _ _ _ _ Hc).
  rewrite !filter_inserted; [done| | | |].
  - cbn. by rewrite bool_decide_eq_true_2, Hpe, String.eqb_refl.
  - intros k y Hy. rewrite Hpe. exact (existsb_rows _ _ k y Hp Hy).
  - cbn. rewrite Heq, String.eqb_refl. cbn. apply bool_decide_eq_true_2. by left.
  - intros k y Hy. cbn. rewrite Heq. by rewrite (existsb_values _ _ _ _ He Hy).
Qed.

(** * It happens once *)

(** An attempt: what the database supplies and decides, and the inputs. *)
Record boot_attempt := mkBootAttempt {
  at_rows : new_rows; at_salt : bytes; at_begin : result dberr unit; at_commit : Operator.commit; at_options : Options }.
Definition attempt_run (a : boot_attempt) (w : world) : result boot_err Result * world :=
  Run literal (at_rows a) (at_salt a) (at_begin a) (at_commit a) (at_options a) w.
Fixpoint attempts (l : list boot_attempt) (w : world) : list (result boot_err Result) * world :=
  match l with
  | [] => ([], w)
  | a :: l => let '(r, w) := attempt_run a w in let '(rs, w) := attempts l w in (r :: rs, w)
  end.

(** A run that finds a workspace changes nothing and reports that workspace. *)
Lemma existing_kept a w x w' ws row :
  map_to_list (s_workspace (b_site w)) = [(ws, row)] -> attempt_run a w = (x, w') ->
  w' = w /\ forall r, x = Ok r -> r_WorkspaceID r = uuid_string ws /\ r_Existing r = true.
Proof.
  intros Hws. unfold attempt_run, Run, transaction. rewrite Hws.
  destruct (check_options _ _) as [?|]; [|by intros [= <- <-]]. destruct (database _) as [?|]; [|by intros [= <- <-]].
  destruct (negb _); [by intros [= <- <-]|]. destruct (existing_rows _ _ _) as [|[u p] l]; [by intros [= <- <-]|].
  destruct (at_commit a); intros [= <- <-]; (split; [done|]); try done. by intros r [= <-].
Qed.

Lemma created_workspaces n salt o w r w' :
  create n salt o w = Ok (r, w') -> s_workspace (b_site w) = ∅ ->
  exists row, map_to_list (s_workspace (b_site w')) = [(n_workspace n, row)] /\ w_slug row = Slug o /\ r_WorkspaceID r = uuid_string (n_workspace n).
Proof.
  intros (-> & _ & _ & h & _ & Hc & _)%create_inv Hw. rewrite (cr_workspace _ _ _ _ _ Hc), Hw, insert_empty, map_to_list_singleton. by eexists.
Qed.

(** Without a workspace a run that gets to its COMMIT has created one. *)
Lemma first_attempt a w x w' :
  s_workspace (b_site w) = ∅ -> attempt_run a w = (x, w') ->
  w' = w /\ (forall r, x <> Ok r) \/ exists r, create (at_rows a) (at_salt a) (at_options a) w = Ok (r, w') /\ forall r', x = Ok r' -> r' = r.
Proof.
  intros Hw. unfold attempt_run, Run, transaction. rewrite Hw, map_to_list_empty.
  destruct (check_options _ _) as [?|]; [|intros [= <- <-]; by left]. destruct (database _) as [?|]; [|intros [= <- <-]; by left].
  destruct (create _ _ _ _) as [[r w1]|]; [|intros [= <- <-]; by left].
  destruct (at_commit a); intros [= <- <-]; [right; exists r|by left|right; exists r]; (split; [done|]); try done. by intros r' [= <-].
Qed.

Lemma attempts_kept l w rs w' ws row :
  map_to_list (s_workspace (b_site w)) = [(ws, row)] -> attempts l w = (rs, w') ->
  w' = w /\ forall r, (Ok r ∈ rs) -> r_WorkspaceID r = uuid_string ws /\ r_Existing r = true.
Proof.
  intros Hws. revert rs w'. induction l as [|a l IH]; intros rs w' E; cbn [attempts] in E.
  - injection E as <- <-. split; [done|]. intros r Hr. by apply elem_of_nil in Hr.
  - destruct (attempt_run a w) as [x w1] eqn:Ea. destruct (existing_kept _ _ _ _ _ _ Hws Ea) as [-> Hx].
    destruct (attempts l w) as [ys w2] eqn:El. injection E as <- <-. destruct (IH _ _ eq_refl) as [-> Hy]. split; [done|].
    intros r [<-|Hr]%elem_of_cons; [by apply Hx|by apply Hy].
Qed.

(** C38. The installation happens at most once: over any sequence of attempts on a
    database without a workspace, with any inputs and whatever becomes of each COMMIT,
    either nothing is ever changed and no attempt succeeds, or exactly one attempt's
    creation is what the database holds at the end, and every attempt that reports
    success reports that workspace, the creation itself or one it found existing. *)
Theorem bootstrap_once l w rs w' :
  s_workspace (b_site w) = ∅ -> attempts l w = (rs, w') ->
  w' = w /\ (forall r, Ok r ∉ rs) \/
  exists a r, a ∈ l /\ create (at_rows a) (at_salt a) (at_options a) w = Ok (r, w') /\
    forall r', (Ok r' ∈ rs) -> r' = r \/ r_Existing r' = true /\ r_WorkspaceID r' = r_WorkspaceID r.
Proof.
  intros Hw. revert rs w'. induction l as [|a l IH]; intros rs w' E; cbn [attempts] in E.
  - injection E as <- <-. left. split; [done|]. intros r Hr. by apply elem_of_nil in Hr.
  - destruct (attempt_run a w) as [x w1] eqn:Ea. destruct (attempts l w1) as [ys w2] eqn:El. injection E as <- <-.
    destruct (first_attempt _ _ _ _ Hw Ea) as [[-> Hx]|(r & Hc & Hx)].
    + destruct (IH _ _ El) as [[-> Hy]|(b & r & Hb & Hc & Hy)].
      * left. split; [done|]. intros r [E|Hr]%elem_of_cons; [by apply (Hx r)|by apply (Hy r)].
      * right. exists b, r. split; [by apply elem_of_cons; right|]. split; [done|].
        intros r' [E|Hr]%elem_of_cons; [by destruct (Hx r')|by apply Hy].
    + destruct (created_workspaces _ _ _ _ _ _ Hc Hw) as (row & Hws & _ & Hid). destruct (attempts_kept _ _ _ _ _ _ Hws El) as [-> Hy].
      right. exists a, r. split; [by apply elem_of_cons; left|]. split; [done|].
      intros r' [E|Hr]%elem_of_cons; [left; by apply Hx|]. right. rewrite Hid. split; by apply Hy.
Qed.

(** Repeating an installation with its workspace, administrator and project finds it:
    the same identifiers, marked existing, and no change. *)
Theorem bootstrap_again n salt o w r w' n' salt' c o' :
  s_workspace (b_site w) = ∅ -> create n salt o w = Ok (r, w') ->
  check_options literal o' = Ok tt -> Slug o' = Slug o -> to_lower (Email o') = to_lower (Email o) -> ProjectPrefix o' = ProjectPrefix o ->
  Run literal n' salt' (Ok tt) c o' w' =
  (match c with Operator.Committed => Ok (mkResult (r_WorkspaceID r) (r_UserID r) (r_ProjectID r) true) | _ => Err CommitFailed end, w').
Proof.
  intros Hw Hc Ho Hs He Hp. unfold Run, transaction. rewrite Ho. cbn [database].
  destruct (created_workspaces _ _ _ _ _ _ Hc Hw) as (row & -> & Hslug & Hid).
  rewrite Hslug, Hs, String.eqb_refl. cbn [negb]. rewrite (created_found _ _ _ _ _ _ _ Hc He Hp), <- Hid. by destruct c.
Qed.

(** * It works on a new installation *)

Record installable (n : new_rows) (salt : bytes) (o : Options) (w : world) : Prop := {
  in_options : check_options literal o = Ok tt;
  in_texts : forallb storable [Slug o; Name o; Email o; DisplayName o; ProjectName o] = true;
  in_password : AuthMode o = "local" -> (12 <= String.length (Password o) <= 1024)%nat;
  in_salt : length salt = 16%nat;
  in_empty : s_workspace (b_site w) = ∅;
  in_email : Accounts.email_taken (Email o) (b_auth w) = false;
  in_user : Auth.accounts (b_auth w) !! uuid_string (n_user n) = None;
  in_member : s_membership (b_site w) !! (n_workspace n, n_user n) = None;
  in_prefix : prefix_taken (n_workspace n) (ProjectPrefix o) (s_db (b_site w)) = false;
  in_project : projects (s_db (b_site w)) !! n_project n = None;
  in_ids : new_ids (n_status n) (n_type n) (b_site w);
  in_config : config_ok (b_site w);
  in_refs : refs_ok (b_site w)
}.

Lemma check_options_spec o : check_options literal o = Ok tt -> prefix_ok (ProjectPrefix o) = true /\ (AuthMode o = "local" \/ AuthMode o = "proxy").
Proof.
  unfold check_options. intros Hc. inv_ok Hc. rewrite orb_false_iff, negb_false_iff in G1. rewrite andb_false_iff, !negb_false_iff, !String.eqb_eq in G3.
  tauto.
Qed.

Lemma hash_exists salt o :
  (AuthMode o = "local" -> (12 <= String.length (Password o) <= 1024)%nat) -> exists h, hash_of salt o h /\
  (if String.eqb (AuthMode o) "local"
   then match Auth.HashPassword (Password o) salt with Ok h => Ok (Some h) | Err e => Err (BadPassword e) end
   else Ok None) = Ok h.
Proof.
  intros Hp. unfold hash_of. destruct (String.eqb (AuthMode o) "local") eqn:E; [|by exists None].
  apply String.eqb_eq, Hp in E. unfold Auth.HashPassword, Auth.ValidatePassword.
  assert (Hb : ((String.length (Password o) <? 12) || (1024 <? String.length (Password o)))%nat = false).
  { apply orb_false_iff. split; apply Nat.ltb_ge; lia. }
  rewrite Hb. eexists. split; [by eexists|done].
Qed.

Lemma create_ok n salt o w : installable n salt o w ->
  exists h w', create n salt o w = Ok (result_of n, w') /\ hash_of salt o h /\ config_ok (b_site w') /\ refs_ok (b_site w') /\
    resolved_config (n_project n) (b_site w') = Ok (resolved_at (n_project n) 1 (b_site w')) /\ default_config (resolved_at (n_project n) 1 (b_site w')).
Proof.
  intros Hi. destruct (hash_exists salt o (in_password _ _ _ _ Hi)) as (h & Hh & Eh).
  destruct (check_options_spec o (in_options _ _ _ _ Hi)) as [Hprefix _].
  assert (Hok : config_ok (with_admin n o (b_site w))) by (destruct (in_config _ _ _ _ Hi); by split).
  assert (Hr : refs_ok (with_admin n o (b_site w))) by (destruct (in_refs _ _ _ _ Hi); by split).
  destruct (inserted_invariants (n_project n) (n_workspace n) (project_input o) None (with_admin n o (b_site w)) (in_project _ _ _ _ Hi) Hok Hr) as (Hok1 & Hr1 & Hb1).
  destruct (installed_ready (n_status n) (n_type n) (n_project n) _ Hok1 Hr1 Hb1) as (s' & Ei & _ & Hok' & Hr' & Hc & Hd).
  { destruct (in_ids _ _ _ _ Hi). by split. }
  { cbn. rewrite lookup_insert_eq. by eexists. }
  exists h, (mkWorld s' (Auth.save_account (b_auth w) (uuid_string (n_user n)) (admin_account n o h))). split_and!; try done.
  assert (Hg : bool_decide (is_Some (s_workspace (b_site w) !! n_workspace n)) ||
    existsb (fun x => String.eqb (w_slug x) (Slug o)) (map_to_list (s_workspace (b_site w))).*2 = false).
  { rewrite (in_empty _ _ _ _ Hi), lookup_empty, map_to_list_empty. by rewrite bool_decide_eq_false_2 by (by intros [? ?]). }
  pose proof (in_texts _ _ _ _ Hi) as Htx. cbn [forallb] in Htx. rewrite !andb_true_iff in Htx. destruct Htx as (T1 & T2 & T3 & T4 & T5 & _).
  unfold create. rewrite Eh. unfold insert_workspace. rewrite T1, T2, Hg. cbn [andb negb database].
  unfold insert_account. cbn [b_auth b_site s_db]. rewrite T3, T4. cbn [andb]. rewrite (in_email _ _ _ _ Hi), (in_user _ _ _ _ Hi), bool_decide_eq_false_2 by (by intros [? ?]).
  cbn [orb negb database]. unfold insert_admin. cbn. rewrite (in_member _ _ _ _ Hi), lookup_insert_eq, !bool_decide_eq_false_2 by (by intros [? ?]). cbn.
  rewrite lookup_insert_eq, bool_decide_eq_true_2 by (by eexists). cbn [database]. unfold insert_first_project. cbn [b_site b_auth].
  fold (project_input o). change (mkSite _ _ _ _ _ _ _ _ _ _ _) with (with_admin n o (b_site w)).
  rewrite (insert_project_fresh (n_project n) (n_workspace n) (project_input o) (with_admin n o (b_site w))), Ei by
    first [done|apply (in_project _ _ _ _ Hi)|apply (in_prefix _ _ _ _ Hi)|cbn; rewrite lookup_insert_eq; by eexists].
  unfold Auth.save_account. cbn. by rewrite insert_insert_eq.
Qed.

End run.

Section sign_in.
Context {CR : Crypto} {AC : AuthCrypto} {CT : Codec Auth.totpState} (service_key : bytes) (literal : string -> bool).

Lemma Login_new db id a password salt h now nonce raw :
  Accounts.email_taken (Auth.Email a) db = false -> Auth.is_active a = true -> Auth.members a <> [] -> Auth.totp_secret a = [] ->
  Auth.password_hash a = Some h -> length salt = 16%nat -> Auth.HashPassword password salt = Ok h -> (String.length password <= 1024)%nat ->
  is_ok (Auth.Login service_key (Auth.save_account db id a) (Auth.Email a) password "" now nonce raw) = true.
Proof.
  intros He Ha Hm Ht Hh Hs Hp Hl. unfold Auth.Login. rewrite AccountsProps.by_email_new, Hh by done.
  rewrite (VerifyPassword_HashPassword password password salt h Hs Hp), (proj2 (Nat.leb_le _ _) Hl), bool_decide_eq_true_2 by done. cbn [andb].
  unfold Auth.checkSecondFactor, Auth.locked. cbn. rewrite lookup_insert_eq, Ha, Ht. cbn. unfold Auth.issueSession. cbn. by rewrite lookup_insert_eq, Ha.
Qed.

(** C34. A new installation is ready to use: on a database without a workspace, with
    valid inputs (without U+0000, which no environment variable holds) and unused
    identifiers, [Run] succeeds and leaves the workspace with
    its counter at 0, the administrator's active account and membership, and the first
    project with the default configuration as its latest one; the configuration
    invariants hold, no item is touched, and in local mode the administrator can sign
    in with the given address and password. *)
Theorem bootstrap_ready n salt o w :
  installable literal n salt o w ->
  exists h w', Run literal n salt (Ok tt) Operator.Committed o w = (Ok (result_of n), w') /\ hash_of salt o h /\ created n o h w w' /\
    config_ok (b_site w') /\ refs_ok (b_site w') /\
    (exists c, resolved_config (n_project n) (b_site w') = Ok c /\ default_config c) /\
    (AuthMode o = "local" -> forall now nonce raw, is_ok (Auth.Login service_key (b_auth w') (Email o) (Password o) "" now nonce raw) = true).
Proof.
  intros Hi. destruct (create_ok literal n salt o w Hi) as (h & w' & Hc & _ & Hok & Hr & Hres & Hd).
  destruct (create_inv n salt o w _ w' Hc) as (_ & _ & _ & h' & Hh & Hcr & _). exists h', w'. split_and!; try done.
  - unfold Run, transaction. rewrite (in_options _ _ _ _ _ Hi), (in_empty _ _ _ _ _ Hi), map_to_list_empty. cbn [database]. by rewrite Hc.
  - by eexists.
  - intros Hm now nonce raw. pose proof (in_password _ _ _ _ _ Hi Hm) as Hl. unfold hash_of in Hh. rewrite Hm in Hh. cbn in Hh.
    destruct Hh as (p & Hp & ->).
    replace (b_auth w') with (Auth.save_account (b_auth w) (uuid_string (n_user n)) (admin_account n o (Some p))).
    { eapply (Login_new (b_auth w) (uuid_string (n_user n)) (admin_account n o (Some p)) (Password o) salt p); try done;
        [apply (in_email _ _ _ _ _ Hi)|apply (in_salt _ _ _ _ _ Hi)|lia]. }
    unfold Auth.save_account. rewrite <- (cr_accounts _ _ _ _ _ Hcr), <- (cr_sessions _ _ _ _ _ Hcr). by destruct (b_auth w').
Qed.

End sign_in.

(** * A run *)

Definition demo_rows : new_rows := mkNewRows (U 1) (U 2) (U 3) (U 4) ProjectEdits.new_status ProjectEdits.fresh_type.
Definition demo_options : Options := mkOptions "acme" "Acme" "ann@acme.test" "Ann" "correct horse battery" "local" "OPS" "Operations".
Definition empty_db : Db := mkDb ∅ ∅ ∅ ∅ ∅ [] ∅ ∅ ∅ ∅ ∅.
Definition empty_world : world := mkWorld (mkSite empty_db ∅ ∅ ∅ ∅ ∅ ∅ ∅ ∅ ∅ ∅) (Auth.mkDb ∅ ∅).
Definition demo_salt : bytes := repeat "s"%char 16.

Lemma empty_config : config_ok (b_site empty_world).
Proof.
  split.
  - intros p v st [n Hn]. discriminate Hn.
  - intros p v a b ra rb [n Hn]. discriminate Hn.
  - intros p v t st Hn. discriminate Hn.
  - intros p v f t req Hn. discriminate Hn.
  - intros p v v' st _ _ [n Hn]. discriminate Hn.
Qed.
Lemma empty_refs : refs_ok (b_site empty_world).
Proof. apply ProjectEdits.refs_okb_spec. vm_compute. reflexivity. Qed.
Lemma demo_ids : new_ids ProjectEdits.new_status ProjectEdits.fresh_type (b_site empty_world).
Proof. destruct ProjectEdits.site0_new_ids as [H1 _ H2 _]. split; [exact H1|done|exact H2|done]. Qed.
Lemma demo_installable : installable (fun _ => false) demo_rows demo_salt demo_options empty_world.
Proof. split; try (vm_compute; reflexivity); [intros _; vm_compute; lia|apply demo_ids|apply empty_config|apply empty_refs]. Qed.

Lemma bootstrap_ready_witness :
  exists w', Run (fun _ => false) demo_rows demo_salt (Ok tt) Operator.Committed demo_options empty_world = (Ok (result_of demo_rows), w') /\
    seq_counter (s_db (b_site w')) = {[U 1 := 0]} /\
    is_ok (Auth.Login (repeat "k"%char 32) (b_auth w') "ann@acme.test" "correct horse battery" "" 0 [] []) = true.
Proof.
  destruct (bootstrap_ready (repeat "k"%char 32) (fun _ => false) demo_rows demo_salt demo_options empty_world demo_installable)
    as (h & w' & E & _ & Hc & _ & _ & _ & Hl).
  exists w'. split; [exact E|]. split; [rewrite (cr_counter _ _ _ _ _ Hc); reflexivity|]. exact (Hl eq_refl 0 [] []).
Defined.

(** A lost COMMIT, the creation, the same again, and other inputs. *)
Definition demo_attempts : list boot_attempt :=
  let again o c := mkBootAttempt demo_rows demo_salt (Ok tt) c o in
  [again demo_options Operator.CommitLost; again demo_options Operator.Committed; again demo_options Operator.Committed;
   again (mkOptions "other" "Other" "ann@acme.test" "Ann" "correct horse battery" "local" "OPS" "Operations") Operator.Committed].

Example attempts_ex :
  (attempts (fun _ => false) demo_attempts empty_world).1 =
  [Err CommitFailed; Ok (result_of demo_rows); Ok (mkResult (uuid_string (U 1)) (uuid_string (U 3)) (uuid_string (U 4)) true);
   Err (Refused "a different workspace already exists; refusing to create another")].
Proof. vm_compute. reflexivity. Qed.

Lemma bootstrap_once_witness :
  let x := attempts (fun _ => false) demo_attempts empty_world in
  exists a r, a ∈ demo_attempts /\ create (at_rows a) (at_salt a) (at_options a) empty_world = Ok (r, x.2).
Proof.
  cbv zeta. destruct (bootstrap_once (fun _ => false) demo_attempts empty_world _ _ eq_refl (surjective_pairing _)) as [[_ Hn]|(a & r & Ha & Hc & _)].
  - exfalso. apply (Hn (result_of demo_rows)). rewrite attempts_ex. apply list_elem_of_further, list_elem_of_here.
  - exists a, r. split; [exact Ha|exact Hc].
Defined.

(** A prefix the API keeps for its own pages is accepted here. *)
Theorem bootstrap_reserved_gap :
  check_options (fun _ => false) (mkOptions "acme" "Acme" "ann@acme.test" "Ann" "" "proxy" "PRIVACY" "Privacy") = Ok tt /\
  mem_str "PRIVACY" ReservedPrefixes = true.
Proof. by vm_compute. Qed.

End BootstrapProps.
