(* ===== verification/Documents.v ===== *)
(** The pages the server renders ([internal/api/documents.go],
    [routes_generated.go]): canonical paths and redirects, which pages need an
    identity, the state a page starts with, and the HTML it is put in. *)
From S2P Require Import Prelude Utf8 Uuid Json Journal Auth Db Problem Site SxqCompile Accounts Cursor Env Scope.
Open Scope Z_scope.

Module Documents.
Import Db Problem Site.

(** [url.Parse] of a redirect's target: its host, [None] for an error; and
    [json.Marshal], which writes no character that means something in HTML. *)
Class DocLib := {
  url_host : string -> option string;
  marshal_html : json -> list ascii;
  url_host_local : forall c s, c <> "/"%char -> url_host (String "/" (String c s)) = None \/ url_host (String "/" (String c s)) = Some "";
  url_host_root : url_host "/" = Some "";
  marshal_html_inert : forall v, Forall (fun c => c <> "<"%char /\ c <> ">"%char /\ c <> "&"%char) (marshal_html v)
}.

(** * Paths *)

Definition alpha (c : ascii) : bool := byte_in 65 90 c || byte_in 97 122 c.
Definition digit (c : ascii) : bool := byte_in 48 57 c.
(** [^[A-Za-z][A-Za-z0-9]{1,9}-[1-9][0-9]*$] *)
Definition documentKey (k : string) : bool :=
  match str_split "-"%char k with
  | [a; b] =>
      match chars a, chars b with
      | c :: a, d :: b => alpha c && forallb (fun c => alpha c || digit c) a && (1 <=? length a)%nat && (length a <=? 9)%nat &&
                          byte_in 49 57 d && forallb digit b
      | _, _ => false
      end
  | _ => false
  end.


Definition trim_slash (s : string) : string := if has_suffix s "/" then of_chars (removelast (chars s)) else s.
Definition trim_root (s : string) : string := match s with String c s' => if Ascii.eqb c "/"%char then s' else s | EmptyString => s end.

(** The key and the canonical path of a request's path. *)
Definition bare_path (p : string) : string := let p := trim_slash p in if String.eqb p "" then "/" else p.
Definition key_of (p : string) : string := trim_root (bare_path p).
Definition canonical_path (p : string) : string := if documentKey (key_of p) then "/" +:+ to_upper (key_of p) else bare_path p.

(** [path.Clean] of a rooted path *)
Definition clean_step (stack : list string) (part : string) : list string :=
  if String.eqb part "" || String.eqb part "." then stack
  else if String.eqb part ".." then tail stack else part :: stack.
Definition clean (p : string) : string := "/" +:+ str_join "/" (rev (fold_left clean_step (str_split "/"%char p) [])).

(** The text before the first [?], and from it on. *)
Fixpoint cut_query (s : string) : string * string :=
  match s with
  | EmptyString => ("", "")
  | String c s' => if Ascii.eqb c "?"%char then ("", s) else let '(a, b) := cut_query s' in (String c a, b)
  end.

(** [hexEscapeNonASCII] *)
Definition escape_byte (c : ascii) : list ascii :=
  if (128 <=? byte_of c)%nat then "%"%char :: hex_fixed 2 (N.of_nat (byte_of c)) else [c].
Definition hexEscapeNonASCII (s : string) : string := of_chars (flat_map escape_byte (chars s)).

Section documents.
Context {DL : DocLib}.

(** [http.Redirect] to a target with a leading slash: what goes into [Location]. *)
Definition redirect_location (url : string) : string :=
  hexEscapeNonASCII
    (match url_host url with
     | Some "" =>
         let '(path, query) := cut_query url in
         let cleaned := clean path in
         (if has_suffix path "/" && negb (has_suffix cleaned "/") then cleaned +:+ "/" else cleaned) +:+ query
     | _ => url
     end).

(** * Rendering *)

(** [html.EscapeString] *)
Definition html_char (c : ascii) : list ascii :=
  if Ascii.eqb c "&"%char then chars "&amp;"
  else if Ascii.eqb c "'"%char then chars "&#39;"
  else if Ascii.eqb c "<"%char then chars "&lt;"
  else if Ascii.eqb c ">"%char then chars "&gt;"
  else if Ascii.eqb c dquote then chars "&#34;" else [c].
Definition EscapeString (l : list ascii) : list ascii := flat_map html_char l.

Fixpoint starts (old l : list ascii) : option (list ascii) :=
  match old, l with
  | [], _ => Some l
  | o :: old, c :: l => if Ascii.eqb o c then starts old l else None
  | _ :: _, [] => None
  end.
(** [bytes.Replace(l, old, new, 1)] for a nonempty [old] *)
Fixpoint replace_first (old new l : list ascii) : list ascii :=
  match starts old l with
  | Some rest => new ++ rest
  | None => match l with [] => [] | c :: l => c :: replace_first old new l end
  end.

Definition quoted_attr (name value : string) : list ascii := chars name ++ ["="%char; dquote] ++ chars value ++ [dquote].

Definition motion_text (m : option bool) : string := match m with Some true => "reduce" | Some false => "full" | None => "system" end.

(** [json.Unmarshal] of one member into a string: absent and null leave it empty. *)
Definition member_text (k : string) (m : list (string * json)) : option string :=
  match obj_get k m with Some (JStr s) => Some s | Some JNull | None => Some "" | Some _ => None end.
Definition object_members (v : json) : option (list (string * json)) :=
  match v with JObj m => Some m | JNull => Some [] | _ => None end.

Definition page_state := list (string * json).
Definition dot : string := of_chars [Ascii.ascii_of_nat 194; Ascii.ascii_of_nat 183].
Definition titled (what : string) : string := what +:+ " " +:+ dot +:+ " Sierx".

Definition page_title (st : page_state) : string :=
  let by_route :=
    match obj_get "route" st with
    | Some (JStr "login") => titled "Sign in"
    | Some (JStr "list") =>
        match obj_get "selected_project" st with
        | Some project =>
            match object_members project ≫= member_text "name" with
            | Some name => if String.eqb name "" then titled "Workspace" else titled name
            | None => titled "Workspace"
            end
        | None => titled "Workspace"
        end
    | Some (JStr "item") => titled "Work item"
    | Some (JStr "privacy") => titled "Privacy"
    | Some (JStr "copyright") => titled "Copyright"
    | Some (JStr "third-party") => titled "Third-party notices"
    | _ => "Sierx"
    end in
  match obj_get "document_title" st with
  | Some (JStr custom) => if String.eqb custom "" then by_route else custom
  | _ => by_route
  end.

(** The page before its state is put in. *)
Definition dressed (template : list ascii) (st : page_state) (theme : string) (motion : option bool) : list ascii :=
  let t := replace_first (quoted_attr "data-theme" "system") (quoted_attr "data-theme" (Accounts.canonicalTheme theme)) template in
  let t := replace_first (quoted_attr "data-motion" "system") (quoted_attr "data-motion" (motion_text motion)) t in
  replace_first (chars "<title>Sierx</title>") (chars "<title>" ++ EscapeString (chars (page_title st)) ++ chars "</title>") t.

Definition script_open : list ascii :=
  chars "<script id=" ++ [dquote] ++ chars "sierx-state" ++ [dquote] ++ chars " type=" ++ [dquote] ++ chars "application/json" ++ [dquote; ">"%char].
Definition script_close : list ascii := chars "</script></head>".

(** [renderDocument]; the template is [dist/index.html], [None] if it cannot be read. *)
Definition renderDocument (template : option (list ascii)) (st : page_state) (theme : string) (motion : option bool) : result Problem_ (list ascii) :=
  match template with
  | None => Err Unavailable
  | Some t => Ok (replace_first (chars "</head>") (script_open ++ marshal_html (JObj st) ++ script_close) (dressed t st theme motion))
  end.

(** A page is a reply with its text. *)
Definition html_reply (r : result Problem_ (list ascii)) : reply :=
  match r with Ok page => RDoc 200 None None (JStr (of_chars page)) | Err p => RProblem p end.

(** * What pages start with *)

(** A request to an endpoint from inside the server: path, query and [{key}]. *)
Record inner_request := mkInner { ir_path : string; ir_query : Cursor.query; ir_key : string }.

(** The server as the pages use it: its endpoints by handler, the tables, the
    template and the inventory of third-party parts. *)
Context {UU : UuidParse}.
Context (endpoint : string -> Auth.Identity -> inner_request -> reply) (s : Site).
Context (template : option (list ascii)) (inventory : option (result unit (list (string * json)))) (env : Env.Env).

Definition problem_doc (p : Problem_) : json :=
  JObj ([("type", JStr (Type_ p)); ("title", JStr (Title p)); ("status", JInt (Status p)); ("detail", JStr (Detail p))] ++
        match Current p with Some c => [("current", c)] | None => [] end ++ match Submitted p with Some c => [("submitted", c)] | None => [] end).

(** [captureAPI]: the body of an endpoint's answer to the same caller, whatever its
    status. *)
Definition captureAPI (who : Auth.Identity) (handler path : string) (q : Cursor.query) (key : string) : json :=
  match endpoint handler who (mkInner path q key) with
  | RProblem p => problem_doc p
  | RDoc _ _ _ doc => doc
  end.

Definition identity_doc (who : Auth.Identity) : json :=
  JObj [("id", JStr (Auth.i_ID who)); ("email", JStr (Auth.i_Email who)); ("display_name", JStr (Auth.i_DisplayName who));
        ("workspace_id", JStr (Auth.i_WorkspaceID who)); ("role", JStr (Auth.i_Role who)); ("theme", JStr (Auth.i_Theme who));
        ("reduced_motion", match Auth.i_ReducedMotion who with Some b => JBool b | None => JNull end)].
Definition anonymous : Auth.Identity := Auth.mkIdentity "" "" "" "" "" "system" None.

Definition render_page (st : page_state) (who : Auth.Identity) : result Problem_ (list ascii) :=
  renderDocument template st (Auth.i_Theme who) (Auth.i_ReducedMotion who).
Definition notice_json (notice : list (string * string)) : json := JObj ((fun kv => (kv.1, JStr kv.2)) <$> notice).
Definition complete (notice : list (string * string)) : bool := forallb (fun kv : string * string => negb (String.eqb (trim_space kv.2) "")) notice.

Definition privacy_notice : list (string * string) :=
  [("operator", Env.OperatorName env); ("contact", Env.PrivacyContact env); ("retention", Env.PrivacyRetention env); ("backups", Env.PrivacyBackups env);
   ("services", Env.PrivacyServices env); ("version", Env.PrivacyVersion env); ("effective_date", Env.PrivacyEffectiveDate env)].
Definition copyright_notice : list (string * string) :=
  [("operator", Env.OperatorName env); ("agent", Env.CopyrightAgent env); ("contact", Env.CopyrightContact env); ("notice_process", Env.CopyrightNotice env);
   ("counter_notice_process", Env.CopyrightCounterNotice env); ("repeat_infringer_policy", Env.RepeatInfringerPolicy env)].

Definition bootstrapPrivacy : result Problem_ (list ascii) :=
  render_page [("route", JStr "privacy"); ("notice", notice_json privacy_notice); ("configured", JBool (complete privacy_notice))] anonymous.
Definition bootstrapCopyright : result Problem_ (list ascii) :=
  render_page [("route", JStr "copyright"); ("notice", notice_json copyright_notice); ("configured", JBool (complete copyright_notice))] anonymous.
Definition bootstrapThirdParty : result Problem_ (list ascii) :=
  match inventory with
  | None => Err Unavailable
  | Some (Err _) => Err InternalError
  | Some (Ok m) =>
      let m := if String.eqb (trim_space (Env.PrivacyServices env)) "" then m else obj_set "operator_services" (JStr (Env.PrivacyServices env)) m in
      render_page [("route", JStr "third-party"); ("inventory", JObj (obj_set "operator" (JStr (Env.OperatorName env)) m))] anonymous
  end.
Definition mode_json : json := JStr (Env.AuthMode env).
Definition bootstrapLogin : result Problem_ (list ascii) := render_page [("route", JStr "login"); ("auth_mode", mode_json)] anonymous.

Definition workspace_of (who : Auth.Identity) : result Problem_ uuid :=
  match uuid_parse (Auth.i_WorkspaceID who) with Some ws => Ok ws | None => Err (databaseProblem (Some (PgError "22P02"))) end.
(** [SELECT value FROM seq_counter WHERE workspace_id=$1] *)
Definition sequence_of (who : Auth.Identity) : result Problem_ Z :=
  let* ws := workspace_of who in
  match seq_counter (s_db s) !! ws with Some n => Ok n | None => Err (databaseProblem (Some NoRows)) end.
Definition project_shown (ws : uuid) (prefix : string) : bool :=
  existsb (fun r : uuid * Project => bool_decide (p_workspace r.2 = ws) && String.eqb (p_key_prefix r.2) prefix &&
             match s_project s !! r.1 with Some row => negb (pj_archived row) | None => false end) (map_to_list (projects (s_db s))).

Definition listProjection : string := "id,key,title,version,change_seq,status,type,parent,project,assignee,rank,points,updated_at".
Definition hundred : Cursor.query := [("limit", ["100"])].
Definition with_project (project : string) (l : list (string * json)) : list (string * json) := if String.eqb project "" then [] else l.

Definition bootstrapList (who : Auth.Identity) (q : Cursor.query) : result Problem_ (list ascii) :=
  let* sequence := sequence_of who in
  let* ws := workspace_of who in
  let project := Cursor.q_get q "project" in
  if negb (String.eqb project "") && negb (project_shown ws project) then Err NotFound
  else
    let text := Cursor.q_get q "q" in
    let items := [("fields", [listProjection]); ("limit", ["100"])] ++ (if String.eqb project "" then [] else [("project", [project])]) ++ [("q", [text])] in
    render_page ([("route", JStr "list"); ("change_seq", JInt sequence); ("query", JStr text); ("project", JStr project);
             ("items", captureAPI who "listItems" "/api/v1/items" items ""); ("projects", captureAPI who "listProjects" "/api/v1/projects" hundred "");
             ("me", identity_doc who); ("auth_mode", mode_json)] ++
            with_project project [("selected_project", captureAPI who "getProject" ("/api/v1/projects/" +:+ project) [] project)]) who.

Definition for_admin (who : Auth.Identity) (st : page_state) : result Problem_ (list ascii) :=
  if negb (String.eqb (Auth.i_Role who) "admin") then Err Forbidden else render_page st who.
Definition bootstrapSettings (who : Auth.Identity) : result Problem_ (list ascii) :=
  for_admin who
    [("route", JStr "settings"); ("document_title", JStr (titled "Workspace settings")); ("me", identity_doc who); ("auth_mode", mode_json);
     ("workspace", captureAPI who "workspaceSettings" "/api/v1/workspace" [] ""); ("projects", captureAPI who "listProjects" "/api/v1/projects" hundred "")].
Definition bootstrapAdmin (who : Auth.Identity) : result Problem_ (list ascii) :=
  for_admin who
    [("route", JStr "admin"); ("document_title", JStr (titled "Administrator Home")); ("me", identity_doc who); ("auth_mode", mode_json);
     ("members", captureAPI who "listAdminMembers" "/api/v1/admin/members" hundred "")].

(** What the page reads back of the item: key, title, project and whether it is
    deleted; [None] if a member has another type. *)
Definition item_summary (data : json) : option (string * string * string * bool) :=
  m ← object_members data; key ← member_text "key" m; title ← member_text "title" m;
  project ← match obj_get "project" m with Some v => object_members v | None => Some [] end;
  prefix ← member_text "key_prefix" project;
  deleted ← match obj_get "deleted_at" m with Some (JStr _) => Some true | Some JNull | None => Some false | Some _ => None end;
  Some (key, title, prefix, deleted).

Definition bootstrapItem (who : Auth.Identity) (path : string) : result Problem_ (list ascii) :=
  let* sequence := sequence_of who in
  let key := trim_root path in
  let data := captureAPI who "getItem" ("/api/v1/items/" +:+ key) [] key in
  let st := [("route", JStr "item"); ("change_seq", JInt sequence); ("item", data); ("me", identity_doc who); ("auth_mode", mode_json)] in
  match item_summary data with
  | Some (ikey, title, prefix, deleted) =>
      if String.eqb prefix "" then render_page st who
      else
        let st := st ++ [("document_title", JStr (ikey +:+ " " +:+ dot +:+ " " +:+ titled title));
                         ("config", captureAPI who "projectConfig" ("/api/v1/projects/" +:+ prefix +:+ "/config") [] prefix);
                         ("history", captureAPI who "itemHistory" ("/api/v1/items/" +:+ key +:+ "/history") [] key)] in
        if deleted then render_page st who
        else render_page (st ++ [("children", captureAPI who "listItems" "/api/v1/items"
                               [("fields", ["key,title,status,rank"]); ("limit", ["100"]); ("q", ["parent = " +:+ Compile.quote_text key +:+ " order by rank"])] "");
                            ("comments", captureAPI who "listComments" "/api/v1/comments" [("item", [key])] key);
                            ("links", captureAPI who "listLinks" ("/api/v1/items/" +:+ key +:+ "/links") [] key)]) who
  | None => render_page st who
  end.

(** * Routes *)

Inductive page := PList | PLogin | PPrivacy | PCopyright | PThirdParty | PSettings | PAdmin | PItem.
#[export] Instance page_eq : EqDecision page.
Proof. solve_decision. Defined.

Definition documentRoutes : list (string * page) :=
  [("/", PList); ("/login", PLogin); ("/privacy", PPrivacy); ("/copyright", PCopyright); ("/third-party", PThirdParty);
   ("/settings", PSettings); ("/admin", PAdmin); ("/:key", PItem)].
Definition page_at (path key : string) : option page :=
  match obj_get path documentRoutes with
  | Some pg => Some pg
  | None => if documentKey key then Some PItem else None
  end.
Definition public (path : string) : bool := mem_str path ["/login"; "/privacy"; "/copyright"; "/third-party"].

(** The page a handler makes; the public ones need no identity. *)
Definition page_html (pg : page) (who : Auth.Identity) (path : string) (q : Cursor.query) : result Problem_ (list ascii) :=
  match pg with
  | PList => bootstrapList who q
  | PLogin => bootstrapLogin
  | PPrivacy => bootstrapPrivacy
  | PCopyright => bootstrapCopyright
  | PThirdParty => bootstrapThirdParty
  | PSettings => bootstrapSettings who
  | PAdmin => bootstrapAdmin who
  | PItem => bootstrapItem who path
  end.

Inductive doc_answer := Moved (status : Z) (location : string) | Answer (r : reply).

(** A GET of a page: the decoded path, the raw query and its values. *)
Record doc_request := mkDocRequest { dr_path : string; dr_raw : string; dr_query : Cursor.query; dr_in : Scope.incoming }.

Definition with_query (path raw : string) : string := if String.eqb raw "" then path else path +:+ "?" +:+ raw.

Section served.
Context {CR : Crypto} {AC : AuthCrypto} {CT : Codec Auth.totpState}.

(** The transaction of a request opens, so its handler runs. *)
Definition scope_opens (cn : Scope.connection) : bool := Scope.cn_pool cn && is_ok (Scope.cn_begin cn) && is_ok (Scope.cn_scope cn).

(** [document] *)
Definition document (cn : Scope.connection) (db : Auth.Db) (now : Z) (r : doc_request) : doc_answer :=
  let cf := Env.auth_config_of env in
  let path := canonical_path (dr_path r) in
  if negb (String.eqb path (dr_path r)) then Moved 308 (redirect_location (with_query path (dr_raw r)))
  else match page_at path (key_of (dr_path r)) with
  | None => Answer (RProblem NotFound)
  | Some pg =>
      if public path then Answer (html_reply (page_html pg anonymous path (dr_query r)))
      else
        let next who (_ : unit) := Scope.mkOutcome (html_reply (page_html pg who path (dr_query r))) tt Scope.Later in
        let recorded := (Scope.requireAuth cf cn db now next (dr_in r) tt).1 in
        let authorized := is_ok (Scope.identify cf db now (dr_in r)) && scope_opens cn in
        if negb authorized && (reply_status recorded =? 401) && String.eqb (Env.AuthMode env) "local"
        then Moved 303 (redirect_location "/login") else Answer recorded
  end.

End served.
End documents.
End Documents.
