(* ===== verification/DocumentsProps.v ===== *)
(** Pages: nothing a workspace holds becomes markup, a page is made for the identity
    of the request or for nobody, and where a redirect leads. *)
From S2P Require Import Prelude Utf8 Uuid Json Journal JournalDemo Auth AuthProps Throttle Db Problem Site Accounts Cursor Env EnvProps Scope ScopeProps Documents.
Open Scope Z_scope.

Module DocumentsProps.
Import Db Problem Site JournalDemo AuthProps ScopeProps Documents.

(** * Markup *)

(** The tags of a text, by their opening character. *)
Definition angles (l : list ascii) : nat := length (List.filter (Ascii.eqb "<"%char) l).
Lemma angles_app a b : angles (a ++ b) = (angles a + angles b)%nat.
Proof. unfold angles. by rewrite List.filter_app, length_app. Qed.
Lemma angles_none l : Forall (fun c => c <> "<"%char) l -> angles l = 0%nat.
Proof.
  intros Hl. induction Hl as [|c l Hc _ IH]; [done|]. unfold angles in *. cbn [List.filter].
  by destruct (Ascii.eqb_spec "<"%char c) as [<-|].
Qed.

Lemma starts_spec old l rest : starts old l = Some rest <-> l = old ++ rest.
Proof.
  revert l. induction old as [|o old IH]; intros l; cbn [starts app]; [split; [by intros [= ->]|by intros ->]|].
  destruct l as [|c l]; [done|]. destruct (Ascii.eqb_spec o c) as [->|Hne].
  - rewrite IH. split; [by intros ->|by intros [= ->]].
  - split; [done|]. intros [= <- _]. done.
Qed.

Definition occurs (old l : list ascii) : Prop := exists a b, l = a ++ old ++ b.
(** The first occurrence is replaced, if there is one. *)
Lemma replace_first_spec old new l :
  (~ occurs old l /\ replace_first old new l = l) \/ exists a b, l = a ++ old ++ b /\ replace_first old new l = a ++ new ++ b.
Proof.
  induction l as [|c l IH]; cbn [replace_first].
  - destruct (starts old []) as [rest|] eqn:E; [right; apply starts_spec in E; by exists [], rest|left]. split; [|done].
    intros (a & b & Hl). destruct a; [|done]. apply (proj2 (starts_spec old [] b)) in Hl. congruence.
  - destruct (starts old (c :: l)) as [rest|] eqn:E; [right; apply starts_spec in E; exists [], rest; by rewrite E|].
    destruct IH as [[Hn ->]|(a & b & Hl & ->)]; [left|right; exists (c :: a), b; by rewrite Hl]. split; [|done].
    intros (a & b & Hl). destruct a as [|c' a]; [apply (proj2 (starts_spec old (c :: l) b)) in Hl; congruence|]. injection Hl as <- ->. apply Hn. by exists a, b.
Qed.
Lemma replace_first_angles old new l : angles old = angles new -> angles (replace_first old new l) = angles l.
Proof.
  intros E. destruct (replace_first_spec old new l) as [[_ ->]|(a & b & -> & ->)]; [done|]. rewrite !angles_app. lia.
Qed.

Lemma EscapeString_inert l : Forall (fun c => c <> "<"%char /\ c <> ">"%char /\ c <> "'"%char /\ c <> dquote) (EscapeString l).
Proof.
  induction l as [|c l IH]; [constructor|]. unfold EscapeString. cbn [flat_map]. apply Forall_app. split; [|exact IH]. unfold html_char.
  repeat match goal with |- context [Ascii.eqb c ?d] => destruct (Ascii.eqb_spec c d); [repeat constructor; discriminate|] end.
  repeat constructor; done.
Qed.
Lemma EscapeString_angles l : angles (EscapeString l) = 0%nat.
Proof. apply angles_none. eapply Forall_impl; [apply EscapeString_inert|]. by intros c []. Qed.

Lemma canonicalTheme_known theme : Accounts.validTheme (Accounts.canonicalTheme theme) = true.
Proof.
  unfold Accounts.canonicalTheme. repeat match goal with |- context [if String.eqb ?a ?b then _ else _] => destruct (String.eqb a b); [done|] end.
  by destruct (Accounts.validTheme theme) eqn:E.
Qed.
Lemma validTheme_plain theme : Accounts.validTheme theme = true -> forallb (fun c => alpha c || Ascii.eqb c "-"%char) (chars theme) = true.
Proof.
  unfold Accounts.validTheme. rewrite orb_true_iff, !mem_str_spec. intros H.
  assert (Hall : Forall (fun t => forallb (fun c => alpha c || Ascii.eqb c "-"%char) (chars t) = true) (Accounts.appearanceThemes ++ Accounts.legacyThemes))
    by (repeat constructor).
  rewrite Forall_forall in Hall. apply Hall. by rewrite elem_of_app.
Qed.
Lemma attr_angles name value : angles (chars name) = 0%nat -> forallb (fun c => alpha c || Ascii.eqb c "-"%char) (chars value) = true -> angles (quoted_attr name value) = 0%nat.
Proof.
  intros Hn Hv. unfold quoted_attr. rewrite !angles_app, Hn. rewrite (angles_none (chars value)); [done|].
  rewrite List.forallb_forall in Hv. apply Forall_forall. intros c Hc ->. apply list_elem_of_In, Hv in Hc. done.
Qed.

Section rendering.
Context {DL : DocLib}.

Lemma dressed_angles t st theme motion : angles (dressed t st theme motion) = angles t.
Proof.
  unfold dressed. rewrite replace_first_angles, replace_first_angles, replace_first_angles; [done| | |].
  - rewrite !attr_angles; try done. apply validTheme_plain, canonicalTheme_known.
  - rewrite !attr_angles; try done. by destruct motion as [[]|].
  - rewrite !angles_app, EscapeString_angles. done.
Qed.

(** C14. Nothing a workspace holds becomes markup: for any state, theme and motion,
    the page has the tags of the template, with the title, theme and motion set
    inside them, and exactly one element more, a script of JSON before the first end
    of a head, whose text has no character that could end it; if the template has no
    head there is no script. *)
Theorem renderDocument_inert t st theme motion page :
  renderDocument (Some t) st theme motion = Ok page ->
  let d := dressed t st theme motion in
  angles d = angles t /\ Forall (fun c => c <> "<"%char /\ c <> ">"%char /\ c <> "&"%char) (marshal_html (JObj st)) /\
  ((~ occurs (chars "</head>") d /\ page = d) \/
   exists a b, d = a ++ chars "</head>" ++ b /\ page = a ++ script_open ++ marshal_html (JObj st) ++ script_close ++ b /\
     angles page = (angles t + 2)%nat).
Proof.
  unfold renderDocument. intros E%Ok_inj. rewrite <- E. cbv zeta. split; [apply dressed_angles|]. split; [apply marshal_html_inert|].
  rewrite <- (dressed_angles t st theme motion). set (d := dressed t st theme motion).
  destruct (replace_first_spec (chars "</head>") (script_open ++ marshal_html (JObj st) ++ script_close) d) as [[Hn ->]|(a & b & Hd & ->)];
    [by left|right]. exists a, b. split; [done|]. split; [by rewrite <- !app_assoc|].
  assert (Hm : angles (marshal_html (JObj st)) = 0%nat) by (apply angles_none; eapply Forall_impl; [apply marshal_html_inert|by intros c []]).
  rewrite Hd, !angles_app, Hm. change (angles script_open) with 1%nat. change (angles script_close) with 2%nat.
  change (angles (chars "</head>")) with 1%nat. lia.
Qed.

End rendering.

(** * Identity *)

Section identity.
Context {DL : DocLib} {UU : UuidParse} {CR : Crypto} {AC : AuthCrypto} {CT : Codec Auth.totpState}.
Context (endpoint : string -> Auth.Identity -> inner_request -> reply) (s : Site).
Context (template : option (list ascii)) (inventory : option (result unit (list (string * json)))) (env : Env.Env).
Abbreviation served := (document endpoint s template inventory env).
Abbreviation html pg who path q := (html_reply (page_html endpoint s template inventory env pg who path q)).

Lemma databaseProblem_not_401 e : Status (databaseProblem e) <> 401.
Proof. unfold databaseProblem. destruct e as [[|code]|]; [done| |done]. destruct (String.eqb _ _); [done|]. by destruct (mem_str _ _). Qed.
Lemma closed_scope_problem {S : Type} cn who (next : Auth.Identity -> S -> Scope.outcome S) x :
  scope_opens cn = false -> exists p, (Scope.withRequestScope cn who next x).1 = RProblem p /\ Status p <> 401.
Proof.
  unfold scope_opens, Scope.withRequestScope. destruct (Scope.cn_pool cn); cbn [negb andb]; [|intros _; by exists Unavailable].
  destruct (Scope.cn_begin cn) as [u|e]; cbn [is_ok andb]; [|intros _; eexists; split; [done|apply databaseProblem_not_401]].
  destruct (Scope.cn_scope cn) as [u'|e]; cbn [is_ok andb]; [done|intros _; eexists; split; [done|apply databaseProblem_not_401]].
Qed.
Lemma open_scope_reply {S : Type} cn who (next : Auth.Identity -> S -> Scope.outcome S) x :
  scope_opens cn = true -> (Scope.withRequestScope cn who next x).1 = Scope.oc_reply (next who x).
Proof.
  unfold scope_opens, Scope.withRequestScope. destruct (Scope.cn_pool cn); [cbn [negb andb]|done].
  destruct (Scope.cn_begin cn); [cbn [is_ok andb]|done]. by destruct (Scope.cn_scope cn).
Qed.

Lemma for_admin_role who st x : for_admin template who st = Ok x -> Auth.i_Role who = "admin".
Proof. unfold for_admin. destruct (String.eqb_spec (Auth.i_Role who) "admin"); done. Qed.

(** A page is made for the identity of its request or for nobody: what is answered
    at a path with a page is the page of an active account, in a workspace and with a
    role it has at that moment, and the settings and administration pages only come
    to administrators; or one of the four public pages, made without an identity; or
    a problem. Without an identity a local installation leads to the sign-in page. *)
Theorem document_authentic cn db now r pg a :
  served cn db now r = a -> canonical_path (dr_path r) = dr_path r -> page_at (dr_path r) (key_of (dr_path r)) = Some pg ->
  match a with
  | Moved st loc => st = 303 /\ loc = redirect_location "/login" /\ public (dr_path r) = false /\
      exists p, Scope.identify (Env.auth_config_of env) db now (dr_in r) = Err p
  | Answer rep =>
      (public (dr_path r) = true /\ rep = html pg anonymous (dr_path r) (dr_query r)) \/
      (public (dr_path r) = false /\ exists p, rep = RProblem p) \/
      (public (dr_path r) = false /\ exists who, Scope.identify (Env.auth_config_of env) db now (dr_in r) = Ok who /\ authentic db who /\
        rep = html pg who (dr_path r) (dr_query r) /\
        (forall st et loc doc, (pg = PSettings \/ pg = PAdmin) -> rep = RDoc st et loc doc -> Auth.i_Role who = "admin"))
  end.
Proof.
  intros <- Hc Hpg. unfold document. rewrite Hc, String.eqb_refl, Hpg. cbn [negb]. destruct (public (dr_path r)); [by left|]. cbv zeta.
  destruct (Scope.identify _ db now _) as [who|p] eqn:Hid; cbn [is_ok andb].
  - destruct (identify_authentic _ _ _ _ _ Hid) as (Ha & _). unfold Scope.requireAuth. rewrite Hid.
    destruct (scope_opens cn) eqn:Ho; cbn [negb andb].
    + rewrite open_scope_reply by done. right. right. split; [done|]. exists who. split_and!; try done.
      intros st et loc doc Hadm Hrep. cbn in Hrep. destruct (page_html _ _ _ _ _ pg who _ _) as [x|] eqn:Hp in Hrep; [|done].
      destruct Hadm as [-> | ->]; cbn in Hp; by apply for_admin_role in Hp.
    + destruct (closed_scope_problem cn who (fun who (_ : unit) => Scope.mkOutcome (html pg who (dr_path r) (dr_query r)) tt Scope.Later) tt Ho)
        as (p & -> & Hp). cbn [reply_status]. rewrite (proj2 (Z.eqb_neq _ _) Hp). cbn [andb]. right. left. split; [done|by eexists].
  - unfold Scope.requireAuth. rewrite Hid. cbn [fst negb andb reply_status].
    destruct ((Status p =? 401) && _); [split_and!; [done|done|done|by exists p]|]. right. left. split; [done|by eexists].
Qed.

End identity.

(** * Redirects *)

(** A path of this site: one slash, and not a second ([//host] names another). *)
Definition local_path (u : string) : bool :=
  match u with
  | String c u => Ascii.eqb c "/"%char && match u with String d _ => negb (Ascii.eqb d "/"%char) | EmptyString => true end
  | EmptyString => false
  end.
Definition plain (k : string) : Prop := Forall (fun c => c <> "/"%char) (chars k).

Lemma local_root k : plain k -> local_path (String "/" k) = true.
Proof. destruct k as [|d k]; [done|]. intros [Hd _]%Forall_cons. cbn. by apply negb_true_iff, Ascii.eqb_neq. Qed.
Lemma local_app u v : local_path u = true -> (u = "/" -> match v with String c _ => c <> "/"%char | EmptyString => True end) -> local_path (u +:+ v) = true.
Proof.
  destruct u as [|c [|d u]]; [done| |by cbn]. cbn. rewrite !andb_true_r. intros ->%Ascii.eqb_eq Hv. specialize (Hv eq_refl).
  destruct v as [|e v]; [done|]. cbn. by apply negb_true_iff, Ascii.eqb_neq.
Qed.
Lemma suffix_slash p : has_suffix (p +:+ "/") "/" = true.
Proof. unfold has_suffix. rewrite chars_app, rev_app_distr. cbn. done. Qed.
Lemma suffix_plain p c : c <> "/"%char -> has_suffix (p +:+ String c "") "/" = false.
Proof. intros Hc. unfold has_suffix. rewrite chars_app, rev_app_distr. cbn. by rewrite (proj2 (Ascii.eqb_neq _ _) Hc). Qed.
Lemma trim_slash_app p : trim_slash (p +:+ "/") = p.
Proof. unfold trim_slash. rewrite suffix_slash, chars_app. cbn [chars]. by rewrite removelast_last, of_chars_chars. Qed.

(** The end of a nonempty text. *)
Lemma str_snoc k : k <> "" -> exists k0 c, k = k0 +:+ String c "" /\ c ∈ chars k.
Proof.
  intros Hk. destruct (chars k) as [|x l] eqn:E using rev_ind; [by destruct k|]. exists (of_chars l), x. split; [|by set_solver].
  apply chars_inj. rewrite chars_app, chars_of_chars. by rewrite E.
Qed.
Lemma bare_plain k : plain k -> bare_path (String "/" k) = String "/" k.
Proof.
  intros Hk. destruct (decide (k = "")) as [->|Hne]; [done|]. destruct (str_snoc k Hne) as (k0 & c & -> & Hc).
  unfold bare_path, trim_slash. change (String "/" (k0 +:+ String c "")) with (String "/" k0 +:+ String c ""). rewrite suffix_plain; [done|].
  exact (proj1 (Forall_forall _ _) Hk c Hc).
Qed.
Lemma bare_slash k : plain k -> bare_path (String "/" k +:+ "/") = String "/" k.
Proof. intros Hk. unfold bare_path. by rewrite trim_slash_app. Qed.

Lemma upper_char_plain c : c <> "/"%char -> upper_char c <> "/"%char.
Proof. intros Hc. destruct c as [[] [] [] [] [] [] [] []]; vm_compute; try discriminate; done. Qed.
Lemma upper_char_idem c : upper_char (upper_char c) = upper_char c.
Proof. by destruct c as [[] [] [] [] [] [] [] []]. Qed.
Lemma to_upper_plain k : plain k -> plain (to_upper k).
Proof.
  intros Hk. unfold plain, to_upper in *. rewrite chars_of_chars. induction Hk; [constructor|]. constructor; [by apply upper_char_plain|done].
Qed.
Lemma to_upper_idem k : to_upper (to_upper k) = to_upper k.
Proof.
  unfold to_upper. rewrite chars_of_chars. f_equal. induction (chars k) as [|c l IH]; [done|]. cbn. by rewrite upper_char_idem, IH.
Qed.

(** The canonical path of a path of one segment, with or without a slash behind it. *)
Definition canonical_key (k : string) : string := if documentKey k then to_upper k else k.
Lemma canonical_plain p k : plain k -> p = String "/" k \/ p = String "/" k +:+ "/" -> canonical_path p = String "/" (canonical_key k).
Proof.
  intros Hk Hp. assert (Hb : bare_path p = String "/" k) by (destruct Hp as [-> | ->]; [by apply bare_plain|by apply bare_slash]).
  unfold canonical_path, key_of. rewrite Hb. unfold canonical_key. cbn. by destruct (documentKey k).
Qed.
Lemma canonical_key_plain k : plain k -> plain (canonical_key k).
Proof. intros Hk. unfold canonical_key. destruct (documentKey k); [by apply to_upper_plain|done]. Qed.
Lemma canonical_key_idem k : canonical_key (canonical_key k) = canonical_key k.
Proof.
  unfold canonical_key. destruct (documentKey k) eqn:E; [|by rewrite E]. rewrite to_upper_idem. by destruct (documentKey (to_upper k)).
Qed.

Lemma split_plain p : Forall plain (str_split "/"%char p).
Proof.
  unfold str_split. induction (chars p) as [|c l IH]; cbn; [repeat constructor|].
  destruct (split_chars_cons "/"%char l) as (w & ws & E). rewrite E in *. destruct (Ascii.eqb_spec c "/"%char) as [->|Hc].
  - cbn in *. constructor; [constructor|exact IH].
  - cbn in *. apply Forall_cons in IH as [Hw Hws]. constructor; [|exact Hws]. unfold plain in *. cbn. by constructor.
Qed.
Lemma clean_stack l stack : Forall plain l -> Forall (fun x => plain x /\ x <> "") stack -> Forall (fun x => plain x /\ x <> "") (fold_left clean_step l stack).
Proof.
  intros Hl. revert stack. induction Hl as [|x l Hx _ IH]; intros stack Hs; [done|]. cbn [fold_left]. apply IH. unfold clean_step.
  destruct (String.eqb_spec x "") as [->|Hne]; [done|]. cbn [orb]. destruct (String.eqb x "."); [done|].
  destruct (String.eqb x ".."); [by destruct Hs|by constructor].
Qed.
Lemma clean_local p : local_path (clean p) = true.
Proof.
  unfold clean. pose proof (clean_stack _ [] (split_plain p) (Forall_nil_2 _)) as Hs. apply Forall_rev in Hs. revert Hs.
  generalize (rev (fold_left clean_step (str_split "/"%char p) [])). intros l Hl. destruct Hl as [|x l [Hx Hne] _]; [done|].
  destruct x as [|c x]; [done|]. apply Forall_cons in Hx as [Hc _]. destruct l; cbn; by apply negb_true_iff, Ascii.eqb_neq.
Qed.

Lemma escape_local u : local_path u = true -> local_path (hexEscapeNonASCII u) = true.
Proof.
  destruct u as [|c u]; [done|]. cbn [local_path]. intros [->%Ascii.eqb_eq Hd]%andb_prop. unfold hexEscapeNonASCII. cbn [chars flat_map].
  change (escape_byte "/"%char) with ["/"%char]. cbn [app of_chars local_path]. rewrite Ascii.eqb_refl. destruct u as [|d u]; [done|]. cbn [chars flat_map].
  unfold escape_byte at 1. destruct (128 <=? byte_of d)%nat; [done|]. exact Hd.
Qed.

Lemma cut_query_spec u : exists p q, cut_query u = (p, q) /\ u = p +:+ q /\ match q with String c _ => c = "?"%char | EmptyString => True end.
Proof.
  induction u as [|c u (p & q & E & -> & Hq)]; [by exists "", ""|]. cbn [cut_query]. destruct (Ascii.eqb_spec c "?"%char) as [->|Hc].
  - by eexists "", _.
  - rewrite E. by exists (String c p), q.
Qed.

Section redirect.
Context {DL : DocLib}.

Lemma redirect_local k raw : plain k -> local_path (redirect_location (with_query (String "/" k) raw)) = true.
Proof.
  intros Hk. set (u := with_query _ _).
  assert (Hu : local_path u = true).
  { unfold u, with_query. destruct (String.eqb raw ""); [by apply local_root|]. apply local_app; [by apply local_root|done]. }
  assert (Hhost : url_host u = None \/ url_host u = Some "").
  { destruct u as [|c [|d u']]; [done| |]; cbn in Hu; apply andb_prop in Hu as [->%Ascii.eqb_eq Hd].
    - right. apply url_host_root.
    - apply url_host_local. by apply negb_true_iff, Ascii.eqb_neq in Hd. }
  unfold redirect_location. apply escape_local. destruct Hhost as [-> | ->]; [exact Hu|].
  destruct (cut_query_spec u) as (p & q & -> & _ & Hq).
  assert (Hx : local_path (if has_suffix p "/" && negb (has_suffix (clean p) "/") then clean p +:+ "/" else clean p) = true).
  { destruct (_ && _) eqn:E; [|apply clean_local]. apply local_app; [apply clean_local|]. intros Ec. rewrite Ec in E. cbn in E. by rewrite andb_false_r in E. }
  apply local_app; [exact Hx|]. intros _. destruct q; [done|]. subst. done.
Qed.

End redirect.

(** ** A redirect stays and ends *)

Section moves.
Context {DL : DocLib} {UU : UuidParse} {CR : Crypto} {AC : AuthCrypto} {CT : Codec Auth.totpState}.
Context (endpoint : string -> Auth.Identity -> inner_request -> reply) (s : Site).
Context (template : option (list ascii)) (inventory : option (result unit (list (string * json)))) (env : Env.Env).

(** For a path of one segment, with or without a slash behind it, every redirect
    leads to a path of this site, and one to the canonical form is the last: at that
    path no request is redirected to another form again. *)
Theorem document_moves cn db now r k st loc :
  plain k -> dr_path r = String "/" k \/ dr_path r = String "/" k +:+ "/" ->
  document endpoint s template inventory env cn db now r = Moved st loc ->
  local_path loc = true /\
  (st = 308 -> forall cn' db' now' r' loc', dr_path r' = canonical_path (dr_path r) ->
     document endpoint s template inventory env cn' db' now' r' <> Moved 308 loc').
Proof.
  intros Hk Hp Hd. pose proof (canonical_plain _ _ Hk Hp) as Hc. split.
  - unfold document in Hd. rewrite Hc in Hd. destruct (negb _); [injection Hd as <- <-; by apply redirect_local, canonical_key_plain|].
    destruct (page_at _ _); [|done]. destruct (public _); [done|]. cbv zeta in Hd. destruct (_ && String.eqb _ "local"); [|done]. injection Hd as <- <-.
    apply (redirect_local "login" ""). repeat constructor; discriminate.
  - intros _ cn' db' now' r' loc' Hr. unfold document. rewrite Hc in Hr. rewrite Hr.
    rewrite (canonical_plain (String "/" (canonical_key k)) (canonical_key k)), canonical_key_idem, String.eqb_refl
      by (by left || by apply canonical_key_plain).
    cbn [negb]. destruct (page_at _ _); [|done]. destruct (public _); [done|]. cbv zeta. by destruct (_ && String.eqb _ "local").
Qed.

End moves.

(** * Runs *)

(** The host of a target as [url.Parse] finds it, and a printer of JSON that escapes
    as [json.Marshal] does. *)
Definition host_of (u : string) : option string :=
  if has_prefix u "//" && negb (has_prefix u "///") then Some (default "" (head (str_split "/"%char (str_drop 2 u)))) else Some "".
Definition inert_char (c : ascii) : list ascii :=
  if Ascii.eqb c "<"%char then chars "\u003c" else if Ascii.eqb c ">"%char then chars "\u003e"
  else if Ascii.eqb c "&"%char then chars "\u0026" else if Ascii.eqb c dquote then ["\"%char; dquote] else [c].
Definition json_string (s : string) : list ascii := [dquote] ++ chars s ++ [dquote].
Fixpoint json_chars (v : json) : list ascii :=
  match v with
  | JNull | JNum _ => chars "null"
  | JBool b => chars (if b then "true" else "false")
  | JInt z => chars (z_text z)
  | JStr t => json_string t
  | JArr l => chars "[" ++ flat_map (fun v => json_chars v ++ chars ",") l ++ chars "]"
  | JObj m => chars "{" ++ flat_map (fun kv => json_string kv.1 ++ chars ":" ++ json_chars kv.2 ++ chars ",") m ++ chars "}"
  end.
Definition inert_json (v : json) : list ascii :=
  flat_map (fun c => if Ascii.eqb c dquote then [c] else inert_char c) (json_chars v).
#[local] Program Instance demo_lib : DocLib := { url_host := host_of; marshal_html := inert_json }.
Next Obligation.
  intros c s Hc. right. unfold host_of. cbn. rewrite (proj2 (Ascii.eqb_neq _ _) Hc). done.
Qed.
Next Obligation. reflexivity. Qed.
Next Obligation.
  intros v. unfold inert_json. apply Forall_forall. intros c Hc. apply list_elem_of_In, in_flat_map in Hc as (e & _ & Hc).
  destruct (Ascii.eqb e dquote) eqn:Eq.
  - apply Ascii.eqb_eq in Eq. rewrite Eq in Hc. destruct Hc as [<-|[]]. done.
  - unfold inert_char in Hc. rewrite Eq in Hc. destruct (Ascii.eqb_spec e "<"%char), (Ascii.eqb_spec e ">"%char), (Ascii.eqb_spec e "&"%char);
      cbn in Hc; repeat destruct Hc as [<-|Hc]; done.
Qed.

(** [web/index.html] before the build names its script. *)
Definition index_html : list ascii :=
  chars "<!doctype html><html " ++ quoted_attr "lang" "en" ++ chars " " ++ quoted_attr "data-theme" "system" ++ chars " " ++
  quoted_attr "data-motion" "system" ++ chars "><head><title>Sierx</title></head><body><div " ++ quoted_attr "id" "root" ++ chars "></div></body></html>".
Definition hostile : page_state := [("route", JStr "item"); ("document_title", JStr "</title><script>alert(1)"); ("item", JStr "</script><script>")].
Definition hostile_page : list ascii := match renderDocument (Some index_html) hostile "dark" (Some true) with Ok p => p | Err _ => [] end.
Lemma hostile_ok : renderDocument (Some index_html) hostile "dark" (Some true) = Ok hostile_page.
Proof. reflexivity. Qed.
Example hostile_ex :
  hostile_page =
  chars "<!doctype html><html " ++ quoted_attr "lang" "en" ++ chars " " ++ quoted_attr "data-theme" "dusk" ++ chars " " ++
  quoted_attr "data-motion" "reduce" ++ chars "><head><title>&lt;/title&gt;&lt;script&gt;alert(1)</title>" ++ script_open ++
  inert_json (JObj hostile) ++ chars "</script></head><body><div " ++ quoted_attr "id" "root" ++ chars "></div></body></html>".
Proof. vm_compute. reflexivity. Qed.
Lemma renderDocument_inert_witness : angles hostile_page = (angles index_html + 2)%nat.
Proof.
  destruct (renderDocument_inert index_html hostile "dark" (Some true) hostile_page hostile_ok) as (_ & _ & [[Hn _]|(a & b & _ & _ & Ha)]).
  - exfalso. apply Hn. exists (take 127 (dressed index_html hostile "dark" (Some true))), (drop 134 (dressed index_html hostile "dark" (Some true))).
    vm_compute. reflexivity.
  - exact Ha.
Defined.

(** A local installation with one administrator, who is signed in. *)
Definition local_env : Env.Env := Env.read_env (fun k => if String.eqb k "SIERX_AUTH_MODE" then "local" else "") "private" 0 [] "".
Definition empty_site : Site := mkSite (mkDb ∅ ∅ ∅ ∅ ∅ [] ∅ ∅ ∅ ∅ ∅) ∅ ∅ ∅ ∅ ∅ ∅ ∅ ∅ ∅ ∅.
Definition demo_endpoint (h : string) (who : Auth.Identity) (i : inner_request) : reply := RDoc 200 None None (JStr h).
Definition get (path raw : string) (token : option string) : doc_request :=
  mkDocRequest path raw [] (Scope.mkIncoming "GET" None token None []).
Definition demo_serve (r : doc_request) : doc_answer :=
  document demo_endpoint empty_site (Some index_html) None local_env (ready (Ok tt)) signed_in 4000 r.

Example document_ex :
  let show a := match a with Moved st loc => (st, loc) | Answer rep => (reply_status rep, "") end in
  (show (demo_serve (get "/ops-7/" "q=x" None)), show (demo_serve (get "/OPS-7" "" None)), show (demo_serve (get "/settings" "" (Some demo_login.1))),
   show (demo_serve (get "/login" "" None)), show (demo_serve (get "/missing" "" None)))
  = ((308, "/OPS-7?q=x"), (303, "/login"), (200, ""), (200, ""), (404, "")).
Proof. vm_compute. reflexivity. Qed.

(** A path whose first segment is empty, which reaches the handler when the slash
    is escaped ([/%2Fevil.example/]), is redirected to another host. *)
Theorem document_leaves :
  demo_serve (get "//evil.example/" "" None) = Moved 308 "//evil.example" /\ local_path "//evil.example" = false.
Proof. vm_compute. split; reflexivity. Qed.

Lemma document_moves_witness : local_path "/OPS-7?q=x" = true.
Proof.
  apply (document_moves demo_endpoint empty_site (Some index_html) None local_env (ready (Ok tt)) signed_in 4000 (get "/ops-7/" "q=x" None) "ops-7" 308 _).
  - repeat constructor; discriminate.
  - right. reflexivity.
  - vm_compute. reflexivity.
Defined.

Definition settings_request : doc_request := get "/settings" "" (Some demo_login.1).
Definition settings_reply : reply := match demo_serve settings_request with Answer r => r | Moved _ _ => RProblem NotFound end.
Lemma settings_ok : demo_serve settings_request = Answer settings_reply.
Proof. vm_compute. reflexivity. Qed.
Lemma settings_doc : exists st et loc doc, settings_reply = RDoc st et loc doc.
Proof. vm_compute. do 4 eexists. reflexivity. Qed.

Lemma document_authentic_witness :
  exists who, authentic signed_in who /\ Auth.i_Role who = "admin" /\
    settings_reply = html_reply (page_html demo_endpoint empty_site (Some index_html) None local_env PSettings who "/settings" []).
Proof.
  destruct settings_doc as (st & et & loc & doc & Hd).
  destruct (document_authentic demo_endpoint empty_site (Some index_html) None local_env (ready (Ok tt)) signed_in 4000
    settings_request PSettings _ settings_ok eq_refl eq_refl) as [[Hp _]|[[_ [p Hp]]|(_ & who & _ & Ha & Hrep & Hadm)]].
  - discriminate Hp.
  - rewrite Hd in Hp. discriminate Hp.
  - exists who. split; [exact Ha|]. split; [|exact Hrep]. apply (Hadm st et loc doc); [by left|exact Hd].
Defined.

End DocumentsProps.
