(* ===== verification/Seed.v ===== *)
(** The seed generator ([internal/store/seed/seed.go], [cmd/sierxctl/seed.go]): its
    random source, the plan of a batch, links, history and the summary, on the same
    write path as the server ([Mutate.Mutate]). *)
From S2P Require Import Prelude Utf8 Uuid Ltree DateTime Float Json Journal Auth Db Events Mutate Site Workflow Projects Bootstrap.
Open Scope Z_scope.

Module Seed.
Import Db Events Mutate Site Projects Bootstrap.

(** * math/rand/v2 *)

(** A source of draws: [draw n] is [IntN n] for a positive [n]. *)
Class Rng := {
  rng : Type;
  NewRand : Z -> rng;
  draw : Z -> rng -> Z * rng;
  draw_range : forall n g, 0 < n -> 0 <= (draw n g).1 < n
}.

Definition wrap_u64 (z : Z) : Z := z mod 2 ^ 64.
(** [rand.PCG]: a 128-bit congruence with the DXSM output. *)
Definition pcg_next (p : Z) : Z := (p * (2549297995355413924 * 2 ^ 64 + 4865540595714422341) + (6364136223846793005 * 2 ^ 64 + 1442695040888963407)) mod 2 ^ 128.
Definition pcg_output (p : Z) : Z :=
  let hi := Z.shiftr p 64 in
  let lo := wrap_u64 p in
  let hi := Z.lxor hi (Z.shiftr hi 32) in
  let hi := wrap_u64 (hi * 15750249268501108917) in
  let hi := Z.lxor hi (Z.shiftr hi 48) in
  wrap_u64 (hi * Z.lor lo 1).
(** The rejection loop of [uint64n]; its first draw is almost always taken. *)
Fixpoint pcg_reject (fuel : nat) (n thresh : Z) (p : Z) : Z * Z :=
  let p := pcg_next p in
  let x := pcg_output p * n in
  match fuel with
  | S fuel => if wrap_u64 x <? thresh then pcg_reject fuel n thresh p else (Z.shiftr x 64, p)
  | O => (Z.shiftr x 64, p)
  end.
Definition pcg_draw (n p : Z) : Z * Z :=
  if Z.land n (n - 1) =? 0 then let p := pcg_next p in (Z.land (pcg_output p) (n - 1), p)
  else pcg_reject 64 n ((2 ^ 64 - n) mod n) p.

(** * Options and errors *)

Record Options := mkOptions { Seed_ : Z; Items : Z; Projects_ : Z; MaxDepth : Z; Users : Z; Slug : string; HistoryDays : Z }.
(** Nine months; a duration is kept as its days. *)
Definition DefaultOptions : Options := mkOptions 1 10000 5 6 8 "seed" 273.

(** [Panic] is [IntN] of a number that is not positive, an index out of range or a
    slice of a negative capacity;
    [Retries] is the given number of link batches, used up. *)
Inductive seed_err := SeedErr (s : string) | SeedDb (e : dberr) | SeedStore (e : store_err) | Panic | Retries.

Record project := mkSeedProject {
  sp_id : uuid; sp_prefix : string; sp_kind : string; sp_statuses : gmap string uuid; sp_types : gmap string uuid; sp_byDepth : list (list uuid) }.
(** A missing key of a Go map is the zero value. *)
Definition key_id (k : string) (m : gmap string uuid) : uuid := default uuid_nil (m !! k).

Definition alphabet_at (i : Z) : ascii := Ascii.ascii_of_nat (Z.to_nat (65 + i mod 26)).
(** AAA, AAB, ... *)
Definition projectPrefix (i : Z) : string := of_chars [alphabet_at (i / 676); alphabet_at (i / 26); alphabet_at i].

(** [fnv.New128a] over the text, stamped with version 7 and the variant. *)
Definition fnv128a (l : list ascii) : Z :=
  fold_left (fun h c => (Z.lxor h (Z.of_nat (byte_of c)) * (2 ^ 88 + 315)) mod 2 ^ 128) l 144066263297769815596495629667062367629.
(** Byte [i] of sixteen masked and stamped. *)
Definition stamp (i : Z) (mask bits h : Z) : Z :=
  let at_ := 8 * (15 - i) in
  Z.lor (Z.land h (Z.lxor (2 ^ 128 - 1) (Z.shiftl (Z.lxor 255 mask) at_))) (Z.shiftl bits at_).
Definition deterministicUUID (kind : string) (seed n : Z) : uuid :=
  let h := fnv128a (chars (kind +:+ ":" +:+ z_text seed +:+ ":" +:+ z_text n)) in
  U (Z.to_N (stamp 8 63 128 (stamp 6 15 112 h))).

Section seed.
Context {RG : Rng}.

Definition IntN (n : Z) (g : rng) : result seed_err (Z * rng) := if n <=? 0 then Err Panic else Ok (draw n g).
(** [l[rng.IntN(len(l))]] *)
Definition pick {A} (l : list A) (g : rng) : result seed_err (A * rng) :=
  let* (i, g) := IntN (Z.of_nat (length l)) g in
  match l !! Z.to_nat i with Some x => Ok (x, g) | None => Err Panic end.
(** [rng.IntN(100) < n] *)
Definition chance (n : Z) (g : rng) : result seed_err (bool * rng) := let* (i, g) := IntN 100 g in Ok (i <? n, g).

(** * Choices *)

Definition typeForDepth (p : project) (depth : nat) (g : rng) : result seed_err (uuid * rng) :=
  if (depth <=? 1)%nat then Ok (key_id "initiative" (sp_types p), g)
  else if (depth =? 2)%nat then Ok (key_id "epic" (sp_types p), g)
  else
    let* (i, g) := IntN 5 g in
    Ok (key_id (if i =? 0 then "bug" else "story") (sp_types p), g).

Definition statusForSeed (p : project) (g : rng) : result seed_err (string * uuid * rng) :=
  let* (n, g) := IntN 100 g in
  let k := if n <? 42 then "todo" else if n <? 60 then "doing" else if n <? 68 then "review" else if n <? 96 then "done" else "dropped" in
  Ok (k, key_id k (sp_statuses p), g).

(** [today] is the day of the run. *)
Definition seedDates (today : Z) (opts : Options) (g : rng) : result seed_err (option string * option string * rng) :=
  let* (skip, g) := chance 35 g in
  if skip then Ok (None, None, g)
  else
    let* (offset, g) := IntN (HistoryDays opts) g in
    let* (span, g) := IntN 28 g in
    Ok (Some (format_date (today - offset)), Some (format_date (today - offset + 7 + span)), g).

Definition verbs : list string := ["Migrate"; "Harden"; "Instrument"; "Refactor"; "Document"; "Benchmark"; "Backport"; "Deprecate"].
Definition nouns : list string :=
  ["ingest path"; "cursor sync"; "board renderer"; "rank rebalance"; "restore harness"; "partition maintenance"; "session store"; "query planner";
   "config loader"; "audit log"].
Definition tails : list string := ["on ARM"; "under load"; "for the Pi target"; "in the offline case"; ""; ""; ""].
Definition seedTitle (g : rng) : result seed_err (string * rng) :=
  let* (v, g) := pick verbs g in
  let* (n, g) := pick nouns g in
  let* (t, g) := pick tails g in
  Ok (trim_space (v +:+ " " +:+ n +:+ " " +:+ t), g).

Definition line (s : string) : string := s +:+ String newline "".
Definition seedBody (g : rng) : result seed_err (option string * rng) :=
  let* (skip, g) := chance 40 g in
  if skip then Ok (None, g)
  else
    let* (a, g) := IntN 9 g in
    let* (b, g) := IntN 9 g in
    Ok (Some (line "## Context" +:+ line "" +:+ line "Seeded item." +:+ line "" +:+
              line ("- [ ] step " +:+ z_text (a + 1)) +:+ line ("- [ ] step " +:+ z_text (b + 1))), g).

Definition seedFields (g : rng) : result seed_err (option (list (string * json)) * rng) :=
  let* (skip, g) := chance 50 g in
  if skip then Ok (None, g)
  else
    let* (i, g) := IntN 2 g in
    let* (impact, g) := if i =? 0 then let* (n, g) := IntN 5 g in Ok ([("impact", JInt (n + 1))], g) else Ok ([], g) in
    let* (j, g) := IntN 2 g in
    let* (component, g) := if j =? 0 then let* (c, g) := pick ["api"; "web"; "infra"] g in Ok ([("component", JStr c)], g) else Ok ([], g) in
    Ok (match impact ++ component with [] => None | m => Some m end, g).

(** * The plan of a batch *)

Record plan := mkPlan { pl_project : nat; pl_id : uuid; pl_depth : nat; pl_parent : option uuid }.
Definition pool := list (list uuid).
Definition level (d : nat) (p : pool) : list uuid := default [] (p !! d).

(** The shallowest empty level below one that is not. *)
Definition forced_level (max : nat) (p : pool) : option nat :=
  List.find (fun d => match level d p, level (d - 1) p with [], _ :: _ => true | _, _ => false end) (seq 2 (max - 1)).

(** The walk from the deepest level up: [d] levels are left. *)
Fixpoint descend (d : nat) (p : pool) (g : rng) : result seed_err (nat * option uuid * rng) :=
  match d with
  | O => Ok (1%nat, None, g)
  | S d' =>
      match level d p with
      | [] => descend d' p g
      | candidates =>
          let* (take_, g) := if (d =? 1)%nat then Ok (true, g) else chance 55 g in
          if take_ then let* (x, g) := pick candidates g in Ok (S d, Some x, g) else descend d' p g
      end
  end.

Definition choose_parent (max : nat) (p : pool) (g : rng) : result seed_err (nat * option uuid * rng) :=
  match forced_level max p with
  | Some d => let* (x, g) := pick (level (d - 1) p) g in Ok (d, Some x, g)
  | None =>
      let* (below, g) := chance 70 g in
      if below then descend (max - 1) p g else Ok (1%nat, None, g)
  end.

Definition add_to (d : nat) (id : uuid) (p : pool) : pool := alter (fun l => l ++ [id]) d p.

Definition plan_one (max : nat) (id : uuid) (pools : list pool) (g : rng) : result seed_err (plan * list pool * rng) :=
  let* (i, g) := IntN (Z.of_nat (length pools)) g in
  let i := Z.to_nat i in
  match pools !! i with
  | None => Err Panic
  | Some p =>
      let* (depth, parent, g) := choose_parent max p g in
      Ok (mkPlan i id depth parent, <[i := add_to depth id p]> pools, g)
  end.
Fixpoint plan_all (max : nat) (ids : list uuid) (pools : list pool) (g : rng) : result seed_err (list plan * list pool * rng) :=
  match ids with
  | [] => Ok ([], pools, g)
  | id :: ids =>
      let* (pl, pools, g) := plan_one max id pools g in
      let* (pls, pools, g) := plan_all max ids pools g in
      Ok (pl :: pls, pools, g)
  end.

(** * Items *)

Context (today : Z) (opts : Options).

Definition points_scale : list float64 := (fun z => of_decimal false z 0) <$> [1; 2; 3; 5; 8; 13].

(** One [m.Create], its choices in their order. *)
Definition create_verb (origin : uuid) (users : list uuid) (projects : list project) (pl : plan) (g : rng) : result seed_err (verb * rng) :=
  match projects !! pl_project pl with
  | None => Err Panic
  | Some p =>
      let* (_, status, g) := statusForSeed p g in
      let* (some, g) := chance 70 g in
      let* (assignee, g) := if some then let* (u, g) := pick users g in Ok (Some u, g) else Ok (None, g) in
      let* (some, g) := chance 80 g in
      let* (points, g) := if some then let* (x, g) := pick points_scale g in Ok (Some x, g) else Ok (None, g) in
      let* (start, due, g) := seedDates today opts g in
      let* (type, g) := typeForDepth p (pl_depth pl) g in
      let* (title, g) := seedTitle g in
      let* (body, g) := seedBody g in
      let* (fields, g) := seedFields g in
      Ok (VCreate uuid_nil (mkInsert (pl_id pl) (sp_id p) type status (pl_parent pl) title body assignee points start due fields origin None None ""), g)
  end.
Fixpoint create_verbs (origin : uuid) (users : list uuid) (projects : list project) (pls : list plan) (g : rng) : result seed_err (list verb * rng) :=
  match pls with
  | [] => Ok ([], g)
  | pl :: pls =>
      let* (v, g) := create_verb origin users projects pl g in
      let* (vs, g) := create_verbs origin users projects pls g in
      Ok (v :: vs, g)
  end.

Definition with_pool (p : project) (q : pool) : project := mkSeedProject (sp_id p) (sp_prefix p) (sp_kind p) (sp_statuses p) (sp_types p) q.
(** A step on the database: an error leaves what was committed before it. *)
Definition step (A : Type) : Type := Db -> result seed_err A * Db.
Definition planning {A B} (r : result seed_err A) (k : A -> step B) : step B := fun db => match r with Ok x => k x db | Err e => (Err e, db) end.
Definition then_ {A B} (m : step A) (k : A -> step B) : step B := fun db => match m db with (Ok x, db) => k x db | (Err e, db) => (Err e, db) end.
Definition done_ {A} (x : A) : step A := fun db => (Ok x, db).

Section write.
Context {UU : UuidParse} (new_item : N -> uuid) (ws origin : uuid) (users : list uuid).

Definition store_step {A} (vs : list verb) (os : list mutate_option) (k : result store_err Result_ -> step A) : step A := fun db =>
  let '(r, db) := Mutate ws (callback vs) (run_option <$> os) db in k r db.

(** The pools after a batch are those the plan left. *)
Definition seedBatch (ids : list uuid) (projects : list project) (g : rng) : step (list project * rng) :=
  planning (plan_all (Z.to_nat (MaxDepth opts)) ids (sp_byDepth <$> projects) g) (fun '(pls, pools, g) =>
  planning (create_verbs origin users projects pls g) (fun '(vs, g) =>
  store_step vs [] (fun r =>
    match r with
    | Ok _ => done_ (zip_with with_pool projects pools, g)
    | Err e => planning (Err (SeedStore e)) done_
    end))).

(** The batches of 200; [fuel] is the number of items, each batch makes one at
    least. *)
Fixpoint batches (fuel : nat) (created : Z) (projects : list project) (g : rng) : step (list project * rng) :=
  match fuel with
  | O => done_ (projects, g)
  | S fuel =>
      if Items opts <=? created then done_ (projects, g)
      else
        let n := Z.min 200 (Items opts - created) in
        then_ (seedBatch ((fun k => new_item (Z.to_N created + N.of_nat k)) <$> seq 0 (Z.to_nat n)) projects g) (fun '(projects, g) =>
        batches fuel (created + n) projects g)
  end.

(** * Links *)

Definition kinds : list string := ["blocks"; "duplicates"; "relates"; "implements"; "discovered_from"].
Definition pair_of (l : LinkChange) : uuid * uuid * string := (lc_From l, lc_To l, lc_Kind l).

(** The choice of up to [n] different links in [tries] tries. *)
Fixpoint choose_links (tries : nat) (n : nat) (all : list uuid) (links : list LinkChange) (g : rng) : result seed_err (list LinkChange * rng) :=
  match tries with
  | O => Ok (links, g)
  | S tries =>
      if (length links =? n)%nat then Ok (links, g)
      else
        let* (from, g) := pick all g in
        let* (to, g) := pick all g in
        if bool_decide (from = to) then choose_links tries n all links g
        else
          let* (kind, g) := pick kinds g in
          let l := mkLinkChange uuid_nil from to uuid_nil kind in
          if bool_decide (pair_of l ∈ pair_of <$> links) then choose_links tries n all links g
          else choose_links tries n all (links ++ [l]) g
  end.

Definition is_duplicate (e : store_err) : bool := match e with ErrDb (PgError code) => String.eqb code "23505" | _ => false end.

(** The batches of 100. A batch that meets a link of an earlier one is tried again,
    with new choices: [retries] bounds the batches. *)
Fixpoint link_batches (retries : nat) (new_link : nat -> uuid) (all : list uuid) (target made : Z) (g : rng) : step (Z * rng) :=
  if target <=? made then done_ (made, g)
  else match retries with
  | O => planning (Err Retries) done_
  | S retries =>
      let n := Z.to_nat (Z.min 100 (target - made)) in
      planning (choose_links (n * 2) n all [] g) (fun '(links, g) =>
      match links with
      | [] => done_ (made, g)
      | _ =>
          planning (pick users g) (fun '(actor, g) =>
          store_step (zip_with (fun k l => VLink (new_link k) l) (seq (retries * 100) (length links)) links) [OActor actor] (fun r =>
            match r with
            | Ok _ => link_batches retries new_link all target (made + Z.of_nat (length links)) g
            | Err e => if is_duplicate e then link_batches retries new_link all target made g else planning (Err (SeedStore e)) done_
            end))
      end)
  end.

Definition all_items (projects : list project) : list uuid := concat ((fun p => concat (sp_byDepth p)) <$> projects).
Definition seedLinks (retries : nat) (new_link : nat -> uuid) (projects : list project) (g : rng) : step (Z * rng) :=
  let all := all_items projects in
  if (length all <? 2)%nat then done_ (0, g) else link_batches retries new_link all (Z.of_nat (length all / 20)) 0 g.

(** * History *)

Record history_step := mkStep { hs_id : uuid; hs_from : string; hs_to : string; hs_status : uuid; hs_actor : uuid }.
Definition arcs : list (string * string) := [("todo", "doing"); ("doing", "review"); ("review", "done")].

Fixpoint walk_arcs (p : project) (id : uuid) (path : list (string * string)) (g : rng) : result seed_err (list history_step * rng) :=
  match path with
  | [] => Ok ([], g)
  | (from, to) :: path =>
      let* (actor, g) := pick users g in
      let* (steps, g) := walk_arcs p id path g in
      Ok (mkStep id from to (key_id to (sp_statuses p)) actor :: steps, g)
  end.
Fixpoint walk_items (p : project) (ids : list uuid) (g : rng) : result seed_err (list history_step * rng) :=
  match ids with
  | [] => Ok ([], g)
  | id :: ids =>
      let* (third, g) := IntN 3 g in
      let* (here, g) :=
        if third =? 0 then
          let* (n, g) := IntN (Z.of_nat (length arcs)) g in walk_arcs p id (take (Z.to_nat (1 + n)) arcs) g
        else Ok ([], g) in
      let* (rest, g) := walk_items p ids g in
      Ok (here ++ rest, g)
  end.
Fixpoint walk_projects (projects : list project) (g : rng) : result seed_err (list history_step * rng) :=
  match projects with
  | [] => Ok ([], g)
  | p :: projects =>
      let* (here, g) := walk_items p (concat (sp_byDepth p)) g in
      let* (rest, g) := walk_projects projects g in
      Ok (here ++ rest, g)
  end.

Definition status_verb (s : history_step) : verb :=
  VUpdate (mkUpdate (hs_id s) None None false (Some (hs_status s)) None None false None false None false None false None None)
    [mkFieldChange EventStatusChanged "status_id" (Some (JStr (hs_from s))) (Some (JStr (hs_to s)))].
(** Chunks of 200; [fuel] is the number of steps. *)
Fixpoint history_batches (fuel : nat) (steps : list history_step) : step unit :=
  match fuel, steps with
  | S fuel, s :: _ =>
      store_step (status_verb <$> take 200 steps) [OActor (hs_actor s)] (fun r =>
        match r with
        | Ok _ => history_batches fuel (drop 200 steps)
        | Err e => planning (Err (SeedStore e)) done_
        end)
  | _, _ => done_ tt
  end.
Definition seedHistory (projects : list project) (g : rng) : step unit :=
  planning (walk_projects projects g) (fun '(steps, _) => history_batches (length steps) steps).

End write.
End seed.

(** * A run *)

(** [numeric(6,2)::text] *)
Definition points_text (z : Z) : string := z_text (z / 100) +:+ "." +:+ zpad 2 (z mod 100).

(** What the checksum's query uses: [jsonb::text], [ORDER BY] on texts, [md5]. *)
Class SeedSql := { jsonb_text : json -> string; sorted_texts : list string -> list string; md5 : string -> string }.

Record Summary := mkSummary { su_WorkspaceID : uuid; su_Items : Z; su_MaxDepth : Z; su_Links : Z; su_Events : Z; su_Checksum : string }.

Section summary.
Context {SQ : SeedSql}.

Definition or_dash (o : option string) : string := default "-" o.
(** The text of an item in the checksum, with its joins. *)
Definition signature (db : Db) (i : Item) : option string :=
  s ← statuses db !! i_status i; t ← item_types db !! i_type i;
  Some (str_join ":" [i_title i; s_key s; t_key t; or_dash (points_text <$> i_points i); or_dash (format_date <$> i_start i); or_dash (format_date <$> i_due i);
                      or_dash (i_body i); jsonb_text (i_fields i); itoa (Ltree.nlevel (i_path i))]).

Definition ws_items (ws : uuid) (db : Db) : list Item := List.filter (fun i => bool_decide (i_workspace i = ws)) (map_to_list (items db)).*2.
(** [SeedChecksum]: the count, the depth and the checksum. *)
Definition SeedChecksum (ws : uuid) (db : Db) : Z * Z * string :=
  let rows := omap (fun i => option_map (fun sig => (sig, Ltree.nlevel (i_path i))) (signature db i)) (ws_items ws db) in
  (Z.of_nat (length rows), Z.of_nat (foldr Nat.max 0%nat rows.*2), md5 (str_join "|" (sorted_texts rows.*1))).
(** [MaxEventSeq] *)
Definition MaxEventSeq (ws : uuid) (db : Db) : Z :=
  foldr Z.max 0 (e_seq <$> List.filter (fun e => bool_decide (e_workspace e = ws)) (events db)).

Definition summarize (ws : uuid) (links : Z) (db : Db) : Summary :=
  let '(n, depth, checksum) := SeedChecksum ws db in mkSummary ws n depth links (MaxEventSeq ws db) checksum.

End summary.

(** The identifiers the database and [uuid.NewV7] give. *)
Record supply := mkSupply {
  sy_workspace : uuid; sy_user : nat -> uuid; sy_project : nat -> uuid; sy_status : nat -> string -> uuid; sy_type : nat -> string -> uuid;
  sy_item : N -> uuid; sy_link : nat -> uuid }.

Definition two_digits (n : nat) : string := if (n <? 10)%nat then "0" +:+ itoa n else itoa n.
Definition workspace_slug (opts : Options) : string := Slug opts +:+ "-" +:+ z_text (Seed_ opts).

(** A step on the whole database. *)
Definition wstep (A : Type) : Type := world -> result seed_err A * world.
Definition w_then {A B} (m : wstep A) (k : A -> wstep B) : wstep B := fun w => match m w with (Ok x, w) => k x w | (Err e, w) => (Err e, w) end.
Definition w_done {A} (x : A) : wstep A := fun w => (Ok x, w).
(** One statement: on an error nothing changes. *)
Definition statement (name : dberr -> seed_err) (f : world -> result dberr world) : wstep unit := fun w =>
  match f w with Ok w => (Ok tt, w) | Err e => (Err (name e), w) end.
Definition on_site (f : Site -> result dberr Site) (w : world) : result dberr world :=
  let* s := f (b_site w) in Ok (mkWorld s (b_auth w)).
Definition on_db {A} (m : step A) : wstep A := fun w =>
  let '(r, db) := m (s_db (b_site w)) in (r, mkWorld (set_db db (b_site w)) (b_auth w)).

(** A range that is empty for a negative bound. *)
Definition upto (n : Z) : list nat := seq 0 (Z.to_nat n).

Fixpoint each {A B} (f : A -> wstep B) (l : list A) : wstep (list B) :=
  match l with
  | [] => w_done []
  | x :: l => w_then (f x) (fun y => w_then (each f l) (fun ys => w_done (y :: ys)))
  end.

Definition kind_of (count : Z) (i : nat) : string :=
  match i with O => "delivery" | 1%nat => "discovery" | 2%nat => if 3 <? count then "portfolio" else "delivery" | _ => "delivery" end.

(** [ListStatuses] and [ListItemTypes] as the maps made of them. *)
Definition status_map (p : uuid) (db : Db) : gmap string uuid :=
  list_to_map (omap (fun r : uuid * Db.Status => if bool_decide (Db.s_project r.2 = p) then Some (s_key r.2, r.1) else None) (map_to_list (statuses db))).
Definition type_map (p : uuid) (db : Db) : gmap string uuid :=
  list_to_map (omap (fun r : uuid * ItemType => if bool_decide (t_project r.2 = p) then Some (t_key r.2, r.1) else None) (map_to_list (item_types db))).

(** The statements of [store/gen] that create what items are put into; an account is
    created without a password, a project without an owner and its first
    configuration without a source. *)
Definition CreateWorkspace (id : uuid) (slug name : string) (origin : uuid) : world -> result dberr world :=
  insert_workspace id origin (Bootstrap.mkOptions slug name "" "" "" "" "" "").
Definition CreateUser (id : uuid) (email display_name : string) : world -> result dberr world :=
  insert_account id (Bootstrap.mkOptions "" "" email display_name "" "" "" "") None.
Definition CreateProject (id ws : uuid) (prefix name kind : string) : Site -> result dberr Site :=
  insert_project id ws (mkProjectInput prefix name kind None) None.
Definition InsertProjectConfig (p : uuid) : Site -> result dberr Site := insert_first_config p.

Section run.
Context {RG : Rng} {UU : UuidParse} {SQ : SeedSql} (sy : supply) (today : Z) (retries : nat).

(** Each statement commits on its own. *)
Definition create_project_step (opts : Options) (i : nat) : wstep project :=
  let p := sy_project sy i in
  let kind := kind_of (Projects_ opts) i in
  let prefix := projectPrefix (Z.of_nat i) in
  w_then (statement SeedDb (on_site (CreateProject p (sy_workspace sy) prefix ("Seed " +:+ kind +:+ " " +:+ itoa (i + 1)) kind))) (fun _ =>
  w_then (statement SeedDb (on_site (InsertProjectConfig p))) (fun _ =>
  w_then (statement SeedDb (on_site (configSQL (sy_status sy i) (sy_type sy i) p))) (fun _ w =>
    let db := s_db (b_site w) in
    (Ok (mkSeedProject p prefix kind (status_map p db) (type_map p db) (replicate (Z.to_nat (MaxDepth opts) + 1) [])), w)))).
Definition createProjects (opts : Options) : wstep (list project) := each (create_project_step opts) (upto (Projects_ opts)).

Definition create_user_step (opts : Options) (i : nat) : wstep uuid :=
  let email := "user" +:+ two_digits i +:+ "@" +:+ workspace_slug opts +:+ ".seed" in
  w_then (statement SeedDb (CreateUser (sy_user sy i) email ("Seed User " +:+ two_digits i))) (fun _ => w_done (sy_user sy i)).

(** A taken slug has a message of its own. *)
Definition workspace_error (opts : Options) (w : world) (e : dberr) : seed_err :=
  if existsb (fun x => String.eqb (w_slug x) (workspace_slug opts)) (map_to_list (s_workspace (b_site w))).*2
  then SeedErr ("seed: workspace " +:+ workspace_slug opts +:+ " already exists") else SeedDb e.

Definition origin_id (opts : Options) : uuid := deterministicUUID "origin" (Seed_ opts) 0.

Definition Run (opts : Options) : wstep Summary := fun w =>
  if (Items opts <=? 0) || (Projects_ opts <=? 0) || (MaxDepth opts <? 1)
  then (Err (SeedErr "seed: items, projects and max depth must be positive"), w)
  else
    let ws := sy_workspace sy in
    w_then (statement (workspace_error opts w) (CreateWorkspace ws (workspace_slug opts) "Seed workspace" (origin_id opts))) (fun _ =>
    if Users opts <? 0 then fun w => (Err Panic, w) else
    w_then (each (create_user_step opts) (upto (Users opts))) (fun users =>
    w_then (createProjects opts) (fun projects =>
    w_then (on_db (batches today opts (sy_item sy) ws (origin_id opts) users (Z.to_nat (Items opts)) 0 projects (NewRand (Seed_ opts)))) (fun '(projects, g) =>
    w_then (on_db (seedLinks ws users retries (sy_link sy) projects g)) (fun '(links, g) =>
    w_then (on_db (seedHistory ws users projects g)) (fun _ w =>
      (Ok (summarize ws links (s_db (b_site w))), w))))))) w.

(** [runSeed], from the parsed flags on; the output is two lines. *)
Definition runSeed (flags : result string Options) (dsn : string) (w : world) : result string (list string) * world :=
  match flags with
  | Err e => (Err e, w)
  | Ok opts =>
      if 8 <? MaxDepth opts then (Err "--max-depth cannot exceed 8 (SPEC §5.3)", w)
      else if String.eqb dsn "" then (Err "DATABASE_URL is unset", w)
      else match Run opts w with
           | (Ok s, w) =>
               (Ok ["seed: workspace=" +:+ uuid_string (su_WorkspaceID s) +:+ " items=" +:+ z_text (su_Items s) +:+ " max_depth=" +:+ z_text (su_MaxDepth s) +:+
                    " links=" +:+ z_text (su_Links s) +:+ " events=" +:+ z_text (su_Events s);
                    "seed: checksum=" +:+ su_Checksum s], w)
           | (Err _, w) => (Err "seed failed", w)
           end
  end.

End run.

End Seed.
