(* ===== verification/SeedProps.v ===== *)
(** The seed generator: its planning always succeeds and builds a tree of the asked
    depth, its runs keep the invariants of the store, whatever becomes of them, and
    what its summary depends on. *)
From S2P Require Import Prelude Utf8 Uuid Ltree DateTime Float Json Journal Auth Db Events Mutate StoreTree Store StoreRollup Site Workflow Projects.
From S2P Require Import ProjectsProps ProjectReady Bootstrap BootstrapProps Seed.
Open Scope Z_scope.

Module SeedProps.
Import Ltree Db Events Mutate StoreTree Store StoreRollup Site Projects ProjectsProps Bootstrap BootstrapProps Seed.

(** * Planning *)

Section planning.
Context {RG : Rng}.

Lemma IntN_ok n g : 0 < n -> exists i g', IntN n g = Ok (i, g') /\ 0 <= i < n.
Proof.
  intros Hn. unfold IntN. rewrite (proj2 (Z.leb_gt n 0)) by lia. pose proof (draw_range n g Hn). destruct (draw n g) as [i g']. by exists i, g'.
Qed.

Lemma pick_ok {A} (l : list A) g : l <> [] -> exists x g', pick l g = Ok (x, g') /\ x ∈ l.
Proof.
  intros Hl. unfold pick. destruct (IntN_ok (Z.of_nat (length l)) g) as (i & g' & -> & Hi); [destruct l; [done|cbn; lia]|].
  destruct (l !! Z.to_nat i) as [x|] eqn:E; [by exists x, g'; split; [|eapply list_elem_of_lookup_2]|]. apply lookup_ge_None in E. lia.
Qed.

Lemma chance_ok n g : exists b g', chance n g = Ok (b, g').
Proof. unfold chance. destruct (IntN_ok 100 g) as (i & g' & -> & _); [lia|]. by eexists _, _. Qed.

(** A parent of the level above, in the same pool; none for a root. *)
Definition placed_in (p : pool) (depth : nat) (parent : option uuid) : Prop :=
  match parent with None => depth = 1%nat | Some x => (2 <= depth)%nat /\ x ∈ level (depth - 1) p end.

Lemma descend_ok d p g : exists depth parent g',
  descend d p g = Ok (depth, parent, g') /\ placed_in p depth parent /\ (1 <= depth <= S d)%nat.
Proof.
  revert g. induction d as [|d IH]; intros g; cbn [descend]; [by exists 1%nat, None, g; split_and!; [..|lia|lia]|].
  destruct (level (S d) p) as [|c l] eqn:E.
  - destruct (IH g) as (depth & parent & g' & -> & Hp & Hd). exists depth, parent, g'. split_and!; [done|done|lia|lia].
  - assert (Ht : exists b g', (if (S d =? 1)%nat then Ok (true, g) else chance 55 g) = Ok (b, g')).
    { destruct (S d =? 1)%nat; [by eexists _, _|apply chance_ok]. }
    destruct Ht as ([] & g1 & ->).
    + destruct (pick_ok (c :: l) g1) as (x & g2 & -> & Hx); [done|]. exists (S (S d)), (Some x), g2. split_and!; [done| |lia|lia].
      split; [lia|]. replace (S (S d) - 1)%nat with (S d) by lia. by rewrite E.
    + destruct (IH g1) as (depth & parent & g' & -> & Hp & Hd). exists depth, parent, g'. split_and!; [done|done|lia|lia].
Qed.

(** The levels 1 to [k] are the ones in use. *)
Definition filled (k : nat) (p : pool) : Prop := forall d, (1 <= d)%nat -> level d p <> [] <-> (d <= k)%nat.

Lemma forced_level_some max k p : filled k p -> (1 <= k < max)%nat -> forced_level max p = Some (S k).
Proof.
  intros Hf Hk. unfold forced_level.
  set (f := fun d => match level d p, level (d - 1) p with [], _ :: _ => true | _, _ => false end).
  assert (Hfd : forall d, (2 <= d)%nat -> f d = true <-> d = S k).
  { intros d Hd. unfold f. pose proof (Hf d ltac:(lia)) as H1. pose proof (Hf (d - 1)%nat ltac:(lia)) as H2. split.
    - destruct (level d p) eqn:E1; [|done]. destruct (level (d - 1) p) eqn:E2; [done|]. intros _. assert (d - 1 <= k)%nat by (by apply H2).
      destruct (decide (d <= k)%nat) as [Hle|]; [by apply H1 in Hle|lia].
    - intros ->. destruct (level (S k) p) eqn:E1; [|assert (S k <= k)%nat by (by apply H1); lia].
      destruct (level (S k - 1) p) eqn:E2; [|done]. assert (S k - 1 <= k)%nat as Hle by lia. by apply H2 in Hle. }
  destruct (List.find f (seq 2 (max - 1))) as [d|] eqn:E.
  - apply find_some in E as [Hin Hd]. apply in_seq in Hin. f_equal. apply Hfd; [lia|done].
  - apply find_none with (x := S k) in E; [|apply in_seq; lia]. assert (f (S k) = true) by (apply Hfd; lia). congruence.
Qed.

Lemma forced_level_root max p : filled 0 p -> forced_level max p = None.
Proof.
  intros Hf. unfold forced_level. destruct (List.find _ _) as [d|] eqn:E; [|done]. apply find_some in E as [Hin Hd]. apply in_seq in Hin.
  destruct (level d p); [|done]. destruct (level (d - 1) p) eqn:E2; [done|]. assert (d - 1 <= 0)%nat; [|lia].
  apply Hf; [lia|]. by rewrite E2.
Qed.

Lemma choose_parent_ok max k p g : (1 <= max)%nat -> filled k p -> (k <= max)%nat -> exists depth parent g',
  choose_parent max p g = Ok (depth, parent, g') /\ placed_in p depth parent /\ (1 <= depth <= max)%nat /\ ((k < max)%nat -> depth = S k).
Proof.
  intros Hm Hf Hk. unfold choose_parent. destruct (decide (1 <= k < max)%nat) as [Hk1|Hk1].
  - rewrite (forced_level_some max k p Hf Hk1). assert (level (S k - 1) p <> []) as Hne by (apply Hf; lia).
    destruct (pick_ok _ g Hne) as (x & g' & -> & Hx). exists (S k), (Some x), g'. split_and!; [done| |lia|lia|done]. by split; [lia|].
  - destruct (forced_level max p) as [d|] eqn:E.
    + pose proof E as E'. unfold forced_level in E. apply find_some in E as [Hin Hd]. apply in_seq in Hin. destruct (level d p) eqn:E1; [|done].
      destruct (level (d - 1) p) as [|c l] eqn:E2; [done|]. destruct (pick_ok (c :: l) g) as (x & g' & -> & Hx); [done|]. exists d, (Some x), g'.
      assert (k = 0 \/ k = max)%nat as [-> | ->] by lia; [rewrite (forced_level_root max p Hf) in E'; done|].
      split_and!; [done| |lia|lia|lia]. split; [lia|]. by rewrite E2.
    + destruct (chance_ok 70 g) as ([] & g1 & ->); cycle 1.
      { exists 1%nat, None, g1. split_and!; [done|done|lia|lia|lia]. }
      destruct (descend_ok (max - 1) p g1) as (depth & parent & g' & -> & Hp & Hd). exists depth, parent, g'. split_and!; [done|done|lia|lia|].
      intros Hlt. assert (k = 0)%nat as -> by lia. destruct parent as [x|]; [|done]. destruct Hp as [H2 Hx].
      assert (level (depth - 1) p <> []) as Hne by (intros E1; rewrite E1 in Hx; by apply elem_of_nil in Hx). apply Hf in Hne; lia.
Qed.

Lemma length_add d id p : length (add_to d id p) = length p.
Proof. apply (length_alter (fun l => l ++ [id])). Qed.

Lemma level_add d d' id p : (d' < length p)%nat -> level d (add_to d' id p) = if decide (d = d') then level d p ++ [id] else level d p.
Proof.
  intros Hd. unfold level, add_to. destruct (decide (d = d')) as [->|Hne]; [|by rewrite (list_lookup_alter_ne (fun l => l ++ [id]))].
  rewrite (list_lookup_alter_eq (fun l => l ++ [id])). destruct (lookup_lt_is_Some_2 p d' Hd) as [l E].
  change (default [] ((fun l => l ++ [id]) <$> (p : list (list uuid)) !! d') = default [] ((p : list (list uuid)) !! d') ++ [id]). by rewrite E.
Qed.

Lemma filled_add max k p d id :
  filled k p -> length p = S max -> (k <= max)%nat -> (1 <= d <= max)%nat -> ((k < max)%nat -> d = S k) -> filled (Nat.min max (S k)) (add_to d id p).
Proof.
  intros Hf Hl Hk Hd Hnext e He. rewrite level_add by lia. pose proof (Hf e He) as H1. destruct (decide (e = d)) as [->|Hne].
  - split; [|intros _ E; by apply app_eq_nil in E as [_ ?]]. intros _. destruct (decide (k < max)%nat); lia.
  - rewrite H1. destruct (decide (k < max)%nat) as [Hlt|]; [specialize (Hnext Hlt)|]; lia.
Qed.

(** The pools before a batch: [ks j] levels of project [j] in use. *)
Definition pools_ok (max : nat) (ks : nat -> nat) (pools : list pool) : Prop :=
  forall j p, pools !! j = Some p -> length p = S max /\ filled (ks j) p /\ (ks j <= max)%nat.
Definition fill (max j : nat) (ks : nat -> nat) : nat -> nat := fun i => if decide (i = j) then Nat.min max (S (ks i)) else ks i.

(** Each plan is placed in its project's pool as the plans before it left it. *)
Fixpoint plans_ok (max : nat) (pools : list pool) (pls : list plan) (pools' : list pool) : Prop :=
  match pls with
  | [] => pools' = pools
  | pl :: pls =>
      (1 <= pl_depth pl <= max)%nat /\
      exists p, pools !! pl_project pl = Some p /\ placed_in p (pl_depth pl) (pl_parent pl) /\
        plans_ok max (<[pl_project pl := add_to (pl_depth pl) (pl_id pl) p]> pools) pls pools'
  end.

(** The depths of a project's plans, in their order. *)
Definition depths (j : nat) (pls : list plan) : list nat := pl_depth <$> List.filter (fun pl => (pl_project pl =? j)%nat) pls.

Lemma plan_one_ok max ks id pools g : (1 <= max)%nat -> pools_ok max ks pools -> pools <> [] -> exists j depth parent p g',
  plan_one max id pools g = Ok (mkPlan j id depth parent, <[j := add_to depth id p]> pools, g') /\ pools !! j = Some p /\
  placed_in p depth parent /\ (1 <= depth <= max)%nat /\ ((ks j < max)%nat -> depth = S (ks j)) /\
  pools_ok max (fill max j ks) (<[j := add_to depth id p]> pools).
Proof.
  intros Hm Hp Hne. unfold plan_one. destruct (IntN_ok (Z.of_nat (length pools)) g) as (i & g1 & -> & Hi); [destruct pools; [done|cbn; lia]|].
  destruct (lookup_lt_is_Some_2 pools (Z.to_nat i)) as [p E]; [lia|]. rewrite E. destruct (Hp _ _ E) as (Hl & Hf & Hk).
  destruct (choose_parent_ok max (ks (Z.to_nat i)) p g1 Hm Hf Hk) as (depth & parent & g2 & -> & Hpl & Hd & Hnext).
  exists (Z.to_nat i), depth, parent, p, g2. split_and!; [done|done|done|lia|lia|done|].
  intros j q. unfold fill. destruct (decide (j = Z.to_nat i)) as [->|Hj].
  - rewrite list_lookup_insert_eq by exact (lookup_lt_Some _ _ _ E). intros [= <-]. split_and!; [by rewrite length_add| |lia]. by apply filled_add.
  - rewrite list_lookup_insert_ne by done. apply Hp.
Qed.

Lemma fill_step max j d ks l : (1 <= max)%nat -> (ks j <= max)%nat -> ((ks j < max)%nat -> d = S (ks j)) ->
  take (max - fill max j ks j) l = seq (S (fill max j ks j)) (Nat.min (max - fill max j ks j) (length l)) ->
  take (max - ks j) (d :: l) = seq (S (ks j)) (Nat.min (max - ks j) (S (length l))).
Proof.
  intros Hm Hk Hnext. unfold fill. rewrite decide_True by done. destruct (decide (ks j < max)%nat) as [Hlt|Hge].
  - rewrite (Nat.min_r max) by lia. intros IH. replace (max - ks j)%nat with (S (max - S (ks j))) by lia. cbn [take].
    rewrite IH, (Hnext Hlt). by rewrite <- Nat.succ_min_distr.
  - intros _. by replace (max - ks j)%nat with 0%nat by lia.
Qed.

(** Planning a batch never fails and plans a tree: with at least one project and a
    depth of at least one, for any random source, every planned item lies at a depth
    between 1 and the maximum, a root exactly when it has no parent, and otherwise its
    parent is an item of the same project one level up that exists or is planned
    before it; and the first items of an empty project lie at depths 1, 2, 3, ... up
    to the maximum. *)
Theorem plan_all_ok max ks ids pools g :
  (1 <= max)%nat -> pools_ok max ks pools -> pools <> [] -> exists pls pools' g',
    plan_all max ids pools g = Ok (pls, pools', g') /\ pl_id <$> pls = ids /\ plans_ok max pools pls pools' /\
    forall j, (ks j <= max)%nat -> take (max - ks j) (depths j pls) = seq (S (ks j)) (Nat.min (max - ks j) (length (depths j pls))).
Proof.
  intros Hm. revert ks pools g. induction ids as [|id ids IH]; intros ks pools g Hp Hne; cbn [plan_all].
  - exists [], pools, g. split_and!; [done|done|done|]. intros j _. cbn. by rewrite take_nil, Nat.min_0_r.
  - destruct (plan_one_ok max ks id pools g Hm Hp Hne) as (j & depth & parent & p & g1 & -> & Ej & Hpl & Hd & Hnext & Hp').
    destruct (IH (fill max j ks) (<[j := add_to depth id p]> pools) g1 Hp') as (pls & pools' & g2 & -> & Hids & Hok & Hdep).
    { intros E. apply (f_equal length) in E. rewrite length_insert in E. by destruct pools. }
    exists (mkPlan j id depth parent :: pls), pools', g2. split_and!; [done|by cbn; f_equal|split; [done|by exists p]|].
    intros i Hi. unfold depths. cbn [List.filter pl_project]. destruct (Nat.eqb_spec j i) as [->|Hji]; cycle 1.
    + fold (depths i pls). specialize (Hdep i). unfold fill in Hdep. rewrite decide_False in Hdep by done. by apply Hdep.
    + cbn [fmap list_fmap pl_depth length]. fold (depths i pls). apply fill_step; [done|done|done|]. apply Hdep.
      unfold fill. rewrite decide_True by done. lia.
Qed.

End planning.

(** * The write path under the generator *)

(** What the write path promises of a database, and the workspace's counter. *)
Definition store_ok (db : Db) : Prop := tree_ok (tree db) /\ gap_free db /\ rollups_exact db.
Definition seeded (ws : uuid) (db : Db) : Prop := store_ok db /\ is_Some (seq_counter db !! ws).

Definition creates (v : verb) : nat := match v with VCreate _ _ => 1 | _ => 0 end.
Definition soft (v : verb) : bool := match v with VHardDelete _ => false | _ => true end.
Definition created_by (cs : list change) : nat := sum_list_with (fun c => length (kind_created c)) cs.

Lemma run_verb_err m v : soft v = true -> m_err (run_verb m v) = None ->
  m_err m = None /\ exists c, m_changes (run_verb m v) = m_changes m ++ [c] /\ not_hard (ch_kind c) = true /\ length (kind_created c) = creates v.
Proof.
  destruct v; intros Hs; try discriminate Hs; cbn [run_verb];
    unfold Create, Update, Reparent, SoftDelete, Link_, Unlink, Comment_, fail, push; repeat case_match; cbn; intros He; try congruence;
    (split; [done|]); eexists; split_and!; done.
Qed.

Lemma run_verbs_err vs m : forallb soft vs = true -> m_err (run_verbs vs m) = None ->
  Forall (fun c => not_hard (ch_kind c) = true) (m_changes m) ->
  m_err m = None /\ Forall (fun c => not_hard (ch_kind c) = true) (m_changes (run_verbs vs m)) /\
  created_by (m_changes (run_verbs vs m)) = (created_by (m_changes m) + sum_list_with creates vs)%nat.
Proof.
  unfold run_verbs. revert m; induction vs as [|v vs IH]; intros m Hv He Hh; cbn in *; [split_and!; [done|done|lia]|].
  apply andb_true_iff in Hv as [Hv Hvs]. assert (He1 : m_err (run_verb m v) = None).
  { destruct (m_err (run_verb m v)) as [e|] eqn:E; [|done]. exfalso. revert He. clear - E. revert E. generalize (run_verb m v). induction vs as [|x vs IH]; cbn; intros m' E; [congruence|].
    apply IH. destruct (run_verb_effect m' x) as [(c & -> & _)|(e' & ->)]; [done|]. unfold fail. by rewrite E. }
  destruct (run_verb_err m v Hv He1) as (Hm & c & Hc & Hn & Hl). destruct (IH (run_verb m v) Hvs He) as (_ & Hf & Hk).
  - rewrite Hc. apply Forall_app. auto.
  - split_and!; [done|done|]. rewrite Hk, Hc. unfold created_by. rewrite sum_list_with_app. cbn. lia.
Qed.

Section write.
Context {UU : UuidParse}.

Lemma apply_change_size m seqs s c s' : tree_ok (tree (pr_db s)) -> kind_item c -> not_hard (ch_kind c) = true ->
  apply_change m seqs s c = Ok s' -> size (items (pr_db s')) = (size (items (pr_db s)) + length (kind_created c))%nat.
Proof.
  intros Hok Hki Hh Ha. destruct (apply_change_frame _ _ _ _ _ Hok Hki Ha) as (T & _ & _ & _ & [_ _ Hi Hf]). rewrite <- !size_dom.
  unfold kind_created. destruct (ch_kind c) as [i| | | | | | |]; try discriminate Hh; cbn [length];
    try (rewrite Nat.add_0_r; f_equal; apply set_eq; intros x; by rewrite !elem_of_dom, Hi).
  assert (dom (items (pr_db s')) = {[in_ID i]} ∪ dom (items (pr_db s))) as ->.
  { apply set_eq. intros x. by rewrite elem_of_union, elem_of_singleton, !elem_of_dom, Hi. }
  rewrite size_union, size_singleton; [lia|]. intros x Hx%elem_of_singleton Hd. subst x. apply elem_of_dom in Hd. rewrite Hf in Hd. by destruct Hd.
Qed.

Lemma changes_size m seqs cs s s' : tree_ok (tree (pr_db s)) -> Forall kind_item cs -> Forall (fun c => not_hard (ch_kind c) = true) cs ->
  foldM (apply_change m seqs) cs s = Ok s' -> size (items (pr_db s')) = (size (items (pr_db s)) + created_by cs)%nat.
Proof.
  revert s; induction cs as [|c cs IH]; intros s Hok Hk Hh Hf; cbn [foldM] in Hf; [injection Hf as <-; cbn; lia|].
  destruct (apply_change m seqs s c) as [s1|] eqn:E; [|done]. apply Forall_cons in Hk as [Hk Hks]. apply Forall_cons in Hh as [Hh Hhs].
  rewrite (IH s1 (apply_change_tree _ _ _ _ _ Hok E) Hks Hhs Hf), (apply_change_size _ _ _ _ _ Hok Hk Hh E).
  cbn. unfold created_by. lia.
Qed.

(** A call without a hard delete, whatever its outcome. *)
Lemma Mutate_seeded ws vs os db r db' : forallb soft vs = true -> seeded ws db -> Mutate ws (callback vs) (run_option <$> os) db = (r, db') ->
  seeded ws db' /\ match r with Ok _ => size (items db') = (size (items db) + sum_list_with creates vs)%nat | Err _ => db' = db end.
Proof.
  intros Hvs [(Ht & Hg & Hr) Hc] Hm. apply Mutate_inv in Hm as [(e & -> & ->)|(res & -> & Hf & Hchk)]; [done|].
  assert (He : m_err (built ws vs os) = None) by (unfold check_mutation in Hchk; by destruct (m_err _)).
  destruct (run_verbs_err vs _ Hvs He) as (_ & Hsoft & Hn); [by rewrite (proj2 (options_context ws os))|].
  fold (built ws vs os) in Hsoft, Hn. rewrite (proj2 (options_context ws os)) in Hn. cbn in Hn.
  pose proof (built_described ws vs os) as Hd. pose proof Hf as Hf'. apply flush_inv in Hf' as (v0 & dbA & evs & s & Hfl).
  destruct (flushed_events _ _ _ _ _ _ _ _ Ht Hfl) as (Hev & Hq & Hsnd). pose proof (fl_counter _ _ _ _ _ _ _ _ Hfl) as Hv0.
  split; [split; [split_and!|]|].
  - by eapply flush_tree.
  - eapply (gap_free_append db (m_workspace (built ws vs os)) v0 (Z.of_nat (eventCount (built ws vs os)))); eauto; lia.
  - eapply flush_rollups; [done|done|done| |exact Hf]. intros c1 c2 i H1 _ Hk _. eapply Forall_forall in Hsoft; [|exact H1]. by rewrite Hk in Hsoft.
  - rewrite Hq, built_workspace, lookup_insert_eq. by eexists.
  - destruct Hfl as [_ HA _ _ Hs Hfin _]. rewrite (finish_items _ _ _ _ Hfin).
    rewrite (changes_size (built ws vs os) (item_seq evs) (m_changes (built ws vs os)) (mkProgress dbA [] [] [] []) s), Hn; [by subst dbA|by subst dbA| |done|exact Hs].
    eapply Forall_impl; [exact Hd|]. intros c Hc'. apply Hc'.
Qed.

(** A step keeps the store whatever its outcome; a success adds [n] items. *)
Definition keeps {A} (ws : uuid) (n : nat) (m : step A) : Prop := forall db r db', seeded ws db -> m db = (r, db') ->
  seeded ws db' /\ match r with Ok _ => size (items db') = (size (items db) + n)%nat | Err _ => True end.

Section keeps.
Context (ws : uuid).

Lemma keeps_done {A} (x : A) : keeps ws 0 (done_ x).
Proof. intros db r db' Hs [= <- <-]. split; [done|lia]. Qed.
Lemma keeps_planning {A B} n (m : result seed_err A) (k : A -> step B) : (forall x, m = Ok x -> keeps ws n (k x)) -> keeps ws n (planning m k).
Proof. intros Hk db r db' Hs. unfold planning. destruct m as [x|e]; [by apply Hk|]. by intros [= <- <-]. Qed.
Lemma keeps_error {A} n e : keeps ws n (planning (A := A) (Err e) done_).
Proof. by apply keeps_planning. Qed.
Lemma keeps_then {A B} n n' (m : step A) (k : A -> step B) : keeps ws n m -> (forall x, keeps ws n' (k x)) -> keeps ws (n + n') (then_ m k).
Proof.
  intros Hm Hk db r db' Hs. unfold then_. destruct (m db) as [[x|e] db1] eqn:E; destruct (Hm _ _ _ Hs E) as [Hs1 Hn]; [|by intros [= <- <-]].
  intros Hr. destruct (Hk x _ _ _ Hs1 Hr) as [Hs2 Hn2]. split; [done|]. destruct r; [lia|done].
Qed.
Lemma keeps_store {A} n vs os (k : result store_err Result_ -> step A) : forallb soft vs = true ->
  (forall res, keeps ws n (k (Ok res))) -> (forall e, keeps ws (sum_list_with creates vs + n) (k (Err e))) ->
  keeps ws (sum_list_with creates vs + n) (store_step ws vs os k).
Proof.
  intros Hv Hok Herr db r db' Hs. unfold store_step. destruct (Mutate ws (callback vs) (run_option <$> os) db) as [[res|e] db1] eqn:E;
    destruct (Mutate_seeded _ _ _ _ _ _ Hv Hs E) as [Hs1 Hn]; intros Hr.
  - destruct (Hok res _ _ _ Hs1 Hr) as [Hs2 Hn2]. split; [done|]. destruct r; [lia|done].
  - subst db1. exact (Herr e _ _ _ Hs Hr).
Qed.
Lemma keeps_updates {A} vs os (k : result store_err Result_ -> step A) : forallb soft vs = true -> sum_list_with creates vs = 0%nat ->
  (forall r, keeps ws 0 (k r)) -> keeps ws 0 (store_step ws vs os k).
Proof. intros Hv Hn Hk. rewrite <- (Nat.add_0_r 0), <- Hn at 1. apply keeps_store; [done|done|]. intros e. rewrite Hn. apply Hk. Qed.

Context {RG : Rng} (today : Z) (opts : Options) (new_item : N -> uuid) (origin : uuid) (users : list uuid).

Lemma plan_all_length max ids pools g pls pools' g' : plan_all max ids pools g = Ok (pls, pools', g') -> length pls = length ids.
Proof.
  revert pools g pls pools' g'. induction ids as [|id ids IH]; intros pools g pls pools' g' H; cbn [plan_all] in H; [by inv_ok H; simplify_eq|].
  destruct (plan_one _ _ _ _) as [[[pl q] h]|]; [|done]. destruct (plan_all max ids q h) as [[[l q'] h']|] eqn:E; [|done].
  simplify_eq. cbn. f_equal. by eapply IH.
Qed.

Lemma create_verb_shape projects pl g v g' : create_verb today opts origin users projects pl g = Ok (v, g') -> exists f i, v = VCreate f i.
Proof. unfold create_verb. destruct (projects !! pl_project pl); [|done]. intros Hv. repeat (case_match; try done); simplify_eq; by eexists _, _. Qed.

Lemma create_verbs_shape projects pls g vs g' : create_verbs today opts origin users projects pls g = Ok (vs, g') ->
  forallb soft vs = true /\ sum_list_with creates vs = length pls.
Proof.
  revert g vs g'. induction pls as [|pl pls IH]; intros g vs g' H; cbn [create_verbs] in H; [by simplify_eq|].
  destruct (create_verb _ _ _ _ _ _ _) as [[v h]|] eqn:Ev; [|done]. destruct (create_verbs _ _ _ _ _ _ h) as [[l h']|] eqn:El; [|done].
  simplify_eq. apply create_verb_shape in Ev as (f & i & ->). destruct (IH _ _ _ El) as [H1 H2]. split; [done|]. cbn. by rewrite H2.
Qed.

Lemma seedBatch_keeps ids projects g : keeps ws (length ids) (seedBatch today opts ws origin users ids projects g).
Proof.
  unfold seedBatch. apply keeps_planning. intros [[pls pools] g1] Hp. apply keeps_planning. intros [vs g2] Hc.
  apply plan_all_length in Hp. apply create_verbs_shape in Hc as [Hv Hn]. rewrite <- Hp, <- Hn, <- (Nat.add_0_r (sum_list_with creates vs)).
  apply keeps_store; [done|intros; apply keeps_done|intros; apply keeps_error].
Qed.

Lemma batches_keeps fuel created projects g : (Z.to_nat (Items opts - created) <= fuel)%nat ->
  keeps ws (Z.to_nat (Items opts - created)) (batches today opts new_item ws origin users fuel created projects g).
Proof.
  revert created projects g. induction fuel as [|fuel IH]; intros created projects g Hf; cbn [batches].
  - replace (Z.to_nat (Items opts - created)) with 0%nat by lia. apply keeps_done.
  - destruct (Z.leb_spec (Items opts) created) as [Hle|Hlt].
    + replace (Z.to_nat (Items opts - created)) with 0%nat by lia. apply keeps_done.
    + set (n := Z.min 200 (Items opts - created)).
      replace (Z.to_nat (Items opts - created)) with (Z.to_nat n + Z.to_nat (Items opts - (created + n)))%nat by lia.
      apply keeps_then; [|intros [ps g1]; apply IH; lia].
      pose proof (seedBatch_keeps ((fun k => new_item (Z.to_N created + N.of_nat k)) <$> seq 0 (Z.to_nat n)) projects g) as Hb.
      by rewrite length_fmap, length_seq in Hb.
Qed.

Lemma links_shape (new_link : nat -> uuid) (l : list nat) : let vs := zip_with (fun k l => VLink (new_link k) l) l in forall ls,
  forallb soft (vs ls) = true /\ sum_list_with creates (vs ls) = 0%nat.
Proof. cbn. induction l as [|k l IH]; intros [|x ls]; try done. apply IH. Qed.

Lemma link_batches_keeps retries new_link all target made g : keeps ws 0 (link_batches ws users retries new_link all target made g).
Proof.
  revert made g. induction retries as [|retries IH]; intros made g; cbn [link_batches]; (destruct (target <=? made); [apply keeps_done|]);
    [apply keeps_error|]. apply keeps_planning. intros [[|l links] g1] _; [apply keeps_done|]. apply keeps_planning. intros [actor g2] _.
  apply keeps_updates; [apply links_shape|apply links_shape|]. intros [res|e]; [apply IH|]. destruct (is_duplicate e); [apply IH|apply keeps_error].
Qed.
Lemma seedLinks_keeps retries new_link projects g : keeps ws 0 (seedLinks ws users retries new_link projects g).
Proof. unfold seedLinks. destruct (length _ <? 2)%nat; [apply keeps_done|apply link_batches_keeps]. Qed.

Lemma history_keeps fuel steps : keeps ws 0 (history_batches ws fuel steps).
Proof.
  revert steps. induction fuel as [|fuel IH]; intros steps; cbn [history_batches]; [apply keeps_done|]. destruct steps as [|s steps]; [apply keeps_done|].
  apply keeps_updates; [|..|intros [res|e]; [apply IH|apply keeps_error]]; generalize (take 200 (s :: steps)); clear; induction l; done.
Qed.
Lemma seedHistory_keeps projects g : keeps ws 0 (seedHistory ws users projects g).
Proof. unfold seedHistory. apply keeps_planning. intros [steps g1] _. apply history_keeps. Qed.

End keeps.
End write.

(** * A run *)

(** Before its first batch a run adds users, projects, configurations and statuses. *)
Record prepared (db db' : Db) : Prop := {
  pp_items : items db' = items db; pp_rollups : rollups db' = rollups db; pp_events : events db' = events db;
  pp_counter : seq_counter db' = seq_counter db; pp_statuses : statuses db ⊆ statuses db' }.
#[export] Instance prepared_preorder : PreOrder prepared.
Proof. split; [by intros db|]. intros a b c [] []. split; try congruence. by transitivity (statuses b). Qed.

Definition items_have_status (db : Db) : Prop := forall id i, items db !! id = Some i -> is_Some (statuses db !! i_status i).

Lemma prepared_seeded ws db db' : prepared db db' -> items_have_status db -> seeded ws db -> seeded ws db'.
Proof.
  intros [Hi Hr He Hq Hs] Hst [(Ht & Hg & [He1 He2]) Hc].
  assert (Hd : forall x, descendants x db' = descendants x db).
  { intros x. unfold descendants. rewrite Hi. destruct (items db !! x) as [xi|]; [|done]. apply map_eq. intros y. rewrite !lookup_omap.
    destruct (items db !! y) as [yi|] eqn:Ey; [|done]. cbn. unfold contrib_of. destruct (Hst _ _ Ey) as [st E].
    by rewrite E, (lookup_weaken _ _ _ _ E Hs). }
  split; [|by rewrite Hq]. split_and!.
  - by rewrite (tree_eq db db' Hi).
  - intros v n Hv. rewrite Hq in Hv. rewrite He. by apply Hg.
  - split; intros x; unfold exact_at; rewrite Hr, Hi; [rewrite Hd; apply He1|apply He2].
Qed.

(** A step on the whole database that prepares the store, whatever its outcome. *)
Definition prepares {A} (m : wstep A) : Prop := forall w r w', m w = (r, w') -> prepared (s_db (b_site w)) (s_db (b_site w')).

Lemma prepares_then {A B} (m : wstep A) (k : A -> wstep B) : prepares m -> (forall x, prepares (k x)) -> prepares (w_then m k).
Proof.
  intros Hm Hk w r w'. unfold w_then. destruct (m w) as [[x|e] w1] eqn:E; [|by intros [= <- <-]; eapply Hm]. intros Hr.
  etransitivity; [by eapply Hm|by eapply Hk].
Qed.
Lemma prepares_done {A} (x : A) : prepares (w_done x).
Proof. by intros w r w' [= <- <-]. Qed.
Lemma prepares_each {A B} (f : A -> wstep B) l : (forall a, prepares (f a)) -> prepares (each f l).
Proof.
  intros Hf. induction l as [|a l IH]; cbn [each]; [apply prepares_done|]. apply prepares_then; [done|]. intros y. apply prepares_then; [done|].
  intros ys. apply prepares_done.
Qed.
Lemma prepares_statement name f : (forall w w', f w = Ok w' -> prepared (s_db (b_site w)) (s_db (b_site w'))) -> prepares (statement name f).
Proof. intros Hf w r w'. unfold statement. destruct (f w) as [w1|] eqn:E; intros [= <- <-]; [by apply Hf|done]. Qed.
Lemma prepares_site name f : within configured f -> prepares (statement name (on_site f)).
Proof.
  intros Hf. apply prepares_statement. intros w w' H. unfold on_site in H. destruct (f (b_site w)) as [s|] eqn:E; [|done]. injection H as <-.
  destruct (Hf _ _ E) as [Hr Hs]. unfold db_rest in Hr. split; cbn; [congruence..|done].
Qed.

Section run.
Context {RG : Rng} {UU : UuidParse} {SQ : SeedSql} (sy : supply) (today : Z) (retries : nat).

Lemma create_project_prepares opts i : prepares (create_project_step sy opts i).
Proof.
  unfold create_project_step. apply prepares_then.
  - apply prepares_statement. intros w w' H. unfold on_site, CreateProject in H. inv_ok H. subst w'. apply insert_project_inv in E as [_ ->]. done.
  - intros _. apply prepares_then; [apply prepares_site, first_config_within|]. intros _.
    apply prepares_then; [apply prepares_site, configSQL_within; [apply _|apply writes_configured]|]. by intros _ w r w' [= <- <-].
Qed.

Lemma create_user_prepares opts i : prepares (create_user_step sy opts i).
Proof.
  unfold create_user_step. apply prepares_then; [|intros; apply prepares_done]. apply prepares_statement. intros w w' H. unfold CreateUser, insert_account in H.
  inv_ok H. by subst.
Qed.

Lemma keeps_on_db {A} n (m : step A) w r w' :
  keeps (sy_workspace sy) n m -> seeded (sy_workspace sy) (s_db (b_site w)) -> on_db m w = (r, w') ->
  seeded (sy_workspace sy) (s_db (b_site w')) /\
  match r with Ok _ => size (items (s_db (b_site w'))) = (size (items (s_db (b_site w))) + n)%nat | Err _ => True end.
Proof. intros Hm Hs. unfold on_db. destruct (m _) as [r1 db1] eqn:E. intros [= <- <-]. exact (Hm _ _ _ Hs E). Qed.

(** The new workspace's log is empty. *)
Lemma insert_workspace_seeded ws origin o w w' : insert_workspace ws origin o w = Ok w' -> store_ok (s_db (b_site w)) ->
  ws_events ws (events (s_db (b_site w))) = [] -> seeded ws (s_db (b_site w')) /\ items (s_db (b_site w')) = items (s_db (b_site w)) /\
  statuses (s_db (b_site w')) = statuses (s_db (b_site w)).
Proof.
  unfold insert_workspace. intros H (Ht & Hg & Hr) Hw. inv_ok H. subst w'. cbn. split; [|done]. split; [split_and!; [done| |done]|].
  - intros v n Hv. cbn in Hv. destruct (decide (v = ws)) as [->|Hne].
    + rewrite lookup_insert_eq in Hv. injection Hv as <-. unfold ws_events in Hw. cbn. by rewrite Hw.
    + rewrite lookup_insert_ne in Hv by done. by apply Hg.
  - cbn. rewrite lookup_insert_eq. by eexists.
Qed.

Lemma max_event ws db v : gap_free db -> seq_counter db !! ws = Some v -> MaxEventSeq ws db = Z.of_nat (length (ws_events ws (events db))).
Proof.
  intros Hg Hv. destruct (Hg _ _ Hv) as [H0 Hseq]. unfold MaxEventSeq. fold (ws_events ws (events db)).
  rewrite <- (length_map e_seq (ws_events ws (events db))). change (e_seq <$> ws_events ws (events db)) with (map e_seq (ws_events ws (events db))).
  rewrite Hseq, length_seqZ, Z2Nat.id by done. clear - H0. revert H0. intros H0.
  assert (Hle : forall n m, 0 <= n -> 0 <= m -> foldr Z.max 0 (seqZ n m) = if decide (m = 0) then 0 else n + m - 1).
  { intros n m Hn Hm. revert n Hn. pattern m. apply natlike_ind; [by intros n _| |done]. intros k Hk IH n Hn.
    rewrite decide_False by lia. rewrite seqZ_cons by lia. cbn [foldr]. rewrite Z.pred_succ. rewrite IH by lia. destruct (decide (k = 0)); lia. }
  rewrite Hle by lia. destruct (decide (v = 0)); lia.
Qed.

(** The part of a run that writes items. *)
Lemma batches_on opts users projects g links_of w r w' :
  seeded (sy_workspace sy) (s_db (b_site w)) ->
  w_then (on_db (batches today opts (sy_item sy) (sy_workspace sy) (origin_id opts) users (Z.to_nat (Items opts)) 0 projects g)) (fun '(projects, g) =>
  w_then (on_db (seedLinks (sy_workspace sy) users retries links_of projects g)) (fun '(links, g) =>
  w_then (on_db (seedHistory (sy_workspace sy) users projects g)) (fun _ w =>
    (Ok (summarize (sy_workspace sy) links (s_db (b_site w))), w)))) w = (r, w') ->
  seeded (sy_workspace sy) (s_db (b_site w')) /\
  forall s, r = Ok s -> size (items (s_db (b_site w'))) = (size (items (s_db (b_site w))) + Z.to_nat (Items opts))%nat /\
    exists links, s = summarize (sy_workspace sy) links (s_db (b_site w')).
Proof.
  intros Hs. unfold w_then at 1. destruct (on_db _ w) as [r1 w1] eqn:E1.
  pose proof (batches_keeps (sy_workspace sy) today opts (sy_item sy) (origin_id opts) users (Z.to_nat (Items opts)) 0 projects g ltac:(lia)) as K1.
  rewrite Z.sub_0_r in K1. destruct (keeps_on_db _ _ _ _ _ K1 Hs E1) as [Hs1 Hn1]. destruct r1 as [[ps g1]|e]; [|by intros [= <- <-]].
  unfold w_then at 1. destruct (on_db _ w1) as [r2 w2] eqn:E2.
  destruct (keeps_on_db _ _ _ _ _ (seedLinks_keeps _ _ _ _ _ _) Hs1 E2) as [Hs2 Hn2]. destruct r2 as [[links g2]|e]; [|by intros [= <- <-]].
  unfold w_then at 1. destruct (on_db _ w2) as [r3 w3] eqn:E3.
  destruct (keeps_on_db _ _ _ _ _ (seedHistory_keeps _ _ _ _) Hs2 E3) as [Hs3 Hn3]. destruct r3 as [u|e]; [|by intros [= <- <-]].
  intros [= <- <-]. split; [done|]. intros s Hsum. injection Hsum as <-. split; [lia|by eexists].
Qed.

(** C24. A run of the generator keeps the store correct: started on a database whose
    hierarchy, change log and rollups are right, with a workspace identifier nothing is
    logged under, it leaves such a database whatever becomes of it, an error or a
    panic in the middle included; and a run that succeeds has created exactly the asked
    number of items and reports as its events the rows of the new workspace's log. *)
Theorem Run_store opts w r w' :
  store_ok (s_db (b_site w)) -> items_have_status (s_db (b_site w)) -> ws_events (sy_workspace sy) (events (s_db (b_site w))) = [] ->
  Seed.Run sy today retries opts w = (r, w') ->
  store_ok (s_db (b_site w')) /\
  forall s, r = Ok s -> Z.of_nat (size (items (s_db (b_site w')))) = Z.of_nat (size (items (s_db (b_site w)))) + Items opts /\
    su_Events s = Z.of_nat (length (ws_events (sy_workspace sy) (events (s_db (b_site w'))))).
Proof.
  intros Hok Hst Hlog. unfold Seed.Run. destruct (_ || _) eqn:Eg; [by intros [= <- <-]|]. unfold w_then at 1, statement.
  destruct (CreateWorkspace _ _ _ _ w) as [w1|] eqn:E1; [|by intros [= <- <-]].
  destruct (insert_workspace_seeded _ _ _ _ _ E1 Hok Hlog) as (Hs1 & Hi1 & Hst1).
  destruct (Users opts <? 0); [intros [= <- <-]; by split; [apply Hs1|]|].
  unfold w_then at 1. destruct (each _ _ w1) as [ru w2] eqn:E2. pose proof (prepares_each _ _ (create_user_prepares opts) _ _ _ E2) as P2.
  assert (Hh1 : items_have_status (s_db (b_site w1))) by (unfold items_have_status; by rewrite Hi1, Hst1).
  destruct ru as [users|e]; [|intros [= <- <-]; split; [apply (prepared_seeded _ _ _ P2 Hh1 Hs1)|done]].
  unfold w_then at 1. destruct (createProjects _ _ w2) as [rp w3] eqn:E3. pose proof (prepares_each _ _ (create_project_prepares opts) _ _ _ E3) as P3.
  pose proof (prepared_seeded _ _ _ (transitivity P2 P3) Hh1 Hs1) as Hs3.
  destruct rp as [projects|e]; [|intros [= <- <-]; by split; [apply Hs3|]].
  intros Hr. destruct (batches_on _ _ _ _ _ _ _ _ Hs3 Hr) as [Hs4 Hsum]. split; [apply Hs4|]. intros s ->.
  destruct (Hsum s eq_refl) as [Hn [links ->]]. destruct Hs4 as [(_ & Hg & _) [v Hv]]. split.
  - rewrite Hn, (pp_items _ _ P3), (pp_items _ _ P2), Hi1. rewrite !orb_false_iff, Z.leb_gt in Eg. lia.
  - unfold summarize. destruct (SeedChecksum _ _) as [[n d] c]. by apply (max_event _ _ v).
Qed.
End run.

(** * The random source *)

Lemma pcg_output_range p : 0 <= pcg_output p < 2 ^ 64.
Proof. unfold pcg_output, wrap_u64. apply Z.mod_pos_bound. lia. Qed.

Lemma scaled_range n x : 0 < n -> 0 <= x < 2 ^ 64 -> 0 <= Z.shiftr (x * n) 64 < n.
Proof. intros Hn Hx. rewrite Z.shiftr_div_pow2 by lia. split; [apply Z.div_pos; nia|apply Z.div_lt_upper_bound; nia]. Qed.

Lemma pcg_reject_range fuel n thresh p : 0 < n -> 0 <= (pcg_reject fuel n thresh p).1 < n.
Proof.
  intros Hn. revert p. induction fuel as [|fuel IH]; intros p; cbn [pcg_reject].
  - apply scaled_range; [done|apply pcg_output_range].
  - destruct (_ <? _); [apply IH|]. apply scaled_range; [done|apply pcg_output_range].
Qed.

Lemma land_le a b : 0 <= b -> Z.land a b <= b.
Proof.
  intros Hb. assert (Hz : Z.ldiff (Z.land a b) b = 0) by (apply Z.bits_inj_0; intros k; rewrite Z.ldiff_spec, Z.land_spec; by destruct (Z.testbit a k), (Z.testbit b k)).
  pose proof (Z.sub_nocarry_ldiff b (Z.land a b) Hz) as Hd. assert (0 <= Z.ldiff b (Z.land a b)) by (apply Z.ldiff_nonneg; lia). lia.
Qed.

Lemma pcg_draw_range n p : 0 < n -> 0 <= (pcg_draw n p).1 < n.
Proof.
  intros Hn. unfold pcg_draw. destruct (Z.land n (n - 1) =? 0); [|by apply pcg_reject_range]. cbn.
  pose proof (land_le (pcg_output (pcg_next p)) (n - 1) ltac:(lia)). split; [apply Z.land_nonneg; lia|lia].
Qed.

(** [rand.NewPCG(uint64(seed), 0x5e3d)] *)
#[export] Instance pcg : Rng := {|
  rng := Z; NewRand seed := wrap_u64 seed * 2 ^ 64 + 24125; draw := pcg_draw; draw_range := fun n g => pcg_draw_range n g |}.

(** The first outputs of [NewPCG(1, 2)]. *)
Example pcg_ex : pcg_output <$> [pcg_next (2 ^ 64 + 2); pcg_next (pcg_next (2 ^ 64 + 2))] = [14192431797130687760; 11371241257079532652].
Proof. vm_compute. reflexivity. Qed.

(** * Identifiers and prefixes *)

(** The generated prefixes are valid and different, for every number of projects the
    three letters can tell apart. *)
Lemma alphabet_upper i : upper_char_ok (alphabet_at i) = true.
Proof.
  unfold upper_char_ok, alphabet_at, byte_in, byte_of. pose proof (Z.mod_pos_bound i 26 ltac:(lia)).
  rewrite Ascii.nat_ascii_embedding by lia. apply andb_true_iff. split; apply Nat.leb_le; lia.
Qed.

Theorem projectPrefix_ok i : Projects.prefix_ok (projectPrefix i) = true.
Proof. unfold Projects.prefix_ok, projectPrefix. rewrite chars_of_chars. cbn [forallb length]. by rewrite !alphabet_upper. Qed.

Theorem projectPrefix_inj i j : 0 <= i < 17576 -> 0 <= j < 17576 -> projectPrefix i = projectPrefix j -> i = j.
Proof.
  assert (Ha : forall x y, alphabet_at x = alphabet_at y -> x mod 26 = y mod 26).
  { intros x y H. apply (f_equal Ascii.nat_of_ascii) in H. unfold alphabet_at in H.
    pose proof (Z.mod_pos_bound x 26 ltac:(lia)). pose proof (Z.mod_pos_bound y 26 ltac:(lia)).
    rewrite !Ascii.nat_ascii_embedding in H by lia. lia. }
  intros Hi Hj H. unfold projectPrefix in H. apply (f_equal chars) in H. rewrite !chars_of_chars in H. injection H as H1%Ha H2%Ha H3%Ha.
  pose proof (Z.div_mod i 26). pose proof (Z.div_mod j 26). pose proof (Z.div_mod (i / 26) 26). pose proof (Z.div_mod (j / 26) 26).
  rewrite Z.div_div in * by lia. change (26 * 26) with 676 in *.
  assert (i / 676 < 26) by (apply Z.div_lt_upper_bound; lia). assert (j / 676 < 26) by (apply Z.div_lt_upper_bound; lia).
  assert (0 <= i / 676) by (apply Z.div_pos; lia). assert (0 <= j / 676) by (apply Z.div_pos; lia).
  rewrite (Z.mod_small (i / 676)), (Z.mod_small (j / 676)) in H1 by lia. lia.
Qed.

Lemma masked_eq x y n z : 0 <= x -> 0 <= y -> Z.log2 x < n -> Z.log2 y < n ->
  (forall k, 0 <= k < n -> Z.testbit (Z.land z x) k = Z.testbit y k) -> Z.land z x = y.
Proof.
  intros Hx Hy Lx Ly Hz. apply Z.bits_inj'. intros k Hk. destruct (decide (k < n)); [apply Hz; lia|].
  rewrite Z.land_spec, (Z.bits_above_log2 x k), (Z.bits_above_log2 y k) by lia. apply andb_false_r.
Qed.

(** A stamped digest has version 7 and the RFC 9562 variant, whatever the digest. *)
Theorem stamp_version h : let v := stamp 8 63 128 (stamp 6 15 112 h) in Z.land (Z.shiftr v 76) 15 = 7 /\ Z.land (Z.shiftr v 62) 3 = 2.
Proof.
  cbv zeta. unfold stamp. split; [apply (masked_eq 15 7 4); [done..|]|apply (masked_eq 3 2 2); [done..|]]; intros k Hk;
    rewrite Z.land_spec, Z.shiftr_spec, !Z.lor_spec, !Z.land_spec, !Z.lor_spec, !Z.land_spec by lia.
  - assert (k = 0 \/ k = 1 \/ k = 2 \/ k = 3) as [-> |[-> |[-> | ->]]] by lia; generalize (Z.testbit h); intros b; vm_compute; by destruct (b _).
  - assert (k = 0 \/ k = 1) as [-> | ->] by lia; generalize (Z.testbit h); intros b; vm_compute; by destruct (b _).
Qed.

(** * A small run *)

#[local] Instance demo_sql : SeedSql := {| jsonb_text := fun _ => ""; sorted_texts := sort_strings; md5 := fun s => s |}.

Definition demo_supply : supply :=
  let key (s : string) : N := match s with String c _ => Ascii.N_of_ascii c | EmptyString => 0%N end in
  mkSupply (U 1) (fun n => U (100 + N.of_nat n)) (fun n => U (200 + N.of_nat n))
    (fun n k => U (1000 + 512 * N.of_nat n + key k + 8 * N.of_nat (String.length k)))
    (fun n k => U (4000 + 512 * N.of_nat n + key k + 8 * N.of_nat (String.length k))) (fun n => U (10000 + n)) (fun n => U (20000 + N.of_nat n)).
Definition small : Seed.Options := Seed.mkOptions 1 12 2 4 2 "seed" 273.
Definition small_run (today : Z) (o : Seed.Options) := Seed.Run demo_supply today 4 o empty_world.


Definition counts (s : Summary) : Z * Z * Z * Z := (su_Items s, su_MaxDepth s, su_Links s, su_Events s).
Definition checksum_of (r : result seed_err Summary) : string := match r with Ok s => su_Checksum s | Err _ => "" end.

(** Twelve items in two projects, four deep; a day later the same seed gives the same
    items with other dates, and so another checksum. *)
Example small_run_ex :
  match (small_run 20000 small).1 with Ok s => Some (counts s) | Err _ => None end = Some (12, 4, 0, 23) /\
  checksum_of (small_run 20000 small).1 <> checksum_of (small_run 20001 small).1.
Proof. split; [vm_compute; reflexivity|]. intros E. vm_compute in E. discriminate E. Qed.

(** Without users the first choice of an assignee panics, and what was committed
    before it stays. *)
Example no_users_ex :
  let x := small_run 20000 (Seed.mkOptions 1 12 2 4 0 "seed" 273) in x.1 = Err Panic /\ size (s_workspace (b_site x.2)) = 1%nat.
Proof. vm_compute. split; reflexivity. Qed.

Lemma plan_all_ok_witness :
  exists pls pools' g', plan_all 4 (U <$> [10; 11; 12; 13; 14; 15; 16; 17]%N) (replicate 2 (replicate 5 [])) (NewRand 1) = Ok (pls, pools', g') /\
    plans_ok 4 (replicate 2 (replicate 5 [])) pls pools'.
Proof.
  destruct (plan_all_ok 4 (fun _ => 0%nat) (U <$> [10; 11; 12; 13; 14; 15; 16; 17]%N) (replicate 2 (replicate 5 [])) (NewRand 1))
    as (pls & pools' & g' & E & _ & Hok & _).
  - lia.
  - intros j p Hp. apply list_elem_of_lookup_2 in Hp. assert (p = replicate 5 []) as -> by (repeat (apply elem_of_cons in Hp as [->|Hp]; [done|]); by apply elem_of_nil in Hp).
    split; [done|]. split; [|lia]. intros d Hd. unfold level. do 6 (destruct d as [|d]; [cbn; split; [done|lia]|]). cbn. split; [done|lia].
  - done.
  - exists pls, pools', g'. by split.
Defined.

Lemma Run_store_witness : exists s, (small_run 20000 small).1 = Ok s /\
  store_ok (s_db (b_site (small_run 20000 small).2)) /\ size (items (s_db (b_site (small_run 20000 small).2))) = 12%nat.
Proof.
  destruct (small_run 20000 small) as [r w'] eqn:E. destruct (Run_store demo_supply 20000 4 small empty_world r w') as [Hok Hs].
  - split_and!; [intros id t Ht; discriminate Ht|intros v n Hv; discriminate Hv|]. split; intros x [y Hx]; discriminate Hx.
  - intros id i Hi. discriminate Hi.
  - reflexivity.
  - exact E.
  - assert (is_ok r = true) as Hr by (change r with (r, w').1; rewrite <- E; vm_compute; reflexivity).
    destruct r as [s|e]; [|discriminate Hr]. destruct (Hs s eq_refl) as [Hn _]. exists s. split; [done|]. split; [done|].
    cbn -[items s_db b_site] in Hn. apply Nat2Z.inj. etransitivity; [exact Hn|reflexivity].
Defined.

End SeedProps.
