(* ===== verification/Tools.v ===== *)
(** The operator's other commands ([cmd/sierxctl/rollup.go], [partitions.go],
    [restoretest.go], [main.go]): the audit of the rollups, the partitions of the change
    log, and the restore test over a cluster of databases and the journal. *)
From S2P Require Import Prelude Utf8 Uuid DateTime Journal Db Problem Operator.
Open Scope Z_scope.

Module Tools.
Import Db Journal Problem Operator.

(** * sierxctl rollup --verify *)

Definition count_text (n : nat) : string := itoa n.
Definition mismatch_line (m : Mismatch) : string :=
  "  " +:+ uuid_string (ItemID m) +:+ " descendants stored=" +:+ z_text (StoredDescendants m) +:+ " actual=" +:+ z_text (ActualDescendants m) +:+
  " done stored=" +:+ z_text (StoredDone m) +:+ " actual=" +:+ z_text (ActualDone m).

(** The loop over the mismatches: twenty, then how many more. *)
Definition mismatch_lines (bad : list Mismatch) : list string :=
  (mismatch_line <$> take 20 bad) ++ (if (20 <? length bad)%nat then ["  ... and " +:+ itoa (length bad - 20) +:+ " more"] else []).

(** The lines printed and the error, on the database as it is read. *)
Definition runRollup (verify : result string bool) (dsn : string) (db : Db) : list string * option string :=
  match verify with
  | Err e => ([], Some e)
  | Ok false => ([], Some "usage: sierxctl rollup --verify")
  | Ok true =>
      if String.eqb dsn "" then ([], Some "DATABASE_URL is unset")
      else
        let '(items, rollups) := CountItemsAndRollups db in
        let bad := VerifyRollups db in
        (("rollup --verify: items=" +:+ itoa items +:+ " rollups=" +:+ itoa rollups +:+ " mismatches=" +:+ itoa (length bad)) :: mismatch_lines bad,
         if negb (items =? rollups)%nat then Some ("count(item)=" +:+ itoa items +:+ " but count(item_rollup)=" +:+ itoa rollups +:+ " (ADR-013)")
         else if (0 <? length bad)%nat then Some (itoa (length bad) +:+ " rollup row(s) disagree with a fresh aggregate")
         else None)
  end.

(** * sierxctl partitions ensure *)

(** Months are counted from January of the year 0. *)
Definition partition_name (month : Z) : string := "change_event_" +:+ zpad 4 (month / 12) +:+ "_" +:+ zpad 2 (month mod 12 + 1).

(** [change_event_ensure_partitions]: the loop over the months. *)
Fixpoint ensure_from (month : Z) (n : nat) (parts : gset string) : list string * gset string :=
  match n with
  | O => ([], parts)
  | S n =>
      let p := partition_name month in
      if bool_decide (p ∈ parts) then ensure_from (month + 1) n parts
      else let '(created, parts) := ensure_from (month + 1) n ({[p]} ∪ parts) in (p :: created, parts)
  end.
Definition change_event_ensure_partitions (month ahead : Z) (parts : gset string) : option (list string * gset string) :=
  if (ahead <? 0) || (12 <? ahead) then None else Some (ensure_from month (Z.to_nat (ahead + 1)) parts).

(** [args] after the word [partitions], [months] the parsed flag, [month] the current
    one. *)
Definition runPartitions (args : list string) (months : result string Z) (dsn : string) (month : Z) (parts : gset string) :
    result string (list string) * gset string :=
  match args with
  | "ensure" :: _ =>
      match months with
      | Err e => (Err e, parts)
      | Ok ahead =>
          if ahead <? 0 then (Err "--months-ahead must be >= 0", parts)
          else if String.eqb dsn "" then (Err "SIERX_MAINTENANCE_DATABASE_URL is unset", parts)
          else match change_event_ensure_partitions month ahead parts with
               | None => (Err "ensure partitions", parts)
               | Some (created, parts) =>
                   (Ok (((fun n => "created " +:+ n) <$> created) ++
                        ["partitions ensure: " +:+ itoa (length created) +:+ " created, months-ahead=" +:+ z_text ahead]), parts)
               end
      end
  | _ => (Err "usage: sierxctl partitions ensure --months-ahead N", parts)
  end.

(** * sierxctl restore-test *)

Definition slash : ascii := "/".

(** [net/url.Parse] of a connection string. *)
Record url := mkUrl { u_Scheme : string; u_User : option string; u_Host : string; u_Path : string; u_Has : string -> bool; u_String : string }.

(** [strings.TrimPrefix(s, "/")] *)
Definition trim_path (s : string) : string := match s with String c r => if Ascii.eqb c slash then r else s | EmptyString => s end.

(** [replaceDatabase]: everything up to the last slash before the query. *)
Fixpoint before_query (l : list ascii) : list ascii * list ascii :=
  match l with
  | [] => ([], [])
  | c :: r => if Ascii.eqb c "?" then ([], l) else let '(a, b) := before_query r in (c :: a, b)
  end.
Fixpoint upto_slash (l : list ascii) : option (list ascii) :=
  match l with
  | [] => None
  | c :: r => match upto_slash r with Some p => Some (c :: p) | None => if Ascii.eqb c slash then Some [c] else None end
  end.
Definition replaceDatabase (dsn db : string) : result string string :=
  let '(base, query) := before_query (chars dsn) in
  match upto_slash base with
  | None => Err "cannot parse DATABASE_URL"
  | Some p => Ok (of_chars (p ++ chars db ++ query))
  end.

Definition quoteIdent (s : string) : string :=
  String dquote (of_chars (concat ((fun c => if Ascii.eqb c dquote then [dquote; dquote] else [c]) <$> chars s))) +:+ String dquote "".

(** [^sierx_restore_[a-z0-9_]+$], at most 63 bytes *)
Definition scratch_char (c : ascii) : bool := byte_in 97 122 c || byte_in 48 57 c || Ascii.eqb c "_".
Definition scratch_ok (s : string) : bool :=
  has_prefix s "sierx_restore_" && (15 <=? String.length s)%nat && forallb scratch_char (chars (str_drop 14 s)) && (String.length s <=? 63)%nat.

(** [strings.FieldsFunc] at commas and spaces *)
Fixpoint fields_at (l : list ascii) (cur : list ascii) : list (list ascii) :=
  let flush := match cur with [] => [] | _ => [cur] end in
  match l with
  | [] => flush
  | c :: l => if Ascii.eqb c "," || Ascii.eqb c " " then flush ++ fields_at l [] else fields_at l (cur ++ [c])
  end.
Definition driver_names (list_ : string) : list string := of_chars <$> fields_at (chars list_) [].

(** The counter's file; [None] if it cannot be opened. *)
Fixpoint first_line (l : list ascii) : list ascii :=
  match l with [] => [] | c :: l => if Ascii.eqb c newline then [] else c :: first_line l end.
Definition readRotation (f : option string) : Z :=
  match f with
  | None => 0
  | Some s =>
      let line := first_line (chars s) in
      if 65536 <=? Z.of_nat (length line) then 0
      else match parse_int64 (trim_space (of_chars line)) with Some n => if 0 <=? n then n else 0 | None => 0 end
  end.
Definition rotation_text (n : Z) : string := z_text n +:+ String newline "".

(** How strings name databases: what [url.Parse] reads in one, and the server and the
    database a client that is given it connects to (libpq for [psql] and the drivers,
    pgx for the replay). A parameter of the query overrides what the rest of the string
    says: [dbname], and in pgx [database], the path, the others the host. Without one,
    swapping the last segment of a path of one segment names that database on the same
    server. A query with escapes, [;] or spaces is not promised to be read by
    [url.Parse] as a client reads it. *)
Definition plain_name (s : string) : bool := forallb (fun c => negb (mem_str (String c "") ["/"; "?"; "#"; "%"])) (chars s).
Definition pg_scheme (s : string) : bool := String.eqb s "postgres" || String.eqb s "postgresql".
Definition plain_dsn (s : string) : bool :=
  negb (contains_byte "#" s) && forallb (fun c => negb (mem_str (String c "") [";"; "%"; "+"; " "])) (before_query (chars s)).2.
Definition one_segment (p : string) : bool := negb (contains_byte slash (trim_path p)).
Definition host_overrides : list string := ["host"; "hostaddr"; "port"; "service"].
Definition database_overrides : list string := ["dbname"; "database"].
Class Dsn := {
  dsn_parse : string -> option url;
  place_of : string -> string * string;
  place_replaced : forall s u db t, dsn_parse s = Some u -> pg_scheme (u_Scheme u) = true -> trim_path (u_Path u) <> "" -> one_segment (u_Path u) = true ->
    plain_dsn s = true -> plain_name db = true -> (forall k, k ∈ host_overrides ++ database_overrides -> u_Has u k = false) ->
    replaceDatabase s db = Ok t -> place_of t = (u_Host u, db);
  parse_string : forall s u, dsn_parse s = Some u -> plain_dsn s = true -> exists u', dsn_parse (u_String u) = Some u' /\
    u_Scheme u' = u_Scheme u /\ u_Path u' = u_Path u /\ u_Host u' = u_Host u /\ (forall k, u_Has u' k = u_Has u k) /\ plain_dsn (u_String u) = true
}.

Section restore.
Context {C : Type} `{UuidParse} `{Content C} {CR : Crypto} {CH : Codec Head_} {CB : Codec Body} {CE : Codec envelope} {DN : Dsn}.

(** The databases by server and name; [None] has no tables of the program. *)
Definition cluster : Type := gmap (string * string) (option (LifecycleDb C)).

(** A quoted identifier, cut at 63 bytes as PostgreSQL does. *)
Fixpoint read_quoted (l : list ascii) : option (list ascii * list ascii) :=
  match l with
  | [] => None
  | c :: r =>
      if Ascii.eqb c dquote then
        match r with
        | d :: r' => if Ascii.eqb d dquote then match read_quoted r' with Some (a, b) => Some (dquote :: a, b) | None => None end else Some ([], r)
        | [] => Some ([], [])
        end
      else match read_quoted r with Some (a, b) => Some (c :: a, b) | None => None end
  end.
Definition read_ident (s : string) : option (string * string) :=
  match s with
  | String c r => if Ascii.eqb c dquote then match read_quoted (chars r) with Some (a, b) => Some (str_take 63 (of_chars a), of_chars b) | None => None end else None
  | EmptyString => None
  end.

Definition drop_prefix : string := "DROP DATABASE IF EXISTS ".
Definition create_prefix : string := "CREATE DATABASE ".
Definition create_suffix : string := " TEMPLATE template0 ENCODING 'UTF8' LOCALE 'C'".
Definition drop_sql (scratch : string) : string := drop_prefix +:+ quoteIdent scratch.
Definition create_sql (scratch : string) : string := create_prefix +:+ quoteIdent scratch +:+ create_suffix.

(** What the two statements do on a server. *)
Definition sql_effect (server sql : string) (c : cluster) : cluster :=
  if has_prefix sql drop_prefix then
    match read_ident (str_drop (String.length drop_prefix) sql) with Some (n, "") => delete (server, n) c | _ => c end
  else if has_prefix sql create_prefix then
    match read_ident (str_drop (String.length create_prefix) sql) with
    | Some (n, rest) => if String.eqb rest create_suffix && negb (bool_decide (is_Some (c !! (server, n)))) then <[(server, n) := None]> c else c
    | None => c
    end
  else c.
(** [psqlExec]: an error leaves it open whether the statement took effect. *)
Definition psqlExec (o : commit) (dsn sql : string) (c : cluster) : bool * cluster :=
  let done := sql_effect (place_of dsn).1 sql c in
  match o with Committed => (true, done) | CommitLost => (false, c) | CommitUnknown => (false, done) end.

(** What the world decides in a run: the journal's lock, the two statements, whether
    the driver succeeds and what it leaves in the database it is given, the
    connection, the COMMIT, and what a failed write leaves of the counter. *)
Record occasion := mkOccasion {
  oc_lock : bool; oc_drop : commit; oc_create : commit; oc_driver : bool; oc_restored : option (LifecycleDb C);
  oc_connected : bool; oc_commit : commit; oc_torn : option (option string) }.

Record lab := mkLab { lb_cluster : cluster; lb_rotation : option string; lb_files : fs }.

(** The driver writes in the database it is given, if there is one. *)
Definition restore_to (oc : occasion) (target : string) (c : cluster) : cluster :=
  if bool_decide (is_Some (c !! place_of target)) then <[place_of target := oc_restored oc]> c else c.

Definition validateRestoreTarget (dsn scratch : string) : result string unit :=
  let refused := Err "restore-test requires a PostgreSQL URL with an explicit database and no dbname override" in
  match dsn_parse dsn with
  | None => refused
  | Some source =>
      if (negb (String.eqb (u_Scheme source) "postgres") && negb (String.eqb (u_Scheme source) "postgresql")) ||
         String.eqb (trim_path (u_Path source)) "" || u_Has source "dbname"
      then refused
      else if negb (scratch_ok scratch) || String.eqb (trim_path (u_Path source)) scratch
      then Err "restore-test scratch must be a distinct database named sierx_restore_<suffix>"
      else Ok tt
  end.

(** The maintenance role's URL on the same cluster and database. *)
Definition maintenance_role (dsn role_url : string) : result string url :=
  let refused := Err "recovery requires the same source cluster/database through the separate maintenance role URL" in
  match dsn_parse role_url, dsn_parse dsn with
  | Some role, Some source =>
      if negb (bool_decide (u_User role = Some "sierx_maintenance")) || negb (String.eqb (u_Host role) (u_Host source)) ||
         negb (String.eqb (u_Path role) (u_Path source)) || u_Has role "dbname" || u_Has role "host" || u_Has role "port" ||
         (negb (String.eqb (u_Scheme role) "postgres") && negb (String.eqb (u_Scheme role) "postgresql"))
      then refused
      else Ok role
  | _, _ => refused
  end.

Definition default_scratch (s : string) : string := if String.eqb s "" then "sierx_restore_test" else s.

(** What a run works out before it touches anything. *)
Record setting := mkSetting { st_drivers : list string; st_driver : string; st_scratch : string; st_target : string; st_maintenance : string; st_admin : string }.
Definition restore_setting (args : list string) (getenv : string -> string) (n : Z) : result string setting :=
  match args with
  | a :: _ => Err ("restore-test takes no arguments (got " +:+ a +:+ "); it has no escape hatches by design")
  | [] =>
      if String.eqb (getenv "SIERX_BACKUP_DRIVERS") "" then Err "SIERX_BACKUP_DRIVERS is unset"
      else
        let drivers := driver_names (getenv "SIERX_BACKUP_DRIVERS") in
        match drivers !! Z.to_nat (n mod Z.of_nat (length drivers)) with
        | None => Err "SIERX_BACKUP_DRIVERS names no drivers"
        | Some driver =>
            let dsn := getenv "DATABASE_URL" in
            if String.eqb dsn "" then Err "DATABASE_URL is unset"
            else
              let scratch := default_scratch (getenv "SIERX_RESTORE_SCRATCH_DB") in
              let* _ := validateRestoreTarget dsn scratch in
              let* target := replaceDatabase dsn scratch in
              let* role := maintenance_role dsn (getenv "SIERX_MAINTENANCE_DATABASE_URL") in
              let* maintenance := replaceDatabase (u_String role) scratch in
              let* admin := replaceDatabase dsn "postgres" in
              Ok (mkSetting drivers driver scratch target maintenance admin)
        end
  end.

(** The replay in the restored database: one transaction. *)
Definition replay_restored (oc : occasion) (j : Journal_) (place : string * string) (c : cluster) : result string unit * cluster :=
  match oc_connected oc, c !! place with
  | true, Some (Some d) =>
      match Prefix j (DatabaseHead d) with
      | None => (Err "index out of range", c)
      | Some false => (Err "restored database does not match the current journal", c)
      | Some true =>
          match foldM ApplyRecord (List.filter (fun r => l_sequence d <? r_Sequence (body r)) (Records j)) d with
          | Err e => (Err e, c)
          | Ok d' =>
              match oc_commit oc with
              | Committed => (Ok tt, <[place := Some d']> c)
              | CommitLost => (Err "commit", c)
              | CommitUnknown => (Err "commit", <[place := Some d']> c)
              end
          end
      end
  | _, _ => (Err "restored maintenance connection failed", c)
  end.

(** From the scratch database's statements to the replay. *)
Definition restore_and_replay (oc : occasion) (j : Journal_) (st : setting) (c : cluster) : result string unit * cluster :=
  match psqlExec (oc_drop oc) (st_admin st) (drop_sql (st_scratch st)) c with
  | (false, c) => (Err "preparing scratch database", c)
  | (true, c) =>
      match psqlExec (oc_create oc) (st_admin st) (create_sql (st_scratch st)) c with
      | (false, c) => (Err "preparing scratch database", c)
      | (true, c) =>
          let c := restore_to oc (st_target st) c in
          if negb (oc_driver oc) then (Err ("restore-test FAILED for driver " +:+ st_driver st), c)
          else replay_restored oc j (place_of (st_maintenance st)) c
      end
  end.

Definition writeRotation (oc : occasion) (n : Z) (old : option string) : option string :=
  match oc_torn oc with None => Some (rotation_text n) | Some f => f end.

Definition runRestoreTest (args : list string) (getenv : string -> string) (oc : occasion) (w : lab) : result string unit * lab :=
  let n := readRotation (lb_rotation w) in
  match restore_setting args getenv n with
  | Err e => (Err e, w)
  | Ok st =>
      match EnvironmentPaths getenv with
      | Err e => (Err e, w)
      | Ok p =>
          if negb (oc_lock oc) then (Err "journal is locked or its protected directory is missing", w)
          else match Load (lb_files w) (p_Journal p) (p_Key p) (p_Checkpoint p) with
          | Err e => (Err e, w)
          | Ok j =>
              match restore_and_replay oc j st (lb_cluster w) with
              | (Err e, c) => (Err e, mkLab c (lb_rotation w) (lb_files w))
              | (Ok _, c) => (Ok tt, mkLab c (writeRotation oc (wrap64 (n + 1)) (lb_rotation w)) (lb_files w))
              end
          end
      end
  end.

End restore.

(** * The command line *)

(** [main]: the exit status, 2 for a command it does not know. *)
Definition commands : list string := ["bootstrap"; "partitions"; "seed"; "rollup"; "restore-test"; "accounts"; "lifecycle"; "exports"].
Definition sierxctl (args : list string) (run : string -> list string -> option string) : Z :=
  match args with
  | c :: args => if mem_str c commands then match run c args with None => 0 | Some _ => 1 end else 2
  | [] => 2
  end.

End Tools.
