(* ===== verification/ToolsProps.v ===== *)
(** The other commands: when the audit of the rollups passes, what the partitions
    command leaves, and that a restore test touches its scratch database only, brings
    it to the end of the journal and comes to every driver. *)
From S2P Require Import Prelude Utf8 Uuid DateTime Journal JournalProps Db StoreRollup Problem Operator OperatorProps Reads ReadsProps Tools.
Open Scope Z_scope.

Module ToolsProps.
Import Db Journal JournalProps StoreRollup Problem Operator OperatorProps ReadsProps Tools.

(** * The audit of the rollups *)

(** The command succeeds exactly on a database with as many rollups as items and no
    mismatch; correct rollups are such, and at most twenty-one lines tell of others. *)
Theorem runRollup_exact dsn db :
  dsn <> "" ->
  ((runRollup (Ok true) dsn db).2 = None <-> base.size (items db) = base.size (rollups db) /\ VerifyRollups db = []) /\
  (rollups_exact db -> runRollup (Ok true) dsn db =
     (["rollup --verify: items=" +:+ itoa (base.size (items db)) +:+ " rollups=" +:+ itoa (base.size (items db)) +:+ " mismatches=0"], None)) /\
  (length (runRollup (Ok true) dsn db).1 <= 22)%nat.
Proof.
  intros Hd. unfold runRollup. rewrite (proj2 (String.eqb_neq dsn "") Hd). cbn [CountItemsAndRollups fst snd]. split_and!.
  - destruct (Nat.eqb_spec (base.size (items db)) (base.size (rollups db))) as [->|Hne]; cbn [negb]; [|split; [done|by intros [? _]]].
    destruct (VerifyRollups db) as [|m l]; [by split|split; [done|by intros [_ ?]]].
  - intros [-> Hc]%exact_verified. cbn in Hc. rewrite <- Hc, Nat.eqb_refl. done.
  - cbn [length]. unfold mismatch_lines. rewrite length_app, length_fmap, length_take. destruct (20 <? _)%nat; cbn [length]; lia.
Qed.

(** * The partitions *)

Definition month_names (month : Z) (n : nat) : list string := (fun k => partition_name (month + Z.of_nat k)) <$> seq 0 n.

Lemma month_names_S month n : month_names month (S n) = partition_name month :: month_names (month + 1) n.
Proof.
  unfold month_names. cbn [seq fmap list_fmap]. rewrite Z.add_0_r. f_equal. rewrite <- seq_shift, <- list_fmap_compose. apply list_fmap_ext.
  intros i x _. cbn. f_equal. lia.
Qed.

Lemma partition_name_inj a b : 0 <= a < 120000 -> 0 <= b < 120000 -> partition_name a = partition_name b -> a = b.
Proof.
  intros Ha Hb H. assert (Hy : forall m, 0 <= m < 120000 -> 0 <= m / 12 < 10 ^ Z.of_nat 4) by (intros m Hm; split; [apply Z.div_pos; lia|apply Z.div_lt_upper_bound; lia]).
  assert (Hm : forall m, 0 <= m mod 12 + 1 < 10 ^ Z.of_nat 2) by (intros m; pose proof (Z.mod_pos_bound m 12 ltac:(lia)); cbn; lia).
  destruct (zpad_digits 4 (a / 12) (Hy a Ha)) as (La & _ & Va), (zpad_digits 4 (b / 12) (Hy b Hb)) as (Lb & _ & Vb).
  destruct (zpad_digits 2 (a mod 12 + 1) (Hm a)) as (_ & _ & Wa), (zpad_digits 2 (b mod 12 + 1) (Hm b)) as (_ & _ & Wb).
  unfold partition_name in H. apply (f_equal chars) in H. rewrite !chars_app in H. apply app_inv_head in H.
  apply app_inj_1 in H as [H1 H2]; [|congruence]. rewrite H1 in Va. apply app_inv_head in H2. rewrite H2 in Wa.
  rewrite (Z.div_mod a 12), (Z.div_mod b 12) by lia. lia.
Qed.

Lemma filter_agree {A} (P Q : A -> Prop) `{!forall x, Decision (P x), !forall x, Decision (Q x)} (l : list A) :
  (forall x, x ∈ l -> P x <-> Q x) -> filter P l = filter Q l.
Proof.
  induction l as [|x l IH]; intros Hl; [done|]. rewrite !filter_cons, IH by (intros y Hy; apply Hl; by right).
  pose proof (Hl x ltac:(left)) as Hx. by destruct (decide (P x)), (decide (Q x)); tauto || done.
Qed.

Lemma month_later month n : 0 <= month -> month + Z.of_nat (S n) <= 120000 -> partition_name month ∉ month_names (month + 1) n.
Proof.
  intros Hm Hn Hin. apply list_elem_of_fmap in Hin as (k & Hk & Hin). apply elem_of_seq in Hin. apply partition_name_inj in Hk; lia.
Qed.

Lemma ensure_from_spec month n parts : 0 <= month -> month + Z.of_nat n <= 120000 ->
  ensure_from month n parts = (filter (fun p => p ∉ parts) (month_names month n), parts ∪ list_to_set (month_names month n)).
Proof.
  revert month parts. induction n as [|n IH]; intros month parts Hm Hn.
  - cbn. by rewrite union_empty_r_L.
  - pose proof (month_later month n Hm Hn) as Hlater. rewrite month_names_S. cbn [ensure_from]. case_bool_decide as Hp; rewrite IH by lia.
    + rewrite filter_cons_False by (intros Hn'; by apply Hn'). f_equal. apply set_eq. intros x.
      rewrite !elem_of_union, !elem_of_list_to_set, elem_of_cons. split; [tauto|]. intros [?|[->|?]]; [by left|by left|by right].
    + rewrite filter_cons_True by done. f_equal.
      * f_equal. apply filter_agree. intros x Hx. rewrite not_elem_of_union, not_elem_of_singleton. split; [by intros [_ ?]|]. intros Hx'. split; [|done].
        by intros ->.
      * apply set_eq. intros x. rewrite !elem_of_union, !elem_of_list_to_set, elem_of_cons, elem_of_singleton. tauto.
Qed.

(** The command creates exactly the partitions of the current and the following months
    that are missing, drops none, and finds nothing to do when it is run again. *)
Theorem runPartitions_exact months dsn month parts ahead rest :
  months = Ok ahead -> dsn <> "" -> 0 <= ahead <= 12 -> 0 <= month < 119980 ->
  let names := month_names month (Z.to_nat (ahead + 1)) in
  let '(r, parts') := runPartitions ("ensure" :: rest) months dsn month parts in
  parts' = parts ∪ list_to_set names /\
  (exists created, created = filter (fun p => p ∉ parts) names /\
     r = Ok (((fun n => "created " +:+ n) <$> created) ++ ["partitions ensure: " +:+ itoa (length created) +:+ " created, months-ahead=" +:+ z_text ahead])) /\
  runPartitions ("ensure" :: rest) months dsn month parts' = (Ok ["partitions ensure: 0 created, months-ahead=" +:+ z_text ahead], parts').
Proof.
  intros -> Hd Ha Hm. cbv zeta. unfold runPartitions. rewrite (proj2 (Z.ltb_ge ahead 0)), (proj2 (String.eqb_neq dsn "") Hd) by lia.
  unfold change_event_ensure_partitions. rewrite (proj2 (Z.ltb_ge ahead 0)), (proj2 (Z.ltb_ge 12 ahead)) by lia. cbn [orb].
  rewrite !ensure_from_spec by lia. split; [done|]. split; [by eexists|].
  set (names := month_names month (Z.to_nat (ahead + 1))). assert (Hnone : filter (fun p => p ∉ parts ∪ list_to_set names) names = []).
  { rewrite (filter_agree _ (fun _ => False)); [by induction names|]. intros x Hx. split; [|done]. intros Hn. apply Hn, elem_of_union_r. by apply elem_of_list_to_set. }
  rewrite Hnone. cbn. f_equal. apply set_eq. intros x. rewrite !elem_of_union. tauto.
Qed.

(** * The statements of the restore test *)

Lemma str_drop_app a b : str_drop (String.length a) (a +:+ b) = b.
Proof. unfold str_drop. rewrite chars_app, <- length_chars, drop_app_length. apply of_chars_chars. Qed.

Definition doubled (l : list ascii) : list ascii := concat ((fun c => if Ascii.eqb c dquote then [dquote; dquote] else [c]) <$> l).
Definition no_quote_first (l : list ascii) : Prop := match l with c :: _ => Ascii.eqb c dquote = false | [] => True end.

Lemma read_quoted_doubled l rest : no_quote_first rest -> read_quoted (doubled l ++ dquote :: rest) = Some (l, rest).
Proof.
  intros Hr. induction l as [|c l IH].
  - cbn [doubled concat fmap list_fmap app read_quoted]. rewrite Ascii.eqb_refl. destruct rest as [|d r]; [done|]. cbn in Hr. by rewrite Hr.
  - unfold doubled in *. cbn [concat fmap list_fmap]. destruct (Ascii.eqb_spec c dquote) as [->|Hne]; cbn [app read_quoted].
    + rewrite Ascii.eqb_refl. by rewrite IH.
    + apply Ascii.eqb_neq in Hne. rewrite Hne. by rewrite IH.
Qed.

(** A quoted identifier is read back, up to PostgreSQL's cut at 63 bytes. *)
Lemma quoteIdent_read s rest : no_quote_first (chars rest) -> read_ident (quoteIdent s +:+ rest) = Some (str_take 63 s, rest).
Proof.
  intros Hr. unfold quoteIdent. fold (doubled (chars s)). set (body := of_chars (doubled (chars s))).
  change ((String dquote body +:+ String dquote "") +:+ rest) with (String dquote ((body +:+ String dquote "") +:+ rest)).
  unfold read_ident. rewrite Ascii.eqb_refl, !chars_app. unfold body. rewrite chars_of_chars, <- app_assoc.
  change (chars (String dquote "") ++ chars rest) with (dquote :: chars rest). rewrite read_quoted_doubled by done. by rewrite !of_chars_chars.
Qed.

Lemma scratch_cut s : scratch_ok s = true -> str_take 63 s = s.
Proof.
  unfold scratch_ok. rewrite !andb_true_iff, !Nat.leb_le. intros [_ Hl]. unfold str_take. rewrite take_ge by (rewrite length_chars; lia). apply of_chars_chars.
Qed.

Lemma scratch_plain s : scratch_ok s = true -> plain_name s = true.
Proof.
  unfold scratch_ok. rewrite !andb_true_iff. intros [[[Hp _] Hc] _]. apply has_prefix_spec in Hp as [t ->].
  change 14%nat with (String.length "sierx_restore_") in Hc. rewrite str_drop_app in Hc. unfold plain_name. rewrite chars_app, forallb_app.
  apply andb_true_iff. split; [reflexivity|]. rewrite !forallb_forall in *. intros c Hin. specialize (Hc c Hin). clear Hin.
  revert Hc. unfold scratch_char. destruct c as [[] [] [] [] [] [] [] []]; vm_compute; congruence.
Qed.

(** * The counter *)

Lemma digits_value_digits l acc z : digits_value l acc = Some z -> forallb is_digit_char l = true.
Proof.
  revert acc. induction l as [|c l IH]; intros acc H; [done|]. cbn [digits_value] in H. cbn [forallb].
  destruct (is_digit_char c); [by apply IH in H|done].
Qed.

Lemma digit_facts c l : is_digit_char c = true -> space_len (c :: l) = 0%nat /\ Ascii.eqb c newline = false.
Proof.
  intros Hc. destruct c as [[] [] [] [] [] [] [] []]; try discriminate Hc; (split; [|reflexivity]); destruct l as [|a [|b l]]; reflexivity.
Qed.

Lemma trim_digits l : forallb is_digit_char l = true -> trim_right (trim_left (length l) l) = l.
Proof.
  intros Hl. assert (trim_left (length l) l = l) as ->.
  { destruct l as [|c l]; [done|]. cbn [forallb] in Hl. apply andb_true_iff in Hl as [Hc _]. destruct (digit_facts c l Hc) as [E _].
    cbn [length trim_left]. by rewrite E. }
  induction l as [|c l IH]; [done|]. cbn [forallb] in Hl. apply andb_true_iff in Hl as [Hc Hl]. destruct (digit_facts c l Hc) as [E _].
  cbn [trim_right]. cbn [length all_space]. rewrite E. by rewrite IH.
Qed.

Lemma itoa_aux_length f : forall n acc k, (1 <= k)%nat -> (Z.of_nat n < 10 ^ Z.of_nat k) -> (String.length (itoa_aux f n acc) <= k + String.length acc)%nat.
Proof.
  induction f as [|f IH]; intros n acc k Hk Hn; cbn [itoa_aux]; [lia|]. destruct (Nat.ltb_spec n 10) as [|Hge]; [cbn; lia|].
  destruct k as [|[|k]]; [lia|cbn in Hn; lia|]. pose proof (IH (n / 10)%nat (String (digit_char (n mod 10)) acc) (S k) ltac:(lia)) as IH'.
  cbn [String.length] in IH'. replace (S (S k) + String.length acc)%nat with (S k + S (String.length acc))%nat by lia. apply IH'.
  rewrite Nat2Z.inj_div. apply Z.div_lt_upper_bound; [lia|]. rewrite (Nat2Z.inj_succ (S k)), Z.pow_succ_r in Hn by lia. lia.
Qed.

(** The counter is read back as it was written. *)
Lemma rotation_roundtrip n : 0 <= n < 2 ^ 63 -> readRotation (Some (rotation_text n)) = n.
Proof.
  intros Hn. assert (Hi : in_int64 n = true) by (unfold in_int64; apply andb_true_iff; split; [apply Z.leb_le|apply Z.ltb_lt]; lia).
  pose proof (parse_z_text n ltac:(lia) Hi) as Hp. unfold z_text in *. destruct (Z.ltb_spec n 0); [lia|].
  pose proof (itoa_aux_value (S (Z.to_nat n)) (Z.to_nat n) "" ltac:(lia)) as Hv. fold (itoa (Z.to_nat n)) in Hv. cbn [chars digits_value] in Hv.
  apply digits_value_digits in Hv. set (l := chars (itoa (Z.to_nat n))) in *.
  assert (Hline : first_line (chars (rotation_text n)) = l).
  { unfold rotation_text, z_text. destruct (Z.ltb_spec n 0); [lia|]. rewrite chars_app. fold l. clearbody l. clear -Hv. induction l as [|c l IH].
    - cbn [chars app first_line]. by rewrite Ascii.eqb_refl.
    - cbn [forallb] in Hv. apply andb_true_iff in Hv as [Hc Hl]. cbn [app first_line]. rewrite (proj2 (digit_facts c l Hc)). by rewrite IH. }
  unfold readRotation. rewrite Hline. assert (Hlen : (length l <= 20)%nat).
  { unfold l. rewrite length_chars. apply (itoa_aux_length _ _ "" 20); [lia|]. rewrite Z2Nat.id by lia. lia. }
  rewrite (proj2 (Z.leb_gt 65536 (Z.of_nat (length l)))) by lia. unfold trim_space. rewrite chars_of_chars, trim_digits by done.
  unfold l. rewrite of_chars_chars, Hp. by rewrite (proj2 (Z.leb_le 0 n)) by lia.
Qed.

Section restore.
Context {C : Type} `{UuidParse} `{Content C} {CR : Crypto} {CH : Codec Head_} {CB : Codec Body} {CE : Codec envelope} {DN : Dsn}.

Lemma drop_effect v s (c : cluster (C := C)) : scratch_ok s = true -> sql_effect v (drop_sql s) c = delete (v, s) c.
Proof.
  intros Hs. unfold sql_effect, drop_sql. assert (Prelude.has_prefix (drop_prefix +:+ quoteIdent s) drop_prefix = true) as -> by (apply has_prefix_spec; by eexists).
  rewrite str_drop_app, <- (str_app_nil_r (quoteIdent s)), quoteIdent_read by done. by rewrite scratch_cut.
Qed.

Lemma create_effect v s (c : cluster (C := C)) : scratch_ok s = true -> c !! (v, s) = None -> sql_effect v (create_sql s) c = <[(v, s) := None]> c.
Proof.
  intros Hs Hn. unfold sql_effect, create_sql.
  assert (Prelude.has_prefix (create_prefix +:+ quoteIdent s +:+ create_suffix) drop_prefix = false) as -> by reflexivity.
  assert (Prelude.has_prefix (create_prefix +:+ quoteIdent s +:+ create_suffix) create_prefix = true) as -> by (apply has_prefix_spec; by eexists).
  rewrite str_drop_app, quoteIdent_read by done. rewrite scratch_cut by done. rewrite String.eqb_refl, bool_decide_eq_false_2; [done|]. rewrite Hn. by intros [? ?].
Qed.

(** Databases other than [q] are as they were. *)
Definition only_at (q : string * string) (c c' : cluster (C := C)) : Prop := forall n, n <> q -> c' !! n = c !! n.
#[local] Instance only_at_preorder q : PreOrder (only_at q).
Proof. split; [by intros c n|]. intros a b c Hab Hbc n Hn. by rewrite Hbc, Hab. Qed.

Lemma only_at_insert q x (c : cluster (C := C)) : only_at q c (<[q := x]> c).
Proof. intros n Hn. apply (lookup_insert_ne (M := gmap (string * string)) c). congruence. Qed.

Lemma drop_only o dsn v s (c : cluster (C := C)) : scratch_ok s = true -> (place_of dsn).1 = v -> only_at (v, s) c (psqlExec o dsn (drop_sql s) c).2 /\
  ((psqlExec o dsn (drop_sql s) c).1 = true -> (psqlExec o dsn (drop_sql s) c).2 !! (v, s) = None).
Proof.
  intros Hs <-. unfold psqlExec. rewrite drop_effect by done. destruct o; cbn; split; try done; [|intros _; apply (lookup_delete_eq (M := gmap (string * string)) c)|];
    intros n Hn; apply (lookup_delete_ne (M := gmap (string * string)) c); congruence.
Qed.
Lemma create_only o dsn v s (c : cluster (C := C)) : scratch_ok s = true -> (place_of dsn).1 = v -> c !! (v, s) = None ->
  only_at (v, s) c (psqlExec o dsn (create_sql s) c).2.
Proof. intros Hs <- Hn. unfold psqlExec. rewrite create_effect by done. destruct o; cbn; [apply only_at_insert|done|apply only_at_insert]. Qed.

(** Parameters a connection string does not set. *)
Definition unset (u : url) (ks : list string) : Prop := forall k, k ∈ ks -> u_Has u k = false.

(** What the environment is taken to be beyond what the command checks: strings that
    read as URLs without escapes in the query, a source of one segment, and no
    parameter the command does not look for that names another database or server. *)
Record plain_urls (getenv : string -> string) (source role : url) : Prop := {
  pu_source : dsn_parse (getenv "DATABASE_URL") = Some source;
  pu_segment : one_segment (u_Path source) = true;
  pu_plain : plain_dsn (getenv "DATABASE_URL") = true;
  pu_unset : unset source ("database" :: host_overrides);
  pu_role : dsn_parse (getenv "SIERX_MAINTENANCE_DATABASE_URL") = Some role;
  pu_role_plain : plain_dsn (getenv "SIERX_MAINTENANCE_DATABASE_URL") = true;
  pu_role_unset : unset role ["database"; "hostaddr"; "service"]
}.

(** What the checks before the first statement establish. *)
Lemma restore_setting_inv args getenv n st source role :
  restore_setting args getenv n = Ok st -> plain_urls getenv source role ->
  st_scratch st = default_scratch (getenv "SIERX_RESTORE_SCRATCH_DB") /\ scratch_ok (st_scratch st) = true /\ st_scratch st <> trim_path (u_Path source) /\
  (place_of (st_admin st)).1 = u_Host source /\ place_of (st_target st) = (u_Host source, st_scratch st) /\
  place_of (st_maintenance st) = (u_Host source, st_scratch st).
Proof.
  intros Hst [Hsrc Hone Hpl Hun Hrole Hpl' Hun']. unfold restore_setting in Hst. destruct args; [|done]. destruct (String.eqb _ ""); [done|].
  destruct (driver_names _ !! _) as [driver|] eqn:Ed; [|done]. destruct (String.eqb (getenv "DATABASE_URL") ""); [done|].
  destruct (validateRestoreTarget _ _) as [[]|] eqn:Ev; [|done]. destruct (replaceDatabase (getenv "DATABASE_URL") _) as [target|] eqn:Et; [|done].
  destruct (maintenance_role _ _) as [role'|] eqn:Er; [|done]. destruct (replaceDatabase (u_String role') _) as [maint|] eqn:Em; [|done].
  destruct (replaceDatabase _ "postgres") as [admin|] eqn:Ea; [|done]. injection Hst as <-. cbn.
  unfold validateRestoreTarget in Ev. rewrite Hsrc in Ev.
  match type of Ev with (if ?b then _ else _) = _ => destruct b eqn:Eg1; [done|] end. destruct (_ || _) eqn:Eg in Ev; [done|].
  rewrite !orb_false_iff, String.eqb_neq in Eg1. destruct Eg1 as [[Hsch Hne1] Hdb].
  assert (Hpg : forall x, negb (String.eqb x "postgres") && negb (String.eqb x "postgresql") = false -> pg_scheme x = true).
  { intros x. unfold pg_scheme. by destruct (String.eqb x "postgres"), (String.eqb x "postgresql"). }
  apply Hpg in Hsch.
  rewrite orb_false_iff, negb_false_iff, String.eqb_neq in Eg. destruct Eg as [Hs Hne].
  unfold maintenance_role in Er. rewrite Hrole, Hsrc in Er. destruct (_ || _) eqn:Eg; [done|]. injection Er as <-.
  rewrite !orb_false_iff, !negb_false_iff, !String.eqb_eq in Eg. destruct Eg as ((((((_ & Hhost) & Hpath) & Rdb) & Rhost) & Rport) & Rsch). apply Hpg in Rsch.
  destruct (parse_string _ _ Hrole Hpl') as (role2 & Hrole2 & Hsch2 & Hpath2 & Hhost2 & Hhas2 & Hpl2).
  assert (Hsall : unset source (host_overrides ++ database_overrides)).
  { intros k [Hk|Hk]%elem_of_app; [apply Hun; by right|]. unfold database_overrides in Hk. rewrite !elem_of_cons in Hk.
    destruct Hk as [->|[->|[]%elem_of_nil]]; [exact Hdb|apply Hun; by left]. }
  assert (Hrall : unset role2 (host_overrides ++ database_overrides)).
  { intros k Hk. rewrite Hhas2. unfold host_overrides, database_overrides in Hk. cbn [app] in Hk. rewrite !elem_of_cons in Hk.
    destruct Hk as [->|[->|[->|[->|[->|[->|[]%elem_of_nil]]]]]]; try done; apply Hun'; set_solver. }
  split_and!; [done|done|by intros E| | |].
  - by rewrite (place_replaced _ _ "postgres" _ Hsrc Hsch Hne1 Hone Hpl eq_refl Hsall Ea).
  - exact (place_replaced _ _ _ _ Hsrc Hsch Hne1 Hone Hpl (scratch_plain _ Hs) Hsall Et).
  - rewrite <- Hhost, <- Hhost2. rewrite <- Hpath, <- Hpath2 in Hne1, Hone. rewrite <- Hsch2 in Rsch. exact (place_replaced _ _ _ _ Hrole2 Rsch Hne1 Hone Hpl2 (scratch_plain _ Hs) Hrall Em).
Qed.

(** [d] is of the journal's instance and stands at its [n]-th decision. *)
Record at_decision (j : Journal_) (d : LifecycleDb C) (n : nat) : Prop := {
  ad_bound : (n <= length (Records j))%nat; ad_instance : uuid_string (l_instance d) = InstanceID (Head j);
  ad_sequence : l_sequence d = Z.of_nat n; ad_head : l_head d = hash_at (Records j) n }.

Lemma replayed_at j (d : LifecycleDb C) n d' : chained (Head j) (Records j) -> at_decision j d n -> foldM ApplyRecord (drop n (Records j)) d = Ok d' ->
  at_decision j d' (length (Records j)).
Proof.
  intros Hc Hd. remember (length (Records j) - n)%nat as k eqn:Hk. revert d n Hk Hd. induction k as [|k IH]; intros d n Hk Hd Hf.
  - pose proof (ad_bound _ _ _ Hd). rewrite drop_ge in Hf by lia. injection Hf as <-. by replace (length (Records j)) with n by lia.
  - assert (Hlt : (n < length (Records j))%nat) by lia. apply lookup_lt_is_Some in Hlt as [r Hr]. rewrite (drop_S _ _ _ Hr) in Hf. cbn [foldM] in Hf.
    destruct (ApplyRecord d r) as [d1|] eqn:E; [|done]. apply (IH d1 (S n)); [lia| |exact Hf]. unfold ApplyRecord in E.
    destruct (sierx_lifecycle_apply d r) as [d2|] eqn:Ea; [|done]. injection E as ->. destruct Hd as [H1 H2 H3 H4].
    apply apply_inv in Ea as (Ei & Es & _ & Es' & Eh & _). split; [by apply lookup_lt_Some in Hr|congruence|rewrite Es', Es, H3; lia|].
    rewrite Eh. cbn [hash_at]. by rewrite Hr.
Qed.

Lemma replay_only oc j s (c : cluster (C := C)) r c' : chained (Head j) (Records j) -> replay_restored oc j s c = (r, c') ->
  only_at s c c' /\ (r = Ok tt -> exists d, c' !! s = Some (Some d) /\ Matches j (DatabaseHead d) = true).
Proof.
  intros Hc. unfold replay_restored. destruct (oc_connected oc); [|by intros [= <- <-]]. destruct (c !! s) as [[d|]|]; [|by intros [= <- <-]..].
  destruct (Prefix j (DatabaseHead d)) as [[]|] eqn:Ep; [|by intros [= <- <-]..]. destruct (foldM _ _ _) as [d'|] eqn:Ef; [|by intros [= <- <-]].
  assert (Hm : Matches j (DatabaseHead d') = true).
  { rewrite Prefix_chained in Ep by done. apply Some_inj, bool_decide_eq_true in Ep. cbn in Ep. destruct Ep as (Hi & [Hs0 Hs1] & Hh).
    pose proof (ch_length _ _ Hc) as Hl. assert (Hat : at_decision j d (Z.to_nat (l_sequence d))) by (split; [lia|done|lia|done]).
    assert (Hd : Z.of_nat (Z.to_nat (l_sequence d)) = l_sequence d) by lia. rewrite <- Hd, (pending_drop _ _ _ Hc) in Ef.
    destruct (replayed_at _ _ _ _ Hc Hat Ef) as [_ A2 A3 A4]. unfold Matches. cbn. rewrite A2, A3, A4, Hl, (ch_hash _ _ Hc), Z.eqb_refl, !String.eqb_refl. done. }
  destruct (oc_commit oc); intros [= <- <-]; split; try done; try apply only_at_insert. intros _. exists d'. split; [apply (lookup_insert_eq (M := gmap (string * string)) c)|done].
Qed.

(** From the statements to the replay, with the three strings where they belong. *)
Lemma restore_and_replay_only oc j st (c : cluster (C := C)) rr c' v :
  chained (Head j) (Records j) -> scratch_ok (st_scratch st) = true -> (place_of (st_admin st)).1 = v ->
  place_of (st_target st) = (v, st_scratch st) -> place_of (st_maintenance st) = (v, st_scratch st) ->
  restore_and_replay oc j st c = (rr, c') ->
  only_at (v, st_scratch st) c c' /\ (rr = Ok tt -> exists d, c' !! (v, st_scratch st) = Some (Some d) /\ Matches j (DatabaseHead d) = true).
Proof.
  intros Hc Hs Ha Ht Hm. unfold restore_and_replay. pose proof (drop_only (oc_drop oc) (st_admin st) v (st_scratch st) c Hs Ha) as [Hd Hn].
  destruct (psqlExec (oc_drop oc) _ _ _) as [[] c1]; cbn in Hd, Hn; [|by intros [= <- <-]]. specialize (Hn eq_refl).
  pose proof (create_only (oc_create oc) (st_admin st) v (st_scratch st) c1 Hs Ha Hn) as Hcr. destruct (psqlExec (oc_create oc) _ _ _) as [[] c2]; cbn in Hcr; cycle 1.
  { intros [= <- <-]. split; [by etransitivity|done]. }
  assert (Hr : only_at (v, st_scratch st) c2 (restore_to oc (st_target st) c2)).
  { unfold restore_to. rewrite Ht. case_bool_decide; [apply only_at_insert|done]. }
  assert (Hw : only_at (v, st_scratch st) c (restore_to oc (st_target st) c2)) by (etransitivity; [exact Hd|]; by etransitivity).
  destruct (negb (oc_driver oc)); [intros [= <- <-]; by split|]. rewrite Hm. intros Err.
  destruct (replay_only _ _ _ _ _ _ Hc Err) as [Ho Hok]. split; [by etransitivity|done].
Qed.

(** C22. A restore test cannot harm: whatever the environment names (a database other
    than the source, no override of the database by [dbname], a role on another server
    or database, are the command's own checks; see [plain_urls] for what it does not
    check), and whatever the driver, the statements, the connection and the COMMIT do,
    every database of every server but the scratch one on the source's server is exactly
    what it was, the scratch one has a reserved name other than the source's, and the
    journal is not written; and a test that succeeds has brought the restored database
    to the last decision of the authenticated journal. *)
Theorem restore_test_safe args getenv oc w r w' source role :
  plain_urls getenv source role -> runRestoreTest args getenv oc w = (r, w') ->
  let scratch := default_scratch (getenv "SIERX_RESTORE_SCRATCH_DB") in
  (forall n, n <> (u_Host source, scratch) -> lb_cluster w' !! n = lb_cluster w !! n) /\
  (lb_cluster w' = lb_cluster w \/ scratch_ok scratch = true /\ scratch <> trim_path (u_Path source)) /\
  lb_files w' = lb_files w /\
  (r = Ok tt -> exists p j d, EnvironmentPaths getenv = Ok p /\ Load (lb_files w) (p_Journal p) (p_Key p) (p_Checkpoint p) = Ok j /\
     lb_cluster w' !! (u_Host source, scratch) = Some (Some d) /\ Matches j (DatabaseHead d) = true).
Proof.
  intros Hu Hrun. cbv zeta. unfold runRestoreTest in Hrun.
  destruct (restore_setting args getenv _) as [st|] eqn:Est; [|injection Hrun as <- <-; by split_and!; [|left| |]].
  destruct (EnvironmentPaths getenv) as [p|] eqn:Ep; [|injection Hrun as <- <-; by split_and!; [|left| |]]. destruct (negb (oc_lock oc)); [injection Hrun as <- <-; by split_and!; [|left| |]|].
  destruct (Load _ _ _ _) as [j|] eqn:Ej; [|injection Hrun as <- <-; by split_and!; [|left| |]].
  destruct (restore_setting_inv _ _ _ _ _ _ Est Hu) as (Hscratch & Hs & Hne & Ha & Ht & Hm).
  pose proof (load_chained _ _ _ _ _ _ Ej) as Hc. destruct (restore_and_replay oc j st (lb_cluster w)) as [rr c'] eqn:Err.
  destruct (restore_and_replay_only oc j st (lb_cluster w) rr c' (u_Host source) Hc Hs Ha Ht Hm Err) as [Honly Hok].
  rewrite <- Hscratch. destruct rr as [[]|e]; injection Hrun as <- <-; cbn; (split_and!; [exact Honly|by right|done|]); try done.
  intros _. destruct (Hok eq_refl) as (d & Hd & Hmat). by exists p, j, d.
Qed.

(** * The rotation *)

Lemma setting_driver args getenv n st : restore_setting args getenv n = Ok st ->
  let drivers := driver_names (getenv "SIERX_BACKUP_DRIVERS") in drivers !! Z.to_nat (n mod Z.of_nat (length drivers)) = Some (st_driver st).
Proof.
  unfold restore_setting. cbv zeta. destruct args; [|done]. destruct (String.eqb _ ""); [done|]. destruct (driver_names _ !! _) as [driver|]; [|done].
  intros Hst. inv_ok Hst. by subst.
Qed.

Definition restore_run args getenv (w : lab) (oc : occasion (C := C)) : lab := (runRestoreTest args getenv oc w).2.
(** Every run succeeds and writes its counter. *)
Fixpoint all_succeed args getenv (ocs : list (occasion (C := C))) (w : lab) : Prop :=
  match ocs with
  | [] => True
  | oc :: ocs => (runRestoreTest args getenv oc w).1 = Ok tt /\ oc_torn oc = None /\ all_succeed args getenv ocs (restore_run args getenv w oc)
  end.

Lemma run_counts args getenv oc (w : lab) : (runRestoreTest args getenv oc w).1 = Ok tt -> oc_torn oc = None ->
  lb_rotation (restore_run args getenv w oc) = Some (rotation_text (wrap64 (readRotation (lb_rotation w) + 1))) /\
  exists st, restore_setting args getenv (readRotation (lb_rotation w)) = Ok st.
Proof.
  unfold restore_run, runRestoreTest. destruct (restore_setting _ _ _) as [st|]; [|done]. destruct (EnvironmentPaths _) as [p|]; [|done].
  destruct (negb _); [done|]. destruct (Load _ _ _ _) as [j|]; [|done]. destruct (restore_and_replay _ _ _ _) as [[[]|e] c]; [|done]. cbn.
  intros _ Ht. unfold writeRotation. rewrite Ht. split; [done|by exists st].
Qed.

Lemma nth_run args getenv ocs (w : lab) k : all_succeed args getenv ocs w -> 0 <= readRotation (lb_rotation w) ->
  readRotation (lb_rotation w) + Z.of_nat (length ocs) < 2 ^ 63 -> (k < length ocs)%nat ->
  exists st, restore_setting args getenv (readRotation (lb_rotation w) + Z.of_nat k) = Ok st /\
    readRotation (lb_rotation (fold_left (restore_run args getenv) (take k ocs) w)) = readRotation (lb_rotation w) + Z.of_nat k.
Proof.
  revert w k. induction ocs as [|oc ocs IH]; intros w k Hall H0n Hmax Hk; [cbn in Hk; lia|]. destruct Hall as (Hr & Ht & Hall).
  destruct (run_counts _ _ _ _ Hr Ht) as [Hc [st Hst]]. destruct k as [|k]; [exists st; cbn; by rewrite Z.add_0_r|].
  cbn [length] in *. assert (Hnext : readRotation (lb_rotation (restore_run args getenv w oc)) = readRotation (lb_rotation w) + 1).
  { rewrite Hc, wrap64_id, rotation_roundtrip by lia. done. }
  destruct (IH (restore_run args getenv w oc) k Hall) as (st' & Hst' & Hrot); [lia..|]. exists st'. cbn [take fold_left]. rewrite Hrot, Hnext in *.
  split; [|lia]. rewrite <- Hst'. f_equal. lia.
Qed.

Lemma rotation_nonneg f : 0 <= readRotation f.
Proof. unfold readRotation. destruct f as [s|]; [|lia]. destruct (65536 <=? _); [lia|]. destruct (parse_int64 _) as [n|]; [|lia]. destruct (Z.leb_spec 0 n); lia. Qed.

(** The rotation comes to every driver: in as many successful runs in a row as there
    are drivers configured, each of them is restored from. *)
Theorem drivers_rotate args getenv ocs (w : lab) driver :
  all_succeed args getenv ocs w -> readRotation (lb_rotation w) + Z.of_nat (length ocs) < 2 ^ 63 ->
  length ocs = length (driver_names (getenv "SIERX_BACKUP_DRIVERS")) -> driver ∈ driver_names (getenv "SIERX_BACKUP_DRIVERS") ->
  exists k st, (k < length ocs)%nat /\
    restore_setting args getenv (readRotation (lb_rotation (fold_left (restore_run args getenv) (take k ocs) w))) = Ok st /\ st_driver st = driver.
Proof.
  intros Hall Hmax Hlen Hd. apply list_elem_of_lookup_1 in Hd as [i Hi]. pose proof (lookup_lt_Some _ _ _ Hi) as Hlt. rewrite <- Hlen in Hlt.
  set (n := readRotation (lb_rotation w)) in *. pose proof (rotation_nonneg (lb_rotation w)) as Hn. fold n in Hn.
  set (len := Z.of_nat (length ocs)) in *. set (k := Z.to_nat ((Z.of_nat i - n) mod len)).
  pose proof (Z.mod_pos_bound (Z.of_nat i - n) len ltac:(lia)) as Hk. destruct (nth_run args getenv ocs w k Hall Hn Hmax) as (st & Hst & Hrot); [lia|].
  fold n in Hst, Hrot. exists k, st. split; [lia|]. rewrite Hrot. split; [done|]. pose proof (setting_driver _ _ _ _ Hst) as Hdr. cbv zeta in Hdr.
  rewrite <- Hlen in Hdr. fold len in Hdr. replace (Z.to_nat ((n + Z.of_nat k) mod len)) with i in Hdr; [congruence|].
  unfold k. rewrite Z2Nat.id by lia. rewrite Zplus_mod_idemp_r. replace (n + (Z.of_nat i - n)) with (Z.of_nat i) by lia.
  rewrite Z.mod_small by lia. lia.
Qed.

End restore.

End ToolsProps.

(** A small cluster for the restore test: connection strings without parameters, a
    journal with one decision, and a backup taken before it. *)
From S2P Require Import JournalDemo OperatorDemo.
Open Scope Z_scope.

Module ToolsDemo.
Import Journal JournalDemo Problem Operator OperatorDemo Tools ToolsProps.
#[local] Existing Instance wide.
#[local] Existing Instance demo_content.

(** * Connection strings without escapes *)

Fixpoint until (c : ascii) (l : list ascii) : list ascii := match l with [] => [] | a :: l => if Ascii.eqb a c then [] else a :: until c l end.
Fixpoint from (c : ascii) (l : list ascii) : list ascii := match l with [] => [] | a :: r => if Ascii.eqb a c then l else from c r end.

(** [postgres://authority/path?query], the query without its parameters' escapes *)
Definition demo_scheme : string := "postgres://".
Definition demo_read (s : string) : option (list ascii * list ascii * list ascii) :=
  if Prelude.has_prefix s demo_scheme then
    let '(base, query) := before_query (chars (str_drop 11 s)) in Some (until slash base, from slash base, query)
  else None.
Fixpoint pieces (l cur : list ascii) : list (list ascii) :=
  match l with [] => [cur] | c :: l => if Ascii.eqb c "&" then cur :: pieces l [] else pieces l (cur ++ [c]) end.
Definition query_param (query : list ascii) (k : string) : option string :=
  head (omap (fun p => if String.eqb (of_chars (until "=" p)) k then Some (of_chars (drop 1 (from "=" p))) else None) (pieces (drop 1 query) [])).
Definition demo_host (auth : list ascii) : string := of_chars (match from "@" auth with [] => auth | _ :: h => h end).
Definition demo_parse (s : string) : option url :=
  match demo_read s with
  | Some (auth, path, query) =>
      Some (mkUrl "postgres" (match from "@" auth with [] => None | _ => Some (of_chars (until "@" auth)) end) (demo_host auth) (of_chars path)
              (fun k => bool_decide (is_Some (query_param query k))) s)
  | None => None
  end.
Definition override (query : list ascii) (ks : list string) (x : string) : string := default x (head (omap (query_param query) ks)).
Definition demo_place (s : string) : string * string :=
  match demo_read s with
  | Some (auth, path, query) => (override query host_overrides (demo_host auth), override query database_overrides (trim_path (of_chars path)))
  | None => ("", "")
  end.

Lemma until_from c l : until c l ++ from c l = l.
Proof. induction l as [|a l IH]; [done|]. cbn [until from]. destruct (Ascii.eqb a c); [done|]. cbn. by rewrite IH. Qed.
Lemma until_without c l : Forall (fun a => a <> c) (until c l).
Proof. induction l as [|a l IH]; [done|]. cbn [until]. destruct (Ascii.eqb_spec a c); [done|]. by constructor. Qed.
Lemma from_head c l : from c l = [] \/ exists r, from c l = c :: r.
Proof. induction l as [|a l IH]; [by left|]. cbn [from]. destruct (Ascii.eqb_spec a c) as [->|]; [right; by eexists|done]. Qed.
Lemma until_app c a l : Forall (fun x => x <> c) a -> until c (a ++ c :: l) = a /\ from c (a ++ c :: l) = c :: l.
Proof.
  induction 1 as [|x a Hx _ [IH1 IH2]]; cbn [app until from]; [by rewrite Ascii.eqb_refl|]. destruct (Ascii.eqb_spec x c); [done|]. by rewrite IH1, IH2.
Qed.

Lemma before_query_split l a b : before_query l = (a, b) -> l = a ++ b /\ Forall (fun c => c <> "?"%char) a /\ (b = [] \/ exists r, b = "?"%char :: r).
Proof.
  revert a b. induction l as [|c l IH]; intros a b H; cbn [before_query] in H; [injection H as <- <-; split_and!; [done|done|by left]|].
  destruct (Ascii.eqb_spec c "?"%char) as [->|Hne]; [injection H as <- <-; split_and!; [done|done|right; by eexists]|].
  destruct (before_query l) as [a' b']. injection H as <- <-. destruct (IH _ _ eq_refl) as (-> & ? & ?). split_and!; [done|by constructor|done].
Qed.
Lemma before_query_app a b : Forall (fun c => c <> "?"%char) a -> (b = [] \/ exists r, b = "?"%char :: r) -> before_query (a ++ b) = (a, b).
Proof.
  intros Ha Hb. induction Ha as [|c a Hc _ IH]; cbn [app]; [destruct Hb as [->|[r ->]]; done|]. cbn [before_query].
  destruct (Ascii.eqb_spec c "?"%char); [done|]. by rewrite IH.
Qed.
Lemma upto_slash_none r : Forall (fun c => c <> slash) r -> upto_slash r = None.
Proof. induction 1 as [|c r Hc _ IH]; [done|]. cbn [upto_slash]. rewrite IH. by destruct (Ascii.eqb_spec c slash). Qed.
Lemma upto_slash_snoc q r : Forall (fun c => c <> slash) r -> upto_slash (q ++ slash :: r) = Some (q ++ [slash]).
Proof.
  intros Hr. induction q as [|c q IH]; cbn [app upto_slash]; [rewrite upto_slash_none by done; by rewrite Ascii.eqb_refl|]. by rewrite IH.
Qed.
Lemma plain_chars db : plain_name db = true -> Forall (fun c => c <> "?"%char) (chars db) /\ Forall (fun c => c <> slash) (chars db).
Proof.
  unfold plain_name. rewrite forallb_forall. intros Hp. split; apply Forall_forall; intros c Hin%list_elem_of_In Hc; specialize (Hp c Hin); subst c; discriminate Hp.
Qed.
Lemma without_byte c s : contains_byte c s = false -> Forall (fun a => a <> c) (chars s).
Proof.
  unfold contains_byte. intros Hs. apply Forall_forall. intros a Ha ->. apply not_true_iff_false in Hs. apply Hs. apply existsb_exists.
  exists c. split; [by apply list_elem_of_In|apply Ascii.eqb_refl].
Qed.
Lemma override_unset query ks x : (forall k, k ∈ ks -> bool_decide (is_Some (query_param query k)) = false) -> override query ks x = x.
Proof.
  intros Hks. unfold override. replace (omap (query_param query) ks) with (@nil string); [done|]. induction ks as [|k ks IH]; [done|]. cbn.
  pose proof (Hks k ltac:(by constructor)) as Hk. apply bool_decide_eq_false in Hk. apply eq_None_not_Some in Hk. rewrite Hk.
  apply IH. intros k' Hk'. apply Hks. by constructor.
Qed.

(** Where the path lies in the string, and what becomes of it. *)
Lemma demo_replaced s auth path query db t : demo_read s = Some (auth, path, query) -> trim_path (of_chars path) <> "" ->
  one_segment (of_chars path) = true -> plain_name db = true -> replaceDatabase s db = Ok t -> demo_read t = Some (auth, slash :: chars db, query).
Proof.
  unfold demo_read. intros Hr Hne Hone [Hdq Hds]%plain_chars Ht. destruct (Prelude.has_prefix s demo_scheme) eqn:Ep; [|done].
  apply has_prefix_spec in Ep as [rest ->]. change 11%nat with (String.length demo_scheme) in *. rewrite str_drop_app in Hr.
  destruct (before_query (chars rest)) as [base q] eqn:Eb. injection Hr as <- <- <-. apply before_query_split in Eb as (Erest & Hbq & Hq).
  set (auth := until slash base) in *. assert (Hauth : Forall (fun c => c <> slash) auth) by apply until_without.
  pose proof (until_from slash base) as Hbase. fold auth in Hbase. destruct (from_head slash base) as [E|[seg E]]; rewrite E in *; [done|].
  cbn [of_chars trim_path] in Hne. unfold one_segment in Hone. cbn [of_chars trim_path] in Hone. rewrite Ascii.eqb_refl, negb_true_iff in Hone.
  apply without_byte in Hone. rewrite chars_of_chars in Hone. rewrite <- Hbase in Hbq. apply Forall_app in Hbq as [Haq Hsq].
  unfold replaceDatabase in Ht. rewrite chars_app, Erest, app_assoc, before_query_app in Ht; [|rewrite <- Hbase; apply Forall_app; split;
    [by repeat constructor|by apply Forall_app]|done].
  rewrite <- Hbase, app_assoc, upto_slash_snoc in Ht by done. apply Ok_inj in Ht. subst t.
  replace (of_chars _) with (demo_scheme +:+ of_chars ((auth ++ slash :: chars db) ++ q)).
  2:{ rewrite <- (of_chars_chars demo_scheme) at 1. rewrite <- of_chars_app. f_equal. by rewrite <- !app_assoc. }
  assert (Prelude.has_prefix (demo_scheme +:+ of_chars ((auth ++ slash :: chars db) ++ q)) demo_scheme = true) as -> by (apply has_prefix_spec; by eexists).
  rewrite str_drop_app, chars_of_chars, before_query_app; [|apply Forall_app; split; [done|by constructor]|done].
  destruct (until_app slash auth (chars db) Hauth) as [-> ->]. done.
Qed.

#[local] Instance demo_dsn : Dsn.
Proof.
  refine {| dsn_parse := demo_parse; place_of := demo_place |}.
  - unfold demo_parse, demo_place. intros s u db t Hu _ Hne Hone _ Hdb Hun Ht. destruct (demo_read s) as [[[auth path] query]|] eqn:Er; [|done].
    injection Hu as <-. cbn [u_Scheme u_Host u_Path u_Has] in *. rewrite (demo_replaced _ _ _ _ _ _ Er Hne Hone Hdb Ht). f_equal.
    + apply override_unset. intros k Hk. apply Hun, elem_of_app. by left.
    + rewrite override_unset by (intros k Hk; apply Hun, elem_of_app; by right). cbn [of_chars trim_path]. rewrite Ascii.eqb_refl. apply of_chars_chars.
  - intros s u Hu Hpl. exists u. unfold demo_parse in *. destruct (demo_read s) as [[[auth path] query]|] eqn:E; [|done]. injection Hu as <-. cbn [u_String].
    rewrite E. done.
Defined.

(** * A run *)

Definition restore_env_of (k : string) : string :=
  if String.eqb k "DATABASE_URL" then "postgres://app@db/sierx"
  else if String.eqb k "SIERX_MAINTENANCE_DATABASE_URL" then "postgres://sierx_maintenance@db/sierx"
  else if String.eqb k "SIERX_BACKUP_DRIVERS" then "local, remote" else OperatorDemo.env k.

Definition good : occasion (C := list string) := mkOccasion true Committed Committed true (Some d0) true Committed None.
Definition lab0 : lab (C := list string) := mkLab {[("db", "sierx") := Some (w_db r2.2)]} (Some (rotation_text 7)) (w_fs r2.2).
Definition tested := runRestoreTest [] restore_env_of good lab0.

(** The backup lacked the hold; the eighth run restores from the second driver. *)
Example tested_ex :
  tested.1 = Ok tt /\ lb_rotation tested.2 = Some (rotation_text 8) /\
  option_map (option_map (fun d => (l_sequence d, l_content d))) (lb_cluster tested.2 !! ("db", "sierx_restore_test")) = Some (Some (1, ["hold-create"])) /\
  match restore_setting [] restore_env_of 7 with Ok st => st_driver st | Err _ => "" end = "remote".
Proof. vm_compute. split_and!; reflexivity. Qed.

Definition no_url : url := mkUrl "" None "" "" (fun _ => false) "".
Definition demo_source : url := default no_url (demo_parse (restore_env_of "DATABASE_URL")).
Definition demo_role : url := default no_url (demo_parse (restore_env_of "SIERX_MAINTENANCE_DATABASE_URL")).
Lemma demo_plain : plain_urls restore_env_of demo_source demo_role.
Proof. split; try reflexivity; intros k Hk; repeat (apply elem_of_cons in Hk as [->|Hk]; [reflexivity|]); by apply elem_of_nil in Hk. Qed.

(** What [plain_urls] excludes happens otherwise: with [database=] in the maintenance
    string, which the command does not look for, the run passes its checks, replays the
    journal in the source database, and reports success. *)
Definition escaping_env (k : string) : string :=
  if String.eqb k "SIERX_MAINTENANCE_DATABASE_URL" then "postgres://sierx_maintenance@db/sierx?database=sierx" else restore_env_of k.
Definition behind : lab (C := list string) := mkLab {[("db", "sierx") := Some d0]} None (w_fs r2.2).
Example escaping_ex :
  let run := runRestoreTest [] escaping_env (mkOccasion true Committed Committed true (Some d0) true Committed None) behind in
  run.1 = Ok tt /\ option_map (option_map l_sequence) (lb_cluster behind !! ("db", "sierx")) = Some (Some 0) /\
  option_map (option_map l_sequence) (lb_cluster run.2 !! ("db", "sierx")) = Some (Some 1) /\
  option_map (option_map l_sequence) (lb_cluster run.2 !! ("db", "sierx_restore_test")) = Some (Some 0).
Proof. vm_compute. split_and!; reflexivity. Qed.

Lemma restore_test_safe_witness :
  tested.1 = Ok tt /\ lb_cluster tested.2 !! ("db", "sierx") = lb_cluster lab0 !! ("db", "sierx") /\
  exists d, lb_cluster tested.2 !! ("db", "sierx_restore_test") = Some (Some d) /\ Matches j2 (DatabaseHead d) = true.
Proof.
  assert (Hrun : runRestoreTest [] restore_env_of good lab0 = (Ok tt, tested.2)).
  { change (tested = (Ok tt, tested.2)). assert (E : tested.1 = Ok tt) by (vm_compute; reflexivity). rewrite <- E. by destruct tested. }
  destruct (restore_test_safe [] restore_env_of good lab0 (Ok tt) tested.2 demo_source demo_role demo_plain Hrun) as (Honly & _ & _ & Hok).
  split; [by vm_compute|]. split.
  - apply Honly. discriminate.
  - destruct (Hok eq_refl) as (q & j & d & Hq & Hj & Hd & Hm). exists d. split; [exact Hd|].
    assert (q = p) as -> by (apply (f_equal (fun r => match r with Ok x => x | Err _ => p end)) in Hq; exact (eq_sym Hq)).
    change (Load (w_fs r2.2) "j" "k" "d/c" = Ok j) in Hj. rewrite j2_loads in Hj. by rewrite (Ok_inj _ _ Hj).
Defined.

End ToolsDemo.
