(* ===== verification/Exports.v ===== *)
(** The operator's data exports ([cmd/sierxctl/exports.go]): the request, the
    functions of the database that assemble an export and hand it out
    ([migrations/0014_lifecycle_controls.sql], which replaces those of 0013), and the
    file a download creates. The tables are those the functions read, with the columns
    they read, identifiers as their lower-case text, times as numbers. *)
From S2P Require Import Prelude Utf8 Ltree Float Json Journal Paging Operator Accounts.
Open Scope Z_scope.

Module Exports.
Import Ltree Journal Operator.

(** * Tables *)

Record account_row := mkAccount {
  ea_email : string; ea_name : string; ea_hash : option string; ea_totp : option string; ea_theme : string; ea_motion : option bool;
  ea_active : bool; ea_created : Z }.
Record workspace_row := mkWorkspace { ew_slug : string; ew_name : string }.
Record project_row := mkProject {
  ep_workspace : string; ep_prefix : string; ep_name : string; ep_kind : string; ep_owner : option string; ep_version : Z }.
(** [ei_done] is whether the status is of the category [done]; points in hundredths. *)
Record item_row := mkItem {
  ei_workspace : string; ei_path : string; ei_key : string; ei_project : string; ei_parent : option string;
  ei_title : string; ei_body : option string; ei_fields : json; ei_version : Z; ei_deleted : option Z;
  ei_assignee : option string; ei_points : option Z; ei_start : option Z; ei_due : option Z; ei_done : bool }.
Record comment_row := mkComment {
  ec_item : string; ec_author : string; ec_body : string; ec_created : Z; ec_edited : option Z; ec_deleted : option Z }.
Record view_row := mkView {
  ev_workspace : string; ev_owner : option string; ev_name : string; ev_query : string; ev_layout : string; ev_shared : bool }.
(** [operator_content_restriction] *)
Record restriction := mkRestriction {
  er_kind : string; er_target : string; er_workspace : option string; er_root : option string; er_permanent : bool; er_case : string; er_ref : string }.

(** [membership] is keyed by workspace and account; of the holds, when they were
    released. *)
Record tables := mkTables {
  t_accounts : gmap string account_row; t_workspaces : gmap string workspace_row; t_members : gmap (string * string) string;
  t_projects : gmap string project_row; t_items : gmap string item_row; t_comments : gmap string comment_row;
  t_views : gmap string view_row; t_restrictions : list restriction; t_holds : list (option string) }.

(** [operator_data_export] and [operator_data_export_event] *)
Record export_row := mkExport {
  ex_user : string; ex_workspace : option string; ex_case : string; ex_created : Z; ex_expires : Z;
  ex_payload : option json; ex_revoked : option Z }.
Inductive event_kind := Created | Downloaded | Expired.
#[export] Instance event_kind_eq_dec : EqDecision event_kind.
Proof. solve_decision. Defined.
Record event_row := mkEventRow { ev_export : string; ev_case : string; ev_kind : event_kind; ev_at : Z }.

Record export_db := mkExportDb { d_tables : tables; d_exports : gmap string export_row; d_events : list event_row }.
Definition set_exports x d := mkExportDb (d_tables d) x (d_events d).
Definition log_event e d := mkExportDb (d_tables d) (d_exports d) (d_events d ++ e).

(** * What a restriction hides *)

Definition some_eq (a : option string) (b : string) : bool := match a with Some a => String.eqb a b | None => false end.

(** [sierx_lifecycle_visible] *)
Definition visible (t : tables) (kind id ws : string) (path : option string) : bool :=
  negb (existsb (fun r => String.eqb (er_kind r) kind &&
    (String.eqb (er_target r) id ||
     (String.eqb kind "item" && some_eq (er_workspace r) ws &&
      match path, er_root r with Some p, Some q => contained p q | _, _ => false end)))
    (t_restrictions t)).
(** [sierx_lifecycle_has_hold] *)
Definition has_hold (t : tables) : bool := existsb (fun h : option string => match h with None => true | Some _ => false end) (t_holds t).

Definition item_visible (t : tables) (id : string) (i : item_row) : bool := visible t "item" id (ei_workspace i) (Some (ei_path i)).
(** The join of a comment with its item, and both of them visible. *)
Definition comment_visible (t : tables) (id : string) (c : comment_row) : bool :=
  match t_items t !! ec_item c with
  | Some i => item_visible t (ec_item c) i && visible t "comment" id (ei_workspace i) None
  | None => false
  end.
Definition view_visible (t : tables) (id : string) (v : view_row) : bool := visible t "view" id (ev_workspace v) None.

(** * JSON *)

(** PostgreSQL's text of a timestamp in JSON and of a [jsonb]. *)
Class PgText := { ts_text : Z -> string; jsonb_text : json -> string }.

Definition row_limit : nat := 512.
Definition text_limit : nat := 4096.
Definition payload_limit : Z := 20971520.
Definition hour : Z := 3600000000.

(** [left(s, n)] counts characters. *)
Fixpoint take_runes (n : nat) (l : list ascii) : list ascii :=
  match n, l with
  | S n, _ :: _ => take (Nat.max 1 (rune_len l)) l ++ take_runes n (drop (Nat.max 1 (rune_len l)) l)
  | _, _ => []
  end.
Definition left_chars (n : nat) (s : string) : string := of_chars (take_runes n (chars s)).
Definition longer (n : nat) (s : string) : bool := (n <? rune_count s)%nat.
Definition opt_json {A} (f : A -> json) (o : option A) : json := match o with Some a => f a | None => JNull end.
Definition many (n : nat) : bool := (row_limit <? n)%nat.

(** [ORDER BY ... LIMIT 512] of keyed rows *)
Definition by_text {A} (l : list (string * A)) : list (string * A) := Paging.sorted fst str_lt l.
Definition first_rows {A} (l : list (string * A)) : list (string * A) := take row_limit (by_text l).

Section exports.
Context {PT : PgText}.

Definition ts (t : Z) : json := JStr (ts_text t).

(** * The export of an account *)

(** [FROM comment WHERE author_id = u] and [FROM saved_view WHERE owner_id = u] *)
Definition authored (t : tables) (u : string) : gmap string comment_row := filter (fun kv => ec_author kv.2 = u) (t_comments t).
Definition owned (t : tables) (u : string) : gmap string view_row := filter (fun kv => ev_owner kv.2 = Some u) (t_views t).
Definition memberships (t : tables) (u : string) : gmap (string * string) string := filter (fun kv => kv.1.2 = u) (t_members t).
(** The join of memberships and workspaces, each with its slug. *)
Definition joined (t : tables) (u : string) : list (string * json) :=
  omap (fun m : (string * string) * string =>
    (fun w => (ew_slug w, JObj [("workspace_id", JStr m.1.1); ("workspace_slug", JStr (ew_slug w)); ("workspace_name", JStr (ew_name w)); ("role", JStr m.2)]))
      <$> t_workspaces t !! m.1.1) (map_to_list (memberships t u)).

Definition earlier (a b : Z * string) : bool := (a.1 <? b.1) || ((a.1 =? b.1) && str_lt a.2 b.2).
Definition oldest_comments (l : list (string * comment_row)) : list (string * comment_row) :=
  take row_limit (Paging.sorted (fun c : string * comment_row => (ec_created c.2, c.1)) earlier l).

Definition own_comment (c : string * comment_row) : json :=
  let live := match ec_deleted c.2 with None => true | Some _ => false end in
  JObj [("id", JStr c.1); ("item_id", JStr (ec_item c.2));
        ("body", if live then JStr (left_chars text_limit (ec_body c.2)) else JNull);
        ("body_truncated", JBool (live && longer text_limit (ec_body c.2)));
        ("created_at", ts (ec_created c.2)); ("edited_at", opt_json ts (ec_edited c.2)); ("deleted_at", opt_json ts (ec_deleted c.2))].
Definition own_view (v : string * view_row) : json :=
  JObj [("id", JStr v.1); ("workspace_id", JStr (ev_workspace v.2)); ("name", JStr (ev_name v.2));
        ("query", JStr (left_chars text_limit (ev_query v.2))); ("query_truncated", JBool (longer text_limit (ev_query v.2)));
        ("layout", JStr (ev_layout v.2)); ("shared", JBool (ev_shared v.2))].

Definition exported_comments (t : tables) (u : string) : list (string * comment_row) :=
  oldest_comments (map_to_list (filter (fun kv => comment_visible t kv.1 kv.2 = true) (authored t u))).
Definition exported_views (t : tables) (u : string) : list (string * view_row) :=
  first_rows (map_to_list (filter (fun kv => view_visible t kv.1 kv.2 = true) (owned t u))).

Definition strings (l : list string) : json := JArr (JStr <$> l).

Definition account_payload (t : tables) (u : string) (a : account_row) : json :=
  JObj [
    ("scope", JStr "sierx-account-export-v1-limited");
    ("completeness", JStr "This export is limited and is not a complete personal-data export.");
    ("included", strings ["account profile"; "workspace memberships"; "authored comments"; "owned saved views"]);
    ("excluded", strings ["password hashes"; "MFA secrets"; "session token hashes"; "item content without author attribution";
                          "change-event old/new values"; "unrelated workspace content"]);
    ("limits", JObj [("comments_max_rows", JInt 512); ("saved_views_max_rows", JInt 512); ("comment_body_max_characters", JInt 4096);
                     ("saved_view_query_max_characters", JInt 4096); ("maximum_payload_bytes", JInt payload_limit)]);
    ("account", JObj [("id", JStr u); ("email", JStr (ea_email a)); ("display_name", JStr (ea_name a)); ("theme", JStr (ea_theme a));
                      ("reduced_motion", opt_json JBool (ea_motion a)); ("is_active", JBool (ea_active a)); ("created_at", ts (ea_created a))]);
    ("memberships", JArr (snd <$> by_text (joined t u)));
    ("authored_comments_truncated", JBool (many (base.size (authored t u))));
    ("authored_comments", JArr (own_comment <$> exported_comments t u));
    ("owned_saved_views_truncated", JBool (many (base.size (owned t u))));
    ("owned_saved_views", JArr (own_view <$> exported_views t u))].

(** * The export of a workspace *)

Definition ws_projects (t : tables) (w : string) : gmap string project_row := filter (fun kv => ep_workspace kv.2 = w) (t_projects t).
Definition ws_items (t : tables) (w : string) : gmap string item_row :=
  filter (fun kv => ei_workspace kv.2 = w /\ item_visible t kv.1 kv.2 = true) (t_items t).
Definition ws_comments (t : tables) (w : string) : gmap string comment_row :=
  filter (fun kv => (ei_workspace <$> t_items t !! ec_item kv.2) = Some w /\ comment_visible t kv.1 kv.2 = true) (t_comments t).
Definition ws_views (t : tables) (w : string) : gmap string view_row :=
  filter (fun kv => ev_workspace kv.2 = w /\ view_visible t kv.1 kv.2 = true) (t_views t).

Definition project_json (p : string * project_row) : json :=
  JObj [("id", JStr p.1); ("key_prefix", JStr (ep_prefix p.2)); ("name", JStr (ep_name p.2)); ("kind", JStr (ep_kind p.2));
        ("owner_id", opt_json JStr (ep_owner p.2)); ("version", JInt (ep_version p.2))].
Definition item_json (i : string * item_row) : json :=
  JObj [("id", JStr i.1); ("key", JStr (ei_key i.2)); ("project_id", JStr (ei_project i.2)); ("parent_id", opt_json JStr (ei_parent i.2));
        ("title", JStr (left_chars text_limit (ei_title i.2))); ("body", opt_json (fun s => JStr (left_chars text_limit s)) (ei_body i.2));
        ("body_truncated", opt_json (fun s => JBool (longer text_limit s)) (ei_body i.2)); ("fields", ei_fields i.2); ("version", JInt (ei_version i.2));
        ("deleted_at", opt_json ts (ei_deleted i.2))].
Definition comment_json (c : string * comment_row) : json :=
  JObj [("id", JStr c.1); ("item_id", JStr (ec_item c.2)); ("author_id", JStr (ec_author c.2));
        ("body", match ec_deleted c.2 with None => JStr (left_chars text_limit (ec_body c.2)) | Some _ => JNull end);
        ("deleted_at", opt_json ts (ec_deleted c.2)); ("created_at", ts (ec_created c.2));
        ("body_truncated", JBool (longer text_limit (ec_body c.2)))].
Definition view_json (v : string * view_row) : json :=
  JObj [("id", JStr v.1); ("owner_id", opt_json JStr (ev_owner v.2)); ("name", JStr (left_chars text_limit (ev_name v.2)));
        ("query", JStr (left_chars text_limit (ev_query v.2))); ("query_truncated", JBool (longer text_limit (ev_query v.2)));
        ("shared", JBool (ev_shared v.2)); ("layout", JStr (ev_layout v.2))].

Definition rows_json {A} (f : string * A -> json) (m : gmap string A) : json := JArr (f <$> first_rows (map_to_list m)).

Definition workspace_payload (t : tables) (w : string) : json :=
  JObj [
    ("scope", JStr "sierx-workspace-export-v1-limited");
    ("completeness", JStr "Operator-reviewed shared workspace export; not a complete personal-data export.");
    ("workspace_id", JStr w);
    ("excluded", strings ["credentials"; "sessions"; "unrelated workspaces"; "restricted content"; "history payloads"]);
    ("limits", JObj [("rows_per_group", JInt 512); ("text_characters", JInt 4096); ("maximum_payload_bytes", JInt payload_limit)]);
    ("projects", rows_json project_json (ws_projects t w)); ("projects_truncated", JBool (many (base.size (ws_projects t w))));
    ("items", rows_json item_json (ws_items t w)); ("items_truncated", JBool (many (base.size (ws_items t w))));
    ("comments", rows_json comment_json (ws_comments t w)); ("comments_truncated", JBool (many (base.size (ws_comments t w))));
    ("saved_views", rows_json view_json (ws_views t w)); ("views_truncated", JBool (many (base.size (ws_views t w))))].

(** * The functions of the database *)

(** A function that returns [None] has raised an exception; its statement leaves no
    trace. *)
Definition payload_fits (p : json) : bool := Z.of_nat (String.length (jsonb_text p)) <=? payload_limit.

Definition lapsed (now : Z) (e : export_row) : bool := ex_expires e <=? now.
Definition erase (e : export_row) : export_row :=
  mkExport (ex_user e) (ex_workspace e) (ex_case e) (ex_created e) (ex_expires e) None (ex_revoked e).
Definition erase_if (f : export_row -> bool) (x : gmap string export_row) : gmap string export_row :=
  (fun e => if f e then erase e else e) <$> x.

Definition logged (k : event_kind) (id : string) (l : list event_row) : bool :=
  existsb (fun e => String.eqb (ev_export e) id && bool_decide (ev_kind e = k)) l.
(** The payloads that have expired go, unless something is on hold, and each export
    without a payload gets its event, once. *)
Definition erase_expired (now : Z) (d : export_db) : export_db :=
  let x := if has_hold (d_tables d) then d_exports d else erase_if (lapsed now) (d_exports d) in
  log_event
    (omap (fun e : string * export_row =>
       if lapsed now e.2 && match ex_payload e.2 with None => true | Some _ => false end && negb (logged Expired e.1 (d_events d))
       then Some (mkEventRow e.1 (ex_case e.2) Expired now) else None) (map_to_list x))
    (set_exports x d).

(** The row and the event of a new export; [id] is the identifier it is given. *)
Definition insert_export (now : Z) (id user : string) (ws : option string) (case : string) (p : json) (d : export_db) : option export_db :=
  if bool_decide (is_Some (d_exports d !! id)) then None
  else Some (log_event [mkEventRow id case Created now]
               (set_exports (<[id := mkExport user ws case now (now + hour) (Some p) None]> (d_exports d)) d)).

Definition sierx_create_data_export (now : Z) (id user case : string) (d : export_db) : option export_db :=
  let d := erase_expired now d in
  match t_accounts (d_tables d) !! user with
  | None => None
  | Some a =>
      let p := account_payload (d_tables d) user a in
      if payload_fits p then insert_export now id user None case p d else None
  end.

Definition sierx_create_workspace_export (now : Z) (id ws user case : string) (d : export_db) : option export_db :=
  if bool_decide (is_Some (t_members (d_tables d) !! (ws, user))) then
    let p := workspace_payload (d_tables d) ws in
    if payload_fits p then insert_export now id user (Some ws) case p d else None
  else None.

(** The export a case may have now. *)
Definition readable (now : Z) (case : string) (e : export_row) : option json :=
  if String.eqb (ex_case e) case && (now <? ex_expires e) && bool_decide (ex_revoked e = None) then ex_payload e else None.
Definition sierx_read_data_export (now : Z) (id case : string) (d : export_db) : option (json * export_db) :=
  match d_exports d !! id with
  | None => None
  | Some e =>
      match readable now case e with
      | None => None
      | Some p => Some (p, log_event [mkEventRow id case Downloaded now] d)
      end
  end.

(** What a lifecycle decision does to the exports, within [sierx_lifecycle_apply]. *)
Definition revoking : list string :=
  ["takedown"; "redact-item"; "redact-comment"; "redact-view"; "redact-history"; "correct-history"; "remove-member"; "anonymize-account"; "retention"].
Definition is_some {A} (o : option A) : bool := match o with Some _ => true | None => false end.
Definition revoke (stamp : Z) (e : export_row) : export_row :=
  if is_some (ex_payload e) && negb (is_some (ex_revoked e))
  then mkExport (ex_user e) (ex_workspace e) (ex_case e) (ex_created e) (ex_expires e) (ex_payload e) (Some stamp) else e.
Definition lifecycle_exports (stamp : Z) (kind : string) (d : export_db) : export_db :=
  let x := if mem_str kind revoking then revoke stamp <$> d_exports d else d_exports d in
  set_exports (if has_hold (d_tables d) then x else erase_if (fun e => is_some (ex_revoked e) || lapsed stamp e) x) d.

(** * The command *)

Inductive request :=
  | RCreate (workspace user case : string)
  | RDownload (id case out : string).

Definition export_usage : string := "usage: sierxctl exports create|download --case UUID [--user UUID | --id UUID --out FILE]".

(** The checks before the connection. *)
Definition export_flags (args : list string) : result string (string * list (string * string)) :=
  match args with
  | verb :: rest =>
      if negb (String.eqb verb "create") && negb (String.eqb verb "download") then Err export_usage
      else match Accounts.parse_flags ["workspace"; "user"; "id"; "case"; "out"] rest [] None with
           | None => Err "flag provided but not defined"
           | Some (l, pos) =>
               if negb (bool_decide (pos = [])) || negb (canonicalUUID (Accounts.flag_value "case" l))
               then Err "--case must be a canonical UUID; no positional arguments are accepted"
               else Ok (verb, l)
           end
  | [] => Err export_usage
  end.
(** The checks of either verb, once connected. *)
Definition export_request (verb : string) (l : list (string * string)) : result string request :=
  let user := Accounts.flag_value "user" l in
  let id := Accounts.flag_value "id" l in
  let ws := Accounts.flag_value "workspace" l in
  let out := Accounts.flag_value "out" l in
  if String.eqb verb "create" then
    if negb (canonicalUUID user) || negb (String.eqb id "") || negb (String.eqb out "")
    then Err "create requires --user UUID and does not accept --id or --out"
    else if negb (String.eqb ws "") && negb (canonicalUUID ws) then Err "--workspace must be a canonical UUID"
    else Ok (RCreate ws user (Accounts.flag_value "case" l))
  else
    if negb (canonicalUUID id) || negb (String.eqb user "") || negb (String.eqb ws "") || String.eqb out ""
    then Err "download requires --id UUID and --out FILE; --user is not accepted"
    else Ok (RDownload id (Accounts.flag_value "case" l) out).

(** What the world decides: the connection, whether the function's transaction
    commits and the client hears of it, whether the new file can be made, what is in
    it if writing or flushing it fails, whether closing and removing it succeed. *)
Record occasion := mkOccasion {
  oc_connected : bool; oc_commit : commit; oc_open : bool; oc_torn : option bytes; oc_close : bool; oc_remove : bool }.

Inductive done := ExportCreated (id : string) (expires : Z) | ExportWritten.

(** A function call in a transaction of its own. *)
Definition call {A} (o : commit) (f : export_db -> option (A * export_db)) (d : export_db) : option A * export_db :=
  match f d with
  | None => (None, d)
  | Some (a, d') => match o with Committed => (Some a, d') | CommitLost => (None, d) | CommitUnknown => (None, d') end
  end.

Definition remove (oc : occasion) (out : string) (s : fs) : fs := if oc_remove oc then delete out s else s.

(** The new file: created for its owner only and never over another. *)
Definition write_export (oc : occasion) (out : string) (payload : bytes) (s : fs) : result string unit * fs :=
  if bool_decide (is_Some (s !! out)) || negb (oc_open oc)
  then (Err "create export file without overwriting an existing path", s)
  else match oc_torn oc with
       | Some part => (Err "write export file", remove oc out (<[out := mkFile true true part]> s))
       | None =>
           let s := <[out := mkFile true true payload]> s in
           if oc_close oc then (Ok tt, s) else (Err "close export file", remove oc out s)
       end.

Definition created (id : string) (now : Z) (o : option export_db) : option ((string * Z) * export_db) :=
  match o with Some d => Some ((id, now + hour), d) | None => None end.

Definition run_request (oc : occasion) (now : Z) (id : string) (r : request) (d : export_db) (s : fs) : result string done * export_db * fs :=
  match r with
  | RCreate ws user case =>
      let f d := created id now
        (if String.eqb ws "" then sierx_create_data_export now id (to_lower user) (to_lower case) d
         else sierx_create_workspace_export now id (to_lower ws) (to_lower user) (to_lower case) d) in
      match call (oc_commit oc) f d with
      | (Some (id, expires), d) => (Ok (ExportCreated id expires), d, s)
      | (None, d) => (Err "export creation failed (check case authorization and account UUID)", d, s)
      end
  | RDownload xid case out =>
      match call (oc_commit oc) (sierx_read_data_export now (to_lower xid) (to_lower case)) d with
      | (None, d) => (Err "export download failed (check case authorization, expiry, and export UUID)", d, s)
      | (Some p, d) =>
          match write_export oc out (chars (jsonb_text p)) s with
          | (Ok _, s) => (Ok ExportWritten, d, s)
          | (Err e, s) => (Err e, d, s)
          end
      end
  end.

(** [runDataExport]: [dsn] is the maintenance connection, [id] the identifier a new
    export is given. *)
Definition runDataExport (args : list string) (dsn : string) (oc : occasion) (now : Z) (id : string) (d : export_db) (s : fs) :
    result string done * export_db * fs :=
  match export_flags args with
  | Err e => (Err e, d, s)
  | Ok (verb, l) =>
      if String.eqb dsn "" then (Err "SIERX_MAINTENANCE_DATABASE_URL is unset", d, s)
      else if negb (oc_connected oc) then (Err "connect to maintenance database", d, s)
      else match export_request verb l with
           | Err e => (Err e, d, s)
           | Ok r => run_request oc now id r d s
           end
  end.

End exports.

End Exports.
