(* ===== verification/ExportsProps.v ===== *)
(** Data exports: an export holds what belongs to its account or workspace and no
    more, it can be had with its case, within the hour and until it is revoked, and
    a download touches one new file. *)
From S2P Require Import Prelude Utf8 Ltree Float Json Journal Paging Operator Accounts Exports.
Open Scope Z_scope.

Module ExportsProps.
Import Journal Operator Exports.

Section props.
Context {PT : PgText}.

(** * Rows of an export *)

Lemma by_text_in {A} (l : list (string * A)) x : x ∈ by_text l <-> x ∈ l.
Proof. unfold by_text. by rewrite (Paging.sorted_perm fst str_lt). Qed.
Lemma first_rows_in {A} (l : list (string * A)) x : x ∈ first_rows l -> x ∈ l.
Proof. intros Hx. apply by_text_in, (subseteq_take row_limit), Hx. Qed.
Lemma first_rows_short {A} (l : list (string * A)) : (length (first_rows l) <= row_limit)%nat.
Proof. unfold first_rows. rewrite length_take. lia. Qed.
Lemma oldest_in l x : x ∈ oldest_comments l -> x ∈ l.
Proof.
  intros Hx. unfold oldest_comments in Hx. apply (subseteq_take row_limit) in Hx.
  by rewrite (Paging.sorted_perm _ earlier) in Hx.
Qed.

Lemma exported_comment t u id c : (id, c) ∈ exported_comments t u ->
  t_comments t !! id = Some c /\ ec_author c = u /\ comment_visible t id c = true.
Proof.
  intros Hx%oldest_in%elem_of_map_to_list. apply map_lookup_filter_Some in Hx as [Hx Hv].
  apply map_lookup_filter_Some in Hx as [Hx Hu]. done.
Qed.
Lemma exported_view t u id v : (id, v) ∈ exported_views t u ->
  t_views t !! id = Some v /\ ev_owner v = Some u /\ view_visible t id v = true.
Proof.
  intros Hx%first_rows_in%elem_of_map_to_list. apply map_lookup_filter_Some in Hx as [Hx Hv].
  apply map_lookup_filter_Some in Hx as [Hx Hu]. done.
Qed.

Lemma joined_in t u v : v ∈ joined t u ->
  exists w role row, t_members t !! (w, u) = Some role /\ t_workspaces t !! w = Some row /\
    v = (ew_slug row, JObj [("workspace_id", JStr w); ("workspace_slug", JStr (ew_slug row)); ("workspace_name", JStr (ew_name row)); ("role", JStr role)]).
Proof.
  unfold joined. rewrite list_elem_of_omap. intros ([[w u'] role] & Hm & Hv). apply elem_of_map_to_list, map_lookup_filter_Some in Hm as [Hm Hu].
  simpl in *. subst u'. destruct (t_workspaces t !! w) as [row|] eqn:Ew; [|done]. injection Hv as <-. by exists w, role, row.
Qed.

(** An export of an account holds its comments and views and no others: at most 512
    of each, none that is hidden by a restriction, and the workspaces it belongs to. *)
Theorem account_export_own now id user case d d' :
  sierx_create_data_export now id user case d = Some d' ->
  exists a m, t_accounts (d_tables d) !! user = Some a /\
    d_exports d' !! id = Some (mkExport user None case now (now + hour) (Some (JObj m)) None) /\
    (exists cs, obj_get "authored_comments" m = Some (JArr cs) /\ (length cs <= 512)%nat /\
       forall v, v ∈ cs -> exists cid c, t_comments (d_tables d) !! cid = Some c /\ ec_author c = user /\
         comment_visible (d_tables d) cid c = true /\ v = own_comment (cid, c)) /\
    (exists vs, obj_get "owned_saved_views" m = Some (JArr vs) /\ (length vs <= 512)%nat /\
       forall v, v ∈ vs -> exists vid w, t_views (d_tables d) !! vid = Some w /\ ev_owner w = Some user /\
         view_visible (d_tables d) vid w = true /\ v = own_view (vid, w)) /\
    (exists ms, obj_get "memberships" m = Some (JArr ms) /\
       forall v, v ∈ ms -> exists w role row, t_members (d_tables d) !! (w, user) = Some role /\ t_workspaces (d_tables d) !! w = Some row /\
         v = JObj [("workspace_id", JStr w); ("workspace_slug", JStr (ew_slug row)); ("workspace_name", JStr (ew_name row)); ("role", JStr role)]).
Proof.
  unfold sierx_create_data_export. destruct (t_accounts _ !! user) as [a|] eqn:Ha; [|done]. destruct (payload_fits _); [|done].
  unfold insert_export. case_bool_decide; [done|]. intros [= <-]. exists a. eexists. split; [done|].
  cbn [d_exports log_event set_exports]. split; [by rewrite lookup_insert_eq|].
  change (d_tables (erase_expired now d)) with (d_tables d). split_and!; eexists; (split; [reflexivity|]).
  - split; [unfold exported_comments, oldest_comments; rewrite length_fmap, length_take; unfold row_limit; lia|].
    intros v ([cid c] & -> & (H1 & H2 & H3)%exported_comment)%list_elem_of_fmap. by exists cid, c.
  - split; [rewrite length_fmap; apply first_rows_short|].
    intros v ([vid w] & -> & (H1 & H2 & H3)%exported_view)%list_elem_of_fmap. by exists vid, w.
  - intros v (x & -> & (w & role & row & H1 & H2 & ->)%by_text_in%joined_in)%list_elem_of_fmap. by exists w, role, row.
Qed.

(** The rows of a group are those of its map. *)
Lemma rows_json_in {A} (f : string * A -> json) (m : gmap string A) :
  exists l, rows_json f m = JArr l /\ (length l <= 512)%nat /\ forall v, v ∈ l -> exists id x, m !! id = Some x /\ v = f (id, x).
Proof.
  eexists. split; [reflexivity|]. split; [rewrite length_fmap; apply first_rows_short|].
  intros v ([id x] & -> & Hx%first_rows_in%elem_of_map_to_list)%list_elem_of_fmap. by exists id, x.
Qed.

(** An export of a workspace is made for a member, and every project, item, comment
    and view in it belongs to that workspace and is not hidden. *)
Theorem workspace_export_own now id ws user case d d' :
  sierx_create_workspace_export now id ws user case d = Some d' ->
  exists m ps is_ cs vs, is_Some (t_members (d_tables d) !! (ws, user)) /\
    d_exports d' !! id = Some (mkExport user (Some ws) case now (now + hour) (Some (JObj m)) None) /\
    obj_get "projects" m = Some (JArr ps) /\ obj_get "items" m = Some (JArr is_) /\
    obj_get "comments" m = Some (JArr cs) /\ obj_get "saved_views" m = Some (JArr vs) /\
    (length ps <= 512 /\ length is_ <= 512 /\ length cs <= 512 /\ length vs <= 512)%nat /\
    (forall v, v ∈ ps -> exists pid p, t_projects (d_tables d) !! pid = Some p /\ ep_workspace p = ws /\ v = project_json (pid, p)) /\
    (forall v, v ∈ is_ -> exists iid i, t_items (d_tables d) !! iid = Some i /\ ei_workspace i = ws /\
       item_visible (d_tables d) iid i = true /\ v = item_json (iid, i)) /\
    (forall v, v ∈ cs -> exists cid c i, t_comments (d_tables d) !! cid = Some c /\ t_items (d_tables d) !! ec_item c = Some i /\
       ei_workspace i = ws /\ comment_visible (d_tables d) cid c = true /\ v = comment_json (cid, c)) /\
    (forall v, v ∈ vs -> exists vid w, t_views (d_tables d) !! vid = Some w /\ ev_workspace w = ws /\
       view_visible (d_tables d) vid w = true /\ v = view_json (vid, w)).
Proof.
  unfold sierx_create_workspace_export. case_bool_decide as Hm; [|done]. destruct (payload_fits _); [|done].
  unfold insert_export. case_bool_decide; [done|]. intros [= <-]. unfold workspace_payload.
  destruct (rows_json_in project_json (ws_projects (d_tables d) ws)) as (ps & -> & Lp & Hp).
  destruct (rows_json_in item_json (ws_items (d_tables d) ws)) as (is_ & -> & Li & Hi).
  destruct (rows_json_in comment_json (ws_comments (d_tables d) ws)) as (cs & -> & Lc & Hc).
  destruct (rows_json_in view_json (ws_views (d_tables d) ws)) as (vs & -> & Lv & Hv).
  eexists _, ps, is_, cs, vs. split; [done|]. split; [cbn [d_exports log_event set_exports]; by rewrite lookup_insert_eq|].
  do 4 (split; [reflexivity|]). split; [done|]. split_and!.
  - intros v (id0 & x & [Hx Hw]%map_lookup_filter_Some & ->)%Hp. by exists id0, x.
  - intros v (id0 & x & [Hx [Hw Hs]]%map_lookup_filter_Some & ->)%Hi. by exists id0, x.
  - intros v (id0 & x & [Hx [Hw Hs]]%map_lookup_filter_Some & ->)%Hc. apply fmap_Some in Hw as (i & Hi0 & ->). by exists id0, x, i.
  - intros v (id0 & x & [Hx [Hw Hs]]%map_lookup_filter_Some & ->)%Hv. by exists id0, x.
Qed.

(** What an export may depend on. *)
Record agree_on (u : string) (t t' : tables) : Prop := {
  ag_account : t_accounts t !! u = t_accounts t' !! u;
  ag_members : memberships t u = memberships t' u;
  ag_workspaces : forall w, is_Some (t_members t !! (w, u)) -> t_workspaces t !! w = t_workspaces t' !! w;
  ag_comments : authored t u = authored t' u;
  ag_hidden_comments : forall id c, authored t u !! id = Some c -> comment_visible t id c = comment_visible t' id c;
  ag_views : owned t u = owned t' u;
  ag_hidden_views : forall id v, owned t u !! id = Some v -> view_visible t id v = view_visible t' id v
}.

(** Nothing else flows into the export of an account: tables that agree on the
    account, its memberships, its comments and its views give the same export. *)
Theorem account_export_unrelated u t t' a : agree_on u t t' -> account_payload t u a = account_payload t' u a.
Proof.
  intros [_ Hm Hw Hc Hhc Hv Hhv]. unfold account_payload.
  assert (joined t u = joined t' u) as ->.
  { unfold joined. rewrite Hm. apply list_omap_ext, Forall_Forall2_diag, Forall_forall. intros [[w u'] role] Hin%elem_of_map_to_list.
    rewrite <- Hm in Hin. apply map_lookup_filter_Some in Hin as [Hin Hu]. simpl in *. subst u'. by rewrite (Hw w) by eauto. }
  assert (exported_comments t u = exported_comments t' u) as ->.
  { unfold exported_comments. rewrite <- Hc. do 2 f_equal. apply map_filter_ext. intros id c Hx. simpl. by rewrite (Hhc _ _ Hx). }
  assert (exported_views t u = exported_views t' u) as ->.
  { unfold exported_views. rewrite <- Hv. do 2 f_equal. apply map_filter_ext. intros id c Hx. simpl. by rewrite (Hhv _ _ Hx). }
  by rewrite Hc, Hv.
Qed.

(** * How the rows of exports change *)

(** What becomes of a row: its payload may go, it may be revoked. *)
Record row_step (e e' : export_row) : Prop := {
  rs_same : (ex_user e', ex_workspace e', ex_case e', ex_created e', ex_expires e') = (ex_user e, ex_workspace e, ex_case e, ex_created e, ex_expires e);
  rs_payload : ex_payload e' = ex_payload e \/ ex_payload e' = None;
  rs_revoked : ex_revoked e <> None -> ex_revoked e' <> None
}.
#[global] Instance row_step_refl : Reflexive row_step.
Proof. split; auto. Qed.
#[global] Instance row_step_trans : Transitive row_step.
Proof.
  intros a b c [A1 A2 A3] [B1 B2 B3]. split; [congruence| |auto].
  destruct B2 as [->| ->]; auto.
Qed.

Lemma readable_row now case e e' v : row_step e e' -> readable now case e' = Some v -> readable now case e = Some v.
Proof.
  intros [[= _ _ Hc _ Hx] Hp Hr] Hv. unfold readable in *. rewrite Hc, Hx in Hv.
  destruct (String.eqb (ex_case e) case && (now <? ex_expires e)); simpl in *; [|done].
  case_bool_decide as H1; [|done]. destruct Hp as [Hp|Hp]; [|congruence].
  rewrite bool_decide_true; [congruence|]. destruct (ex_revoked e); [|done]. by destruct Hr.
Qed.

(** Where the payload of a row came from. *)
Definition origin (t : tables) (e : export_row) (v : json) : Prop :=
  match ex_workspace e with
  | None => exists a, t_accounts t !! ex_user e = Some a /\ v = account_payload t (ex_user e) a
  | Some w => is_Some (t_members t !! (w, ex_user e)) /\ v = workspace_payload t w
  end.
Record new_row (now : Z) (t : tables) (e : export_row) : Prop := {
  nr_times : ex_created e = now /\ ex_expires e = now + hour;
  nr_live : ex_revoked e = None;
  nr_payload : exists v, ex_payload e = Some v /\ origin t e v
}.

Definition evolves (now : Z) (t : tables) (x x' : gmap string export_row) : Prop := forall id,
  match x !! id, x' !! id with
  | Some e, Some e' => row_step e e'
  | None, Some e' => new_row now t e'
  | Some _, None => False
  | None, None => True
  end.

Lemma evolves_fmap now t f x : (forall e, row_step e (f e)) -> evolves now t x (f <$> x).
Proof. intros Hf id. rewrite lookup_fmap. destruct (x !! id); simpl; auto. Qed.
Lemma evolves_refl now t x : evolves now t x x.
Proof. intros id. destruct (x !! id); simpl; reflexivity || done. Qed.
Lemma evolves_then now t f x y : (forall e, row_step e (f e)) -> evolves now t (f <$> x) y -> evolves now t x y.
Proof.
  intros Hf H id. specialize (H id). rewrite lookup_fmap in H. destruct (x !! id) as [e|]; simpl in H; [|done].
  destruct (y !! id); [|done]. exact (row_step_trans _ _ _ (Hf e) H).
Qed.

Lemma erase_row e : row_step e (erase e).
Proof. split; simpl; auto. Qed.
Lemma erase_if_row f e : row_step e (if f e : bool then erase e else e).
Proof. destruct (f e); [apply erase_row|done]. Qed.
Lemma revoke_row now e : row_step e (revoke now e).
Proof. unfold revoke. destruct (_ && _); [|done]. split; simpl; auto. Qed.

Lemma insert_evolves now id user ws case v d d' :
  origin (d_tables d) (mkExport user ws case now (now + hour) (Some v) None) v ->
  insert_export now id user ws case v d = Some d' -> evolves now (d_tables d) (d_exports d) (d_exports d').
Proof.
  unfold insert_export. intros Ho. case_bool_decide as Hn; intros [= <-]. simpl. intros xid.
  destruct (decide (id = xid)) as [<-|Hne].
  - rewrite lookup_insert_eq. destruct (d_exports d !! id); [by destruct Hn; eauto|]. split; simpl; eauto.
  - rewrite lookup_insert_ne by done. destruct (d_exports d !! xid); simpl; reflexivity || done.
Qed.

Lemma erase_expired_exports now d : exists f, (forall e, row_step e (f e)) /\ d_exports (erase_expired now d) = f <$> d_exports d.
Proof.
  unfold erase_expired. simpl. destruct (has_hold (d_tables d)).
  - exists (fun e => e). split; [done|]. by rewrite map_fmap_id.
  - exists (fun e => if lapsed now e then erase e else e). split; [apply erase_if_row|done].
Qed.

Lemma create_evolves now id user case d d' : sierx_create_data_export now id user case d = Some d' ->
  evolves now (d_tables d) (d_exports d) (d_exports d') /\ d_tables d' = d_tables d.
Proof.
  unfold sierx_create_data_export. destruct (t_accounts _ !! user) as [a|] eqn:Ha; [|done].
  destruct (payload_fits _); [|done]. intros E. destruct (erase_expired_exports now d) as (f & Hf & Hx). split.
  - apply (evolves_then _ _ f); [done|]. rewrite <- Hx. change (d_tables d) with (d_tables (erase_expired now d)).
    eapply insert_evolves; [|exact E]. by exists a.
  - unfold insert_export in E. case_bool_decide; [done|]. by injection E as <-.
Qed.
Lemma create_workspace_evolves now id ws user case d d' : sierx_create_workspace_export now id ws user case d = Some d' ->
  evolves now (d_tables d) (d_exports d) (d_exports d') /\ d_tables d' = d_tables d.
Proof.
  unfold sierx_create_workspace_export. case_bool_decide as Hm; [|done]. destruct (payload_fits _); [|done]. intros E. split.
  - eapply insert_evolves; [|exact E]. done.
  - unfold insert_export in E. case_bool_decide; [done|]. by injection E as <-.
Qed.
Lemma read_inv now id case d v d' : sierx_read_data_export now id case d = Some (v, d') ->
  d' = log_event [mkEventRow id case Downloaded now] d /\ exists e, d_exports d !! id = Some e /\ readable now case e = Some v.
Proof. unfold sierx_read_data_export. destruct (d_exports d !! id) as [e|]; [|done]. destruct (readable _ _ e) eqn:E; [|done]. intros [= -> <-]. eauto. Qed.

Lemma lifecycle_evolves now kind d : evolves now (d_tables d) (d_exports d) (d_exports (lifecycle_exports now kind d)).
Proof.
  unfold lifecycle_exports, erase_if. cbn [d_exports set_exports].
  destruct (mem_str kind revoking); [apply (evolves_then _ _ (revoke now)); [apply revoke_row|]|];
    (destruct (has_hold _); [apply evolves_refl|apply evolves_fmap, erase_if_row]).
Qed.

(** * Histories *)

Record state := mkState { clock : Z; db : export_db; files : fs }.

(** The operator's command, other changes of the tables, decisions of the lifecycle,
    and time. *)
Inductive step : state -> state -> Prop :=
  | step_run st args dsn oc id r d s : runDataExport args dsn oc (clock st) id (db st) (files st) = (r, d, s) -> step st (mkState (clock st) d s)
  | step_tables st t : step st (mkState (clock st) (mkExportDb t (d_exports (db st)) (d_events (db st))) (files st))
  | step_lifecycle st kind : step st (mkState (clock st) (lifecycle_exports (clock st) kind (db st)) (files st))
  | step_clock st now : clock st <= now -> step st (mkState now (db st) (files st)).

(** The states so far, the newest first. *)
Inductive history : list state -> Prop :=
  | history_start now t s : history [mkState now (mkExportDb t ∅ []) s]
  | history_more st st' h : history (st :: h) -> step st st' -> history (st' :: st :: h).

Lemma call_inv {A} o (f : export_db -> option (A * export_db)) d r d' : call o f d = (r, d') ->
  (d' = d /\ r = None) \/ exists a, f d = Some (a, d') /\ (r = Some a \/ r = None).
Proof.
  unfold call. destruct (f d) as [[a d1]|]; [|intros [= <- <-]; auto].
  destruct o; intros [= <- <-]; [right; exists a; auto|by left|right; exists a; auto].
Qed.

Lemma run_evolves args dsn oc now id d s r d' s' : runDataExport args dsn oc now id d s = (r, d', s') ->
  evolves now (d_tables d) (d_exports d) (d_exports d').
Proof.
  unfold runDataExport. intros E.
  destruct (export_flags args) as [[verb l]|]; [|injection E as _ <- _; apply evolves_refl].
  destruct (String.eqb dsn ""); [injection E as _ <- _; apply evolves_refl|].
  destruct (negb _); [injection E as _ <- _; apply evolves_refl|].
  destruct (export_request verb l) as [[ws user case|xid case out]|]; [| |injection E as _ <- _; apply evolves_refl]; cbn [run_request] in E.
  - destruct (call _ _ d) as [o d1] eqn:Ec.
    assert (d1 = d') as -> by (destruct o as [[? ?]|]; by injection E).
    apply call_inv in Ec as [[-> _]|(a & Hf & _)]; [apply evolves_refl|].
    destruct (String.eqb ws ""); unfold created in Hf.
    + destruct (sierx_create_data_export _ _ _ _ _) eqn:Ek; [|done]. injection Hf as _ <-. by apply create_evolves in Ek as [? _].
    + destruct (sierx_create_workspace_export _ _ _ _ _ _) eqn:Ek; [|done]. injection Hf as _ <-. by apply create_workspace_evolves in Ek as [? _].
  - destruct (call _ _ d) as [o d1] eqn:Ec.
    assert (d1 = d') as -> by (destruct o; [destruct (write_export _ _ _ _) as [[?|?] ?]|]; by injection E).
    apply call_inv in Ec as [[-> _]|(a & Hf & _)]; [apply evolves_refl|].
    apply read_inv in Hf as [-> _]. apply evolves_refl.
Qed.

(** ** Provenance *)

(** Each row of the newest state was made in a state of the history. *)
Definition made (st : state) (e : export_row) (v : json) : Prop :=
  clock st = ex_created e /\ origin (d_tables (db st)) e v.
Definition sourced (h : list state) (now : Z) (e : export_row) : Prop :=
  ex_expires e = ex_created e + hour /\ ex_created e <= now /\
  forall v, ex_payload e = Some v -> exists st, st ∈ h /\ made st e v.
Definition rows_sourced (h : list state) (st : state) : Prop :=
  forall id e, d_exports (db st) !! id = Some e -> sourced h (clock st) e.

Lemma origin_row t e e' v : row_step e e' -> origin t e v -> origin t e' v.
Proof. intros [[= Hu Hw _ _ _] _ _]. unfold origin. by rewrite Hu, Hw. Qed.

Lemma sourced_row h now now' e e' st : now <= now' -> row_step e e' -> sourced h now e -> sourced (st :: h) now' e'.
Proof.
  intros Hle Hs (H1 & H2 & H3). pose proof Hs as [[= _ _ _ Hc Hx] Hp _]. split; [congruence|]. split; [rewrite Hc; lia|].
  intros v Hv. destruct Hp as [Hp|Hp]; [|congruence]. destruct (H3 v) as (st0 & Hin & Hm & Ho); [congruence|].
  exists st0. split; [by apply list_elem_of_further|]. split; [congruence|by eapply origin_row].
Qed.

Lemma evolves_sourced h st d s :
  st ∈ h -> evolves (clock st) (d_tables (db st)) (d_exports (db st)) (d_exports d) -> rows_sourced h st ->
  rows_sourced (mkState (clock st) d s :: h) (mkState (clock st) d s).
Proof.
  intros Hin Hev Hr id e' He. simpl in He. specialize (Hev id). rewrite He in Hev.
  destruct (d_exports (db st) !! id) as [e|] eqn:E; [by eapply sourced_row; [|exact Hev|eapply Hr]|].
  destruct Hev as [[Hc Hx] _ (v & Hv & Ho)]. split; [congruence|]. split; [simpl; lia|].
  intros w Hw. exists st. split; [by apply list_elem_of_further|]. split; [done|]. congruence.
Qed.

Lemma step_evolves st st' : step st st' ->
  clock st <= clock st' /\ (d_exports (db st') = d_exports (db st) \/
    clock st' = clock st /\ evolves (clock st) (d_tables (db st)) (d_exports (db st)) (d_exports (db st'))).
Proof.
  intros []; simpl; (split; [lia|]); auto.
  - right. split; [done|]. by eapply run_evolves.
  - right. split; [done|]. apply lifecycle_evolves.
Qed.

Lemma history_sourced st h : history (st :: h) -> rows_sourced (st :: h) st.
Proof.
  remember (st :: h) as l eqn:El. intros Hh. revert st h El. induction Hh as [now t s|st0 st' h0 Hh IH Hs]; intros st h [= <- <-].
  - intros id e He. cbn [d_exports db] in He. by rewrite lookup_empty in He.
  - specialize (IH st0 h0 eq_refl). apply step_evolves in Hs as [Hle [Hx|[Hc Hev]]].
    + intros id e He. rewrite Hx in He. eapply sourced_row; [exact Hle|reflexivity|]. by eapply IH.
    + destruct st' as [now d s]. simpl in Hc. subst now. apply evolves_sourced; [apply list_elem_of_here|done|done].
Qed.

(** C37. Whatever commands, decisions, changes and time there were: what can be read
    under a case is an export made for that case less than an hour ago, from the
    tables as they were then, and it has not been revoked. *)
Theorem export_bound st h id case v d :
  history (st :: h) -> sierx_read_data_export (clock st) id case (db st) = Some (v, d) ->
  exists e st0, d_exports (db st) !! id = Some e /\ ex_case e = case /\ ex_revoked e = None /\
    st0 ∈ st :: h /\ made st0 e v /\ clock st0 <= clock st < clock st0 + hour.
Proof.
  intros Hh Hr. apply read_inv in Hr as (_ & e & He & Hv). pose proof (history_sourced _ _ Hh _ _ He) as (H1 & H2 & H3).
  unfold readable in Hv. destruct (String.eqb_spec (ex_case e) case) as [Hcase|]; [|done].
  destruct (clock st <? ex_expires e) eqn:Hlt; [|done]. case_bool_decide as Hrev; [|done]. simpl in Hv.
  destruct (H3 v Hv) as (st0 & Hin & Hm). exists e, st0. pose proof Hm as [Hc _].
  apply Z.ltb_lt in Hlt. rewrite H1 in Hlt. rewrite Hc. split_and!; try done; lia.
Qed.

(** ** Revocation *)

Definition unreadable (e : export_row) : Prop := forall now case, readable now case e = None.

Lemma unreadable_row e e' : row_step e e' -> unreadable e -> unreadable e'.
Proof. intros Hs Hu now case. destruct (readable now case e') eqn:E; [|done]. eapply readable_row in E; [|exact Hs]. by rewrite Hu in E. Qed.

Lemma revoke_unreadable stamp e : unreadable (revoke stamp e).
Proof.
  intros now case. unfold readable, revoke. destruct (ex_payload e) eqn:Ep; simpl.
  - destruct (ex_revoked e) eqn:Er; simpl; [rewrite Er|]; by rewrite andb_false_r.
  - rewrite Ep. by destruct (_ && _).
Qed.

Lemma lifecycle_unreadable now kind d id e :
  mem_str kind revoking = true -> d_exports (lifecycle_exports now kind d) !! id = Some e -> unreadable e.
Proof.
  unfold lifecycle_exports, erase_if. intros -> H. simpl in H. destruct (has_hold _).
  - rewrite lookup_fmap in H. destruct (d_exports d !! id); [|done]. injection H as <-. apply revoke_unreadable.
  - rewrite !lookup_fmap in H. destruct (d_exports d !! id); [|done]. injection H as <-.
    eapply unreadable_row; [apply (erase_if_row (fun e => is_some (ex_revoked e) || lapsed now e))|apply revoke_unreadable].
Qed.

Lemma step_unreadable st st' id e : step st st' -> d_exports (db st) !! id = Some e -> unreadable e ->
  exists e', d_exports (db st') !! id = Some e' /\ unreadable e'.
Proof.
  intros Hs He Hu. apply step_evolves in Hs as [_ [Hx|[_ Hev]]]; [exists e; by rewrite Hx|].
  specialize (Hev id). rewrite He in Hev. destruct (d_exports (db st') !! id) as [e'|]; [|done].
  exists e'. split; [done|by eapply unreadable_row].
Qed.

(** After a decision that restricts content, none of the exports there were can be
    read again, whatever follows. *)
Theorem revoked_stays_revoked kind st st' id case :
  mem_str kind revoking = true -> is_Some (d_exports (db st) !! id) ->
  rtc step (mkState (clock st) (lifecycle_exports (clock st) kind (db st)) (files st)) st' ->
  sierx_read_data_export (clock st') id case (db st') = None.
Proof.
  intros Hk [e0 He0] Hr.
  assert (exists e, d_exports (lifecycle_exports (clock st) kind (db st)) !! id = Some e) as [e He].
  { pose proof (lifecycle_evolves (clock st) kind (db st) id) as Hev. rewrite He0 in Hev.
    destruct (d_exports (lifecycle_exports _ _ _) !! id); [by eexists|done]. }
  assert (exists e', d_exports (db st') !! id = Some e' /\ unreadable e') as (e' & He' & Hu).
  { pose proof (lifecycle_unreadable _ _ _ _ _ Hk He) as Hu. remember (mkState _ _ _) as st1 eqn:E1.
    assert (d_exports (db st1) !! id = Some e) as He1 by (by rewrite E1). clear E1 He. revert e He1 Hu.
    induction Hr as [|x y z Hs _ IH]; intros e He1 Hu; [by exists e|].
    destruct (step_unreadable _ _ _ _ Hs He1 Hu) as (e1 & H1 & H2). by eapply IH. }
  unfold sierx_read_data_export. rewrite He'. by rewrite Hu.
Qed.

(** ** Erasure *)

Lemma logged_app k id l l' : logged k id (l ++ l') = logged k id l || logged k id l'.
Proof. unfold logged. apply existsb_app. Qed.

(** Making an export erases every expired payload, unless something is on hold, and
    logs it. *)
Theorem expired_erased now id user case d d' xid e :
  sierx_create_data_export now id user case d = Some d' -> has_hold (d_tables d) = false ->
  d_exports d' !! xid = Some e -> ex_expires e <= now -> ex_payload e = None /\ logged Expired xid (d_events d') = true.
Proof.
  unfold sierx_create_data_export. destruct (t_accounts _ !! user) as [a|]; [|done]. destruct (payload_fits _); [|done].
  unfold insert_export. case_bool_decide; [done|]. intros [= <-] Hh He Hx. cbn [d_exports d_events log_event set_exports] in *.
  destruct (decide (id = xid)) as [<-|Hne]; [rewrite lookup_insert_eq in He; injection He as <-; simpl in Hx; unfold hour in Hx; lia|].
  rewrite lookup_insert_ne in He by done. unfold erase_expired in *. rewrite Hh in *. cbn [d_exports d_events log_event set_exports] in *.
  assert (Hp : ex_payload e = None).
  { unfold erase_if in He. rewrite lookup_fmap in He. destruct (d_exports d !! xid) as [e0|]; [|done]. injection He as <-.
    destruct (lapsed now e0) eqn:El; [done|]. unfold lapsed in El. apply Z.leb_gt in El. lia. }
  split; [done|]. rewrite !logged_app. destruct (logged Expired xid (d_events d)) eqn:El; [done|]. simpl.
  apply orb_true_iff. left. unfold logged. apply existsb_exists. exists (mkEventRow xid (ex_case e) Expired now). split.
  - apply list_elem_of_In, list_elem_of_omap. exists (xid, e). split; [by apply elem_of_map_to_list|]. simpl.
    unfold logged in El. rewrite Hp, El. unfold lapsed. by rewrite (proj2 (Z.leb_le _ _) Hx).
  - simpl. by rewrite String.eqb_refl.
Qed.

(** ** Downloads *)

Lemma write_export_file oc out p s r s' : write_export oc out p s = (r, s') ->
  (r = Ok tt /\ s !! out = None /\ s' = <[out := mkFile true true p]> s) \/
  (is_ok r = false /\
   (forall q f, s !! q = Some f -> s' !! q = Some f) /\ (oc_remove oc = true -> s' = s)).
Proof.
  unfold write_export, remove. case_bool_decide as Ho; simpl; [intros [= <- <-]; right; auto|].
  assert (Hn : s !! out = None) by (destruct (s !! out); [by destruct Ho; eauto|done]).
  assert (Hq : forall x q (f : file), s !! q = Some f -> (if oc_remove oc then delete out (<[out:=x]> s) else <[out:=x]> s) !! q = Some f).
  { intros x q f Hq. assert (out <> q) by congruence. destruct (oc_remove oc); by rewrite ?lookup_delete_ne, ?lookup_insert_ne. }
  assert (Hd : forall x : file, delete out (<[out:=x]> s) = s) by (intros x; by apply delete_insert_id).
  destruct (oc_open oc); simpl; [|intros [= <- <-]; right; auto].
  destruct (oc_torn oc) as [part|]; [|destruct (oc_close oc)]; intros [= <- <-]; [right| |right].
  - split; [done|]. split; [apply Hq|intros ->; apply Hd].
  - left. done.
  - split; [done|]. split; [apply Hq|intros ->; apply Hd].
Qed.

(** A download never touches a file that is there; one that fails leaves nothing, if
    the file can be removed; one that succeeds has written exactly the export that was
    read, for the owner only, and logged it. *)
Theorem download_file args dsn oc now id d s r d' s' :
  runDataExport args dsn oc now id d s = (r, d', s') ->
  (forall q f, s !! q = Some f -> s' !! q = Some f) /\
  (is_ok r = false -> oc_remove oc = true -> s' = s) /\
  (r = Ok ExportWritten -> exists xid case out v, s !! out = None /\ s' = <[out := mkFile true true (chars (jsonb_text v))]> s /\
     sierx_read_data_export now xid case d = Some (v, d') /\ d_exports d' = d_exports d /\
     d_events d' = d_events d ++ [mkEventRow xid case Downloaded now]).
Proof.
  unfold runDataExport. intros E.
  destruct (export_flags args) as [[verb l]|]; [|by injection E as <- <- <-].
  destruct (String.eqb dsn ""); [by injection E as <- <- <-|]. destruct (negb _); [by injection E as <- <- <-|].
  destruct (export_request verb l) as [[ws user case|xid case out]|]; [| |by injection E as <- <- <-]; cbn [run_request] in E.
  - by destruct (call _ _ d) as [[[? ?]|] ?]; injection E as <- <- <-.
  - destruct (call _ _ d) as [[v|] d1] eqn:Ec; [|by injection E as <- <- <-].
    apply call_inv in Ec as [[_ ?]|(a & Hf & Ha)]; [done|]. destruct Ha as [[= ->]|]; [|done].
    destruct (write_export _ _ _ _) as [w s1] eqn:Ew.
    apply write_export_file in Ew as [(-> & Hn & ->)|(Hw & Hq & Hr)].
    + injection E as <- <- <-. split; [intros q f Hq; by rewrite lookup_insert_ne by congruence|]. split; [done|]. intros _.
      exists (to_lower xid), (to_lower case), out, a. split; [done|]. split; [done|]. split; [done|].
      apply read_inv in Hf as [-> _]. done.
    + destruct w; [done|]. by injection E as <- <- <-.
Qed.

Lemma insert_row now id user ws case v d d' : insert_export now id user ws case v d = Some d' ->
  d_exports d' !! id = Some (mkExport user ws case now (now + hour) (Some v) None).
Proof.
  unfold insert_export. case_bool_decide; [done|]. intros [= <-]. cbn [d_exports log_event set_exports]. by rewrite lookup_insert_eq.
Qed.
Lemma created_row now id ws user case d i x d' :
  created id now (if String.eqb ws "" then sierx_create_data_export now id user case d
                  else sierx_create_workspace_export now id (to_lower ws) user case d) = Some (i, x, d') ->
  exists v w, i = id /\ x = now + hour /\ d_exports d' !! id = Some (mkExport user w case now (now + hour) (Some v) None) /\
    origin (d_tables d) (mkExport user w case now (now + hour) (Some v) None) v.
Proof.
  unfold created. destruct (String.eqb ws "").
  - unfold sierx_create_data_export. destruct (t_accounts _ !! _) as [ac|] eqn:Hac; [|done]. destruct (payload_fits _); [|done].
    destruct (insert_export _ _ _ _ _ _ _) eqn:Ei; [|done]. intros [= <- <- <-]. apply insert_row in Ei.
    eexists _, None. split_and!; [done..|exact Ei|by exists ac].
  - unfold sierx_create_workspace_export. case_bool_decide as Hm; [|done]. destruct (payload_fits _); [|done].
    destruct (insert_export _ _ _ _ _ _ _) eqn:Ei; [|done]. intros [= <- <- <-]. apply insert_row in Ei.
    eexists _, (Some _). by split_and!; [..|exact Ei|].
Qed.

(** An export that was made can be downloaded with its case within the hour, and the
    file holds what was put in it. *)
Theorem export_downloaded oc oc' now now' id ws user case out d s r d1 s1 :
  to_lower id = id -> run_request oc now id (RCreate ws user case) d s = (Ok r, d1, s1) ->
  oc_commit oc' = Committed -> oc_open oc' = true -> oc_torn oc' = None -> oc_close oc' = true -> s1 !! out = None ->
  now' < now + hour ->
  exists v, r = ExportCreated id (now + hour) /\ s1 = s /\
    (exists e, d_exports d1 !! id = Some e /\ ex_created e = now /\ ex_user e = to_lower user /\ origin (d_tables d) e v) /\
    run_request oc' now' "" (RDownload id case out) d1 s1 =
      (Ok ExportWritten, log_event [mkEventRow id (to_lower case) Downloaded now'] d1, <[out := mkFile true true (chars (jsonb_text v))]> s).
Proof.
  intros Hid E Hoc Hop Ht Hcl Hn Hlt. cbn [run_request] in E.
  destruct (call _ _ d) as [[[i x]|] d2] eqn:Ec; [|done]. injection E as <- -> ->.
  apply call_inv in Ec as [[_ ?]|(a & Hf & Ha)]; [done|]. destruct Ha as [[= <-]|]; [|done].
  apply created_row in Hf as (v & w & -> & -> & He & Ho).
  exists v. split; [done|]. split; [done|]. split; [by eexists|].
  cbn [run_request]. unfold sierx_read_data_export. rewrite Hid. unfold call. rewrite He.
  assert (readable now' (to_lower case) (mkExport (to_lower user) w (to_lower case) now (now + hour) (Some v) None) = Some v) as ->.
  { unfold readable. cbn [ex_case ex_expires ex_revoked ex_payload]. rewrite String.eqb_refl. by rewrite (proj2 (Z.ltb_lt _ _) Hlt). }
  rewrite Hoc. unfold write_export. rewrite Hn, Hop, Ht, Hcl. done.
Qed.

End props.

(** * An export *)

Module ExportsDemo.

Fixpoint text_of (fuel : nat) (j : json) : string :=
  match fuel, j with
  | S fuel, JObj m => "{" +:+ str_join "," ((fun kv => kv.1 +:+ ":" +:+ text_of fuel kv.2) <$> m) +:+ "}"
  | S fuel, JArr l => "[" +:+ str_join "," (text_of fuel <$> l) +:+ "]"
  | _, JStr s => s
  | _, JBool b => if b then "true" else "false"
  | _, JInt z => itoa (Z.to_nat z)
  | _, _ => "null"
  end.
#[export] Instance demo_text : PgText := {| ts_text z := itoa (Z.to_nat z); jsonb_text := text_of 8 |}.

Definition ann : string := "00000000-0000-7000-8000-00000000000a".
Definition bob : string := "00000000-0000-7000-8000-00000000000b".
Definition case1 : string := "00000000-0000-7000-8000-0000000000c1".
Definition xid : string := "00000000-0000-7000-8000-0000000000e1".
Definition account (name : string) : account_row := mkAccount (name +:+ "@example.org") name (Some "hash") None "system" None true 1.

(** Ann wrote the comments 1 and 3, of which 3 is taken down; Bob wrote 2. *)
Definition t0 : tables :=
  mkTables (<[ann := account "ann"]> (<[bob := account "bob"]> ∅)) {["w" := mkWorkspace "acme" "Acme"]}
    (<[("w", ann) := "member"]> (<[("w", bob) := "admin"]> ∅)) ∅
    {["i" := mkItem "w" "i" "K-1" "p" None "Title" (Some "Body") (JObj []) 1 None None None None None false]}
    (<["1" := mkComment "i" ann "mine" 5 None None]> (<["2" := mkComment "i" bob "his" 6 None None]> {["3" := mkComment "i" ann "hidden" 7 None None]}))
    ∅ [mkRestriction "comment" "3" (Some "w") None true case1 "3"] [].

Definition args_create : list string := ["create"; "--case"; case1; "--user"; ann].
Definition args_download : list string := ["download"; "--case"; case1; "--id"; xid; "--out"; "ann.json"].
Definition fine : occasion := mkOccasion true Committed true None true true.

Definition s0 : state := mkState 10 (mkExportDb t0 ∅ []) ∅.
Definition run (args : list string) (st : state) : state :=
  let r := runDataExport args "dsn" fine (clock st) xid (db st) (files st) in mkState (clock st) r.1.2 r.2.
Definition s1 : state := run args_create s0.
Definition s2 : state := mkState 20 (db s1) (files s1).

Lemma run_step args st : step st (run args st).
Proof. unfold run. destruct (runDataExport _ _ _ _ _ _ _) as [[r d] s] eqn:E. by eapply step_run. Qed.

Lemma s2_history : history [s2; s1; s0].
Proof. repeat (apply history_more; [|apply run_step || apply (step_clock s1 20); vm_compute; discriminate]). apply history_start. Qed.

(** The export of Ann has comment 1 and neither of the others. *)
Example exported : (exported_comments t0 ann).*1 = ["1"].
Proof. vm_compute. reflexivity. Qed.

Example downloaded :
  let r := runDataExport args_download "dsn" fine 20 "" (db s2) ∅ in
  (r.1.1, is_some (r.2 !! "ann.json"), (fun e => ev_kind e) <$> d_events r.1.2) = (Ok ExportWritten, true, [Created; Downloaded]).
Proof. vm_compute. reflexivity. Qed.

Lemma export_bound_witness : exists v d,
  sierx_read_data_export (clock s2) xid case1 (db s2) = Some (v, d) /\
  exists e st0, d_exports (db s2) !! xid = Some e /\ ex_case e = case1 /\ ex_revoked e = None /\
    st0 ∈ [s2; s1; s0] /\ made st0 e v /\ clock st0 <= clock s2 < clock st0 + hour.
Proof.
  destruct (sierx_read_data_export (clock s2) xid case1 (db s2)) as [[v d]|] eqn:E; [|vm_compute in E; discriminate].
  exists v, d. split; [reflexivity|]. exact (export_bound s2 [s1; s0] xid case1 v d s2_history E).
Defined.

Lemma revoked_stays_revoked_witness :
  sierx_read_data_export 20 xid case1 (lifecycle_exports 20 "redact-comment" (db s2)) = None.
Proof.
  apply (revoked_stays_revoked "redact-comment" s2 (mkState 20 (lifecycle_exports 20 "redact-comment" (db s2)) (files s2)));
    [reflexivity|vm_compute; by eexists|apply rtc_refl].
Defined.

End ExportsDemo.
End ExportsProps.
