(* ===== verification/Redaction.v ===== *)
(** What the operator's decisions do to the content of the database: the targets a
    plan enumerates and the statements that apply it ([sierx_lifecycle_plan] and
    [sierx_lifecycle_apply] of [migrations/0014_lifecycle_controls.sql], called by
    [ApplyRecord] of [lifecycle/database.go]), as an instance of the interface
    [Operator.Content] its commands are verified against. The tables are those of
    [Exports.v] with the change log, the sessions and the rollups. *)
From S2P Require Import Prelude Utf8 Uuid Ltree Float Json Journal Operator Exports.
Open Scope Z_scope.

Module Redaction.
Import Ltree Journal Operator Exports.

(** * Tables *)

(** [change_event], keyed by workspace and sequence number *)
Record change := mkChange { ce_item : option string; ce_actor : option string; ce_old : option json; ce_new : option json }.
Record session := mkSession { se_user : string; se_expires : Z }.
(** [item_rollup], points in hundredths, dates in days *)
Record rollup := mkRollup { ru_count : nat; ru_done : nat; ru_points : option Z; ru_points_done : option Z; ru_start : option Z; ru_due : option Z }.

Record content := mkContent {
  c_export : export_db; c_log : gmap (string * Z) change; c_sessions : gmap string session; c_rollups : gmap string rollup }.

Definition tabs (c : content) : tables := d_tables (c_export c).
Definition on_tables (f : tables -> tables) (c : content) : content :=
  mkContent (mkExportDb (f (tabs c)) (d_exports (c_export c)) (d_events (c_export c))) (c_log c) (c_sessions c) (c_rollups c).
Definition on_log (f : gmap (string * Z) change -> gmap (string * Z) change) (c : content) : content :=
  mkContent (c_export c) (f (c_log c)) (c_sessions c) (c_rollups c).
Definition on_sessions (f : gmap string session -> gmap string session) (c : content) : content :=
  mkContent (c_export c) (c_log c) (f (c_sessions c)) (c_rollups c).
Definition on_rollups (f : gmap string rollup -> gmap string rollup) (c : content) : content :=
  mkContent (c_export c) (c_log c) (c_sessions c) (f (c_rollups c)).
Definition on_exports (f : export_db -> export_db) (c : content) : content :=
  mkContent (f (c_export c)) (c_log c) (c_sessions c) (c_rollups c).

Definition with_accounts x t := mkTables x (t_workspaces t) (t_members t) (t_projects t) (t_items t) (t_comments t) (t_views t) (t_restrictions t) (t_holds t).
Definition with_members x t := mkTables (t_accounts t) (t_workspaces t) x (t_projects t) (t_items t) (t_comments t) (t_views t) (t_restrictions t) (t_holds t).
Definition with_projects x t := mkTables (t_accounts t) (t_workspaces t) (t_members t) x (t_items t) (t_comments t) (t_views t) (t_restrictions t) (t_holds t).
Definition with_items x t := mkTables (t_accounts t) (t_workspaces t) (t_members t) (t_projects t) x (t_comments t) (t_views t) (t_restrictions t) (t_holds t).
Definition with_comments x t := mkTables (t_accounts t) (t_workspaces t) (t_members t) (t_projects t) (t_items t) x (t_views t) (t_restrictions t) (t_holds t).
Definition with_views x t := mkTables (t_accounts t) (t_workspaces t) (t_members t) (t_projects t) (t_items t) (t_comments t) x (t_restrictions t) (t_holds t).
Definition with_restrictions x t := mkTables (t_accounts t) (t_workspaces t) (t_members t) (t_projects t) (t_items t) (t_comments t) (t_views t) x (t_holds t).
Definition with_holds x t := mkTables (t_accounts t) (t_workspaces t) (t_members t) (t_projects t) (t_items t) (t_comments t) (t_views t) (t_restrictions t) x.

(** PostgreSQL's reading of a time, and the texts of a stored JSON value. *)
Class PgTime := { pg_time : string -> option Z }.

Definition minute : Z := 60000000.
Definition day : Z := 24 * hour.

(** * Values of a decision *)

Section decisions.
Context {PT : PgText} {PM : PgTime} {UU : UuidParse}.
(** The clock of the database. *)
Context (now : Z).

(** [NULLIF(a->>'...','')::uuid], as canonical text *)
Definition sql_id (s : string) : option (option string) := option_map (option_map uuid_string) (sql_uuid s).
(** [value::uuid] over a list *)
Definition sql_ids (l : list string) : option (list string) := mapM (fun s => uuid_string <$> uuid_parse s) l.

Definition opt_mem (o : option string) (l : list string) : bool := match o with Some s => mem_str s l | None => false end.
(** A column and a value, both possibly NULL. *)
Definition same (a b : option string) : bool := match a, b with Some a, Some b => String.eqb a b | _, _ => false end.

Definition released (h : hold) : bool := is_some (h_released h).
(** The workspaces with an active hold. *)
Definition on_hold (holds : gmap uuid hold) : list string :=
  omap (fun r : uuid * hold => if released r.2 then None else Some (uuid_string (h_workspace r.2))) (map_to_list holds).

Definition item_in (t : tables) (id : string) (w : option string) : option item_row :=
  match t_items t !! id with Some i => if same (Some (ei_workspace i)) w then Some i else None | None => None end.
(** The workspace of a comment is that of its item. *)
Definition comment_workspace (t : tables) (c : comment_row) : option string := ei_workspace <$> t_items t !! ec_item c.
Definition keys {A} (m : gmap string A) : list string := fst <$> by_text (map_to_list m).

Definition is_permanent (t : tables) (kind id : string) : bool :=
  existsb (fun r => String.eqb (er_kind r) kind && String.eqb (er_target r) id && er_permanent r) (t_restrictions t).

Definition active_admin (t : tables) (w : option string) (u : string) : bool :=
  match w with
  | Some w => match t_members t !! (w, u), t_accounts t !! u with Some role, Some a => String.eqb role "admin" && ea_active a | _, _ => false end
  | None => false
  end.
Definition correction_ok (s : string) : bool := (1 <=? rune_count s)%nat && (rune_count s <=? text_limit)%nat.

(** An account that owns or administers something, or belongs to another workspace. *)
Definition bound_account (t : tables) (w : option string) (u : string) : bool :=
  existsb (fun m : (string * string) * string => String.eqb m.1.2 u && (match w with Some w => negb (String.eqb m.1.1 w) | None => false end || String.eqb m.2 "admin"))
    (map_to_list (t_members t)) ||
  existsb (fun p : string * project_row => same (ep_owner p.2) (Some u)) (map_to_list (t_projects t)).
(** An account with records in a workspace on hold. *)
Definition held_account (c : content) (held : list string) (u : string) : bool :=
  existsb (fun x : string * comment_row => String.eqb (ec_author x.2) u && opt_mem (comment_workspace (tabs c) x.2) held) (map_to_list (t_comments (tabs c))) ||
  existsb (fun v : string * view_row => same (ev_owner v.2) (Some u) && mem_str (ev_workspace v.2) held) (map_to_list (t_views (tabs c))) ||
  existsb (fun e : (string * Z) * change => same (ce_actor e.2) (Some u) && mem_str e.1.1 held) (map_to_list (c_log c)).

(** * The targets of a plan *)

Definition subtree (t : tables) (w : string) (root : string) : gmap string item_row :=
  filter (fun kv => ei_workspace kv.2 = w /\ contained (ei_path kv.2) root = true) (t_items t).
Definition comments_on (t : tables) (ids : list string) : gmap string comment_row :=
  filter (fun kv => mem_str (ec_item kv.2) ids = true) (t_comments t).
Definition past (cutoff : Z) (d : option Z) : bool := match d with Some d => d <? cutoff | None => false end.
Definition retained_items (t : tables) (w : string) (cutoff : Z) : gmap string item_row :=
  filter (fun kv => ei_workspace kv.2 = w /\ past cutoff (ei_deleted kv.2) = true /\ is_permanent t "item" kv.1 = false) (t_items t).
Definition retained_comments (t : tables) (w : string) (cutoff : Z) : gmap string comment_row :=
  filter (fun kv => comment_workspace t kv.2 = Some w /\ past cutoff (ec_deleted kv.2) = true /\ is_permanent t "comment" kv.1 = false) (t_comments t).

Definition nothing : option (list string * list string * list string) := Some ([], [], []).

(** The target, if there is one, of a plan of kind [k] in workspace [w]. *)
Definition plan_target (c : content) (holds : gmap uuid hold) (a : Action) (k w t : string) (replacement : option string) (stamp : Z) :
    option (list string * list string * list string) :=
  let T := tabs c in
  if mem_str k ["takedown"; "restore-content"; "redact-item"] then
    match item_in T t (Some w) with
    | None => None
    | Some i =>
        let ids := keys (subtree T w (ei_path i)) in
        Some (ids, if String.eqb k "redact-item" then keys (comments_on T ids) else [], [])
    end
  else if String.eqb k "redact-comment" then
    match t_comments T !! t with
    | Some x => if same (comment_workspace T x) (Some w) then Some ([], [t], []) else None
    | None => None
    end
  else if String.eqb k "redact-view" then
    match t_views T !! t with Some v => if String.eqb (ev_workspace v) w then Some ([], [], [t]) else None | None => None end
  else if String.eqb k "redact-history" then
    match item_in T t (Some w) with Some _ => nothing | None => None end
  else if String.eqb k "correct-history" then
    match c_log c !! (w, EventSeq a) with
    | Some e => if correction_ok (Correction a) && negb (EventSeq a =? 0) && same (ce_item e) (Some t) then nothing else None
    | None => None
    end
  else if String.eqb k "remove-member" then
    match replacement with
    | Some r =>
        if negb (String.eqb r t) && active_admin T (Some w) r && is_some (t_members T !! (w, t)) then nothing else None
    | None => None
    end
  else if String.eqb k "anonymize-account" then
    if negb (is_some (t_accounts T !! t)) || bound_account T (Some w) t || held_account c (on_hold holds) t then None
    else Some ([], keys (filter (fun kv => ec_author kv.2 = t) (t_comments T)), keys (filter (fun kv => ev_owner kv.2 = Some t) (t_views T)))
  else None.

Definition plan_content (c : content) (holds : gmap uuid hold) (a : Action) : option (list string * list string * list string) :=
  match sql_id (WorkspaceID a), sql_id (TargetID a), sql_id (ReplacementID a), pg_time (At a) with
  | Some (Some w), Some t, Some replacement, Some stamp =>
      if String.eqb (Kind a) "retention" then
        match pg_time (Cutoff a) with
        | Some cutoff =>
            if cutoff <? stamp
            then Some (take row_limit (keys (retained_items (tabs c) w cutoff)), take row_limit (keys (retained_comments (tabs c) w cutoff)), [])
            else None
        | None => None
        end
      else match t with Some t => plan_target c holds a (Kind a) w t replacement stamp | None => None end
  | _, _, _, _ => None
  end.

(** * What applying a decision does *)

(** The text that takes the place of values in the log. *)
Definition wiped : json := JObj [("redacted", JBool true)].
Definition wipe (e : change) : change := mkChange (ce_item e) (ce_actor e) (Some wiped) (Some wiped).
Definition wipe_where (f : (string * Z) -> change -> bool) (m : gmap (string * Z) change) : gmap (string * Z) change :=
  map_imap (fun k e => Some (if f k e then wipe e else e)) m.

(** [position(id IN coalesce(value::text,''))>0] *)
Fixpoint occurs (needle : string) (l : list ascii) : bool :=
  has_prefix (of_chars l) needle || match l with _ :: l => occurs needle l | [] => false end.
Definition mentions (id : string) (v : option json) : bool := match v with Some v => occurs id (chars (jsonb_text v)) | None => false end.
Definition about (ids : list string) (e : change) : bool :=
  opt_mem (ce_item e) ids || existsb (fun id => mentions id (ce_old e) || mentions id (ce_new e)) ids.

(** [ON CONFLICT DO NOTHING] and [DO UPDATE SET root_path, case_ref], on the key of
    the table. *)
Definition same_key (a b : restriction) : bool :=
  String.eqb (er_kind a) (er_kind b) && String.eqb (er_target a) (er_target b) && Bool.eqb (er_permanent a) (er_permanent b) && String.eqb (er_ref a) (er_ref b).
Definition put_new (l : list restriction) (r : restriction) : list restriction := if existsb (same_key r) l then l else l ++ [r].
Definition put_over (l : list restriction) (r : restriction) : list restriction :=
  if existsb (same_key r) l
  then (fun x => if same_key r x then mkRestriction (er_kind x) (er_target x) (er_workspace x) (er_root r) (er_permanent x) (er_case r) (er_ref x) else x) <$> l
  else l ++ [r].
Definition on_restrictions (f : list restriction -> list restriction) (c : content) : content :=
  on_tables (fun t => with_restrictions (f (t_restrictions t)) t) c.

(** The rows of a list of identifiers. *)
Definition rows_of {A} (ids : list string) (m : gmap string A) : list (string * A) :=
  map_to_list (filter (fun kv => mem_str kv.1 ids = true) m).
Definition update_rows {A} (ids : list string) (f : A -> A) (m : gmap string A) : gmap string A :=
  map_imap (fun k x => Some (if mem_str k ids then f x else x)) m.

(** ** takedown and restore-content *)

Definition takedown (w t : option string) (case : string) (ids : list string) (c : content) : option content :=
  match rows_of ids (t_items (tabs c)), t with
  | [], _ => Some c
  | rows, Some t =>
      let root := ei_path <$> item_in (tabs c) t w in
      Some (on_restrictions (fun l => fold_left put_over ((fun r => mkRestriction "item" r.1 w (if String.eqb r.1 t then root else None) false case t) <$> rows) l) c)
  | _, None => None
  end.

Definition restores (w t : option string) (r : restriction) : bool :=
  String.eqb (er_kind r) "item" && same (er_workspace r) w && same (Some (er_ref r)) t && negb (er_permanent r).
Definition restore_content (w t : option string) (c : content) : content :=
  on_restrictions (List.filter (fun r => negb (restores w t r))) c.

(** ** remove-member *)

Definition reassigned (r : string) (p : project_row) : project_row :=
  mkProject (ep_workspace p) (ep_prefix p) (ep_name p) (ep_kind p) (Some r) (ep_version p + 1).
Definition unassigned (i : item_row) : item_row :=
  mkItem (ei_workspace i) (ei_path i) (ei_key i) (ei_project i) (ei_parent i) (ei_title i) (ei_body i) (ei_fields i) (ei_version i + 1) (ei_deleted i)
    None (ei_points i) (ei_start i) (ei_due i) (ei_done i).
Definition sign_out (u : string) (m : gmap string session) : gmap string session := filter (fun kv => se_user kv.2 <> u) m.

Definition remove_member (w : string) (u r : string) (c : content) : option content :=
  if negb (active_admin (tabs c) (Some w) r) || String.eqb r u then None
  else Some (on_sessions (sign_out u) (on_tables (fun t =>
    with_members (delete (w, u) (t_members t))
    (with_items ((fun i => if String.eqb (ei_workspace i) w && same (ei_assignee i) (Some u) then unassigned i else i) <$> t_items t)
    (with_projects ((fun p => if String.eqb (ep_workspace p) w && same (ep_owner p) (Some u) then reassigned r p else p) <$> t_projects t) t))) c)).

(** ** anonymize-account *)

Definition erased_email (u : string) : string := "erased+" +:+ u +:+ "@invalid".
Definition anonymous (u : string) (a : account_row) : account_row :=
  mkAccount (erased_email u) "[redacted]" None None "system" None false (ea_created a).
Definition email_free (u : string) (t : tables) : bool :=
  negb (existsb (fun a : string * account_row => negb (String.eqb a.1 u) && String.eqb (to_lower (ea_email a.2)) (to_lower (erased_email u))) (map_to_list (t_accounts t))).
Definition anonymize (holds : gmap uuid hold) (w : option string) (u case : string) (c : content) : option content :=
  if bound_account (tabs c) w u || held_account c (on_hold holds) u || is_some (t_accounts (tabs c) !! u) && negb (email_free u (tabs c)) then None
  else Some (on_log (wipe_where (fun _ e => same (ce_actor e) (Some u))) (on_sessions (sign_out u)
         (on_restrictions (fun l => put_new l (mkRestriction "account" u w None true case u))
         (on_tables (fun t => with_accounts (alter (anonymous u) u (t_accounts t)) t) c)))).

(** ** The redactions *)

Definition redacted_item (stamp : Z) (i : item_row) : item_row :=
  mkItem (ei_workspace i) (ei_path i) (ei_key i) (ei_project i) (ei_parent i) "[redacted]" None (JObj []) (ei_version i + 1)
    (Some (match ei_deleted i with Some d => d | None => stamp end)) None None None None (ei_done i).
Definition redacted_comment (stamp : Z) (x : comment_row) : comment_row :=
  mkComment (ec_item x) (ec_author x) "[redacted]" (ec_created x) (Some stamp) (Some (match ec_deleted x with Some d => d | None => stamp end)).
Definition redacted_view (v : view_row) : view_row := mkView (ev_workspace v) (ev_owner v) "[redacted]" "" (ev_layout v) false.

(** [sum], [min] and [max] of what is not NULL *)
Definition fold_opt (f : Z -> Z -> Z) (l : list (option Z)) : option Z :=
  fold_right (fun o acc => match o, acc with Some x, Some y => Some (f x y) | Some x, None => Some x | None, _ => acc end) None l.
Definition aggregate (t : tables) (id : string) (i : item_row) : rollup :=
  let below := snd <$> map_to_list (filter (fun kv => contained (ei_path kv.2) (ei_path i) = true /\ kv.1 <> id /\ ei_deleted kv.2 = None) (t_items t)) in
  let finished := List.filter ei_done below in
  mkRollup (length below) (length finished) (fold_opt Z.add (ei_points <$> below)) (fold_opt Z.add (ei_points <$> finished))
    (fold_opt Z.min (ei_start <$> below)) (fold_opt Z.max (ei_due <$> below)).
Definition recompute (t : tables) (ids : list string) (m : gmap string rollup) : gmap string rollup :=
  map_imap (fun id r => Some
    (match t_items t !! id with
     | Some i => if existsb (fun x : string * item_row => contained (ei_path x.2) (ei_path i)) (rows_of ids (t_items t)) then aggregate t id i else r
     | None => r
     end)) m.

Definition retained (cutoff : option Z) (d : option Z) : bool :=
  match d, cutoff with None, _ => false | Some d, Some cutoff => d <? cutoff | Some _, None => true end.

(** A retention that finds an item restored or deleted later fails. *)
Definition redact_items (a : Action) (w t : option string) (case : string) (stamp : Z) (ids : list string) (c : content) : option content :=
  let k := Kind a in
  let late := if String.eqb k "retention"
    then match (if String.eqb (Cutoff a) "" then Some None else option_map Some (pg_time (Cutoff a))) with
         | Some cutoff => existsb (fun i : string * item_row => negb (retained cutoff (ei_deleted i.2))) (rows_of ids (t_items (tabs c)))
         | None => true
         end
    else false in
  if late then None
  else
    let c := on_tables (fun T => with_items (update_rows ids (redacted_item stamp) (t_items T)) T) c in
    let restriction_of (r : string * item_row) := mkRestriction "item" r.1 (Some (ei_workspace r.2))
      (if String.eqb k "redact-item" && same (Some r.1) t then Some (ei_path r.2) else None) true case (match t with Some t => t | None => r.1 end) in
    let c := on_restrictions (fun l => fold_left put_new (restriction_of <$> rows_of ids (t_items (tabs c))) l) c in
    let c := on_log (wipe_where (fun key e => same (Some key.1) w && about ids e)) c in
    Some (on_rollups (recompute (tabs c) ids) c).

Definition redact_comments (case : string) (stamp : Z) (ids : list string) (c : content) : content :=
  let c := on_tables (fun T => with_comments (update_rows ids (redacted_comment stamp) (t_comments T)) T) c in
  let restriction_of (x : string * comment_row) :=
    (fun i => mkRestriction "comment" x.1 (Some (ei_workspace i)) None true case x.1) <$> t_items (tabs c) !! ec_item x.2 in
  let c := on_restrictions (fun l => fold_left put_new (omap restriction_of (rows_of ids (t_comments (tabs c)))) l) c in
  on_log (wipe_where (fun _ e => opt_mem (ce_item e) (ec_item ∘ snd <$> rows_of ids (t_comments (tabs c))))) c.

Definition redact_views (case : string) (ids : list string) (c : content) : content :=
  let c := on_tables (fun T => with_views (update_rows ids redacted_view (t_views T)) T) c in
  on_restrictions (fun l => fold_left put_new ((fun v : string * view_row => mkRestriction "view" v.1 (Some (ev_workspace v.2)) None true case v.1) <$> rows_of ids (t_views (tabs c))) l) c.

(** ** The history *)

(** A sequence number of 0 is left out of the decision, so it names no event. *)
Definition correction_value (text case : string) : json := JObj [("operator_correction", JStr text); ("case_ref", JStr case)].
Definition correct_history (a : Action) (w t : option string) (case : string) (c : content) : option content :=
  if negb (correction_ok (Correction a)) then None
  else Some (on_log (map_imap (fun key e => Some
    (if same (Some key.1) w && same (ce_item e) t && (key.2 =? EventSeq a) && negb (EventSeq a =? 0)
     then mkChange (ce_item e) (ce_actor e) (Some wiped) (Some (correction_value (Correction a) case)) else e))) c).

(** ** cleanup *)

Definition cleanup (held : list string) (stamp : Z) (c : content) : content :=
  on_sessions (fun m => filter (fun kv =>
    negb (se_expires kv.2 <=? stamp) || existsb (fun x : (string * string) * string => String.eqb x.1.2 (se_user kv.2) && mem_str x.1.1 held) (map_to_list (t_members (tabs c))) = true) m) c.

(** * sierx_lifecycle_apply *)

(** Items, comments and views of another workspace. *)
Definition crosses (k : string) (w : option string) (ids comments views : list string) (t : tables) : bool :=
  let elsewhere (o : option string) := match o, w with Some o, Some w => negb (String.eqb o w) | _, _ => false end in
  existsb (fun i : string * item_row => elsewhere (Some (ei_workspace i.2))) (rows_of ids (t_items t)) ||
  negb (String.eqb k "anonymize-account") &&
    (existsb (fun x : string * comment_row => elsewhere (comment_workspace t x.2)) (rows_of comments (t_comments t)) ||
     existsb (fun v : string * view_row => elsewhere (Some (ev_workspace v.2))) (rows_of views (t_views t))).

(** The CASE statement. *)
Definition apply_case (holds : gmap uuid hold) (a : Action) (w t : option string) (case : string) (ids : list string) (c : content) : option content :=
  let k := Kind a in
  if String.eqb k "takedown" then takedown w t case ids c
  else if String.eqb k "restore-content" then Some (restore_content w t c)
  else if String.eqb k "remove-member" then
    match w, t, uuid_parse (ReplacementID a) with Some w, Some t, Some r => remove_member w t (uuid_string r) c | _, _, _ => None end
  else if String.eqb k "anonymize-account" then match t with Some t => anonymize holds w t case c | None => None end
  else if String.eqb k "redact-history" then Some (on_log (wipe_where (fun key e => same (Some key.1) w && same (ce_item e) t)) c)
  else if String.eqb k "correct-history" then correct_history a w t case c
  else Some c.

Definition apply_content (c : content) (holds : gmap uuid hold) (a : Action) : option content :=
  match sql_id (WorkspaceID a), sql_id (TargetID a), sql_id (CaseRef a), pg_time (At a), sql_ids (ItemIDs a), sql_ids (CommentIDs a), sql_ids (ViewIDs a) with
  | Some w, Some t, Some (Some case), Some stamp, Some ids, Some comments, Some views =>
      let k := Kind a in
      if crosses k w ids comments views (tabs c) then None
      else
        match apply_case holds a w t case ids c with
        | None => None
        | Some c =>
            match (if mem_str k ["redact-item"; "retention"] then redact_items a w t case stamp ids c else Some c) with
            | None => None
            | Some c =>
                let c := redact_comments case stamp comments c in
                let c := redact_views case views c in
                let c := on_exports (lifecycle_exports stamp k) (on_tables (with_holds ((fun r : uuid * hold => fst <$> h_released r.2) <$> map_to_list holds)) c) in
                Some (if String.eqb k "cleanup" then cleanup (on_hold holds) stamp c else c)
            end
        end
  | _, _, _, _, _, _, _ => None
  end.

Definition stamp_current (s : string) : bool :=
  match pg_time s with Some t => (t <=? now + minute) && (now - day <=? t) | None => false end.
Definition review_ahead (at_ review : string) : bool :=
  match pg_time at_, pg_time review with Some a, Some r => a <? r | _, _ => false end.

#[export] Instance sql_content : Content content :=
  {| stamp_ok := stamp_current; review_later := review_ahead; enumerate := plan_content; effect := apply_content |}.

End decisions.
End Redaction.

From S2P Require Import OperatorProps ExportsProps.
#[local] Set Warnings "-clear-no-such-hyp".

Module RedactionProps.
Import Ltree Journal Operator Exports ExportsProps Redaction.

(** * Rows *)

Lemma keys_in {A} (m : gmap string A) id : mem_str id (keys m) = true <-> is_Some (m !! id).
Proof.
  unfold keys. rewrite mem_str_spec, list_elem_of_fmap. split.
  - intros ([k x] & -> & Hx%by_text_in%elem_of_map_to_list). by exists x.
  - intros [x Hx]. exists (id, x). split; [done|]. by apply by_text_in, elem_of_map_to_list.
Qed.
Lemma rows_of_in {A} ids (m : gmap string A) id x : (id, x) ∈ rows_of ids m <-> m !! id = Some x /\ mem_str id ids = true.
Proof. unfold rows_of. by rewrite elem_of_map_to_list, map_lookup_filter_Some. Qed.
Lemma update_rows_lookup {A} ids f (m : gmap string A) id :
  update_rows ids f m !! id = (fun x => if mem_str id ids then f x else x) <$> m !! id.
Proof. unfold update_rows. rewrite map_lookup_imap. by destruct (m !! id). Qed.
Lemma wipe_where_lookup f m key : wipe_where f m !! key = (fun e => if f key e then wipe e else e) <$> m !! key.
Proof. unfold wipe_where. rewrite map_lookup_imap. by destruct (m !! key). Qed.

Lemma same_some a b : same (Some a) (Some b) = true <-> a = b.
Proof. simpl. apply String.eqb_eq. Qed.

(** * Restrictions *)

(** A list of restrictions covers a row, [perm] for good: by a restriction no
    restoration takes out. *)
Definition covers (perm : bool) (l : list restriction) (kind id : string) : Prop :=
  exists r, r ∈ l /\ er_kind r = kind /\ er_target r = id /\ (perm = true -> er_permanent r = true).

Lemma covers_hides perm t kind id ws path : covers perm (t_restrictions t) kind id -> visible t kind id ws path = false.
Proof.
  intros (r & Hr & <- & <- & _). unfold visible. apply negb_false_iff, existsb_exists. exists r.
  split; [by apply list_elem_of_In|]. by rewrite !String.eqb_refl.
Qed.

Lemma same_key_spec a b : same_key a b = true ->
  er_kind b = er_kind a /\ er_target b = er_target a /\ er_permanent b = er_permanent a /\ er_ref b = er_ref a.
Proof.
  unfold same_key. rewrite !andb_true_iff. intros [[[H1%String.eqb_eq H2%String.eqb_eq] H3%Bool.eqb_prop] H4%String.eqb_eq]. done.
Qed.

Lemma put_new_covers perm l r : (perm = true -> er_permanent r = true) -> covers perm (put_new l r) (er_kind r) (er_target r).
Proof.
  intros Hp. unfold put_new. destruct (existsb (same_key r) l) eqn:E.
  - apply existsb_exists in E as (x & Hx%list_elem_of_In & (H1 & H2 & H3 & _)%same_key_spec). exists x. by rewrite H3.
  - exists r. split; [|done]. apply elem_of_app. right. by apply list_elem_of_here.
Qed.
Lemma put_new_kept l r x : x ∈ l -> x ∈ put_new l r.
Proof. intros Hx. unfold put_new. destruct (existsb _ l); [done|]. apply elem_of_app. by left. Qed.
Lemma put_over_covers perm l r : (perm = true -> er_permanent r = true) -> covers perm (put_over l r) (er_kind r) (er_target r).
Proof.
  intros Hp. unfold put_over. destruct (existsb (same_key r) l) eqn:E.
  - apply existsb_exists in E as (x & Hx%list_elem_of_In & Hk). pose proof (same_key_spec _ _ Hk) as (H1 & H2 & H3 & _).
    eexists. split; [apply list_elem_of_fmap; exists x; split; [reflexivity|done]|]. rewrite Hk. cbn. by rewrite H3.
  - exists r. split; [|done]. apply elem_of_app. right. by apply list_elem_of_here.
Qed.
Lemma put_over_kept l r x : x ∈ l -> exists y, y ∈ put_over l r /\ er_kind y = er_kind x /\ er_target y = er_target x /\
  er_permanent y = er_permanent x /\ (er_permanent r = false -> er_permanent x = true -> y = x).
Proof.
  intros Hx. unfold put_over. destruct (existsb _ l); [|exists x; split; [apply elem_of_app; by left|done]].
  eexists. split; [apply list_elem_of_fmap; exists x; split; [reflexivity|done]|].
  destruct (same_key r x) eqn:Ek; [|done]. do 3 (split; [done|]). intros Hr Hp.
  apply same_key_spec in Ek as (_ & _ & H3 & _). congruence.
Qed.

Lemma put_all_covers perm (put : list restriction -> restriction -> list restriction) :
  (forall l r, (perm = true -> er_permanent r = true) -> covers perm (put l r) (er_kind r) (er_target r)) ->
  (forall l r x, x ∈ l -> exists y, y ∈ put l r /\ er_kind y = er_kind x /\ er_target y = er_target x /\ er_permanent y = er_permanent x) ->
  forall rs l kind id, covers perm rs kind id \/ covers perm l kind id -> covers perm (fold_left put rs l) kind id.
Proof.
  intros Hc Hk rs. induction rs as [|r rs IH]; intros l kind id H; simpl; [by destruct H as [(? & ?%elem_of_nil & _)|]|].
  apply IH. destruct H as [(x & [->|Hx]%elem_of_cons & Hk1 & Hk2 & Hp)|(x & Hx & Hk1 & Hk2 & Hp)].
  - right. rewrite <- Hk1, <- Hk2. by apply Hc.
  - left. by exists x.
  - right. destruct (Hk l r x Hx) as (y & Hy & H1 & H2 & H3). exists y. by rewrite H1, H2, H3.
Qed.
Lemma put_new_all perm rs l kind id : covers perm rs kind id \/ covers perm l kind id -> covers perm (fold_left put_new rs l) kind id.
Proof. apply put_all_covers; [intros; by apply put_new_covers|]. intros l0 r x Hx. exists x. by split; [apply put_new_kept|]. Qed.
Lemma put_over_all perm rs l kind id : covers perm rs kind id \/ covers perm l kind id -> covers perm (fold_left put_over rs l) kind id.
Proof.
  apply put_all_covers; [intros; by apply put_over_covers|]. intros l0 r x Hx.
  destruct (put_over_kept l0 r x Hx) as (y & ? & ? & ? & ? & _). by exists y.
Qed.

Lemma put_new_fold_kept rs : forall l x, x ∈ l -> x ∈ fold_left put_new rs l.
Proof. induction rs as [|r rs IH]; intros l x Hx; simpl; [done|]. by apply IH, put_new_kept. Qed.
Lemma put_over_fold_kept rs : (forall r, r ∈ rs -> er_permanent r = false) ->
  forall l x, x ∈ l -> er_permanent x = true -> x ∈ fold_left put_over rs l.
Proof.
  induction rs as [|r rs IH]; intros Hrs l x Hx Hp; simpl; [done|].
  apply IH; [intros r' Hr'; apply Hrs; by apply list_elem_of_further| |done].
  destruct (put_over_kept l r x Hx) as (y & Hy & _ & _ & _ & He). rewrite He in Hy; [done| |done]. apply Hrs, list_elem_of_here.
Qed.

(** * What is permanent *)

Section decisions.
Context {PT : PgText} {PM : PgTime} {UU : UuidParse}.

(** A decision in its steps. *)
Lemma apply_content_inv c holds a c' : apply_content c holds a = Some c' ->
  exists w t case stamp ids comments views c1 c2,
    sql_id (WorkspaceID a) = Some w /\ sql_id (TargetID a) = Some t /\ pg_time (At a) = Some stamp /\
    sql_ids (ItemIDs a) = Some ids /\ sql_ids (CommentIDs a) = Some comments /\ sql_ids (ViewIDs a) = Some views /\
    crosses (Kind a) w ids comments views (tabs c) = false /\
    apply_case holds a w t case ids c = Some c1 /\
    (if mem_str (Kind a) ["redact-item"; "retention"] then redact_items a w t case stamp ids c1 else Some c1) = Some c2 /\
    let c3 := on_exports (lifecycle_exports stamp (Kind a))
                (on_tables (with_holds ((fun r : uuid * hold => fst <$> h_released r.2) <$> map_to_list holds)) (redact_views case views (redact_comments case stamp comments c2))) in
    c' = if String.eqb (Kind a) "cleanup" then cleanup (on_hold holds) stamp c3 else c3.
Proof.
  unfold apply_content. destruct (sql_id (WorkspaceID a)) as [w|]; [|done]. destruct (sql_id (TargetID a)) as [t|]; [|done].
  destruct (sql_id (CaseRef a)) as [[case|]|]; [|done..]. destruct (pg_time (At a)) as [stamp|]; [|done].
  destruct (sql_ids (ItemIDs a)) as [ids|]; [|done]. destruct (sql_ids (CommentIDs a)) as [comments|]; [|done].
  destruct (sql_ids (ViewIDs a)) as [views|]; [|done]. destruct (crosses _ _ _ _ _ _) eqn:Ec; [done|].
  destruct (apply_case _ _ _ _ _ _ _) as [c1|] eqn:E1; [|done].
  destruct (if mem_str _ _ then _ else _) as [c2|] eqn:E2; [|done]. intros [= <-].
  exists w, t, case, stamp, ids, comments, views, c1, c2. done.
Qed.

(** Permanent restrictions stay. *)
Definition keeps (c c' : content) : Prop :=
  forall r, r ∈ t_restrictions (tabs c) -> er_permanent r = true -> r ∈ t_restrictions (tabs c').
#[local] Instance keeps_refl : Reflexive keeps.
Proof. intros c r Hr _. exact Hr. Qed.
#[local] Instance keeps_trans : Transitive keeps.
Proof. intros a b c H1 H2 r Hr Hp. by apply H2; [apply H1|]. Qed.

Lemma keeps_new rs c : keeps c (on_restrictions (fun l => fold_left put_new rs l) c).
Proof. intros r Hr _. by apply put_new_fold_kept. Qed.
Lemma keeps_same c c' : t_restrictions (tabs c') = t_restrictions (tabs c) -> keeps c c'.
Proof. intros E r. by rewrite E. Qed.

Lemma on_restrictions_tabs f c : t_restrictions (tabs (on_restrictions f c)) = f (t_restrictions (tabs c)).
Proof. done. Qed.

Lemma case_keeps holds a w t case ids c c' : apply_case holds a w t case ids c = Some c' -> keeps c c'.
Proof.
  unfold apply_case. intros E.
  destruct (String.eqb (Kind a) "takedown").
  { unfold takedown in E. destruct (rows_of ids (t_items (tabs c))) as [|x rows] eqn:Er; [by injection E as <-|]. destruct t as [t|]; [|done].
    rewrite <- Er in E. injection E as <-. intros r Hr Hp. rewrite on_restrictions_tabs.
    refine (put_over_fold_kept _ _ _ _ Hr Hp). by intros y (z & -> & _)%list_elem_of_fmap. }
  destruct (String.eqb (Kind a) "restore-content").
  { injection E as <-. intros r Hr Hp. apply list_elem_of_In, List.filter_In. split; [by apply list_elem_of_In|].
    unfold restores. rewrite Hp. by rewrite !andb_false_r. }
  destruct (String.eqb (Kind a) "remove-member").
  { destruct w, t, (uuid_parse (ReplacementID a)); try done. unfold remove_member in E. destruct (_ || _); [done|].
    injection E as <-. by apply keeps_same. }
  destruct (String.eqb (Kind a) "anonymize-account").
  { destruct t as [t|]; [|done]. unfold anonymize in E. destruct (_ || _ || _); [done|]. injection E as <-.
    intros r Hr _. by apply put_new_kept. }
  destruct (String.eqb (Kind a) "redact-history"); [injection E as <-; by apply keeps_same|].
  destruct (String.eqb (Kind a) "correct-history").
  { unfold correct_history in E. destruct (negb _); [done|]. injection E as <-. by apply keeps_same. }
  by injection E as <-.
Qed.

Lemma redact_items_inv a w t case stamp ids c c' : redact_items a w t case stamp ids c = Some c' ->
  t_items (tabs c') = update_rows ids (redacted_item stamp) (t_items (tabs c)) /\
  t_comments (tabs c') = t_comments (tabs c) /\ t_views (tabs c') = t_views (tabs c) /\
  (exists rs, t_restrictions (tabs c') = fold_left put_new rs (t_restrictions (tabs c)) /\
     forall id, is_Some (t_items (tabs c) !! id) -> mem_str id ids = true -> covers true rs "item" id) /\
  c_log c' = wipe_where (fun key e => same (Some key.1) w && about ids e) (c_log c) /\
  keeps c c'.
Proof.
  unfold redact_items. destruct (if String.eqb _ _ then _ else _); [done|]. intros [= <-].
  split; [done|]. split; [done|]. split; [done|]. split.
  - eexists. split; [reflexivity|]. intros id [x Hx] Hid. eexists. split.
    + apply list_elem_of_fmap. eexists (id, redacted_item stamp x). split; [reflexivity|]. apply rows_of_in. split; [|done].
      cbn. rewrite update_rows_lookup, Hx. simpl. by rewrite Hid.
    + done.
  - split; [done|]. intros r Hr _. by apply put_new_fold_kept.
Qed.

Lemma redact_comments_inv case stamp ids c :
  let c' := redact_comments case stamp ids c in
  t_comments (tabs c') = update_rows ids (redacted_comment stamp) (t_comments (tabs c)) /\
  t_items (tabs c') = t_items (tabs c) /\ t_views (tabs c') = t_views (tabs c) /\
  (exists rs, t_restrictions (tabs c') = fold_left put_new rs (t_restrictions (tabs c)) /\
     forall id x, t_comments (tabs c) !! id = Some x -> is_Some (t_items (tabs c) !! ec_item x) -> mem_str id ids = true -> covers true rs "comment" id) /\
  (exists f, c_log c' = wipe_where f (c_log c)) /\ keeps c c'.
Proof.
  cbv zeta. split; [done|]. split; [done|]. split; [done|]. split.
  - eexists. split; [reflexivity|]. intros id x Hx [i Hi] Hid. eexists. split.
    + apply list_elem_of_omap. eexists (id, redacted_comment stamp x). split.
      * apply rows_of_in. split; [|done]. cbn. rewrite update_rows_lookup, Hx. simpl. by rewrite Hid.
      * cbn. rewrite Hi. reflexivity.
    + done.
  - split; [by eexists|]. intros r Hr _. by apply put_new_fold_kept.
Qed.

Lemma redact_views_inv case ids c :
  let c' := redact_views case ids c in
  t_views (tabs c') = update_rows ids redacted_view (t_views (tabs c)) /\
  t_items (tabs c') = t_items (tabs c) /\ t_comments (tabs c') = t_comments (tabs c) /\ c_log c' = c_log c /\
  (exists rs, t_restrictions (tabs c') = fold_left put_new rs (t_restrictions (tabs c))) /\ keeps c c'.
Proof. cbv zeta. do 4 (split; [done|]). split; [by eexists|]. intros r Hr _. by apply put_new_fold_kept. Qed.

(** What is hidden for good stays hidden, whatever decisions follow. *)
Theorem permanent_kept c holds a c' r :
  apply_content c holds a = Some c' -> r ∈ t_restrictions (tabs c) -> er_permanent r = true -> r ∈ t_restrictions (tabs c').
Proof.
  intros E. apply apply_content_inv in E as (w & t & case & stamp & ids & comments & views & c1 & c2 & _ & _ & _ & _ & _ & _ & _ & E1 & E2 & ->).
  apply case_keeps in E1. revert r. change (keeps c (if String.eqb (Kind a) "cleanup" then
    cleanup (on_hold holds) stamp (on_exports (lifecycle_exports stamp (Kind a)) (on_tables (with_holds ((fun r0 : uuid * hold => fst <$> h_released r0.2) <$> map_to_list holds)) (redact_views case views (redact_comments case stamp comments c2))))
    else on_exports (lifecycle_exports stamp (Kind a)) (on_tables (with_holds ((fun r0 : uuid * hold => fst <$> h_released r0.2) <$> map_to_list holds)) (redact_views case views (redact_comments case stamp comments c2))))).
  etrans; [exact E1|]. etrans; [|destruct (String.eqb (Kind a) "cleanup"); apply keeps_same; reflexivity].
  etrans; [|exact (proj2 (proj2 (proj2 (proj2 (proj2 (redact_views_inv case views (redact_comments case stamp comments c2)))))))].
  etrans; [|exact (proj2 (proj2 (proj2 (proj2 (proj2 (redact_comments_inv case stamp comments c2))))))].
  destruct (mem_str _ _); [|by injection E2 as <-]. by apply redact_items_inv in E2 as (_ & _ & _ & _ & _ & E2).
Qed.

(** Decisions that follow one another, each against the holds of its moment. *)
Definition decided (c c' : content) : Prop := exists holds a, apply_content c holds a = Some c'.
(** Hidden now and after whatever is decided later. *)
Definition hidden_for_good (c : content) (kind id : string) : Prop :=
  forall c' ws path, rtc decided c c' -> visible (tabs c') kind id ws path = false.

Lemma covered_for_good c kind id : covers true (t_restrictions (tabs c)) kind id -> hidden_for_good c kind id.
Proof.
  intros (r & Hr & Hk & Ht & Hp) c' ws path Hd. apply (covers_hides true). exists r. split; [|done]. specialize (Hp eq_refl). clear -Hr Hp Hd.
  induction Hd as [|x y z (holds & a & Hxy) _ IH]; [done|]. apply IH. by eapply permanent_kept.
Qed.

(** * Redaction *)

(** Identifiers are canonical text. *)
Definition canonical (c : content) : Prop := forall id,
  is_Some (t_items (tabs c) !! id) \/ is_Some (t_comments (tabs c) !! id) -> exists u, id = uuid_string u.

Lemma sql_ids_canonical l : (forall id, mem_str id l = true -> exists u, id = uuid_string u) -> sql_ids l = Some l.
Proof.
  intros Hl. apply mapM_Some, Forall2_same_length_lookup_2; [done|]. intros k x y Hx Hy. rewrite Hx in Hy. injection Hy as <-.
  destruct (Hl x) as [u ->]; [apply mem_str_spec; by eapply list_elem_of_lookup_2|]. by rewrite uuid_parse_string.
Qed.

Lemma item_in_some t id w i : item_in t id w = Some i <-> t_items t !! id = Some i /\ w = Some (ei_workspace i).
Proof.
  unfold item_in. destruct (t_items t !! id) as [x|]; [|naive_solver]. destruct w as [w|]; simpl; [|naive_solver].
  destruct (String.eqb_spec (ei_workspace x) w); naive_solver.
Qed.

(** The plan of a decision about an item and everything below it. *)
Lemma plan_subtree c holds a ids comments views :
  mem_str (Kind a) ["takedown"; "restore-content"; "redact-item"] = true ->
  plan_content c holds a = Some (ids, comments, views) ->
  exists w t i, sql_id (WorkspaceID a) = Some (Some w) /\ sql_id (TargetID a) = Some (Some t) /\
    t_items (tabs c) !! t = Some i /\ ei_workspace i = w /\ ids = keys (subtree (tabs c) w (ei_path i)) /\
    comments = (if String.eqb (Kind a) "redact-item" then keys (comments_on (tabs c) ids) else []) /\ views = [].
Proof.
  intros Hk. unfold plan_content. destruct (sql_id (WorkspaceID a)) as [[w|]|]; [|done..]. destruct (sql_id (TargetID a)) as [t|]; [|done].
  destruct (sql_id (ReplacementID a)); [|done]. destruct (pg_time (At a)); [|done].
  destruct (String.eqb_spec (Kind a) "retention") as [Er|]; [by rewrite Er in Hk|]. destruct t as [t|]; [|done].
  unfold plan_target. rewrite Hk. destruct (item_in _ _ _) as [i|] eqn:Ei; [|done]. intros [= <- <- <-].
  apply item_in_some in Ei as [Hi [= ->]]. by exists (ei_workspace i), t, i.
Qed.

Lemma in_subtree t w root id x : t_items t !! id = Some x -> ei_workspace x = w -> contained (ei_path x) root = true ->
  mem_str id (keys (subtree t w root)) = true.
Proof. intros Hx Hw Hc. apply keys_in. exists x. by apply map_lookup_filter_Some. Qed.
Lemma on_subtree t ids cid x : t_comments t !! cid = Some x -> mem_str (ec_item x) ids = true -> mem_str cid (keys (comments_on t ids)) = true.
Proof. intros Hx Hc. apply keys_in. exists x. by apply map_lookup_filter_Some. Qed.

Lemma planned_ids c w root : canonical c -> sql_ids (keys (subtree (tabs c) w root)) = Some (keys (subtree (tabs c) w root)).
Proof.
  intros Hc. apply sql_ids_canonical. intros id [x Hx]%keys_in. apply map_lookup_filter_Some in Hx as [Hx _]. apply Hc. left. by exists x.
Qed.
Lemma planned_comments c ids : canonical c -> sql_ids (keys (comments_on (tabs c) ids)) = Some (keys (comments_on (tabs c) ids)).
Proof.
  intros Hc. apply sql_ids_canonical. intros id [x Hx]%keys_in. apply map_lookup_filter_Some in Hx as [Hx _]. apply Hc. right. by exists x.
Qed.

Lemma about_any ids id e : mem_str id ids = true -> ce_item e = Some id \/ mentions id (ce_old e) = true \/ mentions id (ce_new e) = true ->
  about ids e = true.
Proof.
  intros Hid H. unfold about. apply orb_true_iff. destruct H as [->|H]; [by left|]. right. apply existsb_exists. exists id.
  split; [by apply list_elem_of_In, mem_str_spec|]. apply orb_true_iff. tauto.
Qed.

(** C17. The redaction of an item, planned and applied, leaves nothing of it: of every
    item at or below it the title, body, fields, assignee, points and dates are gone,
    of every comment on one the body, both are hidden and stay so whatever decisions
    follow (a restoration too), and every entry of the workspace's log that is about one
    or mentions it has lost its values. *)
Theorem redaction_erases c holds a inst origin ids comments views c' :
  canonical c -> Kind a = "redact-item" -> plan_content c holds a = Some (ids, comments, views) ->
  apply_content c holds (materialized a inst origin (ids, comments, views)) = Some c' ->
  exists w t i stamp, sql_id (WorkspaceID a) = Some (Some w) /\ sql_id (TargetID a) = Some (Some t) /\ t_items (tabs c) !! t = Some i /\
    pg_time (At a) = Some stamp /\
    (forall id x, t_items (tabs c) !! id = Some x -> ei_workspace x = w -> contained (ei_path x) (ei_path i) = true ->
       mem_str id ids = true /\ hidden_for_good c' "item" id /\ exists y, t_items (tabs c') !! id = Some y /\
         ei_title y = "[redacted]" /\ ei_body y = None /\ ei_fields y = JObj [] /\ ei_assignee y = None /\ ei_points y = None /\
         ei_start y = None /\ ei_due y = None /\ ei_deleted y = Some (default stamp (ei_deleted x))) /\
    (forall cid x, t_comments (tabs c) !! cid = Some x -> mem_str (ec_item x) ids = true ->
       hidden_for_good c' "comment" cid /\ exists y, t_comments (tabs c') !! cid = Some y /\
         ec_body y = "[redacted]" /\ ec_deleted y = Some (default stamp (ec_deleted x))) /\
    (forall seq e id, c_log c !! (w, seq) = Some e -> mem_str id ids = true ->
       ce_item e = Some id \/ mentions id (ce_old e) = true \/ mentions id (ce_new e) = true ->
       exists e', c_log c' !! (w, seq) = Some e' /\ ce_old e' = Some wiped /\ ce_new e' = Some wiped).
Proof.
  intros Hcan Ek Hp Ha. destruct (plan_subtree c holds a ids comments views) as (w & t & i & Hw & Ht & Hi & Hiw & Hids & Hcs & ->); [by rewrite Ek|done|].
  rewrite Ek in Hcs. simpl in Hcs.
  apply apply_content_inv in Ha as (w' & t' & case & stamp & ids' & comments' & views' & c1 & c2 & Hw' & Ht' & Hst & Hids' & Hcs' & Hvs' & _ & E1 & E2 & ->).
  cbn [materialized At WorkspaceID TargetID ItemIDs CommentIDs ViewIDs Kind fst snd] in *.
  rewrite Hw in Hw'. injection Hw' as <-. rewrite Hids, planned_ids, <- Hids in Hids' by done. injection Hids' as <-.
  rewrite Hcs, planned_comments, <- Hcs in Hcs' by done. injection Hcs' as <-. injection Hvs' as <-.
  unfold apply_case in E1. cbn [materialized Kind] in E1. rewrite Ek in E1. cbn in E1. injection E1 as <-.
  rewrite Ek in E2. cbn in E2. apply redact_items_inv in E2 as (I1 & I2 & _ & (rs & I3 & I4) & I5 & _).
  destruct (redact_comments_inv case stamp comments c2) as (J1 & J2 & _ & (rs' & J3 & J4) & (f & J5) & _).
  destruct (redact_views_inv case [] (redact_comments case stamp comments c2)) as (_ & K2 & K3 & K5 & (rs'' & K4) & _).
  rewrite Ek. set (c3 := redact_views case [] (redact_comments case stamp comments c2)) in *. cbn [String.eqb Ascii.eqb Bool.eqb].
  assert (Hsub : forall id x, t_items (tabs c) !! id = Some x -> ei_workspace x = w -> contained (ei_path x) (ei_path i) = true -> mem_str id ids = true).
  { intros id x Hx Hxw Hxc. rewrite Hids. eapply in_subtree; eauto. }
  exists w, t, i, stamp. do 4 (split; [done|]). split_and!.
  - intros id x Hx Hxw Hxc. pose proof (Hsub _ _ Hx Hxw Hxc) as Hid. split; [done|]. split.
    + apply covered_for_good. change (covers true (t_restrictions (tabs c3)) "item" id). rewrite K4, J3, I3. do 2 (apply put_new_all; right).
      apply put_new_all; left. by apply I4; [exists x|].
    + exists (redacted_item stamp x). split; [|done]. change (t_items (tabs c3) !! id = Some (redacted_item stamp x)).
      by rewrite K2, J2, I1, update_rows_lookup, Hx; simpl; rewrite Hid.
  - intros cid x Hx Hxi. assert (Hcid : mem_str cid comments = true) by (rewrite Hcs; by eapply on_subtree). split.
    + apply covered_for_good. change (covers true (t_restrictions (tabs c3)) "comment" cid). rewrite K4, J3. apply put_new_all; right. apply put_new_all; left.
      apply (J4 cid x); [by rewrite I2| |done]. rewrite I1, update_rows_lookup, fmap_is_Some.
      rewrite Hids in Hxi. apply keys_in in Hxi as [y Hy]. apply map_lookup_filter_Some in Hy as [Hy _]. by exists y.
    + exists (redacted_comment stamp x). split; [|done]. change (t_comments (tabs c3) !! cid = Some (redacted_comment stamp x)). by rewrite K3, J1, I2, update_rows_lookup, Hx; simpl; rewrite Hcid.
  - intros seq e id He Hid Hab. exists (wipe e). split; [|done]. change (c_log c3 !! (w, seq) = Some (wipe e)).
    rewrite K5, J5, I5, !wipe_where_lookup, He. simpl. rewrite String.eqb_refl, (about_any ids id e Hid Hab). simpl. by destruct (f _ _).
Qed.

(** * Takedown and restoration *)

Lemma takedown_restrictions w t case ids c c' : takedown w (Some t) case ids c = Some c' ->
  exists rs, t_restrictions (tabs c') = fold_left put_over rs (t_restrictions (tabs c)) /\
    (forall r, r ∈ rs -> er_kind r = "item" /\ er_workspace r = w /\ er_permanent r = false /\ er_ref r = t) /\
    (forall id, is_Some (t_items (tabs c) !! id) -> mem_str id ids = true -> covers false rs "item" id) /\
    t_items (tabs c') = t_items (tabs c) /\ t_comments (tabs c') = t_comments (tabs c) /\ t_views (tabs c') = t_views (tabs c) /\ c_log c' = c_log c.
Proof.
  intros E. unfold takedown in E. destruct (rows_of ids (t_items (tabs c))) as [|x rows] eqn:Er.
  - injection E as <-. exists []. split; [done|]. split; [by intros r ?%elem_of_nil|]. split; [|done].
    intros id [i Hi] Hid. assert (Hin : (id, i) ∈ rows_of ids (t_items (tabs c))) by (by apply rows_of_in). rewrite Er in Hin. by apply elem_of_nil in Hin.
  - rewrite <- Er in E. injection E as <-. eexists. split; [apply on_restrictions_tabs|]. split; [|split; [|done]].
    + by intros r (z & -> & _)%list_elem_of_fmap.
    + intros id [i Hi] Hid. eexists. split; [apply list_elem_of_fmap; eexists (id, i); split; [reflexivity|by apply rows_of_in]|done].
Qed.

(** Taking the restrictions of a takedown out again. *)
Lemma restore_put_over w t rs : forall l,
  (forall r, r ∈ rs -> er_kind r = "item" /\ er_workspace r = w /\ er_permanent r = false /\ er_ref r = t) -> is_Some w ->
  (forall x, x ∈ l -> er_kind x = "item" -> er_permanent x = false -> er_ref x = t -> er_workspace x = w) ->
  List.filter (fun r => negb (restores w (Some t) r)) (fold_left put_over rs l) = List.filter (fun r => negb (restores w (Some t) r)) l.
Proof.
  induction rs as [|r rs IH]; intros l Hrs Hw Hl; simpl; [done|].
  destruct (Hrs r (list_elem_of_here _ _)) as (K1 & K2 & K3 & K4).
  assert (Hres : forall x, er_kind x = "item" -> er_permanent x = false -> er_ref x = t -> er_workspace x = w -> restores w (Some t) x = true).
  { intros x H1 H2 H3 H4. unfold restores. rewrite H1, H2, H3, H4. destruct Hw as [v ->]. simpl. by rewrite !String.eqb_refl. }
  rewrite IH; [|intros r' Hr'; apply Hrs; by apply list_elem_of_further|done|].
  - unfold put_over. destruct (existsb (same_key r) l).
    + clear IH Hrs. induction l as [|x l IHl]; [done|]. cbn [fmap list_fmap List.filter].
      assert (Hx : forall y, y ∈ l -> er_kind y = "item" -> er_permanent y = false -> er_ref y = t -> er_workspace y = w) by (intros y Hy; apply Hl; by apply list_elem_of_further).
      specialize (IHl Hx). destruct (same_key r x) eqn:Ek.
      * pose proof (same_key_spec _ _ Ek) as (H1 & H2 & H3 & H4).
        assert (Hxw : er_workspace x = w) by (apply Hl; [apply list_elem_of_here|congruence..]).
        rewrite (Hres x) by congruence. rewrite Hres by (simpl; congruence). simpl. exact IHl.
      * destruct (negb _); [f_equal|]; exact IHl.
    + rewrite List.filter_app. simpl. rewrite Hres by done. simpl. by rewrite app_nil_r.
  - intros x Hx. unfold put_over in Hx. destruct (existsb (same_key r) l).
    + apply list_elem_of_fmap in Hx as (y & -> & Hy). destruct (same_key r y); simpl; by apply Hl.
    + apply elem_of_app in Hx as [Hx|Hx]; [by apply Hl|]. apply list_elem_of_singleton in Hx as ->. done.
Qed.

Lemma restore_nothing w t l : (forall r, r ∈ l -> er_kind r = "item" -> er_permanent r = false -> er_ref r <> t) ->
  List.filter (fun r => negb (restores w (Some t) r)) l = l.
Proof.
  induction l as [|r l IH]; intros Hno; [done|]. cbn [List.filter].
  assert (restores w (Some t) r = false) as ->.
  { unfold restores. destruct (String.eqb_spec (er_kind r) "item") as [H1|]; [|done]. destruct (er_permanent r) eqn:H2; [by rewrite andb_false_r|].
    destruct (String.eqb_spec (er_ref r) t) as [H3|H3]; [by destruct (Hno r (list_elem_of_here _ _) H1 H2)|].
    simpl. rewrite (proj2 (String.eqb_neq _ _) H3). by rewrite andb_false_r. }
  simpl. f_equal. apply IH. intros r' Hr'. apply Hno. by apply list_elem_of_further.
Qed.

(** No comments and no views, nothing to do. *)
Lemma update_rows_nil {A} f (m : gmap string A) : update_rows [] f m = m.
Proof. apply map_eq. intros k. rewrite update_rows_lookup. simpl. by destruct (m !! k). Qed.
Lemma rows_of_nil {A} (m : gmap string A) : rows_of [] m = [].
Proof.
  destruct (rows_of [] m) as [|[k x] l] eqn:E; [done|]. assert (H : (k, x) ∈ rows_of [] m) by (rewrite E; apply list_elem_of_here).
  by apply rows_of_in in H as [_ H].
Qed.
Lemma wipe_nothing (f : string * Z -> change -> bool) (m : gmap (string * Z) change) : (forall k e, f k e = false) -> wipe_where f m = m.
Proof. intros Hf. apply map_eq. intros k. rewrite wipe_where_lookup. destruct (m !! k) as [e|]; simpl; [by rewrite Hf|done]. Qed.
Lemma redact_comments_nil case stamp c : redact_comments case stamp [] c = c.
Proof.
  unfold redact_comments. destruct c as [[t x e] l s r]. unfold on_log, on_restrictions, on_tables, tabs.
  cbn [c_export d_tables d_exports d_events c_log c_sessions c_rollups t_items t_comments t_restrictions with_comments with_restrictions]. rewrite update_rows_nil, rows_of_nil. cbn [omap list_omap fold_left fmap list_fmap].
  rewrite wipe_nothing; [by destruct t|]. intros k [[?|] ? ? ?]; done.
Qed.
Lemma redact_views_nil case c : redact_views case [] c = c.
Proof.
  unfold redact_views. destruct c as [[t x e] l s r]. unfold on_restrictions, on_tables, tabs.
  cbn [c_export d_tables d_exports d_events c_log c_sessions c_rollups t_views t_restrictions with_views with_restrictions]. rewrite update_rows_nil, rows_of_nil. by destruct t.
Qed.

(** A takedown hides every item at or below its target and destroys nothing, and
    restoring the target puts the restrictions back to what they were. *)
Theorem takedown_restored c holds a inst origin ids comments views c1 b c2 :
  canonical c -> Kind a = "takedown" -> plan_content c holds a = Some (ids, comments, views) ->
  apply_content c holds (materialized a inst origin (ids, comments, views)) = Some c1 ->
  Kind b = "restore-content" -> sql_id (WorkspaceID b) = sql_id (WorkspaceID a) -> sql_id (TargetID b) = sql_id (TargetID a) ->
  CommentIDs b = [] -> ViewIDs b = [] -> apply_content c1 holds b = Some c2 ->
  exists w t i, sql_id (WorkspaceID a) = Some (Some w) /\ sql_id (TargetID a) = Some (Some t) /\ t_items (tabs c) !! t = Some i /\
    (forall id x path, t_items (tabs c) !! id = Some x -> ei_workspace x = w -> contained (ei_path x) (ei_path i) = true ->
       visible (tabs c1) "item" id w path = false) /\
    t_items (tabs c1) = t_items (tabs c) /\ t_comments (tabs c1) = t_comments (tabs c) /\ t_views (tabs c1) = t_views (tabs c) /\ c_log c1 = c_log c /\
    ((forall r, r ∈ t_restrictions (tabs c) -> er_kind r = "item" -> er_permanent r = false -> er_ref r <> t) ->
       t_restrictions (tabs c2) = t_restrictions (tabs c)).
Proof.
  intros Hcan Ek Hp Ha Eb Hbw Hbt Hbc Hbv Hb.
  destruct (plan_subtree c holds a ids comments views) as (w & t & i & Hw & Ht & Hi & Hiw & Hids & Hcs & ->); [by rewrite Ek|done|].
  rewrite Ek in Hcs. simpl in Hcs. subst comments. rewrite Hw in Hbw. rewrite Ht in Hbt.
  apply apply_content_inv in Ha as (w' & t' & case & stamp & ids' & cs & vs & d1 & d2 & Hw' & Ht' & _ & Hids' & Hcs' & Hvs' & _ & E1 & E2 & ->).
  cbn [materialized WorkspaceID TargetID ItemIDs CommentIDs ViewIDs Kind fst snd] in *.
  rewrite Hw in Hw'. injection Hw' as <-. rewrite Ht in Ht'. injection Ht' as <-.
  rewrite Hids, planned_ids, <- Hids in Hids' by done. injection Hids' as <-. injection Hcs' as <-. injection Hvs' as <-.
  unfold apply_case in E1. cbn [materialized Kind] in E1. rewrite Ek in E1. cbn [String.eqb Ascii.eqb Bool.eqb] in E1.
  rewrite Ek in E2. cbn in E2. injection E2 as <-.
  apply takedown_restrictions in E1 as (rs & R1 & R2 & R3 & R4 & R5 & R6 & R7).
  apply apply_content_inv in Hb as (w' & t' & case' & stamp' & ids' & cs & vs & e1 & e2 & Hw' & Ht' & _ & _ & Hcs' & Hvs' & _ & F1 & F2 & ->).
  rewrite Hbw in Hw'. injection Hw' as <-. rewrite Hbt in Ht'. injection Ht' as <-. rewrite Hbc in Hcs'. rewrite Hbv in Hvs'.
  injection Hcs' as <-. injection Hvs' as <-. unfold apply_case in F1. rewrite Eb in F1, F2. cbn in F2. injection F2 as <-.
  cbn [String.eqb Ascii.eqb Bool.eqb] in F1. injection F1 as <-.
  rewrite Ek, Eb, !redact_comments_nil, !redact_views_nil. cbn [String.eqb Ascii.eqb Bool.eqb].
  exists w, t, i. do 3 (split; [done|]). split_and!; [|exact R4|exact R5|exact R6|exact R7|].
  - intros id x path Hx Hxw Hxc. apply (covers_hides false). change (covers false (t_restrictions (tabs d1)) "item" id). rewrite R1.
    apply put_over_all. left. apply R3; [by exists x|]. rewrite Hids. by eapply in_subtree.
  - intros Hno. match goal with |- t_restrictions (tabs (on_exports _ (on_tables _ ?z))) = _ => change (t_restrictions (tabs z) = t_restrictions (tabs c)) end.
    unfold restore_content. rewrite on_restrictions_tabs.
    match goal with |- List.filter _ (t_restrictions (tabs ?z)) = _ => change (t_restrictions (tabs z)) with (t_restrictions (tabs d1)) end.
    rewrite R1, (restore_put_over (Some w) t); [|exact R2|done|intros x Hx H1 H2 H3; by destruct (Hno x Hx H1 H2)].
    by apply restore_nothing.
Qed.

(** * Other workspaces *)

Lemma rows_existsb {A} (f : string * A -> bool) ids (m : gmap string A) id x :
  existsb f (rows_of ids m) = false -> m !! id = Some x -> mem_str id ids = true -> f (id, x) = false.
Proof.
  intros He Hx Hid. destruct (f (id, x)) eqn:Ef; [|done]. rewrite <- He. symmetry. apply existsb_exists. exists (id, x).
  split; [by apply list_elem_of_In, rows_of_in|done].
Qed.

Lemma crosses_inv k w ids comments views t : crosses k (Some w) ids comments views t = false -> k <> "anonymize-account" ->
  (forall id x, t_items t !! id = Some x -> ei_workspace x <> w -> mem_str id ids = false) /\
  (forall id x v, t_comments t !! id = Some x -> comment_workspace t x = Some v -> v <> w -> mem_str id comments = false) /\
  (forall id x, t_views t !! id = Some x -> ev_workspace x <> w -> mem_str id views = false).
Proof.
  unfold crosses. intros [Hi H]%orb_false_iff Hk. rewrite (proj2 (String.eqb_neq _ _) Hk) in H. simpl in H. apply orb_false_iff in H as [Hc Hv].
  split_and!.
  - intros id x Hx Hw. destruct (mem_str id ids) eqn:E; [|done]. pose proof (rows_existsb _ _ _ _ _ Hi Hx E) as H. cbn [snd] in H.
    by rewrite (proj2 (String.eqb_neq _ _) Hw) in H.
  - intros id x v Hx Hxv Hw. destruct (mem_str id comments) eqn:E; [|done]. pose proof (rows_existsb _ _ _ _ _ Hc Hx E) as H. cbn [snd] in H.
    by rewrite Hxv, (proj2 (String.eqb_neq _ _) Hw) in H.
  - intros id x Hx Hw. destruct (mem_str id views) eqn:E; [|done]. pose proof (rows_existsb _ _ _ _ _ Hv Hx E) as H. cbn [snd] in H.
    by rewrite (proj2 (String.eqb_neq _ _) Hw) in H.
Qed.

Lemma case_rows holds a w t case ids c c' : apply_case holds a (Some w) t case ids c = Some c' ->
  (forall id x, t_items (tabs c) !! id = Some x -> ei_workspace x <> w -> t_items (tabs c') !! id = Some x) /\
  t_comments (tabs c') = t_comments (tabs c) /\ t_views (tabs c') = t_views (tabs c).
Proof.
  unfold apply_case. intros E.
  assert (Hsame : t_items (tabs c') = t_items (tabs c) /\ t_comments (tabs c') = t_comments (tabs c) /\ t_views (tabs c') = t_views (tabs c) ->
    (forall id x, t_items (tabs c) !! id = Some x -> ei_workspace x <> w -> t_items (tabs c') !! id = Some x) /\
    t_comments (tabs c') = t_comments (tabs c) /\ t_views (tabs c') = t_views (tabs c)) by (by intros (-> & -> & ->)).
  destruct (String.eqb (Kind a) "takedown").
  { destruct t as [t|]; [|unfold takedown in E; by destruct (rows_of _ _); [injection E as <-; apply Hsame|]].
    apply takedown_restrictions in E as (rs & _ & _ & _ & H1 & H2 & H3 & _). by apply Hsame. }
  destruct (String.eqb (Kind a) "restore-content"); [injection E as <-; by apply Hsame|].
  destruct (String.eqb (Kind a) "remove-member").
  { destruct t, (uuid_parse (ReplacementID a)); try done. unfold remove_member in E. destruct (_ || _); [done|]. injection E as <-.
    split; [|done]. intros id x Hx Hw. cbn. rewrite lookup_fmap, Hx. simpl. by rewrite (proj2 (String.eqb_neq _ _) Hw). }
  destruct (String.eqb (Kind a) "anonymize-account").
  { destruct t as [t|]; [|done]. unfold anonymize in E. destruct (_ || _ || _); [done|]. injection E as <-. by apply Hsame. }
  destruct (String.eqb (Kind a) "redact-history"); [injection E as <-; by apply Hsame|].
  destruct (String.eqb (Kind a) "correct-history"); [|injection E as <-; by apply Hsame].
  unfold correct_history in E. destruct (negb _); [done|]. injection E as <-. by apply Hsame.
Qed.

(** A decision about a workspace leaves the items, comments and views of the others
    as they are; the anonymization of an account alone reaches further. *)
Theorem other_workspaces_kept c holds a c' w :
  apply_content c holds a = Some c' -> Kind a <> "anonymize-account" -> sql_id (WorkspaceID a) = Some (Some w) ->
  (forall id x, t_items (tabs c) !! id = Some x -> ei_workspace x <> w -> t_items (tabs c') !! id = Some x) /\
  (forall id x v, t_comments (tabs c) !! id = Some x -> comment_workspace (tabs c) x = Some v -> v <> w -> t_comments (tabs c') !! id = Some x) /\
  (forall id x, t_views (tabs c) !! id = Some x -> ev_workspace x <> w -> t_views (tabs c') !! id = Some x).
Proof.
  intros E Hk Hw. apply apply_content_inv in E as (w' & t & case & stamp & ids & comments & views & c1 & c2 & Hw' & _ & _ & _ & _ & _ & Hx & E1 & E2 & ->).
  rewrite Hw in Hw'. injection Hw' as <-. destruct (crosses_inv _ _ _ _ _ _ Hx Hk) as (X1 & X2 & X3).
  apply case_rows in E1 as (A1 & A2 & A3).
  assert (B : (forall id x, t_items (tabs c) !! id = Some x -> ei_workspace x <> w -> t_items (tabs c2) !! id = Some x) /\
              t_comments (tabs c2) = t_comments (tabs c) /\ t_views (tabs c2) = t_views (tabs c)).
  { destruct (mem_str _ _); [|by injection E2 as <-]. apply redact_items_inv in E2 as (I1 & I2 & I3 & _). rewrite I2, I3. split; [|done].
    intros id x Hi Hne. rewrite I1, update_rows_lookup, (A1 _ _ Hi Hne). simpl. by rewrite (X1 _ _ Hi Hne). }
  destruct B as (B1 & B2 & B3).
  destruct (redact_comments_inv case stamp comments c2) as (J1 & J2 & J3 & _).
  destruct (redact_views_inv case views (redact_comments case stamp comments c2)) as (K1 & K2 & K3 & _).
  set (c3 := redact_views case views (redact_comments case stamp comments c2)) in *.
  assert (C : (forall id x, t_items (tabs c) !! id = Some x -> ei_workspace x <> w -> t_items (tabs c3) !! id = Some x) /\
    (forall id x v, t_comments (tabs c) !! id = Some x -> comment_workspace (tabs c) x = Some v -> v <> w -> t_comments (tabs c3) !! id = Some x) /\
    (forall id x, t_views (tabs c) !! id = Some x -> ev_workspace x <> w -> t_views (tabs c3) !! id = Some x)).
  { split_and!.
    - intros id x Hi Hne. rewrite K2, J2. by apply B1.
    - intros id x v Hi Hv Hne. rewrite K3, J1, B2, update_rows_lookup, Hi. simpl. by rewrite (X2 _ _ _ Hi Hv Hne).
    - intros id x Hi Hne. rewrite K1, J3, B3, update_rows_lookup, Hi. simpl. by rewrite (X3 _ _ Hi Hne). }
  by destruct (String.eqb (Kind a) "cleanup").
Qed.

(** * Members *)

(** Whoever was removed has no membership, no session, and nothing assigned or owned
    in the workspace, which still has an active administrator. *)
Theorem remove_member_gone w u r c c' : remove_member w u r c = Some c' ->
  t_members (tabs c') !! (w, u) = None /\
  (forall id s, c_sessions c' !! id = Some s -> se_user s <> u) /\
  (forall id i, t_items (tabs c') !! id = Some i -> ei_workspace i = w -> ei_assignee i <> Some u) /\
  (forall id p, t_projects (tabs c') !! id = Some p -> ep_workspace p = w -> ep_owner p <> Some u) /\
  active_admin (tabs c') (Some w) r = true /\ r <> u.
Proof.
  unfold remove_member. destruct (active_admin (tabs c) (Some w) r) eqn:Ea; [|done]. destruct (String.eqb_spec r u) as [|Hne]; [done|].
  intros [= <-]. cbn. split_and!; [by apply lookup_delete_eq| | | |rewrite lookup_delete_ne by congruence; exact Ea|done].
  - intros id s Hs. by apply map_lookup_filter_Some in Hs as [_ Hs].
  - intros id i Hi Hw Hu. rewrite lookup_fmap in Hi. destruct (t_items (tabs c) !! id) as [x|]; [|done]. simpl in Hi. injection Hi as <-.
    destruct (String.eqb_spec (ei_workspace x) w) as [Hx|Hx]; [|done]. destruct (same (ei_assignee x) (Some u)) eqn:Es; [done|]. simpl in Hu.
    rewrite Hu in Es. simpl in Es. by rewrite String.eqb_refl in Es.
  - intros id p Hp Hw Hu. rewrite lookup_fmap in Hp. destruct (t_projects (tabs c) !! id) as [x|]; [|done]. simpl in Hp. injection Hp as <-.
    destruct (String.eqb_spec (ep_workspace x) w) as [Hx|Hx]; [|done]. destruct (same (ep_owner x) (Some u)) eqn:Es.
    + simpl in Hu. by injection Hu.
    + simpl in Hu. rewrite Hu in Es. simpl in Es. by rewrite String.eqb_refl in Es.
Qed.

(** * What was planned applies *)

(** Canonical identifiers, of views too. *)
Definition well_keyed (c : content) : Prop := canonical c /\ forall id, is_Some (t_views (tabs c) !! id) -> exists u, id = uuid_string u.

(** The rows there are stay the rows there are. *)
Definition rows_within (c c' : content) : Prop :=
  (forall id, is_Some (t_items (tabs c') !! id) -> is_Some (t_items (tabs c) !! id)) /\
  (forall id, is_Some (t_comments (tabs c') !! id) -> is_Some (t_comments (tabs c) !! id)) /\
  (forall id, is_Some (t_views (tabs c') !! id) -> is_Some (t_views (tabs c) !! id)).
#[local] Instance rows_within_preorder : PreOrder rows_within.
Proof. split; [by intros c|]. intros a b c (A1 & A2 & A3) (B1 & B2 & B3). split_and!; auto. Qed.

Lemma within_same c c' : t_items (tabs c') = t_items (tabs c) -> t_comments (tabs c') = t_comments (tabs c) -> t_views (tabs c') = t_views (tabs c) -> rows_within c c'.
Proof. unfold rows_within. by intros -> -> ->. Qed.
Lemma update_rows_within {A} ids f (m : gmap string A) id : is_Some (update_rows ids f m !! id) -> is_Some (m !! id).
Proof. by rewrite update_rows_lookup, fmap_is_Some. Qed.

Lemma case_within holds a w t case ids c c' : apply_case holds a w t case ids c = Some c' -> rows_within c c'.
Proof.
  unfold apply_case. intros E.
  destruct (String.eqb (Kind a) "takedown").
  { unfold takedown in E. destruct (rows_of _ _); [by injection E as <-|]. destruct t as [t|]; [|done]. injection E as <-. by apply within_same. }
  destruct (String.eqb (Kind a) "restore-content"); [injection E as <-; by apply within_same|].
  destruct (String.eqb (Kind a) "remove-member").
  { destruct w, t, (uuid_parse (ReplacementID a)); try done. unfold remove_member in E. destruct (_ || _); [done|]. injection E as <-.
    split; [|done]. intros id. cbn. by rewrite lookup_fmap, fmap_is_Some. }
  destruct (String.eqb (Kind a) "anonymize-account").
  { destruct t as [t|]; [|done]. unfold anonymize in E. destruct (_ || _ || _); [done|]. injection E as <-. by apply within_same. }
  destruct (String.eqb (Kind a) "redact-history"); [injection E as <-; by apply within_same|].
  destruct (String.eqb (Kind a) "correct-history"); [|by injection E as <-].
  unfold correct_history in E. destruct (negb _); [done|]. injection E as <-. by apply within_same.
Qed.

Lemma apply_within c holds a c' : apply_content c holds a = Some c' -> rows_within c c'.
Proof.
  intros E. apply apply_content_inv in E as (w & t & case & stamp & ids & comments & views & c1 & c2 & _ & _ & _ & _ & _ & _ & _ & E1 & E2 & ->).
  etrans; [by eapply case_within|]. trans c2.
  { destruct (mem_str _ _); [|by injection E2 as <-]. apply redact_items_inv in E2 as (I1 & I2 & I3 & _). unfold rows_within. rewrite I1, I2, I3.
    split; [|done]. intros id. apply update_rows_within. }
  destruct (redact_comments_inv case stamp comments c2) as (J1 & J2 & J3 & _).
  destruct (redact_views_inv case views (redact_comments case stamp comments c2)) as (K1 & K2 & K3 & _).
  set (c3 := redact_views case views (redact_comments case stamp comments c2)) in *. trans c3; [|by destruct (String.eqb (Kind a) "cleanup"); apply within_same].
  unfold rows_within. rewrite K1, K2, K3, J1, J2, J3. split_and!; [done|intros id; apply update_rows_within..].
Qed.

Lemma apply_keyed c holds a c' : well_keyed c -> apply_content c holds a = Some c' -> well_keyed c'.
Proof.
  intros [H1 H2] (W1 & W2 & W3)%apply_within. split; [|by intros id Hid; apply H2, W3]. intros id [Hid|Hid]; apply H1; [left; by apply W1|right; by apply W2].
Qed.

(** What a plan lists: identifiers in canonical text, of rows of the workspace. *)
Record plan_lists (c : content) (k : string) (w : option string) (ids comments views : list string) : Prop := {
  li_ids : sql_ids ids = Some ids; li_comments : sql_ids comments = Some comments; li_views : sql_ids views = Some views;
  li_items id i : t_items (tabs c) !! id = Some i -> mem_str id ids = true -> w = Some (ei_workspace i);
  li_others : k = "anonymize-account" \/
    (forall id x v, t_comments (tabs c) !! id = Some x -> mem_str id comments = true -> comment_workspace (tabs c) x = Some v -> w = Some v) /\
    (forall id v, t_views (tabs c) !! id = Some v -> mem_str id views = true -> w = Some (ev_workspace v)) }.

Lemma lists_cross c k w ids comments views : plan_lists c k w ids comments views -> crosses k w ids comments views (tabs c) = false.
Proof.
  intros [_ _ _ Hi Ho]. unfold crosses. apply orb_false_iff. split.
  - apply not_true_iff_false. rewrite existsb_exists. intros ([id i] & [Hx Hid]%list_elem_of_In%rows_of_in & Hne). cbn [fst snd] in *.
    rewrite (Hi _ _ Hx Hid), String.eqb_refl in Hne. done.
  - destruct (String.eqb_spec k "anonymize-account") as [|Hk]; [done|]. destruct Ho as [|[Hc Hv]]; [done|]. cbn [negb andb]. apply orb_false_iff. split.
    + apply not_true_iff_false. rewrite existsb_exists. intros ([id x] & [Hx Hid]%list_elem_of_In%rows_of_in & Hne). cbn [fst snd] in *.
      destruct (comment_workspace (tabs c) x) as [v|] eqn:Ev; [|done]. rewrite (Hc _ _ _ Hx Hid Ev), String.eqb_refl in Hne. done.
    + apply not_true_iff_false. rewrite existsb_exists. intros ([id x] & [Hx Hid]%list_elem_of_In%rows_of_in & Hne). cbn [fst snd] in *.
      rewrite (Hv _ _ Hx Hid), String.eqb_refl in Hne. done.
Qed.

Lemma keys_filter_in {A} (P : string * A -> Prop) `{!forall x, Decision (P x)} (m : gmap string A) id :
  mem_str id (keys (filter P m)) = true -> exists x, m !! id = Some x /\ P (id, x).
Proof. intros [x Hx]%keys_in. apply map_lookup_filter_Some in Hx as [Hx HP]. by exists x. Qed.
Lemma mem_take id n l : mem_str id (take n l) = true -> mem_str id l = true.
Proof. rewrite !mem_str_spec. intros (i & Hi & _)%elem_of_take. by eapply list_elem_of_lookup_2. Qed.
Lemma sql_ids_rows {A} (m : gmap string A) l : (forall id, is_Some (m !! id) -> exists u, id = uuid_string u) ->
  (forall id, mem_str id l = true -> is_Some (m !! id)) -> sql_ids l = Some l.
Proof. intros Hm Hl. apply sql_ids_canonical. intros id Hid. by apply Hm, Hl. Qed.
Lemma sql_id_canonical s u : sql_id s = Some (Some u) -> exists v, u = uuid_string v.
Proof. unfold sql_id, sql_uuid. destruct (String.eqb _ _); [done|]. destruct (uuid_parse s) as [v|]; [|done]. intros [= <-]. by exists v. Qed.

(** What the plan does not look at: the e-mail address an anonymised account gets. *)
Definition erased_free (c : content) (a : Action) : bool :=
  negb (String.eqb (Kind a) "anonymize-account") || match sql_id (TargetID a) with Some (Some t) => email_free t (tabs c) | _ => true end.

(** The lists of a plan with a target. *)
Lemma subtree_listed c k w root : well_keyed c ->
  let ids := keys (subtree (tabs c) w root) in plan_lists c k (Some w) ids (if String.eqb k "redact-item" then keys (comments_on (tabs c) ids) else []) [].
Proof.
  intros [Hc Hv]. cbv zeta. set (ids := keys _).
  assert (Hids : forall id, mem_str id ids = true -> exists i, t_items (tabs c) !! id = Some i /\ ei_workspace i = w).
  { intros id (i & Hi & Hw & _)%keys_filter_in. by exists i. }
  split; [by apply planned_ids| |done| |right; split].
  - destruct (String.eqb k "redact-item"); [by apply planned_comments|done].
  - intros id i Hi (x & Hx & <-)%Hids. congruence.
  - intros id x v Hx Hid Ev. destruct (String.eqb k "redact-item"); [|done]. apply keys_filter_in in Hid as (y & Hy & Hin). rewrite Hx in Hy. injection Hy as <-.
    apply Hids in Hin as (i & Hi & <-). unfold comment_workspace in Ev. cbn [snd] in Hi. rewrite Hi in Ev. by injection Ev as <-.
  - done.
Qed.

Lemma nothing_listed c k w : plan_lists c k w [] [] [].
Proof. split; try done. right. by split. Qed.

Lemma one_in id x : mem_str id [x] = true -> id = x.
Proof. rewrite mem_str_spec. by intros ->%list_elem_of_singleton. Qed.

Lemma plan_target_applies c holds a w t r stamp inst origin case ids comments views :
  well_keyed c -> erased_free c a = true -> sql_id (TargetID a) = Some (Some t) -> sql_id (ReplacementID a) = Some r -> Kind a <> "retention" ->
  plan_target c holds a (Kind a) w t r stamp = Some (ids, comments, views) ->
  plan_lists c (Kind a) (Some w) ids comments views /\
  is_Some (apply_case holds (materialized a inst origin (ids, comments, views)) (Some w) (Some t) case ids c).
Proof.
  intros Hk Hfree Ht Hr Hret. destruct (sql_id_canonical _ _ Ht) as [tu Htu]. unfold plan_target, apply_case. cbn [materialized Kind ReplacementID].
  destruct (mem_str (Kind a) ["takedown"; "restore-content"; "redact-item"]) eqn:E1.
  { destruct (item_in _ _ _) as [i|]; [|done]. intros [= <- <- <-]. split; [by apply subtree_listed|]. apply mem_str_spec in E1.
    rewrite !elem_of_cons in E1. destruct E1 as [E|[E|[E|[]%elem_of_nil]]]; rewrite E; cbn [String.eqb Ascii.eqb Bool.eqb]; [|by eexists..].
    unfold takedown. destruct (rows_of _ _); by eexists. }
  destruct (String.eqb_spec (Kind a) "redact-comment") as [->|_].
  { destruct (t_comments (tabs c) !! t) as [x|] eqn:Ex; [|done]. destruct (same _ _) eqn:Es; [|done]. intros [= <- <- <-]. split; [|by eexists].
    split; try done; [apply sql_ids_canonical; intros id ->%one_in; by exists tu|]. right. split; [|done]. intros id y v Hy ->%one_in Ev.
    rewrite Ex in Hy. injection Hy as <-. rewrite Ev in Es. apply same_some in Es. congruence. }
  destruct (String.eqb_spec (Kind a) "redact-view") as [->|_].
  { destruct (t_views (tabs c) !! t) as [x|] eqn:Ex; [|done]. destruct (String.eqb_spec (ev_workspace x) w) as [Hw|]; [|done]. intros [= <- <- <-]. split; [|by eexists].
    split; try done; [apply sql_ids_canonical; intros id ->%one_in; by exists tu|]. right. split; [done|]. intros id y Hy ->%one_in. congruence. }
  destruct (String.eqb_spec (Kind a) "redact-history") as [->|_].
  { destruct (item_in _ _ _); [|done]. intros [= <- <- <-]. split; [apply nothing_listed|by eexists]. }
  destruct (String.eqb_spec (Kind a) "correct-history") as [->|_].
  { destruct (c_log c !! _); [|done]. destruct (correction_ok (Correction a)) eqn:Ec; [|done]. destruct (_ && _); [|done]. intros [= <- <- <-]. split; [apply nothing_listed|].
    cbn [String.eqb Ascii.eqb Bool.eqb]. unfold correct_history. cbn [materialized Correction]. rewrite Ec. by eexists. }
  destruct (String.eqb_spec (Kind a) "remove-member") as [->|_].
  { destruct r as [r|]; [|done]. destruct (String.eqb_spec r t); [done|]. destruct (active_admin _ _ r) eqn:Ea; [|done]. destruct (is_some _); [|done].
    intros [= <- <- <-]. split; [apply nothing_listed|]. cbn [String.eqb Ascii.eqb Bool.eqb]. unfold sql_id, sql_uuid in Hr. destruct (String.eqb (ReplacementID a) ""); [done|].
    destruct (uuid_parse (ReplacementID a)) as [ru|]; [|done]. injection Hr as Hr. rewrite Hr. unfold remove_member. rewrite Ea, (proj2 (String.eqb_neq _ _)) by done. by eexists. }
  destruct (String.eqb_spec (Kind a) "anonymize-account") as [E|_]; [|done]. rewrite E. unfold erased_free in Hfree. rewrite E, Ht in Hfree. cbn in Hfree.
  destruct (negb _ || _ || _) eqn:Eg; [done|]. intros [= <- <- <-]. rewrite !orb_false_iff, negb_false_iff in Eg. destruct Eg as [[_ Eb] Eh]. split.
  - destruct Hk as [Hc Hv]. split; [done| | |done|by left].
    + apply (sql_ids_rows (t_comments (tabs c))); [intros id Hid; apply Hc; by right|]. intros id (x & Hx & _)%keys_filter_in. by exists x.
    + apply (sql_ids_rows (t_views (tabs c))); [done|]. intros id (x & Hx & _)%keys_filter_in. by exists x.
  - cbn [String.eqb Ascii.eqb Bool.eqb]. unfold anonymize. rewrite Eb, Eh, Hfree. rewrite andb_false_r. by eexists.
Qed.

Lemma retention_listed c w cutoff : well_keyed c ->
  plan_lists c "retention" (Some w) (take row_limit (keys (retained_items (tabs c) w cutoff))) (take row_limit (keys (retained_comments (tabs c) w cutoff))) [].
Proof.
  intros [Hc Hv].
  assert (Hi : forall id, mem_str id (take row_limit (keys (retained_items (tabs c) w cutoff))) = true -> exists i, t_items (tabs c) !! id = Some i /\ ei_workspace i = w).
  { intros id (i & Hi & Hw & _)%mem_take%keys_filter_in. by exists i. }
  assert (Hx : forall id, mem_str id (take row_limit (keys (retained_comments (tabs c) w cutoff))) = true -> exists x, t_comments (tabs c) !! id = Some x /\ comment_workspace (tabs c) x = Some w).
  { intros id (x & Hx & Hw & _)%mem_take%keys_filter_in. by exists x. }
  split; [| |done| |right; split; [|done]].
  - apply (sql_ids_rows (t_items (tabs c))); [intros id Hid; apply Hc; by left|]. intros id (i & Hid & _)%Hi. by exists i.
  - apply (sql_ids_rows (t_comments (tabs c))); [intros id Hid; apply Hc; by right|]. intros id (i & Hid & _)%Hx. by exists i.
  - intros id i Hid (x & Hy & <-)%Hi. congruence.
  - intros id x v Hid (y & Hy & Ey)%Hx Ev. congruence.
Qed.

Lemma retention_in_time c w cutoff id i : t_items (tabs c) !! id = Some i ->
  mem_str id (take row_limit (keys (retained_items (tabs c) w cutoff))) = true -> forall o, o = Some cutoff \/ o = None -> retained o (ei_deleted i) = true.
Proof.
  intros Hi (x & Hx & _ & Hp & _)%mem_take%keys_filter_in o Ho. rewrite Hi in Hx. injection Hx as <-. cbn [snd] in Hp. unfold past, retained in *.
  destruct (ei_deleted i) as [d|]; [|done]. by destruct Ho as [->| ->].
Qed.

(** A plan with all that applying reads of it. *)
Lemma plan_content_applies c holds a ids comments views inst origin case : well_keyed c -> erased_free c a = true ->
  plan_content c holds a = Some (ids, comments, views) ->
  exists w t stamp, sql_id (WorkspaceID a) = Some (Some w) /\ sql_id (TargetID a) = Some t /\ pg_time (At a) = Some stamp /\
    plan_lists c (Kind a) (Some w) ids comments views /\
    exists c1, apply_case holds (materialized a inst origin (ids, comments, views)) (Some w) t case ids c = Some c1 /\
      forall stamp, is_Some (if mem_str (Kind a) ["redact-item"; "retention"] then redact_items (materialized a inst origin (ids, comments, views)) (Some w) t case stamp ids c1 else Some c1).
Proof.
  intros Hk Hfree. unfold plan_content. destruct (sql_id (WorkspaceID a)) as [[w|]|]; [|done..]. destruct (sql_id (TargetID a)) as [t|] eqn:Et; [|done].
  destruct (sql_id (ReplacementID a)) as [r|] eqn:Er; [|done]. destruct (pg_time (At a)) as [stamp|]; [|done].
  destruct (String.eqb_spec (Kind a) "retention") as [E|Hne].
  - destruct (pg_time (Cutoff a)) as [cutoff|] eqn:Ec; [|done]. destruct (cutoff <? stamp); [|done]. intros [= <- <- <-]. exists w, t, stamp. rewrite E.
    do 3 (split; [done|]). split; [by apply retention_listed|]. exists c. unfold apply_case. cbn [materialized Kind]. rewrite E. split; [done|].
    intros st. cbn [mem_str existsb String.eqb Ascii.eqb Bool.eqb orb]. unfold redact_items. cbn [materialized Kind Cutoff]. rewrite E, Ec. cbn [String.eqb Ascii.eqb Bool.eqb].
    match goal with |- is_Some (if ?b then None else _) => assert (b = false) as -> end; [|by eexists].
    destruct (String.eqb (Cutoff a) ""); cbn [option_map]; apply not_true_iff_false; rewrite existsb_exists; intros ([id i] & [Hi Hid]%list_elem_of_In%rows_of_in & Hn);
      cbn [fst snd] in *; (rewrite (retention_in_time c w cutoff id i) in Hn; [done|done|done|tauto]).
  - destruct t as [t|]; [|done]. intros Hp.
    destruct (plan_target_applies c holds a w t r stamp inst origin case ids comments views Hk Hfree Et Er Hne Hp) as [Hl [c1 Hc1]].
    exists w, (Some t), stamp. do 4 (split; [done|]). exists c1. split; [exact Hc1|]. intros st. destruct (mem_str _ _); [|by eexists].
    unfold redact_items. cbn [materialized Kind]. rewrite (proj2 (String.eqb_neq _ _) Hne). by eexists.
Qed.

Lemma apply_content_some c holds a w t case stamp ids comments views c1 :
  sql_id (WorkspaceID a) = Some w -> sql_id (TargetID a) = Some t -> sql_id (CaseRef a) = Some (Some case) -> pg_time (At a) = Some stamp ->
  ItemIDs a = ids -> CommentIDs a = comments -> ViewIDs a = views -> plan_lists c (Kind a) w ids comments views ->
  apply_case holds a w t case ids c = Some c1 ->
  is_Some (if mem_str (Kind a) ["redact-item"; "retention"] then redact_items a w t case stamp ids c1 else Some c1) -> is_Some (apply_content c holds a).
Proof.
  intros Hw Ht Hc Hs <- <- <- Hl H1 [c2 H2]. unfold apply_content. rewrite Hw, Ht, Hc, Hs, (li_ids _ _ _ _ _ _ Hl), (li_comments _ _ _ _ _ _ Hl), (li_views _ _ _ _ _ _ Hl).
  rewrite (lists_cross _ _ _ _ _ _ Hl), H1, H2. by eexists.
Qed.

(** The tables keep what the operator's commands rely on to recover. *)
#[export] Instance sql_applies now : OperatorProps.Applies content (H0 := sql_content now).
Proof.
  refine {| OperatorProps.content_ok := well_keyed; OperatorProps.foreseen := erased_free |}; [|intros c h a c' Hc E; exact (apply_keyed _ _ _ _ Hc E)].
  intros c h h' a [[ids comments] views] inst origin Hk Hfree Hst Hkind [w Hw] [t Ht] [u Hu] Hids.
  assert (Hcase : sql_id (CaseRef a) = Some (Some (uuid_string u))).
  { unfold sql_id, sql_uuid. destruct (String.eqb_spec (CaseRef a) "") as [E|]; [rewrite E, uuid_parse_empty in Hu; done|]. by rewrite Hu. }
  destruct (mem_str (Kind a) OperatorProps.own_kinds) eqn:Eo.
  - injection Hids as -> -> ->. cbn [stamp_ok sql_content] in Hst. unfold stamp_current in Hst. destruct (pg_time (At a)) as [stamp|] eqn:Es; [|done].
    assert (Hk3 : Kind a = "hold-create" \/ Kind a = "hold-release" \/ Kind a = "cleanup").
    { apply mem_str_spec in Eo. unfold OperatorProps.own_kinds in Eo. rewrite !elem_of_cons in Eo. destruct Eo as [?|[?|[?|[]%elem_of_nil]]]; tauto. }
    apply (apply_content_some c h' (materialized a inst origin ([], [], [])) (uuid_string <$> w) (uuid_string <$> t) (uuid_string u) stamp [] [] [] c); try done.
    + unfold sql_id. cbn [materialized WorkspaceID]. by rewrite Hw.
    + unfold sql_id. cbn [materialized TargetID]. by rewrite Ht.
    + apply nothing_listed.
    + unfold apply_case. cbn [materialized Kind]. destruct Hk3 as [->|[->| ->]]; done.
    + cbn [materialized Kind]. destruct Hk3 as [->|[->| ->]]; by eexists.
  - destruct Hids as [Hp ->]. destruct (plan_content_applies c h a ids comments views inst origin (uuid_string u) Hk Hfree Hp) as (w' & t' & stamp & E1 & E2 & E3 & Hl & c1 & H1 & H2).
    by eapply (apply_content_some c h (materialized a inst origin (ids, comments, views))).
Qed.

End decisions.

(** * A redaction *)

Module RedactionDemo.
#[local] Existing Instance ExportsDemo.demo_text.
#[export] Instance demo_time : PgTime := {| pg_time := parse_int64 |}.

Definition ws : string := uuid_string (U 1).
Definition top : string := uuid_string (U 2).
Definition sub : string := uuid_string (U 3).
Definition note : string := uuid_string (U 4).
Definition who : string := uuid_string (U 5).

Definition row (path : string) (parent : option string) (title : string) : item_row :=
  mkItem ws path "K-1" "p" parent title (Some "secret") (JObj []) 1 None (Some who) (Some 300) None None false.
Definition c0 : content :=
  mkContent (mkExportDb (mkTables ∅ ∅ ∅ ∅
      (<[top := row top None "Top"]> {[sub := row (top +:+ "." +:+ sub) (Some top) "Sub"]})
      {[note := mkComment sub who "private" 5 None None]} ∅ [] []) ∅ [])
    (<[(ws, 1) := mkChange (Some sub) (Some who) None (Some (JStr "secret"))]> {[(ws, 2) := mkChange (Some "other") None None (Some (JStr "open"))]})
    ∅ {[top := mkRollup 1 0 (Some 300) None None None]}.

Definition decision : Action := mkAction "redact-item" (uuid_string (U 9)) ws top "" "" "" "" "" 0 "100" "" "" [] [] [].
Definition planned := match plan_content c0 ∅ decision with Some x => x | None => ([], [], []) end.
Definition c1 : content := match apply_content c0 ∅ (materialized decision "" "" planned) with Some c => c | None => c0 end.

Lemma c0_canonical : canonical c0.
Proof.
  intros id [Hi|Hi]; cbn in Hi.
  - apply lookup_insert_is_Some in Hi as [<-|[_ Hi]]; [by exists (U 2)|]. apply lookup_singleton_is_Some in Hi as <-. by exists (U 3).
  - apply lookup_singleton_is_Some in Hi as <-. by exists (U 4).
Qed.

(** What [foreseen] asks for: the anonymisation of an account whose address to be is
    another account's is planned, and so recorded, but never applies. *)
Definition leaver : string := uuid_string (U 6).
Definition account_of (email : string) : account_row := mkAccount email "Eve" None None "system" None true 0.
Definition taken : content :=
  on_tables (with_accounts (<[leaver := account_of "eve@example.org"]> {[who := account_of (erased_email leaver)]})) c0.
Definition erasure : Action := mkAction "anonymize-account" (uuid_string (U 9)) ws leaver "" "" "" "" "" 0 "100" "" "" [] [] [].
Example taken_email_ex :
  plan_content taken ∅ erasure = Some ([], [], []) /\ apply_content taken ∅ (materialized erasure "" "" ([], [], [])) = None /\
  erased_free taken erasure = false.
Proof. vm_compute. split_and!; reflexivity. Qed.

(** The two items and the comment, the log and the rollup afterwards. *)
Example redacted_ex :
  (planned, ei_title <$> t_items (tabs c1) !! sub, ec_body <$> t_comments (tabs c1) !! note,
   ce_new <$> c_log c1 !! (ws, 1), ce_new <$> c_log c1 !! (ws, 2), ru_count <$> c_rollups c1 !! top)
  = (([top; sub], [note], []), Some "[redacted]", Some "[redacted]", Some (Some wiped), Some (Some (JStr "open")), Some 0%nat).
Proof. vm_compute. reflexivity. Qed.

Lemma redaction_erases_witness : exists y, t_items (tabs c1) !! sub = Some y /\ ei_title y = "[redacted]" /\ ei_body y = None.
Proof.
  destruct (redaction_erases c0 ∅ decision "" "" planned.1.1 planned.1.2 planned.2 c1 c0_canonical eq_refl) as (w & t & i & stamp & Hw & Ht & Hi & Hs & H & _);
    [vm_compute; reflexivity|vm_compute; reflexivity|].
  assert (w = ws) as -> by (vm_compute in Hw; injection Hw as <-; vm_compute; reflexivity).
  assert (t = top) as -> by (vm_compute in Ht; injection Ht as <-; vm_compute; reflexivity).
  assert (i = row top None "Top") as -> by (vm_compute in Hi; injection Hi as <-; vm_compute; reflexivity).
  destruct (H sub (row (top +:+ "." +:+ sub) (Some top) "Sub")) as (_ & _ & y & Hy & Ht' & Hb & _); [vm_compute; reflexivity..|].
  exists y. split; [exact Hy|]. split; [exact Ht'|exact Hb].
Defined.

End RedactionDemo.
End RedactionProps.
